(* ===== verification/_CoqProject ===== *)
-Q . S2P
Prelude.v
GoTime.v
Json.v
LuaPattern.v
Hash.v
Url.v
Redis.v
World.v
Cache.v
Footprint.v
TokenDomain.v
Blacklist.v
TokenService.v
TokenSpecs.v
TokenIndex.v
TokenInv.v
TokenProps.v
AccessProps.v
TokenExamples.v
Session.v
SessionService.v
SessionSpecs.v
SessionProps.v
OAuthDomain.v
AuthCode.v
DeviceCode.v
ServiceFootprints.v
SessionExamples.v
DeviceProps.v
DeviceFlow.v
GoStrings.v
AccountDomain.v
Credential.v
Database.v
ClientRepo.v
ClientService.v
ClientProps.v
ClientController.v
AccountRepo.v
Mfa.v
Scan.v
Site.v
Verification.v
StateFootprints.v
AccountService.v
ConsentService.v
ConsentProps.v
ClientExamples.v
AuthMiddleware.v
HttpMiddleware.v
AuthCore.v
AuthLogin.v
PasswordReset.v
Passkey.v
OidcService.v
OidcController.v
OidcProps.v
OAuthController.v
TokenEndpoint.v
AuthorizeEndpoint.v
AuthController.v
SocialLogin.v
AdminController.v
Wiring.v
Config.v
TokenEndpointProps.v
AuthSpecs.v
AuthProps.v
RefreshProps.v
AuthorizeProps.v
TokenEndpointClaims.v
VerifyProps.v
PasswordResetProps.v
PasskeyProps.v
RateProps.v
Startup.v
Router.v
ControllerProps.v
AuthExamples.v
EndpointExamples.v
