(* ===== verification/Prelude.v ===== *)
(** * gosso: a verification development of the identity provider

    gosso is a single sign-on server in Go: accounts, sessions, OAuth 2.0 and OpenID
    Connect. Its state is in Redis (tokens, sessions, codes, counters, caches) and in a
    PostgreSQL database (accounts, credentials, passkeys, clients, consents); the processes
    that serve requests keep little of their own. The development models the components
    that decide who is let in, as executable definitions, and proves what they promise.

    ** How the parts interact

    The engine finds the route of a request and runs its chain of handlers, the middleware
    and then the endpoint of a controller, which calls services;
    the services change Redis through the client wrapper of [internal/cache], mostly with
    Lua scripts so that a change is one atomic round trip, and the database through
    repositories, in transactions where several statements belong together. Sessions
    revoke tokens through the interface [TokenRevoker]; the token endpoint gets its grants
    from the authorization code and device code services; [Wiring] passes the functions
    of one module to another as [cmd/gosso] and the [module.go] files do.

    ** Files

    Base. [Prelude]: errors, the state and error monad [M] with its weakest preconditions,
    the shared tactics. [GoTime]: instants in nanoseconds, calendar, RFC 3339 text,
    decimal integers. [Json]: [encoding/json] for the documents of the program and the
    effect of [cjson]. [LuaPattern]: the patterns the scripts run on stored text. [Hash]:
    SHA-256, hexadecimal, base64url. [Url]: [net/url]. [GoStrings]: [strings],
    [unicode/utf8], [net.ParseIP], HMAC.

    Environment. [Redis]: the commands, the class [RedisServer] of servers with their
    documented laws, the in-memory server [mem_redis] that meets them, and the rules for
    scripts. [Scan]: SCAN and the loops over it. [World]: clock, entropy, network and audit
    trail around a request. A round trip may be refused or its reply lost ([fate]);
    theorems that do not ask for a healthy network hold whatever it does. [Database]: the
    tables, statements and transactions at READ COMMITTED: between two statements others
    may commit ([db_others], [meanwhile]), statements may be refused and replies lost. What an
    operation that only reads may answer is a matter of a later database, with the lemmas
    [reads_...] beside each repository. [Footprint],
    [ServiceFootprints], [StateFootprints]: which keys an operation may touch. [Site]: the
    state of a process, with the world, the database, its session objects and caches.

    Components, each with its files of theorems.
    - [Cache]: [internal/cache/redis_client.go].
    - [TokenDomain], [Blacklist], [TokenService]: [internal/token]. [TokenSpecs],
      [TokenIndex], [TokenInv], [TokenProps], [AccessProps].
    - [Session], [SessionService]: [internal/session]. [SessionSpecs], [SessionProps].
    - [OAuthDomain]: [internal/oauth2/domain]; [AuthCode], [DeviceCode]: the two code
      services. [DeviceProps], [DeviceFlow].
    - [ClientRepo], [ClientService], [ClientController]: registered clients;
      [ConsentService]: consents and their cache. [ClientProps], [ConsentProps].
    - [AccountDomain], [Credential], [AccountRepo], [AccountService]: [internal/account],
      the table of passkeys included.
    - [AuthMiddleware]: [internal/auth/middleware]. [HttpMiddleware]: the limit of requests,
      the CSRF check and request identifiers of [middleware]. [RateProps].
    - [AuthCore], [AuthLogin], [PasswordReset], [Verification], [Mfa], [Passkey]:
      [internal/auth/service], that is login, second factors, logout, lockout, refresh,
      profile, verification codes, password reset and the ceremonies of passkeys.
      [AuthSpecs], [AuthProps], [RefreshProps], [VerifyProps], [PasswordResetProps],
      [PasskeyProps].
    - [AuthController]: the handlers of [internal/auth/controller]. [SocialLogin]: login
      through an identity provider, service and handlers. [AdminController]: the handlers of
      [internal/admin] and the queries of [internal/audit]. [ControllerProps].
    - [OidcService], [OidcController]: [internal/oidc], with the discovery document.
      [OidcProps].
    - [OAuthController], [TokenEndpoint], [AuthorizeEndpoint]: [internal/oauth2/controller].
      [TokenEndpointProps], [TokenEndpointClaims], [AuthorizeProps].
    - [Wiring]: how the modules are connected, and the adapters between them.
    - [Config]: the settings of [config/config.go], their defaults and their validation.
    - [Startup]: the signing keys ([internal/token/service/key_service.go]) and what the
      construction of the services in [internal/auth/module.go],
      [internal/oauth2/module.go] and [cmd/gosso/web_modules.go] makes of the settings.
    - [Router]: the routes of [router/web.go] and of the controllers, the engine of
      [cmd/gosso/web_engine.go], a request on its way through its chain, and the theorems
      about them.
    - [TokenExamples], [SessionExamples], [ClientExamples], [AuthExamples],
      [EndpointExamples]: sample runs. They show that the hypotheses of the theorems can be
      met, and the deviations found.

    A Go struct is a record, a method is a definition of the same name over the monad
    whose state is what it reaches: the server for a script, the world for a service over
    Redis, the world and the database, or the whole process. A Go error is a value of
    [err]; sentinels are compared as [errors.Is] does. Requests arrive parsed, answers are
    status codes with their members.

    ** What the theorems show

    - Router: an endpoint that is not open runs only for an accepted token of a live
      session, one of the administration only with role, scope and permission; an endpoint
      with a limit only after its limiter had room; a request forged by another origin is
      confined to the routes for GET and to endpoints that take their authority from the
      body; the discovery document says what is served.
    - Endpoints: a grant of the token endpoint implies an authenticated client, an active
      account, and a code, device code or refresh token that covers what is granted; codes
      are exchanged once; an authorization code or consent page answers the request it was
      made for, and a consent page grants what it shows; a client learns about and revokes its
      own tokens only.
    - Middleware: a request that passes carries a live token of a live session; at most
      the limit of requests passes in every window.
    - Login: success implies that the limits had room, an active account, its password and
      its second factor, and a stored session with tokens of that account; guesses at passwords and at
      verification codes are bounded; backup codes, codes and tokens between the factors
      are good once; after a password reset the new password opens the account and tokens of
      earlier seconds are refused. From the request to the cookies: a login by passkey answers
      a ceremony that was begun and not used, with a passkey of the account; a login through a
      provider is for the account that has the identity, for one whose verified address the
      provider gave, or for a new one; what weakens an account needs its current password.
    - Administration: an administrator cannot turn on the own account; the pages of the
      audit trail show each record once.
    - Tokens: every live refresh token is in the index of its session, so that revoking a
      session leaves none; rotation replaces a token and can be repeated for thirty
      seconds; acceptance of an access token implies signature, dates, audience and that
      neither token nor account was revoked, and fails closed when Redis is away.
    - Sessions: acceptance implies that the session is stored and within its limits;
      creating one enforces the limit per account; the eviction script implements its
      specification; the local cache stays bounded; revocation reaches the tokens.
    - Device codes: the stored document follows the state machine pending, authorized or
      denied, used; a claim is for the right client and account and happens once.
    - Clients and consents: registered clients stay valid, change only by their owner and
      without lost updates; the cache of consents is transparent while nothing fails.
    - Start: settings that were accepted start a server, whose services meet the conditions
      of their theorems under two more that the validation leaves out
      ([plain_settings]); whatever fails while a process
      starts, the signing key survives, and later starts have it again.
    - Deviations: the counterexamples in the modules named [Deviations].

    ** Parameters

    Code outside the repository is an instance of a class with its documented laws. The Redis
    server is [RedisServer] and [ScanServer]; PostgreSQL's rounding of timestamps and
    collation is [Postgres]; signing and parsing of JWTs is [JwtLib] and [IdJwt]; password
    hashes are [Argon2] and [Bcrypt]; one-time passwords and AES-GCM are [Totp] and [AesGcm];
    [UUIDLib], [MailLib], [TzLib], [Unicode] and [Lower] are the parts of packages with tables
    of their own, [ValidatorLib] and [UUIDValue] those the controllers use; [WebAuthnLib]
    makes and checks the ceremonies of passkeys; [GounoCSRF] the CSRF tokens; [GinLibs] finds
    the route of a path and decides about CORS; [ProviderHTTP] is the requests to identity
    providers with the decoding of their answers. [RsaLib] is RSA keys and their encodings,
    [StartupLibs] the constructors of the libraries that may refuse their settings. Whether
    the Lua interpreter has [os.date] is [LuaOS]. A [Sender] delivers messages and touches
    nothing. Entropy is two streams of the world. The process runs in UTC. Each class has a
    concrete instance in the sample runs.

    ** Bounds and fuel

    Recursion over text and documents is on a length or a fuel computed from the input;
    the decoder of JSON gets the length of its text, and [jparse_jprint] shows that this
    is enough for every document. SHA-256 gets the length of its padded message as the
    number of blocks. Loops over SCAN have the 1000 rounds of the code. The wait for the
    lock of a refresh has 202 rounds, enough for five seconds at 25 milliseconds
    ([refresh_terminates]). 64-bit overflow is stated where the code can meet it
    (counters, Unix seconds, the offset of a page). Durations of more than 97 days would meet the rounding of
    float64 ([ceil_secs]).

    ** Not modelled

    Logging and metrics; how gin finds routes and parses forms; templates; cancellation of
    requests and time limits, recovery from panics and logs being handlers that let a request
    pass (a failing source of entropy, where [uuid.New] panics, is an error here); the syntax
    check of PostgreSQL's [uuid], so identifiers are taken to be in their canonical text; the
    pipeline that writes the audit trail; mail and text messages; how settings are read,
    commands and migrations; the sending of logout notifications. Signing keys are files in a
    map from paths, without links between them. The member that the limit of requests adds to
    its window is the text of a number below 10^14, which milliseconds reach in the year 5138.
    Timing: constant-time comparison and the dummy password checks have no effect a model of
    results can show. *)
From stdpp Require Export base gmap strings list fin_maps.
From Stdlib Require Export Ascii.
#[export] Set Default Proof Using "Type".

#[global] Arguments String.append : simpl nomatch.

Declare Scope go_scope.
Delimit Scope go_scope with go.

(** ** Errors

    A Go [error] is either a sentinel ([errors.New] bound to a package variable),
    an anonymous error created on the spot, a value of an error type of the program, or
    a wrapper ([fmt.Errorf] with [%w]) around another error. *)
Inductive err : Type :=
  | Sentinel (msg : string)
  | Anon (msg : string)
  | Typed (type msg : string)
  | Wrap (ctx : string) (inner : err).

#[export] Instance err_eq_dec : EqDecision err.
Proof. solve_decision. Defined.

(** [errors.Is(e, target)] walks the chain of wrapped errors; an anonymous error is
    identical to no sentinel. [errors.As] looks for an error type. *)
Fixpoint errors_is (e target : err) : bool :=
  match e with
  | Sentinel _ => bool_decide (e = target)
  | Anon _ | Typed _ _ => false
  | Wrap _ e' => errors_is e' target
  end.
Fixpoint errors_as (e : err) (type : string) : bool :=
  match e with
  | Typed ty _ => bool_decide (ty = type)
  | Sentinel _ | Anon _ => false
  | Wrap _ e' => errors_as e' type
  end.

(** The result of a Go function returning [(T, error)]. *)
Inductive res (A : Type) : Type :=
  | Ok (a : A)
  | Err (e : err).
Arguments Ok {A} a.
Arguments Err {A} e.

Definition is_ok {A} (r : res A) : bool :=
  match r with Ok _ => true | Err _ => false end.

Definition wrap_res {A} (ctx : string) (r : res A) : res A :=
  match r with Ok a => Ok a | Err e => Err (Wrap ctx e) end.

(** ** A state and error monad

    [M S A] is code that reads and writes a state [S] and returns [(A, error)].
    Binding propagates the error, as [if err != nil { return err }] does; the
    state written before the error stays. *)
Definition M (S A : Type) : Type := S → res A * S.

Section monad.
Context {S : Type}.

Definition ret {A} (a : A) : M S A := λ s, (Ok a, s).
Definition fail {A} (e : err) : M S A := λ s, (Err e, s).
Definition lift_res {A} (r : res A) : M S A := λ s, (r, s).
Definition bind {A B} (m : M S A) (k : A → M S B) : M S B := λ s,
  match m s with
  | (Ok a, s') => k a s'
  | (Err e, s') => (Err e, s')
  end.
(** [x, err := m] where the code inspects [err] itself. *)
Definition try {A} (m : M S A) : M S (res A) := λ s,
  let '(r, s') := m s in (Ok r, s').
(** [return fmt.Errorf("ctx: %w", err)] on failure. *)
Definition wrap {A} (ctx : string) (m : M S A) : M S A := λ s,
  let '(r, s') := m s in (wrap_res ctx r, s').
Definition gets {A} (f : S → A) : M S A := λ s, (Ok (f s), s).
Definition modify (f : S → S) : M S unit := λ s, (Ok tt, f s).
(** The error is logged and dropped. *)
Definition ignore {A} (m : M S A) : M S unit := λ s, (Ok tt, (m s).2).

Fixpoint for_each {A} (l : list A) (f : A → M S unit) : M S unit :=
  match l with
  | [] => ret tt
  | x :: l' => bind (f x) (λ _, for_each l' f)
  end.
End monad.

Notation "'let!' x := m 'in' k" := (bind m (λ x, k))
  (at level 10, x pattern, m at level 100, k at level 200) : go_scope.
Notation "m ;; k" := (bind m (λ _, k))
  (at level 100, k at level 200, right associativity) : go_scope.
#[export] Set Warnings "-notation-overridden,-clear-no-such-hyp".
Open Scope go_scope.

(** Early return: [if b { return e }]. *)
Definition guard_err {S} (b : bool) (e : err) : M S unit :=
  if b then fail e else ret tt.

(** ** Weakest preconditions *)
Definition wp {S A} (m : M S A) (Q : res A → S → Prop) (s : S) : Prop :=
  Q (m s).1 (m s).2.

Section wp.
Context {S : Type}.
Implicit Types s : S.

Lemma wp_ret {A} (a : A) (Q : res A → S → Prop) s : Q (Ok a) s → wp (ret a) Q s.
Proof. done. Qed.
Lemma wp_fail {A} e (Q : res A → S → Prop) s : Q (Err e) s → wp (fail e) Q s.
Proof. done. Qed.
Lemma wp_lift_res {A} (r : res A) (Q : res A → S → Prop) s : Q r s → wp (lift_res r) Q s.
Proof. done. Qed.
Lemma wp_gets {A} (f : S → A) (Q : res A → S → Prop) s : Q (Ok (f s)) s → wp (gets f) Q s.
Proof. done. Qed.
Lemma wp_modify f (Q : res unit → S → Prop) s : Q (Ok tt) (f s) → wp (modify f) Q s.
Proof. done. Qed.
Lemma wp_bind {A B} (m : M S A) (k : A → M S B) (Q : res B → S → Prop) s :
  wp m (λ r s', match r with Ok a => wp (k a) Q s' | Err e => Q (Err e) s' end) s →
  wp (bind m k) Q s.
Proof. unfold wp, bind. by destruct (m s) as [[a|e] s']. Qed.
Lemma wp_try {A} (m : M S A) (Q : res (res A) → S → Prop) s :
  wp m (λ r s', Q (Ok r) s') s → wp (try m) Q s.
Proof. unfold wp, try. by destruct (m s). Qed.
Lemma wp_wrap {A} ctx (m : M S A) (Q : res A → S → Prop) s :
  wp m (λ r s', Q (wrap_res ctx r) s') s → wp (wrap ctx m) Q s.
Proof. unfold wp, wrap. by destruct (m s). Qed.
Lemma wp_ignore {A} (m : M S A) (Q : res unit → S → Prop) s :
  wp m (λ _ s', Q (Ok tt) s') s → wp (ignore m) Q s.
Proof. done. Qed.
Lemma wp_mono {A} (m : M S A) (Q1 Q2 : res A → S → Prop) s :
  wp m Q1 s → (∀ r s', Q1 r s' → Q2 r s') → wp m Q2 s.
Proof. unfold wp. auto. Qed.
Lemma wp_intro {A} (m : M S A) (Q : res A → S → Prop) s r s' :
  m s = (r, s') → wp m Q s → Q r s'.
Proof. unfold wp. by intros ->. Qed.
Lemma wp_eq {A} (m : M S A) (Q : res A → S → Prop) s :
  wp m Q s → ∃ r s', m s = (r, s') ∧ Q r s'.
Proof. unfold wp. destruct (m s) as [r s']. eauto. Qed.

(** A run is determined by its result: the final state need not be written out. *)
Lemma run_ok {A} (m : M S A) s r : (m s).1 = r → m s = (r, (m s).2).
Proof. intros <-. by destruct (m s). Qed.

Lemma wp_guard_err (b : bool) e (Q : res unit → S → Prop) s :
  (b = true → Q (Err e) s) → (b = false → Q (Ok tt) s) → wp (guard_err b e) Q s.
Proof. destruct b; unfold wp; cbn; auto. Qed.

(** An invariant of the loop body is an invariant of the loop. *)
Lemma wp_for_each_inv {A} (I : S → Prop) (l : list A) f s :
  I s → (∀ x s, x ∈ l → I s → wp (f x) (λ r s', is_ok r ∧ I s') s) →
  wp (for_each l f) (λ r s', r = Ok tt ∧ I s') s.
Proof.
  revert s. induction l as [|x l IH]; intros s HI Hf; cbn [for_each]; [done|].
  apply wp_bind. eapply wp_mono; [apply Hf; [set_solver|done]|].
  intros [[]|e] s' [Hr HI']; [|done]. apply IH; [done|].
  intros y s'' Hy. apply Hf. set_solver.
Qed.
End wp.

(** [wp_step] peels one monad operation off the goal. *)
Ltac wp_step :=
  lazymatch goal with
  | |- wp (bind _ _) _ _ => apply wp_bind
  | |- wp (ret _) _ _ => apply wp_ret
  | |- wp (fail _) _ _ => apply wp_fail
  | |- wp (lift_res _) _ _ => apply wp_lift_res
  | |- wp (gets _) _ _ => apply wp_gets
  | |- wp (modify _) _ _ => apply wp_modify
  | |- wp (try _) _ _ => apply wp_try
  | |- wp (wrap _ _) _ _ => apply wp_wrap
  | |- wp (ignore _) _ _ => apply wp_ignore
  end; cbn beta iota.
Ltac wp_steps := repeat wp_step.

(** ** Arithmetic with division by constants *)
Ltac div_lia := Z.to_euclidean_division_equations; lia.

(** Evaluate the tests of the goal that are settled by constants or hypotheses. *)
Ltac eval_tests :=
  repeat match goal with
    | |- context [bool_decide ?P] =>
        first [rewrite (bool_decide_true P) by done | rewrite (bool_decide_false P) by done]
    end.
