(* ===== verification/GoTime.v ===== *)
(** * The parts of Go's [time], [math] and [strconv] the program uses

    A [time.Time] is the number of nanoseconds since the Unix epoch, a
    [time.Duration] a number of nanoseconds. [Format]/[parse] follow
    [time.RFC3339Nano], the layout [encoding/json] uses; the process runs in UTC,
    so formatting writes the zone [Z]. *)
From S2P Require Import Prelude.
Local Open Scope Z_scope.

Definition nanosecond : Z := 1.
Definition millisecond : Z := 1000000.
Definition second : Z := 1000000000.
Definition minute : Z := 60 * second.
Definition hour : Z := 60 * minute.
Definition day_secs : Z := 86400.

(** [time.Time{}]: January 1, year 1. *)
Definition zero_time : Z := -62135596800 * second.
Definition IsZero (t : Z) : bool := bool_decide (t = zero_time).
Definition Unix (t : Z) : Z := t / second.
(** [time.Unix(sec, 0)] *)
Definition from_unix (s : Z) : Z := s * second.
(** [int(d.Seconds())] *)
Definition trunc_secs (d : Z) : Z := Z.quot d second.
(** [int(math.Ceil(d.Seconds()))]; exact while [d] is below about 97 days, where
    the float64 quotient still separates adjacent nanoseconds. *)
Definition ceil_secs (d : Z) : Z := - ((- d) / second).

(** ** Decimal digits *)
Definition digit (d : Z) : ascii := ascii_of_nat (48 + Z.to_nat d).
Definition digit_val (c : ascii) : option Z :=
  let n := Z.of_nat (nat_of_ascii c) in
  if (48 <=? n) && (n <=? 57) then Some (n - 48) else None.

(** The [n] low decimal digits of [z], most significant first, before [acc]. *)
Fixpoint digits (n : nat) (z : Z) (acc : string) : string :=
  match n with
  | O => acc
  | S n' => digits n' (z / 10) (String (digit (z mod 10)) acc)
  end.

Fixpoint read_digits (n : nat) (s : string) (a : Z) : option (Z * string) :=
  match n with
  | O => Some (a, s)
  | S n' =>
      match s with
      | EmptyString => None
      | String c s' => d ← digit_val c; read_digits n' s' (10 * a + d)
      end
  end.

Lemma digit_val_digit d : 0 <= d < 10 → digit_val (digit d) = Some d.
Proof.
  intros Hd. assert (d ∈ [0;1;2;3;4;5;6;7;8;9]) as Hin.
  { rewrite !elem_of_cons. lia. }
  rewrite !elem_of_cons, elem_of_nil in Hin.
  by destruct Hin as [->|[->|[->|[->|[->|[->|[->|[->|[->|[->|[]]]]]]]]]]].
Qed.

Lemma read_digits_app n m s a :
  read_digits (n + m) s a = '(a', s') ← read_digits n s a; read_digits m s' a'.
Proof.
  revert s a. induction n as [|n IH]; intros s a; cbn; [done|].
  destruct s as [|c s]; [done|]. destruct (digit_val c); cbn; auto.
Qed.

Lemma read_digits_digits n z r a :
  read_digits n (digits n z r) a = Some (a * 10 ^ Z.of_nat n + z mod 10 ^ Z.of_nat n, r).
Proof.
  revert z r. induction n as [|n IH]; intros z r; cbn [digits].
  - cbn. rewrite Z.mod_1_r. do 2 f_equal. lia.
  - replace (S n) with (n + 1)%nat at 1 by lia.
    rewrite read_digits_app, IH. cbn.
    rewrite digit_val_digit by (apply Z.mod_pos_bound; lia). cbn. do 2 f_equal.
    rewrite Nat2Z.inj_succ, Z.pow_succ_r by lia.
    rewrite (Z.rem_mul_r z 10 (10 ^ Z.of_nat n)) by (try apply Z.pow_nonzero; lia).
    ring.
Qed.

(** [fmt.Sprintf("%d", z)], [strconv.FormatInt]. *)
Fixpoint dec_pos (fuel : nat) (z : Z) (acc : string) : string :=
  match fuel with
  | O => acc
  | S f => let acc' := String (digit (z mod 10)) acc in
           if z <? 10 then acc' else dec_pos f (z / 10) acc'
  end.
Definition dec_fuel (z : Z) : nat := S (Z.to_nat (Z.log2 (Z.abs z))).
Definition dec (z : Z) : string :=
  if z <? 0 then String "-" (dec_pos (dec_fuel z) (- z) "") else dec_pos (dec_fuel z) z "".

(** The longest run of digits at the head of [s]: its value and its length. *)
Fixpoint read_run (s : string) (a : Z) (n : nat) : Z * nat * string :=
  match s with
  | EmptyString => (a, n, s)
  | String c s' =>
      match digit_val c with
      | Some d => read_run s' (10 * a + d) (S n)
      | None => (a, n, s)
      end
  end.

(** [strconv.ParseInt(s, 10, 64)]; a leading sign is accepted, the range is checked. *)
Definition parse_int (s : string) : option Z :=
  let '(neg, body) := match s with
    | String c s' => if bool_decide (c = "-"%char) then (true, s')
                     else if bool_decide (c = "+"%char) then (false, s') else (false, s)
    | EmptyString => (false, s)
    end in
  let '(v, n, rest) := read_run body 0 0 in
  let v := if neg then - v else v in
  match n, rest with
  | S _, EmptyString => if (- 2 ^ 63 <=? v) && (v <? 2 ^ 63) then Some v else None
  | _, _ => None
  end.

(** ** The calendar *)

(** Day of a March-based year to (month, day). *)
Definition month_day (doy : Z) : Z * Z :=
  let mp := (5 * doy + 2) / 153 in
  (if mp <? 10 then mp + 3 else mp - 9, doy - (153 * mp + 2) / 5 + 1).

(** Days since the epoch to (year, month, day) in the proleptic Gregorian calendar:
    whole 400-, 100-, 4- and 1-year cycles counted from March 1, year 0. *)
Definition civil_of_days (z : Z) : Z * Z * Z :=
  let z := z + 719468 in
  let era := z / 146097 in
  let doe := z mod 146097 in
  let c := Z.min 3 (doe / 36524) in
  let r1 := doe - 36524 * c in
  let q := r1 / 1461 in
  let r2 := r1 - 1461 * q in
  let n := Z.min 3 (r2 / 365) in
  let '(m, d) := month_day (r2 - 365 * n) in
  (100 * c + 4 * q + n + era * 400 + (if m <=? 2 then 1 else 0), m, d).

Definition days_of_civil (y m d : Z) : Z :=
  let y := if m <=? 2 then y - 1 else y in
  let era := y / 400 in
  let yoe := y mod 400 in
  let doy := (153 * (if 2 <? m then m - 3 else m + 9) + 2) / 5 + d - 1 in
  let doe := yoe * 365 + yoe / 4 - yoe / 100 + doy in
  era * 146097 + doe - 719468.

(** ** [time.RFC3339Nano] *)

(** Fractional digits without their trailing zeros. *)
Fixpoint trim_zeros (s : string) : string :=
  match s with
  | EmptyString => EmptyString
  | String c s' =>
      let t := trim_zeros s' in
      match t with
      | EmptyString => if bool_decide (c = "0"%char) then EmptyString else String c EmptyString
      | _ => String c t
      end
  end.

Definition format_date (secs : Z) (rest : string) : string :=
  let '(y, m, d) := civil_of_days (secs / day_secs) in
  let sod := secs mod day_secs in
  digits 4 y (String "-" (digits 2 m (String "-" (digits 2 d (String "T"
    (digits 2 (sod / 3600) (String ":" (digits 2 (sod mod 3600 / 60) (String ":"
      (digits 2 (sod mod 60) rest)))))))))).

Definition format_frac (ns : Z) : string :=
  if ns =? 0 then "" else String "." (trim_zeros (digits 9 ns "")).

(** [t.Format(time.RFC3339Nano)] and [t.Format(time.RFC3339)]. *)
Definition format_time (t : Z) : string :=
  format_date (t / second) (format_frac (t mod second) +:+ "Z").
Definition format_rfc3339 (t : Z) : string := format_date (t / second) "Z".

Definition expect (c : ascii) (s : string) : option string :=
  match s with
  | String c' s' => if bool_decide (c = c') then Some s' else None
  | EmptyString => None
  end.

(** Up to [n] digits, padded on the right with zeros. *)
Fixpoint read_frac (n : nat) (s : string) (a : Z) : Z * string :=
  match n with
  | O => match s with
         | String c s' => match digit_val c with Some _ => read_frac 0 s' a | None => (a, s) end
         | EmptyString => (a, s)
         end
  | S n' =>
      match s with
      | String c s' =>
          match digit_val c with
          | Some d => read_frac n' s' (10 * a + d)
          | None => (a * 10 ^ Z.of_nat n, s)
          end
      | EmptyString => (a * 10 ^ Z.of_nat n, s)
      end
  end.

(** The zone: [Z] or a numeric offset, in seconds east of UTC. *)
Definition parse_zone (s : string) : option Z :=
  match s with
  | String "Z" EmptyString => Some 0
  | String sg s' =>
      sgn ← (if bool_decide (sg = "+"%char) then Some 1
             else if bool_decide (sg = "-"%char) then Some (-1) else None);
      '(h, s1) ← read_digits 2 s' 0;
      s2 ← expect ":"%char s1;
      '(m, s3) ← read_digits 2 s2 0;
      match s3 with
      | EmptyString => if (h <? 24) && (m <? 60) then Some (sgn * (h * 3600 + m * 60)) else None
      | _ => None
      end
  | EmptyString => None
  end.

Definition parse_frac (s : string) : option (Z * string) :=
  match s with
  | String "." s' =>
      match s' with
      | String c _ => _ ← digit_val c; Some (read_frac 9 s' 0)
      | EmptyString => None
      end
  | _ => Some (0, s)
  end.

(** [Time.UnmarshalJSON] on the contents of the JSON string. *)
Definition parse_time (s : string) : option Z :=
  '(y, s) ← read_digits 4 s 0; s ← expect "-"%char s;
  '(mo, s) ← read_digits 2 s 0; s ← expect "-"%char s;
  '(d, s) ← read_digits 2 s 0; s ← expect "T"%char s;
  '(h, s) ← read_digits 2 s 0; s ← expect ":"%char s;
  '(mi, s) ← read_digits 2 s 0; s ← expect ":"%char s;
  '(sec, s) ← read_digits 2 s 0;
  '(ns, s) ← parse_frac s;
  off ← parse_zone s;
  let days := days_of_civil y mo d in
  if (1 <=? mo) && (mo <=? 12) && bool_decide (civil_of_days days = (y, mo, d))
     && (h <? 24) && (mi <? 60) && (sec <? 60)
  then Some ((days * day_secs + h * 3600 + mi * 60 + sec - off) * second + ns)
  else None.

Definition year_of (t : Z) : Z := (civil_of_days (t / second / day_secs)).1.1.

(** [Time.MarshalJSON] refuses years outside [0,9999]. *)
Definition marshal_time (t : Z) : res string :=
  if (0 <=? year_of t) && (year_of t <=? 9999) then Ok (format_time t)
  else Err (Anon "Time.MarshalJSON: year outside of range [0,9999]").

(** ** Round trips *)

Lemma month_day_ok doy :
  0 <= doy <= 365 →
  let '(m, d) := month_day doy in
  (153 * (if 2 <? m then m - 3 else m + 9) + 2) / 5 + d - 1 = doy
  ∧ 1 <= m <= 12 ∧ 1 <= d <= 31.
Proof.
  intros H. unfold month_day. cbv zeta.
  set (mp := (5 * doy + 2) / 153).
  assert (0 <= mp <= 11 ∧ 153 * mp <= 5 * doy + 2 < 153 * mp + 153) as Hmp
    by (subst mp; div_lia).
  clearbody mp.
  assert ((if 2 <? (if mp <? 10 then mp + 3 else mp - 9)
           then (if mp <? 10 then mp + 3 else mp - 9) - 3
           else (if mp <? 10 then mp + 3 else mp - 9) + 9) = mp) as ->.
  { destruct (Z.ltb_spec mp 10); [destruct (Z.ltb_spec 2 (mp + 3))|destruct (Z.ltb_spec 2 (mp - 9))]; lia. }
  assert (1 <= (if mp <? 10 then mp + 3 else mp - 9) <= 12) by (destruct (Z.ltb_spec mp 10); lia).
  split; [lia|]. split; [done|].
  div_lia.
Qed.

Lemma civil_roundtrip z :
  let '(y, m, d) := civil_of_days z in
  days_of_civil y m d = z ∧ 1 <= m <= 12 ∧ 1 <= d <= 31.
Proof.
  unfold civil_of_days.
  set (era := (z + 719468) / 146097). set (doe := (z + 719468) mod 146097).
  assert (z + 719468 = 146097 * era + doe) as Hz by (apply Z.div_mod; lia).
  assert (0 <= doe < 146097) as He by (apply Z.mod_pos_bound; lia).
  clearbody era doe. cbv zeta.
  set (c := Z.min 3 (doe / 36524)). assert (0 <= c <= 3 ∧ 0 <= doe - 36524 * c <= 36524) as Hc
    by (subst c; div_lia).
  set (r1 := doe - 36524 * c) in *. clearbody c.
  set (q := r1 / 1461). assert (0 <= q <= 24 ∧ 0 <= r1 - 1461 * q <= 1460) as Hq
    by (subst q; div_lia).
  set (r2 := r1 - 1461 * q) in *. clearbody q.
  set (n := Z.min 3 (r2 / 365)). assert (0 <= n <= 3 ∧ 0 <= r2 - 365 * n <= 365) as Hn
    by (subst n; div_lia).
  pose proof (month_day_ok (r2 - 365 * n) ltac:(lia)) as Hmd.
  destruct (month_day _) as [m d]. clearbody n. split; [|lia].
  unfold days_of_civil.
  assert ((if m <=? 2
           then 100 * c + 4 * q + n + era * 400 + (if m <=? 2 then 1 else 0) - 1
           else 100 * c + 4 * q + n + era * 400 + (if m <=? 2 then 1 else 0))
          = 100 * c + 4 * q + n + era * 400) as -> by (destruct (m <=? 2); lia).
  set (mdays := (153 * _ + 2) / 5) in *. clearbody mdays. div_lia.
Qed.

Lemma read_frac_Z n a : read_frac n "Z" a = (a * 10 ^ Z.of_nat n, "Z").
Proof. destruct n; cbn -[Z.mul Z.pow]; [f_equal; lia|done]. Qed.

Lemma read_frac_trim n s a v :
  read_digits n s a = Some (v, EmptyString) →
  read_frac n (trim_zeros s +:+ "Z") a = (v, "Z").
Proof.
  revert s a. induction n as [|n IH]; intros s a Hs.
  - cbn in Hs. by simplify_eq/=.
  - destruct s as [|c s]; [done|]. cbn in Hs.
    destruct (digit_val c) as [d|] eqn:Hd; [|done]. cbn in Hs.
    specialize (IH _ _ Hs). cbn [trim_zeros].
    destruct (trim_zeros s) as [|c' t] eqn:Ht.
    + cbn [String.append] in IH. rewrite read_frac_Z in IH. simplify_eq.
      case_bool_decide as Hc.
      * subst c. cbv in Hd. simplify_eq. cbn [String.append]. rewrite read_frac_Z.
        f_equal. rewrite Nat2Z.inj_succ, Z.pow_succ_r by lia. ring.
      * cbn -[Z.mul Z.pow]. rewrite Hd. apply read_frac_Z.
    + cbn -[Z.mul Z.pow]. by rewrite Hd.
Qed.

Lemma trim_zeros_head s c t : trim_zeros s = String c t → ∃ s', s = String c s'.
Proof.
  destruct s as [|c' s]; cbn; [done|].
  destruct (trim_zeros s); [case_bool_decide|]; naive_solver.
Qed.

Lemma parse_format_frac ns :
  0 <= ns < second → parse_frac (format_frac ns +:+ "Z") = Some (ns, "Z").
Proof.
  intros Hns. unfold format_frac. destruct (Z.eqb_spec ns 0) as [->|Hnz]; [done|].
  assert (read_digits 9 (digits 9 ns "") 0 = Some (ns, EmptyString)) as Hr.
  { rewrite read_digits_digits. change (10 ^ Z.of_nat 9) with second.
    rewrite Z.mod_small by done. by rewrite Z.mul_0_l. }
  pose proof (read_frac_trim _ _ _ _ Hr) as Hf.
  destruct (trim_zeros (digits 9 ns "")) as [|c t] eqn:Ht.
  - exfalso. cbn [String.append] in Hf. rewrite read_frac_Z in Hf. simplify_eq.
  - destruct (trim_zeros_head _ _ _ Ht) as [s' Hs'].
    rewrite Hs' in Hr. cbn [read_digits] in Hr.
    cbn [String.append parse_frac] in *. destruct (digit_val c); [|done]. cbn -[read_frac].
    by rewrite Hf.
Qed.

Lemma read_digits_exact n v r :
  0 <= v < 10 ^ Z.of_nat n → read_digits n (digits n v r) 0 = Some (v, r).
Proof. intros. by rewrite read_digits_digits, Z.mul_0_l, Z.add_0_l, Z.mod_small. Qed.

Lemma expect_eq c s : expect c (String c s) = Some s.
Proof. cbn. by rewrite bool_decide_true. Qed.

(** Formatting an instant and parsing it back gives the instant, to the nanosecond. *)
Lemma parse_format_time t : 0 <= year_of t <= 9999 → parse_time (format_time t) = Some t.
Proof.
  unfold year_of, format_time, format_date. intros Hy.
  pose proof (civil_roundtrip (t / second / day_secs)) as Hc.
  destruct (civil_of_days _) as [[y m] d] eqn:Hciv. cbn in Hy. destruct Hc as (Hdays&Hm&Hd).
  pose proof (Z.mod_pos_bound (t / second) day_secs ltac:(done)) as Hsod.
  set (sod := (t / second) mod day_secs) in *.
  assert (0 <= sod / 3600 < 24 ∧ 0 <= sod mod 3600 / 60 < 60 ∧ 0 <= sod mod 60 < 60) as (Hh&Hmi&Hs)
    by (unfold day_secs in Hsod; div_lia).
  unfold parse_time.
  rewrite read_digits_exact by (cbn; lia). cbn [mbind option_bind].
  do 5 (rewrite expect_eq; cbn [mbind option_bind];
        rewrite read_digits_exact by (cbn; lia); cbn [mbind option_bind]).
  rewrite parse_format_frac by (apply Z.mod_pos_bound; done). cbn -[Z.mul Z.add civil_of_days days_of_civil].
  rewrite Hdays, Hciv, bool_decide_true by done.
  do 2 rewrite (proj2 (Z.leb_le _ _)) by lia. rewrite !(proj2 (Z.ltb_lt _ _)) by lia. cbn -[Z.mul Z.add].
  f_equal. subst sod. unfold day_secs, second in *. clear. div_lia.
Qed.

Lemma marshal_time_ok t s : marshal_time t = Ok s → parse_time s = Some t.
Proof.
  unfold marshal_time. destruct (andb _ _) eqn:Hb; [|done]. intros [= <-].
  apply andb_true_iff in Hb as [?%Z.leb_le ?%Z.leb_le]. by apply parse_format_time.
Qed.

(** ** Decimal integers *)
Lemma dec_pos_read f z acc a n :
  (0 < f)%nat → 0 <= z < 2 ^ Z.of_nat f →
  ∃ k, read_run (dec_pos f z acc) a n = read_run acc (a * 10 ^ Z.of_nat (S k) + z) (n + S k)%nat.
Proof.
  revert z acc a n. induction f as [|f IH]; intros z acc a n Hf Hz; [lia|]. cbn [dec_pos].
  destruct (Z.ltb_spec z 10) as [Hlt|Hge].
  - exists O. rewrite Z.mod_small by lia. cbn -[Z.mul Z.pow]. rewrite digit_val_digit by lia.
    f_equal; [|lia]. change (10 ^ Z.of_nat 1) with 10. lia.
  - assert (0 < f)%nat by (destruct f; [cbn in Hz; lia|lia]).
    rewrite Nat2Z.inj_succ, Z.pow_succ_r in Hz by lia.
    destruct (IH (z / 10) (String (digit (z mod 10)) acc) a n) as [k Hk]; [done|div_lia|].
    exists (S k). rewrite Hk. cbn [read_run].
    rewrite digit_val_digit by (apply Z.mod_pos_bound; lia).
    f_equal; [|lia]. rewrite (Nat2Z.inj_succ (S k)), Z.pow_succ_r by lia.
    pose proof (Z.div_mod z 10). lia.
Qed.

Lemma dec_pos_head f z acc :
  (0 < f)%nat → 0 <= z → ∃ d s, 0 <= d < 10 ∧ dec_pos f z acc = String (digit d) s.
Proof.
  revert z acc. induction f as [|f IH]; intros z acc Hf Hz; [lia|]. cbn [dec_pos].
  pose proof (Z.mod_pos_bound z 10 ltac:(lia)).
  destruct (z <? 10); [by eauto|]. destruct f; [cbn; by eauto|]. apply IH; [lia|div_lia].
Qed.

Lemma dec_fuel_ok z : 0 <= z → 0 <= z < 2 ^ Z.of_nat (dec_fuel z).
Proof.
  intros Hz. unfold dec_fuel. rewrite Z.abs_eq, Nat2Z.inj_succ, Z2Nat.id by (try apply Z.log2_nonneg; lia).
  destruct (decide (z = 0)) as [->|]; [done|]. pose proof (Z.log2_spec z). lia.
Qed.

Lemma digit_sign d : 0 <= d < 10 → digit d ≠ "-"%char ∧ digit d ≠ "+"%char.
Proof.
  intros Hd. apply digit_val_digit in Hd. split; intros H; rewrite H in Hd; done.
Qed.

(** Parsing a printed 64-bit integer gives the integer. *)
Lemma parse_int_dec z : - 2 ^ 63 <= z < 2 ^ 63 → parse_int (dec z) = Some z.
Proof.
  intros Hz. unfold dec, parse_int. destruct (Z.ltb_spec z 0) as [Hneg|Hpos].
  - rewrite bool_decide_true by done.
    destruct (dec_pos_read (dec_fuel z) (- z) "" 0 0) as [k ->].
    { unfold dec_fuel. lia. } { pose proof (dec_fuel_ok (- z) ltac:(lia)) as Hf. unfold dec_fuel in *.
      by rewrite Z.abs_opp in Hf. }
    cbn -[Z.pow]. rewrite (proj2 (Z.leb_le _ _)), (proj2 (Z.ltb_lt _ _)) by lia. f_equal. lia.
  - destruct (dec_pos_head (dec_fuel z) z "") as (d&s&Hd&Hds); [unfold dec_fuel; lia|lia|].
    rewrite Hds. destruct (digit_sign d Hd). rewrite !bool_decide_false by done. rewrite <-Hds.
    destruct (dec_pos_read (dec_fuel z) z "" 0 0) as [k ->]; [unfold dec_fuel; lia|by apply dec_fuel_ok|].
    cbn -[Z.pow]. rewrite (proj2 (Z.leb_le _ _)), (proj2 (Z.ltb_lt _ _)) by lia. done.
Qed.

#[global] Arguments parse_time : simpl never.
#[global] Arguments format_time : simpl never.
#[global] Arguments dec : simpl never.
#[global] Arguments parse_int : simpl never.
