(* ===== verification/Json.v ===== *)
(** * JSON text: [encoding/json], Redis's [cjson] and Lua patterns over stored JSON

    Values are stored in Redis as compact JSON text. This file holds the document
    type, Go's encoder ([json.Marshal], HTML escaping on), the decoder for compact
    documents with integer numbers, the effect of a [cjson] decode/encode pair, and
    the Lua [string.match] patterns the scripts run on the raw text. *)
From S2P Require Import Prelude GoTime.
Local Open Scope Z_scope.
#[local] Set Warnings "-register-all".

Inductive json : Type :=
  | JNull
  | JBool (b : bool)
  | JNum (z : Z)
  | JStr (s : string)
  | JArr (l : list json)
  | JObj (l : list (string * json)).

(** Induction that reaches into arrays and objects. *)
Definition json_nested_ind (P : json → Prop)
    (Hnull : P JNull) (Hbool : ∀ b, P (JBool b)) (Hnum : ∀ z, P (JNum z))
    (Hstr : ∀ s, P (JStr s)) (Harr : ∀ l, Forall P l → P (JArr l))
    (Hobj : ∀ l, Forall (λ kv, P kv.2) l → P (JObj l)) : ∀ j, P j :=
  fix F j := match j with
    | JNull => Hnull | JBool b => Hbool b | JNum z => Hnum z | JStr s => Hstr s
    | JArr l => Harr l ((fix G l := match l return Forall P l with
        | [] => List.Forall_nil _ | x :: l => List.Forall_cons _ _ _ (F x) (G l) end) l)
    | JObj l => Hobj l ((fix G l := match l return Forall (λ kv, P kv.2) l with
        | [] => List.Forall_nil _ | x :: l => List.Forall_cons _ _ _ (F x.2) (G l) end) l)
    end.

(** ** Bytes and UTF-8 *)
Definition dquote : ascii := "034".
Definition backslash : ascii := "\".
Definition bv (c : ascii) : N := N_of_ascii c.
Definition between (lo hi : N) (c : ascii) : bool := ((lo <=? bv c) && (bv c <=? hi))%N.
Definition cont (c : ascii) : bool := between 128 191 c.

Definition rune2 (a b : ascii) : bool := between 194 223 a && cont b.
Definition rune3 (a b c : ascii) : bool :=
  (between 224 224 a && between 160 191 b
   || (between 225 236 a || between 238 239 a) && cont b
   || between 237 237 a && between 128 159 b) && cont c.
Definition rune4 (a b c d : ascii) : bool :=
  (between 240 240 a && between 144 191 b
   || between 241 243 a && cont b
   || between 244 244 a && between 128 143 b) && cont c && cont d.

(** [utf8.ValidString] *)
Fixpoint utf8_valid (s : string) : bool :=
  match s with
  | EmptyString => true
  | String a s1 =>
      if (bv a <? 128)%N then utf8_valid s1 else
      match s1 with
      | EmptyString => false
      | String b s2 =>
          if rune2 a b then utf8_valid s2 else
          match s2 with
          | EmptyString => false
          | String c s3 =>
              if rune3 a b c then utf8_valid s3 else
              match s3 with
              | EmptyString => false
              | String d s4 => if rune4 a b c d then utf8_valid s4 else false
              end
          end
      end
  end.

Inductive utf8 : string → Prop :=
  | utf8_nil : utf8 EmptyString
  | utf8_1 a s : (bv a <? 128)%N = true → utf8 s → utf8 (String a s)
  | utf8_2 a b s : (bv a <? 128)%N = false → rune2 a b = true → utf8 s → utf8 (String a (String b s))
  | utf8_3 a b c s : (bv a <? 128)%N = false → rune2 a b = false → rune3 a b c = true →
      utf8 s → utf8 (String a (String b (String c s)))
  | utf8_4 a b c d s : (bv a <? 128)%N = false → rune2 a b = false → rune3 a b c = false →
      rune4 a b c d = true → utf8 s → utf8 (String a (String b (String c (String d s)))).

Lemma utf8_valid_utf8 s : utf8_valid s = true → utf8 s.
Proof.
  remember (String.length s) as n eqn:Hn. revert s Hn.
  induction (lt_wf n) as [n _ IH]. intros s ->. destruct s as [|a s1]; [constructor|].
  cbn [utf8_valid]. destruct (bv a <? 128)%N eqn:?.
  { intros. constructor; [done|]. eapply IH; [|done|done]. cbn. lia. }
  destruct s1 as [|b s2]; [done|]. destruct (rune2 a b) eqn:?.
  { intros. apply utf8_2; [done..|]. eapply IH; [|done|done]. cbn. lia. }
  destruct s2 as [|c s3]; [done|]. destruct (rune3 a b c) eqn:?.
  { intros. apply utf8_3; [done..|]. eapply IH; [|done|done]. cbn. lia. }
  destruct s3 as [|d s4]; [done|]. destruct (rune4 a b c d) eqn:?; [|done].
  intros. apply utf8_4; [done..|]. eapply IH; [|done|done]. cbn. lia.
Qed.

Lemma utf8_app s t : utf8_valid s = true → utf8_valid t = true → utf8_valid (s +:+ t) = true.
Proof.
  intros Hs%utf8_valid_utf8 Ht. induction Hs as [|a s Ha _ IH|a b s Ha Hb _ IH|a b c s Ha Hb Hc _ IH|a b c d s Ha Hb Hc Hd _ IH];
    [done| | | |]; cbn [String.append utf8_valid]; rewrite Ha; [done|rewrite Hb; done|rewrite Hb, Hc; done|by rewrite Hb, Hc, Hd].
Qed.

(** ** Encoding strings *)
Definition hex_digit (n : N) : ascii :=
  if (n <? 10)%N then ascii_of_N (48 + n) else ascii_of_N (87 + n).
Definition hex2 (n : N) (rest : string) : string :=
  String (hex_digit (n / 16)) (String (hex_digit (n mod 16)) rest).

Definition escape_ascii (a : ascii) (rest : string) : string :=
  if bool_decide (a = dquote) then String backslash (String dquote rest)
  else if bool_decide (a = backslash) then String backslash (String backslash rest)
  else if bool_decide (a = "008"%char) then String backslash (String "b" rest)
  else if bool_decide (a = "009"%char) then String backslash (String "t" rest)
  else if bool_decide (a = "010"%char) then String backslash (String "n" rest)
  else if bool_decide (a = "012"%char) then String backslash (String "f" rest)
  else if bool_decide (a = "013"%char) then String backslash (String "r" rest)
  else if (bv a <? 32)%N || bool_decide (a = "<"%char) || bool_decide (a = ">"%char)
          || bool_decide (a = "&"%char)
  then String backslash ("u00" +:+ hex2 (bv a) rest)
  else String a rest.

(** [appendString] with [escapeHTML]; U+2028 and U+2029 are escaped and every byte
    that does not start a rune becomes the escape of U+FFFD. *)
Fixpoint escape (s : string) : string :=
  match s with
  | EmptyString => EmptyString
  | String a s1 =>
      if (bv a <? 128)%N then escape_ascii a (escape s1) else
      let bad := String backslash ("ufffd" +:+ escape s1) in
      match s1 with
      | EmptyString => bad
      | String b s2 =>
          if rune2 a b then String a (String b (escape s2)) else
          match s2 with
          | EmptyString => bad
          | String c s3 =>
              if rune3 a b c then
                if between 226 226 a && between 128 128 b && between 168 169 c
                then String backslash ("u202" +:+ String (hex_digit (bv c - 160)) (escape s3))
                else String a (String b (String c (escape s3)))
              else
              match s3 with
              | EmptyString => bad
              | String d s4 =>
                  if rune4 a b c d then String a (String b (String c (String d (escape s4))))
                  else bad
              end
          end
      end
  end.

Definition jquote (s : string) (rest : string) : string :=
  String dquote (escape s +:+ String dquote rest).

(** ** [json.Marshal]: [jprint j rest] is the text of [j] followed by [rest]. *)
Fixpoint jprint (j : json) (rest : string) {struct j} : string :=
  match j with
  | JNull => "null" +:+ rest
  | JBool true => "true" +:+ rest
  | JBool false => "false" +:+ rest
  | JNum z => dec z +:+ rest
  | JStr s => jquote s rest
  | JArr l =>
      String "[" ((fix go l := match l with
        | [] => String "]" rest
        | [x] => jprint x (String "]" rest)
        | x :: l' => jprint x (String "," (go l'))
        end) l)
  | JObj l =>
      String "{" ((fix go l := match l with
        | [] => String "}" rest
        | [(k, x)] => jquote k (String ":" (jprint x (String "}" rest)))
        | (k, x) :: l' => jquote k (String ":" (jprint x (String "," (go l'))))
        end) l)
  end.

(** The members of an object and the elements of an array, with the closing bracket. *)
Fixpoint jmembers (l : list (string * json)) (rest : string) : string :=
  match l with
  | [] => String "}" rest
  | [(k, x)] => jquote k (String ":" (jprint x (String "}" rest)))
  | (k, x) :: l' => jquote k (String ":" (jprint x (String "," (jmembers l' rest))))
  end.
Fixpoint jelems (l : list json) (rest : string) : string :=
  match l with
  | [] => String "]" rest
  | [x] => jprint x (String "]" rest)
  | x :: l' => jprint x (String "," (jelems l' rest))
  end.

Lemma jprint_obj l rest : jprint (JObj l) rest = String "{" (jmembers l rest).
Proof.
  cbn. f_equal. induction l as [|[k x] [|[k' x'] l] IH]; cbn in *; by rewrite ?IH.
Qed.
Lemma jprint_arr l rest : jprint (JArr l) rest = String "[" (jelems l rest).
Proof.
  cbn. f_equal. induction l as [|x [|x' l] IH]; cbn in *; by rewrite ?IH.
Qed.

(** ** Decoding strings *)
Definition hex_val (c : ascii) : option N :=
  if between 48 57 c then Some (bv c - 48)%N
  else if between 97 102 c then Some (bv c - 87)%N
  else if between 65 70 c then Some (bv c - 55)%N
  else None.
Definition hex4 (a b c d : ascii) : option N :=
  x ← hex_val a; y ← hex_val b; z ← hex_val c; w ← hex_val d;
  Some (((x * 16 + y) * 16 + z) * 16 + w)%N.

(** [utf8.AppendRune]; a surrogate is written as U+FFFD. *)
Definition put_rune (r : N) (rest : string) : string :=
  let b n := ascii_of_N n in
  (if r <? 128 then String (b r) rest
   else if r <? 2048 then String (b (192 + r / 64)) (String (b (128 + r mod 64)) rest)
   else if (55296 <=? r) && (r <=? 57343)
   then String (b 239) (String (b 191) (String (b 189) rest))
   else if r <? 65536
   then String (b (224 + r / 4096)) (String (b (128 + r / 64 mod 64)) (String (b (128 + r mod 64)) rest))
   else String (b (240 + r / 262144)) (String (b (128 + r / 4096 mod 64))
          (String (b (128 + r / 64 mod 64)) (String (b (128 + r mod 64)) rest))))%N.

Definition simple_escape (e : ascii) : option ascii :=
  if bool_decide (e = dquote) then Some dquote
  else if bool_decide (e = backslash) then Some backslash
  else if bool_decide (e = "/"%char) then Some "/"%char
  else if bool_decide (e = "b"%char) then Some "008"%char
  else if bool_decide (e = "f"%char) then Some "012"%char
  else if bool_decide (e = "n"%char) then Some "010"%char
  else if bool_decide (e = "r"%char) then Some "013"%char
  else if bool_decide (e = "t"%char) then Some "009"%char
  else None.

(** The second half of a surrogate pair, when the text continues with one. *)
Definition low_surrogate (s : string) : option N :=
  match s with
  | String b (String u (String h1 (String h2 (String h3 (String h4 _))))) =>
      if bool_decide (b = backslash) && bool_decide (u = "u"%char) then
        r ← hex4 h1 h2 h3 h4;
        if ((56320 <=? r) && (r <=? 57343))%N then Some r else None
      else None
  | _ => None
  end.

(** The contents of a string literal, from after the opening quote to the text after
    the closing one. *)
Fixpoint parse_str (s : string) : option (string * string) :=
  match s with
  | EmptyString => None
  | String a s1 =>
      if bool_decide (a = dquote) then Some (EmptyString, s1)
      else if bool_decide (a = backslash) then
        match s1 with
        | EmptyString => None
        | String e s2 =>
            if bool_decide (e = "u"%char) then
              match s2 with
              | String h1 (String h2 (String h3 (String h4 s6))) =>
                  r ← hex4 h1 h2 h3 h4;
                  match low_surrogate s6 with
                  | Some lo =>
                      if ((55296 <=? r) && (r <=? 56319))%N then
                        match s6 with
                        | String _ (String _ (String _ (String _ (String _ (String _ s12))))) =>
                            '(t, rest) ← parse_str s12;
                            Some (put_rune (65536 + (r - 55296) * 1024 + (lo - 56320)) t, rest)
                        | _ => None
                        end
                      else '(t, rest) ← parse_str s6; Some (put_rune r t, rest)
                  | None => '(t, rest) ← parse_str s6; Some (put_rune r t, rest)
                  end
              | _ => None
              end
            else
              c ← simple_escape e; '(t, rest) ← parse_str s2; Some (String c t, rest)
        end
      else if (bv a <? 32)%N then None
      else if (bv a <? 128)%N then '(t, rest) ← parse_str s1; Some (String a t, rest)
      else
        let bad := '(t, rest) ← parse_str s1; Some (put_rune 65533 t, rest) in
        match s1 with
        | EmptyString => bad
        | String b s2 =>
            if rune2 a b then '(t, rest) ← parse_str s2; Some (String a (String b t), rest) else
            match s2 with
            | EmptyString => bad
            | String c s3 =>
                if rune3 a b c
                then '(t, rest) ← parse_str s3; Some (String a (String b (String c t)), rest) else
                match s3 with
                | EmptyString => bad
                | String d s4 =>
                    if rune4 a b c d
                    then '(t, rest) ← parse_str s4;
                         Some (String a (String b (String c (String d t))), rest)
                    else bad
                end
            end
        end
  end.

(** ** Decoding documents *)
Fixpoint strip_prefix (p s : string) : option string :=
  match p with
  | EmptyString => Some s
  | String c p' =>
      match s with
      | String c' s' => if bool_decide (c = c') then strip_prefix p' s' else None
      | EmptyString => None
      end
  end.

Definition parse_num (s : string) : option (json * string) :=
  let '(neg, body) := match s with
    | String c s' => if bool_decide (c = "-"%char) then (true, s') else (false, s)
    | EmptyString => (false, s)
    end in
  let '(v, n, rest) := read_run body 0 0 in
  match n with
  | O => None
  | S _ => Some (JNum (if neg : bool then - v else v), rest)
  end.

Fixpoint parse_value (fuel : nat) (s : string) {struct fuel} : option (json * string) :=
  match fuel with
  | O => None
  | S f =>
      match s with
      | EmptyString => None
      | String c s' =>
          if bool_decide (c = dquote) then '(t, r) ← parse_str s'; Some (JStr t, r)
          else if bool_decide (c = "["%char) then
            match strip_prefix "]" s' with
            | Some r => Some (JArr [], r)
            | None => '(l, r) ← parse_elems f s'; Some (JArr l, r)
            end
          else if bool_decide (c = "{"%char) then
            match strip_prefix "}" s' with
            | Some r => Some (JObj [], r)
            | None => '(l, r) ← parse_members f s'; Some (JObj l, r)
            end
          else if bool_decide (c = "n"%char) then r ← strip_prefix "null" s; Some (JNull, r)
          else if bool_decide (c = "t"%char) then r ← strip_prefix "true" s; Some (JBool true, r)
          else if bool_decide (c = "f"%char) then r ← strip_prefix "false" s; Some (JBool false, r)
          else parse_num s
      end
  end
with parse_elems (fuel : nat) (s : string) {struct fuel} : option (list json * string) :=
  match fuel with
  | O => None
  | S f =>
      '(v, r) ← parse_value f s;
      match r with
      | String c r' =>
          if bool_decide (c = ","%char) then '(l, r'') ← parse_elems f r'; Some (v :: l, r'')
          else if bool_decide (c = "]"%char) then Some ([v], r') else None
      | EmptyString => None
      end
  end
with parse_members (fuel : nat) (s : string) {struct fuel} : option (list (string * json) * string) :=
  match fuel with
  | O => None
  | S f =>
      s1 ← expect dquote s; '(k, s2) ← parse_str s1; s3 ← expect ":"%char s2;
      '(v, r) ← parse_value f s3;
      match r with
      | String c r' =>
          if bool_decide (c = ","%char) then '(l, r'') ← parse_members f r'; Some ((k, v) :: l, r'')
          else if bool_decide (c = "}"%char) then Some ([(k, v)], r') else None
      | EmptyString => None
      end
  end.

(** Every step of the parser consumes a character, so the length of the text is
    enough fuel. *)
Definition jparse (s : string) : option json :=
  '(j, r) ← parse_value (S (String.length s)) s;
  match r with EmptyString => Some j | _ => None end.

(** ** Round trip *)
Lemma append_assoc (a b c : string) : (a +:+ b) +:+ c = a +:+ (b +:+ c).
Proof. induction a as [|x a IH]; cbn; congruence. Qed.
Lemma append_empty_r (a : string) : a +:+ "" = a.
Proof. induction a as [|x a IH]; cbn; congruence. Qed.
Lemma length_append (a b : string) : String.length (a +:+ b) = (String.length a + String.length b)%nat.
Proof. induction a as [|x a IH]; cbn; congruence. Qed.

Lemma escape_ascii_app a x y : escape_ascii a (x +:+ y) = escape_ascii a x +:+ y.
Proof. unfold escape_ascii, hex2. repeat case_match; done. Qed.

Lemma parse_unicode h1 h2 h3 h4 r s :
  hex4 h1 h2 h3 h4 = Some r → (55296 <=? r)%N = false →
  parse_str (String backslash (String "u" (String h1 (String h2 (String h3 (String h4 s)))))) =
  '(t, rest) ← parse_str s; Some (put_rune r t, rest).
Proof.
  intros Hr Hlow. cbn -[low_surrogate put_rune]. rewrite Hr. cbn -[low_surrogate put_rune].
  rewrite Hlow. by destruct (low_surrogate s).
Qed.

Lemma parse_escape_ascii a t :
  (bv a <? 128)%N = true →
  parse_str (escape_ascii a t) = '(t', r) ← parse_str t; Some (String a t', r).
Proof.
  destruct a as [[] [] [] [] [] [] [] []]; intros Ha; try discriminate Ha; try reflexivity.
  all: eapply eq_trans; [eapply parse_unicode; reflexivity|reflexivity].
Qed.

Lemma bv_inj a n : bv a = n → a = ascii_of_N n.
Proof. intros <-. symmetry. apply ascii_N_embedding. Qed.

Lemma high_plain a :
  (bv a <? 128)%N = false → a ≠ dquote ∧ a ≠ backslash ∧ (bv a <? 32)%N = false.
Proof.
  intros H%N.ltb_ge. split_and!; [by intros ->..|]. apply N.ltb_ge. lia.
Qed.

Ltac high_byte a :=
  let H1 := fresh in let H2 := fresh in let H3 := fresh in
  match goal with H : (bv a <? 128)%N = false |- _ =>
    destruct (high_plain a H) as (H1&H2&H3);
    rewrite (bool_decide_false _ H1), (bool_decide_false _ H2), H3, H
  end.

Lemma parse_escape s r : utf8 s → parse_str (escape s +:+ String dquote r) = Some (s, r).
Proof.
  induction 1 as [|a s Ha _ IH|a b s Ha Hab _ IH|a b c s Ha Hab Habc _ IH|a b c d s Ha Hab Habc Habcd _ IH].
  - done.
  - cbn [escape]. rewrite Ha, <-escape_ascii_app, parse_escape_ascii, IH; done.
  - cbn [escape]. rewrite Ha, Hab. cbn. high_byte a. by rewrite Hab, IH.
  - cbn [escape]. rewrite Ha, Hab, Habc. destruct (andb _ _) eqn:Hls.
    + rewrite !andb_true_iff in Hls. destruct Hls as [[Hx Hy] Hz]. unfold between in Hx, Hy, Hz.
      rewrite andb_true_iff, !N.leb_le in Hx, Hy, Hz.
      rewrite (bv_inj a 226), (bv_inj b 128) by lia.
      assert (bv c = 168 ∨ bv c = 169)%N as [Hc|Hc] by lia; rewrite (bv_inj c _ Hc);
        (eapply eq_trans;
         [eapply parse_unicode with (s := escape s +:+ String dquote r); reflexivity|by rewrite IH]).
    + cbn. high_byte a. by rewrite Hab, Habc, IH.
  - cbn [escape]. rewrite Ha, Hab, Habc, Habcd. cbn. high_byte a. by rewrite Hab, Habc, Habcd, IH.
Qed.

(** Well-formed documents: every string is valid UTF-8. *)
Fixpoint jwf (j : json) : bool :=
  match j with
  | JStr s => utf8_valid s
  | JArr l => forallb jwf l
  | JObj l => forallb (λ kv, utf8_valid kv.1 && jwf kv.2) l
  | _ => true
  end.

Fixpoint jcost (j : json) : nat :=
  match j with
  | JArr l => S (list_sum (map (λ x, S (jcost x)) l))
  | JObj l => S (list_sum (map (λ kv, S (jcost kv.2)) l))
  | _ => 1
  end.

(** The text that can follow a value inside a document. *)
Definition jstop (s : string) : bool :=
  match s with
  | EmptyString => true
  | String c _ => bool_decide (c = ","%char) || bool_decide (c = "]"%char) || bool_decide (c = "}"%char)
  end.

Lemma read_run_stop s a n : jstop s = true → read_run s a n = (a, n, s).
Proof.
  destruct s as [|c s]; [done|]. cbn. rewrite !orb_true_iff, !bool_decide_eq_true.
  by intros [[->| ->]| ->].
Qed.

Lemma dec_pos_app f z acc rest : dec_pos f z acc +:+ rest = dec_pos f z (acc +:+ rest).
Proof.
  revert z acc. induction f as [|f IH]; intros z acc; cbn [dec_pos]; [done|].
  destruct (z <? 10); [done|]. by rewrite IH.
Qed.

Lemma digit_heads d : 0 <= d < 10 →
  Forall (λ c, digit d ≠ c) [dquote; "["; "{"; "n"; "t"; "f"; "-"]%char.
Proof.
  intros Hd. apply digit_val_digit in Hd. repeat constructor; intros H; rewrite H in Hd; done.
Qed.

Lemma parse_dec f z rest :
  jstop rest = true → parse_value (S f) (dec z +:+ rest) = Some (JNum z, rest).
Proof.
  intros Hr. unfold dec. destruct (Z.ltb_spec z 0) as [Hneg|Hpos].
  - cbn -[dec_pos dec_fuel parse_num]. rewrite dec_pos_app. unfold parse_num.
    eval_tests.
    destruct (dec_pos_read (dec_fuel z) (- z) ("" +:+ rest) 0 0) as [k ->].
    { unfold dec_fuel. lia. }
    { pose proof (dec_fuel_ok (- z) ltac:(lia)) as Hf. unfold dec_fuel in *.
      by rewrite Z.abs_opp in Hf. }
    rewrite read_run_stop by done. cbn. do 3 f_equal. lia.
  - rewrite dec_pos_app.
    destruct (dec_pos_head (dec_fuel z) z ("" +:+ rest)) as (d&s&Hd&Hds); [unfold dec_fuel; lia|lia|].
    rewrite Hds. pose proof (digit_heads d Hd) as Hh. rewrite !Forall_cons in Hh.
    destruct Hh as (?&?&?&?&?&?&?&_).
    cbn -[dec_pos dec_fuel parse_num]. unfold parse_num. eval_tests.
    rewrite <-Hds.
    destruct (dec_pos_read (dec_fuel z) z ("" +:+ rest) 0 0) as [k ->]; [unfold dec_fuel; lia|by apply dec_fuel_ok|].
    by rewrite read_run_stop.
Qed.

Lemma jprint_head j r : strip_prefix "]" (jprint j r) = None.
Proof.
  destruct j as [|[]|z|s|l|l]; try done. cbn [jprint]. unfold dec. destruct (z <? 0) eqn:?; [done|].
  rewrite dec_pos_app. apply Z.ltb_ge in Heqb.
  destruct (dec_pos_head (dec_fuel z) z ("" +:+ r)) as (d&s&Hd&->); [unfold dec_fuel; lia|lia|].
  cbn. rewrite bool_decide_false; [done|]. intros Hc.
  apply digit_val_digit in Hd. by rewrite <-Hc in Hd.
Qed.

Lemma parse_elems_print l :
  Forall (λ x, jwf x = true → ∀ f rest, (jcost x ≤ f)%nat → jstop rest = true →
               parse_value f (jprint x rest) = Some (x, rest)) l →
  l ≠ [] → forallb jwf l = true → ∀ f rest, (list_sum (map (λ x, S (jcost x)) l) ≤ f)%nat →
  parse_elems f (jelems l rest) = Some (l, rest).
Proof.
  induction 1 as [|x l Hx _ IH]; [done|]. intros _ [Hwf Hwfl]%andb_true_iff f rest Hf.
  destruct f as [|f]; [cbn in Hf; lia|]. destruct l as [|y l].
  - cbn [parse_elems jelems]. rewrite Hx by (done || (cbn in Hf; lia)).
    cbn [mbind option_bind]. by eval_tests.
  - assert (list_sum (map (λ x, S (jcost x)) (y :: l)) ≤ f ∧ jcost x ≤ f)%nat as [Hf1 Hf2]
      by (cbn in Hf |- *; lia).
    change (jelems (x :: y :: l) rest) with (jprint x (String "," (jelems (y :: l) rest))).
    cbn [parse_elems]. rewrite Hx by done. cbn [mbind option_bind]. eval_tests.
    by rewrite IH.
Qed.

Lemma parse_quoted k r : utf8_valid k = true →
  parse_str (escape k +:+ String dquote r) = Some (k, r).
Proof. intros. by apply parse_escape, utf8_valid_utf8. Qed.

Lemma parse_members_print l :
  Forall (λ kv, jwf kv.2 = true → ∀ f rest, (jcost kv.2 ≤ f)%nat → jstop rest = true →
               parse_value f (jprint kv.2 rest) = Some (kv.2, rest)) l →
  l ≠ [] → forallb (λ kv, utf8_valid kv.1 && jwf kv.2) l = true →
  ∀ f rest, (list_sum (map (λ kv, S (jcost kv.2)) l) ≤ f)%nat →
  parse_members f (jmembers l rest) = Some (l, rest).
Proof.
  induction 1 as [|[k x] l Hx _ IH]; [done|].
  intros _ [[Hk Hwf]%andb_true_iff Hwfl]%andb_true_iff f rest Hf.
  destruct f as [|f]; [cbn in Hf; lia|]. cbn [fst snd] in *. destruct l as [|y l].
  - cbn [parse_members jmembers]. unfold jquote.
    rewrite expect_eq. cbn [mbind option_bind]. rewrite parse_quoted by done. cbn [mbind option_bind].
    rewrite expect_eq. cbn [mbind option_bind].
    rewrite Hx by (done || (cbn in Hf; lia)). cbn [mbind option_bind]. by eval_tests.
  - assert (list_sum (map (λ kv, S (jcost kv.2)) (y :: l)) ≤ f ∧ jcost x ≤ f)%nat as [Hf1 Hf2]
      by (cbn in Hf |- *; lia).
    change (jmembers ((k, x) :: y :: l) rest)
      with (jquote k (String ":" (jprint x (String "," (jmembers (y :: l) rest))))).
    cbn [parse_members]. unfold jquote.
    rewrite expect_eq. cbn [mbind option_bind]. rewrite parse_quoted by done. cbn [mbind option_bind].
    rewrite expect_eq. cbn [mbind option_bind].
    rewrite Hx by done. cbn [mbind option_bind]. eval_tests. by rewrite IH.
Qed.

Lemma parse_value_print j :
  jwf j = true → ∀ f rest, (jcost j ≤ f)%nat → jstop rest = true →
  parse_value f (jprint j rest) = Some (j, rest).
Proof.
  induction j as [|b|z|s|l IH|l IH] using json_nested_ind; intros Hwf f rest Hf Hr;
    (destruct f as [|f]; [cbn in Hf; lia|]).
  - cbn. by eval_tests.
  - destruct b; cbn; by eval_tests.
  - by apply parse_dec.
  - cbn [jprint jquote parse_value]. unfold jquote. eval_tests. by rewrite parse_quoted.
  - rewrite jprint_arr. cbn [parse_value]. eval_tests. destruct l as [|x l].
    { cbn. by eval_tests. }
    pose proof (parse_elems_print _ IH ltac:(done) Hwf f rest ltac:(cbn in Hf |- *; lia)) as Hp.
    cbn [jelems] in *. destruct l; by rewrite jprint_head, Hp.
  - rewrite jprint_obj. cbn [parse_value]. eval_tests. destruct l as [|[k x] l].
    { cbn. by eval_tests. }
    pose proof (parse_members_print _ IH ltac:(done) Hwf f rest ltac:(cbn in Hf |- *; lia)) as Hp.
    cbn [jmembers] in *. unfold jquote in *. destruct l; cbn [strip_prefix]; eval_tests; by rewrite Hp.
Qed.

Lemma list_sum_cons x l : list_sum (x :: l) = (x + list_sum l)%nat.
Proof. done. Qed.

Lemma jprint_length j rest : (jcost j + String.length rest ≤ String.length (jprint j rest))%nat.
Proof.
  revert rest. induction j as [|b|z|s|l IH|l IH] using json_nested_ind; intros rest.
  - cbn. lia.
  - destruct b; cbn; lia.
  - cbn. rewrite length_append. assert (0 < String.length (dec z))%nat; [|lia].
    unfold dec. destruct (Z.ltb_spec z 0); [cbn; lia|].
    destruct (dec_pos_head (dec_fuel z) z "") as (d&s&_&->); cbn; unfold dec_fuel; lia.
  - cbn. unfold jquote. cbn. rewrite length_append. cbn. lia.
  - rewrite jprint_arr. cbn [jcost String.length].
    enough (list_sum (map (λ x, S (jcost x)) l) + String.length rest ≤ String.length (jelems l rest))%nat by lia.
    induction IH as [|x l Hx _ IH]; [cbn; lia|]. cbn [map]. rewrite list_sum_cons.
    destruct l as [|y l].
    + cbn [jelems map list_sum foldr]. specialize (Hx (String "]" rest)). cbn in Hx |- *. lia.
    + specialize (Hx (String "," (jelems (y :: l) rest))). cbn [String.length] in Hx.
      change (jelems (x :: y :: l) rest) with (jprint x (String "," (jelems (y :: l) rest))). lia.
  - rewrite jprint_obj. cbn [jcost String.length].
    enough (list_sum (map (λ kv, S (jcost kv.2)) l) + String.length rest ≤ String.length (jmembers l rest))%nat by lia.
    induction IH as [|[k x] l Hx _ IH]; [cbn; lia|]. cbn [map]. rewrite list_sum_cons. cbn [fst snd] in *.
    destruct l as [|y l].
    + cbn [jmembers map list_sum foldr]. specialize (Hx (String "}" rest)). unfold jquote.
      cbn in Hx |- *. rewrite length_append. cbn. lia.
    + specialize (Hx (String "," (jmembers (y :: l) rest))). cbn [String.length] in Hx.
      change (jmembers ((k, x) :: y :: l) rest)
        with (jquote k (String ":" (jprint x (String "," (jmembers (y :: l) rest))))).
      unfold jquote. cbn [String.length]. rewrite length_append. cbn [String.length]. lia.
Qed.

(** Decoding an encoded document gives the document. *)
Lemma jparse_jprint j : jwf j = true → jparse (jprint j "") = Some j.
Proof.
  intros Hwf. unfold jparse. pose proof (jprint_length j "") as Hl. cbn in Hl.
  by rewrite parse_value_print by (done || lia).
Qed.

(** The text of an object. *)
Definition jobj (l : list (string * json)) : string := jprint (JObj l) "".
#[global] Arguments jobj : simpl never.

Definition members_wf (l : list (string * json)) : bool :=
  forallb (λ kv, utf8_valid kv.1 && jwf kv.2) l.

Lemma jparse_jobj l : members_wf l = true → jparse (jobj l) = Some (JObj l).
Proof. intros Hl. by apply jparse_jprint. Qed.

(** ** Reading struct fields

    [json.Unmarshal] matches a member to a field by name, exactly or ignoring case;
    the last matching member wins and [null] leaves the field unset. *)
Definition lower (c : ascii) : ascii :=
  if between 65 90 c then ascii_of_N (bv c + 32) else c.
Fixpoint lower_str (s : string) : string :=
  match s with EmptyString => EmptyString | String c s' => String (lower c) (lower_str s') end.
Definition key_matches (field k : string) : bool :=
  bool_decide (field = k) || bool_decide (lower_str field = lower_str k).
#[global] Arguments key_matches : simpl never.
(** Settle the name comparisons of a struct decoder. *)
Ltac eval_keys :=
  repeat match goal with
    | |- context [key_matches ?a ?b] =>
        let v := eval vm_compute in (key_matches a b) in change (key_matches a b) with v
    end.

Fixpoint jfield (field : string) (l : list (string * json)) : option json :=
  match l with
  | [] => None
  | (k, v) :: l' =>
      match jfield field l' with
      | Some v' => Some v'
      | None => if key_matches field k then Some v else None
      end
  end.

Definition get_str (field : string) (l : list (string * json)) : option string :=
  match jfield field l with
  | None | Some JNull => Some ""
  | Some (JStr s) => Some s
  | _ => None
  end.
Definition get_bool (field : string) (l : list (string * json)) : option bool :=
  match jfield field l with
  | None | Some JNull => Some false
  | Some (JBool b) => Some b
  | _ => None
  end.
Definition get_int (field : string) (l : list (string * json)) : option Z :=
  match jfield field l with
  | None | Some JNull => Some 0
  | Some (JNum z) => Some z
  | _ => None
  end.
Definition get_time (field : string) (l : list (string * json)) : option Z :=
  match jfield field l with
  | None | Some JNull => Some zero_time
  | Some (JStr s) => parse_time s
  | _ => None
  end.
Fixpoint all_strs (l : list json) : option (list string) :=
  match l with
  | [] => Some []
  | JStr s :: l' => t ← all_strs l'; Some (s :: t)
  | JNull :: l' => t ← all_strs l'; Some ("" :: t)
  | _ => None
  end.
Definition get_strs (field : string) (l : list (string * json)) : option (list string) :=
  match jfield field l with
  | None | Some JNull => Some []
  | Some (JArr a) => all_strs a
  | _ => None
  end.
Definition get_obj (field : string) (l : list (string * json)) : option (list (string * json)) :=
  match jfield field l with
  | None | Some JNull => Some []
  | Some (JObj o) => Some o
  | _ => None
  end.

(** A member with the [omitempty] option. *)
Definition omit_str (k v : string) : list (string * json) :=
  match v with EmptyString => [] | _ => [(k, JStr v)] end.
Definition omit_strs (k : string) (v : list string) : list (string * json) :=
  match v with [] => [] | _ => [(k, JArr (map JStr v))] end.

Lemma all_strs_map l : all_strs (map JStr l) = Some l.
Proof. induction l as [|s l IH]; cbn; [done|]. by rewrite IH. Qed.

(** Looking a field up in a document written member by member. *)
Lemma jfield_app field l1 l2 :
  jfield field (l1 ++ l2) = match jfield field l2 with Some v => Some v | None => jfield field l1 end.
Proof.
  induction l1 as [|[k v] l1 IH]; cbn; [by destruct (jfield field l2)|]. rewrite IH.
  by destruct (jfield field l2).
Qed.
Definition omitted_str (v : string) : option json := match v with EmptyString => None | _ => Some (JStr v) end.
Definition omitted_strs (v : list string) : option json :=
  match v with [] => None | _ => Some (JArr (map JStr v)) end.
Lemma jfield_omit_str field k v :
  jfield field (omit_str k v) = if key_matches field k then omitted_str v else None.
Proof. destruct v; cbn; by destruct (key_matches field k). Qed.
Lemma jfield_omit_strs field k v :
  jfield field (omit_strs k v) = if key_matches field k then omitted_strs v else None.
Proof. destruct v; cbn; by destruct (key_matches field k). Qed.
Lemma jfield_cons field k v l :
  jfield field ((k, v) :: l) =
  match jfield field l with Some v' => Some v' | None => if key_matches field k then Some v else None end.
Proof. done. Qed.
Lemma jfield_nil field : jfield field [] = None.
Proof. done. Qed.
Lemma option_match_id {A} (o : option A) : match o with Some v => Some v | None => None end = o.
Proof. by destruct o. Qed.
Ltac read_member :=
  cbn [app];
  repeat first [rewrite jfield_nil | rewrite jfield_cons | rewrite jfield_app
               | rewrite jfield_omit_str | rewrite jfield_omit_strs];
  eval_keys; cbv iota;
  rewrite ?option_match_id; reflexivity.

Lemma get_str_member field l s : jfield field l = Some (JStr s) → get_str field l = Some s.
Proof. unfold get_str. by intros ->. Qed.
Lemma get_str_omit field l s : jfield field l = omitted_str s → get_str field l = Some s.
Proof. unfold get_str. intros ->. by destruct s. Qed.
Lemma get_strs_member field l v : jfield field l = Some (JArr (map JStr v)) → get_strs field l = Some v.
Proof. unfold get_strs. intros ->. apply all_strs_map. Qed.
Lemma get_strs_omit field l v : jfield field l = omitted_strs v → get_strs field l = Some v.
Proof. unfold get_strs. intros ->. destruct v; [done|]. apply all_strs_map. Qed.
Lemma get_time_member field l s t : parse_time s = Some t → jfield field l = Some (JStr s) → get_time field l = Some t.
Proof. unfold get_time. by intros ? ->. Qed.
Lemma get_int_member field l z : jfield field l = Some (JNum z) → get_int field l = Some z.
Proof. unfold get_int. by intros ->. Qed.

(** ** [cjson.decode] followed by [cjson.encode]

    A decoded object is a Lua table: of two members of one name the later counts. A Lua
    table does not tell an empty array from an empty object, and the encoder writes an
    empty table as an object. The texts of Go and of [cjson] for one document differ in
    their escapes and in the order of the members only, so the document is printed with
    Go's encoder in the order it had. *)

(** [dc.field = v] on a decoded object. *)
Fixpoint jset (field : string) (v : json) (l : list (string * json)) : list (string * json) :=
  match l with
  | [] => [(field, v)]
  | (k, w) :: l' => if bool_decide (field = k) then (k, v) :: l' else (k, w) :: jset field v l'
  end.
(** [dc.field]: an exact lookup. *)
Fixpoint jget (field : string) (l : list (string * json)) : option json :=
  match l with
  | [] => None
  | (k, w) :: l' => if bool_decide (field = k) then Some w else jget field l'
  end.
Definition lua_table (l : list (string * json)) : list (string * json) :=
  foldl (λ acc kv, jset kv.1 kv.2 acc) [] l.

Fixpoint cjson_norm (j : json) : json :=
  match j with
  | JArr [] => JObj []
  | JArr l => JArr (map cjson_norm l)
  | JObj l => JObj (lua_table (map (λ kv, (kv.1, cjson_norm kv.2)) l))
  | _ => j
  end.

Lemma jset_wf field v l : utf8_valid field = true → jwf v = true → members_wf l = true →
  members_wf (jset field v l) = true.
Proof.
  intros Hf Hv. unfold members_wf. induction l as [|[k w] l IH]; cbn -[utf8_valid].
  - by rewrite Hf, Hv.
  - rewrite !andb_true_iff. intros [[Hk Hw] Hl]. case_bool_decide; cbn -[utf8_valid];
      rewrite Hk, ?Hv, ?Hw, ?Hl; [done|]. by apply IH.
Qed.
Lemma lua_table_wf l : members_wf l = true → members_wf (lua_table l) = true.
Proof.
  unfold lua_table. assert (members_wf [] = true) as Hnil by done. revert Hnil. generalize (@nil (string * json)).
  induction l as [|[k v] l IH]; intros acc Hacc Hl; [done|]. unfold members_wf in Hl. cbn -[utf8_valid] in Hl.
  rewrite !andb_true_iff in Hl. destruct Hl as [[Hk Hv] Hl]. cbn. apply IH; [|exact Hl]. by apply jset_wf.
Qed.
Lemma cjson_norm_wf j : jwf j = true → jwf (cjson_norm j) = true.
Proof.
  induction j as [| | | |l IH|l IH] using json_nested_ind; try done; cbn [jwf cjson_norm].
  - destruct l as [|x l]; [done|]. intros Hl. cbn [jwf map forallb] in *. revert Hl. rewrite !andb_true_iff.
    intros [Hx Hl]. apply Forall_cons in IH as [IHx IH]. split; [by apply IHx|]. clear -IH Hl.
    induction IH as [|y l IHy _ IH]; [done|]. cbn in *. apply andb_true_iff in Hl as [??]. rewrite IHy, IH; done.
  - intros Hl. apply lua_table_wf. unfold members_wf. induction IH as [|[k y] l IHy _ IH]; [done|].
    cbn -[utf8_valid] in *. rewrite !andb_true_iff in Hl. destruct Hl as [[Hk Hy] Hl].
    rewrite Hk, IHy, IH; done.
Qed.

Lemma jset_names (P : string → Prop) field v l : P field → Forall P l.*1 → Forall P (jset field v l).*1.
Proof.
  intros Hf. induction l as [|[k w] l IH]; cbn; [by constructor|]. intros [Hk Hl]%Forall_cons. case_bool_decide; cbn; constructor; auto.
Qed.

(** A table whose names differ is the object it was decoded from. *)
Lemma jset_fresh field v l : field ∉ l.*1 → jset field v l = l ++ [(field, v)].
Proof.
  induction l as [|[k w] l IH]; cbn; [done|]. rewrite not_elem_of_cons. intros [Hk Hl].
  rewrite bool_decide_false by done. by rewrite IH.
Qed.
Lemma lua_table_nodup l : NoDup l.*1 → lua_table l = l.
Proof.
  unfold lua_table. change l with ([] ++ l) at 1 3. generalize (@nil (string * json)).
  induction l as [|[k v] l IH]; intros acc; cbn; [by rewrite app_nil_r|].
  intros Hnd. rewrite jset_fresh.
  - rewrite IH; [by rewrite <-app_assoc|]. by rewrite <-app_assoc.
  - rewrite fmap_app in Hnd. cbn in Hnd. apply NoDup_app in Hnd as (_&Hnd&_).
    intros Hin. apply (Hnd _ Hin). left.
Qed.
Lemma jset_keys field v l : NoDup l.*1 → NoDup (jset field v l).*1.
Proof.
  induction l as [|[k w] l IH]; cbn; [by intros; apply NoDup_singleton|].
  intros [Hk Hl]%NoDup_cons. case_bool_decide; cbn; apply NoDup_cons; split; auto.
  clear IH Hl. induction l as [|[k' w'] l IH]; cbn in *; [set_solver|].
  apply not_elem_of_cons in Hk as [? Hk]. case_bool_decide; cbn; apply not_elem_of_cons; split; auto.
Qed.
Lemma jget_jset field field' v l :
  jget field' (jset field v l) = if decide (field' = field) then Some v else jget field' l.
Proof.
  induction l as [|[k w] l IH]; cbn.
  - case_bool_decide; case_decide; congruence.
  - case_bool_decide; subst; cbn; [case_bool_decide; case_decide; congruence|].
    rewrite IH. case_bool_decide; case_decide; subst; congruence.
Qed.
