(* ===== verification/LuaPattern.v ===== *)
(** * The Lua patterns the scripts run on stored JSON text

    [rotateTokenScript], [rotateAndDeleteScript] and [evictOldestSessionsScript] do not
    decode the stored document: they search its raw text for a quoted member name, a
    colon and a quote, and capture what follows up to the next quote. This file models
    the search and shows what it finds in a text printed by [json.Marshal], whatever
    the other members hold. *)
From S2P Require Import Prelude GoTime Json.
Local Open Scope Z_scope.

(** The text up to the next quote. *)
Fixpoint take_quoted (s : string) : option string :=
  match s with
  | EmptyString => None
  | String c s' =>
      if bool_decide (c = dquote) then Some EmptyString
      else t ← take_quoted s'; Some (String c t)
  end.

(** A run of digits, as [%d+]. *)
Fixpoint take_digits (s : string) : string :=
  match s with
  | EmptyString => EmptyString
  | String c s' => match digit_val c with Some _ => String c (take_digits s') | None => EmptyString end
  end.
Definition take_digits1 (s : string) : option string :=
  match take_digits s with EmptyString => None | d => Some d end.

(** [string.match(s, prefix .. capture)], searching from the left. *)
Fixpoint lua_match (cap : string → option string) (p s : string) : option string :=
  match (r ← strip_prefix p s; cap r) with
  | Some c => Some c
  | None => match s with EmptyString => None | String _ s' => lua_match cap p s' end
  end.

(** A quoted member name and a colon, with and without the quote that opens a string. *)
Definition str_member (name : string) : string :=
  String dquote (name +:+ String dquote (String ":" (String dquote EmptyString))).
Definition num_member (name : string) : string :=
  String dquote (name +:+ String dquote (String ":" EmptyString)).

Definition match_str (name s : string) : option string := lua_match take_quoted (str_member name) s.
Definition match_num (name s : string) : option string := lua_match take_digits1 (num_member name) s.

(** ** Escaped text has no bare quote *)
Inductive esc_text : string → Prop :=
  | esc_nil : esc_text EmptyString
  | esc_plain c s : c ≠ dquote → c ≠ backslash → esc_text s → esc_text (String c s)
  | esc_pair e s : esc_text s → esc_text (String backslash (String e s)).

Lemma hex_digit_plain n : (n < 16)%N → hex_digit n ≠ dquote ∧ hex_digit n ≠ backslash.
Proof.
  intros Hn. unfold hex_digit.
  assert (n ∈ [0;1;2;3;4;5;6;7;8;9;10;11;12;13;14;15]%N) as Hin by (rewrite !elem_of_cons; lia).
  rewrite !elem_of_cons, elem_of_nil in Hin.
  destruct_or! Hin; subst; try done; split; intros [=].
Qed.

Lemma bv_bound a : (bv a < 256)%N.
Proof. apply N_ascii_bounded. Qed.

Lemma esc_text_ascii a t : esc_text t → esc_text (escape_ascii a t).
Proof.
  intros Ht. unfold escape_ascii, hex2.
  assert (bv a / 16 < 16 ∧ bv a mod 16 < 16)%N as [Hd Hm].
  { pose proof (bv_bound a). split; [|apply N.mod_lt; lia]. apply N.Div0.div_lt_upper_bound. lia. }
  destruct (hex_digit_plain _ Hd), (hex_digit_plain _ Hm).
  repeat case_match; repeat case_bool_decide; try done; subst;
    repeat first [apply esc_pair | apply esc_plain]; done.
Qed.

Lemma esc_text_high a t : (bv a <? 128)%N = false → esc_text t → esc_text (String a t).
Proof. intros Ha. destruct (high_plain a Ha) as (?&?&_). by apply esc_plain. Qed.

Lemma cont_high a lo hi : between lo hi a = true → (128 <=? lo)%N = true → (bv a <? 128)%N = false.
Proof. unfold between. rewrite andb_true_iff, !N.leb_le, N.ltb_ge. lia. Qed.

Ltac high :=
  repeat match goal with
    | H : rune2 _ _ = true |- _ => unfold rune2 in H
    | H : rune3 _ _ _ = true |- _ => unfold rune3 in H
    | H : rune4 _ _ _ _ = true |- _ => unfold rune4 in H
    | H : cont _ = true |- _ => unfold cont in H
    | H : (_ && _)%bool = true |- _ => apply andb_true_iff in H as [? ?]
    | H : (_ || _)%bool = true |- _ => apply orb_true_iff in H as [?|?]
    end;
  by eapply cont_high.

Lemma esc_text_escape s : esc_text (escape s).
Proof.
  remember (String.length s) as n eqn:Hn. revert s Hn.
  induction (lt_wf n) as [n _ IH]. intros s ->.
  assert (∀ t, (String.length t < String.length s)%nat → esc_text (escape t)) as IHt by eauto.
  clear IH. destruct s as [|a s1]; [constructor|]. cbn [escape].
  assert (esc_text (escape s1)) as H1 by (apply IHt; cbn; lia).
  assert (esc_text (String backslash ("ufffd" +:+ escape s1))) as Hbad
    by (cbn; repeat first [apply esc_pair | apply esc_plain]; done).
  destruct (bv a <? 128)%N eqn:Ha; [by apply esc_text_ascii|].
  destruct s1 as [|b s2]; [done|]. destruct (rune2 a b) eqn:Hab.
  { apply esc_text_high; [done|]. apply esc_text_high; [high|]. apply IHt. cbn; lia. }
  destruct s2 as [|c s3]; [done|]. destruct (rune3 a b c) eqn:Habc.
  { assert (esc_text (escape s3)) by (apply IHt; cbn; lia). destruct (andb _ _) eqn:Hls.
    - apply andb_true_iff in Hls as [_ Hc]. unfold between in Hc.
      rewrite andb_true_iff, !N.leb_le in Hc.
      destruct (hex_digit_plain (bv c - 160)) as [??]; [lia|].
      cbn. repeat first [apply esc_pair | apply esc_plain]; done.
    - apply esc_text_high; [done|]. apply esc_text_high; [high|]. by apply esc_text_high; [high|]. }
  destruct s3 as [|d s4]; [done|]. destruct (rune4 a b c d) eqn:Habcd; [|done].
  apply esc_text_high; [done|]. apply esc_text_high; [high|].
  apply esc_text_high; [high|]. apply esc_text_high; [high|]. apply IHt. cbn; lia.
Qed.

(** ** Scanning past the other members *)

(** Member names: lower-case letters and underscores. *)
Definition ident_char (c : ascii) : bool := between 97 122 c || bool_decide (c = "_"%char).
Fixpoint ident_chars (s : string) : bool :=
  match s with EmptyString => true | String c s' => ident_char c && ident_chars s' end.
Definition ident (s : string) : bool :=
  match s with EmptyString => false | _ => ident_chars s end.

Lemma ident_char_plain c :
  ident_char c = true →
  (bv c <? 128)%N = true ∧ Forall (λ x, c ≠ x) [dquote; backslash; ","; ":"; "}"; "{"]%char
  ∧ ∀ t, escape_ascii c t = String c t.
Proof.
  destruct c as [[] [] [] [] [] [] [] []]; intros Hc; try discriminate Hc;
    (split; [done|split; [repeat constructor; intros [=]|done]]).
Qed.

Lemma escape_ident s t : ident_chars s = true → escape s +:+ t = s +:+ t.
Proof.
  induction s as [|c s IH]; [done|]. cbn [ident_chars]. intros [Hc Hs]%andb_true_iff.
  destruct (ident_char_plain c Hc) as (Hlt&_&Hesc). cbn [escape]. rewrite Hlt, Hesc. cbn.
  by rewrite IH.
Qed.

Section scan.
#[local] Set Default Proof Using "All".
Context (cap : string → option string) (name tail : string).
Context (Hname : ident name = true).
(** The pattern: a quoted name, a colon, and [tail]. *)
Let P := String dquote (name +:+ String dquote (String ":" tail)).

Lemma skip_char c s : c ≠ dquote → lua_match cap P (String c s) = lua_match cap P s.
Proof. intros Hc. unfold P. cbn. by rewrite bool_decide_false. Qed.

Lemma skip_miss c s : strip_prefix P (String c s) = None →
  lua_match cap P (String c s) = lua_match cap P s.
Proof. intros Hc. change (lua_match cap P (String c s)) with
  (match (r ← strip_prefix P (String c s); cap r) with Some x => Some x | None => lua_match cap P s end).
  by rewrite Hc.
Qed.

Lemma name_chars : ident_chars name = true.
Proof. by destruct name. Qed.

(** The name does not match inside the text of a value that ends the member. *)
Lemma name_not_in_text n u c s :
  ident_chars n = true → esc_text u → c ≠ ":"%char →
  strip_prefix (n +:+ String dquote (String ":" tail)) (u +:+ String dquote (String c s)) = None.
Proof.
  intros Hn Hu Hc. revert n Hn. induction Hu as [|x u Hx1 Hx2 Hu IH|e u Hu IH]; intros n Hn.
  - destruct n as [|y n]; cbn.
    + by eval_tests.
    + apply andb_true_iff in Hn as [Hy _]. apply ident_char_plain in Hy as (_&Hy&_).
      rewrite !Forall_cons in Hy. rewrite bool_decide_false; [done|naive_solver].
  - destruct n as [|y n]; cbn.
    + rewrite bool_decide_false; [done|naive_solver].
    + apply andb_true_iff in Hn as [_ Hn]. case_bool_decide; [|done]. by apply IH.
  - destruct n as [|y n]; cbn; [done|].
    apply andb_true_iff in Hn as [Hy _]. apply ident_char_plain in Hy as (_&Hy&_).
    rewrite !Forall_cons in Hy. rewrite bool_decide_false; [done|naive_solver].
Qed.

Lemma skip_close c s : c = ","%char ∨ c = "}"%char ∨ c = ":"%char →
  lua_match cap P (String dquote (String c s)) = lua_match cap P (String c s).
Proof.
  intros Hc. apply skip_miss. unfold P. cbn. eval_tests.
  pose proof Hname as Hn. destruct name as [|y n]; [done|].
  cbn [ident ident_chars] in Hn. apply andb_true_iff in Hn as [Hy _].
  apply ident_char_plain in Hy as (_&Hy&_). rewrite !Forall_cons in Hy. cbn.
  rewrite bool_decide_false; [done|naive_solver].
Qed.

Lemma skip_text u c s : esc_text u → c = ","%char ∨ c = "}"%char →
  lua_match cap P (u +:+ String dquote (String c s)) = lua_match cap P (String c s).
Proof.
  intros Hu Hc. induction Hu as [|x u Hx1 Hx2 Hu IH|e u Hu IH]; cbn [String.append].
  - apply skip_close. tauto.
  - by rewrite skip_char.
  - rewrite skip_char by done. destruct (decide (e = dquote)) as [->|He].
    + rewrite skip_miss; [done|]. unfold P. cbn. eval_tests.
      apply name_not_in_text; [apply name_chars|done|]. naive_solver.
    + by rewrite skip_char.
Qed.

Lemma skip_value v c s : c = ","%char ∨ c = "}"%char →
  lua_match cap P (jquote v (String c s)) = lua_match cap P (String c s).
Proof.
  intros Hc. unfold jquote. rewrite skip_miss.
  - by apply skip_text; [apply esc_text_escape|].
  - unfold P. cbn. eval_tests.
    apply name_not_in_text; [apply name_chars|apply esc_text_escape|naive_solver].
Qed.

Lemma other_name n k s : ident_chars n = true → ident_chars k = true → n ≠ k →
  strip_prefix (n +:+ String dquote (String ":" tail)) (k +:+ String dquote s) = None.
Proof.
  revert k. induction n as [|y n IH]; intros [|x k] Hn Hk Hne; cbn in *; [done|..].
  - apply andb_true_iff in Hk as [Hx _]. apply ident_char_plain in Hx as (_&Hx&_).
    rewrite !Forall_cons in Hx. rewrite bool_decide_false; [done|naive_solver].
  - apply andb_true_iff in Hn as [Hx _]. apply ident_char_plain in Hx as (_&Hx&_).
    rewrite !Forall_cons in Hx. rewrite bool_decide_false; [done|naive_solver].
  - apply andb_true_iff in Hn as [_ Hn]. apply andb_true_iff in Hk as [_ Hk].
    case_bool_decide; [|done]. subst. apply IH; congruence.
Qed.

Lemma skip_ident k s : ident_chars k = true → lua_match cap P (k +:+ s) = lua_match cap P s.
Proof.
  induction k as [|x k IH]; [done|]. cbn [ident_chars String.append].
  intros [Hx Hk]%andb_true_iff. apply ident_char_plain in Hx as (_&Hx&_).
  rewrite !Forall_cons in Hx. rewrite skip_char by naive_solver. auto.
Qed.

Lemma skip_key k s : ident_chars k = true → k ≠ name →
  lua_match cap P (jquote k (String ":" s)) = lua_match cap P s.
Proof.
  intros Hk Hne. unfold jquote. rewrite escape_ident by done. rewrite skip_miss.
  - rewrite skip_ident by done. rewrite skip_close by tauto. by apply skip_char.
  - unfold P. cbn. eval_tests. apply other_name; [apply name_chars|done|done].
Qed.

(** Values the scan can pass over: strings, booleans, numbers and null. *)
Definition scalar (j : json) : bool :=
  match j with JArr _ | JObj _ => false | _ => true end.

Lemma skip_dec z s : lua_match cap P (dec z +:+ s) = lua_match cap P s.
Proof.
  assert (∀ f z acc, 0 <= z → lua_match cap P (dec_pos f z acc) = lua_match cap P acc) as Hpos.
  { induction f as [|f IH]; intros z' acc Hz; [done|]. cbn [dec_pos].
    assert (digit (z' mod 10) ≠ dquote).
    { pose proof (digit_heads (z' mod 10) ltac:(apply Z.mod_pos_bound; lia)) as Hh.
      rewrite !Forall_cons in Hh. naive_solver. }
    destruct (z' <? 10); [by rewrite skip_char|]. rewrite IH by div_lia. by rewrite skip_char. }
  unfold dec. destruct (Z.ltb_spec z 0).
  - cbn [String.append]. rewrite skip_char by done. rewrite dec_pos_app. apply Hpos. lia.
  - rewrite dec_pos_app. by apply Hpos.
Qed.

Lemma skip_scalar j c s : scalar j = true → c = ","%char ∨ c = "}"%char →
  lua_match cap P (jprint j (String c s)) = lua_match cap P (String c s).
Proof.
  intros Hj Hc. destruct j as [|[]|z|v|l|l]; try done; cbn [jprint].
  - apply skip_dec.
  - by apply skip_value.
Qed.

(** A member with another name is passed over. *)
Lemma skip_member k j l rest :
  ident_chars k = true → k ≠ name → scalar j = true →
  lua_match cap P (jmembers ((k, j) :: l) rest) =
  lua_match cap P (match l with [] => String "}" rest | _ => jmembers l rest end).
Proof.
  intros Hk Hne Hj. destruct l as [|y l].
  - cbn [jmembers]. rewrite skip_key by done. rewrite skip_scalar by tauto. done.
  - change (jmembers ((k, j) :: y :: l) rest)
      with (jquote k (String ":" (jprint j (String "," (jmembers (y :: l) rest))))).
    rewrite skip_key by done. rewrite skip_scalar by tauto. by apply skip_char.
Qed.

Definition skippable (kv : string * json) : bool :=
  ident_chars kv.1 && scalar kv.2 && negb (bool_decide (kv.1 = name)).

Lemma skip_members pre l rest :
  forallb skippable pre = true → l ≠ [] →
  lua_match cap P (jmembers (pre ++ l) rest) = lua_match cap P (jmembers l rest).
Proof.
  intros Hpre Hl. induction pre as [|[k j] pre IH]; [done|].
  cbn [forallb] in Hpre. apply andb_true_iff in Hpre as [Hkv Hpre].
  unfold skippable in Hkv. rewrite !andb_true_iff, negb_true_iff, bool_decide_eq_false in Hkv.
  destruct Hkv as [[? ?] ?]. cbn [app]. rewrite skip_member by done. rewrite <-IH by done.
  destruct pre, l; done.
Qed.

Lemma skip_all l rest : forallb skippable l = true →
  lua_match cap P (jmembers l rest) = lua_match cap P rest.
Proof.
  intros Hl. induction l as [|[k j] l IH]; [by apply skip_char|].
  cbn [forallb] in Hl. apply andb_true_iff in Hl as [Hkv Hl].
  unfold skippable in Hkv. rewrite !andb_true_iff, negb_true_iff, bool_decide_eq_false in Hkv.
  destruct Hkv as [[? ?] ?]. rewrite skip_member by done. rewrite <-IH by done.
  destruct l; [|done]. cbn. done.
Qed.
End scan.

(** ** What the search finds *)

(** A string that is written as it is: no quote, backslash, control or HTML character
    and nothing outside ASCII. UUIDs, hexadecimal hashes and timestamps are such. *)
Definition clean_char (c : ascii) : bool :=
  between 32 126 c && negb (bool_decide (c = dquote)) && negb (bool_decide (c = backslash))
  && negb (bool_decide (c = "<"%char)) && negb (bool_decide (c = ">"%char))
  && negb (bool_decide (c = "&"%char)).
Fixpoint clean (s : string) : bool :=
  match s with EmptyString => true | String c s' => clean_char c && clean s' end.

Lemma clean_char_plain c :
  clean_char c = true →
  (bv c <? 128)%N = true ∧ c ≠ dquote ∧ ∀ t, escape_ascii c t = String c t.
Proof.
  destruct c as [[] [] [] [] [] [] [] []]; intros Hc; try discriminate Hc;
    (split; [done|split; [intros [=]|done]]).
Qed.

Lemma escape_clean s : clean s = true → escape s = s.
Proof.
  induction s as [|c s IH]; [done|]. cbn [clean]. intros [Hc Hs]%andb_true_iff.
  destruct (clean_char_plain c Hc) as (Hlt&_&Hesc). cbn [escape]. rewrite Hlt, Hesc. by rewrite IH.
Qed.

Lemma clean_utf8 s : clean s = true → utf8_valid s = true.
Proof.
  induction s as [|c s IH]; [done|]. cbn [clean]. intros [Hc Hs]%andb_true_iff.
  destruct (clean_char_plain c Hc) as (Hlt&_&_). cbn [utf8_valid]. rewrite Hlt. auto.
Qed.

Lemma take_quoted_clean s r : clean s = true → take_quoted (s +:+ String dquote r) = Some s.
Proof.
  induction s as [|c s IH]; cbn [clean take_quoted String.append].
  - intros. by eval_tests.
  - intros [Hc Hs]%andb_true_iff. destruct (clean_char_plain c Hc) as (_&Hq&_).
    rewrite bool_decide_false by done. by rewrite IH.
Qed.

Lemma strip_prefix_app p s : strip_prefix p (p +:+ s) = Some s.
Proof. induction p as [|c p IH]; cbn; [done|]. by rewrite bool_decide_true. Qed.

Lemma match_str_hit name v r :
  ident_chars name = true → clean v = true →
  match_str name (jquote name (String ":" (jquote v r))) = Some v.
Proof.
  intros Hn Hv. unfold match_str, str_member, jquote.
  rewrite escape_ident by done. rewrite (escape_clean v) by done.
  cbn [lua_match]. replace (strip_prefix _ _) with (Some (v +:+ String dquote r)).
  - cbn [mbind option_bind]. by rewrite take_quoted_clean.
  - cbn [strip_prefix]. eval_tests. symmetry.
    rewrite <-(strip_prefix_app (name +:+ String dquote (String ":" (String dquote "")))).
    by rewrite append_assoc.
Qed.

(** The search returns the member's own value when every member before it has another
    name and a scalar value, of any contents. *)
Lemma match_str_member name v pre post :
  ident name = true → forallb (skippable name) pre = true → clean v = true →
  match_str name (jobj (pre ++ (name, JStr v) :: post)) = Some v.
Proof.
  intros Hn Hpre Hv. unfold jobj. rewrite jprint_obj. unfold match_str, str_member.
  rewrite skip_char by done. rewrite skip_members by done.
  destruct post as [|y post].
  - cbn [jmembers jprint]. apply match_str_hit; [by destruct name|done].
  - change (jmembers ((name, JStr v) :: y :: post) "")
      with (jquote name (String ":" (jquote v (String "," (jmembers (y :: post) ""))))).
    apply match_str_hit; [by destruct name|done].
Qed.

(** Without such a member the search fails. *)
Lemma match_str_none name l :
  ident name = true → forallb (skippable name) l = true →
  match_str name (jobj l) = None.
Proof.
  intros Hn Hl. unfold jobj. rewrite jprint_obj. unfold match_str, str_member.
  rewrite skip_char by done. by rewrite skip_all.
Qed.

(** ** Decimal numbers in front of other text *)
Lemma take_digits_dec_pos f z acc : 0 <= z → take_digits (dec_pos f z acc) = dec_pos f z (take_digits acc).
Proof.
  revert z acc. induction f as [|f IH]; intros z acc Hz; cbn [dec_pos]; [done|].
  assert (∀ t, take_digits (String (digit (z mod 10)) t) = String (digit (z mod 10)) (take_digits t)) as Hd.
  { intros t. cbn. pose proof (Z.mod_pos_bound z 10 ltac:(lia)). by rewrite digit_val_digit. }
  destruct (z <? 10); [apply Hd|]. rewrite IH by div_lia. by rewrite Hd.
Qed.
Lemma dec_pos_ne f z acc : acc ≠ "" → dec_pos f z acc ≠ "".
Proof. revert z acc. induction f as [|f IH]; intros z acc Ha; cbn [dec_pos]; [done|]. destruct (z <? 10); [done|]. by apply IH. Qed.
Lemma take_digits_dec n rest : 0 <= n → take_digits rest = "" → take_digits1 (dec n +:+ rest) = Some (dec n).
Proof.
  intros Hn Hr. unfold take_digits1. enough (take_digits (dec n +:+ rest) = dec n) as ->.
  { unfold dec. rewrite (proj2 (Z.ltb_ge _ _)) by done. unfold dec_fuel. cbn [dec_pos].
    destruct (n <? 10); [done|]. match goal with |- context [dec_pos ?f ?z ?a] => pose proof (dec_pos_ne f z a ltac:(done)) end. by destruct (dec_pos _ _ _). }
  unfold dec. rewrite (proj2 (Z.ltb_ge _ _)) by done. rewrite dec_pos_app, take_digits_dec_pos by done. cbn. by rewrite Hr.
Qed.
