(* ===== verification/Hash.v ===== *)
(** * SHA-256, hexadecimal and base64url (Go's [crypto/sha256], [encoding/hex],
    [encoding/base64]) over byte strings. *)
From S2P Require Import Prelude.
Local Open Scope N_scope.

Definition w32 (x : N) : N := N.land x 4294967295.
Definition add32 (x y : N) : N := w32 (x + y).
Definition rotr (n x : N) : N := w32 (N.lor (N.shiftr x n) (N.shiftl x (32 - n))).

Definition sha_k : list N :=
  [1116352408; 1899447441; 3049323471; 3921009573; 961987163; 1508970993;
   2453635748; 2870763221; 3624381080; 310598401; 607225278; 1426881987;
   1925078388; 2162078206; 2614888103; 3248222580; 3835390401; 4022224774;
   264347078; 604807628; 770255983; 1249150122; 1555081692; 1996064986;
   2554220882; 2821834349; 2952996808; 3210313671; 3336571891; 3584528711;
   113926993; 338241895; 666307205; 773529912; 1294757372; 1396182291;
   1695183700; 1986661051; 2177026350; 2456956037; 2730485921; 2820302411;
   3259730800; 3345764771; 3516065817; 3600352804; 4094571909; 275423344;
   430227734; 506948616; 659060556; 883997877; 958139571; 1322822218;
   1537002063; 1747873779; 1955562222; 2024104815; 2227730452; 2361852424;
   2428436474; 2756734187; 3204031479; 3329325298].
Definition sha_h0 : list N :=
  [1779033703; 3144134277; 1013904242; 2773480762; 1359893119; 2600822924;
   528734635; 1541459225].

Definition bytes_of (s : string) : list N := map N_of_ascii (String.list_ascii_of_string s).
Definition string_of (l : list N) : string := String.string_of_list_ascii (map ascii_of_N l).

(** Big-endian words. *)
Fixpoint words (l : list N) : list N :=
  match l with
  | a :: b :: c :: d :: l' => ((a * 256 + b) * 256 + c) * 256 + d :: words l'
  | _ => []
  end.
Definition word_bytes (w : N) : list N :=
  [N.shiftr w 24; N.land (N.shiftr w 16) 255; N.land (N.shiftr w 8) 255; N.land w 255].

Definition sha_pad (l : list N) : list N :=
  let n := length l in
  let zeros := ((119 - n mod 64) mod 64)%nat in
  let bits := N.of_nat n * 8 in
  l ++ [128] ++ repeat 0 zeros ++ word_bytes (w32 (N.shiftr bits 32)) ++ word_bytes (w32 bits).

(** The message schedule, most recent word first. *)
Fixpoint schedule (n : nat) (w : list N) : list N :=
  match n with
  | O => w
  | S n' =>
      let at_ i := nth i w 0 in
      let x := at_ 14%nat in
      let y := at_ 1%nat in
      let s0 := N.lxor (N.lxor (rotr 7 x) (rotr 18 x)) (N.shiftr x 3) in
      let s1 := N.lxor (N.lxor (rotr 17 y) (rotr 19 y)) (N.shiftr y 10) in
      schedule n' (w32 (at_ 15%nat + s0 + at_ 6%nat + s1) :: w)
  end.

Definition sha_round (st : list N) (kw : N * N) : list N :=
  match st with
  | [a; b; c; d; e; f; g; h] =>
      let S1 := N.lxor (N.lxor (rotr 6 e) (rotr 11 e)) (rotr 25 e) in
      let ch := N.lxor (N.land e f) (N.land (N.lxor e 4294967295) g) in
      let t1 := w32 (h + S1 + ch + kw.1 + kw.2) in
      let S0 := N.lxor (N.lxor (rotr 2 a) (rotr 13 a)) (rotr 22 a) in
      let maj := N.lxor (N.lxor (N.land a b) (N.land a c)) (N.land b c) in
      [add32 t1 (w32 (S0 + maj)); a; b; c; add32 d t1; e; f; g]
  | _ => st
  end.

Definition sha_block (st : list N) (blk : list N) : list N :=
  let w := rev (schedule 48 (rev (words blk))) in
  zip_with add32 st (fold_left sha_round (zip sha_k w) st).

Fixpoint sha_blocks (fuel : nat) (st : list N) (l : list N) : list N :=
  match fuel with
  | O => st
  | S f => match l with [] => st | _ => sha_blocks f (sha_block st (take 64 l)) (drop 64 l) end
  end.

(** [sha256.Sum256]: 32 bytes. The padded message has one block per 64 bytes. *)
Definition sha256 (s : string) : list N :=
  let m := sha_pad (bytes_of s) in
  concat (map word_bytes (sha_blocks (length m) sha_h0 m)).

(** [hex.EncodeToString] *)
Definition hex_char (n : N) : ascii := if n <? 10 then ascii_of_N (48 + n) else ascii_of_N (87 + n).
Fixpoint hex_encode (l : list N) : string :=
  match l with
  | [] => EmptyString
  | b :: l' => String (hex_char (b / 16)) (String (hex_char (b mod 16)) (hex_encode l'))
  end.

(** [base64.RawURLEncoding.EncodeToString] *)
Definition b64_char (n : N) : ascii :=
  if n <? 26 then ascii_of_N (65 + n)
  else if n <? 52 then ascii_of_N (71 + n)
  else if n <? 62 then ascii_of_N (n - 4)
  else if n =? 62 then "-"%char else "_"%char.
Fixpoint b64_encode (l : list N) : string :=
  match l with
  | a :: b :: c :: l' =>
      String (b64_char (a / 4)) (String (b64_char (a mod 4 * 16 + b / 16))
        (String (b64_char (b mod 16 * 4 + c / 64)) (String (b64_char (c mod 64)) (b64_encode l'))))
  | [a; b] =>
      String (b64_char (a / 4)) (String (b64_char (a mod 4 * 16 + b / 16))
        (String (b64_char (b mod 16 * 4)) EmptyString))
  | [a] => String (b64_char (a / 4)) (String (b64_char (a mod 4 * 16)) EmptyString)
  | [] => EmptyString
  end.

(** FIPS 180-4 and RFC 7636 (appendix B) examples. *)
Example sha256_abc :
  hex_encode (sha256 "abc") = "ba7816bf8f01cfea414140de5dae2223b00361a396177a9cb410ff61f20015ad".
Proof. vm_compute. reflexivity. Qed.
Example sha256_two_blocks :
  hex_encode (sha256 "abcdbcdecdefdefgefghfghighijhijkijkljklmklmnlmnomnopnopq") =
  "248d6a61d20638b8e5c026930c3e6039a33ce45964ff2167f6ecedd419db06c1".
Proof. vm_compute. reflexivity. Qed.
Example pkce_rfc7636 :
  b64_encode (sha256 "dBjftJeZ4CVP-mB92K27uhbUJU1p1r_wW1gFWFOEjXk") =
  "E9Melhoa2OwvFrEMTJguCHaoeK1t8URWbuGJSstw-cM".
Proof. vm_compute. reflexivity. Qed.
