(* ===== verification/Url.v ===== *)
(** * Go's [net/url.Parse]: what the program reads of a URL

    The program looks at the scheme, the host, the host name without port and the
    fragment of the URLs it is given. The definitions follow the standard library of Go
    1.26: the parts that can make [Parse] fail are all here, of the parsed URL only those
    four are kept. *)
From S2P Require Import Prelude.
Local Open Scope nat_scope.

(** ** Characters and cutting *)
Definition code (c : ascii) : N := N_of_ascii c.
Definition in_range (lo hi : N) (c : ascii) : bool := (lo <=? code c)%N && (code c <=? hi)%N.
Definition is_lower (c : ascii) : bool := in_range 97 122 c.
Definition is_upper (c : ascii) : bool := in_range 65 90 c.
Definition is_digit (c : ascii) : bool := in_range 48 57 c.
Definition is_letter (c : ascii) : bool := is_lower c || is_upper c.
Definition is_hex (c : ascii) : bool := is_digit c || in_range 97 102 c || in_range 65 70 c.
Definition unhex (c : ascii) : N :=
  if is_digit c then code c - 48 else if in_range 97 102 c then code c - 87 else code c - 55.
Definition lower (c : ascii) : ascii := if is_upper c then ascii_of_N (code c + 32) else c.

Fixpoint smap (f : ascii → ascii) (s : string) : string :=
  match s with EmptyString => EmptyString | String c s' => String (f c) (smap f s') end.
Fixpoint sforall (p : ascii → bool) (s : string) : bool :=
  match s with EmptyString => true | String c s' => p c && sforall p s' end.
Lemma sforall_app p (a b : string) : sforall p (a +:+ b) = sforall p a && sforall p b.
Proof. induction a as [|c a IH]; cbn; [done|]. by rewrite IH, andb_assoc. Qed.
Definition sexists (p : ascii → bool) (s : string) : bool := negb (sforall (λ c, negb (p c)) s).
Definition one_of (l : list ascii) (c : ascii) : bool := bool_decide (c ∈ l).
Definition ToLower (s : string) : string := smap lower s.

(** [strings.Cut] at the first [c]. *)
Fixpoint cut (c : ascii) (s : string) : option (string * string) :=
  match s with
  | EmptyString => None
  | String d s' => if bool_decide (c = d) then Some (EmptyString, s')
                   else match cut c s' with Some (a, b) => Some (String d a, b) | None => None end
  end.
Definition before (c : ascii) (s : string) : string := match cut c s with Some (a, _) => a | None => s end.
(** Around the last [c]: the text before it, and after it. *)
Fixpoint cut_last (c : ascii) (s : string) : option (string * string) :=
  match s with
  | EmptyString => None
  | String d s' =>
      match cut_last c s' with
      | Some (a, b) => Some (String d a, b)
      | None => if bool_decide (c = d) then Some (EmptyString, s') else None
      end
  end.
Fixpoint strip_pre (p s : string) : option string :=
  match p, s with
  | EmptyString, _ => Some s
  | String a p', String b s' => if bool_decide (a = b) then strip_pre p' s' else None
  | _, _ => None
  end.
Definition has_prefix (p s : string) : bool := bool_decide (is_Some (strip_pre p s)).

(** ** Percent-encoding *)
Inductive encoding : Type := encodePath | encodeUserPassword | encodeHost | encodeZone | encodeFragment.

(** [shouldEscape] in a host or zone. *)
Definition escape_in_host (c : ascii) : bool :=
  negb (is_letter c || is_digit c
        || one_of ["!";"$";"&";"'";"(";")";"*";"+";",";";";"=";":";"[";"]";"<";">";"034";"-";"_";".";"~"]%char c).

Fixpoint unescape (mode : encoding) (fuel : nat) (s : string) : option string :=
  match fuel with
  | O => None
  | S fuel =>
      match s with
      | EmptyString => Some EmptyString
      | String c s' =>
          if bool_decide (c = "%"%char) then
            match s' with
            | String a (String b rest) =>
                if is_hex a && is_hex b then
                  let v := (unhex a * 16 + unhex b)%N in
                  let is25 := bool_decide (a = "2"%char) && bool_decide (b = "5"%char) in
                  let bad := match mode with
                    | encodeHost => (unhex a <? 8)%N && negb is25
                    | encodeZone => negb is25 && negb (v =? 32)%N && escape_in_host (ascii_of_N v)
                    | _ => false
                    end in
                  if bad then None
                  else match unescape mode fuel rest with
                       | Some t => Some (String (ascii_of_N v) t) | None => None end
                else None
            | _ => None
            end
          else
            let bad := match mode with
              | encodeHost | encodeZone => (code c <? 128)%N && escape_in_host c
              | _ => false
              end in
            if bad then None
            else match unescape mode fuel s' with Some t => Some (String c t) | None => None end
      end
  end.
Definition unescape_all (mode : encoding) (s : string) : option string := unescape mode (S (String.length s)) s.

(** ** IPv6 literals ([netip.ParseAddr], the addresses that may stand in brackets) *)
Definition is_octet (s : string) : bool :=
  match s with
  | String a EmptyString => is_digit a
  | String a (String b EmptyString) => is_digit a && is_digit b && negb (bool_decide (a = "0"%char))
  | String a (String b (String c EmptyString)) =>
      sforall is_digit s && negb (bool_decide (a = "0"%char))
      && ((code a - 48) * 100 + (code b - 48) * 10 + (code c - 48) <=? 255)%N
  | _ => false
  end.
Definition is_ipv4 (s : string) : bool :=
  match cut "." s with
  | Some (a, s1) => match cut "." s1 with
    | Some (b, s2) => match cut "." s2 with
      | Some (c, d) => is_octet a && is_octet b && is_octet c && is_octet d
      | None => false end
    | None => false end
  | None => false
  end.
Definition is_group (s : string) : bool :=
  (1 <=? String.length s) && (String.length s <=? 4) && sforall is_hex s.

(** The number of 16-bit groups of a colon-separated list that may end in an IPv4 address. *)
Fixpoint count_groups (fuel : nat) (s : string) : option nat :=
  match fuel with
  | O => None
  | S fuel =>
      match cut ":" s with
      | Some (g, rest) => if is_group g then (n ← count_groups fuel rest; Some (S n)) else None
      | None => if is_group s then Some 1 else if is_ipv4 s then Some 2 else None
      end
  end.
Definition groups (s : string) : option nat :=
  match s with EmptyString => Some 0 | _ => count_groups (S (String.length s)) s end.

(** The part before the double colon must be plain groups. *)
Fixpoint cut_dcolon (s : string) : option (string * string) :=
  match strip_pre "::" s with
  | Some rest => Some (EmptyString, rest)
  | None => match s with
            | EmptyString => None
            | String c s' => match cut_dcolon s' with Some (a, b) => Some (String c a, b) | None => None end
            end
  end.
Definition is_ipv6 (s : string) : bool :=
  let addr_zone := match cut "%" s with
    | Some (a, z) => if bool_decide (z = "") then None else Some a
    | None => Some s end in
  match addr_zone with
  | None => false
  | Some a =>
      match cut_dcolon a with
      | Some (l, r) =>
          negb (sexists (λ c, bool_decide (c = "."%char)) l)
          && match groups l, groups r with Some m, Some n => m + n <=? 7 | _, _ => false end
      | None => match groups a with Some n => bool_decide (n = 8) && sexists (λ c, bool_decide (c = ":"%char)) a
                               | None => false end
      end
  end.

(** ** Host and authority *)
Definition validOptionalPort (port : string) : bool :=
  match port with
  | EmptyString => true
  | String c p => bool_decide (c = ":"%char) && sforall is_digit p
  end.

Fixpoint find_zone (s : string) : option (string * string) :=
  if has_prefix "%25" s then Some (EmptyString, s) else
  match s with
  | EmptyString => None
  | String c s' => match find_zone s' with Some (a, b) => Some (String c a, b) | None => None end
  end.

Definition parseHost (host : string) : option string :=
  match host with
  | String "[" host' =>
      if sexists (λ c, bool_decide (c = "["%char)) host' then None else
      match cut_last "]" host' with
      | None => None
      | Some (name, colonPort) =>
          if negb (validOptionalPort colonPort) then None else
          hostname ← match find_zone name with
                     | Some (h, z) => (a ← unescape_all encodeHost h; b ← unescape_all encodeZone z; Some (a +:+ b))
                     | None => unescape_all encodeHost name
                     end;
          if is_ipv6 hostname then Some ("[" +:+ hostname +:+ "]" +:+ colonPort) else None
      end
  | _ =>
      if sexists (λ c, bool_decide (c = "["%char)) host then None else
      match cut ":" host with
      | Some (_, p) => if sforall is_digit p then unescape_all encodeHost host else None
      | None => unescape_all encodeHost host
      end
  end.

Definition validUserinfo (s : string) : bool :=
  sforall (λ c, is_letter c || is_digit c
    || one_of ["-";".";"_";":";"~";"!";"$";"&";"'";"(";")";"*";"+";",";";";"=";"%";"@"]%char c) s.

Definition parseAuthority (authority : string) : option string :=
  match cut_last "@" authority with
  | None => parseHost authority
  | Some (userinfo, host) =>
      h ← parseHost host;
      if negb (validUserinfo userinfo) then None else
      match cut ":" userinfo with
      | None => _ ← unescape_all encodeUserPassword userinfo; Some h
      | Some (u, p) =>
          _ ← unescape_all encodeUserPassword u; _ ← unescape_all encodeUserPassword p; Some h
      end
  end.

(** ** [Parse] *)
Record URL : Type := mkURL {
  url_Scheme : string; url_Host : string; url_Fragment : string; url_Path : string; url_RawQuery : string }.

(** The scheme, in the case given, and the rest; [None] is a missing scheme error. *)
Fixpoint getScheme (first : bool) (s : string) : option (option (string * string)) :=
  match s with
  | EmptyString => Some None
  | String c s' =>
      if is_letter c then
        match getScheme false s' with
        | Some (Some (a, b)) => Some (Some (String c a, b)) | r => r end
      else if is_digit c || one_of ["+";"-";"."]%char c then
        if first then Some None
        else match getScheme false s' with
             | Some (Some (a, b)) => Some (Some (String c a, b)) | r => r end
      else if bool_decide (c = ":"%char) then if first then None else Some (Some (EmptyString, s'))
      else Some None
  end.

Definition is_ctl (c : ascii) : bool := (code c <? 32)%N || (code c =? 127)%N.

(** Scheme, host and path. *)
Definition parse_no_fragment (raw : string) : option (string * string * string) :=
  if sexists is_ctl raw then None
  else if bool_decide (raw = "*") then Some ("", "", "*")
  else
    sr ← getScheme true raw;
    let '(scheme, rest) := match sr with Some (s, r) => (ToLower s, r) | None => ("", raw) end in
    let rest := before "?" rest in
    if negb (has_prefix "/" rest) then
      if negb (bool_decide (scheme = "")) then Some (scheme, "", "")
      else if sexists (λ c, bool_decide (c = ":"%char)) (before "/" rest) then None
      else p ← unescape_all encodePath rest; Some (scheme, "", p)
    else if has_prefix "//" rest && (negb (bool_decide (scheme = "")) || negb (has_prefix "///" rest)) then
      let after := match strip_pre "//" rest with Some a => a | None => "" end in
      let authority := before "/" after in
      let path := match cut "/" after with Some (_, p) => String "/" p | None => "" end in
      host ← parseAuthority authority;
      p ← unescape_all encodePath path;
      Some (scheme, host, p)
    else p ← unescape_all encodePath rest; Some (scheme, "", p).

Definition url_parse (raw : string) : option URL :=
  let '(u, frag) := match cut "#" raw with Some (a, b) => (a, b) | None => (raw, "") end in
  '(scheme, host, path) ← parse_no_fragment u;
  f ← unescape_all encodeFragment frag;
  Some (mkURL scheme host f path (match cut "?" u with Some (_, q) => q | None => "" end)).

(** [Hostname]: without the port and without brackets. *)
Definition url_Hostname (u : URL) : string :=
  let h := match cut_last ":" (url_Host u) with
    | Some (a, p) => if sforall is_digit p then a else url_Host u
    | None => url_Host u
    end in
  match h with
  | String "[" h' => match cut_last "]" h' with Some (a, EmptyString) => a | _ => h end
  | _ => h
  end.

(** The examples of the package's documentation and tests. *)
Example url_https : url_parse "https://app.example.com:8443/cb?x=1" = Some (mkURL "https" "app.example.com:8443" "" "/cb" "x=1").
Proof. vm_compute. reflexivity. Qed.
Example url_ipv6 : url_Hostname <$> url_parse "http://[::1]:9000/cb" = Some "::1".
Proof. vm_compute. reflexivity. Qed.
Example url_fragment : url_Fragment <$> url_parse "https://a.example/cb#frag" = Some "frag".
Proof. vm_compute. reflexivity. Qed.
Example url_bad_escape : url_parse "https://a.example/%zz" = None.
Proof. vm_compute. reflexivity. Qed.
Example url_opaque : url_parse "javascript:alert(1)" = Some (mkURL "javascript" "" "" "" "").
Proof. vm_compute. reflexivity. Qed.
Example url_userinfo : url_Hostname <$> url_parse "http://localhost@evil.example/" = Some "evil.example".
Proof. vm_compute. reflexivity. Qed.
Example url_bad_colons : url_parse "http://::1/" = None.
Proof. vm_compute. reflexivity. Qed.
