(* ===== verification/Redis.v ===== *)
(** * The Redis server, the network and the process around a request

    Redis and the [go-redis] client are not part of the program: they are the
    parameter [R] of the development, through the class [RedisServer]. Its laws state
    the documented effect and reply of each command on the key it names. The Lua
    scripts of the program are definitions over these commands; a script or a single
    command is one round trip, which the network may refuse or whose reply it may lose. *)
From S2P Require Import Prelude GoTime.
Local Open Scope Z_scope.

(** ** Keys and commands *)
Inductive rval : Type :=
  | RStr (s : string)
  | RSet (m : gset string)
  | RZSet (m : gmap string Z).   (** a sorted set, whose scores are integers *)

(** A key: its value and its deadline in milliseconds, if any. *)
Record rentry : Type := Entry { re_val : rval; re_exp : option Z }.

#[export] Instance rval_eq_dec : EqDecision rval.
Proof. solve_decision. Defined.
#[export] Instance rentry_eq_dec : EqDecision rentry.
Proof. solve_decision. Defined.

Definition alive (now : Z) (e : rentry) : bool :=
  match re_exp e with None => true | Some d => now <? d end.
Definition live (now : Z) (o : option rentry) : option rentry :=
  match o with Some e => if alive now e then Some e else None | None => None end.

Inductive cmd : Type :=
  | GET (k : string)
  | SET (k v : string) (px : option Z)
  | SETNX (k v : string) (px : Z)
  | DEL (k : string)
  | EXISTS (k : string)
  | PEXPIRE (k : string) (ms : Z)
  | PTTL (k : string)
  | TTL (k : string)
  | INCR (k : string)
  | GETEX (k : string) (px : Z)
  | GETDEL (k : string)
  | SADD (k m : string)
  | SREM (k m : string)
  | SMEMBERS (k : string)
  | SISMEMBER (k m : string)
  | ZADD (k : string) (score : Z) (m : string)
  | ZREMRANGEBYSCORE (k : string) (lo hi : Z)
  | ZCARD (k : string)
  | ZFIRST (k : string).   (** ZRANGE k 0 0 WITHSCORES *)

Inductive reply : Type :=
  | RNil
  | RStatus
  | RBulk (s : string)
  | RInt (z : Z)
  | RArr (l : list string)
  | RSeq (l : list string)
  | RError (msg : string).

Definition cmd_key (c : cmd) : string :=
  match c with
  | GET k | SET k _ _ | SETNX k _ _ | DEL k | EXISTS k | PEXPIRE k _ | PTTL k | TTL k | INCR k
  | GETEX k _ | GETDEL k | SADD k _ | SREM k _ | SMEMBERS k | SISMEMBER k _
  | ZADD k _ _ | ZREMRANGEBYSCORE k _ _ | ZCARD k | ZFIRST k => k
  end.

Definition wrong_type : reply :=
  RError "WRONGTYPE Operation against a key holding the wrong kind of value".
Definition bad_expire : reply := RError "ERR invalid expire time".

(** The member with the lowest score, among several the first in the order of texts. *)
Definition before (p q : string * Z) : bool := (p.2 <? q.2) || ((p.2 =? q.2) && String.leb p.1 q.1).
Definition lowest (z : gmap string Z) : option (string * Z) :=
  foldr (λ p o, match o with Some q => if before p q then Some p else Some q | None => Some p end) None (map_to_list z).

(** The documented reply and effect of a command on the (unexpired) value of its key. *)
Definition cmd_sem (now : Z) (c : cmd) (o : option rentry) : reply * option rentry :=
  let get := match o with
    | None => RNil
    | Some (Entry (RStr s) _) => RBulk s
    | Some _ => wrong_type
    end in
  match c with
  | GET _ => (get, o)
  | SET _ v None => (RStatus, Some (Entry (RStr v) None))
  | SET _ v (Some px) =>
      if px <=? 0 then (bad_expire, o) else (RStatus, Some (Entry (RStr v) (Some (now + px))))
  | SETNX _ v px =>
      if px <=? 0 then (bad_expire, o) else
      match o with
      | Some _ => (RInt 0, o)
      | None => (RInt 1, Some (Entry (RStr v) (Some (now + px))))
      end
  | DEL _ => (RInt (if o is Some _ then 1 else 0), None)
  | EXISTS _ => (RInt (if o is Some _ then 1 else 0), o)
  | PEXPIRE _ ms =>
      match o with
      | None => (RInt 0, None)
      | Some (Entry v _) => (RInt 1, if ms <=? 0 then None else Some (Entry v (Some (now + ms))))
      end
  | PTTL _ =>
      (RInt match o with None => -2 | Some (Entry _ None) => -1 | Some (Entry _ (Some d)) => d - now end, o)
  | TTL _ =>
      (RInt match o with None => -2 | Some (Entry _ None) => -1
                    | Some (Entry _ (Some d)) => (d - now + 500) / 1000 end, o)
  | INCR _ =>
      match o with
      | None => (RInt 1, Some (Entry (RStr (dec 1)) None))
      | Some (Entry (RStr s) e) =>
          match parse_int s with
          | Some n => if n =? 2 ^ 63 - 1 then (RError "ERR increment or decrement would overflow", o)
                      else (RInt (n + 1), Some (Entry (RStr (dec (n + 1))) e))
          | None => (RError "ERR value is not an integer or out of range", o)
          end
      | Some _ => (wrong_type, o)
      end
  | GETEX _ px =>
      if px <=? 0 then (bad_expire, o) else
      (get, match o with Some (Entry (RStr s) _) => Some (Entry (RStr s) (Some (now + px))) | _ => o end)
  | GETDEL _ => (get, match o with Some (Entry (RStr _) _) => None | _ => o end)
  | SADD _ m =>
      match o with
      | None => (RInt 1, Some (Entry (RSet {[m]}) None))
      | Some (Entry (RSet s) e) => (RInt (if decide (m ∈ s) then 0 else 1), Some (Entry (RSet ({[m]} ∪ s)) e))
      | Some _ => (wrong_type, o)
      end
  | SREM _ m =>
      match o with
      | None => (RInt 0, None)
      | Some (Entry (RSet s) e) =>
          (RInt (if decide (m ∈ s) then 1 else 0),
           if decide (s ∖ {[m]} = ∅) then None else Some (Entry (RSet (s ∖ {[m]})) e))
      | Some _ => (wrong_type, o)
      end
  | SMEMBERS _ =>
      (match o with
       | None => RArr []
       | Some (Entry (RSet s) _) => RArr (elements s)
       | Some _ => wrong_type
       end, o)
  | SISMEMBER _ m =>
      (match o with
       | None => RInt 0
       | Some (Entry (RSet s) _) => RInt (if decide (m ∈ s) then 1 else 0)
       | Some _ => wrong_type
       end, o)
    | ZADD _ x m =>
      match o with
      | None => (RInt 1, Some (Entry (RZSet {[m := x]}) None))
      | Some (Entry (RZSet z) e) => (RInt (if z !! m is Some _ then 0 else 1), Some (Entry (RZSet (<[m := x]> z)) e))
      | Some _ => (wrong_type, o)
      end
  | ZREMRANGEBYSCORE _ lo hi =>
      match o with
      | None => (RInt 0, None)
      | Some (Entry (RZSet z) e) =>
          let z' := filter (λ p, ¬ (lo <= p.2 <= hi)) z in
          (RInt (Z.of_nat (size z) - Z.of_nat (size z')), if decide (z' = ∅) then None else Some (Entry (RZSet z') e))
      | Some _ => (wrong_type, o)
      end
  | ZCARD _ =>
      (match o with
       | None => RInt 0
       | Some (Entry (RZSet z) _) => RInt (Z.of_nat (size z))
       | Some _ => wrong_type
       end, o)
  | ZFIRST _ =>
      (match o with
       | None => RSeq []
       | Some (Entry (RZSet z) _) => RSeq (match lowest z with Some (m, x) => [m; dec x] | None => [] end)
       | Some _ => wrong_type
       end, o)
  end.

(** A set is listed in an unspecified order. *)
Definition reply_ok (expected actual : reply) : Prop :=
  match expected with
  | RArr l => ∃ l', actual = RArr l' ∧ l' ≡ₚ l
  | _ => actual = expected
  end.

(** ** The server and its client *)
Class RedisServer (R : Type) := {
  r_exec : Z → cmd → R → reply * R;
  (** what a client sees under a key at a time (milliseconds) *)
  r_view : R → Z → string → option rentry;
  (** milliseconds the client sends for a [time.Duration]: with SET and GETEX, and with EXPIRE *)
  r_px : Z → Z;
  r_ex : Z → Z;
  r_exec_reply now c st :
    reply_ok (cmd_sem now c (r_view st now (cmd_key c))).1 (r_exec now c st).1;
  r_exec_view now c st k :
    r_view (r_exec now c st).2 now k =
    if decide (k = cmd_key c) then (cmd_sem now c (r_view st now k)).2 else r_view st now k;
  r_view_later st now now' k :
    now <= now' → r_view st now' k = live now' (r_view st now k);
  r_px_pos d : 0 < d → 0 < r_px d;
  r_px_exact d : 0 < d → r_px d = Z.max 1 (d / millisecond);
  r_ex_pos d : 0 < d → 0 < r_ex d;
  r_ex_exact d : 0 < d → d mod second = 0 → r_ex d = d / millisecond;
}.

(** ** A server in memory: the laws can be met *)
Abbreviation MemRedis := (gmap string rentry).

Lemma live_live now o : live now (live now o) = live now o.
Proof. destruct o as [e|]; cbn; [|done]. destruct (alive now e) eqn:He; cbn; by rewrite ?He. Qed.

Lemma live_before now d v : now < d → live now (Some (Entry v (Some d))) = Some (Entry v (Some d)).
Proof. intros Hd. unfold live, alive. cbn. by rewrite (proj2 (Z.ltb_lt _ _)). Qed.
Lemma live_after now d v : d <= now → live now (Some (Entry v (Some d))) = None.
Proof. intros Hd. unfold live, alive. cbn. by rewrite (proj2 (Z.ltb_ge _ _)). Qed.

Lemma live_later now now' o : now <= now' → live now' o = live now' (live now o).
Proof.
  intros Hle. destruct o as [[v [d|]]|]; cbn; [|done..]. unfold alive; cbn.
  destruct (Z.ltb_spec now d); cbn; [done|]. destruct (Z.ltb_spec now' d); [lia|done].
Qed.

(** A command leaves an unexpired value unexpired. *)
Lemma cmd_sem_live now c o : live now o = o → live now (cmd_sem now c o).2 = (cmd_sem now c o).2.
Proof.
  intros Ho.
  assert (∀ v px, (px <=? 0) = false →
     live now (Some (Entry v (Some (now + px)))) = Some (Entry v (Some (now + px)))) as Hpx.
  { intros v px Hpx%Z.leb_gt. cbn. unfold alive; cbn. by rewrite (proj2 (Z.ltb_lt _ _)) by lia. }
  assert (∀ v v' e, live now (Some (Entry v e)) = Some (Entry v e) →
                    live now (Some (Entry v' e)) = Some (Entry v' e)) as Hsame.
  { intros v v' e. cbn. unfold alive; cbn. by destruct e as [d|]; [destruct (now <? d)|]. }
  destruct c; cbn [cmd_sem fst snd]; repeat case_match; subst; cbn [snd]; try done; eauto.
Qed.

#[export, refine] Instance mem_redis : RedisServer MemRedis := {
  r_exec now c st :=
    let '(rep, o) := cmd_sem now c (live now (st !! cmd_key c)) in
    (rep, match o with Some e => <[cmd_key c := e]> st | None => delete (cmd_key c) st end);
  r_view st now k := live now (st !! k);
  r_px d := Z.max 1 (d / millisecond);
  r_ex d := Z.max 1 (d / second) * 1000;
}.
Proof.
  - intros now c st. destruct (cmd_sem now c _) as [rep o]; cbn.
    destruct rep; cbn; eauto.
  - intros now c st k. pose proof (cmd_sem_live now c (live now (st !! cmd_key c)) (live_live _ _)) as Hl.
    case_decide as Hk; [subst k|]; destruct (cmd_sem now c _) as [rep o]; cbn in *.
    + destruct o; cbn; by rewrite ?lookup_insert_eq, ?lookup_delete_eq.
    + destruct o; cbn; by rewrite ?lookup_insert_ne, ?lookup_delete_ne.
  - intros. by apply live_later.
  - intros. lia.
  - done.
  - intros. lia.
  - intros d Hd Hm. unfold second, millisecond in *. rewrite Z.max_r; div_lia.
Defined.

(** ** Commands inside a script

    [redis.call] raises an error reply as a script error: the script stops there and
    the effects of its earlier commands stay. *)
Section script.
Context {R : Type} `{RedisServer R} (now : Z).

Definition rcall (c : cmd) : M R reply := λ st,
  let '(rep, st') := r_exec now c st in
  (match rep with RError msg => Err (Anon msg) | _ => Ok rep end, st').

Definition bad_reply {A} : M R A := fail (Anon "redis: unexpected reply type").
Definition as_bulk (rep : reply) : M R (option string) :=
  match rep with RBulk s => ret (Some s) | RNil => ret None | _ => bad_reply end.
Definition as_int (rep : reply) : M R Z :=
  match rep with RInt z => ret z | _ => bad_reply end.
Definition as_list (rep : reply) : M R (list string) :=
  match rep with RArr l => ret l | _ => bad_reply end.

Definition s_get (k : string) : M R (option string) := let! r := rcall (GET k) in as_bulk r.
Definition s_set (k v : string) (px : option Z) : M R unit := rcall (SET k v px) ;; ret tt.
Definition s_setnx (k v : string) (px : Z) : M R bool :=
  let! r := rcall (SETNX k v px) in let! n := as_int r in ret (n =? 1).
Definition s_del (k : string) : M R unit := rcall (DEL k) ;; ret tt.
Definition s_exists (k : string) : M R bool :=
  let! r := rcall (EXISTS k) in let! n := as_int r in ret (0 <? n).
Definition s_pexpire (k : string) (ms : Z) : M R unit := rcall (PEXPIRE k ms) ;; ret tt.
Definition s_pttl (k : string) : M R Z := let! r := rcall (PTTL k) in as_int r.
Definition s_ttl (k : string) : M R Z := let! r := rcall (TTL k) in as_int r.
Definition s_incr (k : string) : M R Z := let! r := rcall (INCR k) in as_int r.
Definition s_getex (k : string) (px : Z) : M R (option string) :=
  let! r := rcall (GETEX k px) in as_bulk r.
Definition s_getdel (k : string) : M R (option string) := let! r := rcall (GETDEL k) in as_bulk r.
Definition s_sadd (k m : string) : M R unit := rcall (SADD k m) ;; ret tt.
Definition s_srem (k m : string) : M R unit := rcall (SREM k m) ;; ret tt.
Definition s_smembers (k : string) : M R (list string) :=
  let! r := rcall (SMEMBERS k) in as_list r.
Definition s_sismember (k m : string) : M R bool :=
  let! r := rcall (SISMEMBER k m) in let! n := as_int r in ret (n =? 1).
Definition s_zadd (k : string) (score : Z) (m : string) : M R unit := rcall (ZADD k score m) ;; ret tt.
Definition s_zremrangebyscore (k : string) (lo hi : Z) : M R unit := rcall (ZREMRANGEBYSCORE k lo hi) ;; ret tt.
Definition s_zcard (k : string) : M R Z := let! r := rcall (ZCARD k) in as_int r.
Definition s_zfirst (k : string) : M R (list string) :=
  let! r := rcall (ZFIRST k) in match r with RSeq l => ret l | _ => bad_reply end.

Implicit Types st : R.
Let V (st : R) (k : string) : option rentry := r_view st now k.

(** [st'] shows [o] under [k] and is as [st] elsewhere. *)
Definition updates (st st' : R) (k : string) (o : option rentry) : Prop :=
  ∀ k', r_view st' now k' = if decide (k' = k) then o else r_view st now k'.
Definition same (st st' : R) : Prop := ∀ k', r_view st' now k' = r_view st now k'.

Definition err_of (rep : reply) : res reply :=
  match rep with RError msg => Err (Anon msg) | _ => Ok rep end.

Lemma wp_rcall c (Q : res reply → R → Prop) st :
  (∀ st' rep, reply_ok (cmd_sem now c (V st (cmd_key c))).1 rep →
     updates st st' (cmd_key c) (cmd_sem now c (V st (cmd_key c))).2 → Q (err_of rep) st') →
  wp (rcall c) Q st.
Proof.
  intros HQ. unfold wp, rcall.
  pose proof (r_exec_reply now c st) as Hrep. pose proof (r_exec_view now c st) as Hview.
  destruct (r_exec now c st) as [rep st']. cbn in *.
  assert (updates st st' (cmd_key c) (cmd_sem now c (V st (cmd_key c))).2) as Hupd.
  { intros k. rewrite Hview. by destruct (decide _) as [->|]. }
  specialize (HQ st' rep Hrep Hupd). by destruct rep.
Qed.

Lemma updates_same st st' k : updates st st' k (V st k) → same st st'.
Proof. intros Hu k'. rewrite Hu. by destruct (decide _) as [->|]. Qed.

Definition str_of (o : option rentry) : res (option string) :=
  match o with
  | None => Ok None
  | Some (Entry (RStr s) _) => Ok (Some s)
  | Some _ => Err (Anon "WRONGTYPE Operation against a key holding the wrong kind of value")
  end.
Definition set_of (o : option rentry) : option (gset string) :=
  match o with
  | None => Some ∅
  | Some (Entry (RSet s) _) => Some s
  | Some _ => None
  end.
Definition exp_of (o : option rentry) : option Z :=
  match o with Some e => re_exp e | None => None end.
Definition put_set (s : gset string) (e : option Z) : option rentry :=
  if decide (s = ∅) then None else Some (Entry (RSet s) e).
End script.

Arguments rcall {R _}. Arguments s_get {R _}. Arguments s_set {R _}. Arguments s_setnx {R _}.
Arguments s_del {R _}. Arguments s_exists {R _}. Arguments s_pexpire {R _}. Arguments s_pttl {R _}.
Arguments s_ttl {R _}. Arguments s_incr {R _}. Arguments s_getex {R _}. Arguments s_getdel {R _}.
Arguments s_sadd {R _}. Arguments s_srem {R _}. Arguments s_smembers {R _}. Arguments s_sismember {R _}.
Arguments s_zadd {R _}. Arguments s_zremrangebyscore {R _}. Arguments s_zcard {R _}. Arguments s_zfirst {R _}.

(** ** What each command of a script does to the view *)
Definition wrongtype_err : err :=
  Anon "WRONGTYPE Operation against a key holding the wrong kind of value".

Section script_rules.
Context {R : Type} `{RedisServer R} (now : Z).
Implicit Types (st : R) (k m : string).

Ltac script_rule :=
  lazymatch goal with
  | |- wp (bind _ _) _ _ => apply wp_bind
  end;
  apply wp_rcall; cbn [cmd_key cmd_sem fst snd];
  let st' := fresh "st'" in let rep := fresh "rep" in
  intros st' rep; cbn [reply_ok];
  let Hrep := fresh "Hrep" in let Hupd := fresh "Hupd" in intros Hrep Hupd.

Lemma wp_s_get k (Q : res (option string) → R → Prop) st :
  (∀ st', same now st st' → Q (str_of (r_view st now k)) st') → wp (s_get now k) Q st.
Proof.
  intros HQ. unfold s_get. script_rule. apply updates_same in Hupd. specialize (HQ _ Hupd).
  destruct (r_view st now k) as [[[s|s|s] e]|]; cbn in *; subst rep; exact HQ.
Qed.

Lemma wp_s_set k v px (Q : res unit → R → Prop) st : 0 < px →
  (∀ st', updates now st st' k (Some (Entry (RStr v) (Some (now + px)))) → Q (Ok tt) st') →
  wp (s_set now k v (Some px)) Q st.
Proof.
  intros Hpx HQ. unfold s_set. apply wp_bind, wp_rcall. cbn [cmd_key cmd_sem fst snd].
  rewrite (proj2 (Z.leb_gt px 0)) by lia. cbn. intros st' rep -> Hupd. by apply HQ.
Qed.

Lemma wp_s_set_forever k v (Q : res unit → R → Prop) st :
  (∀ st', updates now st st' k (Some (Entry (RStr v) None)) → Q (Ok tt) st') →
  wp (s_set now k v None) Q st.
Proof. intros HQ. unfold s_set. script_rule. subst rep. exact (HQ _ Hupd). Qed.

Lemma wp_s_set_bad k v px (Q : res unit → R → Prop) st : px <= 0 →
  (∀ e st', same now st st' → Q (Err e) st') → wp (s_set now k v (Some px)) Q st.
Proof.
  intros Hpx HQ. unfold s_set. apply wp_bind, wp_rcall. cbn [cmd_key cmd_sem fst snd].
  rewrite (proj2 (Z.leb_le px 0)) by lia. cbn. intros st' rep -> Hupd.
  apply HQ. by eapply updates_same.
Qed.

Lemma wp_s_setnx k v px (Q : res bool → R → Prop) st : 0 < px →
  (∀ st', match r_view st now k with
          | Some _ => same now st st'
          | None => updates now st st' k (Some (Entry (RStr v) (Some (now + px))))
          end → Q (Ok (match r_view st now k with Some _ => false | None => true end)) st') →
  wp (s_setnx now k v px) Q st.
Proof.
  intros Hpx HQ. unfold s_setnx. apply wp_bind, wp_rcall. cbn [cmd_key cmd_sem fst snd].
  rewrite (proj2 (Z.leb_gt px 0)) by lia.
  destruct (r_view st now k) as [e|] eqn:Hk; cbn; intros st' rep -> Hupd; apply HQ.
  - intros k'. rewrite Hupd. by destruct (decide _) as [->|].
  - done.
Qed.

Lemma wp_s_del k (Q : res unit → R → Prop) st :
  (∀ st', updates now st st' k None → Q (Ok tt) st') → wp (s_del now k) Q st.
Proof. intros HQ. unfold s_del. script_rule. subst rep. exact (HQ _ Hupd). Qed.

Lemma wp_s_exists k (Q : res bool → R → Prop) st :
  (∀ st', same now st st' → Q (Ok (match r_view st now k with Some _ => true | None => false end)) st') →
  wp (s_exists now k) Q st.
Proof.
  intros HQ. unfold s_exists. script_rule. apply updates_same in Hupd. specialize (HQ _ Hupd).
  destruct (r_view st now k); subst rep; exact HQ.
Qed.

Lemma wp_s_pexpire k ms (Q : res unit → R → Prop) st : 0 < ms →
  (∀ st', updates now st st' k ((λ e, Entry (re_val e) (Some (now + ms))) <$> r_view st now k) →
          Q (Ok tt) st') → wp (s_pexpire now k ms) Q st.
Proof.
  intros Hms HQ. unfold s_pexpire. script_rule.
  destruct (r_view st now k) as [[v e]|] eqn:Hk; cbn in *; subst rep; apply HQ; [|done].
  by rewrite (proj2 (Z.leb_gt ms 0)) in Hupd by lia.
Qed.

Lemma wp_s_sadd k m s (Q : res unit → R → Prop) st :
  set_of (r_view st now k) = Some s →
  (∀ st', updates now st st' k (Some (Entry (RSet ({[m]} ∪ s)) (exp_of (r_view st now k)))) →
          Q (Ok tt) st') → wp (s_sadd now k m) Q st.
Proof.
  intros Hs HQ. unfold s_sadd. script_rule.
  destruct (r_view st now k) as [[[v|v|v] e]|] eqn:Hk; cbn in *; simplify_eq; apply HQ; [done|].
  intros k'. rewrite Hupd. destruct (decide (k' = k)); [|done]. do 3 f_equal. set_solver.
Qed.

Lemma wp_s_srem k m s (Q : res unit → R → Prop) st :
  set_of (r_view st now k) = Some s →
  (∀ st', updates now st st' k (put_set (s ∖ {[m]}) (exp_of (r_view st now k))) → Q (Ok tt) st') →
  wp (s_srem now k m) Q st.
Proof.
  intros Hs HQ. unfold s_srem. script_rule. unfold put_set in *.
  destruct (r_view st now k) as [[[v|v|v] e]|] eqn:Hk; cbn in *; simplify_eq; apply HQ; [done|].
  intros k'. rewrite Hupd. destruct (decide (k' = k)); [|done]. by rewrite decide_True by set_solver.
Qed.

Lemma wp_s_smembers k s (Q : res (list string) → R → Prop) st :
  set_of (r_view st now k) = Some s →
  (∀ st' l, same now st st' → l ≡ₚ elements s → Q (Ok l) st') → wp (s_smembers now k) Q st.
Proof.
  intros Hs HQ. unfold s_smembers. script_rule. apply updates_same in Hupd.
  destruct (r_view st now k) as [[[v|v|v] e]|] eqn:Hk; cbn in *; simplify_eq;
    destruct Hrep as (l&->&Hl); by apply HQ.
Qed.

Lemma wp_s_smembers_bad k (Q : res (list string) → R → Prop) st :
  set_of (r_view st now k) = None →
  (∀ e st', same now st st' → Q (Err e) st') → wp (s_smembers now k) Q st.
Proof.
  intros Hs HQ. unfold s_smembers. script_rule. apply updates_same in Hupd.
  destruct (r_view st now k) as [[[v|v|v] e]|] eqn:Hk; cbn in *; simplify_eq; by apply HQ.
Qed.

Lemma wp_s_sadd_bad k m (Q : res unit → R → Prop) st :
  set_of (r_view st now k) = None → (∀ e st', Q (Err e) st') → wp (s_sadd now k m) Q st.
Proof.
  intros Hs HQ. unfold s_sadd. script_rule.
  destruct (r_view st now k) as [[[v|v|v] e]|] eqn:Hk; cbn in *; simplify_eq; apply HQ.
Qed.

Lemma wp_s_srem_bad k m (Q : res unit → R → Prop) st :
  set_of (r_view st now k) = None →
  (∀ e st', same now st st' → Q (Err e) st') → wp (s_srem now k m) Q st.
Proof.
  intros Hs HQ. unfold s_srem. script_rule.
  destruct (r_view st now k) as [[[v|v|v] e]|] eqn:Hk; cbn in *; simplify_eq; apply HQ;
    intros k'; rewrite Hupd; by destruct (decide _) as [->|].
Qed.

(** PEXPIRE with any lifetime touches its key only. *)
Lemma wp_s_pexpire_any k ms (Q : res unit → R → Prop) st :
  (∀ o st', updates now st st' k o → Q (Ok tt) st') → wp (s_pexpire now k ms) Q st.
Proof.
  intros HQ. unfold s_pexpire. script_rule.
  destruct (r_view st now k) as [[v e]|] eqn:Hk; cbn in *; subst rep; by eapply HQ.
Qed.

(** [SISMEMBER] *)
Lemma wp_s_sismember k m s (Q : res bool → R → Prop) st :
  set_of (r_view st now k) = Some s →
  (∀ st', same now st st' → Q (Ok (bool_decide (m ∈ s))) st') → wp (s_sismember now k m) Q st.
Proof.
  intros Hs HQ. unfold s_sismember. script_rule. apply updates_same in Hupd. specialize (HQ _ Hupd).
  destruct (r_view st now k) as [[[v|v|v] e]|] eqn:Hk; cbn in *; simplify_eq.
  - destruct (decide (m ∈ s)); [by rewrite bool_decide_true in HQ|by rewrite bool_decide_false in HQ].
  - by rewrite bool_decide_false in HQ by set_solver.
Qed.

(** [INCR] of an absent key, and of a counter. *)
Lemma wp_s_incr k n e (Q : res Z → R → Prop) st :
  match r_view st now k with
  | None => n = 0 ∧ e = None
  | Some (Entry (RStr s) e') => parse_int s = Some n ∧ e = e' ∧ n < 2 ^ 63 - 1
  | _ => False
  end →
  (∀ st', updates now st st' k (Some (Entry (RStr (dec (n + 1))) e)) → Q (Ok (n + 1)) st') →
  wp (s_incr now k) Q st.
Proof.
  intros Hs HQ. unfold s_incr. script_rule.
  destruct (r_view st now k) as [[[v|v|v] e']|] eqn:Hk; cbn in *; [|done|done|].
  - destruct Hs as (Hp&->&Hlt). rewrite Hp in *. rewrite (proj2 (Z.eqb_neq _ _)) in Hrep, Hupd by lia. cbn in Hrep, Hupd.
    subst rep. exact (HQ _ Hupd).
  - destruct Hs as [-> ->]. subst rep. exact (HQ _ Hupd).
Qed.

Lemma wp_s_pttl k (Q : res Z → R → Prop) st :
  (∀ st', same now st st' →
     Q (Ok match r_view st now k with None => -2 | Some (Entry _ None) => -1
                                    | Some (Entry _ (Some d)) => d - now end) st') →
  wp (s_pttl now k) Q st.
Proof.
  intros HQ. unfold s_pttl. script_rule. apply updates_same in Hupd. subst rep. exact (HQ _ Hupd).
Qed.

Lemma wp_s_ttl k (Q : res Z → R → Prop) st :
  (∀ st', same now st st' →
     Q (Ok match r_view st now k with None => -2 | Some (Entry _ None) => -1
                                    | Some (Entry _ (Some d)) => (d - now + 500) / 1000 end) st') →
  wp (s_ttl now k) Q st.
Proof.
  intros HQ. unfold s_ttl. script_rule. apply updates_same in Hupd. subst rep. exact (HQ _ Hupd).
Qed.

Lemma wp_s_getdel k (Q : res (option string) → R → Prop) st :
  (∀ st', match str_of (r_view st now k) with
          | Ok _ => updates now st st' k None | Err _ => same now st st' end →
          Q (str_of (r_view st now k)) st') → wp (s_getdel now k) Q st.
Proof.
  intros HQ. unfold s_getdel. script_rule.
  destruct (r_view st now k) as [[[s|s|s] e]|] eqn:Hk; cbn in *; subst rep; apply HQ; [done|..|done];
    intros k'; rewrite Hupd; by destruct (decide _) as [->|].
Qed.

Lemma wp_s_getex k px (Q : res (option string) → R → Prop) st : 0 < px →
  (∀ st', match r_view st now k with
          | Some (Entry (RStr s) _) => updates now st st' k (Some (Entry (RStr s) (Some (now + px))))
          | _ => same now st st' end →
          Q (str_of (r_view st now k)) st') → wp (s_getex now k px) Q st.
Proof.
  intros Hpx HQ. unfold s_getex. apply wp_bind, wp_rcall. cbn [cmd_key cmd_sem fst snd].
  rewrite (proj2 (Z.leb_gt px 0)) by lia. intros st' rep. cbn [fst snd].
  destruct (r_view st now k) as [[[s|s|s] e]|] eqn:Hk; cbn; intros -> Hupd; apply HQ; [done|..];
    intros k'; rewrite Hupd; by destruct (decide _) as [->|].
Qed.

(** Sorted sets. *)
Definition zset_of (o : option rentry) : option (gmap string Z) :=
  match o with
  | None => Some ∅
  | Some (Entry (RZSet z) _) => Some z
  | Some _ => None
  end.
Definition put_zset (z : gmap string Z) (e : option Z) : option rentry :=
  if decide (z = ∅) then None else Some (Entry (RZSet z) e).
Lemma wp_s_zadd k x m z (Q : res unit → R → Prop) st : zset_of (r_view st now k) = Some z →
  (∀ st', updates now st st' k (Some (Entry (RZSet (<[m := x]> z)) (exp_of (r_view st now k)))) → Q (Ok tt) st') →
  wp (s_zadd now k x m) Q st.
Proof.
  intros Hz HQ. unfold s_zadd. script_rule.
  destruct (r_view st now k) as [[[v|v|v] e]|] eqn:Hk; cbn in *; simplify_eq; by apply HQ.
Qed.
Lemma wp_s_zremrangebyscore k lo hi z (Q : res unit → R → Prop) st : zset_of (r_view st now k) = Some z →
  (∀ st', updates now st st' k (put_zset (filter (λ p, ¬ (lo <= p.2 <= hi)) z) (exp_of (r_view st now k))) → Q (Ok tt) st') →
  wp (s_zremrangebyscore now k lo hi) Q st.
Proof.
  intros Hz HQ. unfold s_zremrangebyscore. script_rule.
  destruct (r_view st now k) as [[[v|v|v] e]|] eqn:Hk; cbn in *; simplify_eq; apply HQ; [done|].
  intros k'. rewrite Hupd. destruct (decide (k' = k)); [|done]. by rewrite map_filter_empty.
Qed.
Lemma wp_s_zcard k z (Q : res Z → R → Prop) st : zset_of (r_view st now k) = Some z →
  (∀ st', same now st st' → Q (Ok (Z.of_nat (size z))) st') → wp (s_zcard now k) Q st.
Proof.
  intros Hz HQ. unfold s_zcard. script_rule. apply updates_same in Hupd. specialize (HQ _ Hupd).
  destruct (r_view st now k) as [[[v|v|v] e]|] eqn:Hk; cbn in *; simplify_eq; [done|]. by rewrite map_size_empty in HQ.
Qed.
Lemma wp_s_zfirst k z (Q : res (list string) → R → Prop) st : zset_of (r_view st now k) = Some z →
  (∀ st', same now st st' → Q (Ok (match lowest z with Some (m, x) => [m; dec x] | None => [] end)) st') → wp (s_zfirst now k) Q st.
Proof.
  intros Hz HQ. unfold s_zfirst. script_rule. apply updates_same in Hupd. specialize (HQ _ Hupd).
  destruct (r_view st now k) as [[[v|v|v] e]|] eqn:Hk; cbn in *; simplify_eq; done.
Qed.
End script_rules.

(** ** Automation

    [s_step] applies the rule of the command at the head of a script; [views] reads a
    key of the current state through the recorded updates; [decide_keys] settles
    comparisons of keys with different prefixes. *)
Ltac s_step :=
  lazymatch goal with
  | |- wp (s_get _ _) _ _ => apply wp_s_get; intros
  | |- wp (s_set _ _ _ (Some _)) _ _ => apply wp_s_set; [try lia|intros]
  | |- wp (s_set _ _ _ None) _ _ => apply wp_s_set_forever; intros
  | |- wp (s_setnx _ _ _ _) _ _ => apply wp_s_setnx; [try lia|intros]
  | |- wp (s_del _ _) _ _ => apply wp_s_del; intros
  | |- wp (s_exists _ _) _ _ => apply wp_s_exists; intros
  | |- wp (s_pexpire _ _ _) _ _ => apply wp_s_pexpire; [try lia|intros]
  | |- wp (s_sadd _ _ _) _ _ => eapply wp_s_sadd; [|intros]
  | |- wp (s_srem _ _ _) _ _ => eapply wp_s_srem; [|intros]
  | |- wp (s_smembers _ _) _ _ => eapply wp_s_smembers; [|intros]
  | |- wp (s_pttl _ _) _ _ => apply wp_s_pttl; intros
  | |- wp (s_ttl _ _) _ _ => apply wp_s_ttl; intros
  | |- wp (s_getdel _ _) _ _ => apply wp_s_getdel; intros
  | |- wp (s_getex _ _ _) _ _ => apply wp_s_getex; [try lia|intros]
  | |- wp (s_zadd _ _ _ _) _ _ => eapply wp_s_zadd; [|intros]
  | |- wp (s_zremrangebyscore _ _ _ _) _ _ => eapply wp_s_zremrangebyscore; [|intros]
  | |- wp (s_zcard _ _) _ _ => eapply wp_s_zcard; [|intros]
  | |- wp (s_zfirst _ _) _ _ => eapply wp_s_zfirst; [|intros]
  | |- _ => wp_step
  end; cbn beta iota.

Lemma append_inj (p a b : string) : p +:+ a = p +:+ b → a = b.
Proof. induction p as [|c p IH]; cbn; [done|]. intros [= ?]. auto. Qed.

Ltac decide_keys :=
  repeat match goal with
    | |- context [decide (?a = ?b)] =>
        first [ constr_eq a b; rewrite (decide_True (P:=a = b)) by reflexivity
              | rewrite (decide_False (P:=a = b)) by
                  (first [assumption | apply not_eq_sym; assumption | intros ?; discriminate]) ]
    end.

Ltac views :=
  repeat match goal with
    | H : same ?n ?st ?st' |- context [r_view ?st' ?n ?k] => rewrite (H k)
    | H : updates ?n ?st ?st' ?k0 ?o |- context [r_view ?st' ?n ?k] => rewrite (H k); decide_keys
    end.
