(* ===== verification/World.v ===== *)
(** * The process around a request: clock, network, entropy, audit trail

    A [World] is what a handler reads and writes besides its own memory. The clock
    stands still while one operation runs; [tick] lets time pass between operations.
    [w_net] is the fate of the coming round trips to Redis (no entry: delivered), the
    two entropy streams are what [crypto/rand] and [uuid] will return. *)
From S2P Require Import Prelude GoTime Redis.
Local Open Scope Z_scope.

Inductive fate : Type :=
  | Delivered
  | Refused      (** not executed, the client sees an error *)
  | ReplyLost.   (** executed, the client sees an error *)

(** One record of the audit trail. *)
Record audit : Type := Audit {
  au_action : string;
  au_account : option string;
  au_details : list (string * string);
}.

(** Request metadata carried by [context.Context] (AuditMetadataMiddleware). *)
Record Ctx : Type := mkCtx { ctx_ip : string; ctx_ua : string }.

Record World (R : Type) : Type := mkWorld {
  w_redis : R;
  w_now : Z;
  w_net : list fate;
  w_rand : list (list N);
  w_uuid : list string;
  w_audit : list audit;
}.
Arguments mkWorld {R}. Arguments w_redis {R}. Arguments w_now {R}. Arguments w_net {R}.
Arguments w_rand {R}. Arguments w_uuid {R}. Arguments w_audit {R}.

Section world.
Context {R : Type} `{RedisServer R}.
Implicit Types w : World R.

Definition now_ms w : Z := w_now w / millisecond.
Definition put_redis (st : R) w : World R :=
  mkWorld st (w_now w) (w_net w) (w_rand w) (w_uuid w) (w_audit w).
Definition put_net (net : list fate) w : World R :=
  mkWorld (w_redis w) (w_now w) net (w_rand w) (w_uuid w) (w_audit w).
Definition tick (d : Z) w : World R :=
  mkWorld (w_redis w) (w_now w + d) (w_net w) (w_rand w) (w_uuid w) (w_audit w).
(** What a client sees under a key now. *)
Definition view w (k : string) : option rentry := r_view (w_redis w) (now_ms w) k.

Definition now : M (World R) Z := gets w_now.

(** [rand.Read(buf)] with [len(buf) = n]: the next [n] random bytes; an exhausted
    source fails. *)
Definition rand_block (n : nat) (b : list N) : list N := map (λ x, x mod 256)%N (resize n 0%N b).
Definition rand_read (n : nat) : M (World R) (list N) := λ w,
  match w_rand w with
  | [] => (Err (Anon "crypto/rand: read failed"), w)
  | b :: l => (Ok (rand_block n b), mkWorld (w_redis w) (w_now w) (w_net w) l (w_uuid w) (w_audit w))
  end.
(** [rand.Int(rand.Reader, max)]: a number below [max]. *)
Definition rand_int (max : Z) : M (World R) Z := λ w,
  match w_rand w with
  | [] => (Err (Anon "crypto/rand: read failed"), w)
  | b :: l => (Ok (foldl (λ a x, a * 256 + Z.of_N x) 0 b mod max),
               mkWorld (w_redis w) (w_now w) (w_net w) l (w_uuid w) (w_audit w))
  end.
(** [uuid.New().String()], which panics when the random source fails. An exhausted list stands
    for that: the error ends the operation like any other, where the server's recovery
    middleware would answer 500. *)
Definition uuid_new : M (World R) string := λ w,
  match w_uuid w with
  | [] => (Err (Anon "panic: uuid"), w)
  | u :: l => (Ok u, mkWorld (w_redis w) (w_now w) (w_net w) (w_rand w) l (w_audit w))
  end.
(** [auditService.AuditLog]: best effort, it never fails the caller. *)
Definition audit_log (a : audit) : M (World R) unit := λ w,
  (Ok tt, mkWorld (w_redis w) (w_now w) (w_net w) (w_rand w) (w_uuid w) (w_audit w ++ [a])).

Definition ErrNetwork : err := Anon "dial tcp: i/o timeout".

(** One round trip: [f now] runs atomically on the server. *)
Definition redis_call {A} (f : Z → M R A) : M (World R) A := λ w,
  let '(x, net) := match w_net w with [] => (Delivered, []) | x :: l => (x, l) end in
  match x with
  | Delivered => let '(r, st') := f (now_ms w) (w_redis w) in (r, put_net net (put_redis st' w))
  | Refused => (Err ErrNetwork, put_net net w)
  | ReplyLost => let '(_, st') := f (now_ms w) (w_redis w) in
                 (Err ErrNetwork, put_net net (put_redis st' w))
  end.

(** With a healthy network the call is the script. *)
Lemma wp_redis_call_up {A} (f : Z → M R A) (Q : res A → World R → Prop) w :
  w_net w = [] →
  wp (f (now_ms w)) (λ r st', Q r (put_redis st' w)) (w_redis w) →
  wp (redis_call f) Q w.
Proof.
  unfold wp, redis_call. intros Hn. rewrite Hn.
  destruct (f _ _) as [r st']. cbn. destruct w; cbn in *; by subst.
Qed.

(** Whatever the network does, the script ran or it did not. *)
Lemma wp_redis_call {A} (f : Z → M R A) (Q : res A → World R → Prop) w :
  (∀ net, wp (f (now_ms w))
     (λ r st', Q r (put_net net (put_redis st' w)) ∧ Q (Err ErrNetwork) (put_net net (put_redis st' w)))
     (w_redis w)) →
  (∀ net, Q (Err ErrNetwork) (put_net net w)) →
  wp (redis_call f) Q w.
Proof.
  unfold wp, redis_call. intros Hf HQ.
  destruct (match w_net w with [] => _ | _ => _ end) as [[] net];
    specialize (Hf net); destruct (f _ _) as [r st']; cbn in *; naive_solver.
Qed.

(** Only a network with something planned loses the reply. *)
Lemma wp_redis_call_fates {A} (f : Z → M R A) (Q : res A → World R → Prop) w :
  (∀ net, wp (f (now_ms w))
     (λ r st', Q r (put_net net (put_redis st' w))
               ∧ (w_net w ≠ [] → Q (Err ErrNetwork) (put_net net (put_redis st' w)))) (w_redis w)) →
  (∀ net, w_net w ≠ [] → Q (Err ErrNetwork) (put_net net w)) →
  wp (redis_call f) Q w.
Proof.
  unfold wp, redis_call. intros Hf HQ. destruct (w_net w) as [|[] net].
  - specialize (Hf []). destruct (f _ _) as [r st']; cbn in *; naive_solver.
  - specialize (Hf net). destruct (f _ _) as [r st']; cbn in *; naive_solver.
  - cbn. naive_solver.
  - specialize (Hf net). destruct (f _ _) as [r st']; cbn in *; naive_solver.
Qed.

(** A call takes one entry of the network's plan. *)
Lemma redis_call_net {A} (f : Z → M R A) w : w_net (redis_call f w).2 = tail (w_net w).
Proof.
  unfold redis_call. destruct (w_net w) as [|[] net]; cbn; try done; by destruct (f _ _).
Qed.

(** Nothing a later operation could notice has changed, the network's future apart. *)
Definition quiet w w' : Prop :=
  w_now w' = w_now w ∧ w_rand w' = w_rand w ∧ w_uuid w' = w_uuid w ∧ w_audit w' = w_audit w
  ∧ (∀ k, view w' k = view w k).

Lemma quiet_net net w : quiet w (put_net net w).
Proof. by repeat split. Qed.
Lemma quiet_redis net st w : same (now_ms w) (w_redis w) st → quiet w (put_net net (put_redis st w)).
Proof. by repeat split. Qed.

Lemma quiet_trans w1 w2 w3 : quiet w1 w2 → quiet w2 w3 → quiet w1 w3.
Proof.
  intros (?&?&?&?&Hk1) (?&?&?&?&Hk2). split_and!; [congruence..|]. intros k. by rewrite Hk2, Hk1.
Qed.
Lemma quiet_refl w : quiet w w.
Proof. by repeat split. Qed.

Lemma wp_rand_read n (Q : res (list N) → World R → Prop) w :
  (w_rand w = [] → Q (Err (Anon "crypto/rand: read failed")) w) →
  (∀ b l, w_rand w = b :: l →
     Q (Ok (rand_block n b)) (mkWorld (w_redis w) (w_now w) (w_net w) l (w_uuid w) (w_audit w))) →
  wp (rand_read n) Q w.
Proof. unfold wp, rand_read. destruct (w_rand w); cbn; eauto. Qed.

Lemma rand_block_bytes n b : Forall (λ x, x < 256)%N (rand_block n b).
Proof.
  unfold rand_block. apply Forall_forall. intros x (y&->&_)%list_elem_of_fmap. by apply N.mod_lt.
Qed.
Lemma rand_block_length n b : length (rand_block n b) = n.
Proof. unfold rand_block. by rewrite length_map, length_resize. Qed.

Lemma wp_audit_log a (Q : res unit → World R → Prop) w :
  Q (Ok tt) (mkWorld (w_redis w) (w_now w) (w_net w) (w_rand w) (w_uuid w) (w_audit w ++ [a])) →
  wp (audit_log a) Q w.
Proof. done. Qed.
End world.
#[global] Arguments rand_block : simpl never.
