(* ===== verification/Cache.v ===== *)
(** * [internal/cache/redis_client.go]: the Redis client wrapper

    Each method is one round trip; its Lua scripts are the definitions [*_script]. *)
From S2P Require Import Prelude GoTime Redis World.
Local Open Scope Z_scope.

Definition ErrKeyNotFound : err := Sentinel "redis: key not found".

Section cache.
Context {R : Type} `{RedisServer R}.

(** An expiration of zero (or less) asks go-redis for no deadline. *)
Definition Set_ (key value : string) (expiration : Z) : M (World R) unit :=
  wrap "set" (redis_call (λ now, s_set now key value
    (if 0 <? expiration then Some (r_px expiration) else None))).

Definition not_found_or (ctx : string) (m : M (World R) (option string)) : M (World R) string :=
  let! o := wrap ctx m in
  match o with Some v => ret v | None => fail ErrKeyNotFound end.

Definition Get (key : string) : M (World R) string :=
  not_found_or "get" (redis_call (λ now, s_get now key)).

Definition Del (keys : list string) : M (World R) unit :=
  wrap "delete keys" (redis_call (λ now, for_each keys (s_del now))).

Definition Exists (key : string) : M (World R) bool :=
  wrap "exists" (redis_call (λ now, s_exists now key)).

Definition Expire (key : string) (expiration : Z) : M (World R) unit :=
  wrap "expire" (redis_call (λ now, s_pexpire now key (r_ex expiration))).

Definition Incr (key : string) : M (World R) Z :=
  wrap "incr" (redis_call (λ now, s_incr now key)).

Definition SetNX (key value : string) (expiration : Z) : M (World R) bool :=
  wrap "setnx" (redis_call (λ now, s_setnx now key value (r_px expiration))).

Definition SMembers (key : string) : M (World R) (list string) :=
  wrap "smembers" (redis_call (λ now, s_smembers now key)).

Definition SIsMember (key member : string) : M (World R) bool :=
  wrap "sismember" (redis_call (λ now, s_sismember now key member)).

Definition SRem (key member : string) : M (World R) unit :=
  wrap "srem" (redis_call (λ now, s_srem now key member)).

(** ** Scripts: EX and EXPIRE take seconds *)
Definition saddWithTTLLuaScript (key member : string) (secs : Z) (now : Z) : M R unit :=
  s_sadd now key member ;; s_pexpire now key (secs * 1000).

Definition incrWithExpiryLuaScript (key : string) (secs : Z) (now : Z) : M R Z :=
  let! current := s_incr now key in
  (if current =? 1 then s_pexpire now key (secs * 1000) else ret tt) ;;
  ret current.

(** [tonumber] on a counter; comparing [nil] with a number is a script error. *)
Definition tonumber (o : option string) : M R Z :=
  match o with
  | None => ret 0
  | Some s => match parse_int s with
              | Some n => ret n
              | None => fail (Anon "ERR user_script: attempt to compare nil with number")
              end
  end.

Definition checkAndIncrLuaScript (key : string) (limit secs : Z) (now : Z) : M R Z :=
  let! cur := s_get now key in
  let! current := tonumber cur in
  if limit <=? current then ret current else
  let! new := s_incr now key in
  (if new =? 1 then s_pexpire now key (secs * 1000) else ret tt) ;;
  ret new.

Definition setIfExistsLuaScript (key value : string) (secs : Z) (now : Z) : M R bool :=
  let! e := s_exists now key in
  if e : bool then s_set now key value (Some (secs * 1000)) ;; ret true else ret false.

Definition SAddWithTTL (key member : string) (ttl : Z) : M (World R) unit :=
  if ttl <=? 0 then fail (Anon "sadd_with_ttl: TTL must be positive") else
  let secs := Z.max 1 (ceil_secs ttl) in
  wrap "sadd_with_ttl" (redis_call (saddWithTTLLuaScript key member secs)).

Definition IncrWithExpiry (key : string) (expiry : Z) : M (World R) Z :=
  if expiry <=? 0 then fail (Anon "incrWithExpiry: expiry must be positive") else
  wrap "incrWithExpiry" (redis_call (incrWithExpiryLuaScript key (ceil_secs expiry))).

Definition CheckAndIncr (key : string) (limit expiry : Z) : M (World R) Z :=
  if expiry <=? 0 then fail (Anon "checkAndIncr: expiry must be positive") else
  wrap "checkAndIncr" (redis_call (checkAndIncrLuaScript key limit (ceil_secs expiry))).

Definition SetIfExists (key value : string) (expiry : Z) : M (World R) bool :=
  let expirySec := if ceil_secs expiry <=? 0 then 1 else ceil_secs expiry in
  wrap "setIfExists" (redis_call (setIfExistsLuaScript key value expirySec)).

Definition GetEx (key : string) (expiration : Z) : M (World R) string :=
  not_found_or "getex" (redis_call (λ now, s_getex now key (r_px expiration))).

Definition GetDel (key : string) : M (World R) string :=
  not_found_or "getDel" (redis_call (λ now, s_getdel now key)).
End cache.

(** [strings.LastIndex(key, ":")]: the text up to and with the last colon. *)
Fixpoint upto_last_colon (s : string) : option string :=
  match s with
  | EmptyString => None
  | String c s' =>
      match upto_last_colon s' with
      | Some p => Some (String c p)
      | None => if bool_decide (c = ":"%char) then Some (String c EmptyString) else None
      end
  end.
Definition maskRedisKeySuffix (key : string) : string :=
  match upto_last_colon key with Some p => p +:+ "***" | None => "***" end.
Definition maskRedisKeySuffixes (keys : list string) : list string := map maskRedisKeySuffix keys.

(** ** A write, whatever the network does *)
Section rules.
Context {R : Type} `{RedisServer R}.
Lemma wp_Set_any key v px (Q : res unit → World R → Prop) w : 0 < px →
  (∀ r w', w_now w' = w_now w → (w_net w = [] → w_net w' = []) →
     (r = Ok tt → ∀ k, view w' k = if decide (k = key) then Some (Entry (RStr v) (Some (now_ms w + r_px px))) else view w k) →
     Q r w') → wp (Set_ key v px) Q w.
Proof.
  intros Hpx HQ. unfold Set_. rewrite (proj2 (Z.ltb_lt _ _)) by done. apply wp_wrap.
  set (f := λ now, s_set now key v (Some (r_px px))). pose proof (redis_call_net f w) as Hnet.
  assert (wp (redis_call f) (λ r w', w_now w' = w_now w ∧
    (r = Ok tt → ∀ k, view w' k = if decide (k = key) then Some (Entry (RStr v) (Some (now_ms w + r_px px))) else view w k)) w) as Hwp.
  { apply wp_redis_call; [|done]. intros net. unfold f. pose proof (r_px_pos px Hpx).
    apply wp_s_set; [done|]. intros st' Hst. split; [|done]. split; [done|]. intros _ k. apply Hst. }
  unfold wp in *. destruct (redis_call f w) as [r w']. cbn in *. destruct Hwp as [Hn Hv].
  apply HQ; [done|by rewrite Hnet; intros ->|]. destruct r as [[]|]; [|done]. intros _. by apply Hv.
Qed.
End rules.
