(* ===== verification/Footprint.v ===== *)
(** * Which keys an operation may change

    [touches P m]: whatever the state, the arguments and the network, [m] leaves every key
    outside [P] and the clock alone, and spoils no healthy network. The services own families of keys told apart by
    their prefix ([under]); an operation of one cannot change what another stored. *)
From S2P Require Import Prelude GoTime Redis World Cache.
Local Open Scope Z_scope.

(** Keys with one of these prefixes. *)
Definition under (prefixes : list string) (k : string) : Prop := ∃ p x, p ∈ prefixes ∧ k = p +:+ x.
(** Neither text is the beginning of the other. *)
Fixpoint apart (p q : string) : bool :=
  match p, q with
  | String a p', String b q' => negb (bool_decide (a = b)) || apart p' q'
  | _, _ => false
  end.
Lemma apart_ne p q x y : apart p q = true → p +:+ x ≠ q +:+ y.
Proof.
  revert q. induction p as [|a p IH]; intros [|b q]; cbn; try done.
  intros [Hne%negb_true_iff%bool_decide_eq_false|Hp]%orb_true_iff [= Hab Hpq]; [done|by apply (IH q)].
Qed.
Lemma under_apart ps qs k : forallb (λ p, forallb (apart p) qs) ps = true → under ps k → ¬ under qs k.
Proof.
  rewrite forallb_forall. intros Hall (p&x&Hp&->) (q&y&Hq&Heq). specialize (Hall p).
  rewrite forallb_forall in Hall. apply list_elem_of_In in Hp, Hq. by apply (apart_ne p q x y (Hall Hp q Hq)).
Qed.
Lemma under_intro ps p x : bool_decide (p ∈ ps) = true → under ps (p +:+ x).
Proof. intros Hp%bool_decide_eq_true. by exists p, x. Qed.

(** ** Scripts *)
Section scripts.
Context {R : Type} `{RedisServer R} (P : string → Prop).

Definition s_touches {A} (now : Z) (m : M R A) : Prop := ∀ st k, ¬ P k → r_view (m st).2 now k = r_view st now k.

Lemma s_touches_ret {A} now (x : A) : s_touches now (ret x).
Proof. done. Qed.
Lemma s_touches_fail {A} now e : s_touches now (fail (A := A) e).
Proof. done. Qed.
Lemma s_touches_bind {A B} now (m : M R A) (k : A → M R B) :
  s_touches now m → (∀ x, s_touches now (k x)) → s_touches now (bind m k).
Proof.
  intros Hm Hk st key HP. unfold bind. specialize (Hm st key HP). destruct (m st) as [[x|e] st1]; cbn in *; [|done].
  by rewrite (Hk x st1 key HP).
Qed.
Lemma s_touches_rcall now c : P (cmd_key c) → s_touches now (rcall now c).
Proof.
  intros Hc st k HP. unfold rcall. pose proof (r_exec_view now c st k) as Hv. destruct (r_exec now c st) as [rep st'].
  cbn in *. rewrite decide_False in Hv; [done|]. by intros ->.
Qed.
Lemma s_touches_read now c : (∀ o, (cmd_sem now c o).2 = o) → s_touches now (rcall now c).
Proof.
  intros Hc st k HP. unfold rcall. pose proof (r_exec_view now c st k) as Hv. destruct (r_exec now c st) as [rep st'].
  cbn in *. destruct (decide _); [|done]. by rewrite Hc in Hv.
Qed.
Lemma s_touches_each {A} now (l : list A) (f : A → M R unit) :
  (∀ x, s_touches now (f x)) → s_touches now (for_each l f).
Proof. intros Hf. induction l; [by apply s_touches_ret|]. by apply s_touches_bind. Qed.
End scripts.

(** ** Operations *)
Section operations.
Context {R : Type} `{RedisServer R} (P : string → Prop).
Implicit Types w : World R.

Definition touches {A} (m : M (World R) A) : Prop :=
  ∀ w, w_now (m w).2 = w_now w ∧ (w_net w = [] → w_net (m w).2 = []) ∧ ∀ k, ¬ P k → view (m w).2 k = view w k.

Lemma touches_ret {A} (x : A) : touches (ret x). Proof. done. Qed.
Lemma touches_fail {A} e : touches (fail (A := A) e). Proof. done. Qed.
Lemma touches_lift {A} (r : res A) : touches (lift_res r). Proof. done. Qed.
Lemma touches_gets {A} (f : World R → A) : touches (gets f). Proof. done. Qed.
Lemma touches_guard b e : touches (guard_err b e). Proof. by destruct b. Qed.
Lemma touches_bind {A B} (m : M (World R) A) (k : A → M (World R) B) :
  touches m → (∀ x, touches (k x)) → touches (bind m k).
Proof.
  intros Hm Hk w. unfold bind. specialize (Hm w). destruct (m w) as [[x|e] w1]; cbn in *; [|done].
  destruct (Hk x w1) as (Hn&Hu&Hv), Hm as (Hn1&Hu1&Hv1). split_and!; [congruence|auto|].
  intros key HP. rewrite Hv by done. by apply Hv1.
Qed.
Lemma touches_try {A} (m : M (World R) A) : touches m → touches (try m).
Proof. intros Hm w. unfold try. specialize (Hm w). by destruct (m w). Qed.
Lemma touches_wrap {A} c (m : M (World R) A) : touches m → touches (wrap c m).
Proof. intros Hm w. unfold wrap. specialize (Hm w). by destruct (m w). Qed.
Lemma touches_ignore {A} (m : M (World R) A) : touches m → touches (ignore m).
Proof. intros Hm w. exact (Hm w). Qed.
Lemma touches_rand n : touches (rand_read n).
Proof. intros w. unfold rand_read. by destruct (w_rand w). Qed.
Lemma touches_rand_int n : touches (rand_int n).
Proof. intros w. unfold rand_int. by destruct (w_rand w). Qed.
Lemma touches_uuid : touches uuid_new.
Proof. intros w. unfold uuid_new. by destruct (w_uuid w). Qed.
Lemma touches_audit a : touches (audit_log a).
Proof. done. Qed.
Lemma touches_call {A} (f : Z → M R A) : (∀ now, s_touches P now (f now)) → touches (redis_call f).
Proof.
  intros Hf w. pose proof (Hf (now_ms w) (w_redis w)) as Hs. pose proof (redis_call_net f w) as Hnet.
  enough (w_now (redis_call f w).2 = w_now w ∧ ∀ k, ¬ P k → view (redis_call f w).2 k = view w k) as [? ?]
    by (split_and!; [done| |done]; intros Hn; by rewrite Hnet, Hn).
  clear Hnet. unfold redis_call.
  destruct (match w_net w with [] => _ | _ => _ end) as [[] net]; [|done|]; destruct (f _ _) as [r st']; by split.
Qed.

Lemma touches_run {A} (m : M (World R) A) w k : touches m → ¬ P k → view (m w).2 k = view w k.
Proof. intros Hm. apply Hm. Qed.
(** What an operation leaves alone, whatever it does. *)
Lemma wp_touched {A} (m : M (World R) A) (Q : res A → World R → Prop) w : touches m →
  (∀ r w', m w = (r, w') → w_now w' = w_now w → (∀ k, ¬ P k → view w' k = view w k) → Q r w') → wp m Q w.
Proof.
  intros Hm HQ. destruct (Hm w) as (Hn&_&Hk). unfold wp. destruct (m w) as [r w'] eqn:E. by apply HQ.
Qed.
Lemma touches_now {A} (m : M (World R) A) w : touches m → w_now (m w).2 = w_now w.
Proof. intros Hm. apply Hm. Qed.
End operations.
Lemma touches_mono {R A} `{RedisServer R} (P Q : string → Prop) (m : M (World R) A) :
  touches P m → (∀ k, P k → Q k) → touches Q m.
Proof. intros Hm Hpq w. destruct (Hm w) as (?&?&?). split_and!; auto. Qed.

Create HintDb footprint discriminated.
#[export] Hint Resolve touches_ret touches_fail touches_lift touches_gets touches_guard touches_rand touches_rand_int
  touches_uuid touches_audit : footprint.

(** The keys of a script; reads count for nothing. *)
Ltac s_touch :=
  repeat first
    [ apply s_touches_ret | apply s_touches_fail
    | apply s_touches_bind; [|intros ?]
    | apply s_touches_each; intros ?
    | apply s_touches_read; intros [[[] []]|]; reflexivity
    | apply s_touches_rcall; cbn [cmd_key]
    | match goal with |- s_touches _ _ (if ?b then _ else _) => destruct b end
    | match goal with |- s_touches _ _ (match ?x with _ => _ end) => destruct x end
    | progress unfold s_get, s_set, s_setnx, s_del, s_exists, s_pexpire, s_pttl, s_ttl, s_incr, s_getex, s_getdel, s_sadd, s_srem,
        s_smembers, s_sismember, s_zadd, s_zremrangebyscore, s_zcard, s_zfirst, as_bulk, as_int, as_list, bad_reply, tonumber ].
Ltac touch_step :=
  first
    [ solve [eauto with footprint nocore] | apply touches_bind; [|intros ?] | apply touches_try | apply touches_wrap
    | match goal with |- touches _ (ignore _) => apply touches_ignore end
    | apply touches_call; intros ?
    | match goal with |- touches _ (if ?b then _ else _) => destruct b end
    | match goal with |- touches _ (match ?x with _ => _ end) => destruct x end ].
Ltac touch := repeat touch_step.

Section wrapper.
Context {R : Type} `{RedisServer R} (P : string → Prop).
Lemma touches_Set k v e : P k → touches P (Set_ (R := R) k v e).
Proof. intros Hk. unfold Set_. touch; by s_touch. Qed.
Lemma touches_Get k : touches P (Get (R := R) k).
Proof. unfold Get, not_found_or. touch; by s_touch. Qed.
Lemma touches_Del l : Forall P l → touches P (Del (R := R) l).
Proof.
  intros Hl. unfold Del. touch. induction Hl; [by apply s_touches_ret|]. cbn [for_each]. apply s_touches_bind; [by s_touch|done].
Qed.
Lemma touches_Exists k : touches P (Exists (R := R) k).
Proof. unfold Exists. touch; by s_touch. Qed.
Lemma touches_SetNX k v e : P k → touches P (SetNX (R := R) k v e).
Proof. intros Hk. unfold SetNX. touch; by s_touch. Qed.
Lemma touches_CheckAndIncr k l e : P k → touches P (CheckAndIncr (R := R) k l e).
Proof. intros Hk. unfold CheckAndIncr, checkAndIncrLuaScript. touch; by s_touch. Qed.
Lemma touches_IncrWithExpiry k e : P k → touches P (IncrWithExpiry (R := R) k e).
Proof. intros Hk. unfold IncrWithExpiry, incrWithExpiryLuaScript. touch; by s_touch. Qed.
Lemma touches_GetDel k : P k → touches P (GetDel (R := R) k).
Proof. intros Hk. unfold GetDel, not_found_or. touch; by s_touch. Qed.
End wrapper.
#[export] Hint Resolve touches_Set touches_Get touches_Del touches_Exists touches_SetNX touches_CheckAndIncr touches_IncrWithExpiry
  touches_GetDel : footprint.
