(* ===== verification/TokenDomain.v ===== *)
(** * [internal/token/domain]: access token claims, refresh tokens, blacklist entries

    The records, their constructors, and the JSON codecs that [encoding/json] derives
    from the struct tags. *)
From S2P Require Import Prelude GoTime Json Hash LuaPattern.
Local Open Scope Z_scope.

(** ** [AccessTokenClaims], with [jwt.RegisteredClaims] *)
Record AccessTokenClaims : Type := Claims {
  cl_Issuer : string;
  cl_Subject : string;
  cl_Audience : list string;
  cl_ExpiresAt : option Z;
  cl_NotBefore : option Z;
  cl_IssuedAt : option Z;
  cl_ID : string;
  cl_AccountID : string;
  cl_Username : string;
  cl_Email : string;
  cl_Roles : list string;
  cl_Permissions : list string;
  cl_Scope : string;
  cl_ClientID : string;
  cl_SessionID : string;
}.
#[export] Instance claims_eq_dec : EqDecision AccessTokenClaims.
Proof. solve_decision. Defined.

(** ** [RefreshToken] *)
Record RefreshToken : Type := mkRT {
  rt_Token : string;
  rt_AccountID : string;
  rt_ClientID : string;
  rt_SessionID : string;
  rt_Scope : string;
  rt_IP : string;
  rt_UserAgent : string;
  rt_ExpiresAt : Z;
  rt_CreatedAt : Z;
}.
#[export] Instance rt_eq_dec : EqDecision RefreshToken.
Proof. solve_decision. Defined.

Definition ErrRefreshTokenRequired := Sentinel "refresh token: token is required".
Definition ErrRefreshTokenAccountRequired := Sentinel "refresh token: account_id is required".
Definition ErrRefreshTokenExpiresRequired := Sentinel "refresh token: expires_at is required".

(** [NewRefreshToken(token, accountID, expiresAt)] at time [now]. *)
Definition NewRefreshToken (now : Z) (token accountID : string) (expiresAt : Z) : res RefreshToken :=
  if bool_decide (token = "") then Err ErrRefreshTokenRequired
  else if bool_decide (accountID = "") then Err ErrRefreshTokenAccountRequired
  else if IsZero expiresAt then Err ErrRefreshTokenExpiresRequired
  else Ok (mkRT token accountID "" "" "" "" "" expiresAt now).

(** [HashToken]: the hexadecimal SHA-256 of the token. *)
Definition HashToken (token : string) : string := hex_encode (sha256 token).

(** ** Storage of refresh tokens: the [token] field has the tag [json:-] *)
Definition rt_tail (rt : RefreshToken) (expires created : string) : list (string * json) :=
  omit_str "client_id" (rt_ClientID rt) ++ omit_str "session_id" (rt_SessionID rt)
  ++ omit_str "scope" (rt_Scope rt) ++ omit_str "ip" (rt_IP rt)
  ++ omit_str "user_agent" (rt_UserAgent rt)
  ++ [("expires_at", JStr expires); ("created_at", JStr created)].

Definition two_times (t1 t2 : Z) : res (string * string) :=
  match marshal_time t1, marshal_time t2 with
  | Ok s1, Ok s2 => Ok (s1, s2)
  | Err e, _ | _, Err e => Err e
  end.

(** [json.Marshal(rt)] *)
Definition marshal_rt (rt : RefreshToken) : res string :=
  match two_times (rt_ExpiresAt rt) (rt_CreatedAt rt) with
  | Ok (e, c) => Ok (jobj (("account_id", JStr (rt_AccountID rt)) :: rt_tail rt e c))
  | Err err => Err err
  end.

(** [json.Marshal(refreshTokenReplay{...})]: the same fields with the token in clear. *)
Definition marshal_replay (rt : RefreshToken) : res string :=
  match two_times (rt_ExpiresAt rt) (rt_CreatedAt rt) with
  | Ok (e, c) => Ok (jobj (("token", JStr (rt_Token rt))
                       :: ("account_id", JStr (rt_AccountID rt)) :: rt_tail rt e c))
  | Err err => Err err
  end.

Definition rt_fields (token : string) (l : list (string * json)) : option RefreshToken :=
  a ← get_str "account_id" l; c ← get_str "client_id" l; s ← get_str "session_id" l;
  sc ← get_str "scope" l; ip ← get_str "ip" l; ua ← get_str "user_agent" l;
  e ← get_time "expires_at" l; cr ← get_time "created_at" l;
  Some (mkRT token a c s sc ip ua e cr).

(** [json.Unmarshal] into a [RefreshToken] and into a [refreshTokenReplay]. *)
Definition unmarshal_rt (s : string) : option RefreshToken :=
  match jparse s with
  | Some (JObj l) => rt_fields "" l
  | Some JNull => rt_fields "" []
  | _ => None
  end.
Definition unmarshal_replay (s : string) : option RefreshToken :=
  match jparse s with
  | Some (JObj l) => t ← get_str "token" l; rt_fields t l
  | Some JNull => rt_fields "" []
  | _ => None
  end.

(** A record whose strings are valid UTF-8 and whose times can be written. *)
Definition rt_wf (rt : RefreshToken) : bool :=
  forallb utf8_valid [rt_Token rt; rt_AccountID rt; rt_ClientID rt; rt_SessionID rt;
                      rt_Scope rt; rt_IP rt; rt_UserAgent rt].

Lemma digits_clean n z acc : clean acc = true → clean (digits n z acc) = true.
Proof.
  revert z acc. induction n as [|n IH]; intros z acc Ha; cbn [digits]; [done|].
  apply IH. cbn [clean]. rewrite Ha, andb_true_r.
  pose proof (Z.mod_pos_bound z 10 ltac:(lia)) as Hd.
  assert (z mod 10 ∈ [0;1;2;3;4;5;6;7;8;9]) as Hin by (rewrite !elem_of_cons; lia).
  rewrite !elem_of_cons, elem_of_nil in Hin.
  by destruct Hin as [->|[->|[->|[->|[->|[->|[->|[->|[->|[->|[]]]]]]]]]]].
Qed.

Lemma clean_app a b : clean (a +:+ b) = clean a && clean b.
Proof. induction a as [|c a IH]; cbn; [done|]. by rewrite IH, andb_assoc. Qed.

Lemma trim_zeros_clean s : clean s = true → clean (trim_zeros s) = true.
Proof.
  induction s as [|c s IH]; [done|]. cbn [clean]. intros [Hc Hs]%andb_true_iff.
  specialize (IH Hs). cbn [trim_zeros]. destruct (trim_zeros s) as [|c' t].
  - case_bool_decide; cbn; by rewrite ?Hc.
  - cbn [clean] in *. by rewrite Hc.
Qed.

(** Hexadecimal text needs no escaping. *)
Lemma hex_encode_clean l : Forall (λ x, x < 256)%N l → clean (hex_encode l) = true.
Proof.
  assert (∀ n, (n < 16)%N → clean_char (hex_char n) = true) as Hc.
  { intros n Hn. assert (n ∈ [0;1;2;3;4;5;6;7;8;9;10;11;12;13;14;15]%N) as Hin
      by (rewrite !elem_of_cons; lia).
    rewrite !elem_of_cons, elem_of_nil in Hin. by intuition subst. }
  induction 1 as [|x l Hx _ IH]; [done|]. cbn [hex_encode clean].
  rewrite IH, !Hc; [done|by apply N.mod_lt|]. apply N.Div0.div_lt_upper_bound. lia.
Qed.
Lemma hex_encode_nonempty l : l ≠ [] → hex_encode l ≠ "".
Proof. by destruct l. Qed.

(** A formatted time needs no escaping. *)
Lemma format_time_clean t : clean (format_time t) = true.
Proof.
  unfold format_time, format_date. destruct (civil_of_days _) as [[y m] d].
  repeat first [apply digits_clean | cbn [clean]; apply andb_true_iff; split; [done|]].
  rewrite clean_app, andb_true_r. unfold format_frac. destruct (_ =? 0); [done|].
  cbn [clean]. apply trim_zeros_clean, digits_clean. done.
Qed.

Lemma marshal_time_utf8 t s : marshal_time t = Ok s → utf8_valid s = true.
Proof.
  unfold marshal_time. destruct (andb _ _); [|done]. intros [= <-].
  apply clean_utf8, format_time_clean.
Qed.

Lemma two_times_ok t1 t2 s1 s2 :
  two_times t1 t2 = Ok (s1, s2) → marshal_time t1 = Ok s1 ∧ marshal_time t2 = Ok s2.
Proof. unfold two_times. destruct (marshal_time t1), (marshal_time t2); naive_solver. Qed.

Lemma omit_str_wf k v : utf8_valid k = true → utf8_valid v = true →
  members_wf (omit_str k v) = true.
Proof. intros Hk Hv. destruct v; [done|]. cbn -[utf8_valid]. by rewrite Hk, Hv. Qed.

Lemma rt_tail_wf rt e c :
  rt_wf rt = true → utf8_valid e = true → utf8_valid c = true →
  members_wf (rt_tail rt e c) = true.
Proof.
  unfold rt_wf, rt_tail, members_wf. cbn [forallb]. rewrite !andb_true_iff. intros (?&?&?&?&?&?&?&_) He Hc.
  rewrite !forallb_app, !(omit_str_wf _ _ : _ → _ → forallb _ _ = true) by done. cbn -[utf8_valid]. by rewrite He, Hc.
Qed.

Lemma rt_fields_tail rt e c t l :
  marshal_time (rt_ExpiresAt rt) = Ok e → marshal_time (rt_CreatedAt rt) = Ok c →
  l = [] ∨ l = [("token", JStr t)] →
  rt_fields t (l ++ ("account_id", JStr (rt_AccountID rt)) :: rt_tail rt e c) =
  Some (mkRT t (rt_AccountID rt) (rt_ClientID rt) (rt_SessionID rt) (rt_Scope rt) (rt_IP rt)
             (rt_UserAgent rt) (rt_ExpiresAt rt) (rt_CreatedAt rt)).
Proof.
  intros He%marshal_time_ok Hc%marshal_time_ok Hl.
  destruct rt as [tk a cl s sc ip ua ex cr]; cbn in *.
  unfold rt_fields, get_str, get_time, rt_tail; cbn.
  destruct Hl as [->| ->], cl, s, sc, ip, ua; cbn; eval_keys; cbn; rewrite He; cbn; by rewrite Hc.
Qed.

(** A stored refresh token is read back as it was, without its secret. *)
Lemma unmarshal_marshal_rt rt s :
  rt_wf rt = true → marshal_rt rt = Ok s →
  unmarshal_rt s = Some (mkRT "" (rt_AccountID rt) (rt_ClientID rt) (rt_SessionID rt)
                          (rt_Scope rt) (rt_IP rt) (rt_UserAgent rt) (rt_ExpiresAt rt) (rt_CreatedAt rt)).
Proof.
  intros Hwf. unfold marshal_rt. destruct (two_times _ _) as [[e c]|] eqn:Ht; [|done].
  intros [= <-]. apply two_times_ok in Ht as [He Hc].
  assert (utf8_valid (rt_AccountID rt) = true) as Ha
    by (unfold rt_wf in Hwf; cbn [forallb] in Hwf; rewrite !andb_true_iff in Hwf; tauto).
  unfold unmarshal_rt. rewrite jparse_jobj.
  - by apply (rt_fields_tail rt e c "" []); [..|left].
  - unfold members_wf. cbn [jwf forallb fst snd]. rewrite Ha. cbn -[utf8_valid].
    apply rt_tail_wf; eauto using marshal_time_utf8.
Qed.

Lemma unmarshal_marshal_replay rt s :
  rt_wf rt = true → marshal_replay rt = Ok s → unmarshal_replay s = Some rt.
Proof.
  intros Hwf. unfold marshal_replay. destruct (two_times _ _) as [[e c]|] eqn:Ht; [|done].
  intros [= <-]. apply two_times_ok in Ht as [He Hc].
  assert (utf8_valid (rt_AccountID rt) = true ∧ utf8_valid (rt_Token rt) = true) as [Ha Htk]
    by (unfold rt_wf in Hwf; cbn [forallb] in Hwf; rewrite !andb_true_iff in Hwf; tauto).
  unfold unmarshal_replay. rewrite jparse_jobj.
  - pose proof (rt_fields_tail rt e c (rt_Token rt) [("token", JStr (rt_Token rt))] He Hc
                  ltac:(by right)) as Hf.
    assert (get_str "token" (("token", JStr (rt_Token rt)) :: ("account_id", JStr (rt_AccountID rt))
              :: rt_tail rt e c) = Some (rt_Token rt)) as ->.
    { clear. unfold get_str, rt_tail. destruct rt as [tk a cl s sc ip ua ex cr]; cbn.
      destruct cl, s, sc, ip, ua; cbn; eval_keys; reflexivity. }
    cbn [app mbind option_bind] in *. rewrite Hf. by destruct rt.
  - unfold members_wf. cbn [jwf forallb fst snd]. rewrite Ha, Htk. cbn -[utf8_valid].
    apply rt_tail_wf; eauto using marshal_time_utf8.
Qed.
