(* ===== verification/Blacklist.v ===== *)
(** * [internal/token/service/blacklist_service.go] and [internal/token/domain/blacklist.go]

    Individually revoked access tokens (by [jti]) and the per-account revocation
    timestamp, both kept in Redis until the tokens they cover have expired. *)
From S2P Require Import Prelude GoTime Redis World Cache.
Local Open Scope Z_scope.

(** ** [domain.TokenBlacklist] *)
Record TokenBlacklist : Type := mkBlacklist {
  tb_JTI : string; tb_Reason : string; tb_RevokedAt : Z; tb_ExpiresAt : Z }.

Definition ErrBlacklistJTIRequired := Sentinel "token blacklist: jti is required".
Definition ErrBlacklistExpiresAtRequired := Sentinel "token blacklist: expires_at is required".

Definition NewTokenBlacklist (now : Z) (jti reason : string) (expiresAt : Z) : res TokenBlacklist :=
  if bool_decide (jti = "") then Err ErrBlacklistJTIRequired
  else if IsZero expiresAt then Err ErrBlacklistExpiresAtRequired
  else Ok (mkBlacklist jti reason now expiresAt).

Definition blacklist_IsExpired (now : Z) (t : option TokenBlacklist) : bool :=
  match t with None => true | Some t => tb_ExpiresAt t <? now end.

(** ** Keys *)
Definition buildBlacklistKey (jti : string) : string := "blacklist:token:" +:+ jti.
Definition buildAccountRevokedAfterKey (accountID : string) : string :=
  "account_revoked_after:" +:+ accountID.

Definition ErrTokenNotRevoked := Sentinel "token not revoked".

Record TokenRevocationResult : Type := mkRevocation {
  TokenRevoked : bool;
  AccountRevokedAfter : Z;
}.

Section blacklist.
Context {R : Type} `{RedisServer R}.

(** Only the existence of the key matters. The lifetime is what is left of the
    token's, with five minutes added. *)
Definition RevokeToken (jti reason : string) (expiresAt : Z) : M (World R) unit :=
  let! t := now in
  let ttl := expiresAt - t + 5 * minute in
  if ttl <=? 0 then ret tt else
  wrap "revoke token" (Set_ (buildBlacklistKey jti) "1" ttl).

Definition IsTokenRevoked (jti : string) : M (World R) bool :=
  wrap "check token blacklist" (Exists (buildBlacklistKey jti)).

Definition GetRevokeInfo (jti : string) : M (World R) TokenBlacklist :=
  let! e := wrap "get token blacklist" (Exists (buildBlacklistKey jti)) in
  if e : bool then ret (mkBlacklist jti "" zero_time zero_time) else fail ErrTokenNotRevoked.

Definition removeFromBlacklist (jti : string) : M (World R) unit :=
  wrap "remove token from blacklist" (Del [buildBlacklistKey jti]).

(** [setAccountRevokedAfterScript]: the timestamp only moves forward. *)
Definition setAccountRevokedAfterScript (key : string) (ts secs : Z) (now : Z) : M R Z :=
  let! cur := s_get now key in
  let! keep := match cur with
    | None => ret false
    | Some s => match parse_int s with
                | Some c => ret (ts <=? c)
                | None => fail (Anon "ERR user_script: attempt to compare number with nil")
                end
    end in
  if keep : bool then ret 0 else s_set now key (dec ts) (Some (secs * 1000)) ;; ret 1.

Definition SetAccountRevokedAfter (accountID : string) (revokedAt ttl : Z) : M (World R) unit :=
  wrap "set account revoked after"
    (redis_call (setAccountRevokedAfterScript (buildAccountRevokedAfterKey accountID)
                   (Unix revokedAt) (trunc_secs ttl))) ;;
  ret tt.

Definition parse_revoked_after (val : string) : res Z :=
  match parse_int val with
  | Some ts => Ok (from_unix ts)
  | None => Err (Wrap "parse account revoked after" (Anon "strconv.ParseInt: invalid syntax"))
  end.

(** The zero time when there is no record. *)
Definition GetAccountRevokedAfter (accountID : string) : M (World R) Z :=
  let! r := try (Get (buildAccountRevokedAfterKey accountID)) in
  match r with
  | Err e => if errors_is e ErrKeyNotFound then ret zero_time
             else fail (Wrap "get account revoked after" e)
  | Ok val => lift_res (parse_revoked_after val)
  end.

(** The two lookups share one pipeline; the account is skipped when empty. *)
Definition revocationPipeline (jti accountID : string) (now : Z) : M R (bool * option string) :=
  let! e := s_exists now (buildBlacklistKey jti) in
  let! v := (if bool_decide (accountID = "") then ret None
             else s_get now (buildAccountRevokedAfterKey accountID)) in
  ret (e, v).

Definition CheckTokenAndAccountRevocation (jti accountID : string) :
    M (World R) TokenRevocationResult :=
  let! (e, v) := wrap "pipeline revocation check" (redis_call (revocationPipeline jti accountID)) in
  match v with
  | None => ret (mkRevocation e zero_time)
  | Some val => let! t := lift_res (parse_revoked_after val) in ret (mkRevocation e t)
  end.
End blacklist.
