(* ===== verification/TokenService.v ===== *)
(** * [internal/token/service]: access tokens, refresh tokens, rotation, revocation

    Refresh tokens live in Redis under the hash of their secret, and every session has
    an index of the hashes of its tokens. Signing and verifying JWTs is done by
    [golang-jwt], the parameter [JwtLib]. *)
From S2P Require Import Prelude GoTime Json Hash LuaPattern Redis World Cache TokenDomain Blacklist.
Local Open Scope Z_scope.

(** ** The JWT library *)

(** [jwt.NewNumericDate] keeps whole seconds. *)
Definition NewNumericDate (t : Z) : Z := t / second * second.

(** The checks of [jwt.Validator] with [WithIssuer] and [WithLeeway]: a missing date is
    not checked. *)
Definition registered_ok (issuer : string) (leeway now : Z) (c : AccessTokenClaims) : bool :=
  match cl_ExpiresAt c with Some e => now <? e + leeway | None => true end
  && match cl_NotBefore c with Some n => n - leeway <=? now | None => true end
  && bool_decide (cl_Issuer c = issuer).

(** What the program relies on. The key function sees the name of the signing method
    family and the [alg] header. *)
Class JwtLib := {
  jwt_sign : string → string → AccessTokenClaims → res string;
  jwt_parse : string → Z → Z → (string → string → res string) → string → res AccessTokenClaims;
  jwt_public : string → string;
  (** parsing a token this key signed with RS256 gives the claims when they are current *)
  jwt_parse_signed issuer leeway now kf kid priv c tok :
    jwt_sign kid priv c = Ok tok → kf "RSA" "RS256" = Ok (jwt_public priv) →
    jwt_parse issuer leeway now kf tok =
      if registered_ok issuer leeway now c then Ok c else Err (Anon "token has invalid claims");
  (** a parsed token was verified with the key the key function returned, and is current *)
  jwt_parse_checked issuer leeway now kf tok c :
    jwt_parse issuer leeway now kf tok = Ok c →
    registered_ok issuer leeway now c = true ∧ ∃ meth alg key, kf meth alg = Ok key;
}.

Definition ErrTokenRevoked := Sentinel "token has been revoked".
Definition ErrInvalidToken := Sentinel "invalid token claims".
Definition ErrBlacklistUnavailable := Sentinel "token blacklist unavailable".
Definition ErrRefreshTokenExpired := Sentinel "refresh token expired".

Definition refreshTokenLength : nat := 32.
Definition MinAccountRevocationTTL : Z := 5 * minute.
Definition MaxShortLivedExpiry : Z := hour.
Definition accessTokenClockSkew : Z := 30 * second.
Definition refreshTokenReplayTTL : Z := 30 * second.

(** The fields of [TokenService] that are configuration, and its keys. *)
Record TokenCfg : Type := mkTokenCfg {
  tc_issuer : string;
  tc_accessExpiry : Z;
  tc_refreshExpiry : Z;
  tc_enforceIPBinding : bool;
  tc_keyID : string;
  tc_privateKey : string;
}.

(** The checks of [NewTokenService] on its durations. *)
Definition NewTokenService (cfg : TokenCfg) : res TokenCfg :=
  if tc_accessExpiry cfg <=? 0 then Err (Anon "token service: accessExpiry must be positive")
  else if tc_refreshExpiry cfg <=? 0 then Err (Anon "token service: refreshExpiry must be positive")
  else Ok cfg.

(** ** Keys *)
Definition buildRefreshTokenKey (token : string) : string := "refresh_token:" +:+ HashToken token.
Definition sessionTokensKeyPrefix : string := "session_tokens:".
Definition buildSessionTokensKey (sessionID : string) : string := sessionTokensKeyPrefix +:+ sessionID.
Definition buildRefreshTokenReplayKey (oldHash : string) : string := "refresh_token_replay:" +:+ oldHash.

#[global] Arguments buildRefreshTokenKey : simpl never.
#[global] Arguments buildSessionTokensKey : simpl never.
#[global] Arguments buildRefreshTokenReplayKey : simpl never.
#[global] Arguments HashToken : simpl never.

(** ** Access tokens *)
Definition ensureClientAudience (c : AccessTokenClaims) : AccessTokenClaims :=
  if bool_decide (cl_ClientID c = "") || bool_decide (cl_ClientID c ∈ cl_Audience c) then c
  else Claims (cl_Issuer c) (cl_Subject c) (cl_Audience c ++ [cl_ClientID c]) (cl_ExpiresAt c)
         (cl_NotBefore c) (cl_IssuedAt c) (cl_ID c) (cl_AccountID c) (cl_Username c) (cl_Email c)
         (cl_Roles c) (cl_Permissions c) (cl_Scope c) (cl_ClientID c) (cl_SessionID c).

(** The claims with issuer, subject, dates and identifier filled in. *)
Definition stamp_claims (cfg : TokenCfg) (id : string) (iat exp : Z) (c : AccessTokenClaims) :
    AccessTokenClaims :=
  Claims (tc_issuer cfg) (cl_AccountID c) (cl_Audience c) (Some exp)
         (cl_NotBefore c) (Some iat) id (cl_AccountID c) (cl_Username c) (cl_Email c)
         (cl_Roles c) (cl_Permissions c) (cl_Scope c) (cl_ClientID c) (cl_SessionID c).

Section token_service.
Context {R : Type} `{RedisServer R} `{JwtLib} (cfg : TokenCfg).

Definition signToken (c : AccessTokenClaims) (label : string) : M (World R) string :=
  lift_res (wrap_res ("sign " +:+ label) (jwt_sign (tc_keyID cfg) (tc_privateKey cfg) c)).

Definition claims_id (c : AccessTokenClaims) : M (World R) string :=
  if bool_decide (cl_ID c = "") then uuid_new else ret (cl_ID c).

Definition GenerateAccessToken (c : AccessTokenClaims) : M (World R) string :=
  let! t := now in
  let! id := claims_id c in
  signToken (ensureClientAudience
    (stamp_claims cfg id (NewNumericDate t) (NewNumericDate (t + tc_accessExpiry cfg)) c))
    "access token".

(** The caller's expiry is kept, up to [MaxShortLivedExpiry] from now. *)
Definition short_lived_expiry (t : Z) (requested : option Z) : Z :=
  let e := match requested with
    | Some e => if IsZero e then NewNumericDate (t + tc_accessExpiry cfg) else e
    | None => NewNumericDate (t + tc_accessExpiry cfg)
    end in
  let maxExpiry := NewNumericDate (t + MaxShortLivedExpiry) in
  if maxExpiry <? e then maxExpiry else e.

Definition GenerateShortLivedToken (c : AccessTokenClaims) : M (World R) string :=
  let! t := now in
  let! id := claims_id c in
  signToken (ensureClientAudience
    (stamp_claims cfg id (NewNumericDate t) (short_lived_expiry t (cl_ExpiresAt c)) c))
    "short-lived token".

(** Only RS256 is accepted. *)
Definition keyfunc (meth alg : string) : res string :=
  if negb (bool_decide (meth = "RSA")) then Err (Anon "unexpected signing method")
  else if negb (bool_decide (alg = "RS256")) then Err (Anon "unexpected signing algorithm")
  else Ok (jwt_public (tc_privateKey cfg)).

Definition ValidateAccessTokenWithContext (tokenString : string) : M (World R) AccessTokenClaims :=
  let! t := now in
  let! c := lift_res (wrap_res "parse access token"
              (jwt_parse (tc_issuer cfg) accessTokenClockSkew t keyfunc tokenString)) in
  guard_err (negb (bool_decide (cl_ClientID c = "")) && negb (bool_decide (cl_ClientID c ∈ cl_Audience c)))
    ErrInvalidToken ;;
  guard_err (bool_decide (cl_ID c = "")) ErrInvalidToken ;;
  let accountID := if bool_decide (is_Some (cl_IssuedAt c)) && negb (bool_decide (cl_AccountID c = ""))
                   then cl_AccountID c else "" in
  let! r := try (CheckTokenAndAccountRevocation (cl_ID c) accountID) in
  match r with
  | Err _ => fail ErrBlacklistUnavailable
  | Ok revocation =>
      guard_err (TokenRevoked revocation) ErrTokenRevoked ;;
      guard_err (match cl_NotBefore c with Some n => t + accessTokenClockSkew <? n | None => false end)
        ErrInvalidToken ;;
      guard_err (negb (IsZero (AccountRevokedAfter revocation))
                 && match cl_IssuedAt c with Some i => i <? AccountRevokedAfter revocation | None => false end)
        ErrTokenRevoked ;;
      ret c
  end.

(** ** Refresh tokens *)

(** [storeRefreshTokenScript]; an empty session key means no index. *)
Definition storeRefreshTokenScript (key sessionKey data : string) (secs : Z) (tokenHash : string)
    (now : Z) : M R unit :=
  s_set now key data (Some (secs * 1000)) ;;
  if bool_decide (sessionKey = "") then ret tt
  else s_sadd now sessionKey tokenHash ;; s_pexpire now sessionKey (secs * 1000).

Definition refresh_secs : Z := ceil_secs (tc_refreshExpiry cfg).

Definition GenerateRefreshToken (ctx : Ctx) (accountID clientID sessionID scope : string) :
    M (World R) RefreshToken :=
  let! randomBytes := wrap "generate refresh token" (rand_read refreshTokenLength) in
  let tokenString := hex_encode randomBytes in
  let! t := now in
  let rt := mkRT tokenString accountID clientID sessionID scope (ctx_ip ctx) (ctx_ua ctx)
              (t + tc_refreshExpiry cfg) t in
  guard_err (bool_decide (rt_IP rt = "") && tc_enforceIPBinding cfg)
    (Anon "refresh token: IP binding required but client IP is unavailable") ;;
  let! data := lift_res (wrap_res "marshal refresh token" (marshal_rt rt)) in
  let sessionKey := if bool_decide (sessionID = "") then "" else buildSessionTokensKey sessionID in
  wrap "store refresh token"
    (redis_call (storeRefreshTokenScript (buildRefreshTokenKey tokenString) sessionKey data
                   (Z.max 1 refresh_secs) (HashToken tokenString))) ;;
  ret rt.

Definition ValidateRefreshToken (token : string) : M (World R) RefreshToken :=
  let! r := try (Get (buildRefreshTokenKey token)) in
  match r with
  | Err e => if errors_is e ErrKeyNotFound
             then fail (Wrap "refresh token not found or expired" ErrKeyNotFound)
             else fail (Wrap "get refresh token" e)
  | Ok data =>
      match unmarshal_rt data with
      | None => fail (Wrap "unmarshal refresh token" (Anon "json"))
      | Some rt =>
          let! t := now in
          guard_err (IsZero (rt_ExpiresAt rt) || (rt_ExpiresAt rt <? t)) ErrRefreshTokenExpired ;;
          if bool_decide (rt_AccountID rt = "") then ret rt else
          let! r := try (GetAccountRevokedAfter (rt_AccountID rt)) in
          match r with
          | Err _ => fail ErrBlacklistUnavailable
          | Ok revokedAfter =>
              guard_err (negb (IsZero revokedAfter) && (rt_CreatedAt rt <? revokedAfter))
                ErrTokenRevoked ;;
              ret rt
          end
      end
  end.

(** [rotateAndDeleteScript]: consume a token and drop it from its session's index. *)
Definition rotateAndDeleteScript (key prefix tokenHash : string) (now : Z) : M R (option string) :=
  let! data := s_get now key in
  match data with
  | None => ret None
  | Some d =>
      s_del now key ;;
      match match_str "session_id" d with
      | Some sid => if bool_decide (sid = "") then ret tt else s_srem now (prefix +:+ sid) tokenHash
      | None => ret tt
      end ;;
      ret (Some d)
  end.

(** [rotateTokenScript]: consume the old token, store the new one and the replay
    record, move the session's index entry. *)
Definition rotateTokenScript (oldKey newKey replayKey oldHash newHash prefix : string)
    (expirySecs : Z) (newData replayData : string) (replaySecs : Z) (now : Z) : M R (option string) :=
  let! oldData := s_get now oldKey in
  match oldData with
  | None => s_get now replayKey
  | Some d =>
      s_del now oldKey ;;
      s_set now newKey newData (Some (expirySecs * 1000)) ;;
      s_set now replayKey replayData (Some (replaySecs * 1000)) ;;
      match match_str "session_id" d with
      | Some sid =>
          if bool_decide (sid = "") then ret tt else
          s_srem now (prefix +:+ sid) oldHash ;;
          s_sadd now (prefix +:+ sid) newHash ;;
          s_pexpire now (prefix +:+ sid) (expirySecs * 1000)
      | None => ret tt
      end ;;
      ret (Some replayData)
  end.

Definition parseRefreshTokenReplay (data : string) : res RefreshToken :=
  match unmarshal_replay data with
  | None => Err (Wrap "unmarshal refresh token replay" (Anon "json"))
  | Some replay =>
      if bool_decide (rt_Token replay = "") || bool_decide (rt_AccountID replay = "")
         || IsZero (rt_ExpiresAt replay)
      then Err (Anon "invalid refresh token replay") else Ok replay
  end.

Definition getRefreshTokenReplay (replayKey : string) : M (World R) RefreshToken :=
  let! data := Get replayKey in
  let! replay := lift_res (parseRefreshTokenReplay data) in
  ValidateRefreshToken (rt_Token replay) ;;
  ret replay.

Definition rotation_not_found : err := Wrap "refresh token not found or expired" ErrKeyNotFound.

(** The replay path: any failure is reported as a missing token. *)
Definition replay_or_not_found (replayKey : string) : M (World R) RefreshToken :=
  let! r := try (getRefreshTokenReplay replayKey) in
  match r with Ok replay => ret replay | Err _ => fail rotation_not_found end.

Definition ActionTokenRotate : string := "auth.token.rotate".
Definition ActionTokenRevoke : string := "auth.token.revoke".

Definition RotateRefreshToken (ctx : Ctx) (oldToken : string) : M (World R) RefreshToken :=
  let! newBytes := wrap "generate new token" (rand_read refreshTokenLength) in
  let newTokenString := hex_encode newBytes in
  let oldHash := HashToken oldToken in
  let replayKey := buildRefreshTokenReplayKey oldHash in
  let! r := try (Get (buildRefreshTokenKey oldToken)) in
  match r with
  | Err e => if errors_is e ErrKeyNotFound then replay_or_not_found replayKey
             else fail (Wrap "get refresh token for rotation" e)
  | Ok oldData =>
      match unmarshal_rt oldData with
      | None => fail (Wrap "unmarshal old refresh token" (Anon "json"))
      | Some oldRT =>
          let! t := now in
          let! newRT := lift_res (wrap_res "create new refresh token"
            (NewRefreshToken t newTokenString (rt_AccountID oldRT) (t + tc_refreshExpiry cfg))) in
          let newRT := mkRT (rt_Token newRT) (rt_AccountID newRT) (rt_ClientID oldRT)
            (rt_SessionID oldRT) (rt_Scope oldRT) (rt_IP oldRT) (rt_UserAgent oldRT)
            (rt_ExpiresAt newRT) (rt_CreatedAt newRT) in
          let newHash := HashToken newTokenString in
          let! newData := lift_res (wrap_res "marshal new refresh token" (marshal_rt newRT)) in
          let! replayData := lift_res (wrap_res "marshal refresh token replay" (marshal_replay newRT)) in
          let! r := try (redis_call (rotateTokenScript (buildRefreshTokenKey oldToken)
            (buildRefreshTokenKey newTokenString) replayKey oldHash newHash sessionTokensKeyPrefix
            refresh_secs newData replayData (ceil_secs refreshTokenReplayTTL))) in
          match r with
          | Err _ | Ok None => replay_or_not_found replayKey
          | Ok (Some resultData) =>
              let! rotatedRT := lift_res (parseRefreshTokenReplay resultData) in
              audit_log (Audit ActionTokenRotate (Some (rt_AccountID rotatedRT))
                [("session_id", rt_SessionID rotatedRT); ("old_token", oldHash);
                 ("new_token", HashToken (rt_Token rotatedRT)); ("ip", ctx_ip ctx);
                 ("user_agent", ctx_ua ctx)]) ;;
              ret rotatedRT
          end
      end
  end.

(** ** Revocation *)
Definition RevokeRefreshToken (ctx : Ctx) (token : string) : M (World R) unit :=
  let tokenHash := HashToken token in
  let! data := wrap "revoke refresh token"
    (redis_call (rotateAndDeleteScript (buildRefreshTokenKey token) sessionTokensKeyPrefix tokenHash)) in
  match data with
  | Some d =>
      match unmarshal_rt d with
      | Some rt => audit_log (Audit ActionTokenRevoke None
          [("token_hash", tokenHash); ("session_id", rt_SessionID rt);
           ("ip", ctx_ip ctx); ("user_agent", ctx_ua ctx)])
      | None => ret tt
      end
  | None => ret tt
  end.

(** [revokeAllSessionScript] *)
Definition revokeAllSessionScript (sessionKey prefix : string) (now : Z) : M R Z :=
  let! members := s_smembers now sessionKey in
  for_each members (λ hash, s_del now (prefix +:+ hash)) ;;
  s_del now sessionKey ;;
  ret (Z.of_nat (length members)).

Definition RevokeAllForSession (ctx : Ctx) (sessionID : string) : M (World R) unit :=
  wrap "revoke session tokens"
    (redis_call (revokeAllSessionScript (buildSessionTokensKey sessionID) "refresh_token:")) ;;
  audit_log (Audit ActionTokenRevoke None
    [("session_id", sessionID); ("reason", "revoke_all_for_session");
     ("ip", ctx_ip ctx); ("user_agent", ctx_ua ctx)]).

Definition RevokeAccessToken (jti : string) (expiresAt : Z) : M (World R) unit :=
  RevokeToken jti "logout" expiresAt.

Definition RevokeAccountTokens (ctx : Ctx) (accountID : string) : M (World R) unit :=
  let ttl := Z.max (tc_accessExpiry cfg * 2) MinAccountRevocationTTL in
  let! t := now in
  SetAccountRevokedAfter accountID t ttl ;;
  audit_log (Audit ActionTokenRevoke (Some accountID)
    [("reason", "revoke_all_for_account"); ("ip", ctx_ip ctx); ("user_agent", ctx_ua ctx)]).

(** The RFC 7662 answer for an active token; dates are in Unix seconds. *)
Definition introspection_result (c : AccessTokenClaims) : list (string * json) :=
  [("active", JBool true); ("sub", JStr (cl_AccountID c)); ("client_id", JStr (cl_ClientID c));
   ("scope", JStr (cl_Scope c)); ("token_type", JStr "Bearer")]
  ++ omit_strs "aud" (cl_Audience c)
  ++ match cl_ExpiresAt c with Some e => [("exp", JNum (Unix e))] | None => [] end
  ++ match cl_IssuedAt c with Some i => [("iat", JNum (Unix i))] | None => [] end
  ++ omit_str "iss" (cl_Issuer c) ++ omit_str "sid" (cl_SessionID c)
  ++ omit_strs "roles" (cl_Roles c) ++ omit_str "jti" (cl_ID c).

(** [IntrospectToken]: an inactive token is not an error, an unavailable blacklist is. *)
Definition IntrospectToken (tokenString : string) : M (World R) (list (string * json)) :=
  let! r := try (ValidateAccessTokenWithContext tokenString) in
  match r with
  | Err e => if errors_is e ErrBlacklistUnavailable then fail e else ret [("active", JBool false)]
  | Ok c => ret (introspection_result c)
  end.
End token_service.
