(* ===== verification/TokenSpecs.v ===== *)
(** * What the token scripts and operations do to the store *)
From S2P Require Import Prelude GoTime Json Hash LuaPattern Redis World Cache TokenDomain Blacklist TokenService.
Local Open Scope Z_scope.

Section specs.
Context {R : Type} `{RedisServer R} `{JwtLib}.
Implicit Types (st : R) (w : World R).

(** ** Round trips of the cache client, network healthy *)
Lemma wp_Get key (Q : res string → World R → Prop) w :
  w_net w = [] →
  (∀ st', same (now_ms w) (w_redis w) st' →
     Q (match str_of (view w key) with
        | Ok (Some v) => Ok v | Ok None => Err ErrKeyNotFound | Err e => Err (Wrap "get" e) end)
       (put_redis st' w)) →
  wp (Get key) Q w.
Proof.
  intros Hn HQ. unfold Get, not_found_or. apply wp_bind, wp_wrap, wp_redis_call_up; [done|].
  s_step. specialize (HQ _ H1). unfold view in HQ. by destruct (str_of _) as [[v|]|e].
Qed.

(** Whatever the network does, a read changes nothing. *)
Definition get_result (o : option rentry) (r : res string) : Prop :=
  r = match str_of o with
      | Ok (Some v) => Ok v | Ok None => Err ErrKeyNotFound | Err e => Err (Wrap "get" e) end
  ∨ r = Err (Wrap "get" ErrNetwork).

Lemma wp_Get_any key (Q : res string → World R → Prop) w :
  (∀ r w', quiet w w' → get_result (view w key) r → Q r w') → wp (Get key) Q w.
Proof.
  intros HQ. unfold Get, not_found_or. apply wp_bind, wp_wrap, wp_redis_call.
  - intros net. s_step. pose proof (quiet_redis net _ _ H1) as Hq. unfold view, get_result in HQ.
    split; [|apply HQ; auto]. destruct (str_of _) as [[v|]|e]; cbn; apply HQ; auto.
  - intros net. apply HQ; [apply quiet_net|by right].
Qed.

(** ** Scripts *)
Lemma store_script_spec now key sessionKey data secs hash st s (Q : res unit → R → Prop) :
  0 < secs → sessionKey ≠ key →
  set_of (r_view st now sessionKey) = Some s →
  (∀ st', (∀ k, r_view st' now k =
      if decide (sessionKey ≠ "" ∧ k = sessionKey)
      then Some (Entry (RSet ({[hash]} ∪ s)) (Some (now + secs * 1000)))
      else if decide (k = key) then Some (Entry (RStr data) (Some (now + secs * 1000)))
      else r_view st now k) → Q (Ok tt) st') →
  wp (storeRefreshTokenScript key sessionKey data secs hash now) Q st.
Proof.
  intros Hs Hne Hset HQ. unfold storeRefreshTokenScript.
  s_step. s_step. case_bool_decide as Hk.
  - s_step. apply HQ. intros k. rewrite (decide_False (P:=_ ∧ _)) by naive_solver. apply H1.
  - s_step. s_step. { views. done. }
    s_step. apply HQ. intros k. rewrite H3. destruct (decide (k = sessionKey)) as [->|].
    + rewrite decide_True by done. views. done.
    + rewrite (decide_False (P:=_ ∧ _)) by naive_solver. views. done.
Qed.

(** The session the scripts find in a stored token. *)
Definition script_session (d : string) : option string :=
  match match_str "session_id" d with
  | Some sid => if bool_decide (sid = "") then None else Some sid
  | None => None
  end.

Definition members_of (o : option rentry) : gset string := default ∅ (set_of o).

(** The store after a rotation. *)
Definition rotated (now : Z) (V : string → option rentry)
    (oldKey newKey replayKey oldHash newHash prefix d newData replayData : string)
    (secs rsecs : Z) (k : string) : option rentry :=
  let base :=
    if decide (k = replayKey) then Some (Entry (RStr replayData) (Some (now + rsecs * 1000)))
    else if decide (k = newKey) then Some (Entry (RStr newData) (Some (now + secs * 1000)))
    else if decide (k = oldKey) then None else V k in
  match script_session d with
  | Some sid =>
      if decide (k = prefix +:+ sid)
      then Some (Entry (RSet ({[newHash]} ∪ members_of (V (prefix +:+ sid)) ∖ {[oldHash]}))
                       (Some (now + secs * 1000)))
      else base
  | None => base
  end.

Lemma rotate_script_spec now oldKey newKey replayKey oldHash newHash prefix secs newData replayData
    rsecs st d e (Q : res (option string) → R → Prop) :
  0 < secs → 0 < rsecs → r_view st now oldKey = Some (Entry (RStr d) e) →
  (∀ sid, prefix +:+ sid ≠ oldKey ∧ prefix +:+ sid ≠ newKey ∧ prefix +:+ sid ≠ replayKey) →
  (∀ sid, is_Some (set_of (r_view st now (prefix +:+ sid)))) →
  (∀ st', (∀ k, r_view st' now k =
      rotated now (r_view st now) oldKey newKey replayKey oldHash newHash prefix d newData
        replayData secs rsecs k) → Q (Ok (Some replayData)) st') →
  wp (rotateTokenScript oldKey newKey replayKey oldHash newHash prefix secs newData replayData rsecs now) Q st.
Proof.
  intros Hs Hr Hold Hkeys Hsets HQ. unfold rotateTokenScript, rotated, script_session in *.
  s_step. s_step. rewrite Hold. cbn.
  s_step. s_step. s_step. s_step. s_step. s_step. s_step.
  assert (∀ k, r_view st'2 now k =
    if decide (k = replayKey) then Some (Entry (RStr replayData) (Some (now + rsecs * 1000)))
    else if decide (k = newKey) then Some (Entry (RStr newData) (Some (now + secs * 1000)))
    else if decide (k = oldKey) then None else r_view st now k) as Hbase.
  { intros k. rewrite H4, H3, H2. by rewrite (H1 k). }
  clear H1 H2 H3 H4. destruct (match_str "session_id" d) as [sid|].
  2: { s_step. s_step. apply HQ. apply Hbase. }
  case_bool_decide; [s_step; s_step; apply HQ; apply Hbase|].
  destruct (Hkeys sid) as (?&?&?). destruct (Hsets sid) as [s Hset].
  assert (r_view st'2 now (prefix +:+ sid) = r_view st now (prefix +:+ sid)) as Hsk
    by (rewrite Hbase; by decide_keys).
  s_step. s_step. { by rewrite Hsk. }
  s_step. s_step. { views. rewrite Hsk. instantiate (1 := s ∖ {[oldHash]}).
    unfold put_set. destruct (decide _) as [He|]; cbn; by rewrite ?He. }
  s_step. s_step. apply HQ. intros k.
  destruct (decide (k = prefix +:+ sid)) as [->|Hk].
  - rewrite H7. decide_keys. rewrite H6. decide_keys. cbn. unfold members_of. by rewrite Hset.
  - rewrite H7. decide_keys. rewrite H6. decide_keys. rewrite H5. decide_keys. apply Hbase.
Qed.

Lemma rotate_script_missing now oldKey newKey replayKey oldHash newHash prefix secs newData replayData
    rsecs st (Q : res (option string) → R → Prop) :
  r_view st now oldKey = None →
  (∀ st', same now st st' → Q (str_of (r_view st now replayKey)) st') →
  wp (rotateTokenScript oldKey newKey replayKey oldHash newHash prefix secs newData replayData rsecs now) Q st.
Proof.
  intros Hold HQ. unfold rotateTokenScript. s_step. s_step. rewrite Hold. cbn. s_step.
  rewrite H1. apply HQ. intros k. by rewrite (H2 k), (H1 k).
Qed.

(** The store after one token is consumed. *)
Definition consumed (now : Z) (V : string → option rentry) (key prefix d hash : string) (k : string) :
    option rentry :=
  let base := if decide (k = key) then None else V k in
  match script_session d with
  | Some sid =>
      if decide (k = prefix +:+ sid)
      then put_set (members_of (V (prefix +:+ sid)) ∖ {[hash]}) (exp_of (V (prefix +:+ sid)))
      else base
  | None => base
  end.

Lemma delete_script_spec now key prefix hash st d e (Q : res (option string) → R → Prop) :
  r_view st now key = Some (Entry (RStr d) e) →
  (∀ sid, prefix +:+ sid ≠ key) →
  (∀ sid, is_Some (set_of (r_view st now (prefix +:+ sid)))) →
  (∀ st', (∀ k, r_view st' now k = consumed now (r_view st now) key prefix d hash k) →
          Q (Ok (Some d)) st') →
  wp (rotateAndDeleteScript key prefix hash now) Q st.
Proof.
  intros Hold Hkeys Hsets HQ. unfold rotateAndDeleteScript, consumed, script_session in *.
  s_step. s_step. rewrite Hold. cbn. s_step. s_step. s_step.
  assert (∀ k, r_view st'0 now k = if decide (k = key) then None else r_view st now k) as Hbase.
  { intros k. by rewrite H2, (H1 k). }
  clear H1 H2. destruct (match_str "session_id" d) as [sid|].
  2: { s_step. s_step. apply HQ. apply Hbase. }
  case_bool_decide; [s_step; s_step; apply HQ; apply Hbase|].
  destruct (Hsets sid) as [s Hset]. pose proof (Hkeys sid).
  assert (r_view st'0 now (prefix +:+ sid) = r_view st now (prefix +:+ sid)) as Hsk
    by (rewrite Hbase; by decide_keys).
  s_step. { by rewrite Hsk. }
  s_step. apply HQ. intros k. rewrite H3. destruct (decide (k = prefix +:+ sid)) as [->|].
  - unfold members_of. by rewrite Hset, Hsk.
  - apply Hbase.
Qed.

Lemma delete_script_missing now key prefix hash st (Q : res (option string) → R → Prop) :
  r_view st now key = None → (∀ st', same now st st' → Q (Ok None) st') →
  wp (rotateAndDeleteScript key prefix hash now) Q st.
Proof. intros Hold HQ. unfold rotateAndDeleteScript. s_step. s_step. rewrite Hold. cbn. s_step. by apply HQ. Qed.

Lemma del_loop now prefix l st :
  wp (for_each l (λ h, s_del now (prefix +:+ h)))
     (λ r st', r = Ok tt ∧ ∀ k, r_view st' now k =
        if decide (k ∈ String.append prefix <$> l) then None else r_view st now k) st.
Proof.
  revert st. induction l as [|h l IH]; intros st; cbn [for_each].
  - s_step. split; [done|]. intros k. by rewrite decide_False by set_solver.
  - s_step. s_step. eapply wp_mono; [apply IH|]. intros r st2 [-> Hv]. split; [done|].
    intros k. rewrite Hv, (H1 k). cbn.
    destruct (decide (k ∈ String.append prefix <$> l)) as [Hin|Hni].
    + by rewrite decide_True by set_solver.
    + destruct (decide (k = prefix +:+ h)) as [->|Hne].
      * by rewrite decide_True by set_solver.
      * by rewrite decide_False by set_solver.
Qed.

Lemma revoke_all_spec now sessionKey prefix st s (Q : res Z → R → Prop) :
  set_of (r_view st now sessionKey) = Some s →
  (∀ st' n, (∀ k, (k = sessionKey ∨ ∃ h, h ∈ s ∧ k = prefix +:+ h) → r_view st' now k = None) →
            (∀ k, k ≠ sessionKey → (∀ h, h ∈ s → k ≠ prefix +:+ h) → r_view st' now k = r_view st now k) →
            Q (Ok n) st') →
  wp (revokeAllSessionScript sessionKey prefix now) Q st.
Proof.
  intros Hset HQ. unfold revokeAllSessionScript. s_step. s_step; [exact Hset|]. s_step.
  eapply wp_mono; [apply del_loop|]. cbn beta. intros r st1 [-> Hv]. s_step. s_step. s_step.
  assert (∀ k, k ∈ String.append prefix <$> l ↔ ∃ h, h ∈ s ∧ k = prefix +:+ h) as Hl.
  { intros k. rewrite list_elem_of_fmap. setoid_rewrite H2. setoid_rewrite elem_of_elements. naive_solver. }
  apply HQ; intros k.
  - intros Hk. rewrite H3. destruct (decide (k = sessionKey)); [done|]. rewrite Hv.
    rewrite decide_True; [done|]. apply Hl. naive_solver.
  - intros Hk Hh. rewrite H3. rewrite decide_False by done. rewrite Hv.
    rewrite decide_False; [apply H1|]. rewrite Hl. naive_solver.
Qed.
End specs.
