(* ===== verification/TokenIndex.v ===== *)
(** * The index of a session's refresh tokens

    Every live refresh token of a session is listed in the session's index, and the
    index outlives it. The invariant is stated on what a client sees under each key and
    kept by every operation of the token service, whatever the network does. *)
From S2P Require Import Prelude GoTime Json Hash LuaPattern Redis World Cache TokenDomain Blacklist TokenService TokenSpecs.
Local Open Scope Z_scope.

Definition refreshKey (h : string) : string := "refresh_token:" +:+ h.

#[global] Arguments refreshKey : simpl never.

(** Records the service can store: text that JSON keeps, and a session identifier that
    is written without escapes (they are UUIDs). *)
Definition rt_ok (rt : RefreshToken) : bool := rt_wf rt && clean (rt_SessionID rt).

(** ** The session a script finds in a stored token is the token's session *)
Lemma script_session_rt rt d :
  rt_ok rt = true → marshal_rt rt = Ok d →
  script_session d = if decide (rt_SessionID rt = "") then None else Some (rt_SessionID rt).
Proof.
  unfold rt_ok. rewrite andb_true_iff. intros [_ Hsid]. unfold marshal_rt.
  destruct (two_times _ _) as [[e c]|]; [|done]. intros [= <-]. unfold script_session, rt_tail.
  case_decide as Hs.
  - rewrite Hs. rewrite match_str_none; [done..|].
    destruct rt as [tk a cl s sc ip ua ex cr]; cbn in *; subst. by destruct cl, sc, ip, ua.
  - assert (omit_str "session_id" (rt_SessionID rt) = [("session_id", JStr (rt_SessionID rt))]) as ->
      by (by destruct (rt_SessionID rt)).
    cbn [app].
    change (("account_id", JStr (rt_AccountID rt)) :: omit_str "client_id" (rt_ClientID rt) ++ ?l)
      with ((("account_id", JStr (rt_AccountID rt)) :: omit_str "client_id" (rt_ClientID rt)) ++ l).
    rewrite match_str_member; [|done|by destruct (rt_ClientID rt)|done].
    by rewrite bool_decide_false.
Qed.

(** ** The invariant *)
Section index.
Context (secs : Z).

(** [e], stored under the refresh token key of [h], is a token whose session lists [h]. *)
Definition token_indexed (now : Z) (V : string → option rentry) (h : string) (e : rentry) : Prop :=
  ∃ rt d x, e = Entry (RStr d) (Some x) ∧ marshal_rt rt = Ok d ∧ rt_ok rt = true ∧
    x <= now + secs * 1000 ∧
    (rt_SessionID rt ≠ "" → ∃ s y, V (buildSessionTokensKey (rt_SessionID rt)) = Some (Entry (RSet s) (Some y))
                                   ∧ h ∈ s ∧ x <= y).

Record indexed (now : Z) (V : string → option rentry) : Prop := {
  ix_sets sid : is_Some (set_of (V (buildSessionTokensKey sid)));
  ix_tokens h e : V (refreshKey h) = Some e → token_indexed now V h e;
}.

#[export] Instance indexed_proper now : Proper (pointwise_relation _ eq ==> iff) (indexed now).
Proof.
  assert (∀ V1 V2, pointwise_relation _ eq V1 V2 → indexed now V1 → indexed now V2) as Hone.
  { intros V1 V2 HV [Hs Ht]. split.
    - intros sid. by rewrite <-HV.
    - intros h e. rewrite <-HV. intros (rt&d&x&?&?&?&?&Hix)%Ht. exists rt, d, x.
      repeat split; try done. intros Hsid. destruct (Hix Hsid) as (s&y&?&?). exists s, y.
      by rewrite <-HV. }
  intros V1 V2 HV; split; apply Hone; [done|]. intros k. symmetry. apply HV.
Qed.

(** Time passes. *)
Lemma indexed_later now now' V :
  now <= now' → indexed now V → indexed now' (λ k, live now' (V k)).
Proof.
  intros Hle [Hs Ht]. split.
  - intros sid. destruct (Hs sid) as [s Hsid]. unfold live.
    destruct (V _) as [[v y]|]; [|by eexists]. destruct (alive _ _); by eexists.
  - intros h e He. unfold live in He. destruct (V (refreshKey h)) as [e0|] eqn:HV; [|done].
    destruct (alive now' e0) eqn:Hal; [|done]. simplify_eq.
    destruct (Ht _ _ HV) as (rt&d&x&->&?&?&?&Hix). exists rt, d, x.
    repeat split; try done; [lia|]. intros Hsid. destruct (Hix Hsid) as (s&y&Hv&Hin&Hxy).
    exists s, y. rewrite Hv. unfold alive in *; cbn in *.
    rewrite (proj2 (Z.ltb_lt now' y)) by lia. done.
Qed.

(** Keys of other components may change. *)
Lemma indexed_frame now V V' :
  (∀ sid, V' (buildSessionTokensKey sid) = V (buildSessionTokensKey sid)) →
  (∀ h, V' (refreshKey h) = V (refreshKey h)) →
  indexed now V → indexed now V'.
Proof.
  intros Hk1 Hk2 [Hs Ht]. split.
  - intros sid. by rewrite Hk1.
  - intros h e. rewrite Hk2. intros (rt&d&x&?&?&?&?&Hix)%Ht. exists rt, d, x.
    repeat split; try done. setoid_rewrite Hk1. done.
Qed.

(** A token is added, or overwritten, together with its index entry. *)
Lemma indexed_store now V V' h0 rt d :
  0 < secs → rt_ok rt = true → marshal_rt rt = Ok d →
  (∀ sid, sid ≠ rt_SessionID rt ∨ sid = "" →
          V' (buildSessionTokensKey sid) = V (buildSessionTokensKey sid)) →
  (∀ h, h ≠ h0 → V' (refreshKey h) = V (refreshKey h) ∨ V' (refreshKey h) = None) →
  V' (refreshKey h0) = Some (Entry (RStr d) (Some (now + secs * 1000))) →
  (rt_SessionID rt ≠ "" → ∃ s, V' (buildSessionTokensKey (rt_SessionID rt))
      = Some (Entry (RSet s) (Some (now + secs * 1000))) ∧ h0 ∈ s ∧
      (∀ h, V' (refreshKey h) ≠ None → h ∈ members_of (V (buildSessionTokensKey (rt_SessionID rt))) → h ∈ s)) →
  indexed now V → indexed now V'.
Proof.
  intros Hsecs Hok Hd Hsess Htok Hnew Hix [Hs Ht]. split.
  - intros sid. destruct (decide (sid = rt_SessionID rt ∧ sid ≠ "")) as [[-> Hne]|Hne].
    + destruct (Hix Hne) as (s&->&_). by eexists.
    + rewrite Hsess; [done|]. destruct (decide (sid = "")); naive_solver.
  - intros h e. destruct (decide (h = h0)) as [->|Hh].
    + rewrite Hnew. intros [= <-]. exists rt, d, (now + secs * 1000). repeat split; try done.
      intros Hne. destruct (Hix Hne) as (s&->&Hin&_). by exists s, (now + secs * 1000).
    + intros He. destruct (Htok _ Hh) as [Heq|Heq]; rewrite Heq in He; [|done].
      destruct (Ht _ _ He) as (rt'&d'&x&->&?&?&?&Hix'). exists rt', d', x. repeat split; try done.
      intros Hne. destruct (Hix' Hne) as (s'&y'&Hv'&Hin'&Hxy').
      destruct (decide (rt_SessionID rt' = rt_SessionID rt)) as [Hsame|Hdiff].
      * rewrite Hsame in *. destruct (Hix Hne) as (s&->&_&Hkeep). exists s, (now + secs * 1000).
        split; [done|]. split; [|done]. apply Hkeep; [by rewrite Heq, He|].
        unfold members_of. by rewrite Hv'.
      * rewrite Hsess by naive_solver. by exists s', y'.
Qed.

(** Tokens are removed; an index loses only hashes of removed tokens. *)
Lemma indexed_drop now V V' :
  (∀ h, V' (refreshKey h) = V (refreshKey h) ∨ V' (refreshKey h) = None) →
  (∀ sid, is_Some (set_of (V' (buildSessionTokensKey sid)))) →
  (∀ sid s y h, V (buildSessionTokensKey sid) = Some (Entry (RSet s) (Some y)) → h ∈ s →
      V' (refreshKey h) ≠ None →
      (∃ s', V' (buildSessionTokensKey sid) = Some (Entry (RSet s') (Some y)) ∧ h ∈ s')) →
  indexed now V → indexed now V'.
Proof.
  intros Htok Hsets Hix [Hs Ht]. split; [done|]. intros h e He.
  destruct (Htok h) as [Heq|Heq]; rewrite Heq in He; [|done].
  destruct (Ht _ _ He) as (rt'&d'&x&->&?&?&?&Hix'). exists rt', d', x. repeat split; try done.
  intros Hne. destruct (Hix' Hne) as (s'&y'&Hv'&Hin'&Hxy').
  destruct (Hix _ _ _ _ Hv' Hin') as (s''&?&?); [by rewrite Heq, He|]. by exists s'', y'.
Qed.
End index.

(** ** The effects of the scripts keep the invariant *)
Section effects.
Context (secs : Z) (Hsecs : 0 < secs).
Implicit Types (V : string → option rentry) (now : Z).

Lemma session_key_inj a b : buildSessionTokensKey a = buildSessionTokensKey b → a = b.
Proof. apply append_inj. Qed.
Lemma refresh_key_inj a b : refreshKey a = refreshKey b → a = b.
Proof. apply append_inj. Qed.

(** What [storeRefreshTokenScript] leaves behind. *)
Definition stored now V (rt : RefreshToken) (h d : string) (k : string) : option rentry :=
  if decide (rt_SessionID rt ≠ "" ∧ k = buildSessionTokensKey (rt_SessionID rt))
  then Some (Entry (RSet ({[h]} ∪ members_of (V (buildSessionTokensKey (rt_SessionID rt)))))
                   (Some (now + secs * 1000)))
  else if decide (k = refreshKey h) then Some (Entry (RStr d) (Some (now + secs * 1000)))
  else V k.

Lemma indexed_stored now V rt h d :
  rt_ok rt = true → marshal_rt rt = Ok d → indexed secs now V →
  indexed secs now (stored now V rt h d).
Proof using Hsecs.
  intros Hok Hd. apply (indexed_store secs now V _ h rt d); try done; unfold stored.
  - intros sid Hsid. rewrite decide_False; [by decide_keys|].
    intros [? Heq%session_key_inj]. naive_solver.
  - intros h' Hh. left. rewrite decide_False by naive_solver. rewrite decide_False; [done|].
    by intros ?%refresh_key_inj.
  - rewrite decide_False by naive_solver. by rewrite decide_True.
  - intros Hne. eexists. rewrite decide_True by done. split; [done|].
    rewrite elem_of_union, elem_of_singleton. split; [by left|]. intros h' _ Hin.
    rewrite elem_of_union. by right.
Qed.

Lemma indexed_rotated now V oldHash newHash rkh dOld eOld rtOld rtNew dNew rd rsecs :
  V (refreshKey oldHash) = Some (Entry (RStr dOld) eOld) →
  rt_ok rtOld = true → marshal_rt rtOld = Ok dOld →
  rt_ok rtNew = true → marshal_rt rtNew = Ok dNew → rt_SessionID rtNew = rt_SessionID rtOld →
  indexed secs now V →
  indexed secs now (rotated now V (refreshKey oldHash) (refreshKey newHash)
    (buildRefreshTokenReplayKey rkh) oldHash newHash sessionTokensKeyPrefix dOld dNew rd secs rsecs).
Proof using Hsecs.
  intros Hold Hokold Hdold Hok Hd Hsame.
  pose proof (script_session_rt _ _ Hokold Hdold) as Hscript. rewrite <-Hsame in Hscript.
  apply (indexed_store secs now V _ newHash rtNew dNew); try done; unfold rotated; rewrite Hscript.
  - intros sid Hsid. destruct (decide (rt_SessionID rtNew = "")).
    + by decide_keys.
    + rewrite decide_False; [by decide_keys|]. intros ?%append_inj. naive_solver.
  - intros h Hh.
    assert (refreshKey h ≠ refreshKey newHash) by (intros ?%refresh_key_inj; done).
    destruct (decide (h = oldHash)) as [->|Hne].
    + right. destruct (decide (rt_SessionID rtNew = "")); by decide_keys.
    + left. assert (refreshKey h ≠ refreshKey oldHash) by (intros ?%refresh_key_inj; done).
      destruct (decide (rt_SessionID rtNew = "")); by decide_keys.
  - destruct (decide (rt_SessionID rtNew = "")); by decide_keys.
  - intros Hne. rewrite !(decide_False (P := rt_SessionID rtNew = "")) by done. eexists.
    split; [by rewrite decide_True|]. rewrite !elem_of_union, !elem_of_singleton. split; [by left|].
    intros h Hh Hin. rewrite elem_of_union, elem_of_difference, !elem_of_singleton.
    destruct (decide (h = newHash)) as [->|Hnn]; [by left|].
    destruct (decide (h = oldHash)) as [->|Hno]; [|by right].
    exfalso. apply Hh. assert (refreshKey oldHash ≠ refreshKey newHash) by (intros ?%refresh_key_inj; done).
    by decide_keys.
Qed.

Lemma set_of_put_set s e : set_of (put_set s e) = Some s.
Proof. unfold put_set. case_decide; by subst. Qed.

Lemma indexed_consumed now V h d e :
  V (refreshKey h) = Some (Entry (RStr d) e) → indexed secs now V →
  indexed secs now (consumed now V (refreshKey h) sessionTokensKeyPrefix d h).
Proof.
  intros Hh HV. destruct (HV) as [Hs Ht].
  refine (indexed_drop secs now V _ _ _ _ HV); unfold consumed.
  - intros h'. destruct (script_session d); decide_keys; case_decide; auto.
  - intros sid. destruct (script_session d) as [sid'|]; [|by decide_keys].
    destruct (decide (_ = _)); [rewrite set_of_put_set; eauto|by decide_keys].
  - intros sid s y h' Hv Hin Hlive.
    assert (h' ≠ h) as Hne.
    { intros ->. apply Hlive. destruct (script_session d); by decide_keys. }
    destruct (script_session d) as [sid'|]; [|decide_keys; eauto].
    destruct (decide (buildSessionTokensKey sid = sessionTokensKeyPrefix +:+ sid')) as [Heq|];
      [|decide_keys; eauto].
    apply append_inj in Heq as ->. unfold members_of, buildSessionTokensKey in *. rewrite Hv. cbn.
    assert (h' ∈ s ∖ {[h]}) by (apply elem_of_difference; by rewrite elem_of_singleton).
    exists (s ∖ {[h]}). unfold put_set. rewrite decide_False; [done|]. intros Hemp.
    by apply (not_elem_of_empty (C := gset string) h'); rewrite <-Hemp.
Qed.

Lemma indexed_revoked now V V' sid s :
  set_of (V (buildSessionTokensKey sid)) = Some s →
  (∀ k, (k = buildSessionTokensKey sid ∨ ∃ h, h ∈ s ∧ k = refreshKey h) → V' k = None) →
  (∀ k, k ≠ buildSessionTokensKey sid → (∀ h, h ∈ s → k ≠ refreshKey h) → V' k = V k) →
  indexed secs now V → indexed secs now V'.
Proof.
  intros Hset Hgone Hkeep HV. pose proof HV as [Hs Ht].
  assert (∀ sid', sid' ≠ sid → V' (buildSessionTokensKey sid') = V (buildSessionTokensKey sid')) as Hother.
  { intros sid' Hne. apply Hkeep; [by intros ?%session_key_inj|done]. }
  apply (indexed_drop secs now V V'); [..|done].
  - intros h. destruct (decide (h ∈ s)); [right; apply Hgone; right; by exists h|left].
    apply Hkeep; [done|]. intros h' Hh' ->%refresh_key_inj. done.
  - intros sid'. destruct (decide (sid' = sid)) as [->|]; [rewrite Hgone by auto; by eexists|].
    by rewrite Hother.
  - intros sid' s' y h Hv Hin Hlive. destruct (decide (sid' = sid)) as [->|]; [|exists s'; by rewrite Hother].
    exfalso. rewrite Hv in Hset. cbn in Hset. injection Hset as <-. apply Hlive, Hgone. right. by exists h.
Qed.
End effects.
