(* ===== verification/TokenInv.v ===== *)
(** * The session index is kept by every operation of the token service *)
From S2P Require Import Prelude GoTime Json Hash LuaPattern Redis World Cache TokenDomain Blacklist TokenService TokenSpecs TokenIndex.
Local Open Scope Z_scope.

Section keeps.
Context {R : Type} `{RedisServer R} `{JwtLib} (cfg : TokenCfg).
Implicit Types (st : R) (w : World R).

Definition Inv w : Prop := indexed (refresh_secs cfg) (now_ms w) (view w).
Definition keeps {A} (m : M (World R) A) : Prop := ∀ w, Inv w → wp m (λ _ w', Inv w') w.
(** The same for a script on the server. *)
Definition script_keeps {A} (f : Z → M R A) : Prop := ∀ now st,
  indexed (refresh_secs cfg) now (r_view st now) →
  wp (f now) (λ _ st', indexed (refresh_secs cfg) now (r_view st' now)) st.

Lemma keeps_bind {A B} (m : M (World R) A) (k : A → M (World R) B) :
  keeps m → (∀ a, keeps (k a)) → keeps (bind m k).
Proof.
  intros Hm Hk w Hw. apply wp_bind. eapply wp_mono; [by apply Hm|].
  intros [a|e] w' Hw'; [by apply Hk|done].
Qed.
Lemma keeps_ret {A} (a : A) : keeps (ret a). Proof. by intros w. Qed.
Lemma keeps_fail {A} e : keeps (A := A) (fail e). Proof. by intros w. Qed.
Lemma keeps_lift_res {A} (r : res A) : keeps (lift_res r). Proof. by intros w. Qed.
Lemma keeps_gets {A} (f : World R → A) : keeps (gets f). Proof. by intros w. Qed.
Lemma keeps_guard_err b e : keeps (guard_err b e). Proof. intros w Hw. by apply wp_guard_err. Qed.
Lemma keeps_try {A} (m : M (World R) A) : keeps m → keeps (try m).
Proof. intros Hm w Hw. apply wp_try. by apply Hm. Qed.
Lemma keeps_wrap {A} c (m : M (World R) A) : keeps m → keeps (wrap c m).
Proof. intros Hm w Hw. apply wp_wrap. by apply Hm. Qed.
Lemma keeps_rand n : keeps (rand_read n).
Proof. intros w Hw. by apply wp_rand_read. Qed.
Lemma keeps_uuid : keeps uuid_new.
Proof. intros w Hw. unfold wp, uuid_new. by destruct (w_uuid w). Qed.
Lemma keeps_audit a : keeps (audit_log a).
Proof. intros w Hw. by apply wp_audit_log. Qed.
Lemma keeps_call {A} (f : Z → M R A) : script_keeps f → keeps (redis_call f).
Proof.
  intros Hf w Hw. apply wp_redis_call; [|done]. intros net.
  eapply wp_mono; [by apply Hf|]. done.
Qed.

Lemma indexed_same now st st' :
  same now st st' → indexed (refresh_secs cfg) now (r_view st now) →
  indexed (refresh_secs cfg) now (r_view st' now).
Proof. intros Hs. by rewrite (indexed_proper _ now (r_view st' now) (r_view st now) Hs). Qed.

(** A key of another component. *)
Lemma indexed_other now st st' k o :
  (∀ sid, k ≠ buildSessionTokensKey sid) → (∀ h, k ≠ refreshKey h) → updates now st st' k o →
  indexed (refresh_secs cfg) now (r_view st now) → indexed (refresh_secs cfg) now (r_view st' now).
Proof.
  intros H1 H2 Hu. apply indexed_frame.
  - intros sid. rewrite Hu, decide_False; [done|]. intros <-. by eapply H1.
  - intros h. rewrite Hu, decide_False; [done|]. intros <-. by eapply H2.
Qed.

Lemma Inv_quiet w w' : quiet w w' → Inv w → Inv w'.
Proof.
  intros (Ht&_&_&_&Hv). unfold Inv, now_ms. rewrite Ht.
  by rewrite (indexed_proper _ _ (view w') (view w) Hv).
Qed.

Lemma get_result_ok o d : get_result o (Ok d) → ∃ x, o = Some (Entry (RStr d) x).
Proof.
  unfold get_result, str_of. intros [Hr|]; [|done]. destruct o as [[[v|v|v] x]|]; naive_solver.
Qed.

Lemma keeps_Get k : keeps (Get k).
Proof.
  unfold Get, not_found_or. apply keeps_bind.
  - apply keeps_wrap, keeps_call. intros now st Hi. s_step. by eapply indexed_same.
  - intros [v|]; [apply keeps_ret|apply keeps_fail].
Qed.
End keeps.

Create HintDb keeps discriminated.
#[export] Hint Resolve keeps_ret keeps_fail keeps_lift_res keeps_gets keeps_guard_err keeps_rand
  keeps_uuid keeps_audit keeps_Get : keeps.
#[export] Hint Resolve keeps_bind keeps_try keeps_wrap : keeps.

(** Follow the structure of an operation. *)
Ltac keeps_tac :=
  repeat (cbn beta zeta;
    lazymatch goal with
    | |- keeps _ (bind _ _) => apply keeps_bind; [|intros ?]
    | |- keeps _ (try _) => apply keeps_try
    | |- keeps _ (wrap _ _) => apply keeps_wrap
    | |- keeps _ (let '(_, _) := ?x in _) => destruct x
    | |- keeps _ (match ?x with _ => _ end) => destruct x
    | |- keeps _ (if ?x then _ else _) => destruct x
    | |- keeps _ now => apply keeps_gets
    | |- keeps _ _ => solve [eauto with keeps]
    end).

Section operations.
Context {R : Type} `{RedisServer R} `{JwtLib} (cfg : TokenCfg).
Context (Hexp : 0 < tc_refreshExpiry cfg).
Implicit Types (st : R) (w : World R).

Lemma refresh_secs_pos : 0 < refresh_secs cfg.
Proof using Hexp. unfold refresh_secs, ceil_secs, second. div_lia. Qed.

(** The script of [GenerateRefreshToken]. *)
Lemma store_script_stored now rt d hash st (Q : res unit → R → Prop) :
  is_Some (set_of (r_view st now (buildSessionTokensKey (rt_SessionID rt)))) →
  (∀ st', (∀ k, r_view st' now k = stored (refresh_secs cfg) now (r_view st now) rt hash d k) → Q (Ok tt) st') →
  wp (storeRefreshTokenScript (refreshKey hash)
        (if bool_decide (rt_SessionID rt = "") then "" else buildSessionTokensKey (rt_SessionID rt))
        d (Z.max 1 (refresh_secs cfg)) hash now) Q st.
Proof using Hexp.
  pose proof refresh_secs_pos. intros [s Hs] HQ. rewrite Z.max_r by lia.
  case_bool_decide as Hsid.
  - unfold storeRefreshTokenScript. s_step. s_step. eval_tests. s_step. apply HQ. intros k.
    unfold stored. rewrite decide_False by naive_solver. apply H2.
  - eapply store_script_spec; [lia|done|exact Hs|]. intros st' Hst'. apply HQ. intros k. rewrite Hst'.
    unfold stored, members_of. rewrite Hs. cbn [default].
    destruct (decide (k = buildSessionTokensKey (rt_SessionID rt))).
    + by rewrite !decide_True by done.
    + by rewrite !(decide_False (P := _ ∧ _)) by naive_solver.
Qed.

Lemma keeps_GenerateRefreshToken ctx accountID clientID sessionID scope :
  forallb utf8_valid [accountID; clientID; scope; ctx_ip ctx; ctx_ua ctx] = true →
  clean sessionID = true →
  keeps cfg (GenerateRefreshToken cfg ctx accountID clientID sessionID scope).
Proof using Hexp.
  intros Hutf Hsid. unfold GenerateRefreshToken.
  intros w Hw. wp_step. wp_step. apply wp_rand_read; [done|]. intros b l _. cbn.
  wp_step. apply wp_gets. cbn. wp_step. apply wp_guard_err; [done|]. intros _.
  set (rt := mkRT _ _ _ _ _ _ _ _ _). wp_step. apply wp_lift_res.
  destruct (marshal_rt rt) as [d|] eqn:Hd; cbn; [|done].
  wp_step. wp_step. apply wp_redis_call; [|done]. intros net.
  change (buildRefreshTokenKey _) with (refreshKey (HashToken (rt_Token rt))).
  change sessionID with (rt_SessionID rt). apply store_script_stored; [apply Hw|].
  intros st' Hst'. split; cbn; try wp_step; unfold Inv, view; cbn.
  all: rewrite (indexed_proper _ _ _ _ Hst'). all: apply indexed_stored; [apply refresh_secs_pos| |done|exact Hw].
  all: unfold rt_ok, rt_wf; cbn [rt_Token rt_AccountID rt_ClientID rt_SessionID rt_Scope rt_IP rt_UserAgent rt].
  all: cbn [forallb] in *; rewrite !andb_true_iff in *.
  all: destruct Hutf as (?&?&?&?&?&_); repeat split; try done; apply clean_utf8; [|done].
  all: apply hex_encode_clean, rand_block_bytes.
Qed.

Lemma keeps_GetAccountRevokedAfter a : keeps cfg (GetAccountRevokedAfter a).
Proof. unfold GetAccountRevokedAfter. keeps_tac. Qed.
Lemma keeps_ValidateRefreshToken t : keeps cfg (ValidateRefreshToken t).
Proof. unfold ValidateRefreshToken. keeps_tac; apply keeps_GetAccountRevokedAfter. Qed.
Lemma keeps_replay k : keeps cfg (replay_or_not_found k).
Proof.
  unfold replay_or_not_found, getRefreshTokenReplay. keeps_tac; apply keeps_ValidateRefreshToken.
Qed.

(** The record a rotation creates. *)
Definition successor (t : Z) (newToken : string) (old : RefreshToken) : RefreshToken :=
  mkRT newToken (rt_AccountID old) (rt_ClientID old) (rt_SessionID old) (rt_Scope old)
    (rt_IP old) (rt_UserAgent old) (t + tc_refreshExpiry cfg) t.

(** What reading a stored token gives, and that its successor can be stored. *)
Lemma successor_ok t l old d rt :
  rt_ok old = true → marshal_rt old = Ok d → unmarshal_rt d = Some rt → Forall (λ x, x < 256)%N l →
  rt_SessionID rt = rt_SessionID old ∧ rt_ok (successor t (hex_encode l) rt) = true.
Proof.
  intros Hok Hd Hrt Hl. unfold rt_ok in *. rewrite andb_true_iff in Hok. destruct Hok as [Hwf Hc].
  rewrite (unmarshal_marshal_rt _ _ Hwf Hd) in Hrt. injection Hrt as <-. split; [done|].
  unfold successor, rt_wf in *. cbn [rt_Token rt_AccountID rt_ClientID rt_SessionID rt_Scope rt_IP rt_UserAgent].
  cbn [forallb] in *. rewrite !andb_true_iff in *. destruct Hwf as (?&?&?&?&?&?&?&?).
  repeat split; try done. apply clean_utf8. by apply hex_encode_clean.
Qed.

Lemma replay_secs_pos : 0 < ceil_secs refreshTokenReplayTTL.
Proof. reflexivity. Qed.

Lemma keeps_rotate_script oldHash newHash rtNew newData replayData now st :
  rt_ok rtNew = true → marshal_rt rtNew = Ok newData →
  (∀ d e, r_view st now (refreshKey oldHash) = Some (Entry (RStr d) e) →
     ∃ old, marshal_rt old = Ok d ∧ rt_ok old = true ∧ rt_SessionID rtNew = rt_SessionID old) →
  indexed (refresh_secs cfg) now (r_view st now) →
  wp (rotateTokenScript (refreshKey oldHash) (refreshKey newHash) (buildRefreshTokenReplayKey oldHash)
        oldHash newHash sessionTokensKeyPrefix (refresh_secs cfg) newData replayData
        (ceil_secs refreshTokenReplayTTL) now)
     (λ _ st', indexed (refresh_secs cfg) now (r_view st' now)) st.
Proof using Hexp.
  intros Hok Hnew Hold Hi.
  destruct (r_view st now (refreshKey oldHash)) as [e|] eqn:He.
  - destruct (ix_tokens _ _ _ Hi _ _ He) as (rt0&d&x&->&Hd0&Hok0&_).
    destruct (Hold _ _ eq_refl) as (old&Hd&Hokold&Hsid).
    eapply rotate_script_spec; [apply refresh_secs_pos|apply replay_secs_pos|exact He| | |].
    + intros sid. by repeat split.
    + apply Hi.
    + intros st' Hst'. rewrite (indexed_proper _ _ _ _ Hst').
      eapply indexed_rotated; [apply refresh_secs_pos|exact He|exact Hokold|exact Hd|exact Hok|exact Hnew|exact Hsid|exact Hi].
  - apply rotate_script_missing; [done|]. intros st' Hs. by eapply indexed_same.
Qed.

Lemma keeps_RotateRefreshToken ctx oldToken : keeps cfg (RotateRefreshToken cfg ctx oldToken).
Proof using Hexp.
  unfold RotateRefreshToken. intros w Hw. wp_step. wp_step. apply wp_rand_read; [done|]. intros b l _. cbn.
  set (w1 := mkWorld _ _ _ _ _ _). assert (Inv cfg w1) as Hw1 by exact Hw. clearbody w1. clear w Hw.
  change (buildRefreshTokenKey oldToken) with (refreshKey (HashToken oldToken)).
  wp_step. wp_step. apply wp_Get_any. intros r w2 Hq Hr. pose proof (Inv_quiet _ _ _ Hq Hw1) as Hw2.
  destruct r as [d|e]; [|case_match; [by apply keeps_replay|done]].
  destruct (unmarshal_rt d) as [rt|] eqn:Hrt; [|done].
  wp_step. apply wp_gets. wp_step. wp_step.
  destruct (NewRefreshToken _ _ _ _) as [nrt|] eqn:Hn; cbn; [|done].
  assert (mkRT (rt_Token nrt) (rt_AccountID nrt) (rt_ClientID rt) (rt_SessionID rt) (rt_Scope rt) (rt_IP rt)
            (rt_UserAgent rt) (rt_ExpiresAt nrt) (rt_CreatedAt nrt)
          = successor (w_now w2) (hex_encode (rand_block refreshTokenLength b)) rt) as Hsucc.
  { unfold NewRefreshToken in Hn. repeat case_bool_decide; try done. destruct (IsZero _); [done|].
    by injection Hn as <-. }
  rewrite Hsucc. clear Hn Hsucc nrt. wp_step. wp_step.
  destruct (marshal_rt (successor _ _ _)) as [newData|] eqn:Hnd; cbn; [|done].
  wp_step. wp_step. destruct (marshal_replay _) as [replayData|]; cbn; [|done].
  destruct (get_result_ok _ _ Hr) as [x Hx]. destruct Hq as (_&_&_&_&Hview). rewrite <-Hview in Hx.
  destruct (ix_tokens _ _ _ Hw2 _ _ Hx) as (old&d'&x'&[= <- ->]&Hd&Hok&_).
  destruct (successor_ok (w_now w2) (rand_block refreshTokenLength b) _ _ _ Hok Hd Hrt) as [Hsid Hoksucc];
    [apply rand_block_bytes|].
  wp_step. wp_step. apply wp_redis_call; [|intros; by apply keeps_replay].
  intros net'. eapply wp_mono; [eapply keeps_rotate_script; [done|done| |done]|].
  { intros d0 e0. unfold view in Hx. rewrite Hx. intros [= <- <-]. by exists old. }
  intros r st' Hi. cbn beta. split; [|by apply keeps_replay].
  destruct r as [[resultData|]|e]; [|by apply keeps_replay..].
  assert (Inv cfg (put_net net' (put_redis st' w2))) as Hend by exact Hi.
  revert Hend. generalize (put_net net' (put_redis st' w2)). 
  match goal with |- ∀ w, _ → wp ?m _ w => enough (keeps cfg m) as Hk by (intros; by apply Hk) end.
  keeps_tac.
Qed.

Lemma keeps_RevokeRefreshToken ctx token : keeps cfg (RevokeRefreshToken ctx token).
Proof.
  unfold RevokeRefreshToken. keeps_tac. apply keeps_call. intros now st Hi.
  change (buildRefreshTokenKey token) with (refreshKey (HashToken token)).
  destruct (r_view st now (refreshKey (HashToken token))) as [e|] eqn:He.
  - destruct (ix_tokens _ _ _ Hi _ _ He) as (rt&d&x&->&_).
    eapply delete_script_spec; [exact He|done|apply Hi|]. intros st' Hst'.
    rewrite (indexed_proper _ _ _ _ Hst'). by eapply indexed_consumed.
  - apply delete_script_missing; [done|]. intros st' Hs. by eapply indexed_same.
Qed.

Lemma keeps_RevokeAllForSession ctx sid : keeps cfg (RevokeAllForSession ctx sid).
Proof.
  unfold RevokeAllForSession. keeps_tac. apply keeps_call. intros now st Hi.
  destruct (ix_sets _ _ _ Hi sid) as [s Hs].
  eapply revoke_all_spec; [exact Hs|]. intros st' n Hgone Hkeep. by eapply indexed_revoked.
Qed.

(** Writing a key of another component. *)
Lemma keeps_s_set k v px : (∀ sid, k ≠ buildSessionTokensKey sid) → (∀ h, k ≠ refreshKey h) →
  script_keeps cfg (λ now, s_set now k v px).
Proof.
  intros H1 H2 now st Hi. destruct px as [px|]; [destruct (decide (0 < px))|].
  - s_step. by eapply indexed_other.
  - apply wp_s_set_bad; [lia|]. intros e st' Hs. by eapply indexed_same.
  - s_step. by eapply indexed_other.
Qed.

Lemma keeps_RevokeAccessToken jti e : keeps cfg (RevokeAccessToken jti e).
Proof.
  unfold RevokeAccessToken, RevokeToken, Set_. keeps_tac. by apply keeps_call, keeps_s_set.
Qed.

Lemma keeps_RevokeAccountTokens ctx a : keeps cfg (RevokeAccountTokens cfg ctx a).
Proof.
  unfold RevokeAccountTokens, SetAccountRevokedAfter. keeps_tac. apply keeps_call. intros now st Hi.
  unfold setAccountRevokedAfterScript. s_step. s_step. rename H1 into Hs.
  apply (indexed_same cfg) in Hs; [|done].
  assert (∀ k : bool, wp (if k then ret 0 else s_set now (buildAccountRevokedAfterKey a)
            (dec (Unix a0)) (Some (trunc_secs ((tc_accessExpiry cfg * 2) `max` MinAccountRevocationTTL) * 1000)) ;; ret 1)
            (λ _ st', indexed (refresh_secs cfg) now (r_view st' now)) st') as Hset.
  { intros [|]; [by s_step|]. s_step. eapply wp_mono; [by apply keeps_s_set|].
    intros [] st2 Hst2; [by s_step|done]. }
  destruct (str_of _) as [[v|]|e]; [s_step|s_step; s_step; apply (Hset false)|done].
  destruct (parse_int v); s_step; [apply Hset|done].
Qed.

Lemma keeps_ValidateAccessToken t : keeps cfg (ValidateAccessTokenWithContext cfg t).
Proof.
  unfold ValidateAccessTokenWithContext, CheckTokenAndAccountRevocation. keeps_tac.
  all: apply keeps_call; intros now st Hi; unfold revocationPipeline; s_step; s_step; s_step.
  all: rename H1 into Hs; apply (indexed_same cfg) in Hs; [|done].
  all: case_bool_decide; s_step; [by s_step|].
  all: rename H2 into Hs'; apply (indexed_same cfg) in Hs'; [|done].
  all: destruct (str_of _); [by s_step|done].
Qed.
End operations.
