(* ===== verification/TokenProps.v ===== *)
(** * What the token service guarantees *)
From S2P Require Import Prelude GoTime Json Hash LuaPattern Redis World Cache TokenDomain Blacklist TokenService TokenSpecs TokenIndex TokenInv.
Local Open Scope Z_scope.

(** ** Runs of the service

    Any sequence of operations, by any callers, with time passing and the network
    changing between them. *)
Section runs.
Context {R : Type} `{RedisServer R} `{JwtLib} (cfg : TokenCfg).
Implicit Types w : World R.

Inductive step : World R → World R → Prop :=
  | step_generate ctx accountID clientID sessionID scope w :
      forallb utf8_valid [accountID; clientID; scope; ctx_ip ctx; ctx_ua ctx] = true →
      clean sessionID = true →
      step w (GenerateRefreshToken cfg ctx accountID clientID sessionID scope w).2
  | step_validate token w : step w (ValidateRefreshToken token w).2
  | step_validate_access token w : step w (ValidateAccessTokenWithContext cfg token w).2
  | step_rotate ctx token w : step w (RotateRefreshToken cfg ctx token w).2
  | step_revoke ctx token w : step w (RevokeRefreshToken ctx token w).2
  | step_revoke_session ctx sid w : step w (RevokeAllForSession ctx sid w).2
  | step_revoke_access jti exp w : step w (RevokeAccessToken jti exp w).2
  | step_revoke_account ctx a w : step w (RevokeAccountTokens cfg ctx a w).2
  | step_time d w : 0 <= d → step w (tick d w)
  | step_network net w : step w (put_net net w).

Context (Hexp : 0 < tc_refreshExpiry cfg).

Lemma Inv_tick d w : 0 <= d → Inv cfg w → Inv cfg (tick d w).
Proof.
  intros Hd Hw. unfold Inv.
  assert (now_ms w <= now_ms (tick d w)) as Hle by (unfold now_ms, tick, millisecond; cbn; div_lia).
  rewrite (indexed_proper _ _ (view (tick d w)) (λ k, live (now_ms (tick d w)) (view w k))).
  - by apply (indexed_later _ (now_ms w)).
  - intros k. by apply r_view_later.
Qed.

Lemma step_Inv w w' : step w w' → Inv cfg w → Inv cfg w'.
Proof using Hexp.
  assert (∀ A (m : M (World R) A) w, keeps cfg m → Inv cfg w → Inv cfg (m w).2) as Hk
    by (intros A m w0 Hm; exact (Hm w0)).
  intros []; intros Hw; eauto using Inv_tick; apply Hk; eauto using keeps_GenerateRefreshToken,
    keeps_ValidateRefreshToken, keeps_ValidateAccessToken, keeps_RotateRefreshToken,
    keeps_RevokeRefreshToken, keeps_RevokeAllForSession, keeps_RevokeAccessToken, keeps_RevokeAccountTokens.
Qed.

Lemma reachable_Inv w0 w : (∀ k, view w0 k = None) → rtc step w0 w → Inv cfg w.
Proof using Hexp.
  intros H0k. assert (Inv cfg w0) as Hw0.
  { split; intros; rewrite H0k in *; [by eexists|done]. }
  clear H0k. induction 1; eauto using step_Inv.
Qed.

Lemma revoke_session_effect ctx sid w w' :
  Inv cfg w → RevokeAllForSession ctx sid w = (Ok tt, w') →
  Inv cfg w' ∧ view w' (buildSessionTokensKey sid) = None.
Proof.
  intros Hw Heq. pose proof (keeps_RevokeAllForSession cfg ctx sid w Hw) as Hkeep.
  apply (wp_intro _ _ _ _ _ Heq) in Hkeep. split; [exact Hkeep|].
  enough (wp (RevokeAllForSession ctx sid)
            (λ r w', r = Ok tt → view w' (buildSessionTokensKey sid) = None) w) as Hwp
    by by apply (wp_intro _ _ _ _ _ Heq) in Hwp; apply Hwp.
  destruct (ix_sets _ _ _ Hw sid) as [s Hs].
  unfold RevokeAllForSession. wp_step. wp_step. apply wp_redis_call; [|done]. intros net.
  eapply revoke_all_spec; [exact Hs|]. intros st' n Hgone _. cbn.
  split; [|done]. apply wp_audit_log. intros _. apply Hgone. auto.
Qed.

(** The account's revocation time as the service reads it. *)
Definition revoked_after w (a : string) : res Z :=
  match str_of (view w (buildAccountRevokedAfterKey a)) with
  | Ok None => Ok zero_time
  | Ok (Some v) => parse_revoked_after v
  | Err e => Err (Wrap "get account revoked after" (Wrap "get" e))
  end.

Lemma wp_revoked_after a (Q : res Z → World R → Prop) w :
  (∀ w', quiet w w' → Q (revoked_after w a) w') → (∀ e w', quiet w w' → Q (Err e) w') →
  wp (GetAccountRevokedAfter a) Q w.
Proof.
  intros HQ HE. unfold GetAccountRevokedAfter. wp_step. wp_step. apply wp_Get_any.
  intros r w' Hq [->| ->]; [|cbn; wp_step; by apply HE]. specialize (HQ _ Hq). unfold revoked_after in HQ.
  destruct (str_of _) as [[v|]|e] eqn:Hstr; cbn; [by wp_step|eval_tests; by wp_step|].
  assert (errors_is e ErrKeyNotFound = false) as ->; [|by wp_step].
  unfold str_of in Hstr. repeat case_match; by simplify_eq.
Qed.

(** What a successful validation says about the store. *)
Definition refresh_accepted w (token : string) (rt : RefreshToken) : Prop :=
  (∃ d x, view w (buildRefreshTokenKey token) = Some (Entry (RStr d) x) ∧ unmarshal_rt d = Some rt) ∧
  w_now w <= rt_ExpiresAt rt ∧
  (rt_AccountID rt ≠ "" → ∃ ra, revoked_after w (rt_AccountID rt) = Ok ra ∧
                                (IsZero ra = true ∨ ra <= rt_CreatedAt rt)).

Lemma revoked_after_quiet w w' a : quiet w w' → revoked_after w' a = revoked_after w a.
Proof. intros (_&_&_&_&Hk). unfold revoked_after. by rewrite Hk. Qed.

Lemma validate_accepts token w :
  wp (ValidateRefreshToken token) (λ r _, ∀ rt, r = Ok rt → refresh_accepted w token rt) w.
Proof.
  unfold ValidateRefreshToken. wp_step. wp_step. apply wp_Get_any. intros r w1 Hq Hr.
  destruct r as [d|e]; [|by case_match; wp_step].
  destruct (get_result_ok _ _ Hr) as [x Hx].
  destruct (unmarshal_rt d) as [rt|] eqn:Hd; [|by wp_step].
  wp_step. apply wp_gets. wp_step. apply wp_guard_err; [done|].
  rewrite orb_false_iff, Z.ltb_ge, (proj1 Hq). intros [_ Hexp'].
  case_bool_decide as Ha; [wp_step; intros ? [= <-]; split_and!; [eauto|done|done]|].
  wp_step. wp_step. apply wp_revoked_after; [|intros; by wp_step]. intros w2 _.
  rewrite (revoked_after_quiet _ _ _ Hq). destruct (revoked_after w _) as [ra|] eqn:Hra; [|by wp_step].
  wp_step. apply wp_guard_err; [done|]. rewrite andb_false_iff, negb_false_iff, Z.ltb_ge. intros Hc.
  wp_step. intros ? [= <-]. split_and!; eauto.
Qed.

Lemma validate_reads token w rt w' :
  ValidateRefreshToken token w = (Ok rt, w') → refresh_accepted w token rt.
Proof. intros Heq. by apply (wp_intro _ _ _ _ _ Heq (validate_accepts token w)). Qed.
End runs.

Section session_revocation.
Context {R : Type} `{RedisServer R} `{JwtLib} (cfg : TokenCfg).
Implicit Types w : World R.

(** C25: in every state the service can reach from an empty store, whatever operations
    ran and whatever the network did to them, every live refresh token of a session is
    listed in the session's index, which lives at least as long as the token. *)
Theorem live_tokens_are_indexed w0 w h e :
  0 < tc_refreshExpiry cfg → (∀ k, view w0 k = None) → rtc (step cfg) w0 w →
  view w (refreshKey h) = Some e → token_indexed (refresh_secs cfg) (now_ms w) (view w) h e.
Proof. intros Hexp Hempty Hrun. by apply (reachable_Inv cfg Hexp w0 w Hempty Hrun). Qed.

(** C24: once [RevokeAllForSession] reports success, no refresh token of that session
    validates, in any reachable state and under any later network behaviour. *)
Theorem revoked_session_has_no_token ctx sid w0 w w' net token rt w'' :
  0 < tc_refreshExpiry cfg → (∀ k, view w0 k = None) → rtc (step cfg) w0 w → sid ≠ "" →
  RevokeAllForSession ctx sid w = (Ok tt, w') →
  ValidateRefreshToken token (put_net net w') = (Ok rt, w'') → rt_SessionID rt ≠ sid.
Proof.
  intros Hexp Hempty Hrun Hne Hrev Hval Hsid. subst sid.
  destruct (revoke_session_effect cfg ctx _ w w' (reachable_Inv cfg Hexp w0 w Hempty Hrun) Hrev)
    as [Hinv Hgone].
  destruct (validate_reads _ _ _ _ Hval) as [(d&x&Hv&Hd) _].
  destruct (ix_tokens _ _ _ Hinv _ _ Hv) as (old&d'&x'&[= <- ->]&Hm&Hok&_&Hix).
  unfold rt_ok in Hok. apply andb_true_iff in Hok as [Hwf _].
  rewrite (unmarshal_marshal_rt _ _ Hwf Hm) in Hd. injection Hd as <-. cbn in *.
  destruct (Hix Hne) as (s&y&Hs&_). by rewrite Hgone in Hs.
Qed.
End session_revocation.

(** ** Rotation *)
Section rotation.
Context {R : Type} `{RedisServer R} `{JwtLib} (cfg : TokenCfg).
Implicit Types w : World R.

Lemma get_account_revoked_after a w : w_net w = [] → 
  ∃ w', GetAccountRevokedAfter a w = (revoked_after w a, w') ∧ quiet w w' ∧ w_net w' = [].
Proof.
  intros Hn. assert (wp (GetAccountRevokedAfter a) (λ r w', r = revoked_after w a ∧ quiet w w' ∧ w_net w' = []) w) as Hwp.
  { unfold GetAccountRevokedAfter. wp_step. wp_step. apply wp_Get; [done|]. intros st' Hs.
    unfold revoked_after. pose proof (quiet_redis [] _ _ Hs) as Hq.
    assert (put_redis st' w = put_net [] (put_redis st' w)) as -> by (destruct w; cbn in *; by subst).
    destruct (str_of _) as [[v|]|e] eqn:Hstr; cbn; eval_tests; try by wp_step.
    assert (errors_is e ErrKeyNotFound = false) as ->; [|by wp_step].
    unfold str_of in Hstr. repeat case_match; by simplify_eq. }
  destruct (wp_eq _ _ _ Hwp) as (r&w'&->&->&?&?). eauto.
Qed.

(** A stored, unexpired token of an account not revoked since validates. *)
Lemma validate_live token w d x rt ra :
  w_net w = [] → view w (buildRefreshTokenKey token) = Some (Entry (RStr d) x) →
  unmarshal_rt d = Some rt → IsZero (rt_ExpiresAt rt) = false → w_now w <= rt_ExpiresAt rt →
  revoked_after w (rt_AccountID rt) = Ok ra → (IsZero ra = true ∨ ra <= rt_CreatedAt rt) →
  ∃ w', ValidateRefreshToken token w = (Ok rt, w') ∧ quiet w w' ∧ w_net w' = [].
Proof.
  intros Hn Hv Hd Hz He Hra Hc.
  assert (wp (ValidateRefreshToken token) (λ r w', r = Ok rt ∧ quiet w w' ∧ w_net w' = []) w) as Hwp.
  { unfold ValidateRefreshToken. wp_step. wp_step. apply wp_Get; [done|]. intros st' Hs.
    pose proof (quiet_redis [] _ _ Hs) as Hq.
    assert (put_redis st' w = put_net [] (put_redis st' w)) as -> by (destruct w; cbn in *; by subst).
    rewrite Hv. cbn [str_of]. rewrite Hd. wp_step. apply wp_gets. wp_step.
    rewrite Hz. cbn [w_now put_net put_redis]. rewrite (proj2 (Z.ltb_ge _ _) He). cbn [orb].
    set (w1 := put_net _ _) in *.
    unfold guard_err. wp_step. case_bool_decide; [by wp_step|]. wp_step. wp_step.
    destruct (get_account_revoked_after (rt_AccountID rt) w1) as (w2&Hg&Hq2&Hn2); [done|].
    unfold wp at 1. rewrite Hg. cbn [fst snd].
    assert (revoked_after w1 (rt_AccountID rt) = Ok ra) as ->.
    { unfold revoked_after in *. by rewrite (proj2 (proj2 (proj2 (proj2 Hq)))). }
    assert (negb (IsZero ra) && (rt_CreatedAt rt <? ra) = false) as ->.
    { destruct Hc as [->|]; [done|]. rewrite (proj2 (Z.ltb_ge _ _)) by done. apply andb_false_r. }
    wp_step. wp_step. wp_step. eauto using quiet_trans. }
  destruct (wp_eq _ _ _ Hwp) as (r&w'&->&->&?&?). eauto.
Qed.

(** A record with writable times is written. *)
Lemma marshals rt :
  0 <= year_of (rt_ExpiresAt rt) <= 9999 → 0 <= year_of (rt_CreatedAt rt) <= 9999 →
  (∃ d, marshal_rt rt = Ok d) ∧ (∃ d, marshal_replay rt = Ok d).
Proof.
  intros He Hc. unfold marshal_rt, marshal_replay, two_times, marshal_time.
  rewrite !(proj2 (andb_true_iff _ _)) by (rewrite !Z.leb_le; lia). eauto.
Qed.

(** The replay record of a rotation is read back. *)
Lemma parse_replay rt rd :
  rt_wf rt = true → marshal_replay rt = Ok rd → rt_Token rt ≠ "" → rt_AccountID rt ≠ "" →
  IsZero (rt_ExpiresAt rt) = false → parseRefreshTokenReplay rd = Ok rt.
Proof.
  intros Hwf Hrd Ht Ha Hz. unfold parseRefreshTokenReplay.
  rewrite (unmarshal_marshal_replay _ _ Hwf Hrd). eval_tests. by rewrite Hz.
Qed.

Definition rotation_audit (ctx : Ctx) (oldToken : string) (rt : RefreshToken) : audit :=
  Audit ActionTokenRotate (Some (rt_AccountID rt))
    [("session_id", rt_SessionID rt); ("old_token", HashToken oldToken);
     ("new_token", HashToken (rt_Token rt)); ("ip", ctx_ip ctx); ("user_agent", ctx_ua ctx)].

Context (Hexp : 0 < tc_refreshExpiry cfg).

Lemma not_zero_time t : 0 <= t → IsZero t = false.
Proof. intros Ht. unfold IsZero. apply bool_decide_eq_false. unfold zero_time, second. lia. Qed.

Lemma new_token_succ t l old : rt_AccountID old ≠ "" → 0 <= t →
  let new := hex_encode (rand_block refreshTokenLength l) in
  NewRefreshToken t new (rt_AccountID old) (t + tc_refreshExpiry cfg)
  = Ok (mkRT new (rt_AccountID old) "" "" "" "" "" (t + tc_refreshExpiry cfg) t).
Proof using Hexp.
  intros Ha Ht new. unfold NewRefreshToken.
  assert (new ≠ "") by (apply hex_encode_nonempty; intros He%(f_equal length);
                        by rewrite rand_block_length in He).
  eval_tests. by rewrite not_zero_time by lia.
Qed.

Lemma rotate_effect ctx oldToken w b l d x old :
  let new := hex_encode (rand_block refreshTokenLength b) in
  let rt := successor cfg (w_now w) new old in
  w_net w = [] → Inv cfg w → 0 <= w_now w →
  0 <= year_of (rt_ExpiresAt rt) <= 9999 → 0 <= year_of (rt_CreatedAt rt) <= 9999 →
  w_rand w = b :: l →
  view w (buildRefreshTokenKey oldToken) = Some (Entry (RStr d) x) →
  unmarshal_rt d = Some old → rt_AccountID old ≠ "" →
  ∃ w' nd rd, RotateRefreshToken cfg ctx oldToken w = (Ok rt, w') ∧
    marshal_rt rt = Ok nd ∧ marshal_replay rt = Ok rd ∧ rt_ok rt = true ∧
    w_now w' = w_now w ∧ w_net w' = [] ∧ w_rand w' = l ∧
    w_audit w' = w_audit w ++ [rotation_audit ctx oldToken rt] ∧
    ∀ k, view w' k = rotated (now_ms w) (view w) (buildRefreshTokenKey oldToken) (buildRefreshTokenKey new)
           (buildRefreshTokenReplayKey (HashToken oldToken)) (HashToken oldToken) (HashToken new)
           sessionTokensKeyPrefix d nd rd (refresh_secs cfg) (ceil_secs refreshTokenReplayTTL) k.
Proof using Hexp.
  intros new rt Hn Hw Ht Hye Hyc Hr Hv Hd Ha.
  destruct (marshals rt Hye Hyc) as [[nd Hnd] [rd Hrd]].
  destruct (ix_tokens _ _ _ Hw _ _ Hv) as (old0&d'&x'&[= <- ->]&Hm&Hok&_).
  destruct (successor_ok cfg (w_now w) (rand_block refreshTokenLength b) _ _ _ Hok Hm Hd) as [Hsid Hoks];
    [apply rand_block_bytes|].
  assert (parseRefreshTokenReplay rd = Ok rt) as Hparse.
  { apply parse_replay; try done; [by apply andb_true_iff in Hoks as [? _]| |apply not_zero_time; cbn; lia].
    apply hex_encode_nonempty. intros He%(f_equal length). by rewrite rand_block_length in He. }
  assert (wp (RotateRefreshToken cfg ctx oldToken) (λ r w', r = Ok rt ∧
    w_now w' = w_now w ∧ w_net w' = [] ∧ w_rand w' = l ∧
    w_audit w' = w_audit w ++ [rotation_audit ctx oldToken rt] ∧
    ∀ k, view w' k = rotated (now_ms w) (view w) (buildRefreshTokenKey oldToken) (buildRefreshTokenKey new)
           (buildRefreshTokenReplayKey (HashToken oldToken)) (HashToken oldToken) (HashToken new)
           sessionTokensKeyPrefix d nd rd (refresh_secs cfg) (ceil_secs refreshTokenReplayTTL) k) w) as Hwp;
    [|destruct (wp_eq _ _ _ Hwp) as (r&w'&->&->&?&?&?&?&?); by exists w', nd, rd].
  unfold RotateRefreshToken. wp_step. wp_step. apply wp_rand_read; [by rewrite Hr|].
  intros b' l' Hr'. rewrite Hr in Hr'. injection Hr' as <- <-. cbn [wrap_res].
  wp_step. wp_step. apply wp_Get; [done|]. intros st1 Hs1. cbn [w_redis] in Hs1.
  unfold view at 1. cbn [w_redis]. change (now_ms (mkWorld _ _ _ _ _ _)) with (now_ms w).
  fold (view w (buildRefreshTokenKey oldToken)). rewrite Hv. cbn [str_of]. rewrite Hd.
  wp_step. apply wp_gets. cbn [w_now put_redis]. wp_step. wp_step. fold new.
  pose proof (new_token_succ (w_now w) b old Ha Ht) as Hnew. cbv zeta in Hnew. fold new in Hnew.
  rewrite Hnew. clear Hnew. cbn [wrap_res rt_Token rt_AccountID rt_ExpiresAt rt_CreatedAt].
  change (mkRT _ _ _ _ _ _ _ _ _) with rt. rewrite Hnd, Hrd. cbn [wrap_res].
  wp_step. wp_step. wp_step. wp_step. wp_step. wp_step. apply wp_redis_call_up; [done|].
  eapply rotate_script_spec; [by apply refresh_secs_pos|apply replay_secs_pos| | | |].
  { cbn. rewrite (Hs1 _). exact Hv. }
  { intros sid. by repeat split. }
  { intros sid. cbn. rewrite (Hs1 _). apply Hw. }
  intros st2 Hst2. cbn beta iota. wp_step. wp_step. rewrite Hparse. wp_step. apply wp_audit_log.
  wp_step. split_and!; try done. intros k. transitivity (r_view st2 (now_ms w) k); [done|].
  etransitivity; [exact (Hst2 k)|]. cbn [w_redis put_redis]. unfold rotated, view.
  destruct (script_session d); by repeat case_decide; rewrite ?(Hs1 _).
Qed.

(** ** Replaying a consumed token *)
Lemma view_tick w δ k : 0 <= δ → view (tick δ w) k = live (now_ms (tick δ w)) (view w k).
Proof. intros Hδ. apply r_view_later. unfold now_ms, tick, millisecond; cbn. div_lia. Qed.

(** With the token gone, rotation is the replay path. *)
Lemma rotate_gone ctx token w :
  w_net w = [] → view w (buildRefreshTokenKey token) = None → w_rand w ≠ [] →
  ∃ w1, RotateRefreshToken cfg ctx token w = replay_or_not_found (buildRefreshTokenReplayKey (HashToken token)) w1
    ∧ w_net w1 = [] ∧ w_now w1 = w_now w ∧ w_audit w1 = w_audit w ∧ ∀ k, view w1 k = view w k.
Proof.
  intros Hn Hv Hr. destruct (w_rand w) as [|b l] eqn:Hw; [done|].
  set (w0 := mkWorld (w_redis w) (w_now w) (w_net w) l (w_uuid w) (w_audit w)).
  assert (wp (Get (buildRefreshTokenKey token)) (λ r w1, r = Err ErrKeyNotFound ∧ quiet w0 w1 ∧ w_net w1 = []) w0) as Hget.
  { apply wp_Get; [done|]. intros st' Hs. replace (view w0 _) with (view w (buildRefreshTokenKey token)) by done.
    rewrite Hv. split; [done|]. split; [|done]. by repeat split. }
  destruct (wp_eq _ _ _ Hget) as (r&w1&Heq&->&Hq&Hn1). exists w1.
  destruct Hq as (?&?&?&?&Hk). split; [|by split_and!].
  unfold RotateRefreshToken, bind, wrap, try. unfold rand_read. rewrite Hw. cbn [wrap_res].
  change (mkWorld _ _ _ _ _ _) with w0. by rewrite Heq.
Qed.

Lemma replay_found key w rd rt x nd y ra :
  w_net w = [] → view w key = Some (Entry (RStr rd) x) → parseRefreshTokenReplay rd = Ok rt →
  view w (buildRefreshTokenKey (rt_Token rt)) = Some (Entry (RStr nd) y) →
  (∃ tk, unmarshal_rt nd = Some (mkRT tk (rt_AccountID rt) (rt_ClientID rt) (rt_SessionID rt)
      (rt_Scope rt) (rt_IP rt) (rt_UserAgent rt) (rt_ExpiresAt rt) (rt_CreatedAt rt))) →
  IsZero (rt_ExpiresAt rt) = false → w_now w <= rt_ExpiresAt rt →
  revoked_after w (rt_AccountID rt) = Ok ra → (IsZero ra = true ∨ ra <= rt_CreatedAt rt) →
  ∃ w', replay_or_not_found key w = (Ok rt, w') ∧ quiet w w'.
Proof.
  intros Hn Hv Hp Hv2 [tk Hu] Hz He Hra Hc.
  assert (wp (Get key) (λ r w1, r = Ok rd ∧ quiet w w1 ∧ w_net w1 = []) w) as Hget.
  { apply wp_Get; [done|]. intros st' Hs. rewrite Hv. split; [done|]. split; [|done]. by repeat split. }
  destruct (wp_eq _ _ _ Hget) as (r&w1&Heq&->&Hq&Hn1). clear Hget.
  pose proof Hq as (Hnow&_&_&_&Hk).
  destruct (validate_live (rt_Token rt) w1 nd y _ ra Hn1 ltac:(by rewrite Hk) Hu) as (w2&Hval&Hq2&_); try done.
  { cbn. by rewrite Hnow. }
  { unfold revoked_after in *. cbn. by rewrite Hk. }
  exists w2. split; [|by eapply quiet_trans].
  unfold replay_or_not_found, getRefreshTokenReplay, bind, try, lift_res. by rewrite Heq, Hp, Hval.
Qed.

Lemma replay_missing key w :
  w_net w = [] → view w key = None → ∃ w', replay_or_not_found key w = (Err rotation_not_found, w') ∧ quiet w w'.
Proof.
  intros Hn Hv.
  assert (wp (Get key) (λ r w1, r = Err ErrKeyNotFound ∧ quiet w w1) w) as Hget.
  { apply wp_Get; [done|]. intros st' Hs. rewrite Hv. split; [done|]. by repeat split. }
  destruct (wp_eq _ _ _ Hget) as (r&w1&Heq&->&Hq). exists w1. split; [|done].
  unfold replay_or_not_found, getRefreshTokenReplay, bind, try. by rewrite Heq.
Qed.

(** The token [oldToken] is stored as [old]; the network is up, the dates can be written
    and [b] is the next block of random bytes. *)
Definition rotatable w (oldToken : string) (b : list N) (old : RefreshToken) : Prop :=
  w_net w = [] ∧ Inv cfg w ∧ 0 <= w_now w ∧
  0 <= year_of (w_now w + tc_refreshExpiry cfg) <= 9999 ∧ 0 <= year_of (w_now w) <= 9999 ∧
  (∃ l, w_rand w = b :: l) ∧ rt_AccountID old ≠ "" ∧
  ∃ d x, view w (buildRefreshTokenKey oldToken) = Some (Entry (RStr d) x) ∧ unmarshal_rt d = Some old.

Definition fresh_token (b : list N) : string := hex_encode (rand_block refreshTokenLength b).
End rotation.

Section rotation_claims.
Context {R : Type} `{RedisServer R} `{JwtLib} (cfg : TokenCfg).
Implicit Types w : World R.

(** C16: rotating a stored refresh token returns a token with a fresh secret and the same
    account, client, session, scope and client metadata, whose lifetime starts now. The
    old token is no longer stored, the new one is, for the configured lifetime; the
    session's index lists the new hash and not the old one; no other key than these and
    the replay record changes; the rotation is in the audit trail. *)
Theorem rotation_replaces_token ctx oldToken w b old :
  0 < tc_refreshExpiry cfg → rotatable cfg w oldToken b old →
  HashToken (fresh_token b) ≠ HashToken oldToken →
  let rt := successor cfg (w_now w) (fresh_token b) old in
  let index := buildSessionTokensKey (rt_SessionID old) in
  ∃ w' nd, RotateRefreshToken cfg ctx oldToken w = (Ok rt, w') ∧
    view w' (buildRefreshTokenKey oldToken) = None ∧
    view w' (buildRefreshTokenKey (fresh_token b))
      = Some (Entry (RStr nd) (Some (now_ms w + refresh_secs cfg * 1000))) ∧
    marshal_rt rt = Ok nd ∧
    (rt_SessionID old ≠ "" →
       set_of (view w' index) = Some ({[HashToken (fresh_token b)]} ∪ members_of (view w index) ∖ {[HashToken oldToken]})) ∧
    (∀ k, k ∉ [buildRefreshTokenKey oldToken; buildRefreshTokenKey (fresh_token b);
               buildRefreshTokenReplayKey (HashToken oldToken); index] → view w' k = view w k) ∧
    w_audit w' = w_audit w ++ [rotation_audit ctx oldToken rt].
Proof.
  intros Hexp (Hn&Hw&Ht&Hye&Hyc&[l Hr]&Ha&d&x&Hv&Hd) Hne rt index.
  destruct (rotate_effect cfg Hexp ctx oldToken w b l d x old) as (w'&nd&rd&Hrot&Hnd&Hrd&Hok&_&_&_&Haud&Hview);
    try done.
  destruct (ix_tokens _ _ _ Hw _ _ Hv) as (old0&d'&x'&[= <- ->]&Hm&Hok0&_).
  pose proof (script_session_rt _ _ Hok0 Hm) as Hscript.
  assert (rt_SessionID old = rt_SessionID old0) as Hsid.
  { apply andb_true_iff in Hok0 as [Hwf _]. rewrite (unmarshal_marshal_rt _ _ Hwf Hm) in Hd. by simplify_eq. }
  rewrite <-Hsid in Hscript. unfold rotated in Hview. rewrite Hscript in Hview.
  assert (buildRefreshTokenKey oldToken ≠ buildRefreshTokenKey (fresh_token b))
    by (intros ?%append_inj; congruence).
  exists w', nd. fold (fresh_token b) in *. split; [exact Hrot|].
  split; [|split; [|split; [exact Hnd|split; [|split; [|exact Haud]]]]].
  - rewrite Hview. destruct (decide (rt_SessionID old = "")); by decide_keys.
  - rewrite Hview. destruct (decide (rt_SessionID old = "")); by decide_keys.
  - intros Hs. rewrite Hview. rewrite (decide_False (P := _ = "")) by done.
    by rewrite decide_True.
  - intros k. rewrite !not_elem_of_cons. intros (?&?&?&?&_). rewrite Hview.
    destruct (decide (rt_SessionID old = "")); [by decide_keys|].
    rewrite (decide_False (P := k = sessionTokensKeyPrefix +:+ _)) by done. by decide_keys.
Qed.

(** Presenting the consumed token again within 29 seconds, by any caller, returns
    the same successor and changes nothing: a client that lost the first answer is not
    logged out. *)
Theorem rotation_replay_is_idempotent ctx ctx' oldToken w b old w' δ :
  0 < tc_refreshExpiry cfg → rotatable cfg w oldToken b old →
  HashToken (fresh_token b) ≠ HashToken oldToken →
  let rt := successor cfg (w_now w) (fresh_token b) old in
  RotateRefreshToken cfg ctx oldToken w = (Ok rt, w') →
  0 <= δ <= 29 * second → δ + millisecond < tc_refreshExpiry cfg → w_rand w' ≠ [] →
  view w (buildAccountRevokedAfterKey (rt_AccountID old)) = None →
  ∃ w'', RotateRefreshToken cfg ctx' oldToken (tick δ w') = (Ok rt, w'')
    ∧ w_audit w'' = w_audit w' ∧ ∀ k, view w'' k = view (tick δ w') k.
Proof.
  intros Hexp (Hn&Hw&Ht&Hye&Hyc&[l Hr]&Ha&d&x&Hv&Hd) Hne rt Hrot Hδ Hδe Hrand Hrev.
  destruct (rotate_effect cfg Hexp ctx oldToken w b l d x old) as (w0&nd&rd&Hrot'&Hnd&Hrd&Hok&Hnow&Hnet&_&Haud&Hview);
    try done.
  fold (fresh_token b) in *. fold rt in Hrot', Hnd, Hrd, Hok.
  assert (w0 = w') as -> by congruence. clear Hrot Hrot'.
  assert (buildRefreshTokenKey oldToken ≠ buildRefreshTokenKey (fresh_token b))
    by (intros ?%append_inj; congruence).
  assert (now_ms (tick δ w') < now_ms w + 30000) as Hms
    by (unfold now_ms, tick, millisecond, second in *; cbn; rewrite Hnow; div_lia).
  assert (now_ms (tick δ w') < now_ms w + refresh_secs cfg * 1000) as Hms2
    by (unfold now_ms, tick, refresh_secs, ceil_secs, millisecond, second in *; cbn; rewrite Hnow; div_lia).
  destruct (rotate_gone cfg ctx' oldToken (tick δ w')) as (w1&->&Hn1&Hnow1&Haud1&Hk1); [done| |done|].
  { rewrite view_tick, Hview by lia. unfold rotated. destruct (script_session d); by decide_keys. }
  destruct (replay_found (buildRefreshTokenReplayKey (HashToken oldToken)) w1 rd rt (Some (now_ms w + 30000))
              nd (Some (now_ms w + refresh_secs cfg * 1000)) zero_time) as (w2&Hrep&Hq).
  - done.
  - rewrite Hk1, view_tick, Hview by lia. unfold rotated. destruct (script_session d); decide_keys;
      by apply live_before.
  - apply parse_replay; try done.
    + by apply andb_true_iff in Hok as [? _].
    + apply hex_encode_nonempty. intros He%(f_equal length). by rewrite rand_block_length in He.
    + apply not_zero_time. cbn. lia.
  - cbn [rt_Token rt successor]. rewrite Hk1, view_tick, Hview by lia. unfold rotated.
    destruct (script_session d); decide_keys; by apply live_before.
  - apply andb_true_iff in Hok as [Hwf _]. by rewrite (unmarshal_marshal_rt _ _ Hwf Hnd); eauto.
  - apply not_zero_time. cbn. lia.
  - rewrite Hnow1. unfold tick. cbn. rewrite Hnow. unfold millisecond in *. lia.
  - unfold revoked_after. rewrite Hk1, view_tick, Hview by lia. unfold rotated. cbn [rt_AccountID rt successor].
    destruct (script_session d); decide_keys; by rewrite Hrev.
  - by left.
  - exists w2. destruct Hq as (?&?&?&Hau&Hk). split; [done|]. split; [by rewrite Hau, Haud1|]. intros k. by rewrite Hk, Hk1.
Qed.

(** Thirty seconds after a rotation the consumed token is refused for good reason:
    it is reported as not found. *)
Theorem rotation_replay_expires ctx ctx' oldToken w b old w' rt δ :
  0 < tc_refreshExpiry cfg → rotatable cfg w oldToken b old →
  HashToken (fresh_token b) ≠ HashToken oldToken →
  RotateRefreshToken cfg ctx oldToken w = (Ok rt, w') → 30 * second <= δ → w_rand w' ≠ [] →
  ∃ w'', RotateRefreshToken cfg ctx' oldToken (tick δ w') = (Err rotation_not_found, w'').
Proof.
  intros Hexp (Hn&Hw&Ht&Hye&Hyc&[l Hr]&Ha&d&x&Hv&Hd) Hne Hrot Hδ Hrand.
  destruct (rotate_effect cfg Hexp ctx oldToken w b l d x old) as (w0&nd&rd&Hrot'&Hnd&Hrd&Hok&Hnow&Hnet&_&Haud&Hview);
    try done.
  fold (fresh_token b) in *. assert (w0 = w') as -> by congruence. clear Hrot Hrot'.
  assert (buildRefreshTokenKey oldToken ≠ buildRefreshTokenKey (fresh_token b))
    by (intros ?%append_inj; congruence).
  assert (now_ms w + 30000 <= now_ms (tick δ w')) as Hms
    by (unfold now_ms, tick, millisecond, second in *; cbn; rewrite Hnow; div_lia).
  assert (0 <= δ) by (unfold second in *; lia).
  destruct (rotate_gone cfg ctx' oldToken (tick δ w')) as (w1&->&Hn1&Hnow1&Haud1&Hk1); [done| |done|].
  { rewrite view_tick, Hview by lia. unfold rotated. destruct (script_session d); by decide_keys. }
  destruct (replay_missing (buildRefreshTokenReplayKey (HashToken oldToken)) w1) as (w2&Hrep&_); [done| |eauto].
  rewrite Hk1, view_tick, Hview by lia. unfold rotated. destruct (script_session d); decide_keys;
    by apply live_after.
Qed.
End rotation_claims.
