(* ===== verification/AccessProps.v ===== *)
(** * Access tokens and account-wide revocation: what the service guarantees *)
From S2P Require Import Prelude GoTime Json Hash LuaPattern Redis World Cache TokenDomain Blacklist TokenService TokenSpecs TokenIndex TokenInv TokenProps.
Local Open Scope Z_scope.

Section access.
Context {R : Type} `{RedisServer R} `{JwtLib} (cfg : TokenCfg).
Implicit Types w : World R.

(** ** The revocation check *)
(** What the check answers when the network is up. *)
Definition check_value w (jti a : string) : res TokenRevocationResult :=
  let e := bool_decide (is_Some (view w (buildBlacklistKey jti))) in
  match (if bool_decide (a = "") then Ok None else str_of (view w (buildAccountRevokedAfterKey a))) with
  | Err err => Err (Wrap "pipeline revocation check" err)
  | Ok None => Ok (mkRevocation e zero_time)
  | Ok (Some v) => match parse_revoked_after v with
                   | Ok t => Ok (mkRevocation e t) | Err err => Err err end
  end.

Lemma pipeline_spec jti a now st (Q : res (bool * option string) → R → Prop) :
  (∀ st', same now st st' →
     Q (match (if bool_decide (a = "") then Ok None else str_of (r_view st now (buildAccountRevokedAfterKey a))) with
        | Ok v => Ok (bool_decide (is_Some (r_view st now (buildBlacklistKey jti))), v)
        | Err e => Err e end) st') →
  wp (revocationPipeline jti a now) Q st.
Proof.
  intros HQ. unfold revocationPipeline. s_step. s_step. s_step. rename H1 into Hs1.
  assert (∀ o : option rentry, (match o with Some _ => true | None => false end) = bool_decide (is_Some o)) as Hb.
  { intros [e|]; [by rewrite bool_decide_true|]. rewrite bool_decide_false; [done|]. by intros [? ?]. }
  rewrite Hb. case_bool_decide.
  - s_step. s_step. by apply HQ.
  - s_step. rename H2 into Hs2. rewrite (Hs1 _). assert (same now st st'0) as Hs by (intros k; by rewrite Hs2, Hs1).
    specialize (HQ _ Hs). destruct (str_of _); [by s_step|done].
Qed.

Lemma wp_check_any jti a (Q : res TokenRevocationResult → World R → Prop) w :
  (∀ w', quiet w w' → Q (check_value w jti a) w') →
  (∀ e w', quiet w w' → w_net w ≠ [] → Q (Err e) w') →
  wp (CheckTokenAndAccountRevocation jti a) Q w.
Proof.
  intros HQ HE. unfold CheckTokenAndAccountRevocation. wp_step. wp_step.
  apply wp_redis_call_fates; [|intros net Hn; apply HE; [apply quiet_net|done]].
  intros net. apply pipeline_spec. intros st' Hs. pose proof (quiet_redis net _ _ Hs) as Hq.
  split; [|intros Hn; by apply HE]. specialize (HQ _ Hq). unfold check_value, view in HQ.
  destruct (if bool_decide _ then _ else _) as [[v|]|e]; cbn in *; [|done..].
  destruct (parse_revoked_after v); exact HQ.
Qed.

(** What acceptance means. *)
Definition access_accepted w (tok : string) (c : AccessTokenClaims) : Prop :=
  jwt_parse (tc_issuer cfg) accessTokenClockSkew (w_now w) (keyfunc cfg) tok = Ok c ∧
  registered_ok (tc_issuer cfg) accessTokenClockSkew (w_now w) c = true ∧
  (cl_ClientID c = "" ∨ cl_ClientID c ∈ cl_Audience c) ∧ cl_ID c ≠ "" ∧
  view w (buildBlacklistKey (cl_ID c)) = None ∧
  (∀ i, cl_IssuedAt c = Some i → cl_AccountID c ≠ "" →
     ∃ ra, revoked_after w (cl_AccountID c) = Ok ra ∧ (IsZero ra = true ∨ ra <= i)).

Lemma check_value_ok w jti a rv : check_value w jti a = Ok rv →
  TokenRevoked rv = bool_decide (is_Some (view w (buildBlacklistKey jti))) ∧
  (a ≠ "" → revoked_after w a = Ok (AccountRevokedAfter rv)).
Proof.
  unfold check_value, revoked_after. case_bool_decide as Ha.
  - intros [= <-]. done.
  - destruct (str_of _) as [[v|]|e]; [|intros [= <-]; done|done].
    destruct (parse_revoked_after v) as [t|]; [|done]. intros [= <-]. done.
Qed.

Lemma validate_access_quiet tok w :
  wp (ValidateAccessTokenWithContext cfg tok) (λ r w', quiet w w' ∧ ∀ c, r = Ok c → access_accepted w tok c) w.
Proof.
  pose proof (quiet_refl w) as Hq0.
  unfold ValidateAccessTokenWithContext. wp_step. apply wp_gets. wp_step. wp_step.
  destruct (jwt_parse _ _ _ _ _) as [c|e] eqn:Hp; cbn [wrap_res]; [|done].
  wp_step. apply wp_guard_err; [done|intros Haud]. wp_step. apply wp_guard_err; [done|intros Hid].
  rewrite bool_decide_eq_false in Hid. rewrite andb_false_iff, !negb_false_iff, !bool_decide_eq_true in Haud.
  set (a := if _ && _ then cl_AccountID c else ""). wp_step. wp_step.
  apply wp_check_any; [|intros e w1 Hq _; by wp_step]. intros w1 Hq.
  destruct (check_value w (cl_ID c) a) as [rv|e] eqn:Hc; [|by wp_step].
  destruct (check_value_ok _ _ _ _ Hc) as [Hrev Hra].
  wp_step. apply wp_guard_err; [done|intros Hnr]. wp_step. apply wp_guard_err; [done|intros _].
  wp_step. apply wp_guard_err; [done|intros Hacc]. wp_step. split; [done|]. intros ? [= <-].
  rewrite Hrev, bool_decide_eq_false in Hnr.
  split_and!; try done.
  - by apply (jwt_parse_checked _ _ _ _ _ _ Hp).
  - destruct (view w _); [|done]. destruct Hnr. by eexists.
  - intros i Hi Hne. exists (AccountRevokedAfter rv). split.
    + replace (cl_AccountID c) with a; [apply Hra|]; unfold a; rewrite Hi; by eval_tests.
    + rewrite Hi in Hacc. rewrite andb_false_iff, negb_false_iff, Z.ltb_ge in Hacc. done.
Qed.
Lemma validate_access_ok tok w :
  wp (ValidateAccessTokenWithContext cfg tok) (λ r _, ∀ c, r = Ok c → access_accepted w tok c) w.
Proof. eapply wp_mono; [apply validate_access_quiet|]. by intros r w' [_ ?]. Qed.

(** An access token is accepted only if it carries the service's RS256 signature and
    issuer and is current, names its client among the audience, has an identifier that
    is not blacklisted, and was not issued before its account's revocation time;
    whatever the network does. *)
Theorem access_validation_sound tok w c w' :
  ValidateAccessTokenWithContext cfg tok w = (Ok c, w') → access_accepted w tok c.
Proof. intros Heq. pose proof (wp_intro _ _ _ _ _ Heq (validate_access_ok tok w)) as Hwp. by apply Hwp. Qed.

(** C33: the check fails closed. When the round trip to the blacklist is lost, no token is
    accepted, and a token that parses and passes the local checks is answered with
    [ErrBlacklistUnavailable]. *)
Theorem access_validation_fails_closed tok w f l :
  w_net w = f :: l → f ≠ Delivered →
  ∃ e w', ValidateAccessTokenWithContext cfg tok w = (Err e, w') ∧
    ∀ c, jwt_parse (tc_issuer cfg) accessTokenClockSkew (w_now w) (keyfunc cfg) tok = Ok c →
         cl_ClientID c ∈ cl_Audience c → cl_ID c ≠ "" → e = ErrBlacklistUnavailable.
Proof.
  intros Hn Hf.
  assert (∀ jti a, ∃ e w', CheckTokenAndAccountRevocation jti a w = (Err e, w')) as Hcheck.
  { intros jti a. unfold CheckTokenAndAccountRevocation, bind, wrap, redis_call. rewrite Hn.
    destruct f; [done|by cbn; eauto|]. destruct (revocationPipeline _ _ _ _). cbn. eauto. }
  enough (wp (ValidateAccessTokenWithContext cfg tok) (λ r _, ∃ e, r = Err e ∧
    ∀ c, jwt_parse (tc_issuer cfg) accessTokenClockSkew (w_now w) (keyfunc cfg) tok = Ok c →
         cl_ClientID c ∈ cl_Audience c → cl_ID c ≠ "" → e = ErrBlacklistUnavailable) w) as Hwp.
  { destruct (wp_eq _ _ _ Hwp) as (r&w'&->&e&->&He). eauto. }
  unfold ValidateAccessTokenWithContext. wp_step. apply wp_gets. wp_step. wp_step.
  destruct (jwt_parse _ _ _ _ _) as [c|e]; cbn [wrap_res]; [|by eexists].
  wp_step. apply wp_guard_err.
  { rewrite andb_true_iff, !negb_true_iff, !bool_decide_eq_false. intros [_ Haud].
    eexists. split; [done|]. intros ? [= <-] Hin. done. }
  intros _. wp_step. apply wp_guard_err.
  { rewrite bool_decide_eq_true. intros Hid. eexists. split; [done|]. intros ? [= <-] _ Hne. done. }
  intros _. wp_step. wp_step.
  match goal with |- wp (CheckTokenAndAccountRevocation ?j ?a) _ _ => destruct (Hcheck j a) as (e&w1&He) end.
  unfold wp at 1. rewrite He. cbn [fst snd]. wp_step. by eexists.
Qed.

(** ** Revoking one token *)
Lemma revoke_access_effect jti exp w w' :
  RevokeAccessToken jti exp w = (Ok tt, w') → 0 < exp - w_now w + 5 * minute →
  w_now w' = w_now w ∧
  view w' (buildBlacklistKey jti) = Some (Entry (RStr "1")
     (Some (now_ms w + Z.max 1 ((exp - w_now w + 5 * minute) / millisecond)))).
Proof.
  intros Heq Hpos.
  enough (wp (RevokeAccessToken jti exp) (λ r w', r = Ok tt → w_now w' = w_now w ∧
    view w' (buildBlacklistKey jti) = Some (Entry (RStr "1")
     (Some (now_ms w + Z.max 1 ((exp - w_now w + 5 * minute) / millisecond))))) w) as Hwp
    by (apply (wp_intro _ _ _ _ _ Heq Hwp); done).
  unfold RevokeAccessToken, RevokeToken, Set_. wp_step. apply wp_gets.
  rewrite (proj2 (Z.leb_gt _ 0)) by lia. wp_step. wp_step.
  rewrite (proj2 (Z.ltb_lt 0 _)) by lia. apply wp_redis_call; [|done].
  intros net. s_step; [by apply r_px_pos|]. split; [|done]. intros _. split; [done|].
  rewrite <-r_px_exact by done. transitivity (r_view st' (now_ms w) (buildBlacklistKey jti)); [done|].
  rewrite (H1 _). by rewrite decide_True.
Qed.

Lemma keeps_now_RevokeAccess jti exp w : w_now (RevokeAccessToken jti exp w).2 = w_now w.
Proof.
  unfold RevokeAccessToken, RevokeToken, Set_, bind, now, gets, wrap. cbn.
  destruct (_ <=? _); [done|]. unfold redis_call.
  destruct (match w_net w with [] => _ | _ => _ end) as [[] net]; cbn; try done;
    by destruct (s_set _ _ _ _ _).
Qed.

(** Once [RevokeAccessToken] reports success for the identifier and expiry of a token,
    that token is refused at every later time and under any network behaviour. *)
Theorem revoked_access_token_refused jti exp w w' δ net tok :
  RevokeAccessToken jti exp w = (Ok tt, w') → 0 <= δ →
  (∀ c, jwt_parse (tc_issuer cfg) accessTokenClockSkew (w_now w' + δ) (keyfunc cfg) tok = Ok c →
        cl_ID c = jti ∧ cl_ExpiresAt c = Some exp) →
  is_ok (ValidateAccessTokenWithContext cfg tok (put_net net (tick δ w'))).1 = false.
Proof.
  intros Hrev Hδ Htok.
  destruct (ValidateAccessTokenWithContext cfg tok _) as [[c|e] w''] eqn:Hval; [exfalso|done].
  pose proof (wp_intro _ _ _ _ _ Hval (validate_access_ok tok _) c eq_refl) as (Hp&Hreg&_&_&Hbl&_).
  destruct (Htok _ Hp) as [<- Hexp].
  unfold registered_ok in Hreg. rewrite Hexp, !andb_true_iff, Z.ltb_lt in Hreg. destruct Hreg as [[Hcur _] _].
  cbn in Hcur. unfold accessTokenClockSkew in Hcur.
  assert (w_now w' = w_now w) as Hnow.
  { pose proof (keeps_now_RevokeAccess (cl_ID c) exp w) as Hk. by rewrite Hrev in Hk. }
  destruct (decide (0 < exp - w_now w + 5 * minute)) as [Hpos|Hneg].
  - destruct (revoke_access_effect _ _ _ _ Hrev Hpos) as [_ Hv].
    change (view (tick δ w') (buildBlacklistKey (cl_ID c)) = None) in Hbl.
    rewrite view_tick, Hv, live_before in Hbl; [done| |done].
    unfold now_ms, tick, millisecond, minute, second in *. cbn. rewrite Hnow in *. div_lia.
  - unfold minute, second in *. lia.
Qed.

(** ** Issuing and accepting *)
Lemma keyfunc_rs256 : keyfunc cfg "RSA" "RS256" = Ok (jwt_public (tc_privateKey cfg)).
Proof. unfold keyfunc. by eval_tests. Qed.

Lemma audience_has_client c : cl_ClientID c = "" ∨ cl_ClientID (ensureClientAudience c) ∈ cl_Audience (ensureClientAudience c).
Proof.
  unfold ensureClientAudience. destruct (decide (cl_ClientID c = "")) as [|Hne]; [by left|right].
  destruct (bool_decide_reflect (cl_ClientID c = "")); [done|].
  destruct (bool_decide_reflect (cl_ClientID c ∈ cl_Audience c)); [done|]. cbn. set_solver.
Qed.

(** The issued claims: everything the caller asked for, stamped. *)
Definition issued (id : string) (t : Z) (c : AccessTokenClaims) : AccessTokenClaims :=
  ensureClientAudience (stamp_claims cfg id (NewNumericDate t) (NewNumericDate (t + tc_accessExpiry cfg)) c).

Lemma issued_proj id t c :
  cl_ID (issued id t c) = id ∧ cl_AccountID (issued id t c) = cl_AccountID c ∧
  cl_ClientID (issued id t c) = cl_ClientID c ∧ cl_NotBefore (issued id t c) = cl_NotBefore c ∧
  cl_IssuedAt (issued id t c) = Some (NewNumericDate t) ∧
  cl_ExpiresAt (issued id t c) = Some (NewNumericDate (t + tc_accessExpiry cfg)) ∧
  cl_Issuer (issued id t c) = tc_issuer cfg.
Proof. unfold issued, ensureClientAudience. by destruct (_ || _). Qed.

Lemma generate_access_inv c w tok w' : GenerateAccessToken cfg c w = (Ok tok, w') →
  ∃ id, jwt_sign (tc_keyID cfg) (tc_privateKey cfg) (issued id (w_now w) c) = Ok tok ∧
    (cl_ID c ≠ "" → id = cl_ID c) ∧ w_now w' = w_now w ∧ w_net w' = w_net w ∧ ∀ k, view w' k = view w k.
Proof.
  unfold GenerateAccessToken, bind, now, gets, claims_id, signToken, lift_res. cbn.
  case_bool_decide as Hid.
  - unfold uuid_new. destruct (w_uuid w) as [|u l]; [done|]. intros [= Hs <-].
    exists u. split; [|done]. unfold issued. by destruct (jwt_sign _ _ _).
  - cbn. intros [= Hs <-]. exists (cl_ID c). split; [|done]. unfold issued. by destruct (jwt_sign _ _ _).
Qed.

(** A token issued by [GenerateAccessToken] is accepted by this service for its whole
    lifetime while neither it nor its account has been revoked, and the claims come back
    as issued, with the client in the audience. *)
Theorem access_token_round_trip c w tok w' δ :
  GenerateAccessToken cfg c w = (Ok tok, w') → cl_ID c ≠ "" → cl_NotBefore c = None → w_net w = [] →
  0 <= δ <= tc_accessExpiry cfg →
  view (tick δ w') (buildBlacklistKey (cl_ID c)) = None →
  view (tick δ w') (buildAccountRevokedAfterKey (cl_AccountID c)) = None →
  ∃ w'', ValidateAccessTokenWithContext cfg tok (tick δ w') = (Ok (issued (cl_ID c) (w_now w) c), w'').
Proof.
  intros Hgen Hidne Hnb Hn Hδ Hbl Hacc.
  destruct (generate_access_inv _ _ _ _ Hgen) as (id&Hsign&Hid&Hnow&Hnet&_). rewrite Hid in Hsign by done. clear id Hid.
  set (ci := issued _ _ _) in *. destruct (issued_proj (cl_ID c) (w_now w) c) as (H1&H2&H3&H4&H5&H6&H7).
  fold ci in H1, H2, H3, H4, H5, H6, H7.
  assert (registered_ok (tc_issuer cfg) accessTokenClockSkew (w_now (tick δ w')) ci = true) as Hreg.
  { unfold registered_ok. rewrite H4, H6, H7, Hnb. rewrite bool_decide_true by done. rewrite !andb_true_r.
    apply Z.ltb_lt. unfold tick, NewNumericDate, accessTokenClockSkew, second in *. cbn. rewrite Hnow. div_lia. }
  enough (wp (ValidateAccessTokenWithContext cfg tok) (λ r _, r = Ok ci) (tick δ w')) as Hwp
    by (destruct (wp_eq _ _ _ Hwp) as (r&w''&->&->); eauto).
  unfold ValidateAccessTokenWithContext. wp_step. apply wp_gets. wp_step. wp_step.
  rewrite (jwt_parse_signed _ _ _ _ _ _ _ _ Hsign keyfunc_rs256), Hreg. cbn [wrap_res].
  wp_step. apply wp_guard_err.
  { rewrite andb_true_iff, !negb_true_iff, !bool_decide_eq_false, H3. intros [Hc Hni]. exfalso.
    destruct (audience_has_client (stamp_claims cfg (cl_ID c) (NewNumericDate (w_now w))
       (NewNumericDate (w_now w + tc_accessExpiry cfg)) c)) as [?|Hin]; [done|].
    fold (issued (cl_ID c) (w_now w) c) in Hin. fold ci in Hin. rewrite H3 in Hin. done. }
  intros _. wp_step. apply wp_guard_err; [rewrite H1, bool_decide_eq_true; done|]. intros _. wp_step. wp_step.
  apply wp_check_any; [|intros e w1 _ Hnn; by destruct Hnn; rewrite <-Hn, <-Hnet].
  assert (∀ a, a = "" ∨ a = cl_AccountID c →
    check_value (tick δ w') (cl_ID c) a = Ok (mkRevocation false zero_time)) as Hcheck.
  { intros a Ha. unfold check_value. rewrite Hbl, (bool_decide_false (is_Some None)) by (by intros [? ?]).
    case_bool_decide; [done|]. destruct Ha as [->| ->]; [done|]. by rewrite Hacc. }
  intros w1 _. rewrite H1, H2, Hcheck by (destruct (_ && _); auto).
  cbn [TokenRevoked AccountRevokedAfter]. rewrite H4, Hnb.
  replace (IsZero zero_time) with true by (unfold IsZero; by rewrite bool_decide_true).
  do 3 (wp_step; apply wp_guard_err; [done|intros _]). by wp_step.
Qed.

(** A short-lived token never outlives the hour: whatever expiry the caller asked
    for, a token of [GenerateShortLivedToken] is refused by the parser from one hour
    (and the clock skew) after it was issued. *)
Theorem short_lived_is_short c w tok w' now' :
  GenerateShortLivedToken cfg c w = (Ok tok, w') →
  w_now w + MaxShortLivedExpiry + accessTokenClockSkew <= now' →
  is_ok (jwt_parse (tc_issuer cfg) accessTokenClockSkew now' (keyfunc cfg) tok) = false.
Proof.
  intros Hgen Hlate.
  assert (∃ id, jwt_sign (tc_keyID cfg) (tc_privateKey cfg) (ensureClientAudience
    (stamp_claims cfg id (NewNumericDate (w_now w)) (short_lived_expiry cfg (w_now w) (cl_ExpiresAt c)) c)) = Ok tok)
    as [id Hs].
  { unfold GenerateShortLivedToken, bind, now, gets, claims_id, signToken, lift_res, uuid_new in Hgen. cbn in Hgen.
    case_bool_decide; [destruct (w_uuid w) as [|u l]; [done|]|]; cbn in Hgen; injection Hgen as Hs _;
      [exists u|exists (cl_ID c)]; by destruct (jwt_sign _ _ _). }
  rewrite (jwt_parse_signed _ _ _ _ _ _ _ _ Hs keyfunc_rs256).
  assert (cl_ExpiresAt (ensureClientAudience (stamp_claims cfg id (NewNumericDate (w_now w))
    (short_lived_expiry cfg (w_now w) (cl_ExpiresAt c)) c)) = Some (short_lived_expiry cfg (w_now w) (cl_ExpiresAt c))) as He
    by (unfold ensureClientAudience; by destruct (_ || _)).
  unfold registered_ok. rewrite He. rewrite (proj2 (Z.ltb_ge _ _)); [done|].
  unfold short_lived_expiry. cbv zeta.
  destruct (Z.ltb_spec (NewNumericDate (w_now w + MaxShortLivedExpiry))
    (match cl_ExpiresAt c with Some e => if IsZero e then NewNumericDate (w_now w + tc_accessExpiry cfg) else e
      | None => NewNumericDate (w_now w + tc_accessExpiry cfg) end));
  unfold NewNumericDate, MaxShortLivedExpiry, second, hour, minute in *; div_lia.
Qed.
End access.

(** ** Account-wide revocation *)
Section account.
Context {R : Type} `{RedisServer R} `{JwtLib} (cfg : TokenCfg).
Implicit Types w : World R.

(** The stored value after the script. *)
Definition ratchet (now : Z) (o : option rentry) (ts secs : Z) : option rentry :=
  match str_of o with
  | Ok (Some s) => match parse_int s with
                   | Some c => if ts <=? c then o else Some (Entry (RStr (dec ts)) (Some (now + secs * 1000)))
                   | None => o
                   end
  | Ok None => Some (Entry (RStr (dec ts)) (Some (now + secs * 1000)))
  | Err _ => o
  end.

Lemma ratchet_script_spec now key ts secs st (Q : res Z → R → Prop) :
  0 < secs →
  (∀ r st', updates now st st' key (ratchet now (r_view st now key) ts secs) →
     (is_ok r = true → ∃ s c, ratchet now (r_view st now key) ts secs = Some (Entry (RStr s) c)) →
     Q r st') →
  wp (setAccountRevokedAfterScript key ts secs now) Q st.
Proof.
  intros Hs HQ. unfold setAccountRevokedAfterScript. s_step. s_step. rename H1 into Hsame.
  assert (∀ r o, ratchet now (r_view st now key) ts secs = o → o = r_view st now key →
    (is_ok r = true → ∃ s c, o = Some (Entry (RStr s) c)) → Q r st') as Hkeep.
  { intros r o <- Ho Hok. apply HQ; [|done]. rewrite Ho. intros k. rewrite (Hsame k).
    by destruct (decide _) as [->|]. }
  assert (ratchet now (r_view st now key) ts secs = Some (Entry (RStr (dec ts)) (Some (now + secs * 1000))) →
    wp (s_set now key (dec ts) (Some (secs * 1000)) ;; ret 1) Q st') as Hset.
  { intros Ho. s_step. s_step. s_step. rename H1 into Hu. apply HQ; rewrite Ho; [|eauto].
    intros k. rewrite (Hu k). destruct (decide _); [done|apply Hsame]. }
  unfold ratchet in *. destruct (str_of (r_view st now key)) as [[v|]|e] eqn:Hv.
  - s_step. destruct (parse_int v) as [c|] eqn:Hc; s_step.
    + destruct (ts <=? c); [|by apply Hset]. s_step. eapply Hkeep; [done..|]. intros _.
      unfold str_of in Hv. repeat case_match; simplify_eq; eauto.
    + eapply Hkeep; done.
  - s_step. s_step. by apply Hset.
  - eapply Hkeep; done.
Qed.

(** Reading the value back. *)
Definition revoked_secs (o : option rentry) : option Z :=
  match str_of o with Ok (Some s) => parse_int s | _ => None end.

Lemma ratchet_le now o ts secs c : - 2 ^ 63 <= ts < 2 ^ 63 → revoked_secs o = Some c →
  ∃ c', revoked_secs (ratchet now o ts secs) = Some c' ∧ c <= c' ∧ ts <= c'.
Proof.
  unfold revoked_secs, ratchet. intros Hts Hc. destruct (str_of o) as [[s|]|] eqn:Ho; try done.
  rewrite Hc. destruct (Z.leb_spec ts c).
  - rewrite Ho, Hc. by exists c.
  - cbn [str_of]. rewrite parse_int_dec by done. exists ts. repeat split; lia.
Qed.
Lemma ratchet_fresh now ts secs : - 2 ^ 63 <= ts < 2 ^ 63 →
  revoked_secs (ratchet now None ts secs) = Some ts.
Proof. intros Hts. unfold revoked_secs, ratchet. cbn [str_of]. by rewrite parse_int_dec. Qed.

Lemma set_account_effect a t ttl w :
  0 < trunc_secs ttl →
  wp (SetAccountRevokedAfter a t ttl) (λ r w',
    let key := buildAccountRevokedAfterKey a in
    w_now w' = w_now w ∧
    (view w' key = view w key ∧ is_ok r = false ∨
     view w' key = ratchet (now_ms w) (view w key) (Unix t) (trunc_secs ttl))) w.
Proof.
  intros Hs. unfold SetAccountRevokedAfter. wp_step. wp_step. apply wp_redis_call; [|cbn; auto].
  intros net. apply ratchet_script_spec; [done|]. intros r st' Hu _.
  assert (view (put_net net (put_redis st' w)) (buildAccountRevokedAfterKey a)
    = ratchet (now_ms w) (view w (buildAccountRevokedAfterKey a)) (Unix t) (trunc_secs ttl)) as Hv.
  { unfold view. cbn. rewrite (Hu _). by rewrite decide_True. }
  split; [destruct r; cbn|cbn; auto]; [wp_step|]; auto.
Qed.

(** The revocation time of an account never moves back. Whatever the network does, a
    later call leaves a time at least as late as the one recorded, and a call that
    reports success leaves one at least as late as the time it was given (to the second). *)
Theorem revocation_time_never_moves_back a t ttl w r w' c :
  0 < trunc_secs ttl → - 2 ^ 63 <= Unix t < 2 ^ 63 →
  revoked_secs (view w (buildAccountRevokedAfterKey a)) = Some c →
  SetAccountRevokedAfter a t ttl w = (r, w') →
  ∃ c', revoked_secs (view w' (buildAccountRevokedAfterKey a)) = Some c' ∧ c <= c' ∧
        (is_ok r = true → Unix t <= c').
Proof.
  intros Hs Ht Hc Heq. destruct (wp_intro _ _ _ _ _ Heq (set_account_effect a t ttl w Hs)) as [_ [[-> Hr]| ->]].
  - exists c. rewrite Hr. done.
  - destruct (ratchet_le (now_ms w) _ (Unix t) (trunc_secs ttl) c Ht Hc) as (c'&?&?&?). eauto.
Qed.

(** A refresh token is accepted only if it is stored under its hash, has not expired
    and was not created before its account's revocation time; whatever the network does. *)
Theorem refresh_validation_sound token w rt w' :
  ValidateRefreshToken token w = (Ok rt, w') → refresh_accepted w token rt.
Proof. apply validate_reads. Qed.

Definition revocation_ttl : Z := Z.max (tc_accessExpiry cfg * 2) MinAccountRevocationTTL.

Lemma revoke_account_effect ctx a w w' :
  - 2 ^ 63 <= Unix (w_now w) < 2 ^ 63 →
  (view w (buildAccountRevokedAfterKey a) = None ∨
   ∃ c, revoked_secs (view w (buildAccountRevokedAfterKey a)) = Some c ∧ c < Unix (w_now w)) →
  RevokeAccountTokens cfg ctx a w = (Ok tt, w') →
  w_now w' = w_now w ∧
  view w' (buildAccountRevokedAfterKey a)
    = Some (Entry (RStr (dec (Unix (w_now w)))) (Some (now_ms w + trunc_secs revocation_ttl * 1000))).
Proof.
  intros Hr Hold Heq.
  assert (0 < trunc_secs revocation_ttl) as Hpos.
  { unfold revocation_ttl, trunc_secs, MinAccountRevocationTTL, minute, second. div_lia. }
  enough (wp (RevokeAccountTokens cfg ctx a) (λ r w', r = Ok tt → w_now w' = w_now w ∧
    view w' (buildAccountRevokedAfterKey a)
    = ratchet (now_ms w) (view w (buildAccountRevokedAfterKey a)) (Unix (w_now w)) (trunc_secs revocation_ttl)) w) as Hwp.
  { destruct (wp_intro _ _ _ _ _ Heq Hwp eq_refl) as [? ->]. split; [done|]. unfold ratchet.
    destruct Hold as [->|(c&Hc&Hlt)]; [done|]. unfold revoked_secs in Hc.
    destruct (str_of _) as [[v|]|]; try done. rewrite Hc. by rewrite (proj2 (Z.leb_gt _ _)). }
  unfold RevokeAccountTokens. wp_step. apply wp_gets. wp_step.
  eapply wp_mono; [by apply set_account_effect|]. cbv zeta. intros [[]|e] w1 [Hnow Hv]; [|done].
  apply wp_audit_log. intros _. split; [exact Hnow|]. destruct Hv as [[_ ?]|Hv]; [done|exact Hv].
Qed.

(** Once [RevokeAccountTokens] reports success, no refresh token of the account that
    was created in an earlier second validates while the record lives, which is at
    least twice the access token lifetime; under any network behaviour. *)
Theorem revoked_account_refresh_refused ctx a w w' δ net token d x rt :
  0 <= Unix (w_now w) < 2 ^ 63 → a ≠ "" →
  (view w (buildAccountRevokedAfterKey a) = None ∨
   ∃ c, revoked_secs (view w (buildAccountRevokedAfterKey a)) = Some c ∧ c < Unix (w_now w)) →
  RevokeAccountTokens cfg ctx a w = (Ok tt, w') →
  0 <= δ → δ + millisecond < trunc_secs revocation_ttl * second →
  view w' (buildRefreshTokenKey token) = Some (Entry (RStr d) x) → unmarshal_rt d = Some rt →
  rt_AccountID rt = a → Unix (rt_CreatedAt rt) < Unix (w_now w) →
  is_ok (ValidateRefreshToken token (put_net net (tick δ w'))).1 = false.
Proof.
  intros Hr Hne Hold Hrev Hδ Hlt Htok Hd Ha Hearly.
  destruct (ValidateRefreshToken token _) as [[rt'|e] w''] eqn:Hval; [exfalso|done].
  destruct (revoke_account_effect ctx a w w' ltac:(lia) Hold Hrev) as [Hnow Hv].
  destruct (validate_reads _ _ _ _ Hval) as ((d'&x'&Hv'&Hd')&_&Hacc).
  assert (rt' = rt) as ->.
  { change (view (tick δ w') (buildRefreshTokenKey token) = Some (Entry (RStr d') x')) in Hv'.
    rewrite view_tick, Htok in Hv' by done. unfold live in Hv'. destruct (alive _ _); [|done].
    injection Hv' as <- <-. congruence. }
  rewrite Ha in Hacc. destruct (Hacc Hne) as (ra&Hra&Hc).
  unfold revoked_after in Hra.
  change (view (put_net net (tick δ w')) ?k) with (view (tick δ w') k) in Hra.
  rewrite view_tick, Hv, live_before in Hra; [| |done].
  - cbn [str_of] in Hra. unfold parse_revoked_after in Hra. rewrite parse_int_dec in Hra by lia.
    injection Hra as <-. destruct Hc as [Hz|Hc].
    + unfold IsZero in Hz. apply bool_decide_eq_true in Hz. unfold from_unix, zero_time, second in *. lia.
    + unfold Unix, from_unix, second in *. clear -Hc Hearly. div_lia.
  - unfold now_ms, tick, millisecond, second in *. cbn. rewrite Hnow. div_lia.
Qed.
End account.

(** ** Issuing and reading back a refresh token *)
Section refresh_issue.
Context {R : Type} `{RedisServer R} `{JwtLib} (cfg : TokenCfg).
Implicit Types w : World R.

(** A refresh token issued by [GenerateRefreshToken] validates until it expires while
    its account is not revoked, and comes back as issued (the secret itself is not
    stored). *)
Theorem refresh_token_round_trip ctx a c sid sc w rt w' δ :
  0 < tc_refreshExpiry cfg → Inv cfg w → w_net w = [] → 0 <= w_now w →
  forallb utf8_valid [a; c; sc; ctx_ip ctx; ctx_ua ctx] = true → clean sid = true →
  GenerateRefreshToken cfg ctx a c sid sc w = (Ok rt, w') →
  0 <= δ → δ + millisecond < tc_refreshExpiry cfg →
  view (tick δ w') (buildAccountRevokedAfterKey a) = None →
  rt_AccountID rt = a ∧ rt_ClientID rt = c ∧ rt_SessionID rt = sid ∧ rt_Scope rt = sc ∧
  ∃ w'', ValidateRefreshToken (rt_Token rt) (tick δ w') =
    (Ok (mkRT "" a c sid sc (ctx_ip ctx) (ctx_ua ctx) (w_now w + tc_refreshExpiry cfg) (w_now w)), w'').
Proof.
  intros Hexp Hw Hn Ht Hutf Hsid Hgen Hδ Hlt Hrev.
  enough (wp (GenerateRefreshToken cfg ctx a c sid sc) (λ r w', r = Ok rt →
    ∃ b d, rt = mkRT (fresh_token b) a c sid sc (ctx_ip ctx) (ctx_ua ctx) (w_now w + tc_refreshExpiry cfg) (w_now w) ∧
      marshal_rt rt = Ok d ∧ w_now w' = w_now w ∧ w_net w' = [] ∧
      view w' (buildRefreshTokenKey (fresh_token b)) = Some (Entry (RStr d) (Some (now_ms w + refresh_secs cfg * 1000)))) w) as Hwp.
  { destruct (wp_intro _ _ _ _ _ Hgen Hwp eq_refl) as (b&d&->&Hd&Hnow&Hnet&Hv). split_and!; try done.
    assert (now_ms (tick δ w') < now_ms w + refresh_secs cfg * 1000) as Hms.
    { unfold now_ms, tick, refresh_secs, ceil_secs, millisecond, second in *. cbn. rewrite Hnow. div_lia. }
    edestruct (validate_live (fresh_token b) (tick δ w') d) as (w2&Hval&_).
    - done.
    - by rewrite view_tick, Hv, live_before.
    - apply unmarshal_marshal_rt; [|exact Hd]. unfold rt_wf.
      cbn [rt_Token rt_AccountID rt_ClientID rt_SessionID rt_Scope rt_IP rt_UserAgent].
      cbn [forallb] in *. rewrite !andb_true_iff in *. destruct Hutf as (?&?&?&?&?&_).
      repeat split; try done; apply clean_utf8; [|done]. apply hex_encode_clean, rand_block_bytes.
    - apply not_zero_time. cbn. lia.
    - cbn. rewrite Hnow. unfold millisecond in *. lia.
    - unfold revoked_after. cbn [rt_AccountID]. by rewrite Hrev.
    - by left.
    - exists w2. exact Hval. }
  unfold GenerateRefreshToken. wp_step. wp_step. apply wp_rand_read; [done|]. intros b l _. cbn [wrap_res].
  wp_step. apply wp_gets. wp_step. apply wp_guard_err; [done|intros _]. fold (fresh_token b).
  set (rt0 := mkRT _ _ _ _ _ _ _ _ _). wp_step. wp_step.
  destruct (marshal_rt rt0) as [d|] eqn:Hd; cbn [wrap_res]; [|done].
  wp_step. wp_step. apply wp_redis_call_up; [done|].
  change (buildRefreshTokenKey (fresh_token b)) with (refreshKey (HashToken (fresh_token b))).
  change sid with (rt_SessionID rt0). apply store_script_stored; [done|apply Hw|].
  intros st' Hst'. cbn [wrap_res]. wp_step. intros [= <-]. exists b, d. split_and!; try done.
  etransitivity; [exact (Hst' _)|]. unfold stored. rewrite decide_False by (intros [_ ?]; discriminate).
  by rewrite decide_True.
Qed.
End refresh_issue.
