(* ===== verification/TokenExamples.v ===== *)
(** * Sample runs of the token service

    The interfaces of the development can be met ([mem_redis], [one_jwt]), the hypotheses
    of the theorems hold of ordinary runs, and the deviations found in the service are
    shown on concrete ones. *)
From S2P Require Import Prelude GoTime Json Hash LuaPattern Redis World Cache TokenDomain Blacklist TokenService TokenSpecs TokenIndex TokenInv TokenProps AccessProps.
Local Open Scope Z_scope.

(** A JWT library that knows one set of claims. *)
#[refine] Instance one_jwt (c0 : AccessTokenClaims) : JwtLib := {
  jwt_sign kid priv c := if bool_decide (c = c0) then Ok "header.claims.signature" else Err (Anon "sign");
  jwt_parse issuer leeway now kf tok :=
    if bool_decide (tok = "header.claims.signature") then
      match kf "RSA" "RS256" with
      | Err e => Err e
      | Ok _ => if registered_ok issuer leeway now c0 then Ok c0 else Err (Anon "token has invalid claims")
      end
    else Err (Anon "token is malformed");
  jwt_public priv := "public " +:+ priv;
}.
Proof.
  - intros issuer leeway now kf kid priv c tok Hs Hk. destruct (bool_decide_reflect (c = c0)) as [->|]; [|done].
    injection Hs as <-. eval_tests. by rewrite Hk.
  - intros issuer leeway now kf tok c Hp. destruct (bool_decide_reflect (tok = "header.claims.signature")); [|done]. destruct (kf _ _) eqn:Hk; [|done].
    destruct (registered_ok _ _ _ _) eqn:Hr; [|done]. simplify_eq. eauto.
Defined.

Module Sample.
Definition cfg : TokenCfg := mkTokenCfg "https://sso.example" (15 * minute) (24 * hour) true "kid-1" "key".
Definition ctx : Ctx := mkCtx "192.0.2.7" "curl/8.5".
Definition start : World MemRedis :=
  mkWorld ∅ (1750000000 * second) [] [[1; 2; 3]; [4; 5; 6]; [7; 8; 9]]%N
    ["5f0c1c9e-9d0f-4f0e-8f5e-0d7c4f1f6b3a"] [].
Definition generate : M (World MemRedis) RefreshToken :=
  GenerateRefreshToken cfg ctx "acc-1" "web" "sess-1" "openid".
(** The state with one refresh token of session [sess-1]. *)
Definition one_token : World MemRedis := (generate start).2.
Definition token : string := hex_encode (rand_block refreshTokenLength [1; 2; 3]%N).
(** Another one, of session [sess-2]. *)
Definition two_tokens : World MemRedis :=
  (GenerateRefreshToken cfg ctx "acc-1" "web" "sess-2" "openid" one_token).2.
Definition token2 : string := hex_encode (rand_block refreshTokenLength [4; 5; 6]%N).
Definition logged_out : World MemRedis := (RevokeAllForSession ctx "sess-1" two_tokens).2.
Definition old : RefreshToken :=
  mkRT "" "acc-1" "web" "sess-1" "openid" "192.0.2.7" "curl/8.5"
    (1750000000 * second + 24 * hour) (1750000000 * second).
(** After the first token was rotated. *)
Definition rotated1 : World MemRedis := (RotateRefreshToken cfg ctx token one_token).2.
End Sample.

Definition sample_claims : AccessTokenClaims :=
  Claims "https://sso.example" "acc-1" ["api"; "web"] (Some ((1750000000 + 900) * second)) None
    (Some (1750000000 * second)) "5f0c1c9e-9d0f-4f0e-8f5e-0d7c4f1f6b3a" "acc-1" "alice"
    "alice@example.org" ["user"] [] "openid" "web" "sess-1".

Module Witnesses.
#[local] Instance sample_jwt : JwtLib := one_jwt sample_claims.
Import Sample.

Lemma start_empty k : view start k = None.
Proof. unfold view, start. cbn. by rewrite lookup_empty. Qed.
Lemma one_token_reached : rtc (step cfg) start one_token.
Proof. eapply rtc_once, step_generate; vm_compute; reflexivity. Qed.
Lemma two_tokens_reached : rtc (step cfg) start two_tokens.
Proof.
  eapply rtc_r; [apply one_token_reached|]. apply step_generate; vm_compute; reflexivity.
Qed.
Lemma one_token_rotatable : rotatable cfg one_token token [4; 5; 6]%N old.
Proof.
  unfold rotatable. split; [vm_compute; reflexivity|]. split.
  { apply (reachable_Inv cfg eq_refl start); [apply start_empty|apply one_token_reached]. }
  split_and!; [vm_compute; discriminate..| |done|].
  - eexists. vm_compute. reflexivity.
  - do 2 eexists. split; [vm_compute; reflexivity|]. vm_compute. reflexivity.
Qed.

Lemma live_tokens_are_indexed_witness :
  token_indexed (refresh_secs cfg) (now_ms one_token) (view one_token) (HashToken token)
    (default (Entry (RStr "") None) (view one_token (refreshKey (HashToken token)))).
Proof.
  apply (live_tokens_are_indexed cfg start one_token); [done|apply start_empty|apply one_token_reached|].
  vm_compute. reflexivity.
Defined.

Lemma revoked_session_has_no_token_witness :
  match ValidateRefreshToken token2 (put_net [] logged_out) with
  | (Ok rt, _) => rt_SessionID rt ≠ "sess-1"
  | _ => False
  end.
Proof.
  destruct (ValidateRefreshToken token2 (put_net [] logged_out)) as [[rt|e] w''] eqn:Hval.
  - apply (revoked_session_has_no_token cfg ctx "sess-1" start two_tokens logged_out [] token2 rt w'');
      [done|apply start_empty|apply two_tokens_reached|done| |exact Hval].
    unfold logged_out. apply run_ok. vm_compute. reflexivity.
  - assert (is_ok (ValidateRefreshToken token2 (put_net [] logged_out)).1 = true) as Hok
      by (vm_compute; reflexivity).
    by rewrite Hval in Hok.
Defined.

Lemma rotation_replaces_token_witness :
  ∃ w', RotateRefreshToken cfg ctx token one_token
        = (Ok (successor cfg (w_now one_token) (fresh_token [4; 5; 6]%N) old), w').
Proof.
  destruct (rotation_replaces_token cfg ctx token one_token [4; 5; 6]%N old) as (w'&nd&Hr&_);
    [done|apply one_token_rotatable|vm_compute; discriminate|eauto].
Defined.

Lemma rotation_replay_is_idempotent_witness :
  ∃ w'', RotateRefreshToken cfg ctx token (tick (10 * second) rotated1)
         = (Ok (successor cfg (w_now one_token) (fresh_token [4; 5; 6]%N) old), w'').
Proof.
  destruct (rotation_replay_is_idempotent cfg ctx ctx token one_token [4; 5; 6]%N old rotated1 (10 * second))
    as (w''&Hr&_); [done|apply one_token_rotatable|vm_compute; discriminate|..|eauto].
  - unfold rotated1. apply run_ok. vm_compute. reflexivity.
  - vm_compute. split; discriminate.
  - vm_compute. reflexivity.
  - vm_compute. discriminate.
  - vm_compute. reflexivity.
Defined.

Lemma rotation_replay_expires_witness :
  ∃ w'', RotateRefreshToken cfg ctx token (tick (30 * second) rotated1) = (Err rotation_not_found, w'').
Proof.
  eapply (rotation_replay_expires cfg ctx ctx token one_token [4; 5; 6]%N old rotated1);
    [done|apply one_token_rotatable|vm_compute; discriminate|..].
  - unfold rotated1. apply run_ok. vm_compute. reflexivity.
  - vm_compute. discriminate.
  - vm_compute. discriminate.
Defined.

(** ** Access tokens *)
Definition jwt : string := "header.claims.signature".
Definition jti : string := cl_ID sample_claims.
(** What the client asked for; issuing it at [start] gives [sample_claims]. *)
Definition request : AccessTokenClaims :=
  Claims "" "" ["api"] None None None jti "acc-1" "alice" "alice@example.org" ["user"] [] "openid" "web" "sess-1".

Lemma access_validation_sound_witness : access_accepted cfg start jwt sample_claims.
Proof.
  apply (access_validation_sound cfg jwt start sample_claims (ValidateAccessTokenWithContext cfg jwt start).2).
  apply run_ok. vm_compute. reflexivity.
Defined.

Lemma access_validation_fails_closed_witness :
  ∃ e w', ValidateAccessTokenWithContext cfg jwt (put_net [ReplyLost] start) = (Err e, w') ∧
          e = ErrBlacklistUnavailable.
Proof.
  destruct (access_validation_fails_closed cfg jwt (put_net [ReplyLost] start) ReplyLost [] eq_refl ltac:(done))
    as (e&w'&Hv&He). exists e, w'. split; [exact Hv|].
  apply (He sample_claims); [vm_compute; reflexivity|cbn; set_solver|done].
Defined.

Definition revoked1 : World MemRedis := (RevokeAccessToken jti ((1750000000 + 900) * second) start).2.
Lemma revoked_access_token_refused_witness :
  is_ok (ValidateAccessTokenWithContext cfg jwt (put_net [] (tick minute revoked1))).1 = false.
Proof.
  apply (revoked_access_token_refused cfg jti ((1750000000 + 900) * second) start revoked1).
  - unfold revoked1. apply run_ok. vm_compute. reflexivity.
  - done.
  - intros c Hc. vm_compute in Hc. injection Hc as <-. done.
Defined.

Definition issued1 : World MemRedis := (GenerateAccessToken cfg request start).2.
Lemma access_token_round_trip_witness :
  ∃ w'', ValidateAccessTokenWithContext cfg jwt (tick minute issued1)
         = (Ok (issued cfg jti (1750000000 * second) request), w'').
Proof.
  apply (access_token_round_trip cfg request start jwt issued1 minute); [|done..|vm_compute|vm_compute|vm_compute].
  - unfold issued1. apply run_ok. vm_compute. reflexivity.
  - split; discriminate.
  - reflexivity.
  - reflexivity.
Defined.

Definition short_request : AccessTokenClaims :=
  Claims "" "" ["api"] (Some ((1750000000 + 900) * second)) None None jti "acc-1" "alice" "alice@example.org"
    ["user"] [] "openid" "web" "sess-1".
Lemma short_lived_is_short_witness :
  is_ok (jwt_parse (tc_issuer cfg) accessTokenClockSkew ((1750000000 + 3630) * second) (keyfunc cfg) jwt) = false.
Proof.
  apply (short_lived_is_short cfg short_request start jwt (GenerateShortLivedToken cfg short_request start).2).
  - apply run_ok. vm_compute. reflexivity.
  - vm_compute. discriminate.
Defined.

(** ** Accounts *)
Definition revoked_once : World MemRedis := (RevokeAccountTokens cfg ctx "acc-1" start).2.
Lemma revocation_time_never_moves_back_witness :
  ∃ c', revoked_secs (view (SetAccountRevokedAfter "acc-1" (1740000000 * second) minute revoked_once).2
                        (buildAccountRevokedAfterKey "acc-1")) = Some c' ∧ 1750000000 <= c'.
Proof.
  destruct (revocation_time_never_moves_back "acc-1" (1740000000 * second) minute revoked_once (Ok tt)
    (SetAccountRevokedAfter "acc-1" (1740000000 * second) minute revoked_once).2 1750000000) as (c'&?&?&_);
    [done|vm_compute; split; congruence|vm_compute; reflexivity| |eauto].
  apply run_ok. vm_compute. reflexivity.
Defined.

Lemma refresh_validation_sound_witness : refresh_accepted one_token token old.
Proof.
  apply (refresh_validation_sound token one_token old (ValidateRefreshToken token one_token).2).
  apply run_ok. vm_compute. reflexivity.
Defined.

(** The account is revoked a minute after the token was issued. *)
Definition later : World MemRedis := tick minute one_token.
Definition revoked_later : World MemRedis := (RevokeAccountTokens cfg ctx "acc-1" later).2.
Lemma revoked_account_refresh_refused_witness :
  is_ok (ValidateRefreshToken token (put_net [] (tick minute revoked_later))).1 = false.
Proof.
  eapply (revoked_account_refresh_refused cfg ctx "acc-1" later revoked_later minute [] token);
    [vm_compute; split; congruence|done|left; vm_compute; reflexivity| |done|vm_compute; reflexivity
    |vm_compute; reflexivity|vm_compute; reflexivity|done|vm_compute; reflexivity].
  unfold revoked_later. apply run_ok. vm_compute. reflexivity.
Defined.

Lemma refresh_token_round_trip_witness :
  ∃ w'', ValidateRefreshToken token (tick minute one_token) = (Ok old, w'').
Proof.
  destruct (refresh_token_round_trip cfg ctx "acc-1" "web" "sess-1" "openid" start
    (mkRT token "acc-1" "web" "sess-1" "openid" "192.0.2.7" "curl/8.5"
      (1750000000 * second + 24 * hour) (1750000000 * second)) one_token minute) as (_&_&_&_&Hv); [done| |done..| | |exact Hv].
  - apply (reachable_Inv cfg eq_refl start); [apply start_empty|apply rtc_refl].
  - vm_compute. reflexivity.
  - vm_compute. reflexivity.
Defined.
End Witnesses.

(** ** Deviations *)
Module Deviations.
Import Sample.
(** A token issued 0.2 s into a second, its account revoked 0.7 s into the same second. *)
Definition same_second : World MemRedis :=
  (RevokeAccountTokens cfg ctx "acc-1"
     (tick (500 * millisecond) (generate (tick (200 * millisecond) start)).2)).2.

(** The revocation time is cut to the second, so a refresh token issued earlier in the
    second in which its account was revoked still validates. *)
Example same_second_token_survives :
  is_ok (ValidateRefreshToken token (tick hour same_second)).1 = true.
Proof. vm_compute. reflexivity. Qed.

(** The record lives for twice the access token lifetime (here half an hour), so a
    revoked refresh token (here valid for a day) validates again afterwards. *)
Example revoked_account_comes_back :
  is_ok (ValidateRefreshToken token (tick minute Witnesses.revoked_later)).1 = false ∧
  is_ok (ValidateRefreshToken token (tick hour Witnesses.revoked_later)).1 = true.
Proof. vm_compute. split; reflexivity. Qed.
End Deviations.
