(* ===== verification/Session.v ===== *)
(** * [internal/session]: sessions, their Redis store and the local cache

    Sessions are JSON documents in Redis with a sliding deadline, listed in an index per
    account. The service also keeps parsed sessions in a [sync.Map]; the map holds
    pointers that callers hold too, so sessions are cells of a heap. *)
From S2P Require Import Prelude GoTime Json Hash LuaPattern Redis World Footprint Cache TokenDomain.
Local Open Scope Z_scope.

(** ** [domain.Session] *)
Record Session : Type := mkSession {
  se_ID : string;
  se_AccountID : string;
  se_Username : string;
  se_IP : string;
  se_UserAgent : string;
  se_MFAVerified : bool;
  se_CreatedAt : Z;
  se_LastActiveAt : Z;
  se_Metadata : option (list (string * json));
}.
#[export] Instance session_inhabited : Inhabited Session :=
  populate (mkSession "" "" "" "" "" false zero_time zero_time None).

Definition ErrSessionAccountIDRequired := Sentinel "session: account_id is required".

(** [NewSession] at time [now] with the identifier [id] from the UUID generator. *)
Definition NewSession (now : Z) (id accountID username ip userAgent : string) (mfaVerified : bool) :
    res Session :=
  if bool_decide (accountID = "") then Err ErrSessionAccountIDRequired
  else Ok (mkSession id accountID username ip userAgent mfaVerified now now (Some [])).

Definition session_IsExpired (now ttl : Z) (s : option Session) : bool :=
  match s with None => true | Some s => ttl <? now - se_LastActiveAt s end.

Definition touch (now : Z) (s : Session) : Session :=
  mkSession (se_ID s) (se_AccountID s) (se_Username s) (se_IP s) (se_UserAgent s) (se_MFAVerified s)
    (se_CreatedAt s) now (se_Metadata s).

(** [json.Marshal] and [json.Unmarshal] of a session. *)
Definition session_members (s : Session) (created active : string) : list (string * json) :=
  [("id", JStr (se_ID s)); ("account_id", JStr (se_AccountID s))]
  ++ omit_str "username" (se_Username s)
  ++ [("ip", JStr (se_IP s)); ("user_agent", JStr (se_UserAgent s));
      ("mfa_verified", JBool (se_MFAVerified s)); ("created_at", JStr created);
      ("last_active_at", JStr active);
      ("metadata", match se_Metadata s with Some l => JObj l | None => JNull end)].

Definition marshal_session (s : Session) : res string :=
  match two_times (se_CreatedAt s) (se_LastActiveAt s) with
  | Ok (c, a) => Ok (jobj (session_members s c a))
  | Err e => Err e
  end.

Definition get_metadata (l : list (string * json)) : option (option (list (string * json))) :=
  match jfield "metadata" l with
  | None | Some JNull => Some None
  | Some (JObj o) => Some (Some o)
  | _ => None
  end.

Definition session_fields (l : list (string * json)) : option Session :=
  id ← get_str "id" l; a ← get_str "account_id" l; u ← get_str "username" l;
  ip ← get_str "ip" l; ua ← get_str "user_agent" l; mfa ← get_bool "mfa_verified" l;
  c ← get_time "created_at" l; la ← get_time "last_active_at" l; md ← get_metadata l;
  Some (mkSession id a u ip ua mfa c la md).

Definition unmarshal_session (s : string) : option Session :=
  match jparse s with
  | Some (JObj l) => session_fields l
  | Some JNull => session_fields []
  | _ => None
  end.

(** ** Keys *)
Definition sessionKeyPrefix : string := "session:".
Definition accountSessionsPrefix : string := "account_sessions:".
Definition buildSessionKey (sessionID : string) : string := sessionKeyPrefix +:+ sessionID.
Definition buildAccountSessionsKey (accountID : string) : string := accountSessionsPrefix +:+ accountID.
#[global] Arguments buildSessionKey : simpl never.
#[global] Arguments buildAccountSessionsKey : simpl never.

(** ** Lua order of strings, and [table.sort] of the sessions found *)
Fixpoint str_ltb (a b : string) : bool :=
  match a, b with
  | _, EmptyString => false
  | EmptyString, String _ _ => true
  | String c a', String d b' =>
      if (N_of_ascii c <? N_of_ascii d)%N then true
      else if (N_of_ascii d <? N_of_ascii c)%N then false else str_ltb a' b'
  end.

(** A session identifier with the timestamp text found in its document. *)
Record found : Type := Found { fd_id : string; fd_ts : string }.

Definition found_before (a b : found) : bool :=
  if bool_decide (fd_ts a = fd_ts b) then str_ltb (fd_id a) (fd_id b) else str_ltb (fd_ts a) (fd_ts b).

Fixpoint insert_found (x : found) (l : list found) : list found :=
  match l with
  | [] => [x]
  | y :: l' => if found_before x y then x :: y :: l' else y :: insert_found x l'
  end.
Definition sort_found (l : list found) : list found := foldr insert_found [] l.

(** ** Scripts *)
Section scripts.
Context {R : Type} `{RedisServer R}.

Definition revokeAccountSessionsScript (indexKey : string) (now : Z) : M R (list string) :=
  let! members := s_smembers now indexKey in
  s_del now indexKey ;;
  ret members.

Definition createSessionScript (sessionKey indexKey data : string) (secs : Z) (sessionID : string)
    (now : Z) : M R unit :=
  s_set now sessionKey data (Some (secs * 1000)) ;;
  s_sadd now indexKey sessionID ;;
  s_pexpire now indexKey (secs * 1000).

(** The timestamp a session's document shows: a quoted text or a number. *)
Definition last_active_text (data : string) : option string :=
  match match_str "last_active_at" data with
  | Some t => Some t
  | None => match_num "last_active_at" data
  end.

(** Sort the listed sessions into found and corrupted (or missing) ones. *)
Fixpoint scan_sessions (now : Z) (ids : list string) : M R (list found * list string) :=
  match ids with
  | [] => ret ([], [])
  | sid :: ids' =>
      let! data := s_get now (buildSessionKey sid) in
      let! (good, bad) := scan_sessions now ids' in
      match data with
      | None => ret (good, sid :: bad)
      | Some d => match last_active_text d with
                  | Some ts => ret (Found sid ts :: good, bad)
                  | None => ret (good, sid :: bad)
                  end
      end
  end.

Definition drop_session (now : Z) (indexKey sid : string) : M R unit :=
  s_del now (buildSessionKey sid) ;; s_srem now indexKey sid.

(** One pass over the sorted sessions, dropping those [pick] selects while more than
    [maxSessions] remain. *)
Fixpoint evict_pass (now : Z) (indexKey : string) (pick : string → bool) (maxSessions : Z)
    (l : list found) (remaining : Z) : M R (list string * Z) :=
  match l with
  | [] => ret ([], remaining)
  | x :: l' =>
      if remaining <=? maxSessions then ret ([], remaining)
      else if pick (fd_id x) then
        drop_session now indexKey (fd_id x) ;;
        let! (evicted, remaining) := evict_pass now indexKey pick maxSessions l' (remaining - 1) in
        ret (fd_id x :: evicted, remaining)
      else evict_pass now indexKey pick maxSessions l' remaining
  end.

Definition evictOldestSessionsScript (indexKey : string) (maxSessions : Z) (protectedSessionID : string)
    (now : Z) : M R (list string) :=
  let! sessionIDs := s_smembers now indexKey in
  if Z.of_nat (length sessionIDs) <=? maxSessions then ret [] else
  let! (sessions, corrupted) := scan_sessions now sessionIDs in
  for_each corrupted (drop_session now indexKey) ;;
  let sessions := sort_found sessions in
  let! (evicted, remaining) :=
    evict_pass now indexKey (λ sid, negb (bool_decide (sid = protectedSessionID))) maxSessions sessions
      (Z.of_nat (length sessions)) in
  if (maxSessions <? remaining) && negb (bool_decide (protectedSessionID = "")) then
    let! (evicted2, _) :=
      evict_pass now indexKey (λ sid, bool_decide (sid = protectedSessionID)) maxSessions sessions remaining in
    ret (evicted ++ evicted2)
  else ret evicted.
End scripts.

(** ** The service *)

(** A key of the session store. *)
Definition session_store_key (k : string) : Prop :=
  ∃ s, k = buildSessionKey s ∨ k = buildAccountSessionsKey s.

(** Where the token service keeps refresh tokens and their indexes. *)
Definition token_keys : list string := ["refresh_token:"; "session_tokens:"].
Lemma session_store_not_token k : session_store_key k → ¬ under token_keys k.
Proof.
  intros (s&[->| ->]).
  - apply (under_apart [sessionKeyPrefix]); [reflexivity|]. by apply (under_intro _ sessionKeyPrefix).
  - apply (under_apart [accountSessionsPrefix]); [reflexivity|]. by apply (under_intro _ accountSessionsPrefix).
Qed.

(** [TokenRevoker]: what the session service asks of the token service. *)
Record TokenRevoker (R : Type) `{RedisServer R} : Type := mkRevoker {
  revoke_all : string → M (World R) unit;
  (** the session has no refresh token left *)
  tokens_gone : string → World R → Prop;
  (** only keys of tokens change *)
  revoke_all_touches sid : touches (under token_keys) (revoke_all sid);
  revoke_all_gone sid w : (revoke_all sid w).1 = Ok tt → tokens_gone sid (revoke_all sid w).2;
  (** and the session store has no say in it *)
  tokens_gone_frame sid w w' :
    tokens_gone sid w → (∀ k, ¬ session_store_key k → view w' k = view w k) → tokens_gone sid w';
}.
Arguments revoke_all {R _}. Arguments tokens_gone {R _}. Arguments revoke_all_touches {R _}.
Arguments revoke_all_gone {R _}. Arguments tokens_gone_frame {R _}. Arguments mkRevoker {R _}.

(** Sessions and their indexes are left alone. *)
Lemma revoke_all_frame `{RedisServer R} (tr : TokenRevoker R) sid w :
  w_now (revoke_all tr sid w).2 = w_now w ∧ ∀ k, session_store_key k → view (revoke_all tr sid w).2 k = view w k.
Proof.
  destruct (revoke_all_touches tr sid w) as (Hn&_&Hv). split; [done|]. intros k Hk. by apply Hv, session_store_not_token.
Qed.
Lemma revoke_all_healthy `{RedisServer R} (tr : TokenRevoker R) sid w : w_net w = [] → w_net (revoke_all tr sid w).2 = [].
Proof. apply revoke_all_touches. Qed.

Definition DefaultSessionTTL : Z := 24 * hour.
Definition DefaultMaxSessions : Z := 10.
Definition DefaultMaxSessionAge : Z := 7 * 24 * hour.
Definition sessionCacheMaxSize : Z := 8192.

(** [SessionConfig] without the revoker, and the service's settings. *)
Record SessionConfig : Type := mkSessCfg {
  sc_ttl : Z; sc_maxAge : Z; sc_maxSessions : Z; sc_indexFailClosed : bool }.

(** Fields left at zero get the defaults. *)
Definition NewSessionServiceWithConfig (cfg : SessionConfig) : SessionConfig :=
  mkSessCfg (if 0 <? sc_ttl cfg then sc_ttl cfg else DefaultSessionTTL)
    (if 0 <? sc_maxAge cfg then sc_maxAge cfg else DefaultMaxSessionAge)
    (if 0 <? sc_maxSessions cfg then sc_maxSessions cfg else DefaultMaxSessions)
    (sc_indexFailClosed cfg).

(** A pointer to a session is its place in the heap. *)
Record cachedSession : Type := mkCached { cs_session : nat; cs_json : string; cs_cachedAt : Z }.

Record Sess (R : Type) : Type := mkSess {
  sv_world : World R;
  sv_heap : list Session;
  sv_cache : gmap string cachedSession;
  sv_size : Z;
}.
Arguments mkSess {R}. Arguments sv_world {R}. Arguments sv_heap {R}.
Arguments sv_cache {R}. Arguments sv_size {R}.

Definition ErrSessionNotFound := Sentinel "session not found".
Definition ErrSessionExpired := Sentinel "session expired".
Definition ErrSessionAccessDenied := Sentinel "session not found or access denied".
Definition ErrTokenRevokerNotConfigured := Sentinel "token revoker not configured".
