(* ===== verification/SessionService.v ===== *)
(** * [internal/session/service]: the operations of the session service

    The state is the world, the heap of session objects and the local cache with its
    counter. Errors that the code only logs are dropped ([ignore]). *)
From S2P Require Import Prelude GoTime Json Hash LuaPattern Redis World Cache TokenDomain Session.
Local Open Scope Z_scope.

Section service.
Context {R : Type} `{RedisServer R} (cfg : SessionConfig) (revoker : option (TokenRevoker R)).
Implicit Types s : Sess R.

Definition set_world (w : World R) (s : Sess R) : Sess R := mkSess w (sv_heap s) (sv_cache s) (sv_size s).
Definition on_world {A} (m : M (World R) A) : M (Sess R) A := λ s,
  let '(r, w) := m (sv_world s) in (r, mkSess w (sv_heap s) (sv_cache s) (sv_size s)).

(** ** Objects *)
Definition load_obj (p : nat) : M (Sess R) Session := gets (λ s, sv_heap s !!! p).
Definition store_obj (p : nat) (x : Session) : M (Sess R) unit :=
  modify (λ s, mkSess (sv_world s) (<[p := x]> (sv_heap s)) (sv_cache s) (sv_size s)).
Definition new_obj (x : Session) : M (Sess R) nat := λ s,
  (Ok (length (sv_heap s)), mkSess (sv_world s) (sv_heap s ++ [x]) (sv_cache s) (sv_size s)).

(** [UpdateActivity] writes the object in place. *)
Definition UpdateActivity (p : nat) : M (Sess R) unit :=
  let! t := on_world now in
  let! x := load_obj p in
  store_obj p (touch t x).

(** ** The local cache *)
Definition cacheStore (sessionID : string) (cs : cachedSession) : M (Sess R) unit :=
  modify (λ s,
    if sessionCacheMaxSize <=? sv_size s then s else
    match sv_cache s !! sessionID with
    | Some _ => s
    | None => mkSess (sv_world s) (sv_heap s) (<[sessionID := cs]> (sv_cache s)) (sv_size s + 1)
    end).

(** [LoadAndDelete] with the counter kept in step. *)
Definition cacheEvict (sessionID : string) : M (Sess R) unit :=
  modify (λ s, match sv_cache s !! sessionID with
    | Some _ => mkSess (sv_world s) (sv_heap s) (delete sessionID (sv_cache s)) (sv_size s - 1)
    | None => s
    end).

(** [sessionCache.Delete] alone. *)
Definition cacheDelete (sessionID : string) : M (Sess R) unit :=
  modify (λ s, mkSess (sv_world s) (sv_heap s) (delete sessionID (sv_cache s)) (sv_size s)).

(** The entries older than twice the session lifetime go. *)
Definition evictStaleCacheEntries : M (Sess R) unit :=
  modify (λ s,
    let threshold := w_now (sv_world s) - 2 * sc_ttl cfg in
    let stale := filter (λ kv, cs_cachedAt kv.2 < threshold) (sv_cache s) in
    mkSess (sv_world s) (sv_heap s) (sv_cache s ∖ stale) (sv_size s - Z.of_nat (size stale))).

(** The cached object when the document is the one it was parsed from. *)
Definition cached_for (sessionID data : string) : M (Sess R) (option nat) :=
  gets (λ s, match sv_cache s !! sessionID with
    | Some cs => if bool_decide (cs_json cs = data) then Some (cs_session cs) else None
    | None => None
    end).

Definition parse_and_cache (sessionID data : string) : M (Sess R) nat :=
  let! hit := cached_for sessionID data in
  match hit with
  | Some p => ret p
  | None =>
      match unmarshal_session data with
      | None => fail (Wrap "unmarshal session" (Anon "json"))
      | Some x =>
          let! p := new_obj x in
          let! t := on_world now in
          cacheStore sessionID (mkCached p data t) ;;
          ret p
      end
  end.

(** ** Reading *)
Definition GetSession (sessionID : string) : M (Sess R) nat :=
  let! r := try (on_world (Get (buildSessionKey sessionID))) in
  match r with
  | Err e => if errors_is e ErrKeyNotFound then fail ErrSessionNotFound else fail (Wrap "get session" e)
  | Ok data => parse_and_cache sessionID data
  end.

(** ** The session limit *)
Definition revoke_tokens (sid : string) : M (Sess R) unit :=
  match revoker with
  | None => ret tt
  | Some tr => on_world (revoke_all tr sid)
  end.

(** The goroutines that revoke the tokens of the evicted sessions each make one
    independent call and drop its error; they run here one after the other. *)
Definition revoke_each (ids : list string) : M (Sess R) unit :=
  for_each ids (λ sid, if bool_decide (sid = "") then ret tt else ignore (revoke_tokens sid)).

Definition enforceSessionLimit (accountID protectedSessionID : string) : M (Sess R) unit :=
  if sc_maxSessions cfg <=? 0 then ret tt else
  match revoker with
  | None => fail ErrTokenRevokerNotConfigured
  | Some _ =>
      let! evicted := wrap "evict oldest sessions" (on_world (redis_call
        (evictOldestSessionsScript (buildAccountSessionsKey accountID) (sc_maxSessions cfg) protectedSessionID))) in
      revoke_each evicted
  end.

Definition EnforceSessionLimit (accountID : string) : M (Sess R) unit := enforceSessionLimit accountID "".

(** ** Writing *)
Definition session_secs : Z := Z.max 1 (ceil_secs (sc_ttl cfg)).

(** The object at [p] becomes a session that starts now. *)
Definition begin_session (t : Z) (id : string) (x : Session) : Session :=
  mkSession id (se_AccountID x) (se_Username x) (se_IP x) (se_UserAgent x) (se_MFAVerified x) t t (se_Metadata x).

Definition CreateSession (p : nat) : M (Sess R) unit :=
  let! x0 := load_obj p in
  let! id := (if bool_decide (se_ID x0 = "") then on_world uuid_new else ret (se_ID x0)) in
  let! t := on_world now in
  let x := begin_session t id x0 in
  store_obj p x ;;
  let! data := lift_res (wrap_res "marshal session" (marshal_session x)) in
  wrap "create session" (on_world (redis_call (createSessionScript (buildSessionKey id)
    (buildAccountSessionsKey (se_AccountID x)) data session_secs id))) ;;
  let! r := try (enforceSessionLimit (se_AccountID x) id) in
  match r with
  | Err e => if sc_indexFailClosed cfg then fail (Wrap "enforce session limit" e) else ret tt
  | Ok _ => ret tt
  end ;;
  let! t2 := on_world now in
  cacheStore id (mkCached p data t2).

(** The object is touched, then written back if the key still exists. *)
Definition write_back (ctx sessionID : string) (p : nat) : M (Sess R) unit :=
  UpdateActivity p ;;
  let! x := load_obj p in
  let! data := lift_res (wrap_res "marshal session" (marshal_session x)) in
  let! ok := wrap ctx (on_world (SetIfExists (buildSessionKey sessionID) data (sc_ttl cfg))) in
  guard_err (negb ok) (Anon "session no longer exists") ;;
  ignore (on_world (Expire (buildAccountSessionsKey (se_AccountID x)) (sc_ttl cfg))).

Definition UpdateSession (p : nat) : M (Sess R) unit :=
  let! x := load_obj p in
  write_back "update session" (se_ID x) p ;;
  cacheEvict (se_ID x).

Definition DeleteSession (sessionID : string) : M (Sess R) unit :=
  let! got := try (GetSession sessionID) in
  wrap "delete session" (on_world (Del [buildSessionKey sessionID])) ;;
  cacheEvict sessionID ;;
  match got with
  | Ok p =>
      let! x := load_obj p in
      ignore (on_world (SRem (buildAccountSessionsKey (se_AccountID x)) sessionID))
  | Err _ => ret tt
  end.

Definition forceExpireSession (sessionID accountSessionsKey : string) : M (Sess R) unit :=
  ignore (on_world (Del [buildSessionKey sessionID])) ;;
  (if bool_decide (accountSessionsKey = "") then ret tt
   else ignore (on_world (SRem accountSessionsKey sessionID))) ;;
  cacheEvict sessionID ;;
  ignore (revoke_tokens sessionID).

(** Older than the absolute limit. *)
Definition too_old (t : Z) (x : Session) : bool :=
  (0 <? sc_maxAge cfg) && (sc_maxAge cfg <? t - se_CreatedAt x).

Definition RefreshSession (sessionID : string) : M (Sess R) unit :=
  let! p := GetSession sessionID in
  let! t := on_world now in
  let! x := load_obj p in
  if too_old t x then
    forceExpireSession sessionID (buildAccountSessionsKey (se_AccountID x)) ;;
    fail ErrSessionExpired
  else
    write_back "refresh session" sessionID p ;;
    cacheDelete sessionID.

Definition ValidateSession (sessionID : string) : M (Sess R) nat :=
  let! r := try (on_world (GetEx (buildSessionKey sessionID) (sc_ttl cfg))) in
  match r with
  | Err e => if errors_is e ErrKeyNotFound then fail ErrSessionNotFound else fail (Wrap "get session" e)
  | Ok data =>
      let! p := parse_and_cache sessionID data in
      let! t := on_world now in
      let! x := load_obj p in
      if too_old t x || session_IsExpired t (sc_ttl cfg) (Some x) then
        forceExpireSession sessionID (buildAccountSessionsKey (se_AccountID x)) ;;
        fail ErrSessionExpired
      else ret p
  end.

Definition isSessionActive (t : Z) (x : Session) : bool :=
  negb (too_old t x) && negb (session_IsExpired t (sc_ttl cfg) (Some x)).

(** ** Revocation and listing *)
Definition RevokeSession (accountID sessionID : string) : M (Sess R) unit :=
  let! p := GetSession sessionID in
  let! x := load_obj p in
  guard_err (negb (bool_decide (se_AccountID x = accountID))) ErrSessionAccessDenied ;;
  wrap "revoke tokens for session" (revoke_tokens sessionID) ;;
  wrap "delete session" (on_world (Del [buildSessionKey sessionID])) ;;
  ignore (on_world (SRem (buildAccountSessionsKey accountID) sessionID)).

Definition RevokeAllForAccount (accountID : string) : M (Sess R) unit :=
  let! ids := wrap "revoke account sessions" (on_world (redis_call
    (revokeAccountSessionsScript (buildAccountSessionsKey accountID)))) in
  for_each ids (λ sid, ignore (revoke_tokens sid)) ;;
  match ids with
  | [] => ret tt
  | _ => wrap "delete account sessions" (on_world (Del (map buildSessionKey ids)))
  end.

(** The batch of GETs of the listing is one round trip; a command error fails it. *)
Fixpoint pipeline_get (keys : list string) (now : Z) : M R (list (option string)) :=
  match keys with
  | [] => ret []
  | k :: keys' =>
      let! v := s_get now k in
      let! vs := pipeline_get keys' now in
      ret (v :: vs)
  end.

(** One listed session: a missing key is read again, then the document is checked.
    [Some None] asks for the entry to be removed from the index. *)
Definition list_one (indexKey sid : string) (fetched : option string) :
    M (Sess R) (option (option Session)) :=
  let! data := (match fetched with
    | Some d => ret (Some d)
    | None => let! r := try (on_world (Get (buildSessionKey sid))) in
              ret (match r with Ok d => Some d | Err _ => None end)
    end) in
  match d ← data; unmarshal_session d with
  | None => ret (Some None)
  | Some x =>
      let! t := on_world now in
      if isSessionActive t x then ret (Some (Some x))
      else forceExpireSession sid indexKey ;; ret None
  end.

(** The active sessions and the stale entries. *)
Fixpoint list_all (indexKey : string) (l : list (string * option string)) :
    M (Sess R) (list Session * list string) :=
  match l with
  | [] => ret ([], [])
  | (sid, fetched) :: l' =>
      let! one := list_one indexKey sid fetched in
      let! (sessions, stale) := list_all indexKey l' in
      ret (match one with
           | Some (Some x) => (x :: sessions, stale)
           | Some None => (sessions, sid :: stale)
           | None => (sessions, stale)
           end)
  end.

Definition ListSessionsByAccount (accountID : string) : M (Sess R) (list Session) :=
  let indexKey := buildAccountSessionsKey accountID in
  let! ids := wrap "get account sessions" (on_world (SMembers indexKey)) in
  match ids with
  | [] => ret []
  | _ =>
      let! fetched := wrap "pipeline session fetch"
        (on_world (redis_call (pipeline_get (map buildSessionKey ids)))) in
      let! (sessions, stale) := list_all indexKey (zip ids fetched) in
      match stale with
      | [] => ret tt
      | _ => ignore (on_world (redis_call (λ now, for_each stale (s_srem now indexKey))))
      end ;;
      ret sessions
  end.
End service.
