(* ===== verification/SessionSpecs.v ===== *)
(** * What the session scripts do: documents, eviction order, the session limit *)
From Stdlib Require Import Sorted.
From S2P Require Import Prelude GoTime Json Hash LuaPattern Redis World Cache TokenDomain TokenSpecs Session.
Local Open Scope Z_scope.

(** ** Session documents *)
Definition session_wf (x : Session) : bool :=
  forallb utf8_valid [se_ID x; se_AccountID x; se_Username x; se_IP x; se_UserAgent x]
  && match se_Metadata x with Some l => jwf (JObj l) | None => true end.

Lemma session_members_wf x c a : session_wf x = true → utf8_valid c = true → utf8_valid a = true →
  members_wf (session_members x c a) = true.
Proof.
  unfold session_wf, session_members, members_wf. cbn [forallb]. rewrite !andb_true_iff.
  intros [(Hid&Ha&Hu&Hip&Hua&_) Hmd] Hc Hla.
  rewrite !forallb_app, (omit_str_wf _ _ : _ → _ → forallb _ _ = true) by done.
  cbn -[utf8_valid jwf]. rewrite ?Hid, ?Ha, ?Hip, ?Hua.
  destruct (se_Metadata x); cbn -[utf8_valid] in *; rewrite ?Hid, ?Ha, ?Hip, ?Hua, ?Hc, ?Hla, ?Hmd; done.
Qed.

(** A session read back is the session written. *)
Lemma unmarshal_marshal_session x d :
  session_wf x = true → marshal_session x = Ok d → unmarshal_session d = Some x.
Proof.
  intros Hwf. unfold marshal_session. destruct (two_times _ _) as [[c a]|] eqn:Ht; [|done].
  intros [= <-]. apply two_times_ok in Ht as [Hc Ha].
  unfold unmarshal_session. rewrite jparse_jobj by (apply session_members_wf; eauto using marshal_time_utf8).
  apply marshal_time_ok in Hc, Ha. clear Hwf.
  destruct x as [id acc u ip ua mfa cr la md]; cbn in *.
  unfold session_fields, get_str, get_bool, get_time, get_metadata, session_members; cbn.
  destruct u, md; cbn; eval_keys; cbn; rewrite Hc; cbn; by rewrite Ha.
Qed.

(** The scripts find the timestamp of every document the service writes. *)
Lemma last_active_found x d : marshal_session x = Ok d →
  marshal_time (se_LastActiveAt x) = Ok (format_time (se_LastActiveAt x)) ∧
  last_active_text d = Some (format_time (se_LastActiveAt x)).
Proof.
  unfold marshal_session. destruct (two_times _ _) as [[c a]|] eqn:Ht; [|done].
  intros [= <-]. apply two_times_ok in Ht as [Hc Ha].
  assert (a = format_time (se_LastActiveAt x)) as ->
    by (unfold marshal_time in Ha; destruct (_ && _); by simplify_eq).
  split; [done|]. unfold last_active_text, session_members.
  set (md := match se_Metadata x with Some l => _ | None => _ end). cbn [app].
  match goal with |- context [jobj (?x1 :: ?x2 :: ?u ++ ?x3 :: ?x4 :: ?x5 :: ?x6 :: ?y :: ?z)] =>
    change (x1 :: x2 :: u ++ x3 :: x4 :: x5 :: x6 :: y :: z)
      with ((x1 :: x2 :: u) ++ ([x3; x4; x5; x6] ++ y :: z)); rewrite (app_assoc (x1 :: x2 :: u)) end.
  rewrite match_str_member; [done|done| |apply format_time_clean].
  by destruct (se_Username x).
Qed.

(** ** The order of timestamps is a total order *)
Lemma str_ltb_irrefl a : str_ltb a a = false.
Proof. induction a as [|c a IH]; cbn; [done|]. by rewrite N.ltb_irrefl. Qed.

Lemma str_ltb_trichotomy a b : str_ltb a b = false → str_ltb b a = false → a = b.
Proof.
  revert b. induction a as [|c a IH]; intros [|d b]; cbn; try done.
  destruct (N.ltb_spec (N_of_ascii c) (N_of_ascii d)), (N.ltb_spec (N_of_ascii d) (N_of_ascii c)); try done; try lia.
  intros H1 H2. assert (c = d) as -> by (rewrite <-(ascii_N_embedding c), <-(ascii_N_embedding d); f_equal; lia).
  f_equal. by apply IH.
Qed.

Lemma str_ltb_trans a b c : str_ltb a b = true → str_ltb b c = true → str_ltb a c = true.
Proof.
  revert b c. induction a as [|x a IH]; intros [|y b] [|z c]; cbn; try done.
  destruct (N.ltb_spec (N_of_ascii x) (N_of_ascii y)), (N.ltb_spec (N_of_ascii y) (N_of_ascii x)),
    (N.ltb_spec (N_of_ascii y) (N_of_ascii z)), (N.ltb_spec (N_of_ascii z) (N_of_ascii y)),
    (N.ltb_spec (N_of_ascii x) (N_of_ascii z)), (N.ltb_spec (N_of_ascii z) (N_of_ascii x)); try done; try lia.
  apply IH.
Qed.

Lemma str_ltb_asym a b : str_ltb a b = true → str_ltb b a = false.
Proof.
  intros Hab. destruct (str_ltb b a) eqn:Hba; [|done].
  pose proof (str_ltb_trans _ _ _ Hab Hba) as Haa. by rewrite str_ltb_irrefl in Haa.
Qed.

Lemma found_before_trans a b c : found_before a b = true → found_before b c = true → found_before a c = true.
Proof.
  unfold found_before. repeat case_bool_decide; intros Hab Hbc; try congruence; eauto using str_ltb_trans.
  exfalso. assert (str_ltb (fd_ts b) (fd_ts a) = true) as Hba by congruence.
  by rewrite (str_ltb_asym _ _ Hab) in Hba.
Qed.
Lemma found_before_total a b : fd_id a ≠ fd_id b → found_before a b = false → found_before b a = true.
Proof.
  unfold found_before. intros Hne. repeat case_bool_decide; try congruence; intros Hab.
  - destruct (str_ltb (fd_id b) (fd_id a)) eqn:Hba; [done|]. destruct Hne. by apply str_ltb_trichotomy.
  - destruct (str_ltb (fd_ts b) (fd_ts a)) eqn:Hba; [done|]. exfalso.
    assert (fd_ts a = fd_ts b) by (by apply str_ltb_trichotomy). congruence.
Qed.

(** ** Sorting *)
Definition sorted (l : list found) : Prop := StronglySorted (λ a b, found_before a b = true) l.

Lemma insert_found_perm x l : insert_found x l ≡ₚ x :: l.
Proof.
  induction l as [|y l IH]; cbn; [done|]. destruct (found_before x y); [done|]. rewrite IH. apply Permutation_swap.
Qed.
Lemma sort_found_perm l : sort_found l ≡ₚ l.
Proof. induction l as [|x l IH]; cbn; [done|]. by rewrite insert_found_perm, IH. Qed.

Lemma insert_found_sorted x l : fd_id x ∉ map fd_id l → sorted l → sorted (insert_found x l).
Proof.
  intros Hx Hl. induction Hl as [|y l Hl IH Hy]; cbn.
  - repeat constructor.
  - cbn in Hx. rewrite not_elem_of_cons in Hx. destruct Hx as [Hne Hx].
    destruct (found_before x y) eqn:Hxy.
    + constructor; [by constructor|]. constructor; [done|].
      eapply Forall_impl; [exact Hy|]. cbn. eauto using found_before_trans.
    + constructor; [by apply IH|]. rewrite insert_found_perm. constructor; [|done].
      by apply found_before_total.
Qed.
Lemma sort_found_sorted l : NoDup (map fd_id l) → sorted (sort_found l).
Proof.
  induction l as [|x l IH]; cbn; [constructor|]. intros [Hx Hnd]%NoDup_cons. apply insert_found_sorted; [|auto].
  by rewrite sort_found_perm.
Qed.

(** ** What dropping sessions does to the store *)
Section eviction.
Context {R : Type} `{RedisServer R}.
Implicit Types (st : R) (S : gset string).

(** [V'] is [V] without the sessions [D], which the index [indexKey] listed with [S]. *)
Definition drops (V V' : string → option rentry) (indexKey : string) S (D : list string) : Prop :=
  set_of (V' indexKey) = Some (S ∖ list_to_set D) ∧
  ∀ k, k ≠ indexKey → V' k = if decide (k ∈ buildSessionKey <$> D) then None else V k.

Lemma drops_nil V indexKey S : set_of (V indexKey) = Some S → drops V V indexKey S [].
Proof.
  intros HS. split.
  - rewrite HS. f_equal. by rewrite list_to_set_nil, difference_empty_L.
  - intros k _. by rewrite decide_False by apply not_elem_of_nil.
Qed.

Lemma drops_app V V1 V2 indexKey S D1 D2 :
  drops V V1 indexKey S D1 → drops V1 V2 indexKey (S ∖ list_to_set D1) D2 → drops V V2 indexKey S (D1 ++ D2).
Proof.
  intros [HS1 Hk1] [HS2 Hk2]. split.
  - rewrite HS2. f_equal. by rewrite list_to_set_app_L, difference_difference_l_L.
  - intros k Hk. rewrite Hk2, Hk1 by done. rewrite fmap_app.
    destruct (decide (k ∈ buildSessionKey <$> D1)), (decide (k ∈ buildSessionKey <$> D2));
      rewrite ?decide_True, ?decide_False by (rewrite elem_of_app; tauto); done.
Qed.

Lemma set_of_put s e : set_of (put_set s e) = Some s.
Proof. unfold put_set. case_decide; by subst. Qed.

Lemma session_not_index sid a : buildSessionKey sid ≠ buildAccountSessionsKey a.
Proof. done. Qed.
Lemma session_key_eq a b : buildSessionKey a = buildSessionKey b → a = b.
Proof. apply append_inj. Qed.

Lemma drop_session_spec now a sid st S (Q : res unit → R → Prop) :
  set_of (r_view st now (buildAccountSessionsKey a)) = Some S →
  (∀ st', drops (r_view st now) (r_view st' now) (buildAccountSessionsKey a) S [sid] → Q (Ok tt) st') →
  wp (drop_session now (buildAccountSessionsKey a) sid) Q st.
Proof.
  intros HS HQ. unfold drop_session. s_step. s_step. rename H0 into Hd.
  assert (r_view st' now (buildAccountSessionsKey a) = r_view st now (buildAccountSessionsKey a)) as Hidx
    by (rewrite (Hd _); by decide_keys).
  s_step. { rewrite Hidx. exact HS. } rename H0 into Hr. apply HQ. split.
  - rewrite (Hr _). decide_keys. rewrite set_of_put. f_equal. apply set_eq. intros x.
    rewrite !elem_of_difference, elem_of_list_to_set, list_elem_of_singleton, elem_of_singleton. done.
  - intros k Hk. rewrite (Hr k), decide_False by done. rewrite (Hd k). cbn.
    destruct (decide (k = buildSessionKey sid)) as [->|Hne].
    + by rewrite decide_True by (by apply list_elem_of_singleton).
    + rewrite decide_False; [done|]. by rewrite list_elem_of_singleton.
Qed.

Lemma drop_all_spec now a D st S (Q : res unit → R → Prop) :
  set_of (r_view st now (buildAccountSessionsKey a)) = Some S →
  (∀ st', drops (r_view st now) (r_view st' now) (buildAccountSessionsKey a) S D → Q (Ok tt) st') →
  wp (for_each D (drop_session now (buildAccountSessionsKey a))) Q st.
Proof.
  revert st S Q. induction D as [|sid D IH]; intros st S Q HS HQ; cbn [for_each].
  - s_step. apply HQ. by apply drops_nil.
  - s_step. eapply drop_session_spec; [exact HS|]. intros st1 Hd1. eapply IH; [apply Hd1|].
    intros st2 Hd2. apply HQ. exact (drops_app _ _ _ _ _ [sid] D Hd1 Hd2).
Qed.

(** The eviction pass as a plan. *)
Fixpoint evict_plan (pick : string → bool) (maxSessions : Z) (l : list found) (remaining : Z) : list string * Z :=
  match l with
  | [] => ([], remaining)
  | x :: l' =>
      if remaining <=? maxSessions then ([], remaining)
      else if pick (fd_id x) then
        let '(e, r) := evict_plan pick maxSessions l' (remaining - 1) in (fd_id x :: e, r)
      else evict_plan pick maxSessions l' remaining
  end.

Lemma evict_pass_spec now a pick max l rem st S (Q : res (list string * Z) → R → Prop) :
  set_of (r_view st now (buildAccountSessionsKey a)) = Some S →
  (∀ st', drops (r_view st now) (r_view st' now) (buildAccountSessionsKey a) S (evict_plan pick max l rem).1 →
          Q (Ok (evict_plan pick max l rem)) st') →
  wp (evict_pass now (buildAccountSessionsKey a) pick max l rem) Q st.
Proof.
  revert rem st S Q. induction l as [|x l IH]; intros rem st S Q HS HQ; cbn [evict_pass evict_plan] in *.
  - s_step. apply HQ. by apply drops_nil.
  - destruct (rem <=? max); [s_step; apply HQ; by apply drops_nil|]. destruct (pick (fd_id x)).
    + s_step. eapply drop_session_spec; [exact HS|]. intros st1 Hd1. s_step. eapply IH; [apply Hd1|].
      intros st2 Hd2. destruct (evict_plan pick max l (rem - 1)) as [e r]. s_step. apply HQ.
      exact (drops_app _ _ _ _ _ [fd_id x] e Hd1 Hd2).
    + eapply IH; [exact HS|exact HQ].
Qed.

(** What the scan finds. *)
Definition found_in (V : string → option rentry) (sid : string) : option found :=
  match str_of (V (buildSessionKey sid)) with
  | Ok (Some d) => Found sid <$> last_active_text d
  | _ => None
  end.
Definition good_in V (ids : list string) : list found := omap (found_in V) ids.
Definition bad_in V (ids : list string) : list string := filter (λ sid, found_in V sid = None) ids.

Lemma good_in_ext V V' ids : (∀ x, found_in V x = found_in V' x) → good_in V ids = good_in V' ids.
Proof. intros Hf. unfold good_in. induction ids as [|y ids IH]; cbn; [done|]. by rewrite Hf, IH. Qed.

(** A session key holds text or nothing. *)
Definition texts (V : string → option rentry) : Prop := ∀ sid, is_ok (str_of (V (buildSessionKey sid))) = true.

Lemma scan_spec now ids st (Q : res (list found * list string) → R → Prop) :
  (∀ e st', ¬ texts (r_view st now) → same now st st' → Q (Err e) st') →
  (∀ st', same now st st' → Q (Ok (good_in (r_view st now) ids, bad_in (r_view st now) ids)) st') →
  wp (scan_sessions now ids) Q st.
Proof.
  revert st Q. induction ids as [|sid ids IH]; intros st Q HE HQ; cbn [scan_sessions].
  - s_step. by apply HQ.
  - s_step. s_step. rename H0 into Hs1.
    assert (∀ k, is_ok (str_of (r_view st' now k)) = is_ok (str_of (r_view st now k))) as Hok by (intros k; by rewrite (Hs1 _)).
    assert (∀ e st2, ¬ texts (r_view st' now) → same now st' st2 → Q (Err e) st2) as HE'.
    { intros e st2 Ht Hs2. apply HE; [|intros k; by rewrite (Hs2 k), (Hs1 k)]. intros Ht0. apply Ht. intros k. by rewrite Hok. }
    assert (∀ x, found_in (r_view st' now) x = found_in (r_view st now) x) as Hf
      by (intros x; unfold found_in; by rewrite (Hs1 _)).
    assert (good_in (r_view st' now) ids = good_in (r_view st now) ids) as Hg
      by (by apply good_in_ext).
    assert (bad_in (r_view st' now) ids = bad_in (r_view st now) ids) as Hb
      by (unfold bad_in; apply list_filter_iff; intros x; by rewrite Hf).
    assert (∀ r, r = (good_in (r_view st now) (sid :: ids), bad_in (r_view st now) (sid :: ids)) →
             ∀ st2, same now st' st2 → Q (Ok r) st2) as Hdone.
    { intros r -> st2 Hs2. apply HQ. intros k. by rewrite (Hs2 k), (Hs1 k). }
    assert (∀ o, found_in (r_view st now) sid = o →
      (good_in (r_view st now) (sid :: ids), bad_in (r_view st now) (sid :: ids)) =
      match o with
      | Some f => (f :: good_in (r_view st now) ids, bad_in (r_view st now) ids)
      | None => (good_in (r_view st now) ids, sid :: bad_in (r_view st now) ids)
      end) as Hcons.
    { intros o Ho. unfold good_in, bad_in. rewrite filter_cons, Ho. cbn [omap list_omap]. rewrite Ho.
      destruct o; [by rewrite decide_False|by rewrite decide_True]. }
    unfold found_in at 1 in Hcons.
    destruct (str_of (r_view st now (buildSessionKey sid))) as [[d|]|e] eqn:Hv.
    3:{ apply HE; [|done]. intros Ht. specialize (Ht sid). by rewrite Hv in Ht. }
    all: s_step; apply IH; [exact HE'|]; intros st2 Hs2; rewrite Hg, Hb.
    + destruct (last_active_text d) as [ts|] eqn:Hts; s_step; apply Hdone; try done; symmetry;
        rewrite (Hcons _ eq_refl); cbn; by rewrite ?Hts.
    + s_step. apply Hdone; try done. symmetry. by rewrite (Hcons _ eq_refl).
Qed.
End eviction.

Lemma filter_all {A} (P : A → Prop) `{∀ x, Decision (P x)} (l : list A) : Forall P l → filter P l = l.
Proof. induction 1 as [|x l Hx _ IH]; [done|]. rewrite filter_cons, decide_True by done. by rewrite IH. Qed.

(** ** The plan evicts the oldest, as many as needed *)
Section plan.
Context (pick : string → bool) (maxSessions : Z).

Lemma evict_plan_prefix l rem :
  (evict_plan pick maxSessions l rem).1 `prefix_of` filter pick (map fd_id l) ∧
  (evict_plan pick maxSessions l rem).2 = rem - Z.of_nat (length (evict_plan pick maxSessions l rem).1) ∧
  ((evict_plan pick maxSessions l rem).2 <= maxSessions ∨
   (evict_plan pick maxSessions l rem).1 = filter pick (map fd_id l)) ∧
  (maxSessions <= rem → maxSessions <= (evict_plan pick maxSessions l rem).2).
Proof.
  revert rem. induction l as [|x l IH]; intros rem; cbn [evict_plan map].
  - rewrite filter_nil. split_and!; [apply prefix_nil|cbn; lia|by right|done].
  - destruct (Z.leb_spec rem maxSessions).
    { cbn. split_and!; [apply prefix_nil|lia|by left|done]. }
    rewrite filter_cons. destruct (pick (fd_id x)) eqn:Hp.
    + rewrite decide_True by done. destruct (IH (rem - 1)) as (Hpre&Hlen&Hor&Hge).
      destruct (evict_plan pick maxSessions l (rem - 1)) as [e r]. cbn [fst snd length] in *.
      split_and!; [by apply prefix_cons|lia| |lia]. destruct Hor as [|Heq]; [by left|right; by rewrite Heq].
    + rewrite decide_False by (by intros []). apply IH.
Qed.

End plan.

(** In a sorted list the ids of a prefix come before the others. *)
Lemma sorted_prefix_before (pick : string → bool) l E x y :
  sorted l → NoDup (map fd_id l) → E `prefix_of` filter pick (map fd_id l) →
  x ∈ l → fd_id x ∈ E → y ∈ l → pick (fd_id y) = true → fd_id y ∉ E → found_before x y = true.
Proof.
  revert E. induction l as [|z l IH]; intros E Hs Hnd Hpre Hx HxE Hy Hpy HyE; [by apply elem_of_nil in Hx|].
  apply StronglySorted_inv in Hs as [Hs Hz]. cbn in Hnd. apply NoDup_cons in Hnd as [Hzn Hnd].
  cbn [map] in Hpre. rewrite filter_cons in Hpre.
  apply elem_of_cons in Hx as [->|Hx], Hy as [->|Hy].
  - done.
  - by eapply Forall_forall in Hz.
  - exfalso. rewrite decide_True in Hpre by (by rewrite Hpy).
    destruct E as [|e E]; [by apply elem_of_nil in HxE|]. apply prefix_cons_inv_1 in Hpre as ->. apply HyE. by left.
  - destruct (decide (pick (fd_id z))) as [Hpz|Hpz].
    + destruct E as [|e E]; [by apply elem_of_nil in HxE|].
      pose proof (prefix_cons_inv_1 _ _ _ _ Hpre) as ->. apply prefix_cons_inv_2 in Hpre.
      apply (IH E); try done.
      * apply elem_of_cons in HxE as [Heq|]; [|done]. destruct Hzn. rewrite <-Heq. by apply (list_elem_of_fmap_2 fd_id).
      * intros ?. apply HyE. by right.
    + by apply (IH E).
Qed.

(** ** The eviction script *)
Section limit.
Context {R : Type} `{RedisServer R}.
Implicit Types (st : R) (S : gset string) (V : string → option rentry).

(** After the script: [S'] is what the index lists, [E] what the script reports. *)
Record limit_enforced V V' (indexKey : string) S (maxSessions : Z) (protected : string)
    (E : list string) S' : Prop := {
  le_index : set_of (V' indexKey) = Some S';
  le_sub : S' ⊆ S;
  le_size : Z.of_nat (size S') <= maxSessions;
  le_protected : protected ∈ S → is_Some (found_in V protected) → protected ∈ S' ∧ protected ∉ E;
  le_kept sid : sid ∈ S' → V' (buildSessionKey sid) = V (buildSessionKey sid);
  le_gone sid : sid ∈ S → sid ∉ S' → V' (buildSessionKey sid) = None;
  le_other k : k ≠ indexKey → (∀ sid, sid ∈ S → k ≠ buildSessionKey sid) → V' k = V k;
  le_reported sid : sid ∈ E ↔ sid ∈ S ∖ S' ∧ is_Some (found_in V sid);
  le_oldest e y fe fy : e ∈ E → y ∈ S' → y ≠ protected →
    found_in V e = Some fe → found_in V y = Some fy → found_before fe fy = true;
}.

Lemma found_in_id V sid f : found_in V sid = Some f → fd_id f = sid.
Proof.
  unfold found_in. destruct (str_of _) as [[d|]|]; [|done..].
  destruct (last_active_text d); [|done]. by intros [= <-].
Qed.

Lemma good_in_ids V ids : map fd_id (good_in V ids) = filter (λ sid, is_Some (found_in V sid)) ids.
Proof.
  unfold good_in. induction ids as [|sid ids IH]; [done|]. rewrite filter_cons. cbn [omap list_omap].
  destruct (found_in V sid) as [f|] eqn:Hf.
  - rewrite decide_True by (by eexists). cbn [map]. rewrite IH. f_equal. by eapply found_in_id.
  - rewrite decide_False by (by intros []). apply IH.
Qed.

Lemma good_in_elem V ids f : f ∈ good_in V ids ↔ ∃ sid, sid ∈ ids ∧ found_in V sid = Some f.
Proof. unfold good_in. by rewrite list_elem_of_omap. Qed.

(** The ids kept and dropped by a plan over the good sessions. *)
Section plan_facts.
Context V S (ids : list string) (maxSessions : Z) (protected : string).
Context (Hids : ids ≡ₚ elements S) (Hmax : 0 < maxSessions) (Hover : maxSessions < Z.of_nat (length ids)).

Definition planned : list found := sort_found (good_in V ids).
Definition not_protected (sid : string) : bool := negb (bool_decide (sid = protected)).
Definition plan1 : list string * Z :=
  evict_plan not_protected maxSessions planned (Z.of_nat (length planned)).

Lemma planned_nodup : NoDup (map fd_id planned).
Proof using Hids.
  unfold planned. rewrite sort_found_perm, good_in_ids. apply NoDup_filter. rewrite Hids. apply NoDup_elements.
Qed.
Lemma planned_elem sid : sid ∈ map fd_id planned ↔ sid ∈ S ∧ is_Some (found_in V sid).
Proof using Hids.
  unfold planned. rewrite sort_found_perm, good_in_ids, list_elem_of_filter, Hids, elem_of_elements. tauto.
Qed.
Lemma plan1_elem sid : sid ∈ plan1.1 → sid ∈ S ∧ is_Some (found_in V sid) ∧ sid ≠ protected.
Proof using Hids.
  intros Hin. destruct (evict_plan_prefix not_protected maxSessions planned (Z.of_nat (length planned))) as (Hpre&_).
  fold plan1 in Hpre. destruct Hpre as [rest Hpre].
  assert (sid ∈ filter not_protected (map fd_id planned)) as Hf by (rewrite Hpre; apply elem_of_app; by left).
  apply list_elem_of_filter in Hf as [Hnp Hp%planned_elem]. unfold not_protected in Hnp.
  split; [tauto|]. split; [tauto|]. intros ->. by rewrite bool_decide_true in Hnp.
Qed.
Lemma plan1_nodup : NoDup plan1.1.
Proof using Hids.
  destruct (evict_plan_prefix not_protected maxSessions planned (Z.of_nat (length planned))) as ([rest Hpre]&_).
  fold plan1 in Hpre. pose proof (NoDup_filter not_protected _ planned_nodup) as Hnd. rewrite Hpre in Hnd.
  by apply NoDup_app in Hnd as [? _].
Qed.

(** One pass is enough: at most the protected session is left over. *)
Lemma plan1_remaining : plan1.2 <= maxSessions ∧ plan1.2 = Z.of_nat (length planned) - Z.of_nat (length plan1.1).
Proof using Hids Hmax.
  destruct (evict_plan_prefix not_protected maxSessions planned (Z.of_nat (length planned))) as (_&Hlen&Hor&_).
  fold plan1 in Hlen, Hor. split; [|done]. destruct Hor as [|Hall]; [done|].
  rewrite Hlen, Hall. pose proof planned_nodup as Hnd.
  enough (length (map fd_id planned) <= 1 + length (filter not_protected (map fd_id planned)))%nat as Hle
    by (rewrite length_map in Hle; lia).
  clear -Hnd. induction (map fd_id planned) as [|x l IH]; [cbn; lia|]. apply NoDup_cons in Hnd as [Hx Hnd].
  rewrite filter_cons. destruct (decide (not_protected x)) as [|Hp]; cbn [length]; [specialize (IH Hnd); lia|].
  assert (x = protected) as -> by (unfold not_protected in Hp; destruct (decide (x = protected));
    [done|by rewrite bool_decide_false in Hp]).
  assert (filter not_protected l = l) as ->; [|lia].
  apply filter_all. apply Forall_forall. intros y Hy. unfold not_protected. rewrite bool_decide_false; [done|].
  by intros ->.
Qed.

Definition kept : gset string := S ∖ list_to_set (bad_in V ids ++ plan1.1).

Lemma kept_elem sid : sid ∈ kept ↔ sid ∈ S ∧ is_Some (found_in V sid) ∧ sid ∉ plan1.1.
Proof using Hids.
  unfold kept. rewrite elem_of_difference, elem_of_list_to_set, elem_of_app. unfold bad_in.
  rewrite list_elem_of_filter, Hids, elem_of_elements.
  destruct (found_in V sid) as [f|]; [|split; [tauto|]; intros (_&[? ?]&_); done].
  split; [|intros (?&_&?); split; [done|]; intros [[? _]|]; done].
  intros [? Hn]. split; [done|]. split; [by eexists|]. tauto.
Qed.
Lemma kept_size : Z.of_nat (size kept) <= maxSessions.
Proof using Hids Hmax.
  destruct plan1_remaining as [Hle Heq].
  assert (kept = list_to_set (map fd_id planned) ∖ list_to_set plan1.1) as ->.
  { apply set_eq. intros sid. rewrite kept_elem, elem_of_difference, !elem_of_list_to_set, planned_elem. tauto. }
  rewrite size_difference.
  - rewrite !size_list_to_set by (apply planned_nodup || apply plan1_nodup). rewrite length_map. lia.
  - intros sid. rewrite !elem_of_list_to_set, planned_elem. intros Hin%plan1_elem. tauto.
Qed.
End plan_facts.

Lemma limit_after V V' S ids maxSessions protected a :
  ids ≡ₚ elements S → 0 < maxSessions →
  drops V V' (buildAccountSessionsKey a) S (bad_in V ids ++ (plan1 V ids maxSessions protected).1) →
  limit_enforced V V' (buildAccountSessionsKey a) S maxSessions protected
    (plan1 V ids maxSessions protected).1 (kept V S ids maxSessions protected).
Proof.
  intros Hids Hmax [Hidx Hk]. set (E := (plan1 V ids maxSessions protected).1) in *.
  assert (∀ sid, sid ∈ kept V S ids maxSessions protected ↔ sid ∈ S ∧ is_Some (found_in V sid) ∧ sid ∉ E) as Hkept
    by (intros; by apply kept_elem).
  assert (∀ sid, sid ∈ S → sid ∈ bad_in V ids ++ E ↔ sid ∉ kept V S ids maxSessions protected) as Hd.
  { intros sid Hs. unfold kept. fold E. rewrite elem_of_difference, elem_of_list_to_set.
    destruct (decide (sid ∈ bad_in V ids ++ E)); tauto. }
  split.
  - exact Hidx.
  - intros sid. rewrite Hkept. tauto.
  - by apply kept_size.
  - intros Hs Hf. assert (protected ∉ E) as Hn by (intros Hin; by apply (plan1_elem _ _ _ _ _ Hids) in Hin as (_&_&?)).
    split; [|done]. by apply Hkept.
  - intros sid Hs. rewrite Hk by done. apply decide_False.
    intros (y&->%session_key_eq&Hy)%list_elem_of_fmap. apply Hd in Hy; [done|]. apply Hkept in Hs. tauto.
  - intros sid Hs Hn. rewrite Hk by done. apply decide_True. apply (list_elem_of_fmap_2 buildSessionKey). by apply Hd.
  - intros k Hne Hses. rewrite Hk by done. apply decide_False. intros (y&->&Hy)%list_elem_of_fmap.
    apply (Hses y); [|done]. apply elem_of_app in Hy as [Hy|Hy].
    + unfold bad_in in Hy. apply list_elem_of_filter in Hy as [_ Hy]. by rewrite Hids, elem_of_elements in Hy.
    + by apply (plan1_elem _ _ _ _ _ Hids) in Hy as [? _].
  - intros sid. rewrite elem_of_difference, Hkept. split.
    + intros Hin. pose proof (plan1_elem _ _ _ _ _ Hids _ Hin). tauto.
    + intros [[Hs Hn] Hf]. destruct (decide (sid ∈ E)); [done|]. destruct Hn. tauto.
  - intros e y fe fy He Hy Hyp Hfe Hfy.
    destruct (evict_plan_prefix (not_protected protected) maxSessions (planned V ids)
      (Z.of_nat (length (planned V ids)))) as (Hpre&_).
    pose proof (planned_nodup V S ids Hids) as Hnd.
    apply (sorted_prefix_before (not_protected protected) (planned V ids) E); try done.
    + apply sort_found_sorted. unfold planned in Hnd. by rewrite sort_found_perm in Hnd.
    + unfold planned. rewrite sort_found_perm, good_in_elem. exists e. split; [|done].
      rewrite Hids, elem_of_elements. by apply (plan1_elem _ _ _ _ _ Hids) in He as [? _].
    + by rewrite (found_in_id _ _ _ Hfe).
    + unfold planned. rewrite sort_found_perm, good_in_elem. exists y. split; [|done].
      rewrite Hids, elem_of_elements. by apply Hkept in Hy as [? _].
    + unfold not_protected. rewrite (found_in_id _ _ _ Hfy). by rewrite bool_decide_false.
    + rewrite (found_in_id _ _ _ Hfy). by apply Hkept in Hy as (_&_&?).
Qed.

(** Whatever the keys hold: when one of them holds no text the script stops before it writes. *)
Lemma evict_script_any now a maxSessions protected st S (Q : res (list string) → R → Prop) :
  set_of (r_view st now (buildAccountSessionsKey a)) = Some S → 0 < maxSessions →
  (∀ e st', ¬ texts (r_view st now) → same now st st' → Q (Err e) st') →
  (∀ st', same now st st' → Z.of_nat (size S) <= maxSessions → Q (Ok []) st') →
  (∀ E S' st', maxSessions < Z.of_nat (size S) →
     limit_enforced (r_view st now) (r_view st' now) (buildAccountSessionsKey a) S maxSessions protected E S' →
     Q (Ok E) st') →
  wp (evictOldestSessionsScript (buildAccountSessionsKey a) maxSessions protected now) Q st.
Proof.
  intros HS Hmax HE HQ1 HQ2. unfold evictOldestSessionsScript. s_step. s_step; [exact HS|].
  rename H0 into Hs1, H1 into Hids, l into ids. pose proof (Permutation_length Hids) as Hlen.
  change (length (elements S)) with (size S) in Hlen. rewrite Hlen.
  destruct (Z.leb_spec (Z.of_nat (size S)) maxSessions); [s_step; by apply HQ1|].
  assert (∀ k, r_view st' now k = r_view st now k) as Hv by exact Hs1.
  s_step. apply scan_spec.
  { intros e st2 Ht Hs2. apply HE; [|intros k; by rewrite (Hs2 k), Hv]. intros Ht0. apply Ht. intros sid. by rewrite Hv. }
  intros st2 Hs2.
  assert (good_in (r_view st' now) ids = good_in (r_view st now) ids ∧
          bad_in (r_view st' now) ids = bad_in (r_view st now) ids) as [-> ->].
  { assert (∀ x, found_in (r_view st' now) x = found_in (r_view st now) x) as Hf
      by (intros x; unfold found_in; by rewrite Hv).
    split; [by apply good_in_ext|]. unfold bad_in. apply list_filter_iff. intros x. by rewrite Hf. }
  assert (∀ k, r_view st2 now k = r_view st now k) as Hv2 by (intros k; by rewrite (Hs2 k), Hv).
  s_step. eapply drop_all_spec; [by rewrite Hv2|]. intros st3 Hd3.
  s_step. change (λ sid, negb (bool_decide (sid = protected))) with (not_protected protected).
  change (sort_found (good_in (r_view st now) ids)) with (planned (r_view st now) ids).
  eapply evict_pass_spec; [apply Hd3|]. intros st4 Hd4.
  pose proof (drops_app _ _ _ _ _ _ _ Hd3 Hd4) as Hd.
  change (evict_plan _ _ _ _) with (plan1 (r_view st now) ids maxSessions protected) in *.
  destruct (plan1_remaining (r_view st now) S ids maxSessions protected Hids Hmax) as [Hrem _].
  destruct (plan1 (r_view st now) ids maxSessions protected) as [E r] eqn:Hplan. cbn [fst snd] in *.
  rewrite (proj2 (Z.ltb_ge maxSessions r)) by done. cbn [andb]. s_step.
  replace E with (plan1 (r_view st now) ids maxSessions protected).1 by (by rewrite Hplan).
  apply (HQ2 _ (kept (r_view st now) S ids maxSessions protected)); [done|].
  apply limit_after; [done|done|]. rewrite Hplan. destruct Hd as [Hidx Hk]. split; [exact Hidx|].
  intros k Hne. by rewrite Hk, Hv2.
Qed.
Lemma evict_script_spec now a maxSessions protected st S (Q : res (list string) → R → Prop) :
  set_of (r_view st now (buildAccountSessionsKey a)) = Some S → texts (r_view st now) → 0 < maxSessions →
  (∀ st', same now st st' → Z.of_nat (size S) <= maxSessions → Q (Ok []) st') →
  (∀ E S' st', maxSessions < Z.of_nat (size S) →
     limit_enforced (r_view st now) (r_view st' now) (buildAccountSessionsKey a) S maxSessions protected E S' →
     Q (Ok E) st') →
  wp (evictOldestSessionsScript (buildAccountSessionsKey a) maxSessions protected now) Q st.
Proof. intros HS Ht Hmax HQ1 HQ2. by apply (evict_script_any now a maxSessions protected st S). Qed.
End limit.
