(* ===== verification/SessionProps.v ===== *)
(** * What the session service guarantees *)
From S2P Require Import Prelude GoTime Json Hash LuaPattern Redis World Cache TokenDomain TokenSpecs Session SessionService SessionSpecs.
Local Open Scope Z_scope.

Section rules.
Context {R : Type} `{RedisServer R}.
Implicit Types s : Sess R.


Lemma wp_on_world {A} (m : M (World R) A) (Q : res A → Sess R → Prop) s :
  wp m (λ r w, Q r (set_world w s)) (sv_world s) → wp (on_world m) Q s.
Proof. unfold wp, on_world, set_world. by destruct (m _). Qed.
Lemma wp_load_obj p (Q : res Session → Sess R → Prop) s : Q (Ok (sv_heap s !!! p)) s → wp (load_obj p) Q s.
Proof. done. Qed.
Lemma wp_store_obj p x (Q : res unit → Sess R → Prop) s :
  Q (Ok tt) (mkSess (sv_world s) (<[p := x]> (sv_heap s)) (sv_cache s) (sv_size s)) → wp (store_obj p x) Q s.
Proof. done. Qed.
Lemma wp_new_obj x (Q : res nat → Sess R → Prop) s :
  Q (Ok (length (sv_heap s))) (mkSess (sv_world s) (sv_heap s ++ [x]) (sv_cache s) (sv_size s)) →
  wp (new_obj x) Q s.
Proof. done. Qed.

(** ** The counter of the local cache *)

(** The counter never falls below the number of entries, nor above the bound. *)
Definition cache_ok s : Prop := Z.of_nat (size (sv_cache s)) <= sv_size s <= sessionCacheMaxSize.

Definition preserves (I : Sess R → Prop) {A} (m : M (Sess R) A) : Prop := ∀ s, I s → wp m (λ _ s', I s') s.

Section preserves.
Context (I : Sess R → Prop).
Lemma pres_bind {A B} (m : M (Sess R) A) (k : A → M (Sess R) B) :
  preserves I m → (∀ a, preserves I (k a)) → preserves I (bind m k).
Proof.
  intros Hm Hk s Hs. apply wp_bind. eapply wp_mono; [by apply Hm|].
  intros [a|e] s' Hs'; [by apply Hk|done].
Qed.
Lemma pres_ret {A} (a : A) : preserves I (ret a). Proof. by intros s. Qed.
Lemma pres_fail {A} e : preserves I (A := A) (fail e). Proof. by intros s. Qed.
Lemma pres_lift_res {A} (r : res A) : preserves I (lift_res r). Proof. by intros s. Qed.
Lemma pres_gets {A} (f : Sess R → A) : preserves I (gets f). Proof. by intros s. Qed.
Lemma pres_guard_err b e : preserves I (guard_err b e). Proof. intros s Hs. by apply wp_guard_err. Qed.
Lemma pres_try {A} (m : M (Sess R) A) : preserves I m → preserves I (try m).
Proof. intros Hm s Hs. apply wp_try. by apply Hm. Qed.
Lemma pres_wrap {A} c (m : M (Sess R) A) : preserves I m → preserves I (wrap c m).
Proof. intros Hm s Hs. apply wp_wrap. by apply Hm. Qed.
Lemma pres_ignore {A} (m : M (Sess R) A) : preserves I m → preserves I (ignore m).
Proof. intros Hm s Hs. apply wp_ignore. by apply Hm. Qed.
Lemma pres_for_each {A} (l : list A) f : (∀ x, preserves I (f x)) → preserves I (for_each l f).
Proof. intros Hf. induction l as [|x l IH]; cbn [for_each]; [apply pres_ret|by apply pres_bind]. Qed.
End preserves.

(** Redis, the clock and the objects do not matter to the counter. *)
Lemma cache_on_world {A} (m : M (World R) A) : preserves cache_ok (on_world m).
Proof. intros s Hs. apply wp_on_world. exact Hs. Qed.
Lemma cache_load p : preserves cache_ok (load_obj p). Proof. by intros s. Qed.
Lemma cache_store_obj p x : preserves cache_ok (store_obj p x). Proof. by intros s. Qed.
Lemma cache_new x : preserves cache_ok (new_obj x). Proof. by intros s. Qed.
Lemma cache_cacheStore sid cs : preserves cache_ok (cacheStore sid cs).
Proof.
  intros s Hs. unfold cacheStore. apply wp_modify. unfold cache_ok in *.
  destruct (Z.leb_spec sessionCacheMaxSize (sv_size s)); [done|].
  destruct (sv_cache s !! sid) eqn:Hc; [done|]. cbn. rewrite map_size_insert_None by done. lia.
Qed.
Lemma cache_cacheEvict sid : preserves cache_ok (cacheEvict sid).
Proof.
  intros s Hs. unfold cacheEvict. apply wp_modify. unfold cache_ok in *.
  destruct (sv_cache s !! sid) eqn:Hc; [|done]. cbn. rewrite map_size_delete, Hc. cbn.
  assert (size (sv_cache s) ≠ 0%nat) by (apply map_size_ne_0_lookup; exists sid; by rewrite Hc). lia.
Qed.
Lemma cache_cacheDelete sid : preserves cache_ok (cacheDelete sid).
Proof.
  intros s Hs. unfold cacheDelete. apply wp_modify. unfold cache_ok in *. cbn.
  rewrite map_size_delete. destruct (sv_cache s !! sid); cbn; lia.
Qed.
End rules.

Create HintDb preserves discriminated.
#[export] Hint Resolve pres_ret pres_fail pres_lift_res pres_gets pres_guard_err cache_on_world cache_load
  cache_store_obj cache_new cache_cacheStore cache_cacheEvict cache_cacheDelete : preserves.

(** Follow the structure of an operation. *)
Ltac pres_tac :=
  repeat (cbn beta zeta;
    lazymatch goal with
    | |- preserves _ (bind _ _) => apply pres_bind; [|intros ?]
    | |- preserves _ (try _) => apply pres_try
    | |- preserves _ (wrap _ _) => apply pres_wrap
    | |- preserves _ (ignore _) => apply pres_ignore
    | |- preserves _ (for_each _ _) => apply pres_for_each; intros ?
    | |- preserves _ (match ?x with _ => _ end) => destruct x
    | |- preserves _ (if ?x then _ else _) => destruct x
    | |- preserves _ (let '(_, _) := ?x in _) => destruct x
    | |- preserves _ _ => solve [eauto with preserves]
    end).

Section counter.
Context {R : Type} `{RedisServer R} (cfg : SessionConfig) (revoker : option (TokenRevoker R)).

Lemma cache_parse sid d : preserves cache_ok (parse_and_cache (R := R) sid d).
Proof. unfold parse_and_cache, cached_for. pres_tac. Qed.
#[local] Hint Resolve cache_parse : preserves.
Lemma cache_Get sid : preserves cache_ok (GetSession (R := R) sid).
Proof. unfold GetSession. pres_tac. Qed.
#[local] Hint Resolve cache_Get : preserves.
Lemma cache_revoke (rv : option (TokenRevoker R)) sid : preserves cache_ok (revoke_tokens rv sid).
Proof. unfold revoke_tokens. pres_tac. Qed.
#[local] Hint Resolve cache_revoke : preserves.
Lemma cache_force sid k : preserves cache_ok (forceExpireSession revoker sid k).
Proof. unfold forceExpireSession. pres_tac. Qed.
#[local] Hint Resolve cache_force : preserves.
Lemma cache_write c sid p : preserves cache_ok (write_back (R := R) cfg c sid p).
Proof. unfold write_back, UpdateActivity. pres_tac. Qed.
#[local] Hint Resolve cache_write : preserves.
Lemma cache_enforce a p : preserves cache_ok (enforceSessionLimit cfg revoker a p).
Proof. unfold enforceSessionLimit, revoke_each. pres_tac. Qed.
#[local] Hint Resolve cache_enforce : preserves.
Lemma cache_list_one k sid f : preserves cache_ok (list_one cfg revoker k sid f).
Proof. unfold list_one. pres_tac. Qed.
Lemma cache_list_all k l : preserves cache_ok (list_all cfg revoker k l).
Proof.
  induction l as [|[sid f] l IH]; cbn [list_all]; [apply pres_ret|].
  apply pres_bind; [apply cache_list_one|intros one]. apply pres_bind; [exact IH|intros [? ?]]. pres_tac.
Qed.
#[local] Hint Resolve cache_list_all : preserves.
Lemma cache_stale : preserves cache_ok (evictStaleCacheEntries (R := R) cfg).
Proof.
  intros s Hs. unfold evictStaleCacheEntries. apply wp_modify. unfold cache_ok in *. cbn.
  set (stale := filter _ _). assert (stale ⊆ sv_cache s) as Hsub by apply map_filter_subseteq.
  pose proof (map_difference_union _ _ Hsub) as Hunion.
  assert (size (sv_cache s) = size stale + size (sv_cache s ∖ stale))%nat as Hsize.
  { rewrite <-Hunion at 1. apply map_size_disj_union. by apply map_disjoint_difference_r1. }
  lia.
Qed.

(** Every operation of the service, by any caller; other instances act on the world. *)
Inductive session_step : Sess R → Sess R → Prop :=
  | ss_new x s : session_step s (new_obj x s).2
  | ss_write p x s : session_step s (store_obj p x s).2
  | ss_create p s : session_step s (CreateSession cfg revoker p s).2
  | ss_get sid s : session_step s (GetSession sid s).2
  | ss_update p s : session_step s (UpdateSession cfg p s).2
  | ss_delete sid s : session_step s (DeleteSession sid s).2
  | ss_refresh sid s : session_step s (RefreshSession cfg revoker sid s).2
  | ss_validate sid s : session_step s (ValidateSession cfg revoker sid s).2
  | ss_revoke a sid s : session_step s (RevokeSession revoker a sid s).2
  | ss_revoke_all a s : session_step s (RevokeAllForAccount revoker a s).2
  | ss_list a s : session_step s (ListSessionsByAccount cfg revoker a s).2
  | ss_limit a s : session_step s (EnforceSessionLimit cfg revoker a s).2
  | ss_sweep s : session_step s (evictStaleCacheEntries cfg s).2
  | ss_world w s : session_step s (set_world w s).

Lemma session_step_cache s s' : session_step s s' → cache_ok s → cache_ok s'.
Proof.
  assert (∀ A (m : M (Sess R) A) s, preserves cache_ok m → cache_ok s → cache_ok (m s).2) as Hk
    by (intros A m s0 Hm; exact (Hm s0)).
  intros []; intros Hs; try (apply Hk; [|exact Hs]); try exact Hs; eauto with preserves.
  - unfold CreateSession. pres_tac.
  - unfold UpdateSession. pres_tac.
  - unfold DeleteSession. pres_tac.
  - unfold RefreshSession. pres_tac.
  - unfold ValidateSession. pres_tac.
  - unfold RevokeSession. pres_tac.
  - unfold RevokeAllForAccount. pres_tac.
  - unfold ListSessionsByAccount. pres_tac.
  - apply cache_stale.
Qed.

(** The local cache stays bounded. In every state the service can reach, the number of
    cached sessions is at most the counter, and the counter at most the configured bound. *)
Theorem session_cache_bounded s0 s :
  sv_cache s0 = ∅ → sv_size s0 = 0 → rtc session_step s0 s →
  Z.of_nat (size (sv_cache s)) <= sv_size s <= sessionCacheMaxSize.
Proof.
  intros Hc Hz Hrun. assert (cache_ok s0) as H0 by (unfold cache_ok; by rewrite Hc, Hz).
  change (cache_ok s). clear Hc Hz. induction Hrun; eauto using session_step_cache.
Qed.
End counter.

(** ** Validation *)
Section validation.
Context {R : Type} `{RedisServer R} (cfg : SessionConfig) (revoker : option (TokenRevoker R)).
Implicit Types s : Sess R.

Lemma wp_GetEx_any key ttl (Q : res string → World R → Prop) w : 0 < ttl →
  (∀ r w', w_now w' = w_now w → (∀ d, r = Ok d → ∃ e, view w key = Some (Entry (RStr d) e)) → Q r w') →
  wp (GetEx key ttl) Q w.
Proof.
  intros Ht HQ. unfold GetEx, not_found_or. wp_step. wp_step. apply wp_redis_call.
  - intros net. s_step; [by apply r_px_pos|]. split; [|cbn; by apply HQ].
    assert (∀ d, str_of (r_view (w_redis w) (now_ms w) key) = Ok (Some d) →
      ∃ e, view w key = Some (Entry (RStr d) e)) as Hd.
    { intros d. unfold view, str_of. destruct (r_view _ _ _) as [[[v|v|v] e]|]; naive_solver. }
    destruct (str_of _) as [[d|]|e] eqn:Hs; cbn; [wp_step|wp_step|]; apply HQ; try done.
    intros ? [= <-]. by apply Hd.
  - intros net. cbn. by apply HQ.
Qed.

(** Every cached object is what its document says. *)
Definition coherent s : Prop := ∀ sid cs, sv_cache s !! sid = Some cs →
  unmarshal_session (cs_json cs) = Some (sv_heap s !!! cs_session cs).

Lemma wp_parse_and_cache sid d (Q : res nat → Sess R → Prop) s :
  (∀ p s', sv_world s' = sv_world s →
     (coherent s → unmarshal_session d = Some (sv_heap s' !!! p)) → Q (Ok p) s') →
  (∀ e, unmarshal_session d = None → Q (Err e) s) →
  wp (parse_and_cache sid d) Q s.
Proof.
  intros HQ HE. unfold parse_and_cache, cached_for. wp_step. apply wp_gets.
  destruct (sv_cache s !! sid) as [cs|] eqn:Hc; [case_bool_decide as Hj|].
  { wp_step. apply HQ; [done|]. intros Hcoh. subst d. by eapply Hcoh. }
  all: destruct (unmarshal_session d) as [x|] eqn:Hx; [|wp_step; by apply HE].
  all: wp_step; apply wp_new_obj; wp_step; apply wp_on_world, wp_gets; wp_step; unfold cacheStore.
  all: apply wp_modify; wp_step; apply HQ; [by repeat case_match|]; intros _.
  all: assert ((sv_heap s ++ [x]) !!! length (sv_heap s) = x) as Hl
    by (by rewrite lookup_total_app_r, Nat.sub_diag).
  all: by repeat case_match; cbn; rewrite Hl.
Qed.

(** What acceptance of a session means. *)
Lemma validate_session_ok sid s p s' :
  0 < sc_ttl cfg → ValidateSession cfg revoker sid s = (Ok p, s') →
  let x := sv_heap s' !!! p in let t := w_now (sv_world s) in
  t - se_LastActiveAt x <= sc_ttl cfg ∧ (0 < sc_maxAge cfg → t - se_CreatedAt x <= sc_maxAge cfg) ∧
  ∃ d e, view (sv_world s) (buildSessionKey sid) = Some (Entry (RStr d) e) ∧
         (coherent s → unmarshal_session d = Some x).
Proof.
  intros Httl Heq.
  enough (wp (ValidateSession cfg revoker sid) (λ r s', ∀ p, r = Ok p →
    let x := sv_heap s' !!! p in let t := w_now (sv_world s) in
    t - se_LastActiveAt x <= sc_ttl cfg ∧ (0 < sc_maxAge cfg → t - se_CreatedAt x <= sc_maxAge cfg) ∧
    ∃ d e, view (sv_world s) (buildSessionKey sid) = Some (Entry (RStr d) e) ∧
           (coherent s → unmarshal_session d = Some x)) s) as Hwp by (by apply (wp_intro _ _ _ _ _ Heq Hwp)).
  clear Heq p s'. unfold ValidateSession. wp_step. wp_step. apply wp_on_world, wp_GetEx_any; [done|].
  intros r w Hnow Hd. destruct r as [d|e]; [|case_match; by wp_step].
  destruct (Hd d eq_refl) as [e He]. wp_step. apply wp_parse_and_cache; [|done].
  intros p s1 Hw1 Hcoh. wp_step. apply wp_on_world, wp_gets. wp_step. apply wp_load_obj. cbn [sv_heap set_world].
  destruct (too_old cfg _ _ || session_IsExpired _ _ _) eqn:Hold.
  { wp_step. match goal with |- wp ?m _ ?s0 => generalize s0 end. intros s2.
    eapply wp_mono with (Q1 := λ _ _, True); [done|]. intros [?|?] ? _; [|done]. by wp_step. }
  wp_step. intros ? [= <-]. cbn [sv_heap set_world].
  rewrite orb_false_iff in Hold. destruct Hold as [Hage Hidle]. unfold too_old in Hage.
  cbn [session_IsExpired] in Hidle. rewrite Z.ltb_ge in Hidle.
  rewrite andb_false_iff, !Z.ltb_ge in Hage. rewrite Hw1 in *. cbn [sv_world set_world] in *. rewrite Hnow in *.
  split; [lia|]. split; [intros; lia|]. exists d, e. split; [exact He|exact Hcoh].
Qed.

(** A session is accepted only if its document is stored, it was active within the
    sliding lifetime and it is not older than the absolute limit, on any network and
    whatever is cached; if the cache is coherent it is the stored session. *)
Theorem session_validation_sound sid s p s' :
  0 < sc_ttl cfg → ValidateSession cfg revoker sid s = (Ok p, s') →
  let x := sv_heap s' !!! p in let t := w_now (sv_world s) in
  t - se_LastActiveAt x <= sc_ttl cfg ∧ (0 < sc_maxAge cfg → t - se_CreatedAt x <= sc_maxAge cfg) ∧
  ∃ d e, view (sv_world s) (buildSessionKey sid) = Some (Entry (RStr d) e) ∧
         (coherent s → unmarshal_session d = Some x).
Proof. apply validate_session_ok. Qed.
End validation.

(** ** Creation and the session limit *)
Section creation.
Context {R : Type} `{RedisServer R} (cfg : SessionConfig) (tr : TokenRevoker R).
Implicit Types s : Sess R.

Lemma create_script_spec now id a data secs st S (Q : res unit → R → Prop) :
  0 < secs → set_of (r_view st now (buildAccountSessionsKey a)) = Some S →
  (∀ st', (∀ k, r_view st' now k =
      if decide (k = buildAccountSessionsKey a) then Some (Entry (RSet ({[id]} ∪ S)) (Some (now + secs * 1000)))
      else if decide (k = buildSessionKey id) then Some (Entry (RStr data) (Some (now + secs * 1000)))
      else r_view st now k) → Q (Ok tt) st') →
  wp (createSessionScript (buildSessionKey id) (buildAccountSessionsKey a) data secs id now) Q st.
Proof.
  intros Hs HS HQ. unfold createSessionScript. s_step. s_step. rename H0 into H1. s_step.
  s_step. { rewrite (H1 _). decide_keys. exact HS. } rename H0 into H2.
  s_step. rename H0 into H3. apply HQ. intros k. rewrite (H3 k).
  destruct (decide (k = buildAccountSessionsKey a)) as [->|Hne].
  - rewrite (H2 _). by decide_keys.
  - rewrite (H2 k), decide_False by done. by rewrite (H1 k).
Qed.

(** The calls to the token service leave the session store alone. *)
Lemma revoke_each_frame ids s :
  wp (revoke_each (Some tr) ids) (λ r s', r = Ok tt ∧ sv_heap s' = sv_heap s ∧
    w_now (sv_world s') = w_now (sv_world s) ∧
    ∀ k, session_store_key k → view (sv_world s') k = view (sv_world s) k) s.
Proof.
  unfold revoke_each.
  apply (wp_for_each_inv (λ s', sv_heap s' = sv_heap s ∧ w_now (sv_world s') = w_now (sv_world s) ∧
    ∀ k, session_store_key k → view (sv_world s') k = view (sv_world s) k)); [done|].
  intros sid s1 _ (Hh&Hn&Hk). case_bool_decide; [by wp_step|]. wp_step. apply wp_on_world.
  destruct (revoke_all_frame tr sid (sv_world s1)) as [Hn1 Hk1]. unfold wp.
  destruct (revoke_all tr sid (sv_world s1)) as [r w]. cbn in *. split; [done|]. split; [done|].
  split; [congruence|]. intros k Hs. by rewrite Hk1, Hk.
Qed.

(** The session store after the limit was enforced: [S'] is listed. *)
Definition limited (V V' : string → option rentry) (a : string) S protected S' : Prop :=
  (Z.of_nat (size S) <= sc_maxSessions cfg ∧ S' = S ∧ ∀ k, session_store_key k → V' k = V k) ∨
  ∃ E V1, limit_enforced V V1 (buildAccountSessionsKey a) S (sc_maxSessions cfg) protected E S' ∧
          ∀ k, session_store_key k → V' k = V1 k.

Lemma index_is_store_key a : session_store_key (buildAccountSessionsKey a).
Proof. exists a. by right. Qed.
Lemma session_is_store_key sid : session_store_key (buildSessionKey sid).
Proof. exists sid. by left. Qed.

Lemma enforce_spec a protected s S (Q : res unit → Sess R → Prop) :
  0 < sc_maxSessions cfg → w_net (sv_world s) = [] → texts (view (sv_world s)) →
  set_of (view (sv_world s) (buildAccountSessionsKey a)) = Some S →
  (∀ s' S', sv_heap s' = sv_heap s → w_now (sv_world s') = w_now (sv_world s) →
     limited (view (sv_world s)) (view (sv_world s')) a S protected S' → Q (Ok tt) s') →
  wp (enforceSessionLimit cfg (Some tr) a protected) Q s.
Proof.
  intros Hmax Hn Ht HS HQ. unfold enforceSessionLimit. rewrite (proj2 (Z.leb_gt _ 0)) by done.
  wp_step. wp_step. apply wp_on_world, wp_redis_call_up; [done|].
  eapply evict_script_spec; [exact HS|exact Ht|done|..].
  - intros st' Hs Hle. cbn [wrap_res]. eapply wp_mono; [apply revoke_each_frame|].
    intros r s' (->&Hh&Hnow&Hk). apply (HQ _ S); [done|done|]. left. split; [done|]. split; [done|].
    intros k Hkey. rewrite Hk by done. apply Hs.
  - intros E S' st' Hover Hle. cbn [wrap_res]. eapply wp_mono; [apply revoke_each_frame|].
    intros r s' (->&Hh&Hnow&Hk). apply (HQ _ S'); [done|done|]. right. by eexists _, _.
Qed.

(** What holds of the listed sessions in both cases. *)
Lemma limited_facts V V' a S protected S' :
  limited V V' a S protected S' → set_of (V (buildAccountSessionsKey a)) = Some S →
  set_of (V' (buildAccountSessionsKey a)) = Some S' ∧ Z.of_nat (size S') <= sc_maxSessions cfg ∧
  (protected ∈ S → is_Some (found_in V protected) →
     protected ∈ S' ∧ V' (buildSessionKey protected) = V (buildSessionKey protected)).
Proof.
  intros [(Hle&->&Hk)|(E&V1&Hl&Hk)] HS.
  - rewrite !Hk by auto using index_is_store_key, session_is_store_key. done.
  - rewrite !Hk by auto using index_is_store_key, session_is_store_key.
    split; [apply Hl|]. split; [apply Hl|]. intros Hp Hf. destruct (le_protected _ _ _ _ _ _ _ _ Hl Hp Hf) as [Hin _].
    split; [done|]. by apply (le_kept _ _ _ _ _ _ _ _ Hl).
Qed.

(** C28: with Redis up, creating a session succeeds, and afterwards the account has at most
    the configured number of sessions, the new one among them, stored under its identifier
    for the session lifetime. *)
Theorem create_session_enforces_limit p s :
  0 < sc_maxSessions cfg → w_net (sv_world s) = [] → (p < length (sv_heap s))%nat →
  0 <= year_of (w_now (sv_world s)) <= 9999 →
  let x0 := sv_heap s !!! p in let index := buildAccountSessionsKey (se_AccountID x0) in
  se_ID x0 ≠ "" ∨ w_uuid (sv_world s) ≠ [] →
  texts (view (sv_world s)) → is_Some (set_of (view (sv_world s) index)) →
  ∃ s' d S', CreateSession cfg (Some tr) p s = (Ok tt, s') ∧
    let x := sv_heap s' !!! p in
    se_AccountID x = se_AccountID x0 ∧ se_LastActiveAt x = w_now (sv_world s) ∧ marshal_session x = Ok d ∧
    view (sv_world s') (buildSessionKey (se_ID x))
      = Some (Entry (RStr d) (Some (now_ms (sv_world s) + session_secs cfg * 1000))) ∧
    set_of (view (sv_world s') index) = Some S' ∧
    Z.of_nat (size S') <= sc_maxSessions cfg ∧ se_ID x ∈ S'.
Proof.
  intros Hmax Hn Hp Hyear x0 index Hid Ht [S0 HS0].
  enough (wp (CreateSession cfg (Some tr) p) (λ r s', r = Ok tt ∧ ∃ d S', let x := sv_heap s' !!! p in
    se_AccountID x = se_AccountID x0 ∧ se_LastActiveAt x = w_now (sv_world s) ∧ marshal_session x = Ok d ∧
    view (sv_world s') (buildSessionKey (se_ID x))
      = Some (Entry (RStr d) (Some (now_ms (sv_world s) + session_secs cfg * 1000))) ∧
    set_of (view (sv_world s') index) = Some S' ∧
    Z.of_nat (size S') <= sc_maxSessions cfg ∧ se_ID x ∈ S') s) as Hwp
    by (destruct (wp_eq _ _ _ Hwp) as (r&s'&->&->&d&S'&?); by exists s', d, S').
  unfold CreateSession. wp_step. apply wp_load_obj. fold x0. wp_step.
  assert (∀ Q : res string → Sess R → Prop, (∀ id w, w_redis w = w_redis (sv_world s) → w_now w = w_now (sv_world s) →
    w_net w = [] → Q (Ok id) (set_world w s)) →
    wp (if bool_decide (se_ID x0 = "") then on_world uuid_new else ret (se_ID x0)) Q s) as Hgen.
  { intros Q HQ. case_bool_decide.
    - apply wp_on_world. unfold wp, uuid_new. destruct (w_uuid (sv_world s)); [naive_solver|]. by apply HQ.
    - wp_step. replace s with (set_world (sv_world s) s) by (by destruct s). by apply HQ. }
  apply Hgen. clear Hgen. intros id w Hr Hnow Hnet. wp_step. apply wp_on_world, wp_gets. wp_step.
  apply wp_store_obj. cbn [sv_world sv_heap set_world]. rewrite Hnow.
  set (x := begin_session _ id x0). wp_step. wp_step.
  assert (∃ d, marshal_session x = Ok d) as [d Hd].
  { unfold marshal_session, two_times, marshal_time.
    change (se_CreatedAt x) with (w_now (sv_world s)). change (se_LastActiveAt x) with (w_now (sv_world s)).
    rewrite !(proj2 (andb_true_iff _ _)) by (rewrite !Z.leb_le; lia). eauto. }
  rewrite Hd. cbn [wrap_res]. wp_step. wp_step. apply wp_on_world, wp_redis_call_up; [done|].
  assert (now_ms w = now_ms (sv_world s)) as Hms by (unfold now_ms; by rewrite Hnow).
  cbn [sv_world set_world] in *. rewrite Hms, Hr. eapply create_script_spec; [unfold session_secs; lia|exact HS0|].
  intros st Hst. cbn [wrap_res]. wp_step. wp_step.
  set (s1 := set_world _ _).
  assert (∀ k, view (sv_world s1) k = if decide (k = index)
      then Some (Entry (RSet ({[id]} ∪ S0)) (Some (now_ms (sv_world s) + session_secs cfg * 1000)))
      else if decide (k = buildSessionKey id)
      then Some (Entry (RStr d) (Some (now_ms (sv_world s) + session_secs cfg * 1000)))
      else view (sv_world s) k) as Hv1.
  { intros k. etransitivity; [|exact (Hst k)]. unfold view, s1. cbn. by rewrite <-Hms. }
  assert (view (sv_world s1) (buildSessionKey id)
    = Some (Entry (RStr d) (Some (now_ms (sv_world s) + session_secs cfg * 1000)))) as Hnew.
  { rewrite Hv1, decide_False by done. by rewrite decide_True. }
  assert (set_of (view (sv_world s1) index) = Some ({[id]} ∪ S0)) as Hidx by (rewrite Hv1; by rewrite decide_True).
  assert (found_in (view (sv_world s1)) id = Some (Found id (format_time (w_now (sv_world s))))) as Hfound.
  { unfold found_in. rewrite Hnew. cbn [str_of]. by rewrite (proj2 (last_active_found x d Hd)). }
  assert (sv_heap s1 !!! p = x) as Hx by (unfold s1; cbn; by apply list_lookup_total_insert_eq).
  eapply (enforce_spec (se_AccountID x) id s1); [done|done| |exact Hidx|].
  { intros sid. rewrite Hv1, decide_False by done. case_decide; [done|]. apply Ht. }
  intros s2 S' Hheap Hnow2 Hlim.
  destruct (limited_facts _ _ _ _ _ _ Hlim Hidx) as (HS'&Hsize&Hprot).
  destruct Hprot as [Hin Hkey]; [apply elem_of_union_l, elem_of_singleton_2; done|by rewrite Hfound|].
  wp_step. wp_step. wp_step. apply wp_on_world, wp_gets. unfold cacheStore. apply wp_modify.
  split; [done|]. exists d, S'.
  assert (∀ s3 : Sess R, sv_heap s3 = sv_heap s2 → sv_world s3 = sv_world s2 → let y := sv_heap s3 !!! p in
    se_AccountID y = se_AccountID x0 ∧ se_LastActiveAt y = w_now (sv_world s) ∧ marshal_session y = Ok d ∧
    view (sv_world s3) (buildSessionKey (se_ID y))
      = Some (Entry (RStr d) (Some (now_ms (sv_world s) + session_secs cfg * 1000))) ∧
    set_of (view (sv_world s3) index) = Some S' ∧
    Z.of_nat (size S') <= sc_maxSessions cfg ∧ se_ID y ∈ S') as Hend.
  { intros s3 Hh3 Hw3. cbv zeta. rewrite Hh3, Hheap, Hx, Hw3. split_and!; try done. cbn. by rewrite Hkey. }
  cbv zeta. repeat case_match; by apply Hend.
Qed.
End creation.

(** ** What is stored of a new session

    Whatever the network does and whatever the keys hold. *)
Section new_session.
Context {R : Type} `{RedisServer R} (cfg : SessionConfig) (tr : option (TokenRevoker R)).
Implicit Types s : Sess R.

(** The document of this session is stored under its key. *)
Definition holds_session s (x : Session) : Prop :=
  ∃ d e, marshal_session x = Ok d ∧ view (sv_world s) (buildSessionKey (se_ID x)) = Some (Entry (RStr d) e).
Lemma create_script_any now id a data secs (st : R) (Q : res unit → R → Prop) : 0 < secs → (∀ e st', Q (Err e) st') →
  (∀ st' S, set_of (r_view st' now (buildAccountSessionsKey a)) = Some S → id ∈ S →
     r_view st' now (buildSessionKey id) = Some (Entry (RStr data) (Some (now + secs * 1000))) → Q (Ok tt) st') →
  wp (createSessionScript (buildSessionKey id) (buildAccountSessionsKey a) data secs id now) Q st.
Proof.
  intros Hs HE HQ. destruct (set_of (r_view st now (buildAccountSessionsKey a))) as [S|] eqn:HS.
  - apply (create_script_spec now id a data secs st S); [done..|]. intros st' Hv. apply (HQ st' ({[id]} ∪ S)).
    + rewrite Hv. by decide_keys.
    + set_solver.
    + rewrite Hv. by decide_keys.
  - unfold createSessionScript. s_step. s_step. rename H0 into H1. apply wp_bind. eapply wp_s_sadd_bad; [|intros; by apply HE].
    rewrite (H1 _). by decide_keys.
Qed.
Lemma revoke_each_keeps ids s :
  wp (revoke_each tr ids) (λ _ s', sv_heap s' = sv_heap s ∧ ∀ k, session_store_key k → view (sv_world s') k = view (sv_world s) k) s.
Proof.
  destruct tr as [t|]; [eapply wp_mono; [apply revoke_each_frame|]; naive_solver|].
  unfold revoke_each. eapply wp_mono; [apply (wp_for_each_inv (λ s', s' = s)); [done|]|by intros ? ? [_ ->]].
  intros sid s1 _ ->. case_bool_decide; by repeat wp_step.
Qed.
Lemma enforce_keeps a protected S s : set_of (view (sv_world s) (buildAccountSessionsKey a)) = Some S → protected ∈ S →
  is_Some (found_in (view (sv_world s)) protected) →
  wp (enforceSessionLimit cfg tr a protected) (λ _ s', sv_heap s' = sv_heap s ∧
    view (sv_world s') (buildSessionKey protected) = view (sv_world s) (buildSessionKey protected)) s.
Proof.
  intros HS Hp Hf. unfold enforceSessionLimit. destruct (Z.leb_spec (sc_maxSessions cfg) 0) as [|Hmax]; [by wp_step|].
  destruct tr as [t|] eqn:Htr; [rewrite <-Htr|by wp_step]. wp_step. wp_step. apply wp_on_world.
  apply wp_redis_call; [|by intros net]. intros net.
  assert (∀ (r : res (list string)) (st' : R),
    r_view st' (now_ms (sv_world s)) (buildSessionKey protected) = view (sv_world s) (buildSessionKey protected) →
    let w := put_net net (put_redis st' (sv_world s)) in
    match r with
    | Ok evicted => wp (revoke_each tr evicted) (λ _ s', sv_heap s' = sv_heap s ∧
        view (sv_world s') (buildSessionKey protected) = view (sv_world s) (buildSessionKey protected)) (set_world w s)
    | Err _ => sv_heap (set_world w s) = sv_heap s ∧
        view (sv_world (set_world w s)) (buildSessionKey protected) = view (sv_world s) (buildSessionKey protected)
    end) as Hend.
  { intros r st' Hv. cbv zeta. destruct r as [ids|e]; [|by split]. eapply wp_mono; [apply revoke_each_keeps|].
    intros ? s' [-> Hk]. split; [done|]. by rewrite Hk by apply session_is_store_key. }
  eapply evict_script_any; [exact HS|exact Hmax|..].
  - intros e st' _ Hs. specialize (Hend (Err e) st' (Hs _)). by split.
  - intros st' Hs _. split; [apply (Hend (Ok [])); apply Hs|apply (Hend (Err ErrNetwork)); apply Hs].
  - intros E S' st' _ Hl. assert (r_view st' (now_ms (sv_world s)) (buildSessionKey protected) = view (sv_world s) (buildSessionKey protected)) as Hv.
    { apply (le_kept _ _ _ _ _ _ _ _ Hl), (le_protected _ _ _ _ _ _ _ _ Hl Hp Hf). }
    split; [by apply (Hend (Ok E))|by apply (Hend (Err ErrNetwork))].
Qed.
(** A session that was created is stored, and its object starts now. *)
Lemma create_session_stored p s : (p < length (sv_heap s))%nat →
  wp (CreateSession cfg tr p) (λ r s', r = Ok tt → holds_session s' (sv_heap s' !!! p) ∧ ∃ id,
    sv_heap s' = <[p := begin_session (w_now (sv_world s)) id (sv_heap s !!! p)]> (sv_heap s)) s.
Proof.
  intros Hp. unfold CreateSession. wp_step. apply wp_load_obj. set (x0 := sv_heap s !!! p). wp_step.
  assert (∀ Q : res string → Sess R → Prop, (∀ e s', Q (Err e) s') →
    (∀ id w, w_now w = w_now (sv_world s) → Q (Ok id) (set_world w s)) →
    wp (if bool_decide (se_ID x0 = "") then on_world uuid_new else ret (se_ID x0)) Q s) as Hgen.
  { intros Q HE HQ. case_bool_decide; [|wp_step; replace s with (set_world (sv_world s) s) by (by destruct s); by apply HQ].
    apply wp_on_world. unfold wp, uuid_new. destruct (w_uuid (sv_world s)); [by apply HE|by apply HQ]. }
  apply Hgen; [done|]. clear Hgen. intros id w Hn. wp_step. apply wp_on_world, wp_gets. wp_step.
  apply wp_store_obj. cbn [sv_world sv_heap set_world]. rewrite Hn. set (x := begin_session _ id x0). wp_step. wp_step.
  destruct (marshal_session x) as [d|e] eqn:Hd; cbn [wrap_res]; [|done]. wp_step. wp_step. apply wp_on_world, wp_redis_call; [|done].
  intros net. apply create_script_any; [unfold session_secs; lia|done|]. intros st S HS Hin Hv. split; [|done]. cbn [wrap_res sv_world set_world] in *.
  wp_step. wp_step. set (s1 := set_world _ _).
  assert (sv_heap s1 !!! p = x) as Hx by by apply list_lookup_total_insert_eq.
  eapply wp_mono; [apply (enforce_keeps _ id S s1); [exact HS|exact Hin|]|].
  { assert (found_in (view (sv_world s1)) id = Some (Found id (format_time (w_now (sv_world s))))) as ->; [|done].
    unfold found_in. change (view (sv_world s1) (buildSessionKey id)) with (r_view st (now_ms w) (buildSessionKey id)).
    rewrite Hv. cbn [str_of]. by rewrite (proj2 (last_active_found x d Hd)). }
  intros r s2 [Hh Hk].
  assert (∀ m : M (Sess R) unit, (∀ s3, sv_heap (m s3).2 = sv_heap s3 ∧ sv_world (m s3).2 = sv_world s3) →
    wp m (λ r s', r = Ok tt → holds_session s' (sv_heap s' !!! p) ∧ ∃ id,
      sv_heap s' = <[p := begin_session (w_now (sv_world s)) id x0]> (sv_heap s)) s2) as Hend.
  { intros m Hm. unfold wp. destruct (Hm s2) as [Hh3 Hw3]. intros _. rewrite Hh3, Hh. split; [|by exists id].
    rewrite Hx. exists d. eexists. split; [exact Hd|]. rewrite Hw3. etransitivity; [exact Hk|exact Hv]. }
  assert (∀ s3 t2, sv_heap (cacheStore id (mkCached p d t2) s3).2 = sv_heap s3 ∧ sv_world (cacheStore (R := R) id (mkCached p d t2) s3).2 = sv_world s3) as Hc.
  { intros s3 t2. unfold cacheStore, modify. cbn. by repeat case_match. }
  apply (Hend _). intros s3. unfold bind.
  destruct r as [?|?]; [|destruct (sc_indexFailClosed cfg); [done|]]; cbn; apply (Hc (set_world _ s3)).
Qed.
End new_session.

(** ** Revocation *)
Section revocation.
Context {R : Type} `{RedisServer R}.
Implicit Types s : Sess R.

(** Deleting keys on any network: on success they are gone, and nothing else changes. *)
Lemma del_keys_spec now keys st (Q : res unit → R → Prop) :
  (∀ st', (∀ k, r_view st' now k = if decide (k ∈ keys) then None else r_view st now k) → Q (Ok tt) st') →
  wp (for_each keys (s_del now)) Q st.
Proof.
  revert st Q. induction keys as [|k0 keys IH]; intros st Q HQ; cbn [for_each].
  - s_step. apply HQ. intros k. by rewrite decide_False by apply not_elem_of_nil.
  - s_step. s_step. rename H0 into Hu. apply IH. intros st2 H2. apply HQ. intros k. rewrite H2, (Hu k).
    destruct (decide (k ∈ keys)); [by rewrite decide_True by (by right)|].
    destruct (decide (k = k0)) as [->|]; [by rewrite decide_True by left|].
    rewrite decide_False; [done|]. rewrite elem_of_cons. tauto.
Qed.

Lemma wp_Del_any keys (Q : res unit → World R → Prop) w :
  (∀ w', w_now w' = w_now w → (∀ k, view w' k = if decide (k ∈ keys) then None else view w k) → Q (Ok tt) w') →
  (∀ e w', Q (Err e) w') → wp (Del keys) Q w.
Proof.
  intros HQ HE. unfold Del. wp_step. apply wp_redis_call; [|intros; by apply HE].
  intros net. apply del_keys_spec. intros st' Hv. split; [|by apply HE]. by apply HQ.
Qed.

(** Removing from an index touches the index only, whatever happens. *)
Lemma SRem_frame a m w :
  w_now (SRem (buildAccountSessionsKey a) m w).2 = w_now w ∧
  ∀ k, k ≠ buildAccountSessionsKey a → view (SRem (buildAccountSessionsKey a) m w).2 k = view w k.
Proof.
  enough (wp (SRem (buildAccountSessionsKey a) m) (λ _ w', w_now w' = w_now w ∧
    ∀ k, k ≠ buildAccountSessionsKey a → view w' k = view w k) w) as Hwp by exact Hwp.
  unfold SRem. wp_step. apply wp_redis_call; [|by intros; split].
  intros net. destruct (set_of (r_view (w_redis w) (now_ms w) (buildAccountSessionsKey a))) as [S|] eqn:HS.
  - eapply wp_s_srem; [exact HS|]. intros st' Hu.
    assert (∀ k, k ≠ buildAccountSessionsKey a → r_view st' (now_ms w) k = r_view (w_redis w) (now_ms w) k) as Hk
      by (intros k Hne; by rewrite (Hu k), decide_False).
    split; (split; [done|]); exact Hk.
  - eapply wp_s_srem_bad; [exact HS|]. intros e st' Hs. split; (split; [done|]); intros k _; apply Hs.
Qed.

Lemma wp_GetSession sid (Q : res nat → Sess R → Prop) s :
  (∀ r s', w_now (sv_world s') = w_now (sv_world s) → (∀ k, view (sv_world s') k = view (sv_world s) k) → Q r s') →
  wp (GetSession sid) Q s.
Proof.
  intros HQ. unfold GetSession. wp_step. wp_step. apply wp_on_world, wp_Get_any.
  intros r w (Hnow&_&_&_&Hk) _. destruct r as [d|e].
  - apply wp_parse_and_cache.
    + intros p s' Hw _. apply HQ; by rewrite Hw.
    + intros e _. by apply HQ.
  - case_match; by apply HQ.
Qed.

(** What a successful revocation leaves. *)
Lemma revoke_session_gone (tr : TokenRevoker R) a sid s s' :
  RevokeSession (Some tr) a sid s = (Ok tt, s') →
  view (sv_world s') (buildSessionKey sid) = None ∧ tokens_gone tr sid (sv_world s') ∧
  ∃ p s1, GetSession sid s = (Ok p, s1) ∧ se_AccountID (sv_heap s1 !!! p) = a.
Proof.
  unfold RevokeSession. unfold bind at 1. destruct (GetSession sid s) as [[p|e] s1] eqn:Hget; [|done].
  intros Heq.
  enough (wp (let! x := load_obj p in
    guard_err (negb (bool_decide (se_AccountID x = a))) ErrSessionAccessDenied ;;
    wrap "revoke tokens for session" (revoke_tokens (Some tr) sid) ;;
    wrap "delete session" (on_world (Del [buildSessionKey sid])) ;;
    ignore (on_world (SRem (buildAccountSessionsKey a) sid))) (λ r s', r = Ok tt →
      view (sv_world s') (buildSessionKey sid) = None ∧ tokens_gone tr sid (sv_world s') ∧
      se_AccountID (sv_heap s1 !!! p) = a) s1) as Hwp.
  { destruct (wp_intro _ _ _ _ _ Heq Hwp eq_refl) as (?&?&?). split_and!; [done..|]. by exists p, s1. }
  clear Heq. wp_step. apply wp_load_obj. wp_step. apply wp_guard_err; [done|].
  rewrite negb_false_iff, bool_decide_eq_true. intros Ha. wp_step. wp_step. unfold revoke_tokens.
  apply wp_on_world. pose proof (revoke_all_gone tr sid (sv_world s1)) as Hgone. unfold wp at 1.
  destruct (revoke_all tr sid (sv_world s1)) as [[[]|e] w1]; cbn [fst snd wrap_res] in *; [|done].
  specialize (Hgone eq_refl). wp_step. wp_step. apply wp_on_world, wp_Del_any; [|done].
  intros w2 Hnow Hv2. cbn [wrap_res]. wp_step. apply wp_on_world. intros _. cbn [sv_world set_world] in *.
  destruct (SRem_frame a sid w2) as [_ Hk]. split; [|split; [|done]].
  - rewrite Hk by done. rewrite Hv2. by rewrite decide_True by (by left).
  - apply (tokens_gone_frame tr sid w1); [done|]. intros k Hns. rewrite Hk.
    + rewrite Hv2. rewrite decide_False; [done|]. intros ->%list_elem_of_singleton. apply Hns.
      apply session_is_store_key.
    + intros ->. apply Hns, index_is_store_key.
Qed.

(** When [RevokeSession] reports success the session is no longer stored and none of its
    refresh tokens is left, on any network; and only its owner can do that. *)
Theorem revoke_session_sound (tr : TokenRevoker R) a sid s s' :
  RevokeSession (Some tr) a sid s = (Ok tt, s') →
  view (sv_world s') (buildSessionKey sid) = None ∧ tokens_gone tr sid (sv_world s') ∧
  ∃ p s1, GetSession sid s = (Ok p, s1) ∧ se_AccountID (sv_heap s1 !!! p) = a.
Proof. apply revoke_session_gone. Qed.

(** Somebody else's session is not touched: the request is refused and the store is as
    before. *)
Theorem revoke_session_needs_owner (rv : option (TokenRevoker R)) a sid s p s1 :
  GetSession sid s = (Ok p, s1) → se_AccountID (sv_heap s1 !!! p) ≠ a →
  RevokeSession rv a sid s = (Err ErrSessionAccessDenied, s1) ∧ ∀ k, view (sv_world s1) k = view (sv_world s) k.
Proof.
  intros Hget Hne. split.
  - unfold RevokeSession, bind, load_obj, gets, guard_err. rewrite Hget. by rewrite bool_decide_false.
  - eapply (wp_intro _ (λ _ s', ∀ k, view (sv_world s') k = view (sv_world s) k)); [exact Hget|].
    by apply wp_GetSession.
Qed.

(** When [RevokeAllForAccount] reports success the account's index is gone and so is
    every session it listed, on any network. *)
Theorem revoke_all_for_account_sound (tr : TokenRevoker R) a s s' S :
  set_of (view (sv_world s) (buildAccountSessionsKey a)) = Some S →
  RevokeAllForAccount (Some tr) a s = (Ok tt, s') →
  view (sv_world s') (buildAccountSessionsKey a) = None ∧
  ∀ sid, sid ∈ S → view (sv_world s') (buildSessionKey sid) = None.
Proof.
  intros HS Heq.
  enough (wp (RevokeAllForAccount (Some tr) a) (λ r s', r = Ok tt →
    view (sv_world s') (buildAccountSessionsKey a) = None ∧
    ∀ sid, sid ∈ S → view (sv_world s') (buildSessionKey sid) = None) s) as Hwp
    by (by apply (wp_intro _ _ _ _ _ Heq Hwp)).
  unfold RevokeAllForAccount. wp_step. wp_step. apply wp_on_world, wp_redis_call; [|done].
  intros net. unfold revokeAccountSessionsScript. s_step. eapply wp_s_smembers; [exact HS|].
  intros st1 ids Hs1 Hids. s_step. s_step. rename H0 into Hu. wp_step. split; [|done]. cbn [wrap_res].
  set (s1 := set_world _ _).
  assert (view (sv_world s1) (buildAccountSessionsKey a) = None) as Hidx
    by (transitivity (r_view st' (now_ms (sv_world s)) (buildAccountSessionsKey a)); [done|];
        rewrite (Hu _); by rewrite decide_True).
  wp_step. eapply wp_mono.
  { apply (wp_for_each_inv (λ s', view (sv_world s') (buildAccountSessionsKey a) = None)); [exact Hidx|].
    intros sid s2 _ Hs2. wp_step. apply wp_on_world. split; [done|].
    destruct (revoke_all_frame tr sid (sv_world s2)) as [_ Hk]. cbn. by rewrite Hk by apply index_is_store_key. }
  intros r s2 [-> Hs2]. destruct ids as [|sid0 ids'] eqn:Hl.
  - wp_step. intros _. split; [done|]. intros sid Hin. exfalso.
    apply elem_of_elements in Hin. rewrite <-Hids in Hin. by apply elem_of_nil in Hin.
  - rewrite <-Hl in *. wp_step. apply wp_on_world, wp_Del_any; [|done]. intros w Hnow Hv _. cbn [sv_world set_world].
    split.
    + rewrite Hv. by destruct (decide _).
    + intros sid Hin. rewrite Hv. rewrite decide_True; [done|]. apply (list_elem_of_fmap_2 buildSessionKey).
      rewrite Hids. by apply elem_of_elements.
Qed.

(** C29: the eviction script implements its specification: it leaves at most [maxSessions]
    sessions listed, keeps the protected one, deletes exactly the sessions it takes off the
    index, reports those that had a document, and never evicts a session while keeping
    one whose timestamp text comes earlier. *)
Theorem evict_script_refines a maxSessions protected now (st : R) S :
  set_of (r_view st now (buildAccountSessionsKey a)) = Some S → texts (r_view st now) → 0 < maxSessions →
  ∃ E st', evictOldestSessionsScript (buildAccountSessionsKey a) maxSessions protected now st = (Ok E, st') ∧
    ((Z.of_nat (size S) <= maxSessions ∧ E = [] ∧ same now st st') ∨
     ∃ S', limit_enforced (r_view st now) (r_view st' now) (buildAccountSessionsKey a) S maxSessions protected E S').
Proof.
  intros HS Ht Hmax.
  enough (wp (evictOldestSessionsScript (buildAccountSessionsKey a) maxSessions protected now) (λ r st', ∃ E, r = Ok E ∧
    ((Z.of_nat (size S) <= maxSessions ∧ E = [] ∧ same now st st') ∨
     ∃ S', limit_enforced (r_view st now) (r_view st' now) (buildAccountSessionsKey a) S maxSessions protected E S')) st)
    as Hwp by (destruct (wp_eq _ _ _ Hwp) as (r&st'&->&E&->&?); eauto).
  eapply evict_script_spec; [exact HS|exact Ht|exact Hmax|..].
  - intros st' Hs Hle. exists []. eauto.
  - intros E S' st' _ Hl. exists E. eauto.
Qed.
End revocation.
