(* ===== verification/OAuthDomain.v ===== *)
(** * [internal/oauth2/domain]: authorization codes, PKCE, clients, device codes, consents *)
From S2P Require Import Prelude GoTime Json Hash LuaPattern Url TokenDomain.
Local Open Scope Z_scope.

(** ** [authorization_code.go] *)
Record AuthorizationCode : Type := mkAuthCode {
  ac_Code : string;
  ac_ClientID : string;
  ac_AccountID : string;
  ac_SessionID : string;
  ac_RedirectURI : string;
  ac_Scopes : list string;
  ac_CodeChallenge : string;
  ac_CodeChallengeMethod : string;
  ac_Nonce : string;
  ac_ExpiresAt : Z;
  ac_AuthTime : Z;
  ac_AuthMethods : list string;
}.
#[export] Instance authcode_eq_dec : EqDecision AuthorizationCode.
Proof. solve_decision. Defined.

Definition ErrCodeNotFound := Sentinel "authorization code not found".
Definition ErrCodeExpired := Sentinel "authorization code expired".
Definition ErrCodeClientMismatch := Sentinel "authorization code client mismatch".
Definition ErrCodeURIMismatch := Sentinel "authorization code redirect_uri mismatch".
Definition ErrPKCEVerificationFailed := Sentinel "PKCE verification failed".
Definition ErrAuthCodeRequired := Sentinel "authorization code: code is required".
Definition ErrAuthClientIDRequired := Sentinel "authorization code: client_id is required".
Definition ErrAuthAccountIDRequired := Sentinel "authorization code: account_id is required".
Definition ErrAuthRedirectURIRequired := Sentinel "authorization code: redirect_uri is required".
Definition ErrAuthExpiresRequired := Sentinel "authorization code: expires_at is required".

Definition NewAuthorizationCode (code clientID accountID redirectURI : string) (scopes : list string)
    (expiresAt authTime : Z) : res AuthorizationCode :=
  if bool_decide (code = "") then Err ErrAuthCodeRequired
  else if bool_decide (clientID = "") then Err ErrAuthClientIDRequired
  else if bool_decide (accountID = "") then Err ErrAuthAccountIDRequired
  else if bool_decide (redirectURI = "") then Err ErrAuthRedirectURIRequired
  else if IsZero expiresAt then Err ErrAuthExpiresRequired
  else Ok (mkAuthCode code clientID accountID "" redirectURI scopes "" "" "" expiresAt authTime []).

Definition authcode_IsExpired (now : Z) (a : option AuthorizationCode) : bool :=
  match a with None => true | Some a => ac_ExpiresAt a <? now end.

(** [base64URLEncode(sha256(verifier))] *)
Definition HashPKCEVerifier (verifier : string) : string := b64_encode (sha256 verifier).

(** The alphabet of a code verifier. *)
Definition verifier_char (c : ascii) : bool :=
  is_letter c || is_digit c || one_of ["-";".";"_";"~"]%char c.

Definition VerifyPKCE (a : option AuthorizationCode) (verifier : string) : bool :=
  match a with
  | None => false
  | Some a =>
      if bool_decide (ac_CodeChallenge a = "") then true
      else if (Z.of_nat (String.length verifier) <? 43) || (128 <? Z.of_nat (String.length verifier)) then false
      else if negb (sforall verifier_char verifier) then false
      else if bool_decide (ac_CodeChallengeMethod a = "S256")
           then bool_decide (HashPKCEVerifier verifier = ac_CodeChallenge a)
           else false
  end.

(** *** JSON *)
Definition authcode_members (a : AuthorizationCode) (expires auth : string) : list (string * json) :=
  [("code", JStr (ac_Code a)); ("client_id", JStr (ac_ClientID a)); ("account_id", JStr (ac_AccountID a))]
  ++ omit_str "session_id" (ac_SessionID a)
  ++ [("redirect_uri", JStr (ac_RedirectURI a)); ("scopes", JArr (map JStr (ac_Scopes a)))]
  ++ omit_str "code_challenge" (ac_CodeChallenge a)
  ++ omit_str "code_challenge_method" (ac_CodeChallengeMethod a)
  ++ omit_str "nonce" (ac_Nonce a)
  ++ [("expires_at", JStr expires); ("auth_time", JStr auth)]
  ++ omit_strs "auth_methods" (ac_AuthMethods a).

Definition marshal_authcode (a : AuthorizationCode) : res string :=
  match two_times (ac_ExpiresAt a) (ac_AuthTime a) with
  | Ok (e, t) => Ok (jobj (authcode_members a e t))
  | Err e => Err e
  end.

Definition authcode_fields (l : list (string * json)) : option AuthorizationCode :=
  code ← get_str "code" l; c ← get_str "client_id" l; acc ← get_str "account_id" l;
  s ← get_str "session_id" l; r ← get_str "redirect_uri" l; sc ← get_strs "scopes" l;
  ch ← get_str "code_challenge" l; m ← get_str "code_challenge_method" l; n ← get_str "nonce" l;
  e ← get_time "expires_at" l; t ← get_time "auth_time" l; am ← get_strs "auth_methods" l;
  Some (mkAuthCode code c acc s r sc ch m n e t am).

Definition unmarshal_authcode (s : string) : option AuthorizationCode :=
  match jparse s with
  | Some (JObj l) => authcode_fields l
  | Some JNull => authcode_fields []
  | _ => None
  end.

(** ** [client.go] *)
Record OAuth2Client : Type := mkClient {
  oc_ID : string;
  oc_AccountID : string;
  oc_ClientID : string;
  oc_ClientSecretHash : string;
  oc_Name : string;
  oc_Description : string;
  oc_RedirectURIs : list string;
  oc_PostLogoutRedirectURIs : list string;
  oc_GrantTypes : list string;
  oc_Scopes : list string;
  oc_IsConfidential : bool;
  oc_Metadata : option (list (string * json));
  oc_FrontchannelLogoutURI : string;
  oc_FrontchannelLogoutSessionRequired : bool;
  oc_BackchannelLogoutURI : string;
  oc_BackchannelLogoutSessionRequired : bool;
  oc_CreatedAt : Z;
  oc_UpdatedAt : Z;
  oc_DeletedAt : option Z;
}.

Definition IsLoopback (host : string) : bool :=
  bool_decide (host = "localhost") || bool_decide (host = "127.0.0.1") || bool_decide (host = "::1").

Definition isValidRedirectScheme (uri : string) : bool :=
  match url_parse uri with
  | None => false
  | Some u =>
      if negb (bool_decide (url_Scheme u = "http")) && negb (bool_decide (url_Scheme u = "https")) then false
      else if negb (bool_decide (url_Fragment u = "")) then false
      else if bool_decide (url_Scheme u = "http") && negb (IsLoopback (url_Hostname u)) then false
      else true
  end.

(** The loop looks at every registered URI, whatever it has found before. *)
Definition find_uri (uri : string) (registered : list string) : bool :=
  foldl (λ found r, if bool_decide (uri = r) then true else found) false registered.

Definition ValidateRedirectURI (c : option OAuth2Client) (uri : string) : bool :=
  match c with
  | None => false
  | Some c => if negb (isValidRedirectScheme uri) then false else find_uri uri (oc_RedirectURIs c)
  end.
Definition ValidatePostLogoutRedirectURI (c : option OAuth2Client) (uri : string) : bool :=
  match c with
  | None => false
  | Some c => if negb (isValidRedirectScheme uri) then false else find_uri uri (oc_PostLogoutRedirectURIs c)
  end.

Definition HasGrantType (c : option OAuth2Client) (gt : string) : bool :=
  match c with None => false | Some c => bool_decide (gt ∈ oc_GrantTypes c) end.

Definition ScopeAdmin : string := "admin".
Definition IsAdminScope (scope : string) : bool :=
  bool_decide (scope = ScopeAdmin) || has_prefix "admin:" scope.

Definition HasAdminCapability (c : option OAuth2Client) : bool :=
  match c with
  | Some c => match oc_Metadata c with
              | Some m => match jget "capability" m with
                          | Some (JStr s) => bool_decide (s = "admin")
                          | _ => false end
              | None => false end
  | None => false
  end.

Definition ValidateScope (c : option OAuth2Client) (requestedScopes : list string) : list string :=
  match c with
  | None => []
  | Some cl =>
      List.filter (λ s, negb (IsAdminScope s && negb (HasAdminCapability c)) && bool_decide (s ∈ oc_Scopes cl))
        requestedScopes
  end.

Definition GrantTypeAuthorizationCode : string := "authorization_code".
Definition GrantTypeRefreshToken : string := "refresh_token".
Definition GrantTypeClientCredentials : string := "client_credentials".
Definition GrantTypeDeviceCode : string := "urn:ietf:params:oauth:grant-type:device_code".
Definition IsValidGrantType (gt : string) : bool :=
  bool_decide (gt ∈ [GrantTypeAuthorizationCode; GrantTypeRefreshToken; GrantTypeClientCredentials; GrantTypeDeviceCode]).

Definition ErrClientNotFound := Sentinel "oauth2 client not found".
Definition ErrClientIDRequired := Sentinel "oauth2 client: client_id is required".
Definition ErrClientNameRequired := Sentinel "oauth2 client: name is required".
Definition ErrClientGrantTypesRequired := Sentinel "oauth2 client: grant_types must not be empty".
Definition ErrClientAccountIDRequired := Sentinel "oauth2 client: account_id is required".
Definition ErrClientConcurrentModification := Sentinel "oauth2 client was modified concurrently".
Definition ErrClientInvalidGrantType := Sentinel "oauth2 client: invalid grant type".

Fixpoint check_grant_types (l : list string) : res unit :=
  match l with
  | [] => Ok tt
  | gt :: l' => if IsValidGrantType gt then check_grant_types l'
                else Err (Wrap gt ErrClientInvalidGrantType)
  end.

(** [NewOAuth2Client] at time [now] with the identifier [id] from the UUID generator. *)
Definition NewOAuth2Client (now : Z) (id accountID name clientID : string) (grantTypes : list string) :
    res OAuth2Client :=
  if bool_decide (accountID = "") then Err ErrClientAccountIDRequired
  else if bool_decide (clientID = "") then Err ErrClientIDRequired
  else if bool_decide (name = "") then Err ErrClientNameRequired
  else if bool_decide (grantTypes = []) then Err ErrClientGrantTypesRequired
  else match check_grant_types grantTypes with
       | Err e => Err e
       | Ok _ => Ok (mkClient id accountID clientID "" name "" [] [] grantTypes [] false (Some []) "" false "" false
                       now now None)
       end.

(** ** [device_code.go] *)
Record DeviceCode : Type := mkDevice {
  dc_DeviceCode : string;
  dc_UserCode : string;
  dc_ClientID : string;
  dc_AccountID : string;
  dc_Scopes : list string;
  dc_Status : string;
  dc_ExpiresAt : Z;
  dc_AuthorizedAt : Z;
  dc_LastPollAt : Z;
  dc_Interval : Z;
  dc_CreatedAt : Z;
  dc_Hash : string;
}.
#[export] Instance device_eq_dec : EqDecision DeviceCode.
Proof. solve_decision. Defined.

Definition ErrDeviceCodeNotFound := Sentinel "device code not found".
Definition ErrDeviceCodeRequired := Sentinel "device code: device_code is required".
Definition ErrUserCodeRequired := Sentinel "device code: user_code is required".
Definition ErrDeviceClientRequired := Sentinel "device code: client_id is required".
Definition ErrDeviceExpiresRequired := Sentinel "device code: expires_at is required".
Definition ErrDeviceCodeAlreadyAuthorized := Sentinel "device code: already authorized".
Definition ErrDeviceCodeAlreadyDenied := Sentinel "device code: already denied".
Definition ErrDeviceCodeAlreadyUsed := Sentinel "device code: already used".
Definition ErrDeviceCodeNotAuthorized := Sentinel "device code: not authorized".
Definition ErrDeviceAccountIDRequired := Sentinel "device code: account_id is required".
Definition ErrDeviceCodeExpired := Sentinel "device code expired".
Definition ErrSlowDown := Sentinel "slow down".

Definition StatusPending : string := "pending".
Definition StatusAuthorized : string := "authorized".
Definition StatusDenied : string := "denied".
Definition StatusUsed : string := "used".
Definition IsValidDeviceCodeStatus (s : string) : bool :=
  bool_decide (s ∈ [StatusPending; StatusAuthorized; StatusDenied; StatusUsed]).

Definition NewDeviceCode (now : Z) (deviceCode userCode clientID : string) (scopes : list string)
    (expiresAt interval : Z) : res DeviceCode :=
  if bool_decide (deviceCode = "") then Err ErrDeviceCodeRequired
  else if bool_decide (userCode = "") then Err ErrUserCodeRequired
  else if bool_decide (clientID = "") then Err ErrDeviceClientRequired
  else if IsZero expiresAt then Err ErrDeviceExpiresRequired
  else Ok (mkDevice deviceCode userCode clientID "" scopes StatusPending expiresAt zero_time zero_time interval now "").

Definition device_IsExpired (now : Z) (d : option DeviceCode) : bool :=
  match d with None => true | Some d => dc_ExpiresAt d <? now end.
Definition device_IsPending (d : option DeviceCode) : bool :=
  match d with None => false | Some d => bool_decide (dc_Status d = StatusPending) end.

Definition with_status (st : string) (d : DeviceCode) : DeviceCode :=
  mkDevice (dc_DeviceCode d) (dc_UserCode d) (dc_ClientID d) (dc_AccountID d) (dc_Scopes d) st (dc_ExpiresAt d)
    (dc_AuthorizedAt d) (dc_LastPollAt d) (dc_Interval d) (dc_CreatedAt d) (dc_Hash d).
Definition authorized_by (accountID : string) (at_ : Z) (d : DeviceCode) : DeviceCode :=
  mkDevice (dc_DeviceCode d) (dc_UserCode d) (dc_ClientID d) accountID (dc_Scopes d) StatusAuthorized (dc_ExpiresAt d)
    at_ (dc_LastPollAt d) (dc_Interval d) (dc_CreatedAt d) (dc_Hash d).

(** The error for a code that has left the pending state. *)
Definition already (st : string) : option err :=
  if bool_decide (st = StatusAuthorized) then Some ErrDeviceCodeAlreadyAuthorized
  else if bool_decide (st = StatusDenied) then Some ErrDeviceCodeAlreadyDenied
  else if bool_decide (st = StatusUsed) then Some ErrDeviceCodeAlreadyUsed
  else None.

Definition Authorize (now : Z) (d : option DeviceCode) (accountID : string) : res DeviceCode :=
  match d with
  | None => Err ErrDeviceCodeNotFound
  | Some d =>
      if bool_decide (accountID = "") then Err ErrDeviceAccountIDRequired
      else match already (dc_Status d) with
           | Some e => Err e
           | None => Ok (authorized_by accountID now d)
           end
  end.
Definition Deny (d : option DeviceCode) : res DeviceCode :=
  match d with
  | None => Err ErrDeviceCodeNotFound
  | Some d => match already (dc_Status d) with
              | Some e => Err e
              | None => Ok (with_status StatusDenied d)
              end
  end.
Definition MarkUsed (d : option DeviceCode) : res DeviceCode :=
  match d with
  | None => Err ErrDeviceCodeNotFound
  | Some d =>
      if bool_decide (dc_Status d = StatusUsed) then Err ErrDeviceCodeAlreadyUsed
      else if negb (bool_decide (dc_Status d = StatusAuthorized)) then Err ErrDeviceCodeNotAuthorized
      else Ok (with_status StatusUsed d)
  end.

(** *** JSON *)
Definition device_members (d : DeviceCode) (e a p c : string) : list (string * json) :=
  [("device_code", JStr (dc_DeviceCode d)); ("user_code", JStr (dc_UserCode d));
   ("client_id", JStr (dc_ClientID d)); ("account_id", JStr (dc_AccountID d));
   ("scopes", JArr (map JStr (dc_Scopes d))); ("status", JStr (dc_Status d));
   ("expires_at", JStr e); ("authorized_at", JStr a); ("last_poll_at", JStr p);
   ("interval", JNum (dc_Interval d)); ("created_at", JStr c)].

Definition marshal_device (d : DeviceCode) : res string :=
  match two_times (dc_ExpiresAt d) (dc_AuthorizedAt d), two_times (dc_LastPollAt d) (dc_CreatedAt d) with
  | Ok (e, a), Ok (p, c) => Ok (jobj (device_members d e a p c))
  | Err e, _ | _, Err e => Err e
  end.

Definition device_fields (l : list (string * json)) : option DeviceCode :=
  dc ← get_str "device_code" l; uc ← get_str "user_code" l; c ← get_str "client_id" l;
  acc ← get_str "account_id" l; sc ← get_strs "scopes" l; st ← get_str "status" l;
  e ← get_time "expires_at" l; a ← get_time "authorized_at" l; p ← get_time "last_poll_at" l;
  i ← get_int "interval" l; cr ← get_time "created_at" l;
  Some (mkDevice dc uc c acc sc st e a p i cr "").

Definition unmarshal_device (s : string) : option DeviceCode :=
  match jparse s with
  | Some (JObj l) => device_fields l
  | Some JNull => device_fields []
  | _ => None
  end.

(** ** [consent.go] *)
Record Consent : Type := mkConsent {
  co_ID : string;
  co_AccountID : string;
  co_ClientID : string;
  co_Scopes : list string;
  co_GrantedAt : Z;
  co_CreatedAt : Z;
  co_UpdatedAt : Z;
  co_DeletedAt : option Z;
}.

Definition ErrConsentNotFound := Sentinel "consent not found".
Definition ErrConsentAccountIDRequired := Sentinel "consent: account_id is required".
Definition ErrConsentClientIDRequired := Sentinel "consent: client_id is required".
Definition ErrConsentEmptyScope := Sentinel "consent: scope must not be empty".
Definition ErrConsentTooManyScopes := Sentinel "consent: too many scopes".
Definition ErrConsentDuplicateScope := Sentinel "consent: duplicate scope".
Definition maxConsentScopes : Z := 64.

(** The loop over the scopes, with those seen so far. *)
Fixpoint check_consent_scopes (seen : gset string) (l : list string) : res unit :=
  match l with
  | [] => Ok tt
  | s :: l' =>
      if bool_decide (s = "") then Err ErrConsentEmptyScope
      else if bool_decide (s ∈ seen) then Err ErrConsentDuplicateScope
      else check_consent_scopes ({[s]} ∪ seen) l'
  end.

Definition NewConsent (now : Z) (id accountID clientID : string) (scopes : list string) : res Consent :=
  if bool_decide (accountID = "") then Err ErrConsentAccountIDRequired
  else if bool_decide (clientID = "") then Err ErrConsentClientIDRequired
  else if maxConsentScopes <? Z.of_nat (length scopes) then Err ErrConsentTooManyScopes
  else match check_consent_scopes ∅ scopes with
       | Err e => Err e
       | Ok _ => Ok (mkConsent id accountID clientID scopes now now now None)
       end.
