(* ===== verification/AuthCode.v ===== *)
(** * [internal/oauth2/service/auth_code_service.go]: authorization codes

    A code is stored under the hash of its secret and read with a script that deletes
    it, so that it can be exchanged once. *)
From S2P Require Import Prelude GoTime Json Hash Url Redis World Cache TokenDomain TokenService TokenSpecs TokenProps OAuthDomain.
Local Open Scope Z_scope.

Definition authCodeKeyPrefix : string := "auth_code:".
Definition authCodeLength : nat := 32.
Definition authCodeKey (code : string) : string := authCodeKeyPrefix +:+ HashToken code.
#[global] Arguments authCodeKey : simpl never.

(** The check of [NewAuthCodeService] on the lifetime. *)
Definition NewAuthCodeService (expiry : Z) : res Z :=
  if expiry <=? 0 then Err (Anon "auth code service: expiry must be positive") else Ok expiry.

(** The code as its caller gets it; [storedCode] is the same without the secret. *)
Definition with_request (ac : AuthorizationCode) (codeChallenge codeChallengeMethod nonce sessionID : string) :
    AuthorizationCode :=
  mkAuthCode (ac_Code ac) (ac_ClientID ac) (ac_AccountID ac) sessionID (ac_RedirectURI ac) (ac_Scopes ac)
    codeChallenge codeChallengeMethod nonce (ac_ExpiresAt ac) (ac_AuthTime ac) (ac_AuthMethods ac).
Definition storedCode (ac : AuthorizationCode) : AuthorizationCode :=
  mkAuthCode "" (ac_ClientID ac) (ac_AccountID ac) (ac_SessionID ac) (ac_RedirectURI ac) (ac_Scopes ac)
    (ac_CodeChallenge ac) (ac_CodeChallengeMethod ac) (ac_Nonce ac) (ac_ExpiresAt ac) (ac_AuthTime ac)
    (ac_AuthMethods ac).

Section service.
Context {R : Type} `{RedisServer R} (expiry : Z).

Definition GenerateCode (clientID accountID redirectURI : string) (scopes : list string)
    (codeChallenge codeChallengeMethod nonce sessionID : string) : M (World R) AuthorizationCode :=
  let! bytes := wrap "generate random code" (rand_read authCodeLength) in
  let codeString := hex_encode bytes in
  let! t := now in
  let! ac := lift_res (wrap_res "create authorization code"
    (NewAuthorizationCode codeString clientID accountID redirectURI scopes (t + expiry) t)) in
  let ac := with_request ac codeChallenge codeChallengeMethod nonce sessionID in
  let! data := lift_res (wrap_res "marshal authorization code" (marshal_authcode (storedCode ac))) in
  wrap "store authorization code" (Set_ (authCodeKey codeString) data expiry) ;;
  ret ac.

Definition getAndDeleteScript (key : string) (now : Z) : M R (option string) :=
  let! data := s_get now key in
  match data with
  | Some d => s_del now key ;; ret (Some d)
  | None => ret None
  end.

(** On an error of the script or the network go-redis returns no result, and the test
    for a missing result comes first. *)
Definition ValidateCode (code clientID redirectURI : string) (codeVerifier : option string) :
    M (World R) AuthorizationCode :=
  let! r := try (redis_call (getAndDeleteScript (authCodeKey code))) in
  match r with
  | Err _ | Ok None => fail ErrCodeNotFound
  | Ok (Some dataStr) =>
      match unmarshal_authcode dataStr with
      | None => fail (Wrap "unmarshal authorization code" (Anon "json"))
      | Some ac =>
          let! t := now in
          guard_err (authcode_IsExpired t (Some ac)) ErrCodeExpired ;;
          guard_err (negb (bool_decide (ac_ClientID ac = clientID))) ErrCodeClientMismatch ;;
          guard_err (negb (bool_decide (ac_RedirectURI ac = redirectURI))) ErrCodeURIMismatch ;;
          guard_err (negb (bool_decide (ac_CodeChallenge ac = ""))
                     && match codeVerifier with
                        | None => true
                        | Some v => negb (VerifyPKCE (Some ac) v)
                        end) ErrPKCEVerificationFailed ;;
          ret ac
      end
  end.
End service.

(** ** Documents *)
Definition authcode_wf (a : AuthorizationCode) : bool :=
  forallb utf8_valid [ac_Code a; ac_ClientID a; ac_AccountID a; ac_SessionID a; ac_RedirectURI a;
                      ac_CodeChallenge a; ac_CodeChallengeMethod a; ac_Nonce a]
  && forallb utf8_valid (ac_Scopes a) && forallb utf8_valid (ac_AuthMethods a).

Lemma strs_wf l : forallb utf8_valid l = true → forallb jwf (map JStr l) = true.
Proof. induction l as [|s l IH]; [done|]. cbn -[utf8_valid]. rewrite !andb_true_iff. naive_solver. Qed.
Lemma omit_strs_wf k v : utf8_valid k = true → forallb utf8_valid v = true → members_wf (omit_strs k v) = true.
Proof.
  intros Hk Hv. apply strs_wf in Hv. destruct v; [done|]. unfold omit_strs, members_wf.
  cbn [forallb fst snd]. rewrite Hk. cbn [jwf]. by rewrite Hv.
Qed.

Lemma authcode_members_wf a e t : authcode_wf a = true → utf8_valid e = true → utf8_valid t = true →
  members_wf (authcode_members a e t) = true.
Proof.
  unfold authcode_wf, authcode_members, members_wf. cbn [forallb]. rewrite !andb_true_iff.
  intros (((?&?&?&?&?&?&?&?&_)&Hs%strs_wf)&Ham) He Ht.
  rewrite !forallb_app, !(omit_str_wf _ _ : _ → _ → forallb _ _ = true),
    (omit_strs_wf _ _ : _ → _ → forallb _ _ = true) by done.
  cbn [forallb fst snd]. cbn [jwf]. by rewrite !andb_true_iff.
Qed.

(** A code read back is the code written. *)
Lemma unmarshal_marshal_authcode a d :
  authcode_wf a = true → marshal_authcode a = Ok d → unmarshal_authcode d = Some a.
Proof.
  intros Hwf. unfold marshal_authcode. destruct (two_times _ _) as [[e t]|] eqn:Ht; [|done].
  intros [= <-]. apply two_times_ok in Ht as [He Hta].
  unfold unmarshal_authcode. rewrite jparse_jobj by (apply authcode_members_wf; eauto using marshal_time_utf8).
  apply marshal_time_ok in He, Hta. clear Hwf.
  destruct a as [c cl ac s r sc ch m n ex au am]; cbn in *. unfold authcode_fields, authcode_members; cbn -[app omit_str omit_strs].
  rewrite (get_str_member "code" _ c), (get_str_member "client_id" _ cl), (get_str_member "account_id" _ ac),
    (get_str_omit "session_id" _ s), (get_str_member "redirect_uri" _ r), (get_strs_member "scopes" _ sc),
    (get_str_omit "code_challenge" _ ch), (get_str_omit "code_challenge_method" _ m), (get_str_omit "nonce" _ n),
    (get_time_member "expires_at" _ e ex He), (get_time_member "auth_time" _ t au Hta),
    (get_strs_omit "auth_methods" _ am) by read_member.
  reflexivity.
Qed.

Section properties.
Context {R : Type} `{RedisServer R} (expiry : Z).
Implicit Types (st : R) (w : World R).

(** The script returns the document and leaves nothing under the key. *)
Lemma get_and_delete_spec key now st (Q : res (option string) → R → Prop) :
  (∀ st', str_of (r_view st now key) = Ok None → same now st st' → Q (Ok None) st') →
  (∀ st' d, str_of (r_view st now key) = Ok (Some d) → updates now st st' key None → Q (Ok (Some d)) st') →
  (∀ st' e, str_of (r_view st now key) = Err e → same now st st' → Q (Err e) st') →
  wp (getAndDeleteScript key now) Q st.
Proof.
  intros Hn Hs He. unfold getAndDeleteScript. s_step. s_step.
  destruct (str_of (r_view st now key)) as [[d|]|e] eqn:Hk; cbn; [|s_step; by apply Hn|by apply He].
  s_step. s_step. s_step. apply Hs; [done|]. intros k. rewrite (H1 k). destruct (decide _); [done|apply H0].
Qed.

(** The checks of [ValidateCode] after the code was read. *)
Definition code_accepted (t : Z) (clientID redirectURI : string) (verifier : option string)
    (ac : AuthorizationCode) : Prop :=
  t <= ac_ExpiresAt ac ∧ ac_ClientID ac = clientID ∧ ac_RedirectURI ac = redirectURI ∧
  (ac_CodeChallenge ac = "" ∨ ∃ v, verifier = Some v ∧ VerifyPKCE (Some ac) v = true).

(** What one attempt to exchange a code may do, under any network behaviour. *)
Definition exchange w code clientID redirectURI verifier (r : res AuthorizationCode) w' : Prop :=
  w_now w' = w_now w ∧
  ((r = Err ErrCodeNotFound) ∨
   ∃ d, str_of (view w (authCodeKey code)) = Ok (Some d) ∧
     (∀ k, view w' k = if decide (k = authCodeKey code) then None else view w k) ∧
     ∀ ac, r = Ok ac → unmarshal_authcode d = Some ac ∧
                       code_accepted (w_now w) clientID redirectURI verifier ac).

Lemma validate_code_exchange w code clientID redirectURI verifier :
  wp (ValidateCode code clientID redirectURI verifier) (exchange w code clientID redirectURI verifier) w.
Proof.
  unfold ValidateCode. wp_step. wp_step. apply wp_redis_call.
  2: { intros net. wp_step. split; [done|by left]. }
  intros net. apply get_and_delete_spec; intros st'; [intros _ _|intros d Hd Hupd|intros e _ _].
  1,3: split; wp_step; (split; [done|by left]).
  split; [|wp_step; split; [done|by left]].
  set (w1 := put_net net (put_redis st' w)).
  assert (∀ k, view w1 k = if decide (k = authCodeKey code) then None else view w k) as Hv by exact Hupd.
  assert (∀ e, exchange w code clientID redirectURI verifier (Err e) w1) as Herr.
  { intros e. split; [done|right]. exists d. split_and!; [done..|]. intros ac [=]. }
  destruct (unmarshal_authcode d) as [ac|] eqn:Hu; [|wp_step; apply Herr].
  wp_step. apply wp_gets. cbn beta iota.
  wp_step. apply wp_guard_err; [intros _; apply Herr|intros Hexp].
  wp_step. apply wp_guard_err; [intros _; apply Herr|intros Hcl].
  wp_step. apply wp_guard_err; [intros _; apply Herr|intros Huri].
  wp_step. apply wp_guard_err; [intros _; apply Herr|intros Hpk].
  wp_step. split; [done|right]. exists d. split_and!; [done..|]. intros ac' [= <-].
  split; [done|]. apply negb_false_iff, bool_decide_eq_true in Hcl, Huri.
  split_and!; [|done..|].
  { cbn in Hexp. apply Z.ltb_ge in Hexp. exact Hexp. }
  apply andb_false_iff in Hpk as [Hpk|Hpk].
  - left. by apply negb_false_iff, bool_decide_eq_true in Hpk.
  - right. destruct verifier as [v|]; [|done]. exists v. by apply negb_false_iff in Hpk.
Qed.

(** An authorization code is exchanged once. After any attempt that did not answer
    that the code is unknown (it succeeded, or it failed on the client, the redirect URI,
    the proof key or the expiry), the code is gone: every later attempt, by whoever and
    under any network behaviour, answers that it is unknown. *)
Theorem auth_code_single_use code c1 u1 v1 w r w' :
  ValidateCode code c1 u1 v1 w = (r, w') → r ≠ Err ErrCodeNotFound →
  view w' (authCodeKey code) = None ∧
  ∀ net δ c2 u2 v2, 0 <= δ →
    (ValidateCode code c2 u2 v2 (put_net net (tick δ w'))).1 = Err ErrCodeNotFound.
Proof.
  intros Heq Hr. destruct (wp_intro _ _ _ _ _ Heq (validate_code_exchange w code c1 u1 v1)) as [_ [?|(d&Hd&Hv&_)]];
    [done|].
  assert (view w' (authCodeKey code) = None) as Hgone by (rewrite Hv; by decide_keys).
  split; [done|]. intros net δ c2 u2 v2 Hδ.
  destruct (ValidateCode code c2 u2 v2 _) as [r2 w2] eqn:Heq2.
  destruct (wp_intro _ _ _ _ _ Heq2 (validate_code_exchange _ code c2 u2 v2)) as [_ [?|(d2&Hd2&_)]]; [done|].
  change (view (put_net net (tick δ w')) ?k) with (view (tick δ w') k) in Hd2.
  by rewrite view_tick, Hgone in Hd2.
Qed.

(** A proof key that passes is well formed and hashes to the challenge. *)
Lemma VerifyPKCE_sound ac v : ac_CodeChallenge ac ≠ "" → VerifyPKCE (Some ac) v = true →
  ac_CodeChallengeMethod ac = "S256" ∧ HashPKCEVerifier v = ac_CodeChallenge ac ∧
  43 <= Z.of_nat (String.length v) <= 128 ∧ sforall verifier_char v = true.
Proof.
  intros Hne. unfold VerifyPKCE. rewrite bool_decide_false by done.
  destruct (orb _ _) eqn:Hlen; [done|]. apply orb_false_iff in Hlen as [?%Z.ltb_ge ?%Z.ltb_ge].
  destruct (sforall verifier_char v); [|done]. cbn [negb].
  case_bool_decide; [|done]. intros ?%bool_decide_eq_true. split_and!; done || lia.
Qed.

(** A code is exchanged only as it was granted. On success the answer is the stored
    document, granted to this client for this redirect URI and not expired; and if a
    proof key challenge was registered, a verifier of 43 to 128 characters of the allowed
    alphabet was presented whose SHA-256 hash is the challenge. *)
Theorem auth_code_validation_sound code clientID redirectURI verifier w ac w' :
  ValidateCode code clientID redirectURI verifier w = (Ok ac, w') →
  (∃ d, str_of (view w (authCodeKey code)) = Ok (Some d) ∧ unmarshal_authcode d = Some ac) ∧
  ac_ClientID ac = clientID ∧ ac_RedirectURI ac = redirectURI ∧ w_now w <= ac_ExpiresAt ac ∧
  (ac_CodeChallenge ac ≠ "" →
   ∃ v, verifier = Some v ∧ ac_CodeChallengeMethod ac = "S256" ∧ HashPKCEVerifier v = ac_CodeChallenge ac ∧
        43 <= Z.of_nat (String.length v) <= 128 ∧ sforall verifier_char v = true).
Proof.
  intros Heq. destruct (wp_intro _ _ _ _ _ Heq (validate_code_exchange w code clientID redirectURI verifier))
    as [_ [?|(d&Hd&_&Hok)]]; [done|].
  destruct (Hok ac eq_refl) as (Hu&Hexp&Hcl&Huri&Hpk). split_and!; [by exists d|done..|].
  intros Hne. destruct Hpk as [?|(v&->&Hv)]; [done|]. exists v. by apply VerifyPKCE_sound in Hv.
Qed.

(** The store after [GenerateCode] succeeded. *)
Lemma generate_code_stored cl acc uri scopes ch m n sid w ac w' :
  0 < expiry →
  GenerateCode expiry cl acc uri scopes ch m n sid w = (Ok ac, w') →
  ∃ b d, ac = mkAuthCode (hex_encode (rand_block authCodeLength b)) cl acc sid uri scopes ch m n
                (w_now w + expiry) (w_now w) [] ∧
    marshal_authcode (storedCode ac) = Ok d ∧ w_now w' = w_now w ∧ (w_net w = [] → w_net w' = []) ∧
    ∀ k, view w' k = if decide (k = authCodeKey (ac_Code ac))
                     then Some (Entry (RStr d) (Some (now_ms w + r_px expiry))) else view w k.
Proof.
  intros Hexp Hgen.
  enough (wp (GenerateCode expiry cl acc uri scopes ch m n sid) (λ r w', ∀ ac, r = Ok ac → _) w) as Hwp
    by exact (wp_intro _ _ _ _ _ Hgen Hwp ac eq_refl).
  clear ac w' Hgen. unfold GenerateCode. wp_step. wp_step. apply wp_rand_read; [done|]. intros b l _. cbn [wrap_res].
  wp_step. apply wp_gets. wp_step. wp_step. cbn [w_now].
  destruct (NewAuthorizationCode _ _ _ _ _ _ _) as [a|] eqn:Ha; cbn [wrap_res]; [|done].
  unfold NewAuthorizationCode in Ha. repeat case_bool_decide; try done. destruct (IsZero _); [done|].
  injection Ha as <-. unfold with_request. cbn [ac_Code ac_ClientID ac_AccountID ac_RedirectURI ac_Scopes ac_ExpiresAt ac_AuthTime ac_AuthMethods].
  set (ac := mkAuthCode _ _ _ _ _ _ _ _ _ _ _ _).
  wp_step. wp_step. destruct (marshal_authcode (storedCode ac)) as [d|] eqn:Hd; cbn [wrap_res]; [|done].
  wp_step. wp_step. apply wp_Set_any; [done|]. intros [[]|e] w' Hn' Hu' Hv'; cbn [wrap_res]; [|done].
  wp_step. intros ac' [= <-]. exists b, d. split_and!; [done..|]. by apply Hv'.
Qed.

Lemma px_deadline t δ : 0 < expiry → 0 <= δ →
  (δ + 2 * millisecond <= expiry → (t + δ) / millisecond < t / millisecond + r_px expiry) ∧
  (Z.max millisecond expiry <= δ → t / millisecond + r_px expiry <= (t + δ) / millisecond).
Proof. intros Hexp Hδ. rewrite r_px_exact by done. unfold millisecond. split; intros ?; div_lia. Qed.

(** A code that was issued can be exchanged while it is alive, by the client and for
    the redirect URI it was issued to and with a verifier that fits its challenge, and
    carries what was granted (without the secret, which is not stored); once its
    lifetime is over it is unknown. *)
Theorem auth_code_round_trip cl acc uri scopes ch m n sid verifier w ac w' δ :
  0 < expiry → w_net w = [] → 0 <= w_now w →
  forallb utf8_valid ([cl; acc; sid; uri; ch; m; n] ++ scopes) = true →
  GenerateCode expiry cl acc uri scopes ch m n sid w = (Ok ac, w') → 0 <= δ →
  (δ + 2 * millisecond <= expiry → (ch = "" ∨ ∃ v, verifier = Some v ∧ VerifyPKCE (Some ac) v = true) →
   ∃ w'', ValidateCode (ac_Code ac) cl uri verifier (tick δ w') =
     (Ok (mkAuthCode "" cl acc sid uri scopes ch m n (w_now w + expiry) (w_now w) []), w'')) ∧
  (Z.max millisecond expiry <= δ →
   (ValidateCode (ac_Code ac) cl uri verifier (tick δ w')).1 = Err ErrCodeNotFound).
Proof.
  intros Hexp Hn Ht Hwf Hgen Hδ.
  destruct (generate_code_stored _ _ _ _ _ _ _ _ _ _ _ Hexp Hgen) as (b&d&Hac&Hd&Hnow&Hnet&Hv). specialize (Hnet Hn).
  pose proof (px_deadline (w_now w) δ Hexp Hδ) as [Hlive Hdead].
  assert (now_ms (tick δ w') = (w_now w + δ) / millisecond) as Hms by (unfold now_ms; cbn; by rewrite Hnow).
  assert (view (tick δ w') (authCodeKey (ac_Code ac)) =
          live (now_ms (tick δ w')) (Some (Entry (RStr d) (Some (now_ms w + r_px expiry))))) as Hview
    by (rewrite view_tick, Hv by done; by decide_keys).
  split.
  - intros Hlt Hpk. specialize (Hlive Hlt). rewrite live_before in Hview by (rewrite Hms; exact Hlive).
    apply unmarshal_marshal_authcode in Hd.
    2: { rewrite Hac. unfold authcode_wf. cbn -[forallb utf8_valid]. cbn [forallb] in *.
         rewrite !forallb_app, !andb_true_iff in Hwf. rewrite !andb_true_iff. cbn -[utf8_valid] in Hwf.
         rewrite !andb_true_iff in Hwf. split_and!; tauto || done. }
    rewrite Hac in Hd. unfold storedCode in Hd. cbn [ac_Code ac_ClientID ac_AccountID ac_SessionID ac_RedirectURI
      ac_Scopes ac_CodeChallenge ac_CodeChallengeMethod ac_Nonce ac_ExpiresAt ac_AuthTime ac_AuthMethods] in Hd.
    set (ac' := mkAuthCode "" _ _ _ _ _ _ _ _ _ _ _) in *.
    enough (wp (ValidateCode (ac_Code ac) cl uri verifier) (λ r w'', r = Ok ac') (tick δ w')) as Hwp.
    { destruct (ValidateCode (ac_Code ac) cl uri verifier (tick δ w')) as [r w''] eqn:Hval.
      rewrite (wp_intro _ _ _ _ _ Hval Hwp). eauto. }
    unfold ValidateCode. wp_step. wp_step. apply wp_redis_call_up; [done|].
    fold (now_ms (tick δ w')). change (w_redis w') with (w_redis (tick δ w')).
    apply get_and_delete_spec; intros st'; fold (view (tick δ w') (authCodeKey (ac_Code ac))); rewrite Hview;
      cbn [str_of re_val]; [done| |done].
    intros d' [= <-] _. rewrite Hd. wp_step. apply wp_gets. cbn beta iota.
    assert (authcode_IsExpired (w_now (tick δ w')) (Some ac') = false) as Hne.
    { cbn. rewrite Hnow. apply Z.ltb_ge. unfold millisecond in *. lia. }
    cbn [tick put_redis w_now] in Hne |- *. rewrite Hne. wp_step. apply wp_guard_err; [done|intros _].
    wp_step. apply wp_guard_err; [by cbn; rewrite bool_decide_true|intros _].
    wp_step. apply wp_guard_err; [by cbn; rewrite bool_decide_true|intros _].
    wp_step. apply wp_guard_err; [|intros _; wp_step; done]. intros Hbad. exfalso.
    apply andb_true_iff in Hbad as [Hc Hb]. destruct Hpk as [->|(v&->&Hver)]; [done|].
    rewrite Hac in Hver. change (VerifyPKCE (Some ac') v = true) in Hver. by rewrite Hver in Hb.
  - intros Hle. specialize (Hdead Hle). rewrite live_after in Hview by (rewrite Hms; exact Hdead).
    destruct (ValidateCode (ac_Code ac) cl uri verifier (tick δ w')) as [r w''] eqn:Hval.
    destruct (wp_intro _ _ _ _ _ Hval (validate_code_exchange _ _ _ _ _)) as [_ [?|(d'&Hd'&_)]]; [done|].
    by rewrite Hview in Hd'.
Qed.
End properties.
