(* ===== verification/DeviceCode.v ===== *)
(** * [internal/oauth2/service/device_code_service.go]: device authorization codes

    A device code is stored as a JSON document under the hash of its secret, and a second
    key maps the code the user types to that hash. Scripts move the document through its
    states: pending, then authorized or denied, then used. *)
From S2P Require Import Prelude GoTime Json Hash Url Redis World Cache TokenDomain OAuthDomain.
Local Open Scope Z_scope.

(** Whether the Lua interpreter that runs the scripts has [os.date]. The sandbox of a
    Redis server has not: of the library [os] it provides [os.clock] only. *)
Class LuaOS := { has_os_date : bool }.
(** [os.date] with the format of RFC 3339 in UTC, whole seconds. *)
Definition os_date (secs : Z) : string := format_time (secs * second).

Definition deviceCodeKeyPrefix : string := "device_code:".
Definition userCodeKeyPrefix : string := "user_code:".
Definition deviceCodeLength : nat := 32.
Definition userCodeCharset : string := "ABCDEFGHJKLMNPQRSTUVWXYZ23456789".

Definition deviceCodeKey (hash : string) : string := deviceCodeKeyPrefix +:+ hash.
Definition pollKey (hash : string) : string := deviceCodeKeyPrefix +:+ "poll:" +:+ hash.
Definition userCodeKey (formatted : string) : string := userCodeKeyPrefix +:+ formatted.
#[global] Arguments deviceCodeKey : simpl never.
#[global] Arguments pollKey : simpl never.
#[global] Arguments userCodeKey : simpl never.

(** [strings.ToUpper] on ASCII text, and [strings.ReplaceAll(s, "-", "")]. *)
Definition upper (c : ascii) : ascii := if is_lower c then ascii_of_N (code c - 32) else c.
Definition ToUpper (s : string) : string := smap upper s.
Fixpoint remove_dashes (s : string) : string :=
  match s with
  | EmptyString => EmptyString
  | String c s' => if bool_decide (c = "-"%char) then remove_dashes s' else String c (remove_dashes s')
  end.
(** [s[:4] + "-" + s[4:]] *)
Definition dashed (s : string) : string := String.substring 0 4 s +:+ "-" +:+ String.substring 4 (String.length s - 4) s.

Record DeviceCfg : Type := mkDeviceCfg { dv_expiry : Z; dv_interval : Z }.
Definition NewDeviceCodeService (cfg : DeviceCfg) : DeviceCfg :=
  mkDeviceCfg (if dv_expiry cfg <=? 0 then 10 * minute else dv_expiry cfg)
              (if dv_interval cfg <=? 0 then 5 * second else dv_interval cfg).

(** [safeUserCodePrefix]: what is logged of a user code. *)
Definition safeUserCodePrefix (userCode : string) : string :=
  if 4 <=? Z.of_nat (String.length userCode) then String.substring 0 4 userCode +:+ "****" else "****".

Section scripts.
Context {R : Type} `{RedisServer R} `{LuaOS}.

(** The documents under the keys of this file are objects; [cjson.decode] or the first
    access to a field raises a script error on anything else. *)
Definition cjson_decode (data : string) : M R (list (string * json)) :=
  match jparse data with
  | Some (JObj l) => ret (lua_table l)
  | _ => fail (Anon "ERR user_script")
  end.
Definition cjson_encode (dc : list (string * json)) : string := jprint (cjson_norm (JObj dc)) "".
(** [dc.field == v] for a string [v]. *)
Definition field_is (field v : string) (dc : list (string * json)) : bool :=
  match jget field dc with Some (JStr s) => bool_decide (s = v) | _ => false end.

(** Write a value with a lifetime that was read with [PTTL]. *)
Definition set_pttl (now : Z) (key value : string) (pttl : Z) : M R unit :=
  if 0 <? pttl then s_set now key value (Some pttl) else s_set now key value None.
(** Write the document back with the time it had left. *)
Definition keep_pttl (now : Z) (key updated : string) : M R unit :=
  let! pttl := s_pttl now key in
  set_pttl now key updated pttl.

Definition authorizeDeviceCodeScript (key accountID authorizedAt : string) (now : Z) : M R (option string) :=
  let! data := s_get now key in
  match data with
  | None => ret None
  | Some d =>
      let! dc := cjson_decode d in
      if negb (field_is "status" "pending" dc) then ret None else
      let dc := jset "status" (JStr "authorized") dc in
      let dc := jset "account_id" (JStr accountID) dc in
      let dc := jset "authorized_at" (JStr authorizedAt) dc in
      let updated := cjson_encode dc in
      keep_pttl now key updated ;;
      ret (Some updated)
  end.

Definition denyDeviceCodeScript (key : string) (now : Z) : M R (option string) :=
  let! data := s_get now key in
  match data with
  | None => ret None
  | Some d =>
      let! dc := cjson_decode d in
      if negb (field_is "status" "pending" dc) then ret None else
      let updated := cjson_encode (jset "status" (JStr "denied") dc) in
      keep_pttl now key updated ;;
      ret (Some updated)
  end.

Definition createDeviceCodeScript (dcKey ucKey data : string) (secs : Z) (dcHash : string) (now : Z) : M R unit :=
  s_set now dcKey data (Some (secs * 1000)) ;;
  s_set now ucKey dcHash (Some (secs * 1000)).

(** The client is compared after the status; the assertion on it comes first. *)
Definition claimAuthorizedScript (key clientID : string) (now : Z) : M R (option string) :=
  guard_err (bool_decide (clientID = "")) (Anon "ERR user_script: client_id is required") ;;
  let! data := s_get now key in
  match data with
  | None => ret None
  | Some d =>
      let! dc := cjson_decode d in
      if negb (field_is "status" "authorized" dc) then ret None
      else if negb (field_is "client_id" clientID dc) then ret None else
      let updated := cjson_encode (jset "status" (JStr "used") dc) in
      let! ttl := s_ttl now key in
      (if 0 <? ttl then s_set now key updated (Some (ttl * 1000))
       else s_set now key updated (Some (60 * 1000))) ;;
      ret (Some updated)
  end.

(** The answer is 1 for an allowed poll and 0 for one that comes too early. *)
Definition checkAndUpdatePollRateScript (key pollKey : string) (nowSecs interval : Z) (now : Z) :
    M R (option Z) :=
  let! data := s_get now key in
  match data with
  | None => ret None
  | Some d =>
      let! last := s_get now pollKey in
      let! lastEpoch := tonumber last in
      if (0 <? lastEpoch) && (nowSecs - lastEpoch <? interval) then ret (Some 0) else
      let! pttl := s_pttl now key in
      set_pttl now pollKey (dec nowSecs) pttl ;;
      let! dc := cjson_decode d in
      guard_err (negb has_os_date) (Anon "ERR user_script: attempt to call field 'date' (a nil value)") ;;
      let updated := cjson_encode (jset "last_poll_at" (JStr (os_date nowSecs)) dc) in
      set_pttl now key updated pttl ;;
      ret (Some 1)
  end.
End scripts.

Section service.
Context {R : Type} `{RedisServer R} `{LuaOS} (cfg : DeviceCfg).

Fixpoint generateUserCode (length : nat) : M (World R) string :=
  match length with
  | O => ret ""
  | S n =>
      let! i := rand_int (Z.of_nat (String.length userCodeCharset)) in
      let! rest := generateUserCode n in
      ret (String.substring (Z.to_nat i) 1 userCodeCharset +:+ rest)
  end.

Definition CreateDeviceCode (clientID : string) (scopes : list string) : M (World R) DeviceCode :=
  let! dcBytes := wrap "generate device code" (rand_read deviceCodeLength) in
  let deviceCodeStr := hex_encode dcBytes in
  let! userCode := wrap "generate user code" (generateUserCode 8) in
  guard_err (negb (bool_decide (String.length userCode = 8%nat))) (Anon "unexpected user code length") ;;
  let formattedUserCode := dashed userCode in
  let! t := now in
  let! dc := lift_res (wrap_res "create device code"
    (NewDeviceCode t deviceCodeStr formattedUserCode clientID scopes (t + dv_expiry cfg)
       (trunc_secs (dv_interval cfg)))) in
  let storedCode := mkDevice "" (dc_UserCode dc) (dc_ClientID dc) (dc_AccountID dc) (dc_Scopes dc) (dc_Status dc)
    (dc_ExpiresAt dc) (dc_AuthorizedAt dc) (dc_LastPollAt dc) (dc_Interval dc) (dc_CreatedAt dc) (dc_Hash dc) in
  let! data := lift_res (wrap_res "marshal device code" (marshal_device storedCode)) in
  let dcHash := HashToken deviceCodeStr in
  wrap "store device code" (redis_call (createDeviceCodeScript (deviceCodeKey dcHash)
    (userCodeKey (ToUpper formattedUserCode)) data (trunc_secs (dv_expiry cfg)) dcHash)) ;;
  ret dc.

(** A key that is not there is reported as an unknown code. *)
Definition fetch (ctx key : string) : M (World R) string :=
  let! r := try (Get key) in
  match r with
  | Ok v => ret v
  | Err e => if errors_is e ErrKeyNotFound then fail ErrDeviceCodeNotFound else fail (Wrap ctx e)
  end.

Definition GetDeviceCode (deviceCode : string) : M (World R) DeviceCode :=
  let! data := fetch "get device code" (deviceCodeKey (HashToken deviceCode)) in
  match unmarshal_device data with
  | None => fail (Wrap "unmarshal device code" (Anon "json"))
  | Some dc => ret dc
  end.

Definition GetDeviceCodeByUserCode (userCode : string) : M (World R) DeviceCode :=
  let normalized := ToUpper (remove_dashes userCode) in
  guard_err (negb (bool_decide (String.length normalized = 8%nat))) ErrDeviceCodeNotFound ;;
  let! dcHash := fetch "resolve user code" (userCodeKey (dashed normalized)) in
  let! data := fetch "get device code" (deviceCodeKey dcHash) in
  match unmarshal_device data with
  | None => fail (Wrap "unmarshal device code" (Anon "json"))
  | Some dc =>
      ret (mkDevice (dc_DeviceCode dc) (dc_UserCode dc) (dc_ClientID dc) (dc_AccountID dc) (dc_Scopes dc)
             (dc_Status dc) (dc_ExpiresAt dc) (dc_AuthorizedAt dc) (dc_LastPollAt dc) (dc_Interval dc)
             (dc_CreatedAt dc) dcHash)
  end.

(** On an error of the script or the network go-redis returns no result, and the test for
    a missing result comes first. *)
Definition run_or_not_found {A} (script : Z → M R (option A)) : M (World R) A :=
  let! r := try (redis_call script) in
  match r with
  | Ok (Some v) => ret v
  | Ok None | Err _ => fail ErrDeviceCodeNotFound
  end.

(** [time.Now().Format(time.RFC3339)]: whole seconds. *)
Definition authorizeByKey (key accountID : string) : M (World R) unit :=
  let! t := now in
  run_or_not_found (authorizeDeviceCodeScript key accountID (format_time (t / second * second))) ;;
  ret tt.
Definition AuthorizeDeviceCode (deviceCode accountID : string) : M (World R) unit :=
  authorizeByKey (deviceCodeKey (HashToken deviceCode)) accountID.
Definition AuthorizeDeviceCodeByHash (dcHash accountID : string) : M (World R) unit :=
  authorizeByKey (deviceCodeKey dcHash) accountID.

Definition denyByKey (key : string) : M (World R) unit :=
  run_or_not_found (denyDeviceCodeScript key) ;;
  ret tt.
Definition DenyDeviceCode (deviceCode : string) : M (World R) unit :=
  denyByKey (deviceCodeKey (HashToken deviceCode)).
Definition DenyDeviceCodeByHash (dcHash : string) : M (World R) unit := denyByKey (deviceCodeKey dcHash).

Definition CheckAndUpdatePollRate (deviceCode : string) : M (World R) unit :=
  let! t := now in
  let! allowed := run_or_not_found (checkAndUpdatePollRateScript (deviceCodeKey (HashToken deviceCode))
    (pollKey (HashToken deviceCode)) (Unix t) (trunc_secs (dv_interval cfg))) in
  guard_err (allowed =? 0) ErrSlowDown.

Definition ClaimAuthorizedDeviceCode (deviceCode clientID : string) : M (World R) DeviceCode :=
  guard_err (bool_decide (clientID = "")) (Anon "client_id is required for claiming device code") ;;
  let! data := run_or_not_found (claimAuthorizedScript (deviceCodeKey (HashToken deviceCode)) clientID) in
  match unmarshal_device data with
  | None => fail (Wrap "unmarshal device code" (Anon "json"))
  | Some dc => ret dc
  end.
End service.
