(* ===== verification/ServiceFootprints.v ===== *)
(** * The key families of the services, and the token revoker of the session service *)
From S2P Require Import Prelude GoTime Json LuaPattern Hash Url Redis World Cache Footprint TokenDomain Blacklist TokenService TokenSpecs Session SessionService SessionProps OAuthDomain AuthCode DeviceCode.
Local Open Scope Z_scope.

(** ** The key families of the services

    Every operation of the token, authorization code and device code services stays within
    its own family, whatever its arguments, the state and the network. *)
Definition refresh_family : list string := ["refresh_token:"; "session_tokens:"].
Definition token_family : list string :=
  ["refresh_token:"; "session_tokens:"; "refresh_token_replay:"; "blacklist:token:"; "account_revoked_after:"].
Definition code_family : list string := [authCodeKeyPrefix].
Definition device_family : list string := [deviceCodeKeyPrefix; userCodeKeyPrefix].

(** A key of the form [p ++ x] belongs to the family that lists [p]. *)
Ltac in_family := lazymatch goal with
  | |- under _ (buildRefreshTokenKey _) => refine (under_intro _ "refresh_token:" _ _); reflexivity
  | |- under _ (buildRefreshTokenReplayKey _) => refine (under_intro _ "refresh_token_replay:" _ _); reflexivity
  | |- under _ (buildSessionTokensKey _) => refine (under_intro _ "session_tokens:" _ _); reflexivity
  | |- under _ (sessionTokensKeyPrefix +:+ _) => refine (under_intro _ "session_tokens:" _ _); reflexivity
  | |- under _ (buildBlacklistKey _) => refine (under_intro _ "blacklist:token:" _ _); reflexivity
  | |- under _ (buildAccountRevokedAfterKey _) => refine (under_intro _ "account_revoked_after:" _ _); reflexivity
  | |- under _ (authCodeKey _) => refine (under_intro _ authCodeKeyPrefix _ _); reflexivity
  | |- under _ (pollKey _) => refine (under_intro _ deviceCodeKeyPrefix _ _); reflexivity
  | |- under _ (deviceCodeKey _) => refine (under_intro _ deviceCodeKeyPrefix _ _); reflexivity
  | |- under _ (userCodeKey _) => refine (under_intro _ userCodeKeyPrefix _ _); reflexivity
  | |- under _ (?p +:+ _) => refine (under_intro _ p _ _); reflexivity
  end.
#[export] Hint Extern 1 (under _ _) => in_family : footprint.

Section services.
Context {R : Type} `{RedisServer R}.

Section tokens.
Context `{JwtLib} (cfg : TokenCfg).

Lemma touches_GenerateAccessToken P c : touches P (GenerateAccessToken (R := R) cfg c).
Proof. unfold GenerateAccessToken, now, claims_id, signToken. touch. Qed.
Lemma touches_GenerateRefreshToken ctx a c sid sc :
  touches (under refresh_family) (GenerateRefreshToken (R := R) cfg ctx a c sid sc).
Proof.
  unfold GenerateRefreshToken, storeRefreshTokenScript, now.
  destruct (bool_decide (sid = "")); [rewrite (bool_decide_true ("" = "")) by done|]; touch; s_touch; in_family.
Qed.
Lemma touches_GetAccountRevokedAfter P a : touches P (GetAccountRevokedAfter (R := R) a).
Proof. unfold GetAccountRevokedAfter. touch. Qed.
#[local] Hint Resolve touches_GetAccountRevokedAfter : footprint.
Lemma touches_ValidateRefreshToken P t : touches P (ValidateRefreshToken (R := R) t).
Proof. unfold ValidateRefreshToken, now. touch. Qed.
#[local] Hint Resolve touches_ValidateRefreshToken : footprint.
Lemma touches_CheckRevocation P jti a : touches P (CheckTokenAndAccountRevocation (R := R) jti a).
Proof. unfold CheckTokenAndAccountRevocation, revocationPipeline. touch; s_touch. Qed.
#[local] Hint Resolve touches_CheckRevocation : footprint.
Lemma touches_ValidateAccessToken P t : touches P (ValidateAccessTokenWithContext (R := R) cfg t).
Proof. unfold ValidateAccessTokenWithContext, now. touch. Qed.
#[local] Hint Resolve touches_ValidateAccessToken : footprint.
Lemma touches_IntrospectToken P t : touches P (IntrospectToken (R := R) cfg t).
Proof. unfold IntrospectToken. touch. Qed.
Lemma touches_RotateRefreshToken ctx t : touches (under token_family) (RotateRefreshToken (R := R) cfg ctx t).
Proof.
  unfold RotateRefreshToken, replay_or_not_found, getRefreshTokenReplay, rotateTokenScript, now. touch.
  s_touch; in_family.
Qed.
Lemma touches_RevokeRefreshToken ctx t : touches (under refresh_family) (RevokeRefreshToken (R := R) ctx t).
Proof. unfold RevokeRefreshToken, rotateAndDeleteScript. touch. s_touch; in_family. Qed.
Lemma touches_RevokeAllForSession ctx sid : touches (under refresh_family) (RevokeAllForSession (R := R) ctx sid).
Proof. unfold RevokeAllForSession, revokeAllSessionScript. touch. s_touch; in_family. Qed.
Lemma touches_RevokeAccessToken P jti e : P (buildBlacklistKey jti) → touches P (RevokeAccessToken (R := R) jti e).
Proof. intros HP. unfold RevokeAccessToken, RevokeToken, now. touch. Qed.
Lemma touches_RevokeAccountTokens ctx a : touches (under token_family) (RevokeAccountTokens (R := R) cfg ctx a).
Proof. unfold RevokeAccountTokens, SetAccountRevokedAfter, setAccountRevokedAfterScript, now. touch. s_touch; in_family. Qed.
End tokens.

Lemma touches_GenerateCode e cl acc uri sc ch m n sid :
  touches (under code_family) (GenerateCode (R := R) e cl acc uri sc ch m n sid).
Proof. unfold GenerateCode, now. touch. Qed.
Lemma touches_ValidateCode code cl uri v : touches (under code_family) (ValidateCode (R := R) code cl uri v).
Proof. unfold ValidateCode, getAndDeleteScript, now. touch. s_touch; in_family. Qed.

Section devices.
Context `{LuaOS} (cfg : DeviceCfg).
Lemma touches_generateUserCode P n : touches P (generateUserCode (R := R) n).
Proof. induction n as [|n IH]; cbn [generateUserCode]; [apply touches_ret|]. touch. Qed.
#[local] Hint Resolve touches_generateUserCode : footprint.
Lemma touches_CreateDeviceCode c sc : touches (under device_family) (CreateDeviceCode (R := R) cfg c sc).
Proof. unfold CreateDeviceCode, createDeviceCodeScript, now. touch. s_touch; in_family. Qed.
Lemma touches_fetch P ctx k : touches P (fetch (R := R) ctx k).
Proof. unfold fetch. touch. Qed.
#[local] Hint Resolve touches_fetch : footprint.
Lemma touches_GetDeviceCode P c : touches P (GetDeviceCode (R := R) c).
Proof. unfold GetDeviceCode. touch. Qed.
Lemma touches_GetDeviceCodeByUserCode P c : touches P (GetDeviceCodeByUserCode (R := R) c).
Proof. unfold GetDeviceCodeByUserCode. touch. Qed.
Lemma touches_authorizeByKey h acc : touches (under device_family) (authorizeByKey (R := R) (deviceCodeKey h) acc).
Proof.
  unfold authorizeByKey, run_or_not_found, authorizeDeviceCodeScript, cjson_decode, keep_pttl, set_pttl, now. touch.
  s_touch; in_family.
Qed.
Lemma touches_denyByKey h : touches (under device_family) (denyByKey (R := R) (deviceCodeKey h)).
Proof.
  unfold denyByKey, run_or_not_found, denyDeviceCodeScript, cjson_decode, keep_pttl, set_pttl. touch. s_touch; in_family.
Qed.
Lemma touches_CheckAndUpdatePollRate c : touches (under device_family) (CheckAndUpdatePollRate (R := R) cfg c).
Proof.
  unfold CheckAndUpdatePollRate, run_or_not_found, checkAndUpdatePollRateScript, cjson_decode, set_pttl, guard_err, now. touch.
  s_touch; in_family.
Qed.
Lemma touches_ClaimAuthorizedDeviceCode c cl : touches (under device_family) (ClaimAuthorizedDeviceCode (R := R) c cl).
Proof.
  unfold ClaimAuthorizedDeviceCode, run_or_not_found, claimAuthorizedScript, cjson_decode, guard_err. touch. s_touch; in_family.
Qed.
End devices.
End services.
#[export] Hint Resolve touches_GenerateAccessToken touches_GenerateRefreshToken touches_GetAccountRevokedAfter
  touches_ValidateRefreshToken touches_CheckRevocation touches_ValidateAccessToken touches_IntrospectToken
  touches_RotateRefreshToken touches_RevokeRefreshToken touches_RevokeAllForSession touches_RevokeAccessToken
  touches_RevokeAccountTokens touches_GenerateCode touches_ValidateCode touches_CreateDeviceCode touches_GetDeviceCode
  touches_GetDeviceCodeByUserCode touches_authorizeByKey touches_denyByKey touches_CheckAndUpdatePollRate
  touches_ClaimAuthorizedDeviceCode : footprint.

(** ** The token service discharges what the session service asks of its token revoker *)
Section revoker.
Context {R : Type} `{RedisServer R} (ctx : Ctx).
Implicit Types w : World R.

Lemma del_loop_any now prefix l st (Q : res unit → R → Prop) :
  (∀ st', (∀ k, r_view st' now k = if decide (k ∈ String.append prefix <$> l) then None else r_view st now k) →
     Q (Ok tt) st') →
  wp (for_each l (λ h, s_del now (prefix +:+ h))) Q st.
Proof. intros HQ. eapply wp_mono; [apply del_loop|]. cbn beta. intros r st' [-> Hv]. by apply HQ. Qed.

(** Whatever is stored, the revocation deletes keys of tokens only. *)
Lemma revoke_script_frame sid now st (Q : res Z → R → Prop) :
  (∀ r st', (∀ k, session_store_key k → r_view st' now k = r_view st now k) →
     (is_ok r = true → r_view st' now (buildSessionTokensKey sid) = None) → Q r st') →
  wp (revokeAllSessionScript (buildSessionTokensKey sid) "refresh_token:" now) Q st.
Proof.
  intros HQ. unfold revokeAllSessionScript. s_step.
  destruct (set_of (r_view st now (buildSessionTokensKey sid))) as [S|] eqn:HS.
  - eapply wp_s_smembers; [exact HS|]. intros st1 l Hs1 _. s_step.
    apply del_loop_any. intros st2 Hv2. s_step. s_step. rename H0 into Hu. s_step. apply HQ.
    + intros k (s&[->| ->]); rewrite (Hu _), decide_False by done;
        rewrite Hv2, decide_False by (by intros (?&?&_)%list_elem_of_fmap); apply Hs1.
    + intros _. rewrite (Hu _). by rewrite decide_True.
  - eapply wp_s_smembers_bad; [exact HS|]. intros e st1 Hs1. apply HQ; [|done]. intros k _. apply Hs1.
Qed.

Lemma revoke_for_session_frame sid w :
  wp (RevokeAllForSession ctx sid) (λ r w', w_now w' = w_now w ∧
    (∀ k, session_store_key k → view w' k = view w k) ∧
    (r = Ok tt → view w' (buildSessionTokensKey sid) = None)) w.
Proof.
  unfold RevokeAllForSession. wp_step. wp_step. apply wp_redis_call; [|by intros; split_and!].
  intros net. apply revoke_script_frame. intros r st' Hk Hgone. split; [|cbn; by split_and!].
  destruct r as [n|e]; cbn [wrap_res]; [|by split_and!].
  apply wp_audit_log. split_and!; [done|exact Hk|]. intros _. by apply Hgone.
Qed.

Definition session_tokens_gone (sid : string) w : Prop := view w (buildSessionTokensKey sid) = None.

Lemma token_revoker_gone sid w :
  (RevokeAllForSession ctx sid w).1 = Ok tt → session_tokens_gone sid (RevokeAllForSession ctx sid w).2.
Proof. intros Hr. destruct (revoke_for_session_frame sid w) as (_&_&Hg). by apply Hg. Qed.

(** Sessions and token indexes live under different keys. *)
Lemma token_revoker_other sid w w' :
  session_tokens_gone sid w → (∀ k, ¬ session_store_key k → view w' k = view w k) → session_tokens_gone sid w'.
Proof. intros Hg Hk. unfold session_tokens_gone. rewrite Hk; [done|]. by intros (s&[?|?]). Qed.

(** The revoker that [cmd/gosso] gives to the session service. *)
Definition token_revoker : TokenRevoker R :=
  mkRevoker (RevokeAllForSession ctx) session_tokens_gone (touches_RevokeAllForSession ctx) token_revoker_gone token_revoker_other.
End revoker.
