(* ===== verification/SessionExamples.v ===== *)
(** * Sample runs of the session service, and the deviations found in it *)
From S2P Require Import Prelude GoTime Json Hash LuaPattern Redis World Cache TokenDomain TokenService TokenExamples Session SessionService SessionSpecs SessionProps ServiceFootprints.
Local Open Scope Z_scope.

Module SessionSample.
Definition cfg : SessionConfig := mkSessCfg (24 * hour) (7 * 24 * hour) 2 true.
Definition revoker : TokenRevoker MemRedis := token_revoker Sample.ctx.
Definition obj (id : string) : Session :=
  mkSession id "acc-1" "alice" "192.0.2.7" "curl/8.5" false zero_time zero_time (Some []).
Definition init : Sess MemRedis :=
  mkSess (mkWorld ∅ (1750000000 * second) [] [] ["u-1"; "u-2"] []) [obj "s-a"; obj "s-b"; obj "s-c"] ∅ 0.
Definition create (p : nat) (s : Sess MemRedis) : Sess MemRedis := (CreateSession cfg (Some revoker) p s).2.
Definition wait (d : Z) (s : Sess MemRedis) : Sess MemRedis := set_world (tick d (sv_world s)) s.
Definition net (l : list fate) (s : Sess MemRedis) : Sess MemRedis := set_world (put_net l (sv_world s)) s.
(** One session, then three created a minute apart with a limit of two. *)
Definition one : Sess MemRedis := create 0 init.
Definition three : Sess MemRedis := create 2 (wait minute (create 1 (wait minute one))).
End SessionSample.

Module SessionWitnesses.
Import SessionSample.

Lemma init_texts : texts (view (sv_world init)).
Proof. intros sid. unfold view, init. cbn. by rewrite lookup_empty. Qed.

Lemma create_session_enforces_limit_witness :
  ∃ s', CreateSession cfg (Some revoker) 0 init = (Ok tt, s').
Proof.
  destruct (create_session_enforces_limit cfg revoker 0 init) as (s'&d&S'&Hc&_);
    [done|done|cbn; lia|vm_compute; split; discriminate|left; vm_compute; discriminate|apply init_texts
    |vm_compute; eauto|eauto].
Defined.

Lemma session_validation_sound_witness :
  ∃ d e, view (sv_world (wait hour one)) (buildSessionKey "s-a") = Some (Entry (RStr d) e).
Proof.
  destruct (session_validation_sound cfg (Some revoker) "s-a" (wait hour one) 0%nat
    (ValidateSession cfg (Some revoker) "s-a" (wait hour one)).2) as (_&_&d&e&Hv&_).
  - done.
  - apply run_ok. vm_compute. reflexivity.
  - exists d, e. exact Hv.
Defined.

Lemma session_cache_bounded_witness :
  Z.of_nat (size (sv_cache one)) <= sv_size one <= sessionCacheMaxSize.
Proof.
  apply (session_cache_bounded cfg (Some revoker) init one); [done|done|].
  apply rtc_once. apply (ss_create cfg (Some revoker) 0 init).
Defined.

Lemma revoke_session_sound_witness :
  view (sv_world (RevokeSession (Some revoker) "acc-1" "s-a" one).2) (buildSessionKey "s-a") = None.
Proof.
  destruct (revoke_session_sound revoker "acc-1" "s-a" one (RevokeSession (Some revoker) "acc-1" "s-a" one).2)
    as (Hv&_); [apply run_ok; vm_compute; reflexivity|exact Hv].
Defined.

Lemma revoke_session_needs_owner_witness :
  RevokeSession (Some revoker) "acc-2" "s-a" one = (Err ErrSessionAccessDenied, (GetSession "s-a" one).2).
Proof.
  destruct (revoke_session_needs_owner (Some revoker) "acc-2" "s-a" one 0%nat (GetSession "s-a" one).2)
    as [Hr _]; [apply run_ok; vm_compute; reflexivity|vm_compute; discriminate|exact Hr].
Defined.

Lemma revoke_all_for_account_sound_witness :
  view (sv_world (RevokeAllForAccount (Some revoker) "acc-1" one).2) (buildAccountSessionsKey "acc-1") = None.
Proof.
  destruct (revoke_all_for_account_sound revoker "acc-1" one
    (RevokeAllForAccount (Some revoker) "acc-1" one).2 {["s-a"]}) as [Hv _];
    [vm_compute; reflexivity|apply run_ok; vm_compute; reflexivity|exact Hv].
Defined.

(** Whether the documents of a store are texts can be checked. *)
Lemma texts_checked (st : MemRedis) now :
  forallb (λ p : string * rentry, negb (String.prefix sessionKeyPrefix p.1) || is_ok (str_of (Some p.2))) (map_to_list st) = true →
  texts (r_view st now).
Proof.
  intros Hall sid. cbn. unfold live. destruct (st !! buildSessionKey sid) as [e|] eqn:Hk; [|done]. destruct (alive now e); [|done].
  rewrite forallb_forall in Hall. apply elem_of_map_to_list, list_elem_of_In, Hall in Hk. cbn [fst snd] in Hk.
  unfold buildSessionKey, sessionKeyPrefix in Hk. cbn in Hk. by destruct sid.
Qed.
(** Of the two sessions left of three, a limit of one evicts the one that is not protected. *)
Lemma evict_script_refines_witness :
  let st := w_redis (sv_world three) in let now := now_ms (sv_world three) in let index := buildAccountSessionsKey "acc-1" in
  evictOldestSessionsScript index 1 "s-c" now st = (Ok ["s-b"], (evictOldestSessionsScript index 1 "s-c" now st).2) ∧
  ∃ S', limit_enforced (r_view st now) (r_view (evictOldestSessionsScript index 1 "s-c" now st).2 now) index {["s-b"; "s-c"]} 1 "s-c" ["s-b"] S'.
Proof.
  intros st now index.
  assert (evictOldestSessionsScript index 1 "s-c" now st = (Ok ["s-b"], (evictOldestSessionsScript index 1 "s-c" now st).2)) as Hrun
    by (apply run_ok; vm_compute; reflexivity).
  split; [exact Hrun|].
  destruct (evict_script_refines "acc-1" 1 "s-c" now st {["s-b"; "s-c"]}) as (E&st'&Heq&Hcases).
  - vm_compute. reflexivity.
  - apply texts_checked. vm_compute. reflexivity.
  - reflexivity.
  - assert (Ok E = Ok ["s-b"]) as [= ->] by exact (eq_trans (eq_sym (f_equal fst Heq)) (f_equal fst Hrun)).
    destruct Hcases as [(_&He&_)|(S'&Hlimit)]; [discriminate He|]. exists S'.
    assert ((evictOldestSessionsScript index 1 "s-c" now st).2 = st') as -> by exact (f_equal snd Heq). exact Hlimit.
Defined.
End SessionWitnesses.

Module SessionDeviations.
Import SessionSample.

(** Three sessions a minute apart under a limit of two: the first is evicted. *)
Example oldest_is_evicted :
  is_ok (GetSession "s-a" three).1 = false ∧ is_ok (GetSession "s-b" three).1 = true ∧
  is_ok (GetSession "s-c" three).1 = true.
Proof. vm_compute. repeat split. Qed.

(** Three sessions, created at .5 s, at .51 s and a minute later. *)
Definition base : Sess MemRedis := wait (500 * millisecond) init.
Definition trimmed : Sess MemRedis :=
  create 2 (wait minute (create 1 (wait (10 * millisecond) (create 0 base)))).
(** Eviction compares the text of timestamps. A fraction of a second that ends in
    zeros is written shorter, and its Z sorts after a digit, so with a limit of two the
    session last active at .51 s is evicted and the older one at .5 s is kept. *)
Example eviction_is_not_chronological :
  is_ok (GetSession "s-a" trimmed).1 = true ∧ is_ok (GetSession "s-b" trimmed).1 = false.
Proof. vm_compute. split; reflexivity. Qed.

(** A refresh takes the session out of the local cache and leaves the counter as it was. *)
Definition refreshed : Sess MemRedis := (RefreshSession cfg (Some revoker) "s-a" one).2.
(** The counter of the local cache drifts upwards: after a session was refreshed the
    cache is empty and the counter says one. *)
Example refresh_leaks_cache_slot :
  size (sv_cache one) = 1%nat ∧ size (sv_cache refreshed) = 0%nat ∧ sv_size refreshed = 1.
Proof. vm_compute. repeat split. Qed.

(** 23 h after the last activity a refresh is lost on the way to Redis; the object in the
    cache was touched before. The session is validated once within the day, which extends
    its deadline in Redis, and again 17 hours later. *)
Definition lost_refresh : Sess MemRedis :=
  net [] ((RefreshSession cfg (Some revoker) "s-a" (net [Delivered; Refused] (wait (23 * hour) one))).2).
Definition much_later : Sess MemRedis :=
  wait (17 * hour) (ValidateSession cfg (Some revoker) "s-a" (wait (30 * minute) lost_refresh)).2.
(** The same store as another process (or this one after a restart) sees it. *)
Definition restarted : Sess MemRedis := mkSess (sv_world much_later) [] ∅ 0.
(** A failed refresh still counts as activity in the process that tried it: the session
    is accepted there although the stored document has expired, and refused everywhere
    else. *)
Example failed_refresh_extends_session :
  is_ok (ValidateSession cfg (Some revoker) "s-a" much_later).1 = true ∧
  (ValidateSession cfg (Some revoker) "s-a" restarted).1 = Err ErrSessionExpired.
Proof. vm_compute. split; reflexivity. Qed.
End SessionDeviations.
