(* ===== verification/DeviceProps.v ===== *)
(** * Device codes: what the scripts do to a stored document, and what the service promises *)
From S2P Require Import Prelude GoTime Json LuaPattern Hash Redis World Cache TokenDomain TokenService TokenSpecs TokenProps OAuthDomain DeviceCode.
Local Open Scope Z_scope.

(** ** What the device code scripts do to a stored document *)
(** ** Documents through [cjson] *)
Definition norm_members (l : list (string * json)) : list (string * json) :=
  map (λ kv, (kv.1, cjson_norm kv.2)) l.

(** The documents of this component: valid text under the names of the struct. *)
Definition device_keys : list string :=
  ["device_code"; "user_code"; "client_id"; "account_id"; "scopes"; "status"; "expires_at"; "authorized_at";
   "last_poll_at"; "interval"; "created_at"].
Definition doc_wf (l : list (string * json)) : Prop := members_wf l = true ∧ l.*1 = device_keys.

Lemma device_keys_nodup : NoDup device_keys.
Proof. apply (bool_decide_unpack _). vm_compute. exact I. Qed.
(** Go and Lua find the same members. *)
Lemma doc_field l f : l.*1 = device_keys → f ∈ device_keys → jfield f l = jget f l.
Proof.
  unfold device_keys. intros Hl Hf.
  do 11 (destruct l as [|[? ?] l]; [done|]; cbn in Hl; injection Hl as -> Hl). destruct l; [clear Hl|done].
  rewrite !elem_of_cons, elem_of_nil in Hf. destruct_or! Hf; try done; subst f; cbn; eval_keys; reflexivity.
Qed.
Lemma jset_present f v l : f ∈ l.*1 → (jset f v l).*1 = l.*1.
Proof.
  induction l as [|[k w] l IH]; cbn; [by intros ?%elem_of_nil|]. rewrite elem_of_cons. intros Hf.
  case_bool_decide; cbn; [done|]. f_equal. apply IH. naive_solver.
Qed.

Lemma norm_keys l : (norm_members l).*1 = l.*1.
Proof. unfold norm_members. induction l as [|[k v] l IH]; cbn; [done|]. f_equal. exact IH. Qed.
Lemma jget_norm f l : jget f (norm_members l) = cjson_norm <$> jget f l.
Proof. induction l as [|[k v] l IH]; cbn; [done|]. by case_bool_decide. Qed.
Lemma norm_wf l : members_wf l = true → members_wf (norm_members l) = true.
Proof.
  unfold members_wf. induction l as [|[k v] l IH]; cbn -[utf8_valid]; [done|].
  rewrite !andb_true_iff. intros [[Hk Hv] Hl]. split; [split; [done|by apply cjson_norm_wf]|by apply IH].
Qed.

(** Encoding a table gives the text of the normalised object. *)
Lemma cjson_encode_doc l : doc_wf l → cjson_encode l = jobj (norm_members l) ∧ doc_wf (norm_members l).
Proof.
  intros [Hwf Hk]. split.
  - unfold cjson_encode. cbn [cjson_norm]. fold (norm_members l).
    rewrite lua_table_nodup; [done|]. rewrite norm_keys, Hk. apply device_keys_nodup.
  - split; [by apply norm_wf|by rewrite norm_keys].
Qed.
Lemma jset_doc_wf f s l : bool_decide (f ∈ device_keys) = true → utf8_valid f = true → utf8_valid s = true →
  doc_wf l → doc_wf (jset f (JStr s) l).
Proof.
  intros Hin%bool_decide_eq_true Hf Hs [Hwf Hk]. split; [by apply jset_wf|].
  rewrite jset_present; [done|by rewrite Hk].
Qed.
Lemma doc_table l : doc_wf l → lua_table l = l.
Proof. intros [_ Hk]. apply lua_table_nodup. rewrite Hk. apply device_keys_nodup. Qed.

(** ** The state a document is in *)
Inductive dstate : Type :=
  | Absent
  | Pending (client : string)
  | Authorized (client account : string)
  | Denied (client : string)
  | Used (client account : string).

Definition state_of (l : list (string * json)) : option dstate :=
  match jget "status" l, jget "client_id" l, jget "account_id" l with
  | Some (JStr s), Some (JStr c), Some (JStr a) =>
      if bool_decide (s = StatusPending) then Some (Pending c)
      else if bool_decide (s = StatusAuthorized) then Some (Authorized c a)
      else if bool_decide (s = StatusDenied) then Some (Denied c)
      else if bool_decide (s = StatusUsed) then Some (Used c a) else None
  | _, _, _ => None
  end.

(** What a client sees under a key is a document in state [s]. *)
Definition in_state (o : option rentry) (s : dstate) : Prop :=
  match o with
  | None => s = Absent
  | Some e => ∃ l, re_val e = RStr (jobj l) ∧ doc_wf l ∧ state_of l = Some s
  end.

Lemma cjson_norm_str j s : cjson_norm j = JStr s → j = JStr s.
Proof. destruct j as [| | | |[|]|]; cbn; try done. Qed.
Lemma state_of_norm l : state_of (norm_members l) = state_of l.
Proof.
  unfold state_of. rewrite !jget_norm.
  destruct (jget "status" l) as [[| | | |[|]|]|], (jget "client_id" l) as [[| | | |[|]|]|],
    (jget "account_id" l) as [[| | | |[|]|]|]; reflexivity.
Qed.

(** The moves of the state machine: a code is decided once, and an authorized code is
    claimed once; a code may expire in any state and does not come back. *)
Inductive dmove : dstate → dstate → Prop :=
  | move_stay s : dmove s s
  | move_expire s : dmove s Absent
  | move_authorize c a : dmove (Pending c) (Authorized c a)
  | move_deny c : dmove (Pending c) (Denied c)
  | move_claim c a : dmove (Authorized c a) (Used c a).

Lemma state_of_set_status l s0 s c a :
  jget "status" l = Some (JStr s0) → jget "client_id" l = Some (JStr c) → jget "account_id" l = Some (JStr a) →
  state_of (jset "status" (JStr s) l) =
  (if bool_decide (s = StatusPending) then Some (Pending c)
   else if bool_decide (s = StatusAuthorized) then Some (Authorized c a)
   else if bool_decide (s = StatusDenied) then Some (Denied c)
   else if bool_decide (s = StatusUsed) then Some (Used c a) else None).
Proof. intros _ Hc Ha. unfold state_of. rewrite !jget_jset. decide_keys. by rewrite Hc, Ha. Qed.

Lemma state_of_members l s : state_of l = Some s →
  ∃ st c a, jget "status" l = Some (JStr st) ∧ jget "client_id" l = Some (JStr c) ∧
            jget "account_id" l = Some (JStr a) ∧
            s = match s with Pending _ => Pending c | Authorized _ _ => Authorized c a | Denied _ => Denied c
                           | Used _ _ => Used c a | Absent => Absent end.
Proof.
  unfold state_of. destruct (jget "status" l) as [[| | |st| |]|], (jget "client_id" l) as [[| | |c| |]|],
    (jget "account_id" l) as [[| | |a| |]|]; try done.
  intros Hs. exists st, c, a. split_and!; [done..|]. repeat case_bool_decide; by simplify_eq.
Qed.

Lemma field_is_true f v l : field_is f v l = true ↔ jget f l = Some (JStr v).
Proof.
  unfold field_is. destruct (jget f l) as [[| | |s| |]|]; split; try done.
  - by intros ->%bool_decide_eq_true.
  - intros [= ->]. by apply bool_decide_eq_true.
Qed.

(** A document is in one state only. *)
Lemma in_state_doc l e s : doc_wf l → in_state (Some (Entry (RStr (jobj l)) e)) s → state_of l = Some s.
Proof.
  intros [Hwf _] (l0&Hl0&[Hwf0 _]&Hs). cbn in Hl0.
  assert (jobj l = jobj l0) as Hl by exact (f_equal (λ v, match v with RStr s => s | _ => "" end) Hl0).
  pose proof (jparse_jobj l Hwf) as Hp. rewrite Hl, jparse_jobj in Hp by done. by injection Hp as <-.
Qed.

Section specs.
Context {R : Type} `{RedisServer R} `{LuaOS}.
Implicit Types (st : R) (w : World R).

(** ** Scripts on any text *)

(** What is seen under a key has not expired. *)
Lemma r_view_alive st now k v d : r_view st now k = Some (Entry v (Some d)) → now < d.
Proof.
  intros Hv. pose proof (r_view_later st now now k ltac:(lia)) as Hl. rewrite Hv in Hl. cbn in Hl.
  unfold alive in Hl. cbn in Hl. destruct (Z.ltb_spec now d); [done|]. discriminate.
Qed.

Lemma wp_set_pttl now key v pttl st (Q : res unit → R → Prop) :
  (∀ st', updates now st st' key (Some (Entry (RStr v) (if 0 <? pttl then Some (now + pttl) else None))) → Q (Ok tt) st') →
  wp (set_pttl now key v pttl) Q st.
Proof.
  intros HQ. unfold set_pttl. destruct (0 <? pttl) eqn:Hp.
  - apply Z.ltb_lt in Hp. by apply wp_s_set.
  - by apply wp_s_set_forever.
Qed.

(** The deadline stays as it was. *)
Lemma wp_keep_pttl now key u v e st (Q : res unit → R → Prop) :
  r_view st now key = Some (Entry v e) →
  (∀ st', updates now st st' key (Some (Entry (RStr u) e)) → Q (Ok tt) st') →
  wp (keep_pttl now key u) Q st.
Proof.
  intros Hv HQ. unfold keep_pttl. wp_step. apply wp_s_pttl. intros st1 Hst1. rewrite Hv.
  apply wp_set_pttl. intros st2 Hst2. apply HQ. intros k. rewrite (Hst2 k), (Hst1 k).
  destruct e as [d|]; [|done]. pose proof (r_view_alive _ _ _ _ _ Hv) as Hlt. rewrite (proj2 (Z.ltb_lt _ _)) by lia.
  case_decide; [|done]. do 3 f_equal. lia.
Qed.

(** A script that rewrites the document when a test holds and does nothing when it does
    not; [dl] relates the deadlines before and after. *)
Definition rewrites now key (p : list (string * json) → bool) (f : list (string * json) → list (string * json))
    (dl : option Z → option Z → Prop) st (Q : res (option string) → R → Prop) : Prop :=
  (∀ r st', same now st st' → r = Ok None ∨ (∃ e, r = Err e) →
     (∀ d e l, r_view st now key = Some (Entry (RStr d) e) → jparse d = Some (JObj l) → p (lua_table l) = false) →
     Q r st') ∧
  (∀ st' d e e' l, r_view st now key = Some (Entry (RStr d) e) → jparse d = Some (JObj l) →
     p (lua_table l) = true → dl e e' →
     updates now st st' key (Some (Entry (RStr (cjson_encode (f (lua_table l)))) e')) →
     Q (Ok (Some (cjson_encode (f (lua_table l))))) st').

Lemma same_trans now st1 st2 st3 : same now st1 st2 → same now st2 st3 → same now st1 st3.
Proof. intros H12 H23 k. by rewrite H23, H12. Qed.

Ltac refuse HQ := apply HQ; [done|by eauto|intros; simplify_eq; first [done | by apply andb_false_iff; auto]].
Ltac rewrites_start HQ :=
  wp_step; apply wp_s_get; intros st1 Hst1;
  lazymatch goal with |- context [str_of ?o] =>
    destruct o as [[[d|d|d] e]|] eqn:Hv; cbn [str_of]; [|refuse HQ|refuse HQ|wp_step; refuse HQ];
    wp_step; unfold cjson_decode; destruct (jparse d) as [[| | | | |l]|] eqn:Hp;
    first [wp_step; refuse HQ|wp_step]
  end.

Lemma authorize_rewrites key acc at_ now st Q :
  rewrites now key (field_is "status" "pending")
    (λ dc, jset "authorized_at" (JStr at_) (jset "account_id" (JStr acc) (jset "status" (JStr "authorized") dc)))
    eq st Q →
  wp (authorizeDeviceCodeScript key acc at_ now) Q st.
Proof.
  intros [Hno HQ]. unfold authorizeDeviceCodeScript. rewrites_start Hno.
  destruct (field_is _ _ _) eqn:Hs; cbn [negb]; [|wp_step; refuse Hno].
  wp_step. eapply wp_keep_pttl; [by rewrite (Hst1 key)|]. intros st2 Hst2. wp_step. eapply HQ; [done..|].
  intros k. by rewrite (Hst2 k), (Hst1 k).
Qed.
Lemma deny_rewrites key now st Q :
  rewrites now key (field_is "status" "pending") (jset "status" (JStr "denied")) eq st Q →
  wp (denyDeviceCodeScript key now) Q st.
Proof.
  intros [Hno HQ]. unfold denyDeviceCodeScript. rewrites_start Hno.
  destruct (field_is _ _ _) eqn:Hs; cbn [negb]; [|wp_step; refuse Hno].
  wp_step. eapply wp_keep_pttl; [by rewrite (Hst1 key)|]. intros st2 Hst2. wp_step. eapply HQ; [done..|].
  intros k. by rewrite (Hst2 k), (Hst1 k).
Qed.
Definition claimable (client : string) (dc : list (string * json)) : bool :=
  negb (bool_decide (client = "")) && field_is "status" "authorized" dc && field_is "client_id" client dc.
Lemma claim_rewrites key client now st Q :
  rewrites now key (claimable client) (jset "status" (JStr "used")) (λ _ _, True) st Q →
  wp (claimAuthorizedScript key client now) Q st.
Proof.
  intros [Hno HQ]. unfold claimAuthorizedScript, claimable in *. wp_step.
  apply wp_guard_err; intros Hc; [apply Hno; [by intros k|by eauto|by rewrite Hc]|]. rewrites_start Hno.
  rewrite Hc in *. cbn [negb andb] in *.
  destruct (field_is "status" _ _) eqn:Hs; cbn [negb]; [|wp_step; refuse Hno].
  destruct (field_is "client_id" _ _) eqn:Hcl; cbn [negb]; [|wp_step; refuse Hno].
  wp_step. apply wp_s_ttl. intros st2 Hst2. wp_step.
  destruct (0 <? _) eqn:Ht; (apply wp_s_set; [lia|intros st3 Hst3]); wp_step;
    (eapply HQ; [done|done|by rewrite Hs, Hcl|done|]); intros k; by rewrite (Hst3 k), (Hst2 k), (Hst1 k).
Qed.

(** ** One transition, under any network behaviour *)

(** The script ran and moved the document from [s] to [s'], or nothing happened. *)
Definition transition (p : list (string * json) → bool) (f : list (string * json) → list (string * json))
    (key : string) (s' : dstate) w (r : res string) w' : Prop :=
  w_now w' = w_now w ∧ (∀ k, k ≠ key → view w' k = view w k) ∧
  ((view w' key = view w key ∧ r = Err ErrDeviceCodeNotFound) ∨
   ∃ l e, view w key = Some (Entry (RStr (jobj l)) e) ∧ doc_wf l ∧ p l = true ∧ in_state (view w' key) s' ∧
          (r = Err ErrDeviceCodeNotFound ∨ r = Ok (jobj (norm_members (f l))))).

Lemma wp_transition (script : Z → M R (option string)) key p f dl s s' w :
  (∀ now st Q, rewrites now key p f dl st Q → wp (script now) Q st) →
  in_state (view w key) s →
  (∀ l, doc_wf l → state_of l = Some s → p l = true → doc_wf (f l) ∧ state_of (f l) = Some s') →
  wp (run_or_not_found script) (transition p f key s' w) w.
Proof.
  intros Hscript Hin Hf. unfold run_or_not_found. wp_step. wp_step. apply wp_redis_call.
  2: { intros net. wp_step. split_and!; [done..|]. by left. }
  intros net. apply Hscript. split.
  - intros r st' Hsame Hr _. assert (∀ k, view (put_net net (put_redis st' w)) k = view w k) as Hv by exact Hsame.
    split; [destruct Hr as [->|[e ->]]|]; wp_step; (split_and!; [done|by intros; apply Hv|]); left; (split; [apply Hv|done]).
  - intros st' d e e' l Hd Hp Hpl _ Hupd. fold (view w key) in Hd. rewrite Hd in Hin.
    destruct Hin as (l0&Hl0&Hwf&Hst). cbn in Hl0. injection Hl0 as ->.
    rewrite jparse_jobj in Hp by apply Hwf. injection Hp as <-.
    rewrite (doc_table _ Hwf) in Hpl, Hupd |- *.
    destruct (Hf l0 Hwf Hst Hpl) as [Hwf' Hst'].
    destruct (cjson_encode_doc _ Hwf') as [Henc Hwfn]. rewrite Henc in Hupd |- *.
    assert (∀ k, view (put_net net (put_redis st' w)) k = if decide (k = key) then
      Some (Entry (RStr (jobj (norm_members (f l0)))) e') else view w k) as Hv by exact Hupd.
    assert (∀ r, r = Err ErrDeviceCodeNotFound ∨ r = Ok (jobj (norm_members (f l0))) →
                 transition p f key s' w r (put_net net (put_redis st' w))) as Ht.
    { intros r Hr. split_and!; [done|intros k Hk; rewrite Hv; by decide_keys|]. right. exists l0, e.
      split_and!; [done..| |done]. rewrite Hv. decide_keys. cbn. exists (norm_members (f l0)).
      split_and!; [done..|by rewrite state_of_norm]. }
    split; wp_step; apply Ht; auto.
Qed.

(** With the network up a script whose test holds succeeds. *)
Lemma wp_rewritten (script : Z → M R (option string)) key p f dl l e w (Q : res string → World R → Prop) :
  (∀ now st Q, rewrites now key p f dl st Q → wp (script now) Q st) →
  w_net w = [] → view w key = Some (Entry (RStr (jobj l)) e) → doc_wf l → p l = true → doc_wf (f l) →
  (∀ w' e', w_now w' = w_now w → w_net w' = [] → dl e e' →
     (∀ k, view w' k = if decide (k = key) then Some (Entry (RStr (jobj (norm_members (f l)))) e') else view w k) →
     Q (Ok (jobj (norm_members (f l)))) w') →
  wp (run_or_not_found script) Q w.
Proof.
  intros Hscript Hn Hv Hwf Hp Hwf' HQ. unfold run_or_not_found. wp_step. wp_step. apply wp_redis_call_up; [done|].
  assert (jparse (jobj l) = Some (JObj l)) as Hj by (apply jparse_jobj, Hwf).
  apply Hscript. split.
  - intros r st' _ _ Hbad. specialize (Hbad _ _ _ Hv Hj). rewrite doc_table in Hbad by done. congruence.
  - intros st' d e0 e' l0 Hd Hj0 _ Hdl Hupd. unfold view in Hv. rewrite Hv in Hd. injection Hd as <- <-.
    rewrite Hj in Hj0. injection Hj0 as <-. rewrite (doc_table l Hwf) in *.
    destruct (cjson_encode_doc _ Hwf') as [Henc _]. rewrite Henc in *. wp_step. by eapply HQ.
Qed.

(** The three transitions. *)
Definition authorized_state (acc : string) (s : dstate) : dstate :=
  match s with Pending c => Authorized c acc | _ => s end.
Definition denied_state (s : dstate) : dstate := match s with Pending c => Denied c | _ => s end.
Definition used_state (s : dstate) : dstate := match s with Authorized c a => Used c a | _ => s end.

Lemma state_of_status l s (st : string) : state_of l = Some s → field_is "status" st l = true →
  st = match s with Pending _ => "pending" | Authorized _ _ => "authorized" | Denied _ => "denied"
               | Used _ _ => "used" | Absent => "absent" end.
Proof.
  rewrite field_is_true. unfold state_of. intros Hs Hst. rewrite Hst in Hs. destruct (jget "client_id" l) as [[| | |c| |]|],
    (jget "account_id" l) as [[| | |a| |]|]; try done. repeat case_bool_decide; by simplify_eq.
Qed.

Lemma authorize_next acc at_ s l : utf8_valid acc = true → utf8_valid at_ = true →
  doc_wf l → state_of l = Some s → field_is "status" "pending" l = true →
  let f := λ dc, jset "authorized_at" (JStr at_) (jset "account_id" (JStr acc) (jset "status" (JStr "authorized") dc)) in
  doc_wf (f l) ∧ state_of (f l) = Some (authorized_state acc s).
Proof.
  intros Hacc Hat Hwf Hs Hp f. split; [by repeat apply jset_doc_wf|].
  pose proof (state_of_status _ _ _ Hs Hp) as Hst.
  destruct (state_of_members _ _ Hs) as (st&c&a&H1'&Hc&Ha&Heq). destruct s; try done. injection Heq as ->.
  unfold state_of, f. rewrite !jget_jset. decide_keys. by rewrite Hc.
Qed.
Lemma deny_next s l : doc_wf l → state_of l = Some s → field_is "status" "pending" l = true →
  doc_wf (jset "status" (JStr "denied") l) ∧ state_of (jset "status" (JStr "denied") l) = Some (denied_state s).
Proof.
  intros Hwf Hs Hp. split; [by apply jset_doc_wf|]. pose proof (state_of_status _ _ _ Hs Hp) as Hst.
  destruct (state_of_members _ _ Hs) as (st&c&a&H1'&Hc&Ha&Heq). destruct s; try done. injection Heq as ->.
  by rewrite (state_of_set_status _ _ _ _ _ H1' Hc Ha).
Qed.
Lemma claim_next client s l : doc_wf l → state_of l = Some s →
  claimable client l = true →
  doc_wf (jset "status" (JStr "used") l) ∧ state_of (jset "status" (JStr "used") l) = Some (used_state s).
Proof.
  unfold claimable. intros Hwf Hs [[_ Hp]%andb_true_iff Hcl]%andb_true_iff. split; [by apply jset_doc_wf|]. pose proof (state_of_status _ _ _ Hs Hp) as Hst.
  destruct (state_of_members _ _ Hs) as (st&c&a&H1'&Hc&Ha&Heq). destruct s; try done. injection Heq as -> ->.
  by rewrite (state_of_set_status _ _ _ _ _ H1' Hc Ha).
Qed.
End specs.

(** ** Device codes: the state machine, single use, the whole flow, the poll rate *)
(** A hash is hexadecimal: it does not start like the suffix of a poll key. *)
Lemma hash_not_poll t x : HashToken t ≠ "poll:" +:+ x.
Proof.
  unfold HashToken, sha256. destruct (sha_blocks _ _ _) as [|w ws]; [done|].
  cbn [map concat word_bytes app hex_encode]. intros [= _ _ _ _ Hc _].
  assert (∀ n, (n < 16)%N → hex_char n ≠ ":"%char) as Hhex.
  { intros n Hn. assert (n ∈ [0;1;2;3;4;5;6;7;8;9;10;11;12;13;14;15]%N) as Hin by (rewrite !elem_of_cons; lia).
    rewrite !elem_of_cons, elem_of_nil in Hin. by intuition subst. }
  apply (Hhex (N.land (N.shiftr w 8) 255 / 16)%N); [|done].
  apply N.Div0.div_lt_upper_bound. change 255%N with (N.ones 8). rewrite N.land_ones. apply N.mod_lt. done.
Qed.

Lemma deviceKey_inj h1 h2 : deviceCodeKey h1 = deviceCodeKey h2 → h1 = h2.
Proof. apply append_inj. Qed.
Lemma deviceKey_poll t h : deviceCodeKey (HashToken t) ≠ pollKey h.
Proof. unfold deviceCodeKey, pollKey. intros Heq%append_inj. exact (hash_not_poll _ _ Heq). Qed.
Lemma deviceKey_user h c : deviceCodeKey h ≠ userCodeKey c.
Proof. done. Qed.

Section properties.
Context {R : Type} `{RedisServer R} `{LuaOS} (cfg : DeviceCfg).
Implicit Types (st : R) (w : World R).

Lemma wp_s_set_any now k v px st (Q : res unit → R → Prop) :
  (∀ r st', (∀ k', k' ≠ k → r_view st' now k' = r_view st now k') → Q r st') → wp (s_set now k v (Some px)) Q st.
Proof.
  intros HQ. unfold s_set. apply wp_bind, wp_rcall. cbn [cmd_key cmd_sem]. intros st' rep Hrep Hupd.
  assert (∀ k', k' ≠ k → r_view st' now k' = r_view st now k') as Hk
    by (intros k' Hne; rewrite (Hupd k'); by decide_keys).
  destruct (err_of rep); by apply HQ.
Qed.

(** Creating a code writes its own two keys. *)
Definition creates (k : string) w : Prop :=
  ∃ b l, w_rand w = b :: l ∧ k = deviceCodeKey (HashToken (hex_encode (rand_block deviceCodeLength b))).

Lemma wp_generateUserCode n (Q : res string → World R → Prop) w :
  (∀ r w', w_redis w' = w_redis w ∧ w_now w' = w_now w ∧ w_net w' = w_net w → Q r w') →
  wp (generateUserCode n) Q w.
Proof.
  revert Q w. induction n as [|n IH]; intros Q w HQ; cbn [generateUserCode]; [by wp_step; apply HQ|].
  wp_step. unfold wp at 1, rand_int. destruct (w_rand w); cbn; [by apply HQ|].
  wp_step. apply IH. intros [s|e] w' Hw'; [wp_step|]; by apply HQ.
Qed.

Lemma create_frame c scopes w :
  wp (CreateDeviceCode cfg c scopes) (λ r w', w_now w' = w_now w ∧
    ∀ h, ¬ creates (deviceCodeKey h) w → view w' (deviceCodeKey h) = view w (deviceCodeKey h)) w.
Proof.
  unfold CreateDeviceCode. wp_step. wp_step. apply wp_rand_read; [done|]. intros b l Hb. cbn [wrap_res].
  wp_step. wp_step. apply wp_generateUserCode. intros [u|e] w1 (Hr1&Hn1&_); cbn [wrap_res] in *;
    (assert (∀ k, view w1 k = view w k) as Hv1 by (intros k; unfold view, now_ms; by rewrite Hr1, Hn1)); [|by split; [done|intros; apply Hv1]].
  wp_step. apply wp_guard_err; [done|intros _]. wp_step. apply wp_gets. wp_step. wp_step.
  destruct (NewDeviceCode _ _ _ _ _ _ _) as [dc|]; cbn [wrap_res]; [|done].
  wp_step. wp_step. destruct (marshal_device _) as [d|]; cbn [wrap_res]; [|done].
  wp_step. wp_step. set (h0 := HashToken _). set (uk := userCodeKey _).
  assert (∀ net st', (∀ k, k ≠ deviceCodeKey h0 → k ≠ uk → r_view st' (now_ms w1) k = r_view (w_redis w1) (now_ms w1) k) →
    ∀ h, ¬ creates (deviceCodeKey h) w →
    view (put_net net (put_redis st' w1)) (deviceCodeKey h) = view w (deviceCodeKey h)) as Hframe.
  { intros net st' Hst' h Hh. rewrite <-Hv1. apply Hst'; [|apply deviceKey_user].
    intros Heq. apply Hh. exists b, l. done. }
  apply wp_redis_call; intros net; [|split; [exact Hn1|intros; apply Hv1]].
  unfold createDeviceCodeScript. wp_step. apply wp_s_set_any. intros [[]|e] st1 Hst1.
  - apply wp_s_set_any. intros r st2 Hst2. split; [destruct r; cbn [wrap_res]; [wp_step|]|]; (split; [exact Hn1|]);
      apply Hframe; intros k ??; by rewrite Hst2, Hst1.
  - split; cbn [wrap_res]; (split; [exact Hn1|]); apply Hframe; intros k ??; by rewrite Hst1.
Qed.

(** The poll script leaves the state of every document as it is. *)
Lemma poll_script_frame code t secs interval now s st :
  in_state (r_view st now (deviceCodeKey (HashToken t))) s →
  wp (checkAndUpdatePollRateScript (deviceCodeKey (HashToken code)) (pollKey (HashToken code)) secs interval now)
     (λ r st', in_state (r_view st' now (deviceCodeKey (HashToken t))) s) st.
Proof.
  set (k := deviceCodeKey (HashToken t)). set (key := deviceCodeKey _). set (pk := pollKey _). intros Hin.
  assert (k ≠ pk) as Hpk by apply deviceKey_poll.
  unfold checkAndUpdatePollRateScript.
  wp_step. apply wp_s_get. intros st1 Hst1. destruct (str_of _) as [[d|]|e] eqn:Hd; [|wp_step; by rewrite Hst1|by rewrite Hst1].
  wp_step. apply wp_s_get. intros st2 Hst2.
  assert (in_state (r_view st2 now k) s) as Hin2 by by rewrite Hst2, Hst1.
  destruct (str_of (r_view st1 now pk)) as [last|e]; [|done].
  assert (wp (tonumber last) (λ r st', st' = st2) st2) as Hnum
    by (destruct last as [v|]; unfold tonumber; [destruct (parse_int v)|]; by wp_step).
  wp_step. eapply wp_mono; [exact Hnum|]. intros [z|e] st2' ->; [|done].
  destruct (_ && _); [by wp_step|]. wp_step. apply wp_s_pttl. intros st3 Hst3.
  wp_step. apply wp_set_pttl. intros st4 Hst4.
  assert (in_state (r_view st4 now k) s) as Hin4 by (rewrite Hst4; decide_keys; by rewrite Hst3).
  wp_step. unfold cjson_decode. destruct (jparse d) as [[| | | | |l]|] eqn:Hp; try by wp_step. wp_step.
  wp_step. apply wp_guard_err; [done|intros _].
  wp_step. apply wp_set_pttl. intros st5 Hst5. wp_step. rewrite Hst5. destruct (decide (k = key)) as [Hk|]; [|done].
  rewrite Hk in Hin. destruct (r_view st now key) as [[[d'|?|?] e]|] eqn:Hv; cbn in Hd; try done. injection Hd as ->.
  destruct Hin as (l0&Hl0&Hwf&Hs). cbn in Hl0. injection Hl0 as ->.
  rewrite jparse_jobj in Hp by apply Hwf. injection Hp as <-. rewrite (doc_table _ Hwf).
  assert (doc_wf (jset "last_poll_at" (JStr (os_date secs)) l0)) as Hwf'
    by (apply jset_doc_wf; [reflexivity|reflexivity|apply clean_utf8, format_time_clean|done]).
  destruct (cjson_encode_doc _ Hwf') as [-> Hwfn]. cbn. exists (norm_members (jset "last_poll_at" (JStr (os_date secs)) l0)). split_and!; [done..|].
  rewrite state_of_norm. unfold state_of in *. rewrite !jget_jset. by decide_keys.
Qed.

Lemma poll_frame code t s w :
  in_state (view w (deviceCodeKey (HashToken t))) s →
  wp (CheckAndUpdatePollRate cfg code) (λ r w', w_now w' = w_now w ∧
    in_state (view w' (deviceCodeKey (HashToken t))) s) w.
Proof.
  intros Hin. unfold CheckAndUpdatePollRate, run_or_not_found. wp_step. apply wp_gets. wp_step. wp_step. wp_step.
  apply wp_redis_call; [|intros net; by wp_step]. intros net.
  eapply wp_mono; [by apply poll_script_frame|]. intros r st' Hst'. split; [|by wp_step].
  destruct r as [[v|]|e]; wp_step; [|done..]. by apply wp_guard_err.
Qed.

(** ** The state machine *)

(** What the operations may do to the code with secret [t] between two moments. Other
    codes may be created; a new secret whose hash is the one of [t] is left out. *)
Inductive device_step (t : string) w : World R → Prop :=
  | ds_create c scopes : ¬ creates (deviceCodeKey (HashToken t)) w →
      device_step t w (CreateDeviceCode cfg c scopes w).2
  | ds_authorize hash acc : utf8_valid acc = true → device_step t w (AuthorizeDeviceCodeByHash hash acc w).2
  | ds_deny hash : device_step t w (DenyDeviceCodeByHash hash w).2
  | ds_claim code c : device_step t w (ClaimAuthorizedDeviceCode code c w).2
  | ds_poll code : device_step t w (CheckAndUpdatePollRate cfg code w).2
  | ds_get code : device_step t w (GetDeviceCode code w).2
  | ds_wait net δ : 0 <= δ → device_step t w (put_net net (tick δ w)).

Lemma in_state_live o s now : in_state o s → ∃ s', in_state (live now o) s' ∧ dmove s s'.
Proof.
  destruct o as [e|]; cbn; [|intros ->; exists Absent; split; [done|constructor]].
  intros Hs. destruct (alive now e); cbn; [exists s; split; [done|constructor]|].
  exists Absent. split; [done|constructor].
Qed.

Lemma authorized_move acc s : dmove s (authorized_state acc s).
Proof. destruct s; constructor. Qed.
Lemma denied_move s : dmove s (denied_state s).
Proof. destruct s; constructor. Qed.
Lemma used_move s : dmove s (used_state s).
Proof. destruct s; constructor. Qed.

(** A transition of some code moves the state of every code or leaves it. *)
Lemma transition_moves p f key k s s' w r w' :
  transition p f key s' w r w' → in_state (view w k) s → (key = k → dmove s s') →
  ∃ s2, in_state (view w' k) s2 ∧ dmove s s2.
Proof.
  intros (_&Hframe&Hkey) Hin Hmove. destruct (decide (k = key)) as [->|Hne].
  - destruct Hkey as [[Hv _]|(l&e&_&_&_&Hs'&_)]; [exists s; rewrite Hv; split; [done|constructor]|].
    exists s'. auto.
  - exists s. rewrite Hframe by done. split; [done|constructor].
Qed.

Lemma wp_authorize hash acc w s : utf8_valid acc = true → in_state (view w (deviceCodeKey hash)) s →
  wp (AuthorizeDeviceCodeByHash hash acc) (λ r w', ∃ r',
    transition (field_is "status" "pending") (λ dc, jset "authorized_at"
      (JStr (format_time (w_now w / second * second))) (jset "account_id" (JStr acc) (jset "status" (JStr "authorized") dc)))
      (deviceCodeKey hash) (authorized_state acc s) w r' w' ∧ is_ok r = is_ok r') w.
Proof.
  intros Hacc Hin. unfold AuthorizeDeviceCodeByHash, authorizeByKey. wp_step. apply wp_gets. wp_step.
  eapply wp_mono; [eapply wp_transition; [|exact Hin|]|].
  - intros. by apply authorize_rewrites.
  - intros l Hwf Hs Hp. apply authorize_next; try done. apply clean_utf8, format_time_clean.
  - intros r w' Ht. destruct r; [wp_step|]; by eexists.
Qed.
Lemma wp_deny hash w s : in_state (view w (deviceCodeKey hash)) s →
  wp (DenyDeviceCodeByHash hash) (λ r w', ∃ r',
    transition (field_is "status" "pending") (jset "status" (JStr "denied"))
      (deviceCodeKey hash) (denied_state s) w r' w' ∧ is_ok r = is_ok r') w.
Proof.
  intros Hin. unfold DenyDeviceCodeByHash, denyByKey. wp_step.
  eapply wp_mono; [eapply wp_transition; [|exact Hin|]|].
  - intros. by apply deny_rewrites.
  - intros l Hwf Hs Hp. by apply deny_next.
  - intros r w' Ht. destruct r; [wp_step|]; by eexists.
Qed.
Lemma wp_claim code client w s : in_state (view w (deviceCodeKey (HashToken code))) s →
  wp (ClaimAuthorizedDeviceCode code client) (λ r w', ∃ r',
    transition (claimable client) (jset "status" (JStr "used"))
      (deviceCodeKey (HashToken code)) (used_state s) w r' w' ∧
    ∀ dc, r = Ok dc → ∃ u, r' = Ok u ∧ unmarshal_device u = Some dc) w.
Proof.
  intros Hin. unfold ClaimAuthorizedDeviceCode. wp_step. apply wp_guard_err.
  { intros _. exists (Err ErrDeviceCodeNotFound). split; [|done]. split_and!; [done..|by left]. }
  intros _. wp_step. eapply wp_mono; [eapply wp_transition; [|exact Hin|]|].
  - intros. by apply claim_rewrites.
  - intros l Hwf Hs Hp. exact (claim_next _ _ _ Hwf Hs Hp).
  - intros [u|e] w' Ht; [|by exists (Err e)]. destruct (unmarshal_device u) as [dc|] eqn:Hu; wp_step;
      (eexists; split; [exact Ht|]); [|done]. intros dc' [= <-]. eauto.
Qed.

(** Another code's key need not hold a document: its transition leaves this one alone. *)
Lemma run_frame (script : Z → M R (option string)) key p f dl k w :
  (∀ now st Q, rewrites now key p f dl st Q → wp (script now) Q st) → key ≠ k →
  wp (run_or_not_found script) (λ r w', view w' k = view w k) w.
Proof.
  intros Hscript Hne. unfold run_or_not_found. wp_step. wp_step. apply wp_redis_call; [|intros net; by wp_step].
  intros net. apply Hscript. split.
  - intros r st' Hsame Hr _. split; [destruct Hr as [->|[e ->]]|]; wp_step; apply Hsame.
  - intros st' d e e' l _ _ _ _ Hupd. split; wp_step; etransitivity; [apply Hupd| |apply Hupd|]; by decide_keys.
Qed.

Lemma step_moves t w w' s :
  in_state (view w (deviceCodeKey (HashToken t))) s → device_step t w w' →
  ∃ s', in_state (view w' (deviceCodeKey (HashToken t))) s' ∧ dmove s s'.
Proof.
  set (k := deviceCodeKey (HashToken t)). intros Hin Hstep.
  assert (∀ w', view w' k = view w k → ∃ s', in_state (view w' k) s' ∧ dmove s s') as Hstay
    by (intros w1 Hv; exists s; rewrite Hv; split; [done|constructor]).
  destruct Hstep as [c scopes Hc|hash acc Hacc|hash|code c|code|code|net δ Hδ].
  - destruct (CreateDeviceCode cfg c scopes w) as [r w1] eqn:Heq.
    destruct (wp_intro _ _ _ _ _ Heq (create_frame c scopes w)) as [_ Hv]. apply Hstay. by apply Hv.
  - destruct (AuthorizeDeviceCodeByHash hash acc w) as [r w1] eqn:Heq.
    destruct (decide (deviceCodeKey hash = k)) as [Hk|Hk].
    + assert (in_state (view w (deviceCodeKey hash)) s) as Hin' by by rewrite Hk.
      destruct (wp_intro _ _ _ _ _ Heq (wp_authorize hash acc w s Hacc Hin')) as (r'&Ht&_).
      eapply transition_moves; [exact Ht|done|intros; apply authorized_move].
    + apply Hstay. refine (wp_intro _ (λ r w', view w' k = view w k) _ _ _ Heq _).
      unfold AuthorizeDeviceCodeByHash, authorizeByKey. wp_step. apply wp_gets. wp_step.
      eapply wp_mono; [eapply run_frame; [|exact Hk]; intros; by apply authorize_rewrites|].
      intros [u|e] w' Hv; [wp_step|]; done.
  - destruct (DenyDeviceCodeByHash hash w) as [r w1] eqn:Heq.
    destruct (decide (deviceCodeKey hash = k)) as [Hk|Hk].
    + assert (in_state (view w (deviceCodeKey hash)) s) as Hin' by by rewrite Hk.
      destruct (wp_intro _ _ _ _ _ Heq (wp_deny hash w s Hin')) as (r'&Ht&_).
      eapply transition_moves; [exact Ht|done|intros; apply denied_move].
    + apply Hstay. refine (wp_intro _ (λ r w', view w' k = view w k) _ _ _ Heq _).
      unfold DenyDeviceCodeByHash, denyByKey. wp_step.
      eapply wp_mono; [eapply run_frame; [|exact Hk]; intros; by apply deny_rewrites|].
      intros [u|e] w' Hv; [wp_step|]; done.
  - destruct (ClaimAuthorizedDeviceCode code c w) as [r w1] eqn:Heq.
    destruct (decide (deviceCodeKey (HashToken code) = k)) as [Hk|Hk].
    + assert (in_state (view w (deviceCodeKey (HashToken code))) s) as Hin' by by rewrite Hk.
      destruct (wp_intro _ _ _ _ _ Heq (wp_claim code c w s Hin')) as (r'&Ht&_).
      eapply transition_moves; [exact Ht|done|intros; apply used_move].
    + apply Hstay. refine (wp_intro _ (λ r w', view w' k = view w k) _ _ _ Heq _).
      unfold ClaimAuthorizedDeviceCode. wp_step. apply wp_guard_err; [done|intros _]. wp_step.
      eapply wp_mono; [eapply run_frame; [|exact Hk]; intros; by apply claim_rewrites|].
      intros [u|e] w' Hv; [destruct (unmarshal_device u); wp_step|]; done.
  - destruct (CheckAndUpdatePollRate cfg code w) as [r w1] eqn:Heq. exists s.
    split; [|constructor]. by apply (wp_intro _ _ _ _ _ Heq (poll_frame code t s w Hin)).
  - destruct (GetDeviceCode code w) as [r w1] eqn:Heq. apply Hstay.
    refine (wp_intro _ (λ r w', view w' k = view w k) _ _ _ Heq _).
    unfold GetDeviceCode, fetch. wp_step. wp_step. wp_step. apply wp_Get_any. intros r' w' (_&_&_&_&Hq) _.
    destruct r' as [d|e]; [wp_step; destruct (unmarshal_device d)|destruct (errors_is _ _)]; wp_step; apply Hq.
  - change (view (put_net net (tick δ w)) k) with (view (tick δ w) k). rewrite view_tick by done.
    by apply in_state_live.
Qed.

Lemma steps_move t w w' s :
  in_state (view w (deviceCodeKey (HashToken t))) s → rtc (device_step t) w w' →
  ∃ s', in_state (view w' (deviceCodeKey (HashToken t))) s' ∧ rtc dmove s s'.
Proof.
  intros Hin Hsteps. revert s Hin. induction Hsteps as [w|w w1 w' Hstep _ IH]; intros s Hin.
  - exists s. split; [done|constructor].
  - destruct (step_moves _ _ _ _ Hin Hstep) as (s1&Hin1&Hm). destruct (IH _ Hin1) as (s2&Hin2&Hms).
    exists s2. split; [done|]. by eapply rtc_l.
Qed.

(** C27: the device code service implements its state machine. Whatever operations run, on
    whatever codes, under any network behaviour and passage of time, the stored document
    of a code moves only as the machine does: pending to authorized or denied, authorized
    to used, and any state to absent when it expires. *)
Theorem device_state_machine t w0 w s0 :
  in_state (view w0 (deviceCodeKey (HashToken t))) s0 → rtc (device_step t) w0 w →
  ∃ s, in_state (view w (deviceCodeKey (HashToken t))) s ∧ rtc dmove s0 s.
Proof. apply steps_move. Qed.

(** Reading the record from a document of this component. *)
Lemma get_str_doc l f s : doc_wf l → bool_decide (f ∈ device_keys) = true → jget f l = Some (JStr s) →
  get_str f l = Some s.
Proof. intros [_ Hk] Hf%bool_decide_eq_true Hg. apply get_str_member. by rewrite doc_field. Qed.

Lemma unmarshal_doc l dc (st c a : string) : doc_wf l → unmarshal_device (jobj l) = Some dc →
  jget "status" l = Some (JStr st) → jget "client_id" l = Some (JStr c) → jget "account_id" l = Some (JStr a) →
  dc_Status dc = st ∧ dc_ClientID dc = c ∧ dc_AccountID dc = a.
Proof.
  intros Hwf Hu Hs Hc Ha. unfold unmarshal_device in Hu. rewrite jparse_jobj in Hu by apply Hwf.
  unfold device_fields in Hu.
  rewrite (get_str_doc _ "status" st), (get_str_doc _ "client_id" c), (get_str_doc _ "account_id" a) in Hu by done.
  repeat match goal with H : (?o ≫= _) = Some _ |- _ => destruct o; cbn [mbind option_bind] in H; [|done] end.
  by injection Hu as <-.
Qed.

Lemma used_document client l s : doc_wf l → state_of l = Some s →
  claimable client l = true →
  ∃ acc, s = Authorized client acc ∧
    ∀ dc, unmarshal_device (jobj (norm_members (jset "status" (JStr "used") l))) = Some dc →
      dc_Status dc = "used" ∧ dc_ClientID dc = client ∧ dc_AccountID dc = acc.
Proof.
  intros Hwf Hs Hp. destruct (claim_next _ _ _ Hwf Hs Hp) as [Hwf' _]. unfold claimable in Hp.
  apply andb_true_iff in Hp as [[_ Hst]%andb_true_iff Hcl].
  pose proof (state_of_status _ _ _ Hs Hst) as Hk. apply field_is_true in Hcl.
  destruct (state_of_members _ _ Hs) as (st&c&a&_&Hc&Ha&Heq). destruct s; try done. injection Heq as -> ->.
  assert (c = client) as -> by congruence. exists a. split; [done|]. intros dc Hu.
  eapply unmarshal_doc; [by apply cjson_encode_doc|exact Hu|..]; rewrite jget_norm, jget_jset; decide_keys; [done|..].
  - by rewrite Hc.
  - by rewrite Ha.
Qed.

Lemma claim_effect code client w w' s dc :
  in_state (view w (deviceCodeKey (HashToken code))) s →
  ClaimAuthorizedDeviceCode code client w = (Ok dc, w') →
  ∃ acc, s = Authorized client acc ∧ dc_Status dc = "used" ∧ dc_ClientID dc = client ∧ dc_AccountID dc = acc ∧
         in_state (view w' (deviceCodeKey (HashToken code))) (Used client acc).
Proof.
  intros Hin Heq.
  destruct (wp_intro _ _ _ _ _ Heq (wp_claim code client w s Hin)) as (r'&(_&_&Hkey)&Hok).
  destruct (Hok dc eq_refl) as (u&->&Hu). destruct Hkey as [[_ ?]|(l&e&Hv&Hwf&Hp&Hin'&[?|Hu'])]; [done..|].
  injection Hu' as ->. rewrite Hv in Hin.
  destruct (used_document client l s Hwf (in_state_doc _ _ _ Hwf Hin) Hp) as (acc&->&Hdc).
  destruct (Hdc dc Hu) as (?&?&?). by exists acc.
Qed.

(** A device code is claimed for the client that asked for it and for the account that
    authorized it. From a pending code of client [c], after whatever happened since, a
    claim that succeeds was made by [c]; the code was authorized and is now used. *)
Theorem device_claim_sound t c w0 w client dc w' :
  in_state (view w0 (deviceCodeKey (HashToken t))) (Pending c) → rtc (device_step t) w0 w →
  ClaimAuthorizedDeviceCode t client w = (Ok dc, w') →
  client = c ∧ dc_ClientID dc = c ∧ dc_Status dc = "used" ∧
  in_state (view w (deviceCodeKey (HashToken t))) (Authorized c (dc_AccountID dc)) ∧
  in_state (view w' (deviceCodeKey (HashToken t))) (Used c (dc_AccountID dc)).
Proof.
  intros Hin Hsteps Heq. destruct (steps_move _ _ _ _ Hin Hsteps) as (s&Hs&Hmoves).
  destruct (claim_effect _ _ _ _ _ _ Hs Heq) as (acc&->&?&?&<-&?).
  assert (client = c) as ->; [|done].
  assert (∀ s1 s2, rtc dmove s1 s2 → match s1 with Pending c1 | Authorized c1 _ => ∀ c2 a2,
    s2 = Authorized c2 a2 → c2 = c1 | _ => ∀ c2 a2, s2 ≠ Authorized c2 a2 end) as Hclient.
  { intros s1 s2 Hr. induction Hr as [s|s1 s2 s3 Hm _ IH]; [destruct s; naive_solver|].
    destruct Hm as [x|x| | |]; try done; try destruct x; naive_solver. }
  by specialize (Hclient _ _ Hmoves _ _ eq_refl).
Qed.

(** A device code is claimed once. After a claim succeeded no later claim of the code
    does, by any client, whatever operations ran in between. *)
Theorem device_code_single_use t s c1 w dc w1 w2 c2 :
  in_state (view w (deviceCodeKey (HashToken t))) s →
  ClaimAuthorizedDeviceCode t c1 w = (Ok dc, w1) → rtc (device_step t) w1 w2 →
  is_ok (ClaimAuthorizedDeviceCode t c2 w2).1 = false.
Proof.
  intros Hin Heq Hsteps. destruct (claim_effect _ _ _ _ _ _ Hin Heq) as (acc&->&_&_&_&Hused).
  destruct (steps_move _ _ _ _ Hused Hsteps) as (s&Hs&Hmoves).
  assert (∀ s1 s2, rtc dmove s1 s2 → match s1 with Used _ _ | Absent => ∀ c a, s2 ≠ Authorized c a | _ => True end) as Hend.
  { intros s1 s2 Hr. induction Hr as [s'|s1 s2 s3 Hm _ IH]; [destruct s'; naive_solver|].
    destruct Hm as [x|x| | |]; try done; try destruct x; naive_solver. }
  destruct (ClaimAuthorizedDeviceCode t c2 w2) as [[dc2|e] w3] eqn:Heq2; [exfalso|done].
  destruct (claim_effect _ _ _ _ _ _ Hs Heq2) as (acc2&->&_). by apply (Hend _ _ Hmoves c2 acc2).
Qed.
End properties.
