(* ===== verification/DeviceFlow.v ===== *)
(** * The device flow from end to end, and the poll rate *)
From S2P Require Import Prelude GoTime Json LuaPattern Hash Url Redis World Cache TokenDomain TokenService TokenSpecs TokenProps OAuthDomain DeviceCode DeviceProps.
Local Open Scope Z_scope.

(** ** User codes *)
Definition user_char (c : ascii) : bool := bool_decide (c ∈ String.list_ascii_of_string userCodeCharset).

Lemma user_char_facts c : user_char c = true → upper c = c ∧ c ≠ "-"%char ∧ clean_char c = true.
Proof.
  unfold user_char. intros Hc%bool_decide_eq_true. cbn in Hc. rewrite !elem_of_cons, elem_of_nil in Hc.
  destruct_or! Hc; subst; split_and!; done.
Qed.
Lemma charset_at i : 0 <= i < 32 → ∃ c, String.substring (Z.to_nat i) 1 userCodeCharset = String c "" ∧ user_char c = true.
Proof.
  intros Hi. assert (∀ n, (n < 32)%nat → ∃ c, String.substring n 1 userCodeCharset = String c "" ∧ user_char c = true) as Hn.
  { intros n Hn. do 32 (destruct n as [|n]; [eexists; split; vm_compute; reflexivity|]). lia. }
  apply Hn. lia.
Qed.

Lemma length_append_str (a b : string) : String.length (a +:+ b) = (String.length a + String.length b)%nat.
Proof. induction a as [|c a IH]; cbn; [done|]. by rewrite IH. Qed.

(** Eight characters survive the dash, its removal and upper case. *)
Lemma dashed_normal u : String.length u = 8%nat → sforall user_char u = true →
  ToUpper (remove_dashes (dashed u)) = u ∧ ToUpper (dashed u) = dashed u ∧ utf8_valid (dashed u) = true.
Proof.
  intros Hl Hu. do 8 (destruct u as [|? u]; [done|]; cbn in Hl; injection Hl as Hl). destruct u; [|done].
  cbn [sforall] in Hu. rewrite !andb_true_iff in Hu. destruct Hu as (H1&H2&H3&H4&H5&H6&H7&H8&_).
  apply user_char_facts in H1 as (U1&N1&C1), H2 as (U2&N2&C2), H3 as (U3&N3&C3), H4 as (U4&N4&C4),
    H5 as (U5&N5&C5), H6 as (U6&N6&C6), H7 as (U7&N7&C7), H8 as (U8&N8&C8).
  split; [|split]; [..|apply clean_utf8]; unfold dashed, ToUpper; cbn -[clean_char].
  - rewrite (bool_decide_true ("-"%char = "-"%char)), !bool_decide_false by done. cbn.
    by rewrite U1, U2, U3, U4, U5, U6, U7, U8.
  - by rewrite U1, U2, U3, U4, U5, U6, U7, U8.
  - by rewrite C1, C2, C3, C4, C5, C6, C7, C8.
Qed.

(** ** Stored documents *)
Lemma get_time_doc l f s t : doc_wf l → bool_decide (f ∈ device_keys) = true → parse_time s = Some t →
  jget f l = Some (JStr s) → get_time f l = Some t.
Proof. intros [_ Hk] Hf%bool_decide_eq_true Ht Hg. eapply get_time_member; [done|]. by rewrite doc_field. Qed.

Record doc_values : Type := mkDocValues {
  dv_uc : string; dv_client : string; dv_account : string; dv_scopes : list string; dv_status : string;
  dv_expires : string; dv_authorized : string; dv_poll : string; dv_int : Z; dv_created : string }.
(** The members of a document, by name. *)
Record holds (l : list (string * json)) (v : doc_values) : Prop := {
  h_dc : jget "device_code" l = Some (JStr "");
  h_uc : jget "user_code" l = Some (JStr (dv_uc v));
  h_client : jget "client_id" l = Some (JStr (dv_client v));
  h_account : jget "account_id" l = Some (JStr (dv_account v));
  h_scopes : jget "scopes" l = Some (JArr (map JStr (dv_scopes v)));
  h_status : jget "status" l = Some (JStr (dv_status v));
  h_expires : jget "expires_at" l = Some (JStr (dv_expires v));
  h_authorized : jget "authorized_at" l = Some (JStr (dv_authorized v));
  h_poll : jget "last_poll_at" l = Some (JStr (dv_poll v));
  h_int : jget "interval" l = Some (JNum (dv_int v));
  h_created : jget "created_at" l = Some (JStr (dv_created v));
}.

Lemma unmarshal_holds l v e a p c : doc_wf l → holds l v →
  parse_time (dv_expires v) = Some e → parse_time (dv_authorized v) = Some a →
  parse_time (dv_poll v) = Some p → parse_time (dv_created v) = Some c →
  unmarshal_device (jobj l) =
  Some (mkDevice "" (dv_uc v) (dv_client v) (dv_account v) (dv_scopes v) (dv_status v) e a p (dv_int v) c "").
Proof.
  intros Hwf [] He Ha Hp Hc. unfold unmarshal_device. rewrite jparse_jobj by apply Hwf. unfold device_fields.
  rewrite (get_str_doc _ "device_code" ""), (get_str_doc _ "user_code" (dv_uc v)),
    (get_str_doc _ "client_id" (dv_client v)), (get_str_doc _ "account_id" (dv_account v)),
    (get_str_doc _ "status" (dv_status v)) by done.
  rewrite (get_time_doc _ "expires_at" (dv_expires v) e), (get_time_doc _ "authorized_at" (dv_authorized v) a),
    (get_time_doc _ "last_poll_at" (dv_poll v) p), (get_time_doc _ "created_at" (dv_created v) c) by done.
  assert (get_strs "scopes" l = Some (dv_scopes v)) as ->.
  { apply get_strs_member. rewrite doc_field; [done|apply Hwf|]. by apply (bool_decide_unpack _). }
  assert (get_int "interval" l = Some (dv_int v)) as ->; [|done].
  apply get_int_member. rewrite doc_field; [done|apply Hwf|]. by apply (bool_decide_unpack _).
Qed.

Lemma norm_strs l : map cjson_norm (map JStr l) = map JStr l.
Proof. induction l as [|s l IH]; cbn; [done|]. by rewrite IH. Qed.
(** Only an empty list of scopes does not survive [cjson]. *)
Lemma holds_norm l v : dv_scopes v ≠ [] → holds l v → holds (norm_members l) v.
Proof.
  intros Hs []. split; rewrite jget_norm;
    match goal with H : jget ?f l = _ |- cjson_norm <$> jget ?f l = _ => rewrite H end; cbn; try done.
  destruct (dv_scopes v) as [|s sc]; [done|]. cbn. by rewrite norm_strs.
Qed.

Definition set_status (st : string) (v : doc_values) : doc_values :=
  mkDocValues (dv_uc v) (dv_client v) (dv_account v) (dv_scopes v) st (dv_expires v) (dv_authorized v) (dv_poll v)
    (dv_int v) (dv_created v).
Definition set_authorized (acc at_ : string) (v : doc_values) : doc_values :=
  mkDocValues (dv_uc v) (dv_client v) acc (dv_scopes v) "authorized" (dv_expires v) at_ (dv_poll v)
    (dv_int v) (dv_created v).
Ltac holds_set := intros []; split; rewrite ?jget_jset; decide_keys; done.
Lemma holds_status st l v : holds l v → holds (jset "status" (JStr st) l) (set_status st v).
Proof. holds_set. Qed.
Lemma holds_authorized acc at_ l v : holds l v →
  holds (jset "authorized_at" (JStr at_) (jset "account_id" (JStr acc) (jset "status" (JStr "authorized") l)))
    (set_authorized acc at_ v).
Proof. holds_set. Qed.

Definition stored_values (d : DeviceCode) (e a p c : string) : doc_values :=
  mkDocValues (dc_UserCode d) (dc_ClientID d) (dc_AccountID d) (dc_Scopes d) (dc_Status d) e a p (dc_Interval d) c.
Lemma members_hold d e a p c : dc_DeviceCode d = "" → holds (device_members d e a p c) (stored_values d e a p c).
Proof. intros Hd. split; cbn; try done. by rewrite Hd. Qed.
Lemma members_doc_wf d e a p c : dc_DeviceCode d = "" →
  forallb utf8_valid ([dc_UserCode d; dc_ClientID d; dc_AccountID d; dc_Status d; e; a; p; c] ++ dc_Scopes d) = true →
  doc_wf (device_members d e a p c).
Proof.
  intros Hd Hu. split; [|done]. cbn [app forallb] in Hu. rewrite !andb_true_iff in Hu.
  destruct Hu as (?&?&?&?&?&?&?&?&Hs). unfold members_wf, device_members. cbn [forallb fst snd]. cbn [jwf].
  rewrite Hd. rewrite !andb_true_iff. split_and!; try done. clear -Hs. induction (dc_Scopes d) as [|s l IH]; [done|].
  cbn -[utf8_valid] in *. rewrite !andb_true_iff in *. naive_solver.
Qed.

Section flow.
Context {R : Type} `{RedisServer R} `{LuaOS} (cfg : DeviceCfg).
Implicit Types (st : R) (w : World R).

(** ** Creation *)
Lemma wp_user_code n (Q : res string → World R → Prop) w :
  (∀ r w', w_redis w' = w_redis w → w_now w' = w_now w → w_net w' = w_net w →
     (∀ s, r = Ok s → String.length s = n ∧ sforall user_char s = true) → Q r w') →
  wp (generateUserCode n) Q w.
Proof.
  revert Q w. induction n as [|n IH]; intros Q w HQ; cbn [generateUserCode].
  { wp_step. apply HQ; try done. by intros s [= <-]. }
  wp_step. unfold wp at 1, rand_int. destruct (w_rand w) as [|b l]; cbn [fst snd]; [by apply HQ|].
  set (i := foldl _ _ _ mod _). destruct (charset_at i) as (c&Hc&Hu); [apply Z.mod_pos_bound; done|].
  wp_step. apply IH. intros [s|e] w' H1 H2 H3 Hs; [|by apply HQ]. destruct (Hs s eq_refl) as [Hl Hall].
  wp_step. rewrite Hc. apply HQ; [done..|]. intros s' [= <-]. cbn. by rewrite Hl, Hu, Hall.
Qed.

(** What [CreateDeviceCode] gives its caller. *)
Definition created w c scopes dc : Prop :=
  ∃ secret u, c ≠ "" ∧ String.length u = 8%nat ∧ sforall user_char u = true ∧
    dc = mkDevice secret (dashed u) c "" scopes "pending" (w_now w + dv_expiry cfg) zero_time zero_time
           (trunc_secs (dv_interval cfg)) (w_now w) "".
Definition stored_of (dc : DeviceCode) : DeviceCode :=
  mkDevice "" (dc_UserCode dc) (dc_ClientID dc) (dc_AccountID dc) (dc_Scopes dc) (dc_Status dc) (dc_ExpiresAt dc)
    (dc_AuthorizedAt dc) (dc_LastPollAt dc) (dc_Interval dc) (dc_CreatedAt dc) (dc_Hash dc).

Lemma create_effect c scopes w dc w' :
  second <= dv_expiry cfg → w_net w = [] → CreateDeviceCode cfg c scopes w = (Ok dc, w') →
  created w c scopes dc ∧ w_now w' = w_now w ∧ w_net w' = [] ∧
  ∃ d, marshal_device (stored_of dc) = Ok d ∧
    let deadline := Some (now_ms w + trunc_secs (dv_expiry cfg) * 1000) in
    ∀ k, view w' k = if decide (k = userCodeKey (dc_UserCode dc))
                     then Some (Entry (RStr (HashToken (dc_DeviceCode dc))) deadline)
                     else if decide (k = deviceCodeKey (HashToken (dc_DeviceCode dc)))
                     then Some (Entry (RStr d) deadline) else view w k.
Proof.
  intros Hexp Hn Hcreate.
  enough (wp (CreateDeviceCode cfg c scopes) (λ r w', ∀ dc, r = Ok dc → _) w) as Hwp
    by exact (wp_intro _ _ _ _ _ Hcreate Hwp dc eq_refl).
  clear dc w' Hcreate. unfold CreateDeviceCode. wp_step. wp_step. apply wp_rand_read; [done|]. intros b l _. cbn [wrap_res].
  wp_step. wp_step. apply wp_user_code. intros [u|e] w1 Hr1 Hn1 Hnet1 Hu; cbn [wrap_res]; [|done].
  cbn in Hr1, Hn1, Hnet1. destruct (Hu u eq_refl) as [Hlen Hchars]. destruct (dashed_normal u Hlen Hchars) as (_&Hup&_).
  assert (∀ k, view w1 k = view w k) as Hv1 by (intros k; unfold view, now_ms; by rewrite Hr1, Hn1).
  wp_step. apply wp_guard_err; [done|intros _]. wp_step. apply wp_gets. wp_step. wp_step. rewrite Hn1.
  unfold NewDeviceCode. destruct (bool_decide (hex_encode _ = _)); cbn [wrap_res]; [done|].
  destruct (bool_decide (dashed u = "")); cbn [wrap_res]; [done|].
  destruct (bool_decide_reflect (c = "")) as [|Hc]; cbn [wrap_res]; [done|].
  destruct (IsZero (w_now w + dv_expiry cfg)); cbn [wrap_res]; [done|].
  set (dc := mkDevice (hex_encode _) _ _ _ _ _ _ _ _ _ _ _). fold (stored_of dc).
  wp_step. wp_step. destruct (marshal_device (stored_of dc)) as [d|] eqn:Hd; cbn [wrap_res]; [|done].
  wp_step. wp_step. rewrite Hup. apply wp_redis_call_up; [congruence|].
  assert (0 < trunc_secs (dv_expiry cfg)) as Hpos by (unfold trunc_secs, second in *; div_lia).
  unfold createDeviceCodeScript. wp_step. apply wp_s_set; [lia|intros st1 Hst1].
  apply wp_s_set; [lia|intros st2 Hst2]. cbn [wrap_res]. wp_step. intros dc' [= <-].
  split; [exists (hex_encode (rand_block deviceCodeLength b)), u; done|]. split_and!; [exact Hn1|exact (eq_trans Hnet1 Hn)|].
  exists d. split; [done|]. cbv zeta. intros k. rewrite <-Hv1. etransitivity; [apply Hst2|]. rewrite (Hst1 k).
  assert (now_ms w1 = now_ms w) as Hms by (unfold now_ms; by rewrite Hn1). subst dc. cbn [dc_UserCode dc_DeviceCode].
  case_decide; [by rewrite Hms|]. case_decide; [by rewrite Hms|done].
Qed.

(** ** Reading by user code *)
Lemma wp_fetch ctx key s e (Q : res string → World R → Prop) w :
  w_net w = [] → view w key = Some (Entry (RStr s) e) →
  (∀ w', quiet w w' → w_net w' = [] → Q (Ok s) w') → wp (fetch ctx key) Q w.
Proof.
  intros Hn Hv HQ. unfold fetch. wp_step. wp_step. apply wp_Get; [done|]. intros st' Hst'. rewrite Hv. cbn [str_of].
  wp_step. apply HQ; [|done]. by apply (quiet_redis []) in Hst'.
Qed.

Lemma get_by_user u h d dc w e1 e2 :
  w_net w = [] → String.length u = 8%nat → sforall user_char u = true →
  view w (userCodeKey (dashed u)) = Some (Entry (RStr h) e1) →
  view w (deviceCodeKey h) = Some (Entry (RStr d) e2) → unmarshal_device d = Some dc →
  ∃ w', GetDeviceCodeByUserCode (dashed u) w =
    (Ok (mkDevice (dc_DeviceCode dc) (dc_UserCode dc) (dc_ClientID dc) (dc_AccountID dc) (dc_Scopes dc)
           (dc_Status dc) (dc_ExpiresAt dc) (dc_AuthorizedAt dc) (dc_LastPollAt dc) (dc_Interval dc)
           (dc_CreatedAt dc) h), w') ∧ quiet w w' ∧ w_net w' = [].
Proof.
  intros Hn Hlen Hchars Hu Hd Hdc. destruct (dashed_normal u Hlen Hchars) as (Hnorm&_).
  enough (wp (GetDeviceCodeByUserCode (dashed u)) (λ r w', r = Ok (mkDevice (dc_DeviceCode dc) (dc_UserCode dc)
    (dc_ClientID dc) (dc_AccountID dc) (dc_Scopes dc) (dc_Status dc) (dc_ExpiresAt dc) (dc_AuthorizedAt dc)
    (dc_LastPollAt dc) (dc_Interval dc) (dc_CreatedAt dc) h) ∧ quiet w w' ∧ w_net w' = []) w) as Hwp.
  { apply wp_eq in Hwp as (r&w'&Heq&->&?). eauto. }
  unfold GetDeviceCodeByUserCode. rewrite Hnorm. wp_step. apply wp_guard_err; [by rewrite Hlen|intros _].
  wp_step. eapply wp_fetch; [done|exact Hu|]. intros w1 Hq1 Hn1.
  wp_step. eapply wp_fetch; [done|by rewrite (proj2 (proj2 (proj2 (proj2 Hq1)))), Hd|]. intros w2 Hq2 Hn2.
  rewrite Hdc. wp_step. split; [done|]. split; [|done]. by eapply quiet_trans.
Qed.

(** ** Approval and claim *)
Lemma authorize_ok h acc l e w :
  w_net w = [] → view w (deviceCodeKey h) = Some (Entry (RStr (jobj l)) e) → doc_wf l →
  field_is "status" "pending" l = true → utf8_valid acc = true →
  let l' := norm_members (jset "authorized_at" (JStr (format_time (w_now w / second * second)))
              (jset "account_id" (JStr acc) (jset "status" (JStr "authorized") l))) in
  ∃ w', AuthorizeDeviceCodeByHash h acc w = (Ok tt, w') ∧ w_now w' = w_now w ∧ w_net w' = [] ∧
    view w' (deviceCodeKey h) = Some (Entry (RStr (jobj l')) e).
Proof.
  intros Hn Hv Hwf Hp Hacc l'.
  enough (wp (AuthorizeDeviceCodeByHash h acc) (λ r w', r = Ok tt ∧ w_now w' = w_now w ∧ w_net w' = [] ∧
    view w' (deviceCodeKey h) = Some (Entry (RStr (jobj l')) e)) w) as Hwp.
  { apply wp_eq in Hwp as (r&w'&Heq&->&?). eauto. }
  unfold AuthorizeDeviceCodeByHash, authorizeByKey. wp_step. apply wp_gets. wp_step.
  eapply wp_rewritten; [intros; by apply authorize_rewrites|exact Hn|exact Hv|exact Hwf|exact Hp|..].
  - repeat apply jset_doc_wf; try done. apply clean_utf8, format_time_clean.
  - intros w' e' Hnow Hnet <- Hvw. wp_step. split_and!; try done. rewrite Hvw. by decide_keys.
Qed.

Lemma claim_ok code client l e dc w :
  w_net w = [] → view w (deviceCodeKey (HashToken code)) = Some (Entry (RStr (jobj l)) e) → doc_wf l →
  claimable client l = true →
  unmarshal_device (jobj (norm_members (jset "status" (JStr "used") l))) = Some dc →
  ∃ w', ClaimAuthorizedDeviceCode code client w = (Ok dc, w').
Proof.
  intros Hn Hv Hwf Hp Hdc.
  enough (wp (ClaimAuthorizedDeviceCode code client) (λ r w', r = Ok dc) w) as Hwp.
  { apply wp_eq in Hwp as (r&w'&Heq&->). eauto. }
  unfold ClaimAuthorizedDeviceCode. wp_step. apply wp_guard_err.
  { intros Hc. unfold claimable in Hp. by rewrite Hc in Hp. }
  intros _. wp_step. eapply wp_rewritten; [intros; by apply claim_rewrites|exact Hn|exact Hv|exact Hwf|exact Hp|..].
  - by apply jset_doc_wf.
  - intros w' e' _ _ _ _. rewrite Hdc. by wp_step.
Qed.

Lemma deadline_ahead t δ secs : 0 <= δ → δ + millisecond < secs * second →
  (t + δ) / millisecond < t / millisecond + secs * 1000.
Proof. unfold millisecond, second. intros. div_lia. Qed.

(** Approving a pending document and claiming it. *)
Lemma approve_and_claim code c acc l v deadline w δ e p cr :
  let h := HashToken code in let approved := w_now w / second * second in
  w_net w = [] → view w (deviceCodeKey h) = Some (Entry (RStr (jobj l)) (Some deadline)) → doc_wf l → holds l v →
  dv_scopes v ≠ [] → dv_status v = "pending" → dv_client v = c → c ≠ "" → utf8_valid acc = true →
  parse_time (dv_expires v) = Some e → parse_time (dv_poll v) = Some p → parse_time (dv_created v) = Some cr →
  0 <= year_of approved <= 9999 → 0 <= δ → now_ms (tick δ w) < deadline →
  ∃ w3 w4, AuthorizeDeviceCodeByHash h acc w = (Ok tt, w3) ∧
    ClaimAuthorizedDeviceCode code c (tick δ w3) =
      (Ok (mkDevice "" (dv_uc v) c acc (dv_scopes v) "used" e approved p (dv_int v) cr ""), w4).
Proof.
  intros h approved Hn Hv Hwf Hl Hsc Hst Hcl Hc Hacc He Hp Hcr Hy Hδ Hlt.
  set (at_ := format_time approved).
  assert (doc_wf (jset "authorized_at" (JStr at_) (jset "account_id" (JStr acc) (jset "status" (JStr "authorized") l))))
    as Hwf1 by (repeat apply jset_doc_wf; try done; apply clean_utf8, format_time_clean).
  destruct (authorize_ok h acc l (Some deadline) w Hn Hv Hwf) as (w3&Hauth&Hnow3&Hnet3&Hv3);
    [by apply field_is_true; rewrite (h_status _ _ Hl), Hst|done|].
  fold approved in Hv3. fold at_ in Hv3. set (l1 := norm_members _) in Hv3.
  destruct (cjson_encode_doc _ Hwf1) as [_ Hwfl1]. fold l1 in Hwfl1.
  assert (holds l1 (set_authorized acc at_ v)) as Hl1 by (apply holds_norm; [done|]; by apply holds_authorized).
  pose proof (holds_status "used" _ _ Hl1) as Hl2.
  assert (doc_wf (jset "status" (JStr "used") l1)) as Hwf2 by by apply jset_doc_wf.
  destruct (claim_ok code c l1 (Some deadline)
    (mkDevice "" (dv_uc v) c acc (dv_scopes v) "used" e approved p (dv_int v) cr "") (tick δ w3)) as [w4 Hclaim].
  - done.
  - rewrite view_tick by done. fold h. rewrite Hv3. apply live_before. unfold now_ms, tick in *. cbn in *. by rewrite Hnow3.
  - done.
  - unfold claimable. rewrite bool_decide_false by done. apply andb_true_iff. split; [apply andb_true_iff; split; [done|]|];
      apply field_is_true; [apply (h_status _ _ Hl1)|by rewrite (h_client _ _ Hl1), <-Hcl].
  - rewrite (unmarshal_holds _ (set_status "used" (set_authorized acc at_ v)) e approved p cr); [|by apply cjson_encode_doc|by apply holds_norm|try done..].
    + by rewrite <-Hcl.
    + by apply parse_format_time.
  - eauto.
Qed.

(** The device flow works end to end. With Redis up, after a code was created for
    client [c] with at least one scope: the user code leads to it while it is alive, the
    user's approval by hash succeeds, and the device's claim afterwards gives client,
    account, scopes and times; the secret is not stored. *)
Theorem device_flow c scopes acc w dc w1 δ1 δ2 :
  second <= dv_expiry cfg → w_net w = [] → scopes ≠ [] →
  forallb utf8_valid (c :: acc :: scopes) = true →
  CreateDeviceCode cfg c scopes w = (Ok dc, w1) →
  0 <= δ1 → 0 <= δ2 → δ1 + δ2 + millisecond < trunc_secs (dv_expiry cfg) * second →
  let approved := (w_now w + δ1) / second * second in
  0 <= year_of approved <= 9999 →
  ∃ w2 w3 w4,
    GetDeviceCodeByUserCode (dc_UserCode dc) (tick δ1 w1) =
      (Ok (mkDevice "" (dc_UserCode dc) c "" scopes "pending" (dc_ExpiresAt dc) zero_time zero_time (dc_Interval dc)
             (dc_CreatedAt dc) (HashToken (dc_DeviceCode dc))), w2) ∧
    AuthorizeDeviceCodeByHash (HashToken (dc_DeviceCode dc)) acc w2 = (Ok tt, w3) ∧
    ClaimAuthorizedDeviceCode (dc_DeviceCode dc) c (tick δ2 w3) =
      (Ok (mkDevice "" (dc_UserCode dc) c acc scopes "used" (dc_ExpiresAt dc) approved zero_time (dc_Interval dc)
             (dc_CreatedAt dc) ""), w4).
Proof.
  intros Hexp Hn Hsc Hutf Hcreate Hδ1 Hδ2 Hlt approved Hyear.
  destruct (create_effect c scopes w dc w1 Hexp Hn Hcreate)
    as ((secret&u&Hc&Hlen&Hchars&Hdc)&Hnow1&Hnet1&d&Hd&Hv1).
  destruct (dashed_normal u Hlen Hchars) as (_&_&Huc). set (h := HashToken (dc_DeviceCode dc)) in *.
  assert (dc_UserCode dc = dashed u) as Hdcu by by subst dc.
  (* the stored document *)
  unfold marshal_device in Hd. destruct (two_times _ _) as [[e a]|] eqn:Ht1; [|done].
  destruct (two_times (dc_LastPollAt _) _) as [[p cr]|] eqn:Ht2; [|done]. injection Hd as Hd.
  apply two_times_ok in Ht1 as [He Ha], Ht2 as [Hp Hcr].
  set (l := device_members (stored_of dc) e a p cr) in *. set (v := stored_values (stored_of dc) e a p cr).
  assert (doc_wf l) as Hwf.
  { apply members_doc_wf; [done|]. cbn [forallb app] in *. rewrite !andb_true_iff in *. destruct Hutf as (?&?&?).
    subst dc. split_and!; eauto using marshal_time_utf8. }
  assert (holds l v) as Hl by by apply members_hold.
  assert (dv_scopes v ≠ []) as Hsc' by by subst dc.
  (* reading it by the user code *)
  set (deadline := now_ms w + trunc_secs (dv_expiry cfg) * 1000) in *.
  assert (∀ δ, 0 <= δ → δ + millisecond < trunc_secs (dv_expiry cfg) * second → now_ms (tick δ w1) < deadline) as Hahead.
  { intros δ H1 H2. unfold now_ms, deadline. cbn. rewrite Hnow1. by apply deadline_ahead. }
  assert (now_ms (tick δ1 w1) < deadline) as Hlive1 by (apply Hahead; [done|unfold millisecond in *; lia]).
  destruct (get_by_user u h (jobj l) (stored_of dc) (tick δ1 w1) (Some deadline) (Some deadline))
    as (w2&Hget&Hq2&Hnet2); [done..| | | |].
  { rewrite view_tick, Hv1, Hdcu by done. decide_keys. by apply live_before. }
  { rewrite view_tick, Hv1, Hdcu by done. decide_keys. rewrite Hd. by apply live_before. }
  { rewrite (unmarshal_holds l v (dc_ExpiresAt dc) (dc_AuthorizedAt dc) (dc_LastPollAt dc) (dc_CreatedAt dc));
      [by subst dc|done|done|by apply marshal_time_ok..]. }
  destruct Hq2 as (Hnow2&_&_&_&Hv2). cbn in Hnow2. rewrite Hnow1 in Hnow2.
  destruct (approve_and_claim (dc_DeviceCode dc) c acc l v deadline w2 δ2 (dc_ExpiresAt dc) (dc_LastPollAt dc)
    (dc_CreatedAt dc)) as (w3&w4&Hauth&Hclaim); try done.
  { rewrite Hv2, view_tick, Hv1, Hdcu by done. decide_keys. fold h. decide_keys. rewrite Hd. by apply live_before. }
  { by subst dc. }
  { by subst dc. }
  { cbn [forallb] in Hutf. rewrite !andb_true_iff in Hutf. tauto. }
  { by apply marshal_time_ok. }
  { by apply marshal_time_ok. }
  { by apply marshal_time_ok. }
  { by rewrite Hnow2. }
  { unfold now_ms. cbn. rewrite Hnow2, <-Z.add_assoc. rewrite <-Hnow1. apply Hahead; unfold millisecond in *; lia. }
  rewrite Hnow2 in Hclaim. exists w2, w3, w4. subst dc. split_and!; [exact Hget|exact Hauth|exact Hclaim].
Qed.

(** ** The poll rate *)

(** An allowed poll leaves its time next to the document, with the same deadline. *)
Definition polled (V : string → option rentry) code secs : Prop :=
  ∃ d x, V (deviceCodeKey (HashToken code)) = Some (Entry (RStr d) x) ∧
         V (pollKey (HashToken code)) = Some (Entry (RStr (dec secs)) x).

Lemma poll_script_allows code secs interval now st :
  wp (checkAndUpdatePollRateScript (deviceCodeKey (HashToken code)) (pollKey (HashToken code)) secs interval now)
     (λ r st', ∀ z, r = Ok (Some z) → z = 0 ∨ polled (r_view st' now) code secs) st.
Proof.
  set (key := deviceCodeKey _). set (pk := pollKey _). assert (key ≠ pk) as Hne by apply deviceKey_poll.
  unfold checkAndUpdatePollRateScript.
  wp_step. apply wp_s_get. intros st1 Hst1. destruct (str_of _) as [[d|]|e]; [|wp_step; by intros ? [=]|by intros ? [=]].
  wp_step. apply wp_s_get. intros st2 Hst2.
  destruct (str_of (r_view st1 now pk)) as [last|e]; [|by intros ? [=]].
  assert (wp (tonumber last) (λ r st', st' = st2) st2) as Hnum
    by (destruct last as [v|]; unfold tonumber; [destruct (parse_int v)|]; by wp_step).
  wp_step. eapply wp_mono; [exact Hnum|]. intros [z|e] st2' ->; [|by intros ? [=]].
  destruct (_ && _); [wp_step; intros ? [= <-]; by left|]. wp_step. apply wp_s_pttl. intros st3 Hst3.
  wp_step. apply wp_set_pttl. intros st4 Hst4.
  wp_step. unfold cjson_decode. destruct (jparse d) as [[| | | | |l]|]; wp_step; try by intros ? [=].
  wp_step. apply wp_guard_err; [by intros _ ? [=]|intros _].
  wp_step. apply wp_set_pttl. intros st5 Hst5. wp_step. intros ? _. right. eexists _, _. split.
  - fold key. rewrite Hst5. by decide_keys.
  - fold pk. rewrite Hst5. decide_keys. rewrite Hst4. by decide_keys.
Qed.

Lemma poll_allows code w w' : CheckAndUpdatePollRate cfg code w = (Ok tt, w') →
  w_now w' = w_now w ∧ polled (view w') code (Unix (w_now w)).
Proof.
  intros Heq. enough (wp (CheckAndUpdatePollRate cfg code) (λ r w', r = Ok tt → w_now w' = w_now w ∧
    polled (view w') code (Unix (w_now w))) w) as Hwp by exact (wp_intro _ _ _ _ _ Heq Hwp eq_refl).
  unfold CheckAndUpdatePollRate, run_or_not_found. wp_step. apply wp_gets. wp_step. wp_step. wp_step.
  apply wp_redis_call; [|intros net; by wp_step]. intros net.
  eapply wp_mono; [apply poll_script_allows|]. intros r st' Hpoll. split; [|by wp_step].
  destruct r as [[z|]|e]; wp_step; [|done..]. apply wp_guard_err; [done|]. intros Hz _.
  apply Z.eqb_neq in Hz. destruct (Hpoll z eq_refl); done.
Qed.

(** Allowed polls are at least the interval apart. After a poll was allowed, another
    one of the same code within the interval (in whole seconds) is not, by whatever
    process and under any network behaviour. *)
Theorem poll_rate_enforced code w w' δ net :
  0 < Unix (w_now w) < 2 ^ 63 → CheckAndUpdatePollRate cfg code w = (Ok tt, w') → 0 <= δ →
  Unix (w_now w + δ) - Unix (w_now w) < trunc_secs (dv_interval cfg) →
  is_ok (CheckAndUpdatePollRate cfg code (put_net net (tick δ w'))).1 = false.
Proof.
  intros Hr Heq Hδ Hlt. destruct (poll_allows _ _ _ Heq) as (Hnow&d&x&Hkey&Hpoll).
  set (w2 := put_net net (tick δ w')).
  assert (∀ k, view w2 k = live (now_ms w2) (view w' k)) as Hv2
    by (intros k; change (view w2 k) with (view (tick δ w') k); by rewrite view_tick).
  assert (w_now w2 = w_now w + δ) as Hnow2 by (cbn; by rewrite Hnow).
  destruct (CheckAndUpdatePollRate cfg code w2) as [r w3] eqn:Heq2. cbn.
  enough (wp (CheckAndUpdatePollRate cfg code) (λ r w', is_ok r = false) w2) as Hwp by exact (wp_intro _ _ _ _ _ Heq2 Hwp).
  unfold CheckAndUpdatePollRate, run_or_not_found. wp_step. apply wp_gets. wp_step. wp_step. wp_step.
  apply wp_redis_call; [|intros net'; by wp_step]. intros net'.
  enough (wp (checkAndUpdatePollRateScript (deviceCodeKey (HashToken code)) (pollKey (HashToken code)) (Unix (w_now w2))
    (trunc_secs (dv_interval cfg)) (now_ms w2)) (λ r st', r = Ok None ∨ r = Ok (Some 0)) (w_redis w2)) as Hwp.
  { eapply wp_mono; [exact Hwp|]. intros r' st' Hr'. split; [|by wp_step].
    destruct Hr' as [->| ->]; wp_step; [done|]. by apply wp_guard_err. }
  unfold checkAndUpdatePollRateScript. wp_step. apply wp_s_get. intros st1 Hst1.
  change (r_view (w_redis w2) (now_ms w2) ?k) with (view w2 k). rewrite Hv2, Hkey. unfold live at 1.
  destruct (alive _ _) eqn:Halive; cbn [str_of]; [|wp_step; by left].
  wp_step. apply wp_s_get. intros st2 Hst2. rewrite (Hst1 (pollKey _)). change (r_view (w_redis w2) (now_ms w2) ?k) with (view w2 k).
  rewrite Hv2, Hpoll. unfold live. change (alive (now_ms w2) (Entry (RStr (dec (Unix (w_now w)))) x)) with (alive (now_ms w2) (Entry (RStr d) x)).
  rewrite Halive. cbn [str_of]. wp_step. unfold tonumber. rewrite parse_int_dec by lia. wp_step.
  rewrite Hnow2, (proj2 (Z.ltb_lt 0 _)), (proj2 (Z.ltb_lt _ (trunc_secs _))) by lia. cbn [andb]. wp_step. by right.
Qed.
End flow.
