(* ===== verification/GoStrings.v ===== *)
(** * Go's [strings], [unicode/utf8], [net] and [crypto/hmac] on the texts of requests *)
From S2P Require Import Prelude GoTime Json Hash Url.
Local Open Scope Z_scope.

(** ** Go's [strings] and [unicode/utf8] on the texts of requests

    A string is its bytes. White space is what [unicode.IsSpace] accepts, in UTF-8: the
    encodings start with bytes that never continue a character, so looking for them byte
    by byte finds exactly the space characters. *)
(** A space character of one, two or three bytes at the front. *)
Definition space1 (a : ascii) : bool := in_range 9 13 a || bool_decide (a = " "%char).
Definition space2 (a b : ascii) : bool := (code a =? 194)%N && ((code b =? 133) || (code b =? 160))%N.
Definition space3 (a b c : ascii) : bool :=
  ((code a =? 225) && (code b =? 154) && (code c =? 128))%N
  || ((code a =? 226) && (code b =? 128) && (in_range 128 138 c || (code c =? 168) || (code c =? 169) || (code c =? 175)))%N
  || ((code a =? 226) && (code b =? 129) && (code c =? 159))%N
  || ((code a =? 227) && (code b =? 128) && (code c =? 128))%N.
Definition strip_space (s : string) : option string :=
  match s with
  | EmptyString => None
  | String a s1 =>
      if space1 a then Some s1 else
      match s1 with
      | EmptyString => None
      | String b s2 =>
          if space2 a b then Some s2 else
          match s2 with
          | EmptyString => None
          | String c s3 => if space3 a b c then Some s3 else None
          end
      end
  end.

Fixpoint trim_left (fuel : nat) (s : string) : string :=
  match fuel with
  | O => s
  | S fuel => match strip_space s with Some r => trim_left fuel r | None => s end
  end.
Definition TrimLeftSpace (s : string) : string := trim_left (String.length s) s.
Definition only_space (s : string) : bool := bool_decide (TrimLeftSpace s = "").
(** The longest end that is only white space goes. *)
Fixpoint TrimRightSpace (s : string) : string :=
  if only_space s then "" else
  match s with EmptyString => EmptyString | String c s' => String c (TrimRightSpace s') end.
Definition TrimSpace (s : string) : string := TrimRightSpace (TrimLeftSpace s).

(** [strings.Fields]: [cur] is the field being read. *)
Fixpoint fields (fuel : nat) (cur s : string) : list string :=
  let flush := if bool_decide (cur = "") then [] else [cur] in
  match fuel with
  | O => flush
  | S fuel =>
      match strip_space s with
      | Some r => flush ++ fields fuel "" r
      | None => match s with
                | EmptyString => flush
                | String c r => fields fuel (cur +:+ String c "") r
                end
      end
  end.
Definition Fields (s : string) : list string := fields (S (String.length s)) "" s.

Definition slen (s : string) : Z := Z.of_nat (String.length s).

(** ** Facts *)
Lemma trim_left_length fuel s : (String.length (trim_left fuel s) <= String.length s)%nat.
Proof.
  revert s. induction fuel as [|fuel IH]; intros s; cbn; [done|].
  destruct (strip_space s) as [r|] eqn:Hr; [|done].
  enough (String.length r <= String.length s)%nat by (specialize (IH r); lia).
  unfold strip_space in Hr. repeat (case_match; simplify_eq/=); lia.
Qed.
Lemma TrimRightSpace_length s : (String.length (TrimRightSpace s) <= String.length s)%nat.
Proof. induction s as [|c s IH]; cbn; [done|]. case_match; cbn; lia. Qed.
Lemma TrimSpace_length s : slen (TrimSpace s) <= slen s.
Proof.
  unfold slen, TrimSpace, TrimLeftSpace.
  pose proof (TrimRightSpace_length (trim_left (String.length s) s)).
  pose proof (trim_left_length (String.length s) s). lia.
Qed.

Example trim_unicode : TrimSpace ("  a b" +:+ String "194" (String "160" "")) = "a b".
Proof. vm_compute. reflexivity. Qed.
Example fields_words : Fields " openid  admin profile" = ["openid"; "admin"; "profile"].
Proof. vm_compute. reflexivity. Qed.

(** ** Addresses, lower case and HMAC

    What the authentication services use of Go's [net], [strings] and [crypto/hmac], and
    [internal/utility/iputil.go]. An address is the eight 16-bit groups of its 16 bytes; an
    IPv4 address is the one with the prefix [::ffff]. Lower case beyond ASCII is the
    parameter [Lower]. *)
(** [strings.ToLower] and [strings.EqualFold] *)
Class Lower := {
  to_lower : string → string;
  to_lower_ascii s : sforall (λ c, (code c <? 128)%N) s = true → to_lower s = ToLower s;
  equal_fold : string → string → bool;
  equal_fold_ascii s t : sforall (λ c, (code c <? 128)%N) s = true → sforall (λ c, (code c <? 128)%N) t = true →
    equal_fold s t = bool_decide (ToLower s = ToLower t);
}.

(** ** [net.ParseIP] *)
Fixpoint parseIPv4Fields (s : string) (val digLen : N) (fields : list N) : option (list N) :=
  match s with
  | EmptyString => if (length fields =? 3)%nat then Some (fields ++ [val]) else None
  | String c s' =>
      if is_digit c then
        if ((digLen =? 1) && (val =? 0))%N then None
        else let val := (val * 10 + (code c - 48))%N in
             if (255 <? val)%N then None else parseIPv4Fields s' val (digLen + 1)%N fields
      else if bool_decide (c = "."%char) then
        if (digLen =? 0)%N || bool_decide (s' = "") then None
        else if (length fields =? 3)%nat then None
        else parseIPv4Fields s' 0%N 0%N (fields ++ [val])
      else None
  end.
Definition v4_groups (l : list N) : option (list N) :=
  match l with [a; b; c; d] => Some [a * 256 + b; c * 256 + d]%N | _ => None end.
Definition parse_v4 (s : string) : option (list N) := l ← parseIPv4Fields s 0%N 0%N []; v4_groups l.

(** The hexadecimal digits at the front, at most four; their number, value and the rest. *)
Fixpoint hex_run (s : string) (off : nat) (acc : N) : option (nat * N * string) :=
  match s with
  | EmptyString => Some (off, acc, EmptyString)
  | String c s' => if is_hex c then if (3 <? off)%nat then None else hex_run s' (S off) (acc * 16 + unhex c)%N
                   else Some (off, acc, s)
  end.
(** The loop over the groups, [n] of them left to fill; [ellipsis] is where [::] stood. *)
Fixpoint parse_groups (n : nat) (s : string) (ellipsis : option nat) (ip : list N) : option (list N * option nat) :=
  match n with
  | O => if bool_decide (s = "") then Some (ip, ellipsis) else None
  | S n' =>
      match hex_run s 0 0%N with
      | None | Some (O, _, _) => None
      | Some (_, acc, r) =>
          match r with
          | EmptyString => Some (ip ++ [acc], ellipsis)
          | String "." _ =>
              if bool_decide (ellipsis = None) && negb (length ip =? 6)%nat then None
              else if (6 <? length ip)%nat then None
              else l ← parse_v4 s; Some (ip ++ l, ellipsis)
          | String ":" EmptyString => None
          | String ":" (String ":" r') =>
              if bool_decide (is_Some ellipsis) then None
              else let e := Some (S (length ip)) in
                   if bool_decide (r' = "") then Some (ip ++ [acc], e) else parse_groups n' r' e (ip ++ [acc])
          | String ":" r' => parse_groups n' r' ellipsis (ip ++ [acc])
          | _ => None
          end
      end
  end.
Definition expand (ip : list N) (ellipsis : option nat) : option (list N) :=
  match ellipsis with
  | None => if (length ip =? 8)%nat then Some ip else None
  | Some e => if (length ip <? 8)%nat then Some (take e ip ++ replicate (8 - length ip) 0%N ++ drop e ip) else None
  end.
Definition parse_v6 (s : string) : option (list N) :=
  match strip_pre "::" s with
  | Some EmptyString => Some (replicate 8 0%N)
  | Some r => x ← parse_groups 8 r (Some 0%nat) []; expand x.1 x.2
  | None => x ← parse_groups 8 s None []; expand x.1 x.2
  end.
Definition v4_prefix : list N := [0; 0; 0; 0; 0; 65535]%N.
Inductive family : Type := V4 | V6.
(** The first of [.], [:] and [%] decides; an address with a zone is refused. *)
Fixpoint address_family (s : string) : option family :=
  match s with
  | EmptyString => None
  | String c s' => if bool_decide (c = "."%char) then Some V4 else if bool_decide (c = ":"%char) then Some V6
                   else if bool_decide (c = "%"%char) then None else address_family s'
  end.
Definition ParseAddr (s : string) : option (family * list N) :=
  f ← address_family s;
  match f with
  | V4 => l ← parse_v4 s; Some (V4, v4_prefix ++ l)
  | V6 => l ← parse_v6 s; Some (V6, l)
  end.
Definition ParseIP (s : string) : option (list N) := snd <$> ParseAddr s.

(** ** [IP.String] *)
Definition is_v4 (ip : list N) : bool := bool_decide (take 6 ip = v4_prefix).
Definition dec_n (n : N) : string := dec (Z.of_N n).
Definition v4_text (g : list N) : string :=
  match g with
  | [x; y] => dec_n (x / 256) +:+ "." +:+ dec_n (x mod 256) +:+ "." +:+ dec_n (y / 256) +:+ "." +:+ dec_n (y mod 256)
  | _ => ""
  end.
(** Without leading zeros. *)
Definition hex_text (n : N) : string :=
  let d k := String (hex_char (n / k mod 16)%N) EmptyString in
  (if (n <? 16)%N then d 1%N else if (n <? 256)%N then d 16%N +:+ d 1%N
   else if (n <? 4096)%N then d 256%N +:+ d 16%N +:+ d 1%N else d 4096%N +:+ d 256%N +:+ d 16%N +:+ d 1%N).
Fixpoint colons (l : list N) : string :=
  match l with
  | [] => ""
  | [x] => hex_text x
  | x :: l' => hex_text x +:+ ":" +:+ colons l'
  end.
Fixpoint zero_run (l : list N) : nat :=
  match l with x :: l' => if (x =? 0)%N then S (zero_run l') else O | [] => O end.
(** The first of the longest runs of at least two zero groups. *)
Definition longest_zeros (ip : list N) : nat * nat :=
  foldl (λ '(zs, ze) i, let l := zero_run (drop i ip) in
         if (2 <=? l)%nat && (ze - zs <? l)%nat then (i, (i + l)%nat) else (zs, ze)) (255%nat, 255%nat) (seq 0 8).
Definition v6_text (ip : list N) : string :=
  let '(zs, ze) := longest_zeros ip in
  if (zs =? 255)%nat then colons ip else colons (take zs ip) +:+ "::" +:+ colons (drop ze ip).
Definition IP_String (ip : list N) : string := if is_v4 ip then v4_text (drop 6 ip) else v6_text ip.

(** [internal/utility/iputil.go] *)
Definition NormalizeIP (ip : string) : string :=
  match ParseIP ip with None => "invalid" | Some p => IP_String p end.

(** ** Networks

    The bits of the mask are counted in the 32 or 128 bits of the addresses compared. *)
Record IPNet : Type := mkNet { in_v4 : bool; in_value : N; in_bits : N }.
Definition ip_value (ip : list N) : N := foldl (λ v g, v * 65536 + g)%N 0%N ip.
Definition masked_equal (width bits a b : N) : bool := (N.shiftr a (width - bits) =? N.shiftr b (width - bits))%N.
Definition Contains (n : IPNet) (ip : list N) : bool :=
  if is_v4 ip then in_v4 n && masked_equal 32 (in_bits n) (in_value n) (ip_value (drop 6 ip))
  else negb (in_v4 n) && masked_equal 128 (in_bits n) (in_value n) (ip_value ip).
(** [dtoi]: decimal digits only. *)
Definition mask_length (s : string) : option N :=
  if bool_decide (s = "") || negb (sforall is_digit s) then None
  else let n := foldl (λ v c, v * 10 + (code c - 48))%N 0%N (String.list_ascii_of_string s) in
       if (n <? 16777215)%N then Some n else None.
Definition ParseCIDR (s : string) : option IPNet :=
  '(addr, mask) ← cut "/" s;
  '(f, ip) ← ParseAddr addr;
  n ← mask_length mask;
  match f with
  | V4 => if (n <=? 32)%N then Some (mkNet true (ip_value (drop 6 ip)) n) else None
  | V6 => if negb (n <=? 128)%N then None
          else if is_v4 ip && (96 <=? n)%N then Some (mkNet true (ip_value (drop 6 ip)) (n - 96))
          else Some (mkNet false (ip_value ip) n)
  end.
(** Entries that do not parse are skipped. *)
Fixpoint parseIPAllowlist (entries : list string) : list IPNet :=
  match entries with
  | [] => []
  | entry :: l =>
      match ParseIP entry with
      | Some ip => (if is_v4 ip then mkNet true (ip_value (drop 6 ip)) 32 else mkNet false (ip_value ip) 128) :: parseIPAllowlist l
      | None => match ParseCIDR entry with Some n => n :: parseIPAllowlist l | None => parseIPAllowlist l end
      end
  end.

(** ** [crypto/hmac] with SHA-256, blocks of 64 bytes *)
Definition hmac_sha256 (key msg : string) : list N :=
  let k := if (64 <? String.length key)%nat then sha256 key else bytes_of key in
  let block := resize 64 0%N k in
  let pad x := string_of (map (N.lxor x) block) in
  sha256 (pad 92%N +:+ string_of (sha256 (pad 54%N +:+ msg))).
