(* ===== verification/AccountDomain.v ===== *)
(** * [internal/account/domain]: accounts, roles, credentials, federated identities

    A method that changes its receiver returns the changed record. Password hashing is
    Argon2id, the parameter [Argon2]; the encoding of its parameters is the program's. *)
From S2P Require Import Prelude GoTime Json Hash Url GoStrings.
Local Open Scope Z_scope.

Definition metadata : Type := list (string * json).

(** ** [account.go] *)
Record Account : Type := mkAccount {
  a_ID : string;
  a_Username : option string;
  a_DisplayName : string;
  a_AvatarURL : option string;
  a_Status : string;
  a_Locale : string;
  a_Timezone : string;
  a_Metadata : metadata;
  a_CreatedAt : Z;
  a_UpdatedAt : Z;
  a_DeletedAt : option Z;
}.

Definition ErrDisplayNameRequired := Sentinel "account: display name is required".
Definition ErrDisplayNameTooLong := Sentinel "account: display name must not exceed 255 characters".
Definition ErrAccountUsernameTooLong := Sentinel "account: username must not exceed 64 characters".
Definition ErrLocaleRequired := Sentinel "account: locale is required".
Definition ErrLocaleTooLong := Sentinel "account: locale must not exceed 10 characters".
Definition ErrTimezoneRequired := Sentinel "account: timezone is required".
Definition ErrAccountAlreadyDeleted := Sentinel "account: already deleted".
Definition ErrCannotSuspendDeleted := Sentinel "account: cannot suspend a deleted account".
Definition ErrCannotActivateDeleted := Sentinel "account: cannot activate a deleted account".
Definition ErrInvalidAccountStatus := Sentinel "account: invalid status for this operation".

Definition AccountStatusActive : string := "active".
Definition AccountStatusSuspended : string := "suspended".
Definition AccountStatusDeleted : string := "deleted".
Definition IsValidAccountStatus (s : string) : bool :=
  bool_decide (s ∈ [AccountStatusActive; AccountStatusSuspended; AccountStatusDeleted]).

Definition account_with_status (st : string) (updated : Z) (deleted : option Z) (a : Account) : Account :=
  mkAccount (a_ID a) (a_Username a) (a_DisplayName a) (a_AvatarURL a) st (a_Locale a) (a_Timezone a)
    (a_Metadata a) (a_CreatedAt a) updated deleted.

Definition Sanitize (a : Account) : Account :=
  mkAccount (a_ID a)
    (match a_Username a with
     | Some u => let trimmed := TrimSpace u in if bool_decide (trimmed = "") then None else Some trimmed
     | None => None end)
    (TrimSpace (a_DisplayName a)) (a_AvatarURL a) (a_Status a) (TrimSpace (a_Locale a)) (TrimSpace (a_Timezone a))
    (a_Metadata a) (a_CreatedAt a) (a_UpdatedAt a) (a_DeletedAt a).

Definition account_Validate (a : Account) : res unit :=
  if bool_decide (a_DisplayName a = "") then Err ErrDisplayNameRequired
  else if 255 <? slen (a_DisplayName a) then Err ErrDisplayNameTooLong
  else if match a_Username a with Some u => 64 <? slen u | None => false end then Err ErrAccountUsernameTooLong
  else if negb (IsValidAccountStatus (a_Status a)) then Err ErrInvalidAccountStatus
  else if bool_decide (a_Locale a = "") then Err ErrLocaleRequired
  else if 10 <? slen (a_Locale a) then Err ErrLocaleTooLong
  else if bool_decide (a_Timezone a = "") then Err ErrTimezoneRequired
  else Ok tt.

(** [NewAccount] at time [now] with an identifier from the UUID generator. *)
Definition NewAccount (now : Z) (id displayName : string) : res Account :=
  let a := Sanitize (mkAccount id None displayName None AccountStatusActive "en" "UTC" [] now now None) in
  match account_Validate a with Err e => Err e | Ok _ => Ok a end.

Definition account_IsDeleted (a : option Account) : bool :=
  match a with None => false | Some a => bool_decide (is_Some (a_DeletedAt a)) end.
Definition IsActive (a : option Account) : bool :=
  match a with
  | None => false
  | Some x => bool_decide (a_Status x = AccountStatusActive) && negb (account_IsDeleted a) end.
Definition IsSuspended (a : option Account) : bool :=
  match a with
  | None => false
  | Some x => bool_decide (a_Status x = AccountStatusSuspended) && negb (account_IsDeleted a) end.

Definition account_SoftDelete (now : Z) (a : option Account) : res Account :=
  match a with
  | None => Err ErrAccountAlreadyDeleted
  | Some x => if account_IsDeleted a then Err ErrAccountAlreadyDeleted
              else Ok (account_with_status AccountStatusDeleted now (Some now) x)
  end.
Definition Suspend (now : Z) (a : option Account) : res Account :=
  match a with
  | None => Err ErrInvalidAccountStatus
  | Some x =>
      if account_IsDeleted a then Err ErrCannotSuspendDeleted
      else if negb (bool_decide (a_Status x = AccountStatusActive)) then Err (Wrap (a_Status x) ErrInvalidAccountStatus)
      else Ok (account_with_status AccountStatusSuspended now (a_DeletedAt x) x)
  end.
Definition Activate (now : Z) (a : option Account) : res Account :=
  match a with
  | None => Err ErrInvalidAccountStatus
  | Some x =>
      if account_IsDeleted a then Err ErrCannotActivateDeleted
      else if negb (bool_decide (a_Status x = AccountStatusSuspended)) then Err (Wrap (a_Status x) ErrInvalidAccountStatus)
      else Ok (account_with_status AccountStatusActive now (a_DeletedAt x) x)
  end.

(** ** [role.go] *)
Record Role : Type := mkRole {
  r_ID : string;
  r_Name : string;
  r_Description : option string;
  r_Permissions : list string;
  r_Metadata : metadata;
  r_CreatedAt : Z;
  r_UpdatedAt : Z;
  r_DeletedAt : option Z;
}.
Definition ErrRoleNameRequired := Sentinel "role name is required".
Definition ErrRoleNameTooLong := Sentinel "role name must not exceed 255 characters".
Definition ErrRoleDescriptionTooLong := Sentinel "role description must not exceed 1024 characters".
Definition ErrRoleAlreadyDeleted := Sentinel "role is already deleted".

Definition NewRole (now : Z) (id name : string) (description : option string) : res Role :=
  let name := TrimSpace name in
  if bool_decide (name = "") then Err ErrRoleNameRequired
  else if 255 <? slen name then Err ErrRoleNameTooLong
  else if match description with Some d => 1024 <? slen d | None => false end then Err ErrRoleDescriptionTooLong
  else Ok (mkRole id name description [] [] now now None).

Definition role_IsDeleted (r : option Role) : bool :=
  match r with None => false | Some r => bool_decide (is_Some (r_DeletedAt r)) end.
Definition role_SoftDelete (now : Z) (r : option Role) : res Role :=
  match r with
  | None => Err ErrRoleAlreadyDeleted
  | Some x => if role_IsDeleted r then Err ErrRoleAlreadyDeleted
              else Ok (mkRole (r_ID x) (r_Name x) (r_Description x) (r_Permissions x) (r_Metadata x) (r_CreatedAt x) now (Some now))
  end.
Definition with_permissions (l : list string) (now : Z) (r : Role) : Role :=
  mkRole (r_ID r) (r_Name r) (r_Description r) l (r_Metadata r) (r_CreatedAt r) now (r_DeletedAt r).
Definition AddPermission (now : Z) (permission : string) (r : option Role) : option Role :=
  match r with
  | None => None
  | Some x =>
      let permission := TrimSpace permission in
      if bool_decide (permission = "") then r
      else if bool_decide (permission ∈ r_Permissions x) then r
      else Some (with_permissions (r_Permissions x ++ [permission]) now x)
  end.
(** The first occurrence goes. *)
Fixpoint remove_first (p : string) (l : list string) : option (list string) :=
  match l with
  | [] => None
  | q :: l' => if bool_decide (q = p) then Some l' else (q ::.) <$> remove_first p l'
  end.
Definition RemovePermission (now : Z) (permission : string) (r : option Role) : option Role :=
  match r with
  | None => None
  | Some x => match remove_first (TrimSpace permission) (r_Permissions x) with
              | Some l => Some (with_permissions l now x)
              | None => r end
  end.
Definition HasPermission (permission : string) (r : option Role) : bool :=
  match r with None => false | Some r => bool_decide (TrimSpace permission ∈ r_Permissions r) end.

(** ** [federated_identity.go] *)
Record FederatedIdentity : Type := mkIdentity {
  fi_ID : string;
  fi_AccountID : string;
  fi_Provider : string;
  fi_ProviderUserID : string;
  fi_Profile : option metadata;
  fi_CreatedAt : Z;
  fi_UpdatedAt : Z;
  fi_DeletedAt : option Z;
}.
Definition ErrFederatedIdentityAlreadyDeleted := Sentinel "federated identity is already deleted".
Definition ErrProviderRequired := Sentinel "provider is required".
Definition ErrUnsupportedProvider := Sentinel "unsupported provider".
Definition ErrProviderUserIDRequired := Sentinel "provider user ID is required".
Definition ErrProfileTooLarge := Sentinel "profile data exceeds maximum size".
Definition ErrAccountIDRequired := Sentinel "credential: account_id is required".
Definition maxProfileSize : Z := 4096.
Definition IsValidProvider (p : string) : bool := bool_decide (p ∈ ["google"; "github"; "wechat"]).

Definition NewFederatedIdentity (now : Z) (id accountID provider providerUserID : string) (profile : option metadata) :
    res FederatedIdentity :=
  if bool_decide (accountID = "") then Err ErrAccountIDRequired
  else if bool_decide (provider = "") then Err ErrProviderRequired
  else if negb (IsValidProvider provider) then Err (Wrap provider ErrUnsupportedProvider)
  else if bool_decide (providerUserID = "") then Err ErrProviderUserIDRequired
  else let profile := default [] profile in
       if maxProfileSize <? slen (jobj profile) then Err ErrProfileTooLarge
       else Ok (mkIdentity id accountID provider providerUserID (Some profile) now now None).
Definition identity_IsDeleted (fi : option FederatedIdentity) : bool :=
  match fi with None => false | Some x => bool_decide (is_Some (fi_DeletedAt x)) end.
Definition identity_SoftDelete (now : Z) (fi : option FederatedIdentity) : res FederatedIdentity :=
  match fi with
  | None => Err ErrFederatedIdentityAlreadyDeleted
  | Some x => if identity_IsDeleted fi then Err ErrFederatedIdentityAlreadyDeleted
              else Ok (mkIdentity (fi_ID x) (fi_AccountID x) (fi_Provider x) "" None (fi_CreatedAt x) now (Some now))
  end.
Definition UpdateProfile (now : Z) (profile : option metadata) (fi : option FederatedIdentity) : res (option FederatedIdentity) :=
  match fi with
  | None => Ok None
  | Some x => let profile := default [] profile in
              if maxProfileSize <? slen (jobj profile) then Err ErrProfileTooLarge
              else Ok (Some (mkIdentity (fi_ID x) (fi_AccountID x) (fi_Provider x) (fi_ProviderUserID x) (Some profile)
                               (fi_CreatedAt x) now (fi_DeletedAt x)))
  end.
