(* ===== verification/Credential.v ===== *)
(** * Credentials, password hashes and passkeys *)
From S2P Require Import Prelude GoTime Json Hash Url Redis World GoStrings AccountDomain.
Local Open Scope Z_scope.

(** ** [internal/account/domain/credential.go]: credentials and password hashes

    Argon2id, the tables of Unicode letters and [net/mail] are parameters. The textual form
    of a hash, which carries its own parameters, is printed and parsed here. *)
(** [argon2.IDKey(password, salt, time, memory, threads, keyLen)] *)
Class Argon2 := {
  argon2_key : string → list N → Z → Z → Z → nat → list N;
  argon2_length pw salt t m p n : length (argon2_key pw salt t m p n) = n;
  argon2_bytes pw salt t m p n : Forall (λ x, (x < 256)%N) (argon2_key pw salt t m p n);
}.
(** The classes of letters of package [unicode], on code points, for ASCII the usual ones. *)
Class Unicode := {
  uc_upper : N → bool;
  uc_lower : N → bool;
  uc_digit : N → bool;
  uc_ascii a : (code a < 128)%N →
    uc_upper (code a) = in_range 65 90 a ∧ uc_lower (code a) = in_range 97 122 a ∧ uc_digit (code a) = is_digit a;
}.
(** [mail.ParseAddress]: the address without the display name. *)
Class MailLib := { mail_parse : string → option string }.

(** ** [internal/utility]: passwords and telephone numbers *)
Definition MinPasswordLength : Z := 12.
Definition MaxPasswordLength : Z := 72.
Definition ErrUtilPasswordTooLong := Sentinel "password must not exceed 72 bytes".
Definition ErrPasswordTooShort := Sentinel "password must be at least 12 bytes".
Definition ErrPasswordComplexity := Sentinel "password must contain uppercase, lowercase, digit, and special character".
Definition allowedSpecialChars : string :=
  "!@#$%^&*()-_=+[]{}|;:',.<>?/`~" +:+ String dquote (String backslash EmptyString).

(** [range] over a string: its code points; a byte that starts none is U+FFFD. *)
Fixpoint code_points (s : string) : list N :=
  match s with
  | EmptyString => []
  | String a s1 =>
      if (bv a <? 128)%N then bv a :: code_points s1 else
      let bad := 65533%N :: code_points s1 in
      match s1 with
      | EmptyString => bad
      | String b s2 =>
          if rune2 a b then (bv a mod 32 * 64 + bv b mod 64)%N :: code_points s2 else
          match s2 with
          | EmptyString => bad
          | String c s3 =>
              if rune3 a b c then (bv a mod 16 * 4096 + bv b mod 64 * 64 + bv c mod 64)%N :: code_points s3 else
              match s3 with
              | EmptyString => bad
              | String d s4 =>
                  if rune4 a b c d
                  then (bv a mod 8 * 262144 + bv b mod 64 * 4096 + bv c mod 64 * 64 + bv d mod 64)%N :: code_points s4
                  else bad
              end
          end
      end
  end.

Definition ValidatePasswordStrength `{Unicode} (password : string) : res unit :=
  if MaxPasswordLength <? slen password then Err ErrUtilPasswordTooLong
  else if slen password <? MinPasswordLength then Err ErrPasswordTooShort
  else
    let cs := code_points password in
    let hasUpper := existsb uc_upper cs in
    let hasLower := existsb (λ c, negb (uc_upper c) && uc_lower c) cs in
    let hasDigit := existsb (λ c, negb (uc_upper c) && negb (uc_lower c) && uc_digit c) cs in
    let hasSpecial := existsb (λ c, negb (uc_upper c) && negb (uc_lower c) && negb (uc_digit c)
      && existsb (λ a, (code a =? c)%N) (String.list_ascii_of_string allowedSpecialChars)) cs in
    if negb hasUpper || negb hasLower || negb hasDigit || negb hasSpecial then Err ErrPasswordComplexity
    else Ok tt.

(** A plus sign or none, a digit from one to nine, six to fourteen digits. *)
Definition ValidatePhoneFormat (phone : string) : bool :=
  let digits := match phone with String "+" r => r | _ => phone end in
  match digits with
  | String c r => is_digit c && negb (bool_decide (c = "0"%char)) && sforall is_digit r && (6 <=? slen r) && (slen r <=? 14)
  | EmptyString => false
  end.

(** ** Passwords hashed with Argon2id *)
Definition Argon2Time : Z := 1.
Definition Argon2Memory : Z := 64 * 1024.
Definition Argon2Threads : Z := 4.
Definition Argon2SaltLen : nat := 16.
Definition Argon2KeyLen : nat := 32.
Definition argon2_Version : Z := 19.
Definition maxArgon2MemoryKiB : Z := 256 * 1024.
Definition maxArgon2Time : Z := 10.
Definition maxArgon2Threads : Z := 16.

(** [base64.RawStdEncoding]; the decoder skips line ends and ignores left-over bits. *)
Definition b64std_char (n : N) : ascii :=
  (if n <? 26 then ascii_of_N (65 + n) else if n <? 52 then ascii_of_N (71 + n)
   else if n <? 62 then ascii_of_N (n - 4) else if n =? 62 then "+"%char else "/"%char)%N.
Definition b64std_val (c : ascii) : option N :=
  (if is_upper c then Some (code c - 65) else if is_lower c then Some (code c - 71)
   else if is_digit c then Some (code c + 4) else if bool_decide (c = "+"%char) then Some 62
   else if bool_decide (c = "/"%char) then Some 63 else None)%N.
Fixpoint b64std_encode (l : list N) : string :=
  match l with
  | a :: b :: c :: l' =>
      String (b64std_char (a / 4)) (String (b64std_char (a mod 4 * 16 + b / 16))
        (String (b64std_char (b mod 16 * 4 + c / 64)) (String (b64std_char (c mod 64)) (b64std_encode l'))))
  | [a; b] =>
      String (b64std_char (a / 4)) (String (b64std_char (a mod 4 * 16 + b / 16))
        (String (b64std_char (b mod 16 * 4)) EmptyString))
  | [a] => String (b64std_char (a / 4)) (String (b64std_char (a mod 4 * 16)) EmptyString)
  | [] => EmptyString
  end.
Fixpoint sextets (s : string) : option (list N) :=
  match s with
  | EmptyString => Some []
  | String c s' => if one_of ["010"; "013"]%char c then sextets s'
                   else v ← b64std_val c; l ← sextets s'; Some (v :: l)
  end.
Fixpoint join_sextets (l : list N) : option (list N) :=
  match l with
  | a :: b :: c :: d :: l' =>
      r ← join_sextets l'; Some (a * 4 + b / 16 :: b mod 16 * 16 + c / 4 :: c mod 4 * 64 + d :: r)%N
  | [a; b; c] => Some [a * 4 + b / 16; b mod 16 * 16 + c / 4]%N
  | [a; b] => Some [a * 4 + b / 16]%N
  | [_] => None
  | [] => Some []
  end.
Definition b64std_decode (s : string) : option (list N) := l ← sextets s; join_sextets l.

(** [strings.Split] at every [c]. *)
Fixpoint Split (c : ascii) (s : string) : list string :=
  match s with
  | EmptyString => [EmptyString]
  | String d s' =>
      if bool_decide (c = d) then EmptyString :: Split c s'
      else match Split c s' with
           | x :: l => String d x :: l
           | [] => [String d EmptyString] end
  end.

(** What [%d] of [fmt.Sscanf] reads into an unsigned integer of [bits] bits, and the rest;
    spaces before it are skipped, line ends are not. *)
Fixpoint skip_spaces (s : string) : string :=
  match s with
  | String c s' => if space1 c && negb (bool_decide (c = "010"%char)) then skip_spaces s' else s
  | EmptyString => s
  end.
Fixpoint scan_digits (s : string) : list ascii * string :=
  match s with
  | String c s' => if is_digit c then let '(l, r) := scan_digits s' in (c :: l, r) else ([], s)
  | EmptyString => ([], s)
  end.
Definition digits_value (l : list ascii) : Z := foldl (λ v c, v * 10 + Z.of_N (code c - 48)) 0 l.
Definition scan_uint (bits : Z) (s : string) : option (Z * string) :=
  match scan_digits (skip_spaces s) with
  | ([], _) => None
  | (l, r) => if digits_value l <? 2 ^ bits then Some (digits_value l, r) else None
  end.
(** A signed 64-bit integer. *)
Definition scan_int (s : string) : option (Z * string) :=
  let '(neg, r) := match skip_spaces s with
    | String c r => if bool_decide (c = "-"%char) then (true, r) else if bool_decide (c = "+"%char) then (false, r)
                    else (false, String c r)
    | EmptyString => (false, "") end in
  match scan_digits r with
  | ([], _) => None
  | (l, rest) => let v := if neg then - digits_value l else digits_value l in
                 if (- 2 ^ 63 <=? v) && (v <? 2 ^ 63) then Some (v, rest) else None
  end.

Record argon2idParams : Type := mkParams { p_memory : Z; p_time : Z; p_threads : Z }.

Definition Sscanf_version (s : string) : option Z :=
  r ← strip_pre "v=" s; x ← scan_int r; Some x.1.
Definition Sscanf_params (s : string) : option argon2idParams :=
  r ← strip_pre "m=" s; m ← scan_uint 32 r;
  r ← strip_pre ",t=" m.2; t ← scan_uint 32 r;
  r ← strip_pre ",p=" t.2; p ← scan_uint 8 r;
  Some (mkParams m.1 t.1 p.1).

Definition parseArgon2idHash (encodedHash : string) : option (argon2idParams * list N * list N) :=
  match Split "$" encodedHash with
  | [_; name; version; params; salt; hash] =>
      if negb (bool_decide (name = "argon2id")) then None else
      v ← Sscanf_version version;
      if negb (bool_decide (v = argon2_Version)) && negb (bool_decide (v = argon2_Version - 1)) then None else
      p ← Sscanf_params params;
      if (p_memory p =? 0) || (maxArgon2MemoryKiB <? p_memory p) || (p_time p =? 0) || (maxArgon2Time <? p_time p)
         || (p_threads p =? 0) || (maxArgon2Threads <? p_threads p) then None else
      salt ← b64std_decode salt;
      if (Z.of_nat (length salt) <? 16) || (64 <? Z.of_nat (length salt)) then None else
      hash ← b64std_decode hash;
      if (Z.of_nat (length hash) <? 16) || (64 <? Z.of_nat (length hash)) then None else
      Some (p, salt, hash)
  | _ => None
  end.
Definition verifyArgon2id `{Argon2} (password encodedHash : string) : bool :=
  match parseArgon2idHash encodedHash with
  | None => false
  | Some (p, salt, hash) =>
      bool_decide (argon2_key password salt (p_time p) (p_memory p) (p_threads p) (length hash) = hash)
  end.

Definition encode_hash (salt hash : list N) : string :=
  "$argon2id$v=19$m=" +:+ dec Argon2Memory +:+ ",t=" +:+ dec Argon2Time +:+ ",p=" +:+ dec Argon2Threads
  +:+ "$" +:+ b64std_encode salt +:+ "$" +:+ b64std_encode hash.
Definition HashPassword `{Argon2} {R} (password : string) : M (World R) string :=
  let! salt := rand_read Argon2SaltLen in
  ret (encode_hash salt (argon2_key password salt Argon2Time Argon2Memory Argon2Threads Argon2KeyLen)).

(** ** [credential.go] *)
Definition ErrMustUseNewPasswordCredential := Sentinel "credential: must use NewPasswordCredential for password type".
Definition ErrCredPasswordRequired := Sentinel "credential: password must not be empty".
Definition ErrCredPasswordTooLong := Sentinel "credential: password exceeds maximum length".
Definition ErrEmailRequired := Sentinel "credential: email is required".
Definition ErrInvalidEmailFormat := Sentinel "credential: invalid email format".
Definition ErrPhoneRequired := Sentinel "credential: phone is required".
Definition ErrInvalidPhoneFormat := Sentinel "credential: invalid phone format".
Definition ErrCredentialAlreadyDeleted := Sentinel "credential: already deleted".

Definition CredentialTypePassword : string := "password".
Definition CredentialTypeEmail : string := "email".
Definition CredentialTypePhone : string := "phone".
Definition CredentialTypeTOTP : string := "totp".
Definition CredentialTypeWebAuthn : string := "webauthn".
Definition CredentialTypeBackupCode : string := "backup_code".
Definition IsValidCredentialType (t : string) : bool :=
  bool_decide (t ∈ [CredentialTypePassword; CredentialTypeEmail; CredentialTypePhone; CredentialTypeTOTP;
                    CredentialTypeWebAuthn; CredentialTypeBackupCode]).

Record Credential : Type := mkCredential {
  cr_ID : string;
  cr_AccountID : string;
  cr_Type : string;
  cr_Identifier : option string;
  cr_Value : string;
  cr_Verified : bool;
  cr_Primary : bool;
  cr_Metadata : metadata;
  cr_CreatedAt : Z;
  cr_UpdatedAt : Z;
  cr_VerifiedAt : option Z;
  cr_LastUsedAt : option Z;
  cr_DeletedAt : option Z;
}.

Definition newBaseCredential (now : Z) (id accountID credType : string) (identifier : option string) (value : string)
    (verified : bool) : Credential :=
  mkCredential id accountID credType identifier value verified false [] now now None None None.

Definition NewCredential (now : Z) (id accountID credType : string) (identifier : option string) (value : string) :
    res Credential :=
  if bool_decide (accountID = "") then Err ErrAccountIDRequired
  else if bool_decide (credType = CredentialTypePassword) then Err ErrMustUseNewPasswordCredential
  else Ok (newBaseCredential now id accountID credType identifier value false).

Definition NewPasswordCredential `{Argon2} `{Unicode} {R} (accountID plainPassword : string) : M (World R) Credential :=
  if bool_decide (accountID = "") then fail ErrAccountIDRequired
  else if bool_decide (plainPassword = "") then fail ErrCredPasswordRequired
  else if MaxPasswordLength <? slen plainPassword then fail ErrCredPasswordTooLong
  else
    lift_res (ValidatePasswordStrength plainPassword) ;;
    let! hashedPassword := HashPassword plainPassword in
    let! t := now in
    let! id := uuid_new in
    ret (newBaseCredential t id accountID CredentialTypePassword None hashedPassword true).

Definition NewEmailCredential `{MailLib} (now : Z) (id accountID email : string) : res Credential :=
  let email := TrimSpace email in
  if bool_decide (accountID = "") then Err ErrAccountIDRequired
  else if bool_decide (email = "") then Err ErrEmailRequired
  else match mail_parse email with
       | None => Err (Wrap "mail" ErrInvalidEmailFormat)
       | Some _ => Ok (newBaseCredential now id accountID CredentialTypeEmail (Some email) "" false)
       end.
Definition NewPhoneCredential (now : Z) (id accountID phone : string) : res Credential :=
  let phone := TrimSpace phone in
  if bool_decide (accountID = "") then Err ErrAccountIDRequired
  else if bool_decide (phone = "") then Err ErrPhoneRequired
  else if negb (ValidatePhoneFormat phone) then Err ErrInvalidPhoneFormat
  else Ok (newBaseCredential now id accountID CredentialTypePhone (Some phone) "" false).

Definition credential_IsDeleted (c : option Credential) : bool :=
  match c with None => false | Some c => bool_decide (is_Some (cr_DeletedAt c)) end.
Definition IsVerified (c : option Credential) : bool := match c with None => false | Some c => cr_Verified c end.

Definition credential_Verify (now : Z) (c : Credential) : Credential :=
  if cr_Verified c then c else
  mkCredential (cr_ID c) (cr_AccountID c) (cr_Type c) (cr_Identifier c) (cr_Value c) true (cr_Primary c) (cr_Metadata c)
    (cr_CreatedAt c) (cr_UpdatedAt c) (Some now) (cr_LastUsedAt c) (cr_DeletedAt c).
Definition MarkUsed (now : Z) (c : Credential) : Credential :=
  mkCredential (cr_ID c) (cr_AccountID c) (cr_Type c) (cr_Identifier c) (cr_Value c) (cr_Verified c) (cr_Primary c)
    (cr_Metadata c) (cr_CreatedAt c) (cr_UpdatedAt c) (cr_VerifiedAt c) (Some now) (cr_DeletedAt c).
Definition erased (at_ : Z) (updated : Z) (c : Credential) : Credential :=
  mkCredential (cr_ID c) (cr_AccountID c) (cr_Type c) None "" (cr_Verified c) (cr_Primary c) (cr_Metadata c)
    (cr_CreatedAt c) updated (cr_VerifiedAt c) (cr_LastUsedAt c) (Some at_).
Definition credential_SoftDelete (now : Z) (c : Credential) : res Credential :=
  if credential_IsDeleted (Some c) then Err ErrCredentialAlreadyDeleted else Ok (erased now now c).
Definition VerifyPassword `{Argon2} (c : option Credential) (plainPassword : string) : bool :=
  match c with
  | None => false
  | Some c => if negb (bool_decide (cr_Type c = CredentialTypePassword)) then false
              else verifyArgon2id plainPassword (cr_Value c)
  end.
Definition with_value (v : string) (c : Credential) : Credential :=
  mkCredential (cr_ID c) (cr_AccountID c) (cr_Type c) (cr_Identifier c) v (cr_Verified c) (cr_Primary c) (cr_Metadata c)
    (cr_CreatedAt c) (cr_UpdatedAt c) (cr_VerifiedAt c) (cr_LastUsedAt c) (cr_DeletedAt c).

(** ** The encoding of hashes is read back *)
Ltac n_div_lia := zify; div_lia.
Lemma b64std_val_char n : (n < 64)%N → b64std_val (b64std_char n) = Some n.
Proof.
  intros Hn. rewrite <-(N2Nat.id n). assert (N.to_nat n < 64)%nat as Hlt by lia. revert Hlt.
  generalize (N.to_nat n). clear n Hn. intros n Hn.
  do 64 (destruct n as [|n]; [vm_compute; reflexivity|]). lia.
Qed.
Lemma b64std_char_plain n : (n < 64)%N →
  one_of ["010"; "013"]%char (b64std_char n) = false ∧ b64std_char n ≠ "$"%char.
Proof.
  intros Hn. rewrite <-(N2Nat.id n). assert (N.to_nat n < 64)%nat as Hlt by lia. revert Hlt.
  generalize (N.to_nat n). clear n Hn. intros n Hn.
  do 64 (destruct n as [|n]; [vm_compute; split; [reflexivity|discriminate]|]). lia.
Qed.
Lemma sextets_char n s : (n < 64)%N → sextets (String (b64std_char n) s) = (l ← sextets s; Some (n :: l)).
Proof. intros Hn. cbn [sextets]. rewrite (proj1 (b64std_char_plain n Hn)), b64std_val_char by done. done. Qed.

(** Bytes in groups of three. *)
Lemma bytes_ind (P : list N → Prop) :
  P [] → (∀ a, P [a]) → (∀ a b, P [a; b]) → (∀ a b c l, P l → P (a :: b :: c :: l)) → ∀ l, P l.
Proof.
  intros H0 H1 H2 H3. fix IH 1. intros [|a [|b [|c l]]]; [exact H0|exact (H1 a)|exact (H2 a b)|].
  apply H3, IH.
Qed.

Lemma b64std_decode_encode l : Forall (λ x, (x < 256)%N) l → b64std_decode (b64std_encode l) = Some l.
Proof.
  induction l as [|a|a b|a b c l IH] using bytes_ind; intros Hl; [done| | |];
    repeat match goal with H : Forall _ (_ :: _) |- _ => apply Forall_cons in H as [? H] end;
    unfold b64std_decode; cbn [b64std_encode].
  - rewrite !sextets_char by (n_div_lia). cbn. do 2 f_equal.
    n_div_lia.
  - rewrite !sextets_char by (n_div_lia). cbn. repeat f_equal;
      n_div_lia.
  - specialize (IH Hl). unfold b64std_decode in IH.
    rewrite !sextets_char by (n_div_lia).
    destruct (sextets (b64std_encode l)) as [m|]; [|done]. cbn in IH |- *. rewrite IH. cbn. repeat f_equal;
      n_div_lia.
Qed.

Definition no_dollar (s : string) : bool := sforall (λ c, negb (bool_decide (c = "$"%char))) s.
Lemma b64std_no_dollar l : Forall (λ x, (x < 256)%N) l → no_dollar (b64std_encode l) = true.
Proof.
  assert (∀ n s, (n < 64)%N → no_dollar s = true → no_dollar (String (b64std_char n) s) = true) as Hstep.
  { intros n s Hn Hs. unfold no_dollar. cbn [sforall]. rewrite bool_decide_false by apply b64std_char_plain, Hn. exact Hs. }
  induction l as [|a|a b|a b c l IH] using bytes_ind; intros Hl;
    repeat match goal with H : Forall _ (_ :: _) |- _ => apply Forall_cons in H as [? H] end; [done| | |];
    cbn [b64std_encode]; repeat (apply Hstep; [n_div_lia|]); [done|done|by apply IH].
Qed.
Lemma Split_no_dollar s : no_dollar s = true → Split "$" s = [s].
Proof.
  induction s as [|c s IH]; [done|]. unfold no_dollar. cbn [sforall Split]. rewrite andb_true_iff, negb_true_iff, bool_decide_eq_false.
  intros [Hc Hs]. rewrite bool_decide_false by congruence. by rewrite IH.
Qed.
Lemma Split_app s t : no_dollar s = true → Split "$" (s +:+ String "$" t) = s :: Split "$" t.
Proof.
  induction s as [|c s IH]; [done|]. unfold no_dollar. cbn [sforall]. rewrite andb_true_iff, negb_true_iff, bool_decide_eq_false.
  intros [Hc Hs]. cbn [String.append Split]. rewrite bool_decide_false by congruence. by rewrite IH.
Qed.

Lemma parse_encode_hash salt hash :
  Forall (λ x, (x < 256)%N) salt → Forall (λ x, (x < 256)%N) hash → length salt = Argon2SaltLen → length hash = Argon2KeyLen →
  parseArgon2idHash (encode_hash salt hash) = Some (mkParams Argon2Memory Argon2Time Argon2Threads, salt, hash).
Proof.
  intros Hs Hh Hls Hlh. unfold parseArgon2idHash.
  assert (Split "$" (encode_hash salt hash) =
    ["" ; "argon2id"; "v=19"; "m=65536,t=1,p=4"; b64std_encode salt; b64std_encode hash]) as ->.
  { change (encode_hash salt hash) with
      ("" +:+ String "$" ("argon2id" +:+ String "$" ("v=19" +:+ String "$" ("m=65536,t=1,p=4" +:+ String "$"
        (b64std_encode salt +:+ String "$" (b64std_encode hash)))))).
    rewrite !Split_app by first [done | by apply b64std_no_dollar]. by rewrite Split_no_dollar by by apply b64std_no_dollar. }
  rewrite bool_decide_true by done. cbn [negb].
  change (Sscanf_version "v=19") with (Some 19). change (Sscanf_params "m=65536,t=1,p=4") with (Some (mkParams 65536 1 4)).
  cbn -[b64std_decode b64std_encode]. rewrite !b64std_decode_encode by done.
  cbn -[b64std_decode b64std_encode]. by rewrite Hls, Hlh.
Qed.
(** A hashed password verifies exactly the passwords with the same key under its salt. *)
Lemma verify_encoded `{Argon2} salt pw pw' : length salt = Argon2SaltLen → Forall (λ x, (x < 256)%N) salt →
  verifyArgon2id pw' (encode_hash salt (argon2_key pw salt Argon2Time Argon2Memory Argon2Threads Argon2KeyLen)) =
  bool_decide (argon2_key pw' salt Argon2Time Argon2Memory Argon2Threads Argon2KeyLen =
               argon2_key pw salt Argon2Time Argon2Memory Argon2Threads Argon2KeyLen).
Proof.
  intros Hl Hs. unfold verifyArgon2id. rewrite parse_encode_hash by (done || apply argon2_bytes || apply argon2_length).
  cbn [p_time p_memory p_threads]. by rewrite argon2_length.
Qed.

(** ** [internal/auth/domain/webauthn.go]: passkeys

    The record of a passkey and the form in which the WebAuthn library gets it. *)
Definition ErrWebAuthnAccountIDRequired := Sentinel "webauthn: account_id is required".
Definition ErrWebAuthnCredentialIDRequired := Sentinel "webauthn: credential_id is required".
Definition ErrWebAuthnPublicKeyRequired := Sentinel "webauthn: public_key is required".
Definition ErrWebAuthnAlreadyDeleted := Sentinel "webauthn: credential already deleted".
Definition ErrWebAuthnNameTooLong := Sentinel "webauthn: name exceeds maximum length".
Definition maxWebAuthnNameLength : Z := 255.

Record WebAuthnCredential : Type := mkPasskey {
  wc_ID : string;
  wc_AccountID : string;
  wc_CredentialID : list N;
  wc_PublicKey : list N;
  wc_SignCount : N;
  wc_AAGUID : list N;
  wc_Transports : list string;
  wc_AttestationType : string;
  wc_Name : string;
  wc_Flags : N;
  wc_Verified : bool;
  wc_CreatedAt : Z;
  wc_UpdatedAt : Z;
  wc_LastUsedAt : option Z;
  wc_DeletedAt : option Z;
}.

Record NewWebAuthnCredentialParams : Type := mkPasskeyParams {
  np_AccountID : string;
  np_CredentialID : list N;
  np_PublicKey : list N;
  np_AttestationType : string;
  np_Transports : list string;
  np_SignCount : N;
  np_AAGUID : list N;
  np_Name : string;
}.
Definition NewWebAuthnCredential (now : Z) (id : string) (p : NewWebAuthnCredentialParams) : res WebAuthnCredential :=
  if bool_decide (np_AccountID p = "") then Err ErrWebAuthnAccountIDRequired
  else if bool_decide (np_CredentialID p = []) then Err ErrWebAuthnCredentialIDRequired
  else if bool_decide (np_PublicKey p = []) then Err ErrWebAuthnPublicKeyRequired
  else if maxWebAuthnNameLength <? slen (np_Name p) then Err ErrWebAuthnNameTooLong
  else Ok (mkPasskey id (np_AccountID p) (np_CredentialID p) (np_PublicKey p) (np_SignCount p) (np_AAGUID p) (np_Transports p)
             (np_AttestationType p) (np_Name p) 0 false now now None None).

(** The changes of a record: flags, counter, use, deletion. *)
Definition with_flags (flags : N) (c : WebAuthnCredential) : WebAuthnCredential :=
  mkPasskey (wc_ID c) (wc_AccountID c) (wc_CredentialID c) (wc_PublicKey c) (wc_SignCount c) (wc_AAGUID c) (wc_Transports c)
    (wc_AttestationType c) (wc_Name c) flags (wc_Verified c) (wc_CreatedAt c) (wc_UpdatedAt c) (wc_LastUsedAt c) (wc_DeletedAt c).
Definition with_sign_count (n : N) (c : WebAuthnCredential) : WebAuthnCredential :=
  mkPasskey (wc_ID c) (wc_AccountID c) (wc_CredentialID c) (wc_PublicKey c) n (wc_AAGUID c) (wc_Transports c)
    (wc_AttestationType c) (wc_Name c) (wc_Flags c) (wc_Verified c) (wc_CreatedAt c) (wc_UpdatedAt c) (wc_LastUsedAt c) (wc_DeletedAt c).
Definition verified_passkey (c : WebAuthnCredential) : WebAuthnCredential :=
  mkPasskey (wc_ID c) (wc_AccountID c) (wc_CredentialID c) (wc_PublicKey c) (wc_SignCount c) (wc_AAGUID c) (wc_Transports c)
    (wc_AttestationType c) (wc_Name c) (wc_Flags c) true (wc_CreatedAt c) (wc_UpdatedAt c) (wc_LastUsedAt c) (wc_DeletedAt c).
Definition passkey_MarkUsed (now : Z) (c : WebAuthnCredential) : WebAuthnCredential :=
  mkPasskey (wc_ID c) (wc_AccountID c) (wc_CredentialID c) (wc_PublicKey c) (wc_SignCount c) (wc_AAGUID c) (wc_Transports c)
    (wc_AttestationType c) (wc_Name c) (wc_Flags c) (wc_Verified c) (wc_CreatedAt c) (wc_UpdatedAt c) (Some now) (wc_DeletedAt c).
Definition passkey_IsDeleted (c : option WebAuthnCredential) : bool :=
  match c with None => false | Some c => bool_decide (is_Some (wc_DeletedAt c)) end.
Definition passkey_SoftDelete (now : Z) (c : option WebAuthnCredential) : res WebAuthnCredential :=
  match c with
  | None => Err ErrWebAuthnAlreadyDeleted
  | Some c =>
      if bool_decide (is_Some (wc_DeletedAt c)) then Err ErrWebAuthnAlreadyDeleted
      else Ok (mkPasskey (wc_ID c) (wc_AccountID c) (wc_CredentialID c) (wc_PublicKey c) (wc_SignCount c) (wc_AAGUID c) (wc_Transports c)
                 (wc_AttestationType c) (wc_Name c) (wc_Flags c) (wc_Verified c) (wc_CreatedAt c) now (wc_LastUsedAt c) (Some now))
  end.

(** ** As the library gets them *)
Record WaCredential : Type := mkWaCredential {
  wa_ID : list N;
  wa_PublicKey : list N;
  wa_AttestationType : string;
  wa_Flags : N;
  wa_AAGUID : list N;
  wa_SignCount : N;
  wa_Transport : list string;
}.
Definition ToWebAuthnCredential (c : WebAuthnCredential) : WaCredential :=
  mkWaCredential (wc_CredentialID c) (wc_PublicKey c) (wc_AttestationType c) (wc_Flags c) (wc_AAGUID c) (wc_SignCount c) (wc_Transports c).
Record WebAuthnUser : Type := mkWaUser {
  wu_accountID : string;
  wu_username : string;
  wu_displayName : string;
  wu_credentials : list WaCredential;
}.
Definition NewWebAuthnUser (accountID username displayName : string) (creds : list WebAuthnCredential) : WebAuthnUser :=
  mkWaUser accountID username displayName (map ToWebAuthnCredential creds).

(** A row of [webauthn_credentials]: the column [credential_id] is text of its own. *)
Record PasskeyRow : Type := mkPasskeyRow { pr_cred : WebAuthnCredential; pr_credential_id : string }.
