(* ===== verification/Database.v ===== *)
(** * The SQL database and rules for statements and transactions *)
From S2P Require Import Prelude GoTime Json Redis World OAuthDomain AccountDomain Credential.
Local Open Scope Z_scope.

(** ** The SQL database: [internal/db] and the tables

    PostgreSQL is not part of the program; the statements the repositories send are. A
    statement is a definition over the tables, with the documented meaning of its text:
    conditions, unique indexes, column widths, the trigger that sets [updated_at]. Its
    round trip may fail. Transactions run at READ COMMITTED: between two statements of
    one transaction others may commit ([db_others]). *)
(** A timestamp column keeps microseconds. Texts are sorted by a collation. *)
Class Postgres := {
  pg_round : Z → Z;
  pg_round_idem t : pg_round (pg_round t) = pg_round t;
  (** the collation texts are ordered by *)
  pg_le : string → string → bool;
}.

(** The tables of accounts. *)
Record Assignment : Type := mkAssignment {
  as_AccountID : string;
  as_RoleID : string;
  as_CreatedAt : Z;
  as_DeletedAt : option Z;
}.
Record People : Type := mkPeople {
  t_accounts : gmap string Account;
  t_credentials : gmap string Credential;
  t_identities : gmap string FederatedIdentity;
  t_roles : gmap string Role;
  t_account_roles : list Assignment;
}.
(** The rows by primary key; the client of a consent row is the primary key of a client. *)
Record Tables : Type := mkTables {
  t_clients : gmap string OAuth2Client;
  t_consents : gmap string Consent;
  t_people : People;
  t_passkeys : gmap string PasskeyRow;
}.

(** [db_tables] is what our statements see; [db_base] is what rolling back the current
    transaction would restore. *)
Record DB : Type := mkDB {
  db_base : Tables;
  db_tables : Tables;
  db_ids : list string;
  db_fates : list fate;
  db_others : list (Tables → Tables);
}.

(** The state of a process that uses both stores. *)
Record App (R : Type) : Type := mkApp { ap_world : World R; ap_db : DB }.
Arguments mkApp {R}. Arguments ap_world {R}. Arguments ap_db {R}.

Definition ErrDatabase : err := Anon "driver: bad connection".
Definition ErrNoRows : err := Sentinel "sql: no rows in result set".
Definition ErrUniqueViolation : err := Sentinel "SQLSTATE 23505".
Definition ErrTooLong : err := Anon "SQLSTATE 22001: value too long for type character varying".

Section database.
Context {R : Type}.
Implicit Types a : App R.

Definition in_world {A} (m : M (World R) A) : M (App R) A := λ a,
  let '(r, w) := m (ap_world a) in (r, mkApp w (ap_db a)).
Definition app_now : M (App R) Z := gets (λ a, w_now (ap_world a)).
Definition put_db (d : DB) a : App R := mkApp (ap_world a) d.
Definition set_tables (t : Tables) (d : DB) : DB := mkDB (db_base d) t (db_ids d) (db_fates d) (db_others d).
Definition set_base (t : Tables) (d : DB) : DB := mkDB t (db_tables d) (db_ids d) (db_fates d) (db_others d).

(** What other transactions have committed by now. *)
Definition others_commit (d : DB) : DB :=
  match db_others d with
  | [] => d
  | g :: l => mkDB (g (db_base d)) (g (db_tables d)) (db_ids d) (db_fates d) l
  end.
Definition next_fate (d : DB) : fate * DB :=
  match db_fates d with
  | [] => (Delivered, d)
  | x :: l => (x, mkDB (db_base d) (db_tables d) (db_ids d) l (db_others d))
  end.

(** One statement: [f] sees the tables and the identifiers the database will generate. *)
Definition statement {A} (f : Tables → list string → res A * Tables * list string) : M (App R) A := λ a,
  let '(x, d) := next_fate (others_commit (ap_db a)) in
  match x with
  | Refused => (Err ErrDatabase, put_db d a)
  | _ =>
      let '(r, t, ids) := f (db_tables d) (db_ids d) in
      let d' := mkDB (db_base d) t ids (db_fates d) (db_others d) in
      ((match x with Delivered => r | _ => Err ErrDatabase end), put_db d' a)
  end.

Definition begin_tx : M (App R) unit := λ a,
  let '(x, d) := next_fate (ap_db a) in
  match x with
  | Delivered => (Ok tt, put_db (set_base (db_tables d) d) a)
  | _ => (Err ErrDatabase, put_db d a)
  end.
Definition rollback : M (App R) unit := modify (λ a, put_db (set_tables (db_base (ap_db a)) (ap_db a)) a).
(** A commit that is refused leaves nothing; its reply may also be lost after it took
    effect. *)
Definition commit_tx : M (App R) unit := λ a,
  let '(x, d) := next_fate (ap_db a) in
  match x with
  | Delivered => (Ok tt, put_db (set_base (db_tables d) d) a)
  | ReplyLost => (Err ErrDatabase, put_db (set_base (db_tables d) d) a)
  | Refused => (Err ErrDatabase, put_db d a)
  end.

(** [RunInTransaction]; an error of the rollback itself is only joined to the first. *)
Definition RunInTransaction {A} (fn : M (App R) A) : M (App R) A :=
  wrap "begin transaction" begin_tx ;;
  let! r := try fn in
  match r with
  | Err e => rollback ;; fail e
  | Ok x =>
      let! c := try commit_tx in
      match c with
      | Err e => rollback ;; fail (Wrap "commit transaction" e)
      | Ok _ => ret x
      end
  end.
End database.

(** ** Columns and rows *)

(** The number of characters of UTF-8 text. *)
Fixpoint char_count (s : string) : Z :=
  match s with EmptyString => 0 | String c s' => (if cont c then 0 else 1) + char_count s' end.

Definition live_client (c : OAuth2Client) : bool := negb (bool_decide (is_Some (oc_DeletedAt c))).
Definition live_consent (c : Consent) : bool := negb (bool_decide (is_Some (co_DeletedAt c))).

(** The row that a condition selects, where a unique index allows at most one. *)
Definition select_one {A} (p : A → bool) (m : gmap string A) : option A :=
  head (List.filter p (map snd (map_to_list m))).
Definition client_row (t : Tables) (clientID : string) : option OAuth2Client :=
  select_one (λ c, bool_decide (oc_ClientID c = clientID) && live_client c) (t_clients t).
Definition put_client (c : OAuth2Client) (t : Tables) : Tables :=
  mkTables (<[oc_ID c := c]> (t_clients t)) (t_consents t) (t_people t) (t_passkeys t).
Definition put_consent (c : Consent) (t : Tables) : Tables :=
  mkTables (t_clients t) (<[co_ID c := c]> (t_consents t)) (t_people t) (t_passkeys t).
Definition put_people (p : People) (t : Tables) : Tables := mkTables (t_clients t) (t_consents t) p (t_passkeys t).

(** ** Rules for statements and transactions

    [hoare P m Q]: [m] keeps the property [P] of the database whatever happens, and its
    result satisfies [Q] when it succeeds. Two properties are used throughout: an
    invariant of the tables that other transactions keep too ([db_inv]), and that the
    tables to return to on a rollback stay ([at_base]). *)
(** No other transaction commits meanwhile, no answer of the database is lost. *)
Definition alone (d : DB) : Prop := db_others d = [].
Definition answered (d : DB) : Prop := Forall (λ x, x ≠ ReplyLost) (db_fates d).

Definition keeps (I : Tables → Prop) (g : Tables → Tables) : Prop := ∀ t, I t → I (g t).
Definition db_inv (I : Tables → Prop) (d : DB) : Prop :=
  I (db_base d) ∧ I (db_tables d) ∧ Forall (keeps I) (db_others d).
Definition at_base (b : Tables) (d : DB) : Prop := db_base d = b ∧ alone d ∧ answered d.

Ltac wp_unfold := lazymatch goal with |- wp ?m ?Q ?s => change (Q (m s).1 (m s).2) end.

Section rules.
Context {R : Type}.
Implicit Types (a : App R) (P : DB → Prop) (I : Tables → Prop).

Definition hoare {A} P (m : M (App R) A) (Q : A → Prop) : Prop :=
  ∀ a, P (ap_db a) → wp m (λ r a', P (ap_db a') ∧ ∀ x, r = Ok x → Q x) a.

Lemma hoare_ret {A} P (x : A) (Q : A → Prop) : Q x → hoare P (ret x) Q.
Proof. intros HQ a Ha. split; [exact Ha|]. by intros y [= <-]. Qed.
Lemma hoare_fail {A} P e (Q : A → Prop) : hoare P (fail e) Q.
Proof. by intros a Ha. Qed.
Lemma hoare_lift {A} P (r : res A) (Q : A → Prop) : (∀ x, r = Ok x → Q x) → hoare P (lift_res r) Q.
Proof. intros HQ a Ha. split; [exact Ha|exact HQ]. Qed.
Lemma hoare_bind {A B} P (m : M (App R) A) (k : A → M (App R) B) Q1 (Q2 : B → Prop) :
  hoare P m Q1 → (∀ x, Q1 x → hoare P (k x) Q2) → hoare P (bind m k) Q2.
Proof.
  intros Hm Hk a Ha. apply wp_bind. eapply wp_mono; [apply Hm, Ha|].
  intros [x|e] a' [HP HQ]; [apply (Hk x (HQ x eq_refl)), HP|]. split; [exact HP|by intros y [=]].
Qed.
Lemma hoare_try {A} P (m : M (App R) A) (Q : A → Prop) :
  hoare P m Q → hoare P (try m) (λ r, ∀ x, r = Ok x → Q x).
Proof.
  intros Hm a Ha. apply wp_try. eapply wp_mono; [apply Hm, Ha|]. intros r a' [HP HQ]. split; [exact HP|].
  by intros x [= ->].
Qed.
Lemma hoare_wrap {A} P ctx (m : M (App R) A) (Q : A → Prop) : hoare P m Q → hoare P (wrap ctx m) Q.
Proof.
  intros Hm a Ha. apply wp_wrap. eapply wp_mono; [apply Hm, Ha|]. intros r a' [HP HQ]. split; [exact HP|].
  intros x. destruct r; [apply HQ|done].
Qed.
(** A check that succeeded. *)
Lemma hoare_check {A B} P ctx (r : res A) (k : A → M (App R) B) (Q : B → Prop) :
  (∀ x, r = Ok x → hoare P (k x) Q) →
  hoare P (bind (lift_res r) k) Q ∧ hoare P (bind (wrap ctx (lift_res r)) k) Q.
Proof.
  intros Hk. split; (eapply hoare_bind with (Q1 := λ x, r = Ok x); [|exact Hk]);
    [|apply hoare_wrap]; by apply hoare_lift.
Qed.
Lemma hoare_skip {A B} P (m : M (App R) A) (k : A → M (App R) B) (Q : B → Prop) :
  hoare P m (λ _, True) → (∀ x, hoare P (k x) Q) → hoare P (bind m k) Q.
Proof. intros Hm Hk. eapply hoare_bind; [exact Hm|auto]. Qed.
Lemma hoare_guard P (b : bool) e (Q : unit → Prop) : (b = false → Q tt) → hoare P (guard_err b e) Q.
Proof. intros HQ. destruct b; [apply hoare_fail|by apply hoare_ret, HQ]. Qed.
Lemma hoare_in_world {A} P (m : M (World R) A) (Q : A → Prop) :
  (∀ w x, (m w).1 = Ok x → Q x) → hoare P (in_world m) Q.
Proof.
  intros HQ a Ha. unfold wp, in_world. specialize (HQ (ap_world a)). destruct (m (ap_world a)) as [r w].
  by split; [exact Ha|].
Qed.
Lemma hoare_app_now P (Q : Z → Prop) : (∀ t, Q t) → hoare P app_now Q.
Proof. intros HQ a Ha. by split; [exact Ha|]. Qed.
Lemma hoare_mono {A} P (m : M (App R) A) (Q1 Q2 : A → Prop) :
  hoare P m Q1 → (∀ x, Q1 x → Q2 x) → hoare P m Q2.
Proof. intros Hm HQ a Ha. eapply wp_mono; [apply Hm, Ha|]. naive_solver. Qed.
Lemma hoare_and {A} P (m : M (App R) A) (Q1 Q2 : A → Prop) :
  hoare P m Q1 → hoare P m Q2 → hoare P m (λ x, Q1 x ∧ Q2 x).
Proof. intros H1 H2 a Ha. destruct (H1 a Ha) as [HP HQ1], (H2 a Ha) as [_ HQ2]. unfold wp. naive_solver. Qed.
Lemma hoare_run {A} P (m : M (App R) A) Q a r a' :
  hoare P m Q → P (ap_db a) → m a = (r, a') → P (ap_db a') ∧ ∀ x, r = Ok x → Q x.
Proof. intros Hm Ha Heq. exact (wp_intro _ _ _ _ _ Heq (Hm a Ha)). Qed.

(** ** An invariant of the tables *)
Lemma db_inv_others I d : db_inv I d → db_inv I (others_commit d).
Proof.
  intros (Hb&Ht&Ho). unfold others_commit. destruct (db_others d) as [|g l] eqn:Hd; [by split_and!; rewrite ?Hd|].
  apply Forall_cons in Ho as [Hg Hl]. split_and!; cbn; auto.
Qed.
Lemma next_fate_same d : db_base (next_fate d).2 = db_base d ∧ db_tables (next_fate d).2 = db_tables d
  ∧ db_others (next_fate d).2 = db_others d ∧ db_ids (next_fate d).2 = db_ids d.
Proof. unfold next_fate. by destruct (db_fates d). Qed.
Lemma db_inv_fate I d : db_inv I d → db_inv I (next_fate d).2.
Proof. unfold db_inv. destruct (next_fate_same d) as (->&->&->&_). done. Qed.

Lemma hoare_statement_inv {A} I (f : Tables → list string → res A * Tables * list string) (Q : A → Prop) :
  (∀ t ids, I t → I (f t ids).1.2 ∧ ∀ x, (f t ids).1.1 = Ok x → Q x) → hoare (db_inv I) (statement f) Q.
Proof.
  intros Hf a Ha. unfold wp, statement. apply db_inv_others, db_inv_fate in Ha.
  destruct (next_fate _) as [x d]. cbn [fst snd] in Ha. destruct Ha as (Hb&Ht&Ho).
  specialize (Hf (db_tables d) (db_ids d) Ht). destruct (f _ _) as [[r t] ids]. cbn [fst snd] in Hf.
  destruct x; (split; [unfold db_inv; cbn; by split_and!; try apply Hf|]); cbn; try by intros y [=]. apply Hf.
Qed.

Lemma hoare_tx_inv {A} I (fn : M (App R) A) (Q : A → Prop) :
  hoare (db_inv I) fn Q → hoare (db_inv I) (RunInTransaction fn) Q.
Proof.
  intros Hfn. unfold RunInTransaction.
  assert (∀ e, hoare (db_inv I) (rollback (R:=R) ;; fail e) Q) as Hrb.
  { intros e. eapply hoare_bind with (Q1 := λ _, True); [|intros; apply hoare_fail].
    intros a (Hb&Ht&Ho). by split_and!. }
  eapply hoare_bind with (Q1 := λ _, True).
  { apply hoare_wrap. intros a Ha. unfold wp, begin_tx. pose proof (db_inv_fate _ _ Ha) as Hd.
    destruct (next_fate _) as [[] d]; cbn in *; destruct Hd as (?&?&?); by split_and!. }
  intros _ _. eapply hoare_bind; [apply hoare_try, Hfn|]. intros [x|e] HQ; [|apply Hrb].
  eapply hoare_bind with (Q1 := λ _, True).
  { apply hoare_mono with (Q1 := λ r, ∀ x, r = Ok x → True); [|done]. apply hoare_try. intros a Ha. unfold wp, commit_tx. pose proof (db_inv_fate _ _ Ha) as Hd.
    destruct (next_fate _) as [[] d]; cbn in *; destruct Hd as (?&?&?); by split_and!. }
  intros [c|e] _; [apply hoare_ret; by apply HQ|apply Hrb].
Qed.

(** Without any property of the database. *)
Lemma statement_result {A} (f : Tables → list string → res A * Tables * list string) (Q : A → Prop) :
  (∀ t ids x, (f t ids).1.1 = Ok x → Q x) → hoare (λ _, True) (statement f) Q.
Proof.
  intros Hf a _. split; [done|]. unfold statement. destruct (next_fate _) as [x d].
  specialize (Hf (db_tables d) (db_ids d)). destruct (f _ _) as [[r t] ids]. destruct x; cbn in *; by auto.
Qed.
Lemma tx_result {A} (fn : M (App R) A) (Q : A → Prop) :
  hoare (λ _, True) fn Q → hoare (λ _, True) (RunInTransaction fn) Q.
Proof.
  intros Hfn. unfold RunInTransaction. apply hoare_skip; [by intros a _; split|intros _].
  eapply hoare_bind; [apply hoare_try, Hfn|]. intros [x|e] HQ.
  - apply hoare_skip; [by intros a _; split|]. intros [u|e]; [apply hoare_ret; by apply HQ|].
    apply hoare_skip; [by intros a _; split|intros _; apply hoare_fail].
  - apply hoare_skip; [by intros a _; split|intros _; apply hoare_fail].
Qed.

(** ** The tables a rollback restores *)
Lemma hoare_statement_base {A} b (f : Tables → list string → res A * Tables * list string) :
  hoare (at_base b) (statement f) (λ _, True).
Proof.
  intros [w [base t ids fates others]] (Hb&Ho&Hf). unfold at_base, alone, answered in *. cbn in Hb, Ho, Hf. subst.
  unfold wp, statement, others_commit, next_fate, put_db. cbn.
  destruct fates as [|x l]; cbn.
  - destruct (f t ids) as [[r t'] ids']. by repeat split.
  - apply Forall_cons in Hf as [Hx Hl]. destruct x; [destruct (f t ids) as [[r t'] ids']| |done]; by repeat split.
Qed.

(** An error of a transaction that reaches its caller leaves the tables as they were. *)
Lemma tx_atomic {A} (fn : M (App R) A) Q a e a' :
  (∀ b, hoare (at_base b) fn Q) → alone (ap_db a) → answered (ap_db a) →
  RunInTransaction fn a = (Err e, a') → db_tables (ap_db a') = db_tables (ap_db a).
Proof.
  intros Hfn Hal Han Heq.
  enough (wp (RunInTransaction fn) (λ r a', ∀ e, r = Err e → db_tables (ap_db a') = db_tables (ap_db a)) a) as Hwp
    by exact (wp_intro _ _ _ _ _ Heq Hwp e eq_refl).
  clear e a' Heq. unfold RunInTransaction. wp_step. apply wp_wrap. wp_unfold. unfold begin_tx, next_fate.
  unfold answered in Han. set (b := db_tables (ap_db a)).
  assert (∀ a' e, at_base b (ap_db a') → wp (rollback ;; fail e) (λ (r : res A) a'', ∀ e, r = Err e → db_tables (ap_db a'') = b) a')
    as Hrb by by intros a' e (<-&_&_).
  assert (∀ a', at_base b (ap_db a') → wp (let! r := try fn in
    match r with Err e => rollback ;; fail e
    | Ok x => let! c := try commit_tx in match c with Err e => rollback ;; fail (Wrap "commit transaction" e) | Ok _ => ret x end end)
    (λ (r : res A) a'', ∀ e, r = Err e → db_tables (ap_db a'') = b) a') as Hbody.
  { intros a' Ha'. wp_steps. eapply wp_mono; [apply (Hfn b), Ha'|]. intros [x|e] a2 [Ha2 _]; [|by apply Hrb].
    wp_steps. destruct Ha2 as (Hb2&Hal2&Han2). wp_unfold. unfold commit_tx, next_fate, answered in *.
    destruct (db_fates (ap_db a2)) as [|[] l]; cbn; [done|done| |].
    - intros ? _. exact Hb2.
    - apply Forall_cons in Han2 as [? _]. done. }
  destruct (db_fates (ap_db a)) as [|[] l] eqn:Hfates; cbn.
  - apply Hbody. split_and!; [done..|]. by unfold answered; cbn; rewrite Hfates.
  - apply Hbody. split_and!; [done..|]. by apply Forall_cons in Han as [_ ?].
  - by intros ? [= <-].
  - by apply Forall_cons in Han as [? _].
Qed.
End rules.

(** ** Computation with a database that answers *)
Section healthy.
Context {R : Type}.
Implicit Types (a : App R) (w : World R).

(** Code that only looks and checks. *)
Definition pure {A} (m : M (App R) A) : Prop := ∀ a, (m a).2 = a.
Lemma pure_ret {A} (x : A) : pure (ret x).
Proof. done. Qed.
Lemma pure_lift {A} (r : res A) : pure (lift_res r).
Proof. done. Qed.
Lemma pure_guard b e : pure (guard_err b e).
Proof. by destruct b. Qed.
Lemma pure_bind {A B} (m : M (App R) A) (k : A → M (App R) B) : pure m → (∀ x, pure (k x)) → pure (bind m k).
Proof.
  intros Hm Hk a. unfold bind. specialize (Hm a). destruct (m a) as [[x|e] a']; cbn in Hm; subst; [apply Hk|done].
Qed.
Lemma pure_wrap {A} ctx (m : M (App R) A) : pure m → pure (wrap ctx m).
Proof. intros Hm a. unfold wrap. specialize (Hm a). by destruct (m a). Qed.
Lemma wp_pure {A} (m : M (App R) A) (Q : res A → App R → Prop) a : pure m → (∀ r, m a = (r, a) → Q r a) → wp m Q a.
Proof. intros Hm HQ. unfold wp. rewrite Hm. apply HQ. rewrite <-(Hm a) at 3. by destruct (m a). Qed.

(** A statement before which others commit [g], or nobody does. *)
Lemma wp_stmt {A} (f : Tables → list string → res A * Tables * list string) (Q : res A → App R → Prop)
    w b t ids g others :
  Q (f (g t) ids).1.1 (mkApp w (mkDB (g b) (f (g t) ids).1.2 (f (g t) ids).2 [] others)) →
  wp (statement f) Q (mkApp w (mkDB b t ids [] (g :: others))).
Proof. unfold wp, statement. cbn. by destruct (f (g t) ids) as [[r t'] ids']. Qed.
Lemma wp_stmt_alone {A} (f : Tables → list string → res A * Tables * list string) (Q : res A → App R → Prop)
    w b t ids :
  Q (f t ids).1.1 (mkApp w (mkDB b (f t ids).1.2 (f t ids).2 [] [])) →
  wp (statement f) Q (mkApp w (mkDB b t ids [] [])).
Proof. unfold wp, statement. cbn. by destruct (f t ids) as [[r t'] ids']. Qed.
Lemma wp_tx {A} (fn : M (App R) A) (Q : res A → App R → Prop) w b t ids others :
  wp fn (λ r a', db_fates (ap_db a') = [] ∧
    match r with
    | Ok x => Q (Ok x) (put_db (mkDB (db_tables (ap_db a')) (db_tables (ap_db a')) (db_ids (ap_db a')) [] (db_others (ap_db a'))) a')
    | Err e => Q (Err e) (put_db (mkDB (db_base (ap_db a')) (db_base (ap_db a')) (db_ids (ap_db a')) [] (db_others (ap_db a'))) a')
    end) (mkApp w (mkDB t t ids [] others)) →
  wp (RunInTransaction fn) Q (mkApp w (mkDB b t ids [] others)).
Proof.
  intros Hfn. unfold RunInTransaction. wp_steps. wp_unfold. unfold begin_tx, next_fate. cbn. wp_steps.
  unfold put_db, set_base. cbn. eapply wp_mono; [exact Hfn|]. intros [x|e] [w' [b' t' ids' fates' others']]; cbn; intros [-> HQ].
  - wp_steps. wp_unfold. unfold commit_tx, next_fate. cbn. wp_step. exact HQ.
  - wp_steps. exact HQ.
Qed.
End healthy.
Ltac pure_solve :=
  repeat first
    [ apply pure_ret | apply pure_lift | apply pure_guard | apply pure_wrap
    | apply pure_bind; [|intros ?] | match goal with |- pure (match ?x with _ => _ end) => destruct x end ].

(** One step of the decomposition of a program by the shape of its code. *)
Ltac hoare_step :=
  lazymatch goal with
  | |- hoare _ (ret _) _ => apply hoare_ret
  | |- hoare _ (fail _) _ => apply hoare_fail
  | |- hoare _ (lift_res _) _ => apply hoare_lift
  | |- hoare _ (wrap _ _) _ => apply hoare_wrap
  | |- hoare _ (guard_err _ _) _ => apply hoare_guard
  | |- hoare _ (in_world _) _ => apply hoare_in_world
  | |- hoare _ app_now _ => apply hoare_app_now
  | |- hoare _ (bind (try _) _) _ => eapply hoare_bind; [apply hoare_try|intros ? ?]
  | |- hoare _ (bind _ _) _ => eapply hoare_bind; [|intros ? ?]
  end.
(** Code of a transaction keeps the base. *)
Ltac base_step :=
  lazymatch goal with
  | |- hoare _ (bind _ _) _ => apply hoare_skip; [|intros ?]
  | |- hoare _ (try _) _ => eapply hoare_mono; [apply hoare_try with (Q := λ _, True)|done]
  | |- hoare (at_base _) (statement _) _ => apply hoare_statement_base
  | |- hoare _ (match ?x with _ => _ end) _ => destruct x
  | _ => hoare_step
  end; try done.
(** [hoare_ok x Hx]: past a check. *)
Ltac hoare_ok x Hx := refine (proj1 (hoare_check _ "" _ _ _ _)); intros x Hx.
Ltac hoare_ok_wrapped x Hx := refine (proj2 (hoare_check _ _ _ _ _ _)); intros x Hx.

(** ** Reading the database

    While a request reads, other transactions commit and connections fail. *)
Definition meanwhile (d d' : DB) : Prop := d' = others_commit d ∨ d' = (next_fate d).2.
Abbreviation later := (rtc meanwhile).
Section reading.
Context {R : Type}.
Implicit Types a : App R.

Definition only_reads {A} (m : M (App R) A) : Prop := ∀ a, ap_world (m a).2 = ap_world a ∧ later (ap_db a) (ap_db (m a).2).
Lemma reads_ret {A} (x : A) : only_reads (ret x). Proof. done. Qed.
Lemma reads_fail {A} e : only_reads (fail (A := A) e). Proof. done. Qed.
Lemma reads_guard b e : only_reads (guard_err b e). Proof. by destruct b. Qed.
Lemma reads_now : only_reads app_now. Proof. done. Qed.
Lemma reads_bind {A B} (m : M (App R) A) (k : A → M (App R) B) : only_reads m → (∀ x, only_reads (k x)) → only_reads (bind m k).
Proof.
  intros Hm Hk a. unfold bind. destruct (Hm a) as [Hw Hd]. destruct (m a) as [[x|e] a1]; cbn in *; [|done].
  destruct (Hk x a1) as [Hw2 Hd2]. split; [congruence|by etrans].
Qed.
Lemma reads_wrap {A} c (m : M (App R) A) : only_reads m → only_reads (wrap c m).
Proof. intros Hm a. unfold wrap. specialize (Hm a). by destruct (m a). Qed.
Definition select {A} (f : Tables → A) : M (App R) A := statement (λ t ids, (Ok (f t), t, ids)).
Lemma wp_select {A} (f : Tables → A) (Q : res A → App R → Prop) a :
  (∀ d, later (ap_db a) d → Q (Ok (f (db_tables d))) (put_db d a)) →
  (∀ d, later (ap_db a) d → Q (Err ErrDatabase) (put_db d a)) → wp (select f) Q a.
Proof.
  intros HQ HE. unfold wp, select, statement. set (d := (next_fate (others_commit (ap_db a))).2).
  assert (later (ap_db a) d) as Hd.
  { eapply rtc_l; [left; reflexivity|]. eapply rtc_once. by right. }
  specialize (HQ d Hd). specialize (HE d Hd). revert HQ HE. subst d.
  destruct (next_fate _) as [x d]. cbn. destruct d. by destruct x.
Qed.
Lemma reads_select {A} (f : Tables → A) : only_reads (select f).
Proof. intros a. by apply (wp_select f (λ _ a', ap_world a' = ap_world a ∧ later (ap_db a) (ap_db a'))). Qed.
End reading.
Create HintDb reading discriminated.
#[export] Hint Resolve reads_ret reads_fail reads_guard reads_now : reading.
Ltac reading :=
  repeat first
    [ solve [eauto with reading nocore] | apply reads_bind; [|intros ?] | apply reads_wrap
    | match goal with |- only_reads (if ?b then _ else _) => destruct b end
    | match goal with |- only_reads (match ?x with _ => _ end) => destruct x end ].
