(* ===== verification/ClientRepo.v ===== *)
(** * [internal/oauth2/repository]: the statements on clients and consents

    JSON columns hold the lists and the metadata as they are: rows are records. *)
From S2P Require Import Prelude GoTime Json Redis World OAuthDomain Database.
Local Open Scope Z_scope.

(** [ORDER BY ... DESC]; the order of equal keys is unspecified. *)
Definition newest_first {A} (key : A → Z) (l : list A) : list A :=
  foldr (fix ins x l := match l with
    | [] => [x]
    | y :: l' => if key y <=? key x then x :: y :: l' else y :: ins x l'
    end) [] l.
Definition rows_where {A} (p : A → bool) (m : gmap string A) : list A := List.filter p (map snd (map_to_list m)).

Definition client_with_dates (c : OAuth2Client) (id : string) (created updated : Z) (deleted : option Z) : OAuth2Client :=
  mkClient id (oc_AccountID c) (oc_ClientID c) (oc_ClientSecretHash c) (oc_Name c) (oc_Description c)
    (oc_RedirectURIs c) (oc_PostLogoutRedirectURIs c) (oc_GrantTypes c) (oc_Scopes c) (oc_IsConfidential c)
    (oc_Metadata c) (oc_FrontchannelLogoutURI c) (oc_FrontchannelLogoutSessionRequired c)
    (oc_BackchannelLogoutURI c) (oc_BackchannelLogoutSessionRequired c) created updated deleted.
(** A soft-deleted client loses its secret. *)
Definition client_deleted (at_ now : Z) (c : OAuth2Client) : OAuth2Client :=
  mkClient (oc_ID c) (oc_AccountID c) (oc_ClientID c) "" (oc_Name c) (oc_Description c)
    (oc_RedirectURIs c) (oc_PostLogoutRedirectURIs c) (oc_GrantTypes c) (oc_Scopes c) (oc_IsConfidential c)
    (oc_Metadata c) (oc_FrontchannelLogoutURI c) (oc_FrontchannelLogoutSessionRequired c)
    (oc_BackchannelLogoutURI c) (oc_BackchannelLogoutSessionRequired c) (oc_CreatedAt c) now (Some at_).

Section repositories.
Context {R : Type} `{Postgres}.
#[local] Abbreviation AM := (M (App R)).

(** ** Clients *)
Definition create_client (now : Z) (c : OAuth2Client) (t : Tables) (ids : list string) :
    res OAuth2Client * Tables * list string :=
  match ids with
  | [] => (Err ErrDatabase, t, ids)
  | id :: ids' =>
      if 255 <? char_count (oc_Name c) then (Err ErrTooLong, t, ids')
      else if 255 <? char_count (oc_ClientID c) then (Err ErrTooLong, t, ids')
      else match t_clients t !! id, client_row t (oc_ClientID c) with
           | Some _, _ | _, Some _ => (Err ErrUniqueViolation, t, ids')
           | None, None => let row := client_with_dates c id (pg_round now) (pg_round now) None in
                     (Ok row, put_client row t, ids')
           end
  end.
Definition ClientRepo_Create (c : OAuth2Client) : AM OAuth2Client :=
  let! now := app_now in
  wrap "insert oauth2_client" (statement (create_client now c)).

Definition findByClientID (clientID : string) : AM OAuth2Client :=
  let! row := wrap "find oauth2_client by client_id"
    (statement (λ t ids, (Ok (client_row t clientID), t, ids))) in
  match row with
  | Some c => ret c
  | None => fail (Wrap clientID ErrClientNotFound)
  end.

Definition ClientRepo_FindByAccountID (accountID : string) : AM (list OAuth2Client) :=
  wrap "find oauth2_clients by account_id" (statement (λ t ids,
    (Ok (newest_first oc_CreatedAt
       (rows_where (λ c, bool_decide (oc_AccountID c = accountID) && live_client c) (t_clients t))), t, ids))).

(** The row takes the new values of the columns the statement sets; the trigger sets
    [updated_at]. *)
Definition updated_row (now : Z) (c row : OAuth2Client) : OAuth2Client :=
  mkClient (oc_ID row) (oc_AccountID row) (oc_ClientID row) (oc_ClientSecretHash row) (oc_Name c) (oc_Description c)
    (oc_RedirectURIs c) (oc_PostLogoutRedirectURIs c) (oc_GrantTypes c) (oc_Scopes c) (oc_IsConfidential row)
    (oc_Metadata c) (oc_FrontchannelLogoutURI c) (oc_FrontchannelLogoutSessionRequired c)
    (oc_BackchannelLogoutURI c) (oc_BackchannelLogoutSessionRequired c) (oc_CreatedAt row) (pg_round now)
    (oc_DeletedAt row).
Definition update_client (now : Z) (c : OAuth2Client) (expectedUpdatedAt : Z) (t : Tables) (ids : list string) :
    res (option Z) * Tables * list string :=
  match t_clients t !! oc_ID c with
  | Some row =>
      if live_client row && bool_decide (oc_UpdatedAt row = pg_round expectedUpdatedAt)
      then if 255 <? char_count (oc_Name c) then (Err ErrTooLong, t, ids)
           else (Ok (Some (pg_round now)), put_client (updated_row now c row) t, ids)
      else (Ok None, t, ids)
  | None => (Ok None, t, ids)
  end.
(** No row: the client is gone, or somebody changed it. *)
Definition ClientRepo_Update (c : OAuth2Client) (expectedUpdatedAt : Z) : AM OAuth2Client :=
  let! now := app_now in
  let! r := wrap "update oauth2_client" (statement (update_client now c expectedUpdatedAt)) in
  match r with
  | Some updatedAt => ret (client_with_dates c (oc_ID c) (oc_CreatedAt c) updatedAt (oc_DeletedAt c))
  | None =>
      findByClientID (oc_ClientID c) ;;
      fail (Wrap (oc_ID c) ErrClientConcurrentModification)
  end.

Definition ClientRepo_SoftDelete (id : string) (deletedAt : Z) : AM unit :=
  let! now := app_now in
  let! rows := wrap "soft delete oauth2_client" (statement (λ t ids,
    match t_clients t !! id with
    | Some row => if live_client row then (Ok 1, put_client (client_deleted (pg_round deletedAt) (pg_round now) row) t, ids)
                  else (Ok 0, t, ids)
    | None => (Ok 0, t, ids)
    end)) in
  guard_err (rows =? 0) (Wrap id ErrClientNotFound).

Definition ClientRepo_SoftDeleteByAccountID (accountID : string) (deletedAt : Z) : AM unit :=
  let! now := app_now in
  wrap "soft delete oauth2_clients by account_id" (statement (λ t ids,
    (Ok tt, mkTables ((λ c, if bool_decide (oc_AccountID c = accountID) && live_client c
                            then client_deleted (pg_round deletedAt) (pg_round now) c else c) <$> t_clients t) (t_consents t) (t_people t) (t_passkeys t), ids))).

(** The clients with a logout URI and a live consent of the account. *)
Definition logout_clients (uri : OAuth2Client → string) (accountID : string) (t : Tables) : list OAuth2Client :=
  rows_where (λ c, negb (bool_decide (uri c = "")) && live_client c
    && existsb (λ oc, bool_decide (co_ClientID oc = oc_ID c) && bool_decide (co_AccountID oc = accountID) && live_consent oc)
         (map snd (map_to_list (t_consents t)))) (t_clients t).
Definition FindFrontchannelLogoutClientsByAccountID (accountID : string) : AM (list OAuth2Client) :=
  wrap "find frontchannel logout clients"
    (statement (λ t ids, (Ok (logout_clients oc_FrontchannelLogoutURI accountID t), t, ids))).
Definition FindBackchannelLogoutClientsByAccountID (accountID : string) : AM (list OAuth2Client) :=
  wrap "find backchannel logout clients"
    (statement (λ t ids, (Ok (logout_clients oc_BackchannelLogoutURI accountID t), t, ids))).

(** ** Consents *)
Definition same_consent (accountID clientRow : string) (c : Consent) : bool :=
  bool_decide (co_AccountID c = accountID) && bool_decide (co_ClientID c = clientRow) && live_consent c.

(** Without a live client the subquery is null, which the column refuses. *)
Definition upsert_consent (now : Z) (c : Consent) (t : Tables) (ids : list string) :
    res Consent * Tables * list string :=
  match client_row t (co_ClientID c) with
  | None => (Err (Anon "SQLSTATE 23502"), t, ids)
  | Some cl =>
      match select_one (same_consent (co_AccountID c) (oc_ID cl)) (t_consents t), ids with
      | Some row, _ =>
          let row' := mkConsent (co_ID row) (co_AccountID row) (co_ClientID row) (co_Scopes c)
            (pg_round (co_GrantedAt c)) (co_CreatedAt row) (pg_round now) None in
          (Ok row', put_consent row' t, ids)
      | None, [] => (Err ErrDatabase, t, ids)
      | None, id :: ids' =>
          let row' := mkConsent id (co_AccountID c) (oc_ID cl) (co_Scopes c) (pg_round (co_GrantedAt c))
            (pg_round now) (pg_round now) None in
          match t_consents t !! id with
          | Some _ => (Err ErrUniqueViolation, t, ids')
          | None => (Ok row', put_consent row' t, ids')
          end
      end
  end.
(** The identifier and the dates are read back into the caller's record. *)
Definition ConsentRepo_Upsert (c : Consent) : AM Consent :=
  let! now := app_now in
  let! row := wrap "upsert consent" (statement (upsert_consent now c)) in
  ret (mkConsent (co_ID row) (co_AccountID c) (co_ClientID c) (co_Scopes c) (co_GrantedAt c) (co_CreatedAt row)
         (co_UpdatedAt row) (co_DeletedAt c)).

(** The join with the clients, deleted ones too. *)
Definition joined (t : Tables) (c : Consent) : option Consent :=
  cl ← t_clients t !! co_ClientID c;
  Some (mkConsent (co_ID c) (co_AccountID c) (oc_ClientID cl) (co_Scopes c) (co_GrantedAt c) (co_CreatedAt c)
          (co_UpdatedAt c) (co_DeletedAt c)).
Definition consents_of (t : Tables) (accountID : string) : list Consent :=
  omap (joined t) (rows_where (λ c, bool_decide (co_AccountID c = accountID) && live_consent c) (t_consents t)).

Definition findConsentByAccountAndClient (accountID clientID : string) : AM Consent :=
  let! row := wrap "find consent" (statement (λ t ids,
    (Ok (head (List.filter (λ c, bool_decide (co_ClientID c = clientID)) (consents_of t accountID))), t, ids))) in
  match row with
  | Some c => ret c
  | None => fail (Wrap accountID ErrConsentNotFound)
  end.

Definition soft_delete_consent (now : Z) (accountID clientID : string) (deletedAt : Z) (t : Tables) (ids : list string) :
    res Z * Tables * list string :=
  match cl ← client_row t clientID; select_one (same_consent accountID (oc_ID cl)) (t_consents t) with
  | Some row => (Ok 1, put_consent (mkConsent (co_ID row) (co_AccountID row) (co_ClientID row) (co_Scopes row)
                    (co_GrantedAt row) (co_CreatedAt row) (pg_round now) (Some (pg_round deletedAt))) t, ids)
  | None => (Ok 0, t, ids)
  end.
Definition ConsentRepo_SoftDelete (accountID clientID : string) (deletedAt : Z) : AM unit :=
  let! now := app_now in
  let! rows := wrap "soft delete consent" (statement (soft_delete_consent now accountID clientID deletedAt)) in
  guard_err (rows =? 0) (Wrap accountID ErrConsentNotFound).

Definition ConsentRepo_FindByAccountID (accountID : string) : AM (list Consent) :=
  wrap "query consents by account" (statement (λ t ids,
    (Ok (newest_first co_GrantedAt (consents_of t accountID)), t, ids))).
End repositories.
