(* ===== verification/ClientService.v ===== *)
(** * [internal/oauth2/service]: registration, changes and authentication of clients

    Texts of validation messages quote the offending value without escaping it. *)
From S2P Require Import Prelude GoTime Json Hash Redis World TokenDomain Url GoStrings OAuthDomain Database ClientRepo.
Local Open Scope Z_scope.

(** [golang.org/x/crypto/bcrypt]: salts are random; passwords of more than 72 bytes are
    refused. *)
Class Bcrypt := {
  bcrypt_hash : list N → string → res string;
  bcrypt_compare : string → string → bool;
  bcrypt_complete salt pw h : bcrypt_hash salt pw = Ok h → bcrypt_compare h pw = true;
  bcrypt_total salt pw : slen pw <= 72 → is_ok (bcrypt_hash salt pw) = true;
}.

Definition ErrClientSecretRequired := Sentinel "client_secret required".
Definition ErrInvalidClientSecret := Sentinel "invalid client_secret".
Definition ErrClientAccessDenied := Sentinel "access denied: client does not belong to this account".
Definition ErrConsentNil := Sentinel "consent must not be nil".
Definition ValidationError (msg : string) : err := Typed "ValidationError" msg.
Definition IsValidationError (e : err) : bool := errors_as e "ValidationError".

(** ** Validation *)
Definition validGrantTypes : list string :=
  [GrantTypeAuthorizationCode; GrantTypeRefreshToken; GrantTypeClientCredentials; GrantTypeDeviceCode].

Definition validateClientName (name : string) (required : bool) : res unit :=
  let trimmed := TrimSpace name in
  if bool_decide (trimmed = "") then
    if required then Err (ValidationError "client name is required")
    else if negb (bool_decide (name = "")) then Err (ValidationError "client name must not be only whitespace")
    else Ok tt
  else if 256 <? slen trimmed then Err (ValidationError "client name must not exceed 256 characters")
  else Ok tt.

Definition validateClientDescription (desc : string) : res unit :=
  if 1024 <? slen desc then Err (ValidationError "client description must not exceed 1024 characters") else Ok tt.

Fixpoint validateGrantTypes (types : list string) : res unit :=
  match types with
  | [] => Ok tt
  | gt :: l => if existsb (λ valid, bool_decide (gt = valid)) validGrantTypes then validateGrantTypes l
               else Err (ValidationError ("invalid grant_type: " +:+ gt))
  end.

Definition maxScopes : Z := 30.
Definition maxScopeLength : Z := 256.
Fixpoint check_scopes (scopes : list string) : res unit :=
  match scopes with
  | [] => Ok tt
  | s :: l => if bool_decide (TrimSpace s = "") then Err (ValidationError "scope must not be empty")
              else if maxScopeLength <? slen s then Err (ValidationError ("scope exceeds maximum length: " +:+ s))
              else check_scopes l
  end.
Definition validateScopes (scopes : list string) : res unit :=
  if maxScopes <? Z.of_nat (length scopes) then Err (ValidationError "too many scopes (max 30)")
  else check_scopes scopes.

Fixpoint validateUserManagedScopes (scopes : list string) : res unit :=
  match scopes with
  | [] => Ok tt
  | s :: l => if IsAdminScope s then Err (ValidationError ("scope is reserved for administrator clients: " +:+ s))
              else validateUserManagedScopes l
  end.

Definition ClientCapabilityMetadataKey : string := "capability".
Definition ClientCapabilityAdmin : string := "admin".
Definition jdelete (k : string) (l : list (string * json)) : list (string * json) :=
  List.filter (λ kv, negb (bool_decide (kv.1 = k))) l.
Definition syncAdminCapability (metadata : option (list (string * json))) (scopes : list string) :
    list (string * json) :=
  let hasAdminScope := existsb IsAdminScope scopes in
  let metadata := default [] metadata in
  if hasAdminScope then jset ClientCapabilityMetadataKey (JStr ClientCapabilityAdmin) metadata
  else jdelete ClientCapabilityMetadataKey metadata.

Fixpoint validateRedirectURIs (uris : list string) : res unit :=
  match uris with
  | [] => Ok tt
  | uri :: l =>
      match url_parse uri with
      | None => Err (ValidationError ("redirect_uris must use a valid host without fragment: " +:+ uri))
      | Some u =>
          if negb (bool_decide (url_Fragment u = "")) || bool_decide (url_Host u = "")
          then Err (ValidationError ("redirect_uris must use a valid host without fragment: " +:+ uri))
          else if negb (bool_decide (url_Scheme u = "http")) && negb (bool_decide (url_Scheme u = "https"))
          then Err (ValidationError ("redirect_uris must use http or https scheme: " +:+ uri))
          else if bool_decide (url_Scheme u = "http") && negb (IsLoopback (url_Hostname u))
          then Err (ValidationError ("redirect_uris must use https for non-loopback hosts: " +:+ uri))
          else validateRedirectURIs l
      end
  end.

(** ** Requests *)
Record RegisterClientRequest : Type := mkRegister {
  rr_AccountID : string;
  rr_Name : string;
  rr_Description : string;
  rr_RedirectURIs : list string;
  rr_PostLogoutRedirectURIs : list string;
  rr_GrantTypes : list string;
  rr_Scopes : list string;
  rr_IsConfidential : bool;
  rr_Metadata : option (list (string * json));
  rr_AllowReservedScopes : bool;
}.
(** An absent field is not changed; an absent list differs from an empty one. *)
Record UpdateClientRequest : Type := mkUpdate {
  ur_Name : option string;
  ur_Description : option string;
  ur_RedirectURIs : option (list string);
  ur_PostLogoutRedirectURIs : option (list string);
  ur_GrantTypes : option (list string);
  ur_Scopes : option (list string);
  ur_AllowReservedScopes : bool;
}.

(** ** Registration *)
Section service.
Context {R : Type} `{Postgres} `{Bcrypt}.
#[local] Abbreviation AM := (M (App R)).
Implicit Types c : OAuth2Client.

Definition generateClientID : AM string :=
  let! bytes := wrap "generate random bytes" (in_world (rand_read 24)) in ret (hex_encode bytes).
Definition generateClientSecret : AM string :=
  let! bytes := wrap "generate random bytes" (in_world (rand_read 32)) in ret (hex_encode bytes).
(** [bcrypt.GenerateFromPassword]: a salt of 16 random bytes. *)
Definition GenerateFromPassword (pw : string) : AM string :=
  let! salt := in_world (rand_read 16) in lift_res (bcrypt_hash salt pw).

(** The fields set after construction. *)
Definition with_registration (c : OAuth2Client) (req : RegisterClientRequest) (secretHash : string)
    (scopes : list string) (metadata : option (list (string * json))) : OAuth2Client :=
  mkClient (oc_ID c) (oc_AccountID c) (oc_ClientID c) secretHash (oc_Name c) (rr_Description req)
    (rr_RedirectURIs req) (rr_PostLogoutRedirectURIs req) (oc_GrantTypes c) scopes (rr_IsConfidential req)
    metadata (oc_FrontchannelLogoutURI c) (oc_FrontchannelLogoutSessionRequired c)
    (oc_BackchannelLogoutURI c) (oc_BackchannelLogoutSessionRequired c) (oc_CreatedAt c) (oc_UpdatedAt c)
    (oc_DeletedAt c).

Definition validate_registration (req : RegisterClientRequest) : AM unit :=
  lift_res (validateClientName (rr_Name req) true) ;;
  lift_res (validateClientDescription (rr_Description req)) ;;
  lift_res (validateRedirectURIs (rr_RedirectURIs req)) ;;
  wrap "post_logout_redirect_uris" (lift_res (validateRedirectURIs (rr_PostLogoutRedirectURIs req))) ;;
  (if bool_decide (rr_GrantTypes req = []) then ret tt else lift_res (validateGrantTypes (rr_GrantTypes req))).

(** The plain secret and its hash; both empty for a public client. *)
Definition new_secret (confidential : bool) : AM (string * string) :=
  if confidential then
    let! secretPlaintext := wrap "generate client secret" generateClientSecret in
    let! hash := wrap "hash client secret" (GenerateFromPassword secretPlaintext) in
    ret (secretPlaintext, hash)
  else ret ("", "").

Definition RegisterClient (req : RegisterClientRequest) : AM (OAuth2Client * string) :=
  let! clientID := wrap "generate client id" generateClientID in
  validate_registration req ;;
  let! (secretPlaintext, secretHash) := new_secret (rr_IsConfidential req) in
  let grantTypes := if bool_decide (rr_GrantTypes req = []) then [GrantTypeAuthorizationCode] else rr_GrantTypes req in
  let scopes := if bool_decide (rr_Scopes req = []) then ["openid"] else rr_Scopes req in
  lift_res (validateScopes scopes) ;;
  (if rr_AllowReservedScopes req then ret tt else lift_res (validateUserManagedScopes scopes)) ;;
  let metadata := syncAdminCapability (rr_Metadata req) scopes in
  let metadata := if bool_decide (length metadata = 0%nat) then None else Some metadata in
  let! now := app_now in
  let! id := in_world uuid_new in
  let! client := wrap "create oauth2 client"
    (lift_res (NewOAuth2Client now id (rr_AccountID req) (rr_Name req) clientID grantTypes)) in
  let client := with_registration client req secretHash scopes metadata in
  let! client := wrap "register client" (RunInTransaction (ClientRepo_Create client)) in
  in_world (audit_log (Audit "oauth2.client.register" (Some (rr_AccountID req))
    [("client_id", oc_ClientID client); ("name", oc_Name client)])) ;;
  ret (client, secretPlaintext).

Definition FindByClientID (clientID : string) : AM OAuth2Client := findByClientID clientID.
Definition FindByAccountID (accountID : string) : AM (list OAuth2Client) := ClientRepo_FindByAccountID accountID.

(** ** Changes *)
Definition with_updated_at (t : Z) (c : OAuth2Client) : OAuth2Client :=
  client_with_dates c (oc_ID c) (oc_CreatedAt c) t (oc_DeletedAt c).

Definition UpdateClient (client : OAuth2Client) : AM unit :=
  RunInTransaction (
    let! current := findByClientID (oc_ClientID client) in
    let! now := app_now in
    ClientRepo_Update (with_updated_at now client) (oc_UpdatedAt current) ;;
    ret tt).

Definition validate_update (req : UpdateClientRequest) : AM unit :=
  (match ur_Name req with Some n => lift_res (validateClientName n false) | None => ret tt end) ;;
  (match ur_Description req with Some d => lift_res (validateClientDescription d) | None => ret tt end) ;;
  (match ur_RedirectURIs req with
   | Some l => guard_err (bool_decide (l = [])) (ValidationError "redirect_uris must not be empty when provided") ;;
               lift_res (validateRedirectURIs l)
   | None => ret tt end) ;;
  (match ur_PostLogoutRedirectURIs req with
   | Some l => wrap "post_logout_redirect_uris" (lift_res (validateRedirectURIs l))
   | None => ret tt end) ;;
  (match ur_GrantTypes req with Some l => lift_res (validateGrantTypes l) | None => ret tt end).

Definition with_changes (c : OAuth2Client) (req : UpdateClientRequest) (scopes : list string)
    (metadata : option (list (string * json))) : OAuth2Client :=
  mkClient (oc_ID c) (oc_AccountID c) (oc_ClientID c) (oc_ClientSecretHash c)
    (default (oc_Name c) (ur_Name req)) (default (oc_Description c) (ur_Description req))
    (default (oc_RedirectURIs c) (ur_RedirectURIs req))
    (default (oc_PostLogoutRedirectURIs c) (ur_PostLogoutRedirectURIs req))
    (default (oc_GrantTypes c) (ur_GrantTypes req)) scopes (oc_IsConfidential c)
    metadata (oc_FrontchannelLogoutURI c) (oc_FrontchannelLogoutSessionRequired c)
    (oc_BackchannelLogoutURI c) (oc_BackchannelLogoutSessionRequired c) (oc_CreatedAt c) (oc_UpdatedAt c)
    (oc_DeletedAt c).
(** The partial update of the row that was read. *)
Definition apply_update (req : UpdateClientRequest) (c : OAuth2Client) : AM OAuth2Client :=
  match ur_Scopes req with
  | None => ret (with_changes c req (oc_Scopes c) (oc_Metadata c))
  | Some scopes =>
      lift_res (validateScopes scopes) ;;
      (if ur_AllowReservedScopes req then ret tt else lift_res (validateUserManagedScopes scopes)) ;;
      ret (with_changes c req scopes (Some (syncAdminCapability (oc_Metadata c) scopes)))
  end.

(** The work inside the transaction. *)
Definition update_owned (accountID clientID : string) (req : UpdateClientRequest) : AM OAuth2Client :=
  let! found := try (findByClientID clientID) in
  match found with
  | Err _ => fail (Wrap clientID ErrClientNotFound)
  | Ok c =>
      guard_err (negb (bool_decide (oc_AccountID c = accountID))) ErrClientAccessDenied ;;
      let! c' := apply_update req c in
      let! now := app_now in
      ClientRepo_Update (with_updated_at now c') (oc_UpdatedAt c)
  end.
Definition UpdateClientByAccountID (accountID clientID : string) (req : UpdateClientRequest) : AM OAuth2Client :=
  validate_update req ;;
  let! client := RunInTransaction (update_owned accountID clientID req) in
  in_world (audit_log (Audit "oauth2.client.update" (Some accountID)
    [("client_id", oc_ClientID client); ("name", oc_Name client)])) ;;
  ret client.

Definition delete_owned (accountID clientID : string) : AM unit :=
  let! client := findByClientID clientID in
  guard_err (negb (bool_decide (oc_AccountID client = accountID))) ErrClientAccessDenied ;;
  let! now := app_now in
  ClientRepo_SoftDelete (oc_ID client) now.
Definition DeleteClient (accountID clientID : string) : AM unit :=
  RunInTransaction (delete_owned accountID clientID) ;;
  in_world (audit_log (Audit "oauth2.client.delete" (Some accountID) [("client_id", clientID)])).

(** ** [client_auth_service.go]

    The comparisons with [dummyBcryptHash] only take time. *)
Definition AuthenticateClient (client : OAuth2Client) (clientSecret : string) : res unit :=
  if negb (oc_IsConfidential client) then Ok tt
  else if bool_decide (clientSecret = "") then Err ErrClientSecretRequired
  else if bcrypt_compare (oc_ClientSecretHash client) clientSecret then Ok tt
  else Err ErrInvalidClientSecret.
End service.
