(* ===== verification/ClientProps.v ===== *)
(** * Theorems of the client service: registered clients, ownership, concurrent updates *)
From S2P Require Import Prelude GoTime Json Hash Url Redis World TokenDomain OAuthDomain GoStrings Database ClientRepo ClientService.
Local Open Scope Z_scope.

(** ** Theorems of the client service: what registered clients are *)
(** ** A well-formed client

    [reserved] tells whether some caller may manage reserved scopes. *)
Record client_ok (reserved : bool) (c : OAuth2Client) : Prop := ClientOk {
  ok_redirects : validateRedirectURIs (oc_RedirectURIs c) = Ok tt;
  ok_logout : validateRedirectURIs (oc_PostLogoutRedirectURIs c) = Ok tt;
  ok_grants : validateGrantTypes (oc_GrantTypes c) = Ok tt;
  ok_scopes : validateScopes (oc_Scopes c) = Ok tt;
  ok_description : slen (oc_Description c) <= 1024;
  ok_name : char_count (oc_Name c) <= 255;
  ok_capability : HasAdminCapability (Some c) = existsb IsAdminScope (oc_Scopes c);
  ok_reserved : reserved = false → existsb IsAdminScope (oc_Scopes c) = false;
}.
(** The keys are the identifiers, and at most one live client has a given client_id. *)
Record clients_ok (reserved : bool) (t : Tables) : Prop := ClientsOk {
  ok_keys id c : t_clients t !! id = Some c → oc_ID c = id;
  ok_rows id c : t_clients t !! id = Some c → client_ok reserved c;
  ok_unique i j c c' : t_clients t !! i = Some c → t_clients t !! j = Some c' →
    live_client c = true → live_client c' = true → oc_ClientID c = oc_ClientID c' → i = j;
}.

(** ** Validators *)
Lemma redirect_valid_cons u l : validateRedirectURIs (u :: l) = Ok tt →
  isValidRedirectScheme u = true ∧ validateRedirectURIs l = Ok tt.
Proof.
  cbn [validateRedirectURIs]. unfold isValidRedirectScheme. destruct (url_parse u) as [p|]; [|done].
  destruct (bool_decide (url_Fragment p = "")), (bool_decide (url_Host p = "")); try done.
  destruct (negb _ && negb _); [done|]. by destruct (_ && negb (IsLoopback _)).
Qed.
Lemma redirect_valid uris uri : validateRedirectURIs uris = Ok tt → uri ∈ uris → isValidRedirectScheme uri = true.
Proof.
  intros Hv Hin. induction uris as [|u l IH]; [by inversion Hin|]. apply redirect_valid_cons in Hv as [Hu Hl].
  apply elem_of_cons in Hin as [->|Hin]; auto.
Qed.
Lemma find_uri_spec uri l : find_uri uri l = bool_decide (uri ∈ l).
Proof.
  unfold find_uri. enough (∀ b, foldl (λ found r, if bool_decide (uri = r) then true else found) b l
    = b || bool_decide (uri ∈ l)) as -> by done.
  induction l as [|x l IH]; intros b; cbn; [by rewrite orb_false_r|]. rewrite IH.
  repeat case_bool_decide; subst; rewrite ?orb_true_r, ?orb_false_r; try done; set_solver.
Qed.
Lemma user_managed l : validateUserManagedScopes l = Ok tt ↔ existsb IsAdminScope l = false.
Proof. induction l as [|s l IH]; cbn; [done|]. by destruct (IsAdminScope s). Qed.
Lemma new_client_grants now id acc name cid gts c :
  NewOAuth2Client now id acc name cid gts = Ok c → validateGrantTypes gts = Ok tt.
Proof.
  unfold NewOAuth2Client. repeat case_bool_decide; try done. destruct (check_grant_types gts) as [[]|] eqn:Hc; [intros _|done].
  clear -Hc. induction gts as [|g l IH]; [done|]. cbn [check_grant_types validateGrantTypes] in *.
  unfold IsValidGrantType in Hc. case_bool_decide as Hg; [|done].
  rewrite (proj2 (existsb_exists _ _)); [by apply IH|]. exists g. rewrite bool_decide_true by done.
  split; [|done]. by apply list_elem_of_In.
Qed.

(** *** The capability follows the scopes *)
Lemma jget_jdelete k l : jget k (jdelete k l) = None.
Proof.
  induction l as [|[k' v] l IH]; [done|]. unfold jdelete in *. cbn. case_bool_decide as Hk; cbn; [done|].
  rewrite bool_decide_false; [done|]. intros ->. by apply Hk.
Qed.
Definition capability (m : option (list (string * json))) : bool :=
  match m with
  | Some m => match jget "capability" m with Some (JStr s) => bool_decide (s = "admin") | _ => false end
  | None => false
  end.
Lemma has_capability c : HasAdminCapability (Some c) = capability (oc_Metadata c).
Proof. done. Qed.
Lemma sync_capability m scopes : capability (Some (syncAdminCapability m scopes)) = existsb IsAdminScope scopes.
Proof.
  unfold syncAdminCapability, capability. destruct (existsb _ _); [by rewrite jget_jset|].
  unfold ClientCapabilityMetadataKey. by rewrite jget_jdelete.
Qed.
Lemma capability_nonempty m : capability (if bool_decide (length m = 0%nat) then None else Some m) = capability (Some m).
Proof. case_bool_decide as Hl; [|done]. by destruct m. Qed.

Section properties.
Context {R : Type} `{Postgres} `{Bcrypt}.
Implicit Types a : App R.

Definition row_inv (b : bool) : DB → Prop := db_inv (clients_ok b).

Lemma client_row_some t cid c : client_row t cid = Some c →
  ∃ id, t_clients t !! id = Some c ∧ oc_ClientID c = cid ∧ live_client c = true.
Proof.
  unfold client_row, select_one. intros Hh.
  assert (c ∈ List.filter (λ c, bool_decide (oc_ClientID c = cid) && live_client c) (map snd (map_to_list (t_clients t)))) as Hin.
  { destruct (List.filter _ _) as [|c' l]; [done|]. cbn in Hh. injection Hh as ->. left. }
  apply list_elem_of_In, filter_In in Hin as [Hin Hp]. apply list_elem_of_In, list_elem_of_fmap in Hin as ([id c']&->&Hin).
  apply elem_of_map_to_list in Hin. apply andb_true_iff in Hp as [?%bool_decide_eq_true ?]. eauto.
Qed.
Lemma clients_ok_row b t cid c : clients_ok b t → client_row t cid = Some c → client_ok b c.
Proof. intros Ht (id&Hid&_)%client_row_some. exact (ok_rows _ _ Ht id c Hid). Qed.
Lemma client_row_none t cid i c : client_row t cid = None → t_clients t !! i = Some c →
  live_client c = true → oc_ClientID c ≠ cid.
Proof.
  unfold client_row, select_one. intros Hh Hc Hl Hcid.
  assert (c ∈ List.filter (λ c, bool_decide (oc_ClientID c = cid) && live_client c) (map snd (map_to_list (t_clients t)))) as Hin.
  { apply list_elem_of_In, filter_In. rewrite bool_decide_true, Hl by done. split; [|done].
    apply list_elem_of_In, list_elem_of_fmap. exists (i, c). split; [done|]. by apply elem_of_map_to_list. }
  destruct (List.filter _ _); [by inversion Hin|done].
Qed.
(** The row that is written: a new one, or a new version of one. *)
Definition may_put (t : Tables) (c : OAuth2Client) : Prop :=
  (t_clients t !! oc_ID c = None ∧ client_row t (oc_ClientID c) = None) ∨
  (∃ row, t_clients t !! oc_ID c = Some row ∧ oc_ClientID row = oc_ClientID c ∧
          (live_client c = true → live_client row = true)).
Lemma clients_ok_put b t c : clients_ok b t → client_ok b c → may_put t c → clients_ok b (put_client c t).
Proof.
  intros [Hk Hr Hu] Hc Hput. constructor; cbn.
  - intros id c'. rewrite lookup_insert_Some. naive_solver.
  - intros id c'. rewrite lookup_insert_Some. naive_solver.
  - assert (∀ j c', t_clients t !! j = Some c' → oc_ID c ≠ j → live_client c = true → live_client c' = true →
      oc_ClientID c ≠ oc_ClientID c') as Hne.
    { intros j c' Hj Hid Hl Hl' Heq. destruct Hput as [[_ Hrow]|(row&Hrow&Hcid&Hlive)].
      - by apply (client_row_none _ _ _ _ Hrow Hj Hl').
      - apply Hid. apply (Hu _ _ row c'); auto. congruence. }
    intros i j c1 c2. rewrite !lookup_insert_Some. intros [[<- <-]|[Hi H1]] [[<- <-]|[Hj H2]] Hl1 Hl2 Heq; try done.
    + by destruct (Hne j c2).
    + by destruct (Hne i c1).
    + by apply (Hu _ _ c1 c2).
Qed.
(** What [client_ok] looks at. *)
Lemma client_ok_same b c c' :
  oc_RedirectURIs c' = oc_RedirectURIs c → oc_PostLogoutRedirectURIs c' = oc_PostLogoutRedirectURIs c →
  oc_GrantTypes c' = oc_GrantTypes c → oc_Scopes c' = oc_Scopes c → oc_Description c' = oc_Description c →
  oc_Name c' = oc_Name c → oc_Metadata c' = oc_Metadata c → client_ok b c → client_ok b c'.
Proof.
  intros H1 H2 H3 H4 H5 H6 H7 []. constructor; rewrite ?has_capability in *; rewrite ?H1, ?H2, ?H3, ?H4, ?H5, ?H6, ?H7; done.
Qed.

Lemma find_inv b cid : hoare (row_inv b) (findByClientID (R:=R) cid) (client_ok b).
Proof.
  unfold findByClientID. hoare_step.
  { hoare_step. apply hoare_statement_inv with (Q := λ row, ∀ c, row = Some c → client_ok b c).
    intros t ids Ht. split; [done|]. cbn. intros row [= <-] c. by apply clients_ok_row. }
  destruct x as [c|]; [apply hoare_ret; auto|apply hoare_fail].
Qed.

(** The repository checks the width of the name. *)
Definition client_ok_but_name (b : bool) (c : OAuth2Client) : Prop :=
  char_count (oc_Name c) <= 255 → client_ok b c.
Lemma create_inv b c : client_ok_but_name b c →
  hoare (row_inv b) (ClientRepo_Create (R:=R) c) (λ c', oc_ClientID c' = oc_ClientID c ∧ client_ok b c').
Proof.
  intros Hc. unfold ClientRepo_Create. eapply hoare_bind; [by apply hoare_app_now with (Q := λ _, True)|intros now _].
  apply hoare_wrap, hoare_statement_inv. intros t ids Ht. unfold create_client.
  destruct ids as [|id ids]; [done|]. destruct (_ <? char_count (oc_Name c)) eqn:Hn; [done|].
  destruct (_ <? char_count (oc_ClientID c)); [done|].
  destruct (t_clients t !! id) eqn:Hfresh; [done|]. destruct (client_row _ _) eqn:Hrow; [done|]. apply Z.ltb_ge in Hn.
  assert (client_ok b (client_with_dates c id (pg_round now) (pg_round now) None)) as Hok
    by (apply (client_ok_same b c); try done; by apply Hc).
  split; [apply clients_ok_put; [done..|]; by left|]. by intros ? [= <-].
Qed.
Lemma update_inv b c exp : client_ok_but_name b c →
  hoare (row_inv b) (ClientRepo_Update (R:=R) c exp) (client_ok b).
Proof.
  intros Hc. unfold ClientRepo_Update. eapply hoare_bind; [by apply hoare_app_now with (Q := λ _, True)|intros now _].
  eapply hoare_bind with (Q1 := λ r, is_Some r → client_ok b c).
  { apply hoare_wrap, hoare_statement_inv. intros t ids Ht. unfold update_client.
    destruct (t_clients t !! oc_ID c) as [row|] eqn:Hrow; [|by split; [|intros ? [= <-] []]].
    destruct (_ && _) eqn:Hl; [|by split; [|intros ? [= <-] []]]. destruct (_ <? _) eqn:Hn; [done|]. apply Z.ltb_ge in Hn.
    split; [|by intros; apply Hc]. apply clients_ok_put; [done|by apply (client_ok_same b c); [..|apply Hc]|].
    right. exists row. cbn. by rewrite (ok_keys _ _ Ht _ _ Hrow). }
  intros [u|] Hu.
  - apply hoare_ret. apply (client_ok_same b c); try done. by apply Hu.
  - eapply hoare_bind; [apply find_inv|]. intros. apply hoare_fail.
Qed.
Lemma soft_delete_inv b id at_ : hoare (row_inv b) (ClientRepo_SoftDelete (R:=R) id at_) (λ _, True).
Proof.
  unfold ClientRepo_SoftDelete. eapply hoare_bind; [by apply hoare_app_now with (Q := λ _, True)|intros now _].
  eapply hoare_bind with (Q1 := λ _, True); [|intros rows _; by apply hoare_guard].
  apply hoare_wrap, hoare_statement_inv. intros t ids Ht. split; [|done].
  destruct (t_clients t !! id) as [row|] eqn:Hrow; [|done]. destruct (live_client row); [|done].
  apply clients_ok_put; [done| |].
  - apply (client_ok_same b row); try done. exact (ok_rows _ _ Ht id row Hrow).
  - right. exists row. cbn. by rewrite (ok_keys _ _ Ht _ _ Hrow).
Qed.
Lemma soft_delete_account_inv b acc at_ : hoare (row_inv b) (ClientRepo_SoftDeleteByAccountID (R:=R) acc at_) (λ _, True).
Proof.
  unfold ClientRepo_SoftDeleteByAccountID. eapply hoare_bind; [by apply hoare_app_now with (Q := λ _, True)|intros now _].
  apply hoare_wrap, hoare_statement_inv. intros t ids Ht. split; [|done]. cbn.
  set (f := λ c, if bool_decide (oc_AccountID c = acc) && live_client c then _ else c).
  assert (∀ c, oc_ID (f c) = oc_ID c ∧ oc_ClientID (f c) = oc_ClientID c ∧ (live_client (f c) = true → live_client c = true)
    ∧ (client_ok b c → client_ok b (f c))) as Hf.
  { intros c. unfold f. destruct (_ && _); split_and!; try done. by apply client_ok_same. }
  destruct Ht as [Hk Hr Hu]. constructor; cbn.
  - intros k c'. rewrite lookup_fmap_Some. intros (c&<-&Hc). destruct (Hf c) as (->&_). by apply Hk.
  - intros k c'. rewrite lookup_fmap_Some. intros (c&<-&Hc). apply Hf, (Hr _ _ Hc).
  - intros i j c1 c2. rewrite !lookup_fmap_Some. intros (d1&<-&H1) (d2&<-&H2).
    destruct (Hf d1) as (_&->&Hl1&_), (Hf d2) as (_&->&Hl2&_). intros ???. apply (Hu _ _ d1 d2); auto.
Qed.

(** ** The operations keep the clients well-formed *)
Lemma validate_registration_inv P req :
  hoare P (validate_registration (R:=R) req) (λ _, validateRedirectURIs (rr_RedirectURIs req) = Ok tt
    ∧ validateRedirectURIs (rr_PostLogoutRedirectURIs req) = Ok tt ∧ slen (rr_Description req) <= 1024).
Proof.
  unfold validate_registration. hoare_ok x Hn. hoare_ok y Hd. hoare_ok z Hr. destruct z.
  hoare_ok_wrapped z Hp. destruct z.
  assert (slen (rr_Description req) <= 1024) as Hlen.
  { unfold validateClientDescription in Hd. destruct (Z.ltb_spec 1024 (slen (rr_Description req))); [done|lia]. }
  case_bool_decide; [by apply hoare_ret|by apply hoare_lift].
Qed.
Lemma new_secret_inv P conf : hoare P (new_secret (R:=R) conf) (λ _, True).
Proof. unfold new_secret, generateClientSecret, GenerateFromPassword. repeat base_step. Qed.
Lemma scopes_reserved (allow b : bool) scopes : (allow = true → b = true) →
  (allow = true ∨ validateUserManagedScopes scopes = Ok tt) → b = false → existsb IsAdminScope scopes = false.
Proof. intros Hb [Ha|Hu] Hf; [by rewrite Hb in Hf|by apply user_managed]. Qed.

Lemma register_inv b req : (rr_AllowReservedScopes req = true → b = true) →
  hoare (row_inv b) (RegisterClient (R:=R) req) (λ x, client_ok b x.1).
Proof.
  intros Hres. unfold RegisterClient.
  apply hoare_skip; [unfold generateClientID; by repeat base_step|intros cid].
  eapply hoare_bind; [apply validate_registration_inv|]. intros [] (Hr&Hp&Hd).
  apply hoare_skip; [apply new_secret_inv|]. intros [plain hash].
  set (gts := if bool_decide (rr_GrantTypes req = []) then _ else _).
  set (scopes := if bool_decide (rr_Scopes req = []) then _ else _).
  hoare_ok z Hsc. destruct z.
  eapply hoare_bind with (Q1 := λ _, rr_AllowReservedScopes req = true ∨ validateUserManagedScopes scopes = Ok tt).
  { destruct (rr_AllowReservedScopes req); [apply hoare_ret; by left|apply hoare_lift; intros []; by right]. }
  intros [] Hum. pose proof (scopes_reserved _ b scopes Hres Hum) as Hrs.
  apply hoare_skip; [by apply hoare_app_now|intros now]. apply hoare_skip; [by apply hoare_in_world|intros id].
  hoare_ok_wrapped c Hc. pose proof (new_client_grants _ _ _ _ _ _ _ Hc) as Hg.
  assert (oc_GrantTypes c = gts) as Hcg.
  { unfold NewOAuth2Client in Hc. repeat case_bool_decide; try done. by destruct (check_grant_types gts); simplify_eq. }
  eapply hoare_bind.
  { apply hoare_wrap, hoare_tx_inv, (create_inv b). intros Hname. constructor; cbn; try done.
    - by rewrite Hcg.
    - rewrite <-(sync_capability (rr_Metadata req) scopes), <-capability_nonempty. done. }
  intros c' [_ Hc']. apply hoare_skip; [by apply hoare_in_world|intros _]. by apply hoare_ret.
Qed.

Lemma validate_update_inv P req : hoare P (validate_update (R:=R) req) (λ _,
  (∀ l, ur_RedirectURIs req = Some l → validateRedirectURIs l = Ok tt)
  ∧ (∀ l, ur_PostLogoutRedirectURIs req = Some l → validateRedirectURIs l = Ok tt)
  ∧ (∀ l, ur_GrantTypes req = Some l → validateGrantTypes l = Ok tt)
  ∧ (∀ d, ur_Description req = Some d → slen d <= 1024)).
Proof.
  unfold validate_update. apply hoare_skip; [by repeat base_step|intros _].
  eapply hoare_bind with (Q1 := λ _, ∀ d, ur_Description req = Some d → slen d <= 1024).
  { destruct (ur_Description req) as [d|]; [|by apply hoare_ret]. apply hoare_lift. intros [] Hd d' [= <-].
    unfold validateClientDescription in Hd. destruct (Z.ltb_spec 1024 (slen d)); [done|lia]. }
  intros _ Hd. eapply hoare_bind with (Q1 := λ _, ∀ l, ur_RedirectURIs req = Some l → validateRedirectURIs l = Ok tt).
  { destruct (ur_RedirectURIs req) as [l|]; [|by apply hoare_ret]. apply hoare_skip; [by apply hoare_guard|intros _].
    apply hoare_lift. by intros [] Hl ? [= <-]. }
  intros _ Hr. eapply hoare_bind with (Q1 := λ _, ∀ l, ur_PostLogoutRedirectURIs req = Some l → validateRedirectURIs l = Ok tt).
  { destruct (ur_PostLogoutRedirectURIs req) as [l|]; [|by apply hoare_ret].
    apply hoare_wrap, hoare_lift. by intros [] Hl ? [= <-]. }
  intros _ Hp. destruct (ur_GrantTypes req) as [l|]; [apply hoare_lift; intros [] Hl|by apply hoare_ret].
  split_and!; try done. by intros ? [= <-].
Qed.
Lemma apply_update_inv P b req c : client_ok b c → (ur_AllowReservedScopes req = true → b = true) →
  (∀ l, ur_RedirectURIs req = Some l → validateRedirectURIs l = Ok tt) →
  (∀ l, ur_PostLogoutRedirectURIs req = Some l → validateRedirectURIs l = Ok tt) →
  (∀ l, ur_GrantTypes req = Some l → validateGrantTypes l = Ok tt) →
  (∀ d, ur_Description req = Some d → slen d <= 1024) →
  hoare P (apply_update (R:=R) req c) (client_ok_but_name b).
Proof.
  intros [] Hres Hr Hp Hg Hd. unfold apply_update.
  assert (∀ scopes m, validateScopes scopes = Ok tt → capability m = existsb IsAdminScope scopes →
    (b = false → existsb IsAdminScope scopes = false) → client_ok_but_name b (with_changes c req scopes m)) as Hok.
  { intros scopes m Hs Hm Hadm Hn. constructor; cbn [with_changes oc_RedirectURIs oc_PostLogoutRedirectURIs oc_GrantTypes
      oc_Scopes oc_Description oc_Name]; try done.
    - destruct (ur_RedirectURIs req); cbn; auto.
    - destruct (ur_PostLogoutRedirectURIs req); cbn; auto.
    - destruct (ur_GrantTypes req); cbn; auto.
    - destruct (ur_Description req); cbn; auto. }
  destruct (ur_Scopes req) as [scopes|]; [|by apply hoare_ret, Hok]. hoare_ok z Hs. destruct z.
  eapply hoare_bind with (Q1 := λ _, ur_AllowReservedScopes req = true ∨ validateUserManagedScopes scopes = Ok tt).
  { destruct (ur_AllowReservedScopes req); [apply hoare_ret; by left|apply hoare_lift; intros []; by right]. }
  intros _ Hum. apply hoare_ret, Hok; [done|apply sync_capability|by apply (scopes_reserved _ b scopes Hres Hum)].
Qed.
Lemma update_owned_inv b acc cid req : (ur_AllowReservedScopes req = true → b = true) →
  hoare (row_inv b) (UpdateClientByAccountID (R:=R) acc cid req) (client_ok b).
Proof.
  intros Hres. unfold UpdateClientByAccountID. eapply hoare_bind; [apply validate_update_inv|].
  intros _ (Hr&Hp&Hg&Hd). eapply hoare_bind with (Q1 := client_ok b).
  - apply hoare_tx_inv. unfold update_owned. eapply hoare_bind; [apply hoare_try, (find_inv b)|].
    intros [c|e] Hc; [|apply hoare_fail]. specialize (Hc c eq_refl). apply hoare_skip; [by apply hoare_guard|intros _].
    eapply hoare_bind; [by apply (apply_update_inv _ b)|]. intros c' Hc'.
    apply hoare_skip; [by apply hoare_app_now|intros now]. apply (update_inv b).
    intros Hn. apply (client_ok_same b c'); try done. by apply Hc'.
  - intros c Hc. apply hoare_skip; [by apply hoare_in_world|intros _]. by apply hoare_ret.
Qed.
Lemma delete_inv b acc cid : hoare (row_inv b) (DeleteClient (R:=R) acc cid) (λ _, True).
Proof.
  unfold DeleteClient. apply hoare_skip; [|intros _; by apply hoare_in_world]. apply hoare_tx_inv. unfold delete_owned.
  eapply hoare_bind; [apply (find_inv b)|]. intros c _. apply hoare_skip; [by apply hoare_guard|intros _].
  apply hoare_skip; [by apply hoare_app_now|intros now]. apply soft_delete_inv.
Qed.

(** ** Histories

    [reserved] tells whether some caller may manage reserved scopes; between two calls
    anything may happen but changes of our tables, and other processes keep the clients
    well-formed. *)
Inductive client_step (reserved : bool) : relation (App R) :=
  | cs_register req a r a' : (rr_AllowReservedScopes req = true → reserved = true) →
      RegisterClient req a = (r, a') → client_step reserved a a'
  | cs_update accountID clientID req a r a' : (ur_AllowReservedScopes req = true → reserved = true) →
      UpdateClientByAccountID accountID clientID req a = (r, a') → client_step reserved a a'
  | cs_delete accountID clientID a r a' : DeleteClient accountID clientID a = (r, a') → client_step reserved a a'
  | cs_delete_account accountID at_ a r a' :
      RunInTransaction (ClientRepo_SoftDeleteByAccountID accountID at_) a = (r, a') → client_step reserved a a'
  | cs_environment a a' : db_tables (ap_db a') = db_tables (ap_db a) → db_base (ap_db a') = db_base (ap_db a) →
      Forall (keeps (clients_ok reserved)) (db_others (ap_db a')) → client_step reserved a a'.

Lemma client_step_inv b a a' : client_step b a a' → row_inv b (ap_db a) → row_inv b (ap_db a').
Proof.
  intros Hs Ha. destruct Hs as [req a r a' Hres Heq|acc cid req a r a' Hres Heq|acc cid a r a' Heq|acc at_ a r a' Heq|a a' Ht Hb Ho].
  - exact (proj1 (hoare_run _ _ _ _ _ _ (register_inv b req Hres) Ha Heq)).
  - exact (proj1 (hoare_run _ _ _ _ _ _ (update_owned_inv b acc cid req Hres) Ha Heq)).
  - exact (proj1 (hoare_run _ _ _ _ _ _ (delete_inv b acc cid) Ha Heq)).
  - exact (proj1 (hoare_run _ _ _ _ _ _ (hoare_tx_inv _ _ _ (soft_delete_account_inv b acc at_)) Ha Heq)).
  - destruct Ha as (?&?&_). unfold row_inv, db_inv. by rewrite Ht, Hb.
Qed.
Lemma clients_reachable b a a' : row_inv b (ap_db a) → rtc (client_step b) a a' → clients_ok b (db_tables (ap_db a')).
Proof.
  intros Ha Hs. enough (row_inv b (ap_db a')) as (_&?&_) by done.
  induction Hs as [|a1 a2 a3 H1 _ IH]; [done|]. by apply IH, (client_step_inv b a1).
Qed.

(** C40: the clients stay well-formed. In every state reached by registrations, updates
    and deletions, with any lost or refused answers of the database and any interleaving
    with transactions that keep it so, every client has redirect URIs that are all http or
    https, without fragment and http only to loopback hosts, known grant types, scopes
    within the limits, bounded name and description; and the metadata say that a client
    is an administrator client exactly when it has a reserved scope. *)
Theorem clients_stay_valid reserved a a' id c :
  row_inv reserved (ap_db a) → rtc (client_step reserved) a a' →
  t_clients (db_tables (ap_db a')) !! id = Some c →
  Forall (λ uri, isValidRedirectScheme uri = true) (oc_RedirectURIs c ++ oc_PostLogoutRedirectURIs c) ∧
  Forall (λ g, IsValidGrantType g = true) (oc_GrantTypes c) ∧
  (Z.of_nat (length (oc_Scopes c)) <= 30 ∧ Forall (λ s, TrimSpace s ≠ "" ∧ slen s <= 256) (oc_Scopes c)) ∧
  slen (oc_Description c) <= 1024 ∧ char_count (oc_Name c) <= 255 ∧
  (HasAdminCapability (Some c) = true ↔ ∃ s, s ∈ oc_Scopes c ∧ IsAdminScope s = true).
Proof.
  intros Ha Hs Hc. destruct (ok_rows _ _ (clients_reachable _ _ _ Ha Hs) id c Hc) as [Hr Hp Hg Hsc Hd Hn Hcap _].
  split_and!; [| | | |done|done|].
  - apply Forall_app. split; apply Forall_forall; intros uri Hu;
      [by apply (redirect_valid _ uri Hr)|by apply (redirect_valid _ uri Hp)].
  - clear -Hg. induction (oc_GrantTypes c) as [|g l IH]; [done|]. cbn [validateGrantTypes] in Hg.
    destruct (existsb _ _) eqn:He; [|done]. constructor; [|by apply IH].
    apply existsb_exists in He as (v&Hv&->%bool_decide_eq_true). apply bool_decide_true. by apply list_elem_of_In.
  - unfold validateScopes in Hsc. destruct (Z.ltb_spec maxScopes (Z.of_nat (length (oc_Scopes c)))); [done|done].
  - unfold validateScopes in Hsc. destruct (_ <? Z.of_nat _); [done|].
    clear -Hsc. induction (oc_Scopes c) as [|s l IH]; [done|]. cbn [check_scopes] in Hsc.
    case_bool_decide; [done|]. destruct (Z.ltb_spec maxScopeLength (slen s)); [done|]. constructor; [done|by apply IH].
  - rewrite Hcap. setoid_rewrite list_elem_of_In. apply existsb_exists.
Qed.

(** The checks of the authorization endpoint are exact membership. For every client
    of a reachable state a redirect URI is accepted exactly when it is registered, and
    the scopes granted are those of the request that the client has: the scheme check and
    the administrator filter refuse nothing that registration let in. Where no caller may
    manage reserved scopes, no reserved scope is ever granted. *)
Theorem client_checks_are_membership reserved a a' id c :
  row_inv reserved (ap_db a) → rtc (client_step reserved) a a' →
  t_clients (db_tables (ap_db a')) !! id = Some c →
  (∀ uri, ValidateRedirectURI (Some c) uri = bool_decide (uri ∈ oc_RedirectURIs c)) ∧
  (∀ uri, ValidatePostLogoutRedirectURI (Some c) uri = bool_decide (uri ∈ oc_PostLogoutRedirectURIs c)) ∧
  (∀ l, ValidateScope (Some c) l = List.filter (λ s, bool_decide (s ∈ oc_Scopes c)) l) ∧
  (reserved = false → ∀ l s, s ∈ ValidateScope (Some c) l → IsAdminScope s = false).
Proof.
  intros Ha Hs Hc. destruct (ok_rows _ _ (clients_reachable _ _ _ Ha Hs) id c Hc) as [Hr Hp _ _ _ _ Hcap Hres].
  assert (∀ uri uris, validateRedirectURIs uris = Ok tt →
    (if negb (isValidRedirectScheme uri) then false else find_uri uri uris) = bool_decide (uri ∈ uris)) as Huri.
  { intros uri uris Hv. rewrite find_uri_spec. case_bool_decide as Hin; [|by destruct (negb _)].
    by rewrite (redirect_valid uris uri Hv Hin). }
  assert (∀ s, s ∈ oc_Scopes c → IsAdminScope s = true → existsb IsAdminScope (oc_Scopes c) = true) as Hadm
    by (intros s Hin Hs1; apply existsb_exists; exists s; by rewrite <-list_elem_of_In).
  assert (∀ l, ValidateScope (Some c) l = List.filter (λ s, bool_decide (s ∈ oc_Scopes c)) l) as Hsc.
  { intros l. unfold ValidateScope. apply filter_ext. intros s. case_bool_decide as Hin; [|by rewrite andb_false_r].
    destruct (IsAdminScope s) eqn:Hs1; [|done]. by rewrite Hcap, (Hadm s Hin Hs1). }
  split_and!; [intros uri; by apply Huri..|exact Hsc|].
  intros Hf l s Hin. rewrite Hsc in Hin. apply list_elem_of_In, filter_In in Hin as [_ Hin%bool_decide_eq_true].
  destruct (IsAdminScope s) eqn:Hs1; [|done]. pose proof (Hadm s Hin Hs1) as Hx. by rewrite (Hres Hf) in Hx.
Qed.
End properties.

(** ** Theorems of the client service: ownership, atomicity, concurrent updates *)
Section ownership.
Context {R : Type} `{Postgres} `{Bcrypt}.
Implicit Types a : App R.

(** The rows of [t] are those of [t0], but for the client of [acc] with this client_id. *)
Definition others_untouched (acc cid : string) (t0 t : Tables) : Prop :=
  ∀ id, t_clients t !! id = t_clients t0 !! id ∨
    ∃ c0 c, t_clients t0 !! id = Some c0 ∧ t_clients t !! id = Some c ∧
      oc_ClientID c0 = cid ∧ oc_ClientID c = cid ∧ oc_AccountID c0 = acc ∧ oc_AccountID c = acc.
Definition own_inv (b : bool) (acc cid : string) (t0 t : Tables) : Prop :=
  clients_ok b t ∧ others_untouched acc cid t0 t.
(** The row may be written on behalf of [acc]. *)
Definition owned (acc cid : string) (t0 : Tables) (id : string) : Prop :=
  ∃ c0, t_clients t0 !! id = Some c0 ∧ oc_ClientID c0 = cid ∧ oc_AccountID c0 = acc.

Lemma own_put b acc cid t0 t c row : own_inv b acc cid t0 t → client_ok b c →
  t_clients t !! oc_ID c = Some row → oc_ClientID c = oc_ClientID row → oc_AccountID c = oc_AccountID row →
  (live_client c = true → live_client row = true) → owned acc cid t0 (oc_ID row) →
  own_inv b acc cid t0 (put_client c t).
Proof.
  intros [Hok Hun] Hc Hrow Hcid Hacc Hl (c0&Hc0&Hcid0&Hacc0).
  pose proof (ok_keys _ _ Hok _ _ Hrow) as Hid. rewrite Hid in Hc0.
  split; [apply clients_ok_put; [done..|]; right; exists row; by rewrite <-Hcid|].
  intros id. cbn. destruct (decide (oc_ID c = id)) as [<-|Hne]; [|rewrite lookup_insert_ne by done; apply Hun].
  right. exists c0, c. rewrite lookup_insert_eq. split_and!; try done; destruct (Hun (oc_ID c)) as [Heq|(d0&d&?&?&?&?&?&?)];
    naive_solver congruence.
Qed.

Lemma find_any I cid : hoare (db_inv I) (findByClientID (R:=R) cid) (λ _, True).
Proof.
  unfold findByClientID. apply hoare_skip; [by apply hoare_wrap, hoare_statement_inv|].
  intros [c|]; [by apply hoare_ret|apply hoare_fail].
Qed.
Lemma find_owned b acc cid t0 : hoare (db_inv (own_inv b acc cid t0)) (findByClientID (R:=R) cid)
  (λ c, client_ok b c ∧ (oc_AccountID c = acc → owned acc cid t0 (oc_ID c))).
Proof.
  unfold findByClientID. eapply hoare_bind with 
    (Q1 := λ row, ∀ c, row = Some c → client_ok b c ∧ (oc_AccountID c = acc → owned acc cid t0 (oc_ID c))).
  { apply hoare_wrap, hoare_statement_inv. intros t ids [Hok Hun]. split; [done|]. cbn. intros row [= <-] c Hc.
    split; [by apply (clients_ok_row b t cid)|]. intros Hacc.
    destruct (client_row_some _ _ _ Hc) as (id&Hid&Hcid&_). pose proof (ok_keys _ _ Hok _ _ Hid) as Hkey. rewrite Hkey.
    destruct (Hun id) as [Heq|(c0&c'&Hc0&Hc1&?&?&?&?)]; [exists c|exists c0]; naive_solver congruence. }
  intros [c|] Hc; [apply hoare_ret, Hc; done|apply hoare_fail].
Qed.

Lemma update_stmt_owned b acc cid t0 c exp : client_ok_but_name b c → owned acc cid t0 (oc_ID c) →
  hoare (db_inv (own_inv b acc cid t0)) (ClientRepo_Update (R:=R) c exp) (λ _, True).
Proof.
  intros Hc Hown. unfold ClientRepo_Update. apply hoare_skip; [by apply hoare_app_now|intros now].
  apply hoare_skip.
  - apply hoare_wrap, hoare_statement_inv. intros t ids Ht. split; [|done]. unfold update_client.
    destruct (t_clients t !! oc_ID c) as [row|] eqn:Hrow; [|done]. destruct (_ && _); [|done].
    destruct (_ <? _) eqn:Hn; [done|]. apply Z.ltb_ge in Hn. pose proof (ok_keys _ _ (proj1 Ht) _ _ Hrow) as Hid.
    apply own_put with row; cbn; rewrite ?Hid; try done. by apply (client_ok_same b c); [..|apply Hc].
  - intros [u|]; [by apply hoare_ret|]. apply hoare_skip; [apply find_any|intros]. apply hoare_fail.
Qed.

Lemma apply_update_changes P req c :
  hoare P (apply_update (R:=R) req c) (λ c', ∃ s m, c' = with_changes c req s m).
Proof.
  unfold apply_update. destruct (ur_Scopes req) as [s|]; [|apply hoare_ret; eauto].
  hoare_ok z Hz. apply hoare_skip; [by repeat base_step|intros _]. apply hoare_ret. eauto.
Qed.
Lemma update_keeps_others b acc cid req t0 : (ur_AllowReservedScopes req = true → b = true) →
  hoare (db_inv (own_inv b acc cid t0)) (UpdateClientByAccountID (R:=R) acc cid req) (λ _, True).
Proof.
  intros Hres. unfold UpdateClientByAccountID. eapply hoare_bind; [apply validate_update_inv|].
  intros _ (Hr&Hp&Hg&Hd). apply hoare_skip.
  - apply hoare_tx_inv. unfold update_owned. eapply hoare_bind; [apply hoare_try, find_owned|].
    intros [c|e] Hc; [|apply hoare_fail]. destruct (Hc c eq_refl) as [Hok Hown].
    eapply hoare_bind with (Q1 := λ _, oc_AccountID c = acc).
    { apply hoare_guard. intros Hacc. by apply negb_false_iff, bool_decide_eq_true in Hacc. }
    intros _ Hacc.
    eapply hoare_bind; [apply hoare_and; [by apply (apply_update_inv _ b)|apply apply_update_changes]|].
    intros c' [Hc' (s&m&->)]. apply hoare_skip; [by apply hoare_app_now|intros now].
    apply update_stmt_owned; [|by apply Hown]. intros Hn. apply (client_ok_same b (with_changes c req s m)); try done.
    by apply Hc'.
  - intros c. apply hoare_skip; [by apply hoare_in_world|intros _]. by apply hoare_ret.
Qed.
Lemma delete_keeps_others b acc cid t0 :
  hoare (db_inv (own_inv b acc cid t0)) (DeleteClient (R:=R) acc cid) (λ _, True).
Proof.
  unfold DeleteClient. apply hoare_skip; [|intros _; by apply hoare_in_world]. apply hoare_tx_inv. unfold delete_owned.
  eapply hoare_bind; [apply find_owned|]. intros c [Hok Hown].
  eapply hoare_bind with (Q1 := λ _, oc_AccountID c = acc).
  { apply hoare_guard. intros Hacc. by apply negb_false_iff, bool_decide_eq_true in Hacc. }
  intros _ Hacc. apply hoare_skip; [by apply hoare_app_now|intros now]. unfold ClientRepo_SoftDelete.
  apply hoare_skip; [by apply hoare_app_now|intros now'].
  apply hoare_skip; [|intros rows; by apply hoare_guard].
  apply hoare_wrap, hoare_statement_inv. intros t ids Ht. split; [|done].
  destruct (t_clients t !! oc_ID c) as [row|] eqn:Hrow; [|done]. destruct (live_client row); [|done].
  pose proof (ok_keys _ _ (proj1 Ht) _ _ Hrow) as Hid. apply own_put with row; cbn; rewrite ?Hid; try done; [|by apply Hown].
  apply (client_ok_same b row); try done. exact (ok_rows _ _ (proj1 Ht) _ row Hrow).
Qed.
End ownership.

Section flows.
Context {R : Type} `{Postgres} `{Bcrypt}.
Implicit Types (a : App R) (w : World R).

Lemma others_untouched_refl acc cid t : others_untouched acc cid t t.
Proof. by left. Qed.

Lemma base_find cid b : hoare (at_base b) (findByClientID (R:=R) cid) (λ _, True).
Proof. unfold findByClientID. repeat base_step. Qed.
Lemma base_update acc cid req b : hoare (at_base b) (update_owned (R:=R) acc cid req) (λ _, True).
Proof.
  unfold update_owned, apply_update, ClientRepo_Update. pose proof base_find.
  repeat (base_step; auto).
Qed.
Lemma base_delete acc cid b : hoare (at_base b) (delete_owned (R:=R) acc cid) (λ _, True).
Proof. unfold delete_owned, ClientRepo_SoftDelete. pose proof base_find. repeat (base_step; auto). Qed.
Lemma pure_validate_update req : pure (validate_update (R:=R) req).
Proof. unfold validate_update. pure_solve. Qed.
Lemma pure_apply_update req c : pure (apply_update (R:=R) req c).
Proof. unfold apply_update. pure_solve. Qed.

(** A client is changed by its owner only, and as a whole or not at all. Between
    transactions of others, an update or a deletion leaves every row as it was but the
    one with this client_id that belongs to the calling account, whatever answers of the
    database are lost; and when the call fails and no answer was lost, all tables are as
    they were. *)
Theorem client_changes_are_owned b acc cid req a :
  row_inv b (ap_db a) → db_base (ap_db a) = db_tables (ap_db a) → alone (ap_db a) →
  (ur_AllowReservedScopes req = true → b = true) →
  (∀ r a', UpdateClientByAccountID acc cid req a = (r, a') →
     others_untouched acc cid (db_tables (ap_db a)) (db_tables (ap_db a')) ∧
     (is_ok r = false → answered (ap_db a) → db_tables (ap_db a') = db_tables (ap_db a))) ∧
  (∀ r a', DeleteClient acc cid a = (r, a') →
     others_untouched acc cid (db_tables (ap_db a)) (db_tables (ap_db a')) ∧
     (is_ok r = false → answered (ap_db a) → db_tables (ap_db a') = db_tables (ap_db a))).
Proof.
  intros (Hb&Ht&_) Hbase Hal Hres. set (t0 := db_tables (ap_db a)).
  assert (db_inv (own_inv b acc cid t0) (ap_db a)) as Hinv.
  { split_and!; [rewrite Hbase; split; [done|apply others_untouched_refl]|split; [done|apply others_untouched_refl]|].
    rewrite Hal. constructor. }
  split; intros r a' Heq; (split; [|intros Herr Hans; destruct r as [|e]; [done|]]).
  - exact (proj2 (proj1 (proj2 (proj1 (hoare_run _ _ _ _ _ _ (update_keeps_others b acc cid req t0 Hres) Hinv Heq))))).
  - unfold UpdateClientByAccountID, bind in Heq. pose proof (pure_validate_update req a) as Hp.
    destruct (validate_update req a) as [[x|e1] a1]; cbn in Hp; subst a1; [|by injection Heq as _ <-].
    destruct (RunInTransaction _ a) as [[c|e2] a2] eqn:Htx; [done|]. injection Heq as <- <-.
    exact (tx_atomic _ _ _ _ _ (base_update acc cid req) Hal Hans Htx).
  - exact (proj2 (proj1 (proj2 (proj1 (hoare_run _ _ _ _ _ _ (delete_keeps_others b acc cid t0) Hinv Heq))))).
  - unfold DeleteClient, bind in Heq.
    destruct (RunInTransaction _ a) as [[c|e2] a2] eqn:Htx; [done|]. injection Heq as <- <-.
    exact (tx_atomic _ _ _ _ _ (base_delete acc cid) Hal Hans Htx).
Qed.

(** Steps of a run with a database that answers. *)
Lemma wp_find cid (Q : res OAuth2Client → App R → Prop) w b t ids g others :
  (let a' := mkApp w (mkDB (g b) (g t) ids [] others) in
   match client_row (g t) cid with Some c => Q (Ok c) a' | None => Q (Err (Wrap cid ErrClientNotFound)) a' end) →
  wp (findByClientID cid) Q (mkApp w (mkDB b t ids [] (g :: others))).
Proof.
  intros HQ. unfold findByClientID. wp_steps. apply wp_stmt. cbn. destruct (client_row _ _); wp_step; exact HQ.
Qed.
Lemma wp_find_alone cid (Q : res OAuth2Client → App R → Prop) w b t ids :
  (let a' := mkApp w (mkDB b t ids [] []) in
   match client_row t cid with Some c => Q (Ok c) a' | None => Q (Err (Wrap cid ErrClientNotFound)) a' end) →
  wp (findByClientID cid) Q (mkApp w (mkDB b t ids [] [])).
Proof.
  intros HQ. unfold findByClientID. wp_steps. apply wp_stmt_alone. cbn. destruct (client_row _ _); wp_step; exact HQ.
Qed.

(** No update is lost. Others commit [g1] after the transaction began and [g2] after
    it read the client. When the update succeeds, the row it overwrites still carried the
    time of change that was read, so nobody had written it in between, and the tables
    are those of the others with this row replaced; otherwise they are exactly what
    the others made of them. *)
Theorem no_lost_update acc cid req w t ids g1 g2 r a' :
  UpdateClientByAccountID acc cid req (mkApp w (mkDB t t ids [] [g1; g2])) = (r, a') →
  match r with
  | Ok c' => ∃ c row, client_row (g1 t) cid = Some c ∧ oc_AccountID c = acc ∧
      t_clients (g2 (g1 t)) !! oc_ID c = Some row ∧ live_client row = true ∧
      oc_UpdatedAt row = pg_round (oc_UpdatedAt c) ∧
      db_tables (ap_db a') = put_client (updated_row (w_now w) c' row) (g2 (g1 t))
  | Err _ => db_tables (ap_db a') ∈ [t; g1 t; g2 (g1 t)]
  end.
Proof.
  intros Heq. refine (wp_intro _ (λ r a', match r with Ok _ => _ | Err _ => _ end) _ _ _ Heq _). clear r a' Heq.
  unfold UpdateClientByAccountID. wp_step. apply wp_pure; [apply pure_validate_update|]. intros [[]|e] _; [|cbn; set_solver].
  wp_step. apply wp_tx. unfold update_owned. wp_steps. apply wp_find. cbv zeta beta iota.
  destruct (client_row (g1 t) cid) as [c|] eqn:Hc; [|wp_step; cbn; set_solver].
  wp_step. apply wp_guard_err; [cbn; intros _; set_solver|intros Hacc]. apply negb_false_iff, bool_decide_eq_true in Hacc.
  wp_step. apply wp_pure; [apply pure_apply_update|]. intros [c2|e] Hup; [|cbn; set_solver].
  assert (oc_ID c2 = oc_ID c) as Hid.
  { pose proof (hoare_run _ _ _ _ _ _ (apply_update_changes (λ _, True) req c) I Hup) as [_ Hx].
    by destruct (Hx c2 eq_refl) as (s&m&->). }
  unfold app_now. wp_step. apply wp_gets. cbn [ap_world]. unfold ClientRepo_Update, app_now. wp_step. apply wp_gets. cbn [ap_world].
  wp_steps. apply wp_stmt. cbn [fst snd]. unfold update_client. cbn [with_updated_at client_with_dates oc_ID oc_Name]. rewrite Hid.
  set (t2 := g2 (g1 t)).
  assert (∀ e, wp (findByClientID (oc_ClientID (with_updated_at (w_now w) c2)) ;; fail e) (λ (r : res OAuth2Client) a', db_fates (ap_db a') = [] ∧
    match r with Ok _ => False | Err _ => db_base (ap_db a') = t2 end) (mkApp w (mkDB t2 t2 ids [] []))) as Hfail.
  { intros e. wp_step. apply wp_find_alone. cbv zeta beta iota. destruct (client_row t2 _); [apply wp_fail|]; by split. }
  destruct (t_clients t2 !! oc_ID c) as [row|] eqn:Hrow; cbn.
  2: { eapply wp_mono; [apply Hfail|]. intros [?|e] a2 [Hf Hbase]; [done|]. split; [done|]. cbn in *. rewrite Hbase. set_solver. }
  destruct (_ && _) eqn:Hlive; cbn.
  2: { eapply wp_mono; [apply Hfail|]. intros [?|e] a2 [Hf Hbase]; [done|]. split; [done|]. cbn in *. rewrite Hbase. set_solver. }
  apply andb_true_iff in Hlive as [Hlive Hupd%bool_decide_eq_true].
  destruct (_ <? _); cbn; [split; [done|]; set_solver|].
  wp_step. split; [done|]. exists c, row. split_and!; try done.
Qed.

(** ** Registration *)
Lemma select_put (t : Tables) c : client_row t (oc_ClientID c) = None → t_clients t !! oc_ID c = None →
  live_client c = true → client_row (put_client c t) (oc_ClientID c) = Some c.
Proof.
  intros Hnone Hfresh Hl. destruct (client_row (put_client c t) (oc_ClientID c)) as [c'|] eqn:Hrow.
  - apply client_row_some in Hrow as (i&Hi&Hcid&Hl'). cbn in Hi. apply lookup_insert_Some in Hi as [[_ ->]|[_ Hi]]; [done|].
    by destruct (client_row_none _ _ _ _ Hnone Hi Hl').
  - destruct (client_row_none _ _ (oc_ID c) c Hrow); [cbn; apply lookup_insert_eq|done|done].
Qed.
Lemma char_count_le s : char_count s <= slen s.
Proof. unfold slen. induction s as [|c s IH]; cbn [char_count String.length]; [done|]. destruct (cont c); lia. Qed.
Lemma hex_length l : String.length (hex_encode l) = (2 * length l)%nat.
Proof. induction l as [|x l IH]; cbn [hex_encode String.length length]; [done|]. rewrite IH. lia. Qed.

Lemma find_eq cid c w b t ids : client_row t cid = Some c →
  findByClientID cid (mkApp w (mkDB b t ids [] [])) = (Ok c, mkApp w (mkDB b t ids [] [])).
Proof. intros Hc. unfold findByClientID, bind, wrap, statement. cbn. by rewrite Hc. Qed.
Lemma find_none cid w b t ids : client_row t cid = None →
  findByClientID cid (mkApp w (mkDB b t ids [] [])) = (Err (Wrap cid ErrClientNotFound), mkApp w (mkDB b t ids [] [])).
Proof. intros Hc. unfold findByClientID, bind, wrap, statement. cbn. by rewrite Hc. Qed.

(** What the controller and the service ask of a request. *)
Record valid_registration (req : RegisterClientRequest) : Prop := ValidRegistration {
  vr_account : rr_AccountID req ≠ "";
  vr_name : validateClientName (rr_Name req) true = Ok tt;
  vr_width : char_count (rr_Name req) <= 255;
  vr_description : validateClientDescription (rr_Description req) = Ok tt;
  vr_redirects : validateRedirectURIs (rr_RedirectURIs req) = Ok tt;
  vr_logout : validateRedirectURIs (rr_PostLogoutRedirectURIs req) = Ok tt;
  vr_grants : validateGrantTypes (rr_GrantTypes req) = Ok tt;
  vr_scopes : validateScopes (if bool_decide (rr_Scopes req = []) then ["openid"] else rr_Scopes req) = Ok tt;
  vr_reserved : rr_AllowReservedScopes req = true ∨
    validateUserManagedScopes (if bool_decide (rr_Scopes req = []) then ["openid"] else rr_Scopes req) = Ok tt;
}.

Lemma new_client_ok now u acc name cid gts : acc ≠ "" → cid ≠ "" → name ≠ "" → gts ≠ [] →
  validateGrantTypes gts = Ok tt →
  NewOAuth2Client now u acc name cid gts =
    Ok (mkClient u acc cid "" name "" [] [] gts [] false (Some []) "" false "" false now now None).
Proof.
  intros Ha Hc Hn Hg Hv. unfold NewOAuth2Client. rewrite !bool_decide_false by done.
  enough (check_grant_types gts = Ok tt) as -> by done. clear Hg.
  induction gts as [|g l IH]; [done|]. cbn [validateGrantTypes check_grant_types] in *. unfold IsValidGrantType.
  destruct (existsb _ _) eqn:He; [|done]. apply existsb_exists in He as (v&Hv1&->%bool_decide_eq_true).
  rewrite bool_decide_true by by apply list_elem_of_In. by apply IH.
Qed.

(** The steps of a run that draw on entropy. *)
Lemma wp_draw n (Q : res (list N) → App R → Prop) w d b l : w_rand w = b :: l →
  Q (Ok (rand_block n b)) (mkApp (mkWorld (w_redis w) (w_now w) (w_net w) l (w_uuid w) (w_audit w)) d) →
  wp (in_world (rand_read n)) Q (mkApp w d).
Proof. intros Hr HQ. wp_unfold. unfold in_world, rand_read. cbn. by rewrite Hr. Qed.
Lemma wp_register_secret conf (Q : res (string * string) → App R → Prop) w d b2 b3 l : w_rand w = b2 :: b3 :: l →
  (∀ secret hash l', (if conf : bool then secret ≠ "" ∧ bcrypt_compare hash secret = true else secret = "") →
     Q (Ok (secret, hash)) (mkApp (mkWorld (w_redis w) (w_now w) (w_net w) l' (w_uuid w) (w_audit w)) d)) →
  wp (new_secret conf) Q (mkApp w d).
Proof.
  intros Hr HQ. unfold new_secret. destruct conf.
  2: { wp_step. specialize (HQ "" "" (w_rand w) eq_refl). by destruct w. }
  unfold generateClientSecret, GenerateFromPassword. wp_steps. eapply wp_draw; [exact Hr|]. cbn [wrap_res].
  wp_step. cbn [wrap_res]. wp_steps. eapply wp_draw; [done|]. wp_step. set (secret := hex_encode (rand_block 32 b2)).
  assert (slen secret = 64) as Hlen by (unfold slen, secret; by rewrite hex_length, rand_block_length).
  pose proof (bcrypt_total (rand_block 16 b3) secret) as Hok. rewrite Hlen in Hok. specialize (Hok ltac:(lia)).
  destruct (bcrypt_hash _ _) as [h|] eqn:Hh; [|done]. cbn [wrap_res]. wp_step. apply HQ.
  split; [by intros Hs; rewrite Hs in Hlen|]. by apply bcrypt_complete in Hh.
Qed.

(** A valid registration succeeds and can be used. With a database that answers and
    fresh identifiers the client is stored as returned: it is found under its client_id,
    belongs to the account that registered it, and authenticates with the secret that
    was handed out; if it is confidential that secret is not empty and without a secret
    it does not authenticate. *)
Theorem registration_round_trip req w t id ids b1 b2 b3 l u us :
  valid_registration req → w_rand w = b1 :: b2 :: b3 :: l → w_uuid w = u :: us →
  let cid := hex_encode (rand_block 24 b1) in
  client_row t cid = None → t_clients t !! id = None →
  ∃ c secret a', RegisterClient req (mkApp w (mkDB t t (id :: ids) [] [])) = (Ok (c, secret), a') ∧
    db_tables (ap_db a') = put_client c t ∧
    FindByClientID cid a' = (Ok c, a') ∧ oc_ID c = id ∧ oc_ClientID c = cid ∧ oc_AccountID c = rr_AccountID req ∧
    AuthenticateClient c secret = Ok tt ∧
    (rr_IsConfidential req = true → secret ≠ "" ∧ AuthenticateClient c "" = Err ErrClientSecretRequired).
Proof.
  intros [Hacc Hname Hwidth Hdesc Hred Hlog Hgr Hsc Hres] Hrand Huuid cid Hrow Hfresh.
  enough (wp (RegisterClient req) (λ r a', ∃ c secret, r = Ok (c, secret) ∧ db_tables (ap_db a') = put_client c t ∧
    FindByClientID cid a' = (Ok c, a') ∧ oc_ID c = id ∧ oc_ClientID c = cid ∧ oc_AccountID c = rr_AccountID req ∧
    AuthenticateClient c secret = Ok tt ∧
    (rr_IsConfidential req = true → secret ≠ "" ∧ AuthenticateClient c "" = Err ErrClientSecretRequired))
    (mkApp w (mkDB t t (id :: ids) [] []))) as Hwp.
  { destruct (wp_eq _ _ _ Hwp) as (r&a'&Heq&c&secret&->&Hrest). by exists c, secret, a'. }
  unfold RegisterClient, generateClientID. wp_steps. eapply wp_draw; [exact Hrand|]. cbn [wrap_res]. wp_step. fold cid. cbn [wrap_res].
  wp_step. unfold validate_registration. rewrite Hname, Hdesc, Hred, Hlog, Hgr.
  assert (∀ b : bool, (if b then ret tt else lift_res (Ok tt)) = ret (S:=App R) tt) as Hif by by intros [].
  rewrite Hif. wp_steps. cbn [wrap_res]. wp_steps. eapply wp_register_secret; [done|]. intros secret hash l' Hsecret.
  rewrite Hsc. wp_steps.
  assert ((if rr_AllowReservedScopes req then ret tt else lift_res (validateUserManagedScopes
    (if bool_decide (rr_Scopes req = []) then ["openid"] else rr_Scopes req))) = ret (S:=App R) tt) as ->.
  { destruct Hres as [->| ->]; [done|by apply Hif]. }
  wp_steps. unfold app_now. wp_steps. wp_unfold. unfold in_world, uuid_new. cbn [ap_world ap_db w_uuid]. rewrite Huuid.
  cbn [fst snd]. wp_steps. cbn [w_now w_redis w_net w_audit].
  assert (rr_Name req ≠ "") as Hne by (intros Hx; by rewrite Hx in Hname).
  assert (slen cid = 48) as Hlen by (unfold slen, cid; by rewrite hex_length, rand_block_length).
  rewrite new_client_ok; [|done|by intros Hx; rewrite Hx in Hlen|done|
    by destruct (bool_decide_reflect (rr_GrantTypes req = []))..].
  cbn [wrap_res]. wp_steps. apply wp_tx. unfold ClientRepo_Create, app_now. wp_steps. apply wp_stmt_alone.
  unfold create_client. cbn [oc_Name oc_ClientID with_registration].
  rewrite (proj2 (Z.ltb_ge 255 _)) by done. rewrite (proj2 (Z.ltb_ge 255 (char_count cid))) by (pose proof (char_count_le cid); lia).
  rewrite Hfresh, Hrow. cbn [fst snd wrap_res].
  split; [done|]. wp_steps. wp_unfold. unfold in_world, audit_log. cbn [fst snd]. wp_step. eexists _, secret.
  split; [done|]. split; [done|]. split; [apply find_eq, (select_put t); done|]. split_and!; try done.
  - unfold AuthenticateClient. cbn [with_registration oc_IsConfidential oc_ClientSecretHash client_with_dates].
    destruct (rr_IsConfidential req); [|done]. destruct Hsecret as [Hs Hcmp]. by rewrite bool_decide_false, Hcmp.
  - intros Hconf. rewrite Hconf in Hsecret. split; [apply Hsecret|]. unfold AuthenticateClient. cbn. by rewrite Hconf.
Qed.

(** ** Deletion *)
(** A deleted client is gone. With a database that answers, deleting one's client
    succeeds; afterwards nothing is found under its client_id, and the row that is left
    has lost the hash of the secret. A client of another account is refused and nothing
    changes. *)
Theorem deleted_client_is_gone b acc cid c w t ids :
  clients_ok b t → client_row t cid = Some c →
  let a := mkApp w (mkDB t t ids [] []) in
  ∃ r a', DeleteClient acc cid a = (r, a') ∧
    (oc_AccountID c = acc → r = Ok tt ∧ (FindByClientID cid a').1 = Err (Wrap cid ErrClientNotFound) ∧
       ∃ row, t_clients (db_tables (ap_db a')) !! oc_ID c = Some row ∧ oc_ClientSecretHash row = "" ∧ live_client row = false) ∧
    (oc_AccountID c ≠ acc → r = Err ErrClientAccessDenied ∧ ap_db a' = ap_db a).
Proof.
  intros Hok Hrow a. apply wp_eq. destruct (client_row_some _ _ _ Hrow) as (i&Hi&Hcid&Hlive).
  pose proof (ok_keys _ _ Hok _ _ Hi) as Hid. subst i.
  unfold DeleteClient, a. wp_step. apply wp_tx. unfold delete_owned. wp_step. apply wp_find_alone. cbv zeta beta iota. rewrite Hrow.
  wp_step. apply wp_guard_err; intros Hacc.
  { apply negb_true_iff, bool_decide_eq_false in Hacc. split; [done|]. by split. }
  apply negb_false_iff, bool_decide_eq_true in Hacc.
  unfold ClientRepo_SoftDelete, app_now. wp_steps. apply wp_stmt_alone. cbn [db_tables]. rewrite Hi, Hlive. cbn.
  split; [done|]. split; [|done]. intros _. split; [done|]. split.
  - set (row := client_deleted _ _ c). unfold FindByClientID.
    refine (f_equal fst (find_none cid _ _ (put_client row t) _ _)). destruct (client_row (put_client row t) cid) as [c'|] eqn:Hc'; [|done].
    apply client_row_some in Hc' as (j&Hj&Hcid'&Hlive'). cbn in Hj. apply lookup_insert_Some in Hj as [[_ <-]|[Hne Hj]]; [done|].
    destruct Hne. apply (ok_unique _ _ Hok _ _ c c'); congruence.
  - eexists. split; [apply lookup_insert_eq|done].
Qed.
End flows.
