(* ===== verification/ClientController.v ===== *)
(** * [internal/oauth2/controller/client_controller.go] and [internal/controllerutil]

    A handler answers with data or with an error message, each with its HTTP status. The
    body of a request arrives decoded; the [binding] tags are checked here. Parsing of
    UUIDs is the library [google/uuid]: of its forms only the lengths matter. *)
From S2P Require Import Prelude GoTime Json Hash Redis World TokenDomain Url GoStrings OAuthDomain Database ClientRepo ClientService ClientProps.
Local Open Scope Z_scope.

Class UUIDLib := {
  uuid_parse : string → bool;
  uuid_parse_length s : uuid_parse s = true → slen s ∈ [32; 36; 38; 45];
}.

Inductive reply (A : Type) : Type :=
  | Data (status : Z) (a : A)
  | Failure (status : Z) (msg : string).
Arguments Data {A}. Arguments Failure {A}.

(** ** [error_handler.go], [response_helpers.go] *)
Record ErrorRule : Type := mkRule { ru_Sentinel : err; ru_Status : Z; ru_Message : string }.
Fixpoint AbortWithServiceError {A} (e : err) (rules : list ErrorRule) (fallbackStatus : Z) (fallbackMsg : string) : reply A :=
  match rules with
  | [] => Failure fallbackStatus fallbackMsg
  | r :: l => if errors_is e (ru_Sentinel r) then Failure (ru_Status r) (ru_Message r)
              else AbortWithServiceError e l fallbackStatus fallbackMsg
  end.
(** The rest of the handler runs with a valid identifier. *)
Definition ValidateUUID `{UUIDLib} {S A} (value paramName : string) (k : M S (reply A)) : M S (reply A) :=
  if uuid_parse value then k else ret (Failure 400 ("invalid " +:+ paramName)).
(** [middleware.RequireAccountID]: the account the authentication put into the context. *)
Definition RequireAccountID {S A} (account : option string) (k : string → M S (reply A)) : M S (reply A) :=
  match account with
  | Some accountID => if bool_decide (accountID = "") then ret (Failure 401 "unauthorized") else k accountID
  | None => ret (Failure 401 "unauthorized")
  end.

(** What the authentication middleware leaves in the context. *)
Record Caller : Type := mkCaller { ca_account : option string; ca_claims : option AccessTokenClaims }.

Definition RoleAdmin : string := "admin".
Definition canManageReservedClientScopes (claims : option AccessTokenClaims) : bool :=
  match claims with
  | None => false
  | Some c => existsb (λ role, bool_decide (role = RoleAdmin)) (cl_Roles c)
              && existsb (λ scope, bool_decide (scope = ScopeAdmin)) (Fields (cl_Scope c))
  end.

(** ** Requests *)
Record RegisterBody : Type := mkRegisterBody {
  rb_Name : string;
  rb_Description : string;
  rb_RedirectURIs : list string;
  rb_PostLogoutRedirectURIs : list string;
  rb_GrantTypes : list string;
  rb_Scopes : list string;
  rb_IsConfidential : bool;
}.
(** [required,max=255], [max=2000], [required,min=1]; lengths of strings in characters. *)
Definition bind_register (b : RegisterBody) : bool :=
  negb (bool_decide (rb_Name b = "")) && (char_count (rb_Name b) <=? 255)
  && (char_count (rb_Description b) <=? 2000) && negb (bool_decide (rb_RedirectURIs b = [])).

Record RegisterClientResponse : Type := mkRegisterResponse {
  rs_ClientID : string;
  rs_ClientSecret : string;
  rs_Name : string;
}.

Section handlers.
Context {R : Type} `{Postgres} `{Bcrypt} `{UUIDLib}.
#[local] Abbreviation AM := (M (App R)).

Definition clientErrorMap : list ErrorRule :=
  [mkRule ErrClientNotFound 404 "client not found"; mkRule ErrClientAccessDenied 403 "access denied"].

(** [err.Error()] of a validation error. *)
Fixpoint error_text (e : err) : string :=
  match e with
  | Sentinel m | Anon m | Typed _ m => m
  | Wrap c e' => c +:+ ": " +:+ error_text e'
  end.

Definition RegisterClientHandler (who : Caller) (body : option RegisterBody) : AM (reply RegisterClientResponse) :=
  match body with
  | None => ret (Failure 400 "invalid request body")
  | Some b =>
      if negb (bind_register b) then ret (Failure 400 "invalid request body") else
      RequireAccountID (ca_account who) (λ accountID,
        let! r := try (RegisterClient (mkRegister accountID (rb_Name b) (rb_Description b) (rb_RedirectURIs b)
          (rb_PostLogoutRedirectURIs b) (rb_GrantTypes b) (rb_Scopes b) (rb_IsConfidential b) None
          (canManageReservedClientScopes (ca_claims who)))) in
        ret match r with
            | Ok (client, secret) => Data 201 (mkRegisterResponse (oc_ClientID client) secret (oc_Name client))
            | Err e => if IsValidationError e then Failure 400 (error_text e)
                       else Failure 500 "failed to register client"
            end)
  end.

Definition ListClients (who : Caller) : AM (reply (list OAuth2Client)) :=
  RequireAccountID (ca_account who) (λ accountID,
    let! r := try (FindByAccountID accountID) in
    ret match r with
        | Ok clients => Data 200 clients
        | Err _ => Failure 500 "failed to list clients"
        end).

Definition GetClient (who : Caller) (client_id : string) : AM (reply OAuth2Client) :=
  ValidateUUID client_id "client_id" (RequireAccountID (ca_account who) (λ accountID,
    let! r := try (FindByClientID client_id) in
    ret match r with
        | Ok client => if bool_decide (oc_AccountID client = accountID) then Data 200 client
                       else Failure 403 "access denied"
        | Err _ => Failure 403 "access denied"
        end)).

(** [req] without [AllowReservedScopes], which the body cannot set. *)
Definition allow_reserved (allow : bool) (req : UpdateClientRequest) : UpdateClientRequest :=
  mkUpdate (ur_Name req) (ur_Description req) (ur_RedirectURIs req) (ur_PostLogoutRedirectURIs req)
    (ur_GrantTypes req) (ur_Scopes req) allow.
Definition UpdateClientHandler (who : Caller) (client_id : string) (body : option UpdateClientRequest) :
    AM (reply OAuth2Client) :=
  ValidateUUID client_id "client_id" (RequireAccountID (ca_account who) (λ accountID,
    match body with
    | None => ret (Failure 400 "invalid request body")
    | Some req =>
        let! r := try (UpdateClientByAccountID accountID client_id
          (allow_reserved (canManageReservedClientScopes (ca_claims who)) req)) in
        ret match r with
            | Ok client => Data 200 client
            | Err e => if IsValidationError e then Failure 400 (error_text e)
                       else AbortWithServiceError e clientErrorMap 400 "failed to update client"
            end
    end)).

Definition DeleteClientHandler (who : Caller) (client_id : string) : AM (reply string) :=
  ValidateUUID client_id "client_id" (RequireAccountID (ca_account who) (λ accountID,
    let! r := try (DeleteClient accountID client_id) in
    ret match r with
        | Ok _ => Data 200 "client deleted"
        | Err e => AbortWithServiceError e clientErrorMap 500 "Failed to delete client"
        end)).

(** ** Properties *)
Implicit Types a : App R.

Lemma registered_id req a c s a' : RegisterClient req a = (Ok (c, s), a') → slen (oc_ClientID c) = 48.
Proof.
  intros Heq. enough (hoare (λ _, True) (RegisterClient (R:=R) req) (λ x, slen (oc_ClientID x.1) = 48)) as Hh
    by exact (proj2 (hoare_run _ _ _ _ _ _ Hh I Heq) (c, s) eq_refl).
  clear a c s a' Heq. unfold RegisterClient. eapply hoare_bind with (Q1 := λ cid, slen cid = 48).
  { apply hoare_wrap. unfold generateClientID. eapply hoare_bind with (Q1 := λ bytes, length bytes = 24%nat).
    - apply hoare_wrap, hoare_in_world. intros w x. unfold rand_read. destruct (w_rand w) as [|b l]; [done|].
      cbn. intros [= <-]. apply rand_block_length.
    - intros bytes Hb. apply hoare_ret. unfold slen. by rewrite hex_length, Hb. }
  intros cid Hcid. apply hoare_skip; [eapply hoare_mono; [apply validate_registration_inv|done]|intros _].
  apply hoare_skip; [apply new_secret_inv|]. intros [plain hash]. apply hoare_skip; [by apply hoare_lift|intros _].
  apply hoare_skip; [by destruct (rr_AllowReservedScopes req); [apply hoare_ret|apply hoare_lift]|intros _].
  apply hoare_skip; [by apply hoare_app_now|intros now]. apply hoare_skip; [by apply hoare_in_world|intros id].
  hoare_ok_wrapped c Hc.
  assert (oc_ClientID c = cid) as Hoc.
  { unfold NewOAuth2Client in Hc. repeat (destruct (bool_decide _); [done|]). destruct (check_grant_types _); by simplify_eq. }
  eapply hoare_bind with (Q1 := λ c', oc_ClientID c' = oc_ClientID c).
  { apply hoare_wrap. apply tx_result. unfold ClientRepo_Create. apply hoare_skip; [by apply hoare_app_now|intros now'].
    apply hoare_wrap, statement_result. intros t ids x. unfold create_client. destruct ids as [|i ids]; [done|].
    set (c1 := with_registration _ _ _ _ _). destruct (_ <? char_count (oc_Name c1)); [done|].
    destruct (_ <? char_count (oc_ClientID c1)); [done|].
    destruct (t_clients t !! i), (client_row t (oc_ClientID c1)); try done. by intros [= <-]. }
  intros c' Hc'. apply hoare_skip; [by apply hoare_in_world|intros _]. apply hoare_ret. cbn. by rewrite Hc', Hoc.
Qed.

(** The endpoints for one client know no registered client. The identifiers that
    registration hands out have 48 characters, and the handlers that read, change and
    delete a client accept the textual forms of a UUID only: for every client that was
    ever registered they answer 400 and do nothing, whoever asks. *)
Theorem registered_clients_are_unreachable req a c s a1 who who_body a2 :
  RegisterClient req a = (Ok (c, s), a1) →
  GetClient who (oc_ClientID c) a2 = (Ok (Failure 400 "invalid client_id"), a2) ∧
  UpdateClientHandler who (oc_ClientID c) who_body a2 = (Ok (Failure 400 "invalid client_id"), a2) ∧
  DeleteClientHandler who (oc_ClientID c) a2 = (Ok (Failure 400 "invalid client_id"), a2).
Proof.
  intros Hreg%registered_id.
  assert (uuid_parse (oc_ClientID c) = false) as Hu.
  { destruct (uuid_parse (oc_ClientID c)) eqn:Hu; [|done]. apply uuid_parse_length in Hu. rewrite Hreg in Hu. set_solver by lia. }
  unfold GetClient, UpdateClientHandler, DeleteClientHandler, ValidateUUID. by rewrite Hu.
Qed.

(** The endpoints give a client to its owner only. Reading answers with a client only
    to the account it belongs to; updating and deleting answer with success only when the
    client was found as one of the caller's account; and without an account every
    endpoint refuses. *)
Theorem client_endpoints_check_owner who cid body a :
  (∀ s c a', GetClient who cid a = (Ok (Data s c), a') →
     s = 200 ∧ ca_account who = Some (oc_AccountID c) ∧ oc_AccountID c ≠ "" ∧ FindByClientID cid a = (Ok c, a')) ∧
  (∀ s c a', UpdateClientHandler who cid body a = (Ok (Data s c), a') →
     ∃ accountID req, s = 200 ∧ ca_account who = Some accountID ∧ accountID ≠ "" ∧ body = Some req ∧
       UpdateClientByAccountID accountID cid (allow_reserved (canManageReservedClientScopes (ca_claims who)) req) a = (Ok c, a')) ∧
  (∀ s m a', DeleteClientHandler who cid a = (Ok (Data s m), a') →
     ∃ accountID, s = 200 ∧ ca_account who = Some accountID ∧ accountID ≠ "" ∧ DeleteClient accountID cid a = (Ok tt, a')).
Proof.
  unfold GetClient, UpdateClientHandler, DeleteClientHandler, ValidateUUID, RequireAccountID.
  destruct (uuid_parse cid); [|by split_and!].
  destruct (ca_account who) as [acc|]; [|by split_and!]. case_bool_decide as Hacc; [by split_and!|].
  assert (∀ {A} e rules st msg s (x : A), AbortWithServiceError e rules st msg ≠ Data s x) as Habort.
  { intros A e rules st msg s x. induction rules as [|r l IH]; cbn; [done|]. by destruct (errors_is e _). }
  unfold bind, try. split_and!.
  - intros s c a'. destruct (FindByClientID cid a) as [[c1|e] a1] eqn:Hf; cbn; [|by intros [=]].
    case_bool_decide as Hown; intros [=]; subst. by split_and!.
  - intros s c a'. destruct body as [req|]; [|done].
    destruct (UpdateClientByAccountID _ _ _ _) as [[c1|e] a1] eqn:Hf; cbn.
    + intros [=]; subst. by exists acc, req.
    + destruct (IsValidationError e); [by intros [=]|]. intros [= Hx _]. by destruct (Habort _ e clientErrorMap _ _ _ _ Hx).
  - intros s m a'. destruct (DeleteClient _ _ _) as [[[]|e] a1] eqn:Hf; cbn.
    + intros [=]; subst. by exists acc.
    + intros [= Hx _]. by destruct (Habort _ e clientErrorMap _ _ _ _ Hx).
Qed.
End handlers.
