(* ===== verification/AccountRepo.v ===== *)
(** * [internal/account/repository] and the table of passkeys *)
From S2P Require Import Prelude GoTime Json Hash Redis World OAuthDomain GoStrings AccountDomain Credential Database ClientRepo.
Local Open Scope Z_scope.

(** ** [internal/account/repository]: the statements on accounts, credentials, roles, identities

    JSON columns hold the records' lists and metadata. Identifiers come from the program,
    and every reference to an account or a role is checked by a foreign key. [NOW()] is the
    time of the transaction, and the triggers set [updated_at] to it. *)
Definition ErrAccountNotFound := Sentinel "account not found".
Definition ErrInvalidStatusTransition := Sentinel "invalid account status transition".
Definition ErrConcurrentModification := Sentinel "account was modified concurrently".
Definition ErrInvalidStatusFilter := Sentinel "invalid status filter".
Definition ErrCredentialNotFound := Sentinel "credential not found".
Definition ErrFederatedIdentityNotFound := Sentinel "federated identity not found".
Definition ErrRoleNotFound := Sentinel "role not found".
Definition ErrRoleAssignmentNotFound := Sentinel "role assignment not found".
Definition ErrForeignKey : err := Anon "SQLSTATE 23503: foreign key violation".

(** ** Rows *)
Definition live_account (a : Account) : bool := negb (bool_decide (is_Some (a_DeletedAt a))).
Definition live_credential (c : Credential) : bool := negb (bool_decide (is_Some (cr_DeletedAt c))).
Definition live_identity (i : FederatedIdentity) : bool := negb (bool_decide (is_Some (fi_DeletedAt i))).
Definition live_role (r : Role) : bool := negb (bool_decide (is_Some (r_DeletedAt r))).
Definition live_assignment (x : Assignment) : bool := negb (bool_decide (is_Some (as_DeletedAt x))).

Definition put_account (a : Account) (p : People) : People :=
  mkPeople (<[a_ID a := a]> (t_accounts p)) (t_credentials p) (t_identities p) (t_roles p) (t_account_roles p).
Definition set_credentials (m : gmap string Credential) (p : People) : People :=
  mkPeople (t_accounts p) m (t_identities p) (t_roles p) (t_account_roles p).
Definition set_identities (m : gmap string FederatedIdentity) (p : People) : People :=
  mkPeople (t_accounts p) (t_credentials p) m (t_roles p) (t_account_roles p).
Definition set_roles (m : gmap string Role) (p : People) : People :=
  mkPeople (t_accounts p) (t_credentials p) (t_identities p) m (t_account_roles p).
Definition set_account_roles (l : list Assignment) (p : People) : People :=
  mkPeople (t_accounts p) (t_credentials p) (t_identities p) (t_roles p) l.

Definition sort_by {A} (le : A → A → bool) (l : list A) : list A :=
  foldr (fix ins x l := match l with
    | [] => [x]
    | y :: l' => if le x y then x :: y :: l' else y :: ins x l'
    end) [] l.
(** [ORDER BY primary_credential DESC, created_at ASC] *)
Definition primary_first (l : list Credential) : list Credential :=
  sort_by (λ c d, if Bool.eqb (cr_Primary c) (cr_Primary d) then cr_CreatedAt c <=? cr_CreatedAt d else cr_Primary c) l.

(** The account of a live row, and of any row. *)
Definition account_row (p : People) (accountID : string) (includeDeleted : bool) : option Account :=
  a ← t_accounts p !! accountID; if includeDeleted || live_account a then Some a else None.
Definition credentials_of (p : People) (accountID : string) (types : list string) : list Credential :=
  primary_first (rows_where (λ c, bool_decide (cr_AccountID c = accountID) && live_credential c
    && bool_decide (cr_Type c ∈ types)) (t_credentials p)).
Definition credential_for (p : People) (credType identifier : string) : option Credential :=
  select_one (λ c, bool_decide (cr_Type c = credType) && bool_decide (cr_Identifier c = Some identifier) && live_credential c)
    (t_credentials p).

Section repositories.
Context {R : Type} `{Postgres}.
#[local] Abbreviation AM := (M (App R)).

(** A statement on the tables of accounts; a query leaves them alone. *)
Definition on_people {A} (f : People → res A * People) : AM A :=
  statement (λ t ids, let '(r, p) := f (t_people t) in (r, put_people p t, ids)).
Definition query {A} (f : People → A) : AM A := statement (λ t ids, (Ok (f (t_people t)), t, ids)).
Definition found {A} (e : err) (r : option A) : AM A := match r with Some x => ret x | None => fail e end.

(** ** [account_repository_impl.go] *)
Definition MaxPageSize : Z := 100.
Definition maxPage : Z := 21000000.
Definition clampPagination (page pageSize : Z) : Z * Z * Z :=
  let page := if page <? 1 then 1 else page in
  let pageSize := if (pageSize <? 1) || (MaxPageSize <? pageSize) then 20 else pageSize in
  let page := if maxPage <? page then maxPage else page in
  (page, pageSize, (page - 1) * pageSize).

(** [idx_accounts_username] and the widths of the columns. *)
Definition username_taken (p : People) (a : Account) : bool :=
  match a_Username a with
  | None => false
  | Some u => existsb (λ b, bool_decide (a_Username b = Some u) && live_account b && negb (bool_decide (a_ID b = a_ID a)))
                (map snd (map_to_list (t_accounts p)))
  end.
Definition account_fits (a : Account) : bool :=
  (match a_Username a with Some u => char_count u <=? 50 | None => true end) && (char_count (a_DisplayName a) <=? 255)
  && (char_count (a_Status a) <=? 20) && (char_count (a_Locale a) <=? 10) && (char_count (a_Timezone a) <=? 50).
Definition account_stored (a : Account) : Account :=
  mkAccount (a_ID a) (a_Username a) (a_DisplayName a) (a_AvatarURL a) (a_Status a) (a_Locale a) (a_Timezone a)
    (a_Metadata a) (pg_round (a_CreatedAt a)) (pg_round (a_UpdatedAt a)) None.
Definition CreateAccount (a : Account) : AM unit :=
  wrap "insert account" (on_people (λ p,
    if negb (account_fits a) then (Err ErrTooLong, p)
    else match t_accounts p !! a_ID a with
         | Some _ => (Err ErrUniqueViolation, p)
         | None => if username_taken p a then (Err ErrUniqueViolation, p) else (Ok tt, put_account (account_stored a) p)
         end)).

Definition findAccountByID (accountID : string) (includeDeleted : bool) : AM Account :=
  let! row := wrap "query account" (query (λ p, account_row p accountID includeDeleted)) in
  found (Wrap accountID ErrAccountNotFound) row.
Definition AccountRepo_FindByID (accountID : string) : AM Account := findAccountByID accountID false.
Definition FindByIDIncludingDeletedTx (accountID : string) : AM Account := findAccountByID accountID true.

Definition account_named (p : People) (username : string) : option Account :=
  select_one (λ a, bool_decide (a_Username a = Some username) && live_account a) (t_accounts p).
Definition FindByUsername (username : string) : AM Account :=
  let! row := wrap "query account" (query (λ p, account_named p username)) in
  found (Wrap username ErrAccountNotFound) row.
(** The account comes even when there is no password, with the error. *)
Definition FindByUsernameWithPasswordCredential (username : string) : AM (Account * res Credential) :=
  let! row := wrap "query account with password credential" (query (λ p,
    a ← account_named p username; Some (a, head (credentials_of p (a_ID a) [CredentialTypePassword])))) in
  match row with
  | None => fail (Wrap username ErrAccountNotFound)
  | Some (a, None) => ret (a, Err (Wrap (a_ID a) ErrCredentialNotFound))
  | Some (a, Some c) => ret (a, Ok c)
  end.

Definition account_updated (now : Z) (a row : Account) : Account :=
  mkAccount (a_ID row) (a_Username a) (a_DisplayName a) (a_AvatarURL a) (a_Status a) (a_Locale a) (a_Timezone a)
    (a_Metadata a) (a_CreatedAt row) (pg_round now) (a_DeletedAt row).
Definition update_account (now : Z) (a : Account) (expectedUpdatedAt : Z) (p : People) : res Z * People :=
  match account_row p (a_ID a) false with
  | Some row =>
      if bool_decide (a_UpdatedAt row = pg_round expectedUpdatedAt)
      then if negb (account_fits a) then (Err ErrTooLong, p)
           else if username_taken p a then (Err ErrUniqueViolation, p)
           else (Ok 1, put_account (account_updated now a row) p)
      else (Ok 0, p)
  | None => (Ok 0, p)
  end.
Definition AccountRepo_UpdateAccount (a : Account) (expectedUpdatedAt : Z) : AM unit :=
  let! now := app_now in
  let! rows := wrap "update account" (on_people (update_account now a expectedUpdatedAt)) in
  if rows =? 0 then
    AccountRepo_FindByID (a_ID a) ;;
    fail (Wrap (a_ID a) ErrConcurrentModification)
  else ret tt.

Definition soft_delete_account (now deletedAt : Z) (accountID : string) (p : People) : res Z * People :=
  match account_row p accountID false with
  | Some row => (Ok 1, put_account (account_with_status AccountStatusDeleted (pg_round now) (Some (pg_round deletedAt)) row) p)
  | None => (Ok 0, p)
  end.
Definition SoftDeleteAccountByID (accountID : string) (deletedAt : Z) : AM unit :=
  let! now := app_now in
  let! rows := wrap "soft delete account" (on_people (soft_delete_account now deletedAt accountID)) in
  guard_err (rows =? 0) (Wrap accountID ErrAccountNotFound).

Definition accounts_matching (status : string) (p : People) : list Account :=
  newest_first a_CreatedAt (rows_where (λ a, live_account a && (bool_decide (status = "") || bool_decide (a_Status a = status))) (t_accounts p)).
Definition AccountRepo_FindAll (page pageSize : Z) (status : string) : AM (list Account * Z) :=
  let '(_, pageSize, offset) := clampPagination page pageSize in
  if negb (bool_decide (status = "")) && negb (IsValidAccountStatus status) then fail (Wrap status ErrInvalidStatusFilter) else
  let! total := wrap "count accounts" (query (λ p, Z.of_nat (length (accounts_matching status p)))) in
  if total =? 0 then ret ([], 0) else
  let! l := wrap "query accounts" (query (λ p, take (Z.to_nat pageSize) (drop (Z.to_nat offset) (accounts_matching status p)))) in
  ret (l, total).

(** One statement: the condition on the status is checked with the change. *)
Definition transition (now : Z) (accountID fromStatus toStatus : string) (p : People) : res Z * People :=
  match account_row p accountID false with
  | Some row => if bool_decide (a_Status row = fromStatus)
                then (Ok 1, put_account (account_with_status toStatus (pg_round now) (a_DeletedAt row) row) p)
                else (Ok 0, p)
  | None => (Ok 0, p)
  end.
Definition transitionAccountStatus (accountID fromStatus toStatus : string) : AM unit :=
  let! now := app_now in
  let! rows := wrap (toStatus +:+ " account") (on_people (transition now accountID fromStatus toStatus)) in
  guard_err (rows =? 0) (Wrap accountID ErrInvalidStatusTransition).
Definition AccountRepo_SuspendAccount (accountID : string) : AM unit :=
  transitionAccountStatus accountID AccountStatusActive AccountStatusSuspended.
Definition AccountRepo_ActivateAccount (accountID : string) : AM unit :=
  transitionAccountStatus accountID AccountStatusSuspended AccountStatusActive.

(** ** [credential_repository_impl.go] *)
Definition credential_fits (c : Credential) : bool :=
  (char_count (cr_Type c) <=? 20) && (match cr_Identifier c with Some i => char_count i <=? 255 | None => true end).
Definition identifier_taken (p : People) (c : Credential) : bool :=
  match cr_Identifier c with
  | None => false
  | Some i => existsb (λ d, bool_decide (cr_Type d = cr_Type c) && bool_decide (cr_Identifier d = Some i) && live_credential d
                            && negb (bool_decide (cr_ID d = cr_ID c))) (map snd (map_to_list (t_credentials p)))
  end.
Definition credential_stored (c : Credential) : Credential :=
  mkCredential (cr_ID c) (cr_AccountID c) (cr_Type c) (cr_Identifier c) (cr_Value c) (cr_Verified c) (cr_Primary c)
    (cr_Metadata c) (pg_round (cr_CreatedAt c)) (pg_round (cr_UpdatedAt c)) (pg_round <$> cr_VerifiedAt c)
    (pg_round <$> cr_LastUsedAt c) None.
(** All rows or none. *)
Fixpoint insert_credentials (l : list Credential) (p : People) : res People :=
  match l with
  | [] => Ok p
  | c :: l' =>
      if negb (credential_fits c) then Err ErrTooLong
      else match t_accounts p !! cr_AccountID c, t_credentials p !! cr_ID c with
           | None, _ => Err ErrForeignKey
           | _, Some _ => Err ErrUniqueViolation
           | Some _, None => if identifier_taken p c then Err ErrUniqueViolation
                             else insert_credentials l' (set_credentials (<[cr_ID c := credential_stored c]> (t_credentials p)) p)
           end
  end.
Definition CreateCredentials (l : list Credential) : AM unit :=
  if bool_decide (length l = 0%nat) then ret tt else
  wrap "batch insert credentials" (on_people (λ p,
    match insert_credentials l p with Ok p' => (Ok tt, p') | Err e => (Err e, p) end)).

(** Also with [FOR UPDATE]; the lock only takes away interleavings, so it is left out. *)
Definition FindByAccountAndType (accountID credType : string) : AM (list Credential) :=
  wrap "query credentials" (query (λ p, credentials_of p accountID [credType])).
Definition FindByAccountAndTypes (accountID : string) (credTypes : list string) : AM (list Credential) :=
  if bool_decide (credTypes = []) then ret []
  else wrap "query credentials" (query (λ p, credentials_of p accountID credTypes)).
Definition FindByTypeAndIdentifier (credType identifier : string) : AM Credential :=
  let! row := wrap "query credential" (query (λ p, credential_for p credType identifier)) in
  found (Wrap credType ErrCredentialNotFound) row.
Definition FindPasswordCredential (accountID : string) : AM Credential :=
  let! row := wrap "find password credential" (query (λ p, head (credentials_of p accountID [CredentialTypePassword]))) in
  found (Wrap accountID ErrCredentialNotFound) row.

Definition credential_updated (now : Z) (c row : Credential) : Credential :=
  mkCredential (cr_ID row) (cr_AccountID row) (cr_Type row) (cr_Identifier c) (cr_Value c) (cr_Verified c) (cr_Primary c)
    (cr_Metadata c) (cr_CreatedAt row) (pg_round now) (pg_round <$> cr_VerifiedAt c) (pg_round <$> cr_LastUsedAt c) (cr_DeletedAt row).
Definition update_credential (now : Z) (c : Credential) (p : People) : res Z * People :=
  match t_credentials p !! cr_ID c with
  | Some row =>
      if negb (live_credential row) then (Ok 0, p)
      else let row' := credential_updated now c row in
           if negb (credential_fits row') then (Err ErrTooLong, p)
           else if identifier_taken p row' then (Err ErrUniqueViolation, p)
           else (Ok 1, set_credentials (<[cr_ID row := row']> (t_credentials p)) p)
  | None => (Ok 0, p)
  end.
Definition UpdateCredential (c : Credential) : AM unit :=
  let! now := app_now in
  let! rows := wrap "update credential" (on_people (update_credential now c)) in
  guard_err (rows =? 0) (Wrap (cr_ID c) ErrCredentialNotFound).

(** Rows that a condition selects change. *)
Definition change_credentials (sel : Credential → bool) (f : Credential → Credential) (p : People) : Z * People :=
  (Z.of_nat (length (rows_where sel (t_credentials p))),
   set_credentials ((λ c, if sel c then f c else c) <$> t_credentials p) p).
Definition touched (now lastUsedAt : Z) (c : Credential) : Credential :=
  mkCredential (cr_ID c) (cr_AccountID c) (cr_Type c) (cr_Identifier c) (cr_Value c) (cr_Verified c) (cr_Primary c) (cr_Metadata c)
    (cr_CreatedAt c) (pg_round now) (cr_VerifiedAt c) (Some (pg_round lastUsedAt)) (cr_DeletedAt c).
Definition UpdateLastUsedAt (credentialID : string) (lastUsedAt : Z) : AM unit :=
  let! now := app_now in
  let! rows := wrap "update last_used_at" (on_people (λ p,
    let '(n, p') := change_credentials (λ c, bool_decide (cr_ID c = credentialID) && live_credential c) (touched now lastUsedAt) p in (Ok n, p'))) in
  guard_err (rows =? 0) (Wrap credentialID ErrCredentialNotFound).

Definition erase_credentials (ctx : string) (sel : Credential → bool) (deletedAt : Z) : AM Z :=
  let! now := app_now in
  wrap ctx (on_people (λ p,
    let '(n, p') := change_credentials (λ c, sel c && live_credential c) (erased (pg_round deletedAt) (pg_round now)) p in (Ok n, p'))).
Definition SoftDeleteCredentialsByAccount (accountID : string) (deletedAt : Z) : AM unit :=
  erase_credentials "soft delete credentials" (λ c, bool_decide (cr_AccountID c = accountID)) deletedAt ;; ret tt.
Definition SoftDeleteCredentialsByType (accountID credType : string) (deletedAt : Z) : AM unit :=
  erase_credentials ("soft delete " +:+ credType +:+ " credentials")
    (λ c, bool_decide (cr_AccountID c = accountID) && bool_decide (cr_Type c = credType)) deletedAt ;; ret tt.
Definition SoftDeleteCredential (credentialID : string) (deletedAt : Z) : AM unit :=
  let! rows := erase_credentials "soft delete credential" (λ c, bool_decide (cr_ID c = credentialID)) deletedAt in
  guard_err (rows =? 0) (Wrap credentialID ErrCredentialNotFound).

Definition VerifyFirstUnverifiedTOTP (accountID : string) : AM bool :=
  let! row := wrap "find unverified TOTP credential" (query (λ p,
    head (newest_first cr_CreatedAt (rows_where (λ c, bool_decide (cr_AccountID c = accountID)
      && bool_decide (cr_Type c = CredentialTypeTOTP) && negb (cr_Verified c) && live_credential c) (t_credentials p))))) in
  match row with
  | None => ret false
  | Some c =>
      let! now := app_now in
      let! rows := wrap "verify first unverified TOTP" (on_people (λ p,
        let '(n, p') := change_credentials (λ d, bool_decide (cr_ID d = cr_ID c))
          (λ d, mkCredential (cr_ID d) (cr_AccountID d) (cr_Type d) (cr_Identifier d) (cr_Value d) true (cr_Primary d)
             (cr_Metadata d) (cr_CreatedAt d) (pg_round now) (Some (pg_round now)) (cr_LastUsedAt d) (cr_DeletedAt d)) p in (Ok n, p'))) in
      ret (0 <? rows)
  end.

(** ** [federated_identity_repository_impl.go] *)
Definition identity_for (p : People) (provider providerUserID : string) : option FederatedIdentity :=
  select_one (λ i, bool_decide (fi_Provider i = provider) && bool_decide (fi_ProviderUserID i = providerUserID) && live_identity i)
    (t_identities p).
Definition CreateFederatedIdentity (i : FederatedIdentity) : AM unit :=
  wrap "insert federated identity" (on_people (λ p,
    if (50 <? char_count (fi_Provider i)) || (255 <? char_count (fi_ProviderUserID i)) then (Err ErrTooLong, p)
    else match t_accounts p !! fi_AccountID i, t_identities p !! fi_ID i, identity_for p (fi_Provider i) (fi_ProviderUserID i) with
         | None, _, _ => (Err ErrForeignKey, p)
         | _, Some _, _ | _, _, Some _ => (Err ErrUniqueViolation, p)
         | Some _, None, None =>
             (Ok tt, set_identities (<[fi_ID i := mkIdentity (fi_ID i) (fi_AccountID i) (fi_Provider i) (fi_ProviderUserID i)
                (fi_Profile i) (pg_round (fi_CreatedAt i)) (pg_round (fi_UpdatedAt i)) None]> (t_identities p)) p)
         end)).
Definition FindByProvider (provider providerUserID : string) : AM FederatedIdentity :=
  let! row := wrap "query federated identity" (query (λ p, identity_for p provider providerUserID)) in
  found (Wrap (provider +:+ "/" +:+ providerUserID) ErrFederatedIdentityNotFound) row.
Definition identities_of (p : People) (accountID : string) : list FederatedIdentity :=
  newest_first fi_CreatedAt (rows_where (λ i, bool_decide (fi_AccountID i = accountID) && live_identity i) (t_identities p)).
Definition IdentityRepo_FindByAccountID (accountID : string) : AM (list FederatedIdentity) :=
  wrap "query federated identities" (query (λ p, identities_of p accountID)).
Definition identity_erased (at_ now : Z) (i : FederatedIdentity) : FederatedIdentity :=
  mkIdentity (fi_ID i) (fi_AccountID i) (fi_Provider i) "" (Some []) (fi_CreatedAt i) now (Some at_).
Definition change_identities (sel : FederatedIdentity → bool) (f : FederatedIdentity → FederatedIdentity) (p : People) : Z * People :=
  (Z.of_nat (length (rows_where sel (t_identities p))), set_identities ((λ i, if sel i then f i else i) <$> t_identities p) p).
Definition erase_identities (ctx : string) (sel : FederatedIdentity → bool) (deletedAt : Z) : AM Z :=
  let! now := app_now in
  wrap ctx (on_people (λ p,
    let '(n, p') := change_identities (λ i, sel i && live_identity i) (identity_erased (pg_round deletedAt) (pg_round now)) p in (Ok n, p'))).
Definition SoftDeleteFederatedIdentitiesByAccountID (accountID : string) (deletedAt : Z) : AM unit :=
  erase_identities "soft delete federated identities" (λ i, bool_decide (fi_AccountID i = accountID)) deletedAt ;; ret tt.
Definition SoftDeleteFederatedIdentityByID (accountID identityID : string) (deletedAt : Z) : AM unit :=
  let! rows := erase_identities "soft delete federated identity"
    (λ i, bool_decide (fi_ID i = identityID) && bool_decide (fi_AccountID i = accountID)) deletedAt in
  guard_err (rows =? 0) (Wrap identityID ErrFederatedIdentityNotFound).

(** ** [role_repository_impl.go] *)
Definition role_row (p : People) (roleID : string) : option Role :=
  r ← t_roles p !! roleID; if live_role r then Some r else None.
Definition role_named (p : People) (name : string) : option Role :=
  select_one (λ r, bool_decide (r_Name r = name) && live_role r) (t_roles p).
Definition role_name_taken (p : People) (r : Role) : bool :=
  match role_named p (r_Name r) with Some r' => negb (bool_decide (r_ID r' = r_ID r)) | None => false end.
Definition CreateRole (r : Role) : AM unit :=
  wrap "insert role" (on_people (λ p,
    if 100 <? char_count (r_Name r) then (Err ErrTooLong, p)
    else match t_roles p !! r_ID r with
         | Some _ => (Err ErrUniqueViolation, p)
         | None => if role_name_taken p r then (Err ErrUniqueViolation, p)
                   else (Ok tt, set_roles (<[r_ID r := mkRole (r_ID r) (r_Name r) (r_Description r) (r_Permissions r) (r_Metadata r)
                     (pg_round (r_CreatedAt r)) (pg_round (r_UpdatedAt r)) None]> (t_roles p)) p)
         end)).
(** The caller's record has the time of the change in the process, the row that of the
    database. *)
Definition UpdateRole (r : Role) : AM Role :=
  let! now := app_now in
  let! rows := wrap "update role" (on_people (λ p,
    match role_row p (r_ID r) with
    | Some row =>
        if bool_decide (r_UpdatedAt row = pg_round (r_UpdatedAt r)) then
          if 100 <? char_count (r_Name r) then (Err ErrTooLong, p)
          else if role_name_taken p r then (Err ErrUniqueViolation, p)
          else (Ok 1, set_roles (<[r_ID r := mkRole (r_ID r) (r_Name r) (r_Description r) (r_Permissions r) (r_Metadata r)
                 (r_CreatedAt row) (pg_round now) (r_DeletedAt row)]> (t_roles p)) p)
        else (Ok 0, p)
    | None => (Ok 0, p)
    end)) in
  guard_err (rows =? 0) (Wrap (r_ID r) ErrRoleNotFound) ;;
  ret (mkRole (r_ID r) (r_Name r) (r_Description r) (r_Permissions r) (r_Metadata r) (r_CreatedAt r) now (r_DeletedAt r)).
Definition findRoleByID (roleID : string) : AM Role :=
  let! row := wrap "query role" (query (λ p, role_row p roleID)) in
  found (Wrap roleID ErrRoleNotFound) row.
Definition FindByName (name : string) : AM Role :=
  let! row := wrap "query role" (query (λ p, role_named p name)) in
  found (Wrap name ErrRoleNotFound) row.
Definition by_name (l : list Role) : list Role := sort_by (λ r s, pg_le (r_Name r) (r_Name s)) l.
Definition RoleRepo_FindAll (page pageSize : Z) : AM (list Role * Z) :=
  let '(_, pageSize, offset) := clampPagination page pageSize in
  let! total := wrap "count roles" (query (λ p, Z.of_nat (length (rows_where live_role (t_roles p))))) in
  if total =? 0 then ret ([], 0) else
  let! l := wrap "query roles" (query (λ p, take (Z.to_nat pageSize) (drop (Z.to_nat offset) (by_name (rows_where live_role (t_roles p)))))) in
  ret (l, total).
Definition SoftDeleteRoleByID (roleID : string) (deletedAt : Z) : AM unit :=
  let! now := app_now in
  let! rows := wrap "soft delete role" (on_people (λ p,
    match role_row p roleID with
    | Some r => (Ok 1, set_roles (<[roleID := mkRole (r_ID r) (r_Name r) (r_Description r) (r_Permissions r) (r_Metadata r)
                  (r_CreatedAt r) (pg_round now) (Some (pg_round deletedAt))]> (t_roles p)) p)
    | None => (Ok 0, p)
    end)) in
  guard_err (rows =? 0) (Wrap roleID ErrRoleNotFound).

Definition assigned (p : People) (accountID roleID : string) : bool :=
  existsb (λ x, bool_decide (as_AccountID x = accountID) && bool_decide (as_RoleID x = roleID) && live_assignment x) (t_account_roles p).
Definition AssignRoleToAccount (accountID roleID : string) (createdAt : Z) : AM unit :=
  wrap "assign role to account" (on_people (λ p,
    if assigned p accountID roleID then (Ok tt, p)
    else match t_accounts p !! accountID, t_roles p !! roleID with
         | Some _, Some _ => (Ok tt, set_account_roles (t_account_roles p ++ [mkAssignment accountID roleID (pg_round createdAt) None]) p)
         | _, _ => (Err ErrForeignKey, p)
         end)).
Definition unassign (sel : Assignment → bool) (deletedAt : Z) (p : People) : Z * People :=
  let sel := λ x, sel x && live_assignment x in
  (Z.of_nat (length (List.filter sel (t_account_roles p))),
   set_account_roles (map (λ x, if sel x then mkAssignment (as_AccountID x) (as_RoleID x) (as_CreatedAt x) (Some (pg_round deletedAt)) else x)
     (t_account_roles p)) p).
Definition RemoveRoleFromAccount (accountID roleID : string) (deletedAt : Z) : AM unit :=
  let! rows := wrap "remove role from account" (on_people (λ p,
    let '(n, p') := unassign (λ x, bool_decide (as_AccountID x = accountID) && bool_decide (as_RoleID x = roleID)) deletedAt p in (Ok n, p'))) in
  guard_err (rows =? 0) (Wrap accountID ErrRoleAssignmentNotFound).
Definition SoftDeleteRolesByAccountID (accountID : string) (deletedAt : Z) : AM unit :=
  wrap "soft delete account roles" (on_people (λ p,
    let '(_, p') := unassign (λ x, bool_decide (as_AccountID x = accountID)) deletedAt p in (Ok tt, p'))).

(** The live roles assigned to an account, by name. *)
Definition roles_of (p : People) (accountID : string) : list Role :=
  by_name (omap (λ x, if bool_decide (as_AccountID x = accountID) && live_assignment x then role_row p (as_RoleID x) else None)
    (t_account_roles p)).
Definition FindRolesByAccountID (accountID : string) : AM (list Role) :=
  wrap "query account roles" (query (λ p, roles_of p accountID)).
Definition FindRolesByAccountIDs (accountIDs : list string) : AM (gmap string (list Role)) :=
  if bool_decide (accountIDs = []) then ret ∅
  else wrap "query roles for account page" (query (λ p, list_to_map (map (λ a, (a, roles_of p a)) accountIDs))).
End repositories.

(** ** [internal/auth/repository]: the table of passkeys *)
Definition ErrWebAuthnCredentialNotFound := Sentinel "webauthn credential not found".

Definition live_passkey (r : PasskeyRow) : bool := negb (bool_decide (is_Some (wc_DeletedAt (pr_cred r)))).
Definition set_passkeys (m : gmap string PasskeyRow) (t : Tables) : Tables := mkTables (t_clients t) (t_consents t) (t_people t) m.
(** [ORDER BY created_at ASC] *)
Definition passkeys_of (t : Tables) (accountID : string) : list WebAuthnCredential :=
  sort_by (λ c d, wc_CreatedAt c <=? wc_CreatedAt d)
    (map pr_cred (rows_where (λ r, bool_decide (wc_AccountID (pr_cred r) = accountID) && live_passkey r) (t_passkeys t))).
Definition passkey_named (t : Tables) (credentialID : string) : option WebAuthnCredential :=
  pr_cred <$> select_one (λ r, bool_decide (pr_credential_id r = credentialID) && live_passkey r) (t_passkeys t).

Section repository.
Context {R : Type} `{Postgres}.
#[local] Abbreviation AM := (M (App R)).

(** A statement on the table, and a query. *)
Definition on_passkeys {A} (f : Tables → res A * gmap string PasskeyRow) : AM A :=
  statement (λ t ids, let '(r, m) := f t in (r, set_passkeys m t, ids)).
Definition query_passkeys {A} (f : Tables → A) : AM A := statement (λ t ids, (Ok (f t), t, ids)).

Definition passkey_fits (c : WebAuthnCredential) : bool :=
  (char_count (wc_AttestationType c) <=? 32) && (char_count (wc_Name c) <=? 255).
Definition passkey_stored (c : WebAuthnCredential) : PasskeyRow :=
  let u := if IsZero (wc_UpdatedAt c) then wc_CreatedAt c else wc_UpdatedAt c in
  mkPasskeyRow
    (mkPasskey (wc_ID c) (wc_AccountID c) (wc_CredentialID c) (wc_PublicKey c) (wc_SignCount c) (wc_AAGUID c) (wc_Transports c)
      (wc_AttestationType c) (wc_Name c) (wc_Flags c) (wc_Verified c) (pg_round (wc_CreatedAt c)) (pg_round u) None None)
    (b64_encode (wc_CredentialID c)).
(** The column [credential_id] is unique among all rows. *)
Definition credential_id_taken (t : Tables) (text : string) : bool :=
  existsb (λ r, bool_decide (pr_credential_id r = text)) (map snd (map_to_list (t_passkeys t))).
Definition PasskeyRepo_CreateCredential (c : WebAuthnCredential) : AM unit :=
  wrap "insert webauthn credential" (on_passkeys (λ t,
    let m := t_passkeys t in
    if negb (passkey_fits c) then (Err ErrTooLong, m)
    else match t_accounts (t_people t) !! wc_AccountID c, m !! wc_ID c with
         | None, _ => (Err ErrForeignKey, m)
         | _, Some _ => (Err ErrUniqueViolation, m)
         | Some _, None => if credential_id_taken t (b64_encode (wc_CredentialID c)) then (Err ErrUniqueViolation, m)
                           else (Ok tt, <[wc_ID c := passkey_stored c]> m)
         end)).
Definition PasskeyRepo_FindByCredentialID (credentialID : string) : AM WebAuthnCredential :=
  let! row := wrap "find webauthn credential" (query_passkeys (λ t, passkey_named t credentialID)) in
  found (Wrap credentialID ErrWebAuthnCredentialNotFound) row.
Definition PasskeyRepo_FindByAccountID (accountID : string) : AM (list WebAuthnCredential) :=
  wrap "find webauthn credentials by account_id" (query_passkeys (λ t, passkeys_of t accountID)).
Definition passkey_updated (now : Z) (c : WebAuthnCredential) (r : PasskeyRow) : PasskeyRow :=
  let old := pr_cred r in
  mkPasskeyRow
    (mkPasskey (wc_ID old) (wc_AccountID old) (wc_CredentialID old) (wc_PublicKey old) (wc_SignCount c) (wc_AAGUID old) (wc_Transports c)
      (wc_AttestationType old) (wc_Name c) (wc_Flags c) (wc_Verified old) (wc_CreatedAt old) (pg_round now) (pg_round <$> wc_LastUsedAt c)
      (wc_DeletedAt old)) (pr_credential_id r).
Definition PasskeyRepo_UpdateCredential (c : WebAuthnCredential) : AM unit :=
  let! now := app_now in
  let! rows := wrap "update webauthn credential" (on_passkeys (λ t,
    let m := t_passkeys t in
    match m !! wc_ID c with
    | Some r => if negb (live_passkey r) then (Ok 0, m)
                else if 255 <? char_count (wc_Name c) then (Err ErrTooLong, m)
                else (Ok 1, <[wc_ID c := passkey_updated now c r]> m)
    | None => (Ok 0, m)
    end)) in
  guard_err (rows =? 0) (Wrap (wc_ID c) ErrWebAuthnCredentialNotFound).
(** The key goes, and the identifier is free for another registration. *)
Definition passkey_erased (now deletedAt : Z) (r : PasskeyRow) : PasskeyRow :=
  let c := pr_cred r in
  mkPasskeyRow
    (mkPasskey (wc_ID c) (wc_AccountID c) [] [] (wc_SignCount c) (wc_AAGUID c) (wc_Transports c)
      (wc_AttestationType c) (wc_Name c) (wc_Flags c) (wc_Verified c) (wc_CreatedAt c) now (wc_LastUsedAt c) (Some deletedAt))
    ("deleted-" +:+ wc_ID c).
Definition PasskeyRepo_SoftDeleteCredential (id : string) (deletedAt : Z) : AM unit :=
  let! now := app_now in
  let! rows := wrap "soft delete webauthn credential" (on_passkeys (λ t,
    let m := t_passkeys t in
    match m !! id with
    | Some r => if live_passkey r then (Ok 1, <[id := passkey_erased (pg_round now) (pg_round deletedAt) r]> m) else (Ok 0, m)
    | None => (Ok 0, m)
    end)) in
  guard_err (rows =? 0) (Wrap id ErrWebAuthnCredentialNotFound).
Definition PasskeyRepo_HasPasskeys (accountID : string) : AM bool :=
  wrap "check webauthn credentials existence" (query_passkeys (λ t,
    existsb (λ r, bool_decide (wc_AccountID (pr_cred r) = accountID) && live_passkey r) (map snd (map_to_list (t_passkeys t))))).
(** Nothing calls it. *)
Definition PasskeyRepo_SoftDeleteByAccountID (accountID : string) (deletedAt : Z) : AM unit :=
  let! now := app_now in
  wrap "soft delete webauthn credentials by account_id" (on_passkeys (λ t,
    (Ok tt, (λ r, if bool_decide (wc_AccountID (pr_cred r) = accountID) && live_passkey r
                  then passkey_erased (pg_round now) (pg_round deletedAt) r else r) <$> t_passkeys t))).
End repository.

(** ** Reading the database *)
Section reading.
Context {R : Type}.
Implicit Types a : App R.

Lemma reads_query {A} (f : People → A) : only_reads (R := R) (query f).
Proof. apply (reads_select (λ t, f (t_people t))). Qed.
Lemma reads_passkeys {A} (f : Tables → A) : only_reads (R := R) (query_passkeys f).
Proof. apply reads_select. Qed.
Lemma query_inv {A} (f : People → A) a x a' : query f a = (Ok x, a') →
  ∃ d, later (ap_db a) d ∧ x = f (t_people (db_tables d)) ∧ a' = put_db d a.
Proof.
  intros Hrun. apply (wp_intro _ (λ r a', ∀ x, r = Ok x → ∃ d, later (ap_db a) d ∧ x = f (t_people (db_tables d)) ∧ a' = put_db d a) _ _ _ Hrun); [|done].
  apply (wp_select (λ t, f (t_people t))); [|done]. intros d Hd ? [= <-]. eauto.
Qed.
Lemma reads_found {A} e (r : option A) : only_reads (R := R) (found e r).
Proof. unfold found. reading. Qed.
End reading.
#[export] Hint Resolve reads_query reads_found : reading.
