(* ===== verification/Mfa.v ===== *)
(** * [internal/auth/service/mfa_service.go]: TOTP and backup codes

    The library of one-time passwords and AES-GCM are the parameters [Totp] and [AesGcm];
    concurrent lookups run one after the other; logging is left out. *)
From S2P Require Import Prelude GoTime Json Hash Url Redis World GoStrings AccountDomain Credential OAuthDomain Database ClientService AccountRepo.
Local Open Scope Z_scope.

Definition ErrInvalidMFACode := Sentinel "invalid MFA code".
Definition ErrNoPendingTOTPEnrollment := Sentinel "no pending TOTP enrollment found".
Definition ErrCiphertextTooShort := Sentinel "ciphertext too short".
Definition ErrInvalidConfig := Sentinel "invalid configuration".

(** [totp.Validate(code, secret)] at a time; [totp.Generate]: the secret and its URL from
    random bytes. *)
Class Totp := {
  totp_validate : string → string → Z → bool;
  totp_generate : string → string → list N → res (string * string);
}.
(** [gcm.Seal] and [gcm.Open] with a key and a nonce. *)
Class AesGcm := {
  gcm_seal : list N → list N → string → list N;
  gcm_open : list N → list N → list N → option string;
  gcm_round_trip key nonce text : gcm_open key nonce (gcm_seal key nonce text) = Some text;
  gcm_bytes key nonce text : Forall (λ x, x < 256)%N (gcm_seal key nonce text);
}.
Definition gcm_nonce_size : nat := 12.

Definition defaultBackupCodeCount : Z := 10.
Definition defaultBackupCodeLength : Z := 8.

(** [hex.DecodeString] *)
Fixpoint hex_decode (s : string) : option (list N) :=
  match s with
  | EmptyString => Some []
  | String a (String b s') =>
      if is_hex a && is_hex b then l ← hex_decode s'; Some ((unhex a * 16 + unhex b)%N :: l) else None
  | _ => None
  end.

Record TOTPEnrollment : Type := mkEnrollment { te_Secret : string; te_OTPAuthURL : string }.
Record MFAServiceConfig : Type := mkMfaConfig {
  mc_TOTPEncryptionKey : string;
  mc_BackupCodeCount : Z;
  mc_BackupCodeLength : Z;
}.
Record MFAService : Type := mkMfa {
  mf_issuer : string;
  mf_totpEncryptionKey : option (list N);
  mf_backupCodeCount : Z;
  mf_backupCodeLength : Z;
  mf_passkeys : bool;      (** whether there is a passkey service *)
}.
Definition NewMFAServiceWithConfig (issuer : string) (cfg : MFAServiceConfig) (passkeys : bool) : res MFAService :=
  let n := if (0 <? mc_BackupCodeCount cfg) && (mc_BackupCodeCount cfg <=? 20) then mc_BackupCodeCount cfg else defaultBackupCodeCount in
  let len := if (0 <? mc_BackupCodeLength cfg) && (mc_BackupCodeLength cfg <=? 12) then mc_BackupCodeLength cfg
             else defaultBackupCodeLength in
  if bool_decide (mc_TOTPEncryptionKey cfg = "") then Ok (mkMfa issuer None n len passkeys) else
  match hex_decode (mc_TOTPEncryptionKey cfg) with
  | None => Err (Wrap "invalid TOTP encryption key" (Anon "hex"))
  | Some key => if negb (length key =? 32)%nat then Err (Wrap "TOTP encryption key must be 32 bytes" ErrInvalidConfig)
                else Ok (mkMfa issuer (Some key) n len passkeys)
  end.
Definition RequireTOTPEncryption (s : MFAService) : res unit :=
  match mf_totpEncryptionKey s with
  | None => Err (Anon "TOTP encryption key is required for production deployments")
  | Some _ => Ok tt
  end.
Record MFAStatus : Type := mkMfaStatus { ms_Enabled : bool; ms_Types : list string }.

Section crypto.
Context {R : Type} `{AesGcm}.
Definition encryptSecret (plaintext : string) (key : list N) : M (World R) string :=
  let! nonce := rand_read gcm_nonce_size in
  ret (hex_encode (nonce ++ gcm_seal key nonce plaintext)).
Definition decryptSecret (encoded : string) (key : list N) : res string :=
  match hex_decode encoded with
  | None => Err (Wrap "decode hex" (Anon "hex"))
  | Some data =>
      if (length data <? gcm_nonce_size)%nat then Err (Wrap "data shorter than nonce size" ErrCiphertextTooShort)
      else match gcm_open key (take gcm_nonce_size data) (drop gcm_nonce_size data) with
           | None => Err (Anon "cipher: message authentication failed")
           | Some text => Ok text
           end
  end.
End crypto.

Section service.
Context {R : Type} `{Postgres} `{Bcrypt} `{Totp} `{AesGcm} (mfa : MFAService).
#[local] Abbreviation AM := (M (App R)).

Definition usable (c : Credential) : bool := cr_Verified c && negb (credential_IsDeleted (Some c)).
(** Passkeys alone do not enable it. *)
Definition GetMFAStatus (accountID : string) : AM MFAStatus :=
  let! creds := wrap "query TOTP credentials" (FindByAccountAndType accountID CredentialTypeTOTP) in
  let! hasPasskeys := (if mf_passkeys mfa then wrap "check passkeys" (PasskeyRepo_HasPasskeys accountID) else ret false) in
  let totp := existsb usable creds in
  ret (mkMfaStatus totp ((if totp then ["totp"] else []) ++ (if hasPasskeys : bool then ["passkey"] else []))).

Definition totp_credential (now : Z) (id accountID secret : string) : Credential :=
  mkCredential id accountID CredentialTypeTOTP (Some accountID) secret false false [] now zero_time None None None.
(** The pending enrolments of the account, in one transaction with the new one. *)
Fixpoint drop_pending (creds : list Credential) : AM unit :=
  match creds with
  | [] => ret tt
  | c :: l =>
      (if negb (cr_Verified c) && negb (credential_IsDeleted (Some c)) then
         let! now := app_now in
         wrap ("soft delete old totp credential " +:+ cr_ID c) (SoftDeleteCredential (cr_ID c) now)
       else ret tt) ;;
      drop_pending l
  end.
Definition enroll_in_tx (accountID : string) (cred : Credential) : AM unit :=
  let! existing := wrap "find existing totp credentials" (FindByAccountAndType accountID CredentialTypeTOTP) in
  drop_pending existing ;;
  CreateCredentials [cred].
Definition totp_key_size : nat := 20.
Definition EnrollTOTP (accountID : string) : AM TOTPEnrollment :=
  let! random := wrap "generate totp key" (in_world (rand_read totp_key_size)) in
  let! (secret, url) := wrap "generate totp key" (lift_res (totp_generate (mf_issuer mfa) accountID random)) in
  match mf_totpEncryptionKey mfa with
  | None => fail (Anon "totp encryption key not configured")
  | Some key =>
      let! stored := wrap "encrypt totp secret" (in_world (encryptSecret secret key)) in
      let! id := in_world uuid_new in
      let! now := app_now in
      wrap "save totp credential" (RunInTransaction (enroll_in_tx accountID (totp_credential now id accountID stored))) ;;
      ret (mkEnrollment secret url)
  end.

(** The secret of a credential; without a key it is stored as it is. *)
Definition secret_of (c : Credential) : res string :=
  match mf_totpEncryptionKey mfa with None => Ok (cr_Value c) | Some key => decryptSecret (cr_Value c) key end.
Definition code_matches (now : Z) (code : string) (c : Credential) : bool :=
  match secret_of c with Ok secret => totp_validate code secret now | Err _ => false end.
Definition VerifyTOTP (accountID code : string) : AM bool :=
  let! creds := wrap "find totp credential" (FindByAccountAndType accountID CredentialTypeTOTP) in
  let! now := app_now in
  let verified := List.filter usable creds in
  if existsb (code_matches now code) verified then ret true
  else if negb (bool_decide (verified = [])) && forallb (λ c, negb (is_ok (secret_of c))) verified
  then fail (Anon "all TOTP credentials failed to decrypt: check totp_encryption_key configuration")
  else ret false.
Definition verifyTOTPIncludeUnverified (accountID code : string) : AM bool :=
  let! creds := wrap "find totp credential" (FindByAccountAndType accountID CredentialTypeTOTP) in
  let! now := app_now in
  ret (existsb (λ c, negb (credential_IsDeleted (Some c)) && code_matches now code c) creds).
(** Here a secret that does not decrypt is taken as it is stored. *)
Definition already_active (now : Z) (code : string) (c : Credential) : bool :=
  usable c && totp_validate code (match secret_of c with Ok s => s | Err _ => cr_Value c end) now.
Definition ActivateTOTP (accountID code : string) : AM unit :=
  let! valid := verifyTOTPIncludeUnverified accountID code in
  guard_err (negb valid) ErrInvalidMFACode ;;
  let! activated := wrap "activate totp credential" (RunInTransaction (VerifyFirstUnverifiedTOTP accountID)) in
  if activated : bool then ret tt else
  let! creds := wrap "find totp credentials" (FindByAccountAndType accountID CredentialTypeTOTP) in
  let! now := app_now in
  guard_err (negb (existsb (already_active now code) creds)) ErrNoPendingTOTPEnrollment.

Definition softDeleteCredentialsByType (accountID credType : string) : AM unit :=
  let! now := app_now in
  wrap ("delete " +:+ credType +:+ " credentials") (SoftDeleteCredentialsByType accountID credType now).
Definition DisableTOTP (accountID : string) : AM unit :=
  wrap "disable totp" (RunInTransaction (
    softDeleteCredentialsByType accountID CredentialTypeTOTP ;;
    softDeleteCredentialsByType accountID CredentialTypeBackupCode)).

(** ** Backup codes *)
Definition generateRandomCode (length : nat) : AM string :=
  wrap "generate random code" (in_world (let! b := rand_read length in ret (hex_encode b))).
Fixpoint generate_codes (n : nat) : AM (list string) :=
  match n with
  | O => ret []
  | S n =>
      let! code := wrap "generate backup code" (generateRandomCode (Z.to_nat (mf_backupCodeLength mfa))) in
      let! rest := generate_codes n in
      ret (code :: rest)
  end.
(** Hashing runs concurrently; no failure of it depends on the order. *)
Fixpoint hash_codes (codes : list string) : AM (list string) :=
  match codes with
  | [] => ret []
  | c :: l =>
      let! hash := wrap "hash backup code" (GenerateFromPassword c) in
      let! rest := hash_codes l in
      ret (hash :: rest)
  end.
Fixpoint backup_credentials (accountID : string) (hashes : list string) : AM (list Credential) :=
  match hashes with
  | [] => ret []
  | h :: l =>
      let! id := in_world uuid_new in
      let! now := app_now in
      let! rest := backup_credentials accountID l in
      ret (mkCredential id accountID CredentialTypeBackupCode None h true false [] now zero_time None None None :: rest)
  end.
Definition GenerateBackupCodes (accountID : string) : AM (list string) :=
  let! codes := generate_codes (Z.to_nat (mf_backupCodeCount mfa)) in
  let! hashes := hash_codes codes in
  let! creds := backup_credentials accountID hashes in
  wrap "generate backup codes" (RunInTransaction (
    softDeleteCredentialsByType accountID CredentialTypeBackupCode ;;
    CreateCredentials creds)) ;;
  ret codes.

(** The first code that matches is used up. *)
Definition use_code (creds : list Credential) (code : string) : AM bool :=
  match List.filter (λ c, usable c && bcrypt_compare (cr_Value c) code) creds with
  | [] => ret false
  | c :: _ =>
      let! now := app_now in
      wrap "delete backup code" (SoftDeleteCredential (cr_ID c) now) ;;
      ret true
  end.
Definition VerifyBackupCode (accountID code : string) : AM bool :=
  RunInTransaction (
    let! creds := wrap "find backup codes" (FindByAccountAndType accountID CredentialTypeBackupCode) in
    use_code creds code).
End service.
