(* ===== verification/Scan.v ===== *)
(** * Iterating over keys with SCAN

    The command and its patterns are the parameter [ScanServer]. Its laws are the
    documented guarantees: a complete iteration returns every matching key that was there
    all along, and only matching keys are returned. *)
From S2P Require Import Prelude GoTime Hash Url Redis World Cache Footprint SessionProps.
Local Open Scope Z_scope.

(** Text with no special meaning in a pattern. *)
Definition plain (s : string) : bool := sforall (λ c, negb (one_of ["*"; "?"; "["; "]"; "\"]%char c)) s.

Section iteration.
Context {R : Type} (scan : Z → Z → string → Z → R → Z * list string).
(** A complete iteration from a cursor: when, where and on which server each call ran. *)
Inductive iteration (pattern : string) (count : Z) : Z → list (Z * Z * R) → Prop :=
  | iteration_last now cursor st : (scan now cursor pattern count st).1 = 0 → iteration pattern count cursor [(now, cursor, st)]
  | iteration_more now cursor st l : (scan now cursor pattern count st).1 ≠ 0 →
      iteration pattern count (scan now cursor pattern count st).1 l → iteration pattern count cursor ((now, cursor, st) :: l).
End iteration.

Class ScanServer (R : Type) `{RedisServer R} := {
  r_match : string → string → bool;
  r_match_star pre suf k : plain pre = true → plain suf = true →
    r_match (pre +:+ "*" +:+ suf) k = true ↔ ∃ mid, k = pre +:+ mid +:+ suf;
  r_match_head pre rest k : plain pre = true → r_match (pre +:+ "*" +:+ rest) k = true → ∃ mid, k = pre +:+ mid;
  (** time, cursor, pattern, count: the next cursor and a page of keys *)
  r_scan : Z → Z → string → Z → R → Z * list string;
  r_scan_match now cursor pattern count st k : k ∈ (r_scan now cursor pattern count st).2 → r_match pattern k = true;
  r_scan_complete pattern count l k : iteration r_scan pattern count 0 l → r_match pattern k = true →
    (∀ now cursor st, (now, cursor, st) ∈ l → is_Some (r_view st now k)) →
    ∃ now cursor st, (now, cursor, st) ∈ l ∧ k ∈ (r_scan now cursor pattern count st).2;
}.

(** ** The server in memory returns everything at once *)
Fixpoint ends_with (suf s : string) : bool :=
  bool_decide (s = suf) || match s with String _ s' => ends_with suf s' | EmptyString => false end.
Lemma ends_with_iff suf s : ends_with suf s = true ↔ ∃ mid, s = mid +:+ suf.
Proof.
  induction s as [|c s IH]; cbn [ends_with]; rewrite orb_true_iff, bool_decide_eq_true.
  - split; [intros [<-|]; [by exists ""|done]|]. intros [[|] ?]; [by left|done].
  - rewrite IH. split.
    + intros [<-|[mid ->]]; [by exists ""|by exists (String c mid)].
    + intros [[|d mid] Hm]; [by left|right]. injection Hm as -> ->. eauto.
Qed.
Lemma strip_pre_iff p s r : strip_pre p s = Some r ↔ s = p +:+ r.
Proof.
  revert s. induction p as [|a p IH]; intros [|b s]; cbn; try naive_solver.
  case_bool_decide as Hab; [subst; rewrite IH; split; [by intros ->|by intros [= ->]]|]. split; [done|by intros [= ->]].
Qed.
Definition star_match (pattern k : string) : bool :=
  match cut "*" pattern with
  | Some (pre, suf) => match strip_pre pre k with Some r => ends_with suf r | None => false end
  | None => bool_decide (k = pattern)
  end.
Lemma cut_plain pre suf : plain pre = true → cut "*" (pre +:+ "*" +:+ suf) = Some (pre, suf).
Proof.
  unfold plain. induction pre as [|c pre IH]; cbn; [done|]. rewrite andb_true_iff. intros [Hc Hp].
  specialize (IH Hp). cbn in IH. rewrite IH. case_bool_decide; [subst; by vm_compute in Hc|done].
Qed.

#[export, refine] Instance mem_scan : ScanServer MemRedis := {
  r_match := star_match;
  r_scan now cursor pattern count st := (0, List.filter (λ k, star_match pattern k && bool_decide (is_Some (r_view st now k))) (map_to_list st).*1);
}.
Proof.
  - intros pre suf k Hp Hs. unfold star_match. rewrite (cut_plain pre suf Hp). split.
    + destruct (strip_pre pre k) as [r|] eqn:Hr; [|done]. intros [mid ->]%ends_with_iff.
      apply strip_pre_iff in Hr as ->. eauto.
    + intros [mid ->]. rewrite (proj2 (strip_pre_iff pre _ (mid +:+ suf)) eq_refl). apply ends_with_iff. eauto.
  - intros pre rest k Hp. unfold star_match. rewrite (cut_plain pre rest Hp).
    destruct (strip_pre pre k) as [r|] eqn:Hr; [|done]. apply strip_pre_iff in Hr as ->. eauto.
  - cbn. intros now cursor pattern count st k Hk. apply list_elem_of_In, filter_In in Hk as [_ Hk].
    by apply andb_true_iff in Hk as [? _].
  - intros pattern count l k Hl Hm Hlive. inversion Hl as [now cursor st Hz|now cursor st l' Hnz]; subst; [|done].
    exists now, 0, st. split; [by left|]. cbn. apply list_elem_of_In, filter_In. split.
    + specialize (Hlive now 0 st ltac:(by left)). cbn in Hlive. destruct (st !! k) as [e|] eqn:He; [|by destruct Hlive].
      apply list_elem_of_In, list_elem_of_fmap. exists (k, e). split; [done|]. by apply elem_of_map_to_list.
    + rewrite Hm, bool_decide_true; [done|]. by apply (Hlive now 0 st ltac:(by left)).
Defined.

(** ** [ScanKeys] and loops over it *)
Section scan.
Context {R : Type} `{ScanServer R}.
Implicit Types w : World R.

Definition ScanKeys (cursor : Z) (pattern : string) (count : Z) : M (World R) (list string * Z) :=
  wrap "scan pattern" (redis_call (λ now st, let '(next, keys) := r_scan now cursor pattern count st in (Ok (keys, next), st))).

Definition maxIterations : nat := 1000.
(** [for i := 0; i < maxIterations; i++]: a page, what is done with it, and the cursor the
    loop ended with. *)
Fixpoint scan_loop {A} (fuel : nat) (pattern : string) (page : A → list string → M (World R) A) (acc : A) (cursor : Z) :
    M (World R) (A * Z) :=
  match fuel with
  | O => ret (acc, cursor)
  | S fuel =>
      let! (keys, next) := ScanKeys cursor pattern 100 in
      let! acc := page acc keys in
      if next =? 0 then ret (acc, 0) else scan_loop fuel pattern page acc next
  end.

Lemma wp_ScanKeys cursor pattern count (Q : res (list string * Z) → World R → Prop) w :
  (∀ net, Q (Ok ((r_scan (now_ms w) cursor pattern count (w_redis w)).2, (r_scan (now_ms w) cursor pattern count (w_redis w)).1))
     (put_net net (put_redis (w_redis w) w))) →
  (w_net w ≠ [] → ∀ e w', quiet w w' → Q (Err e) w') → wp (ScanKeys cursor pattern count) Q w.
Proof.
  intros HQ HE. unfold ScanKeys. apply wp_wrap, wp_redis_call_fates.
  - intros net. unfold wp. destruct (r_scan _ _ _ _ _) as [next keys]. cbn. split; [apply HQ|]. intros Hn. apply HE; [done|]. by repeat split.
  - intros net Hn. apply HE; [done|]. apply quiet_net.
Qed.
Lemma wp_ScanKeys_up cursor pattern count (Q : res (list string * Z) → World R → Prop) w : w_net w = [] →
  Q (Ok ((r_scan (now_ms w) cursor pattern count (w_redis w)).2, (r_scan (now_ms w) cursor pattern count (w_redis w)).1)) w →
  wp (ScanKeys cursor pattern count) Q w.
Proof.
  intros Hn HQ. unfold ScanKeys. apply wp_wrap, wp_redis_call_up; [done|]. unfold wp. destruct (r_scan _ _ _ _ _). cbn in *. by destruct w.
Qed.
Lemma ScanKeys_net cursor pattern count w : w_net w = [] → w_net (ScanKeys cursor pattern count w).2 = [].
Proof. intros Hn. unfold ScanKeys, wrap, redis_call. rewrite Hn. by destruct (r_scan _ _ _ _ _). Qed.

Section loop.
Context {A : Type} (pattern : string) (page : A → list string → M (World R) A).

(** Nothing but keys of the pattern is touched when the pages touch nothing else. *)
Lemma touches_scan_loop fuel acc cursor :
  (∀ acc keys, touches (λ k, k ∈ keys) (page acc keys)) →
  touches (λ k, r_match pattern k = true) (scan_loop fuel pattern page acc cursor).
Proof.
  intros Hp. revert acc cursor. induction fuel as [|fuel IH]; intros acc cursor; [apply touches_ret|]. cbn [scan_loop].
  intros w. unfold bind. pose proof (ScanKeys_net cursor pattern 100 w) as Hnet.
  destruct (wp_eq _ _ _ (wp_ScanKeys cursor pattern 100 (λ r w', quiet w w' ∧ ∀ keys next, r = Ok (keys, next) →
    ∀ k, k ∈ keys → r_match pattern k = true) w ltac:(intros net; split; [by repeat split|]; intros ?? [= <- <-] k; apply r_scan_match)
    ltac:(intros _ e w' Hq; by split))) as (r&w1&Hrun&(Hn1&_&_&_&Hv1)&Hkeys).
  rewrite Hrun in Hnet |- *. cbn [snd] in Hnet. destruct r as [[keys next]|e]; [|cbn; split_and!; [exact Hn1|exact Hnet|intros k _; apply Hv1]].
  assert (touches (λ k, r_match pattern k = true)
    (let! acc := page acc keys in if next =? 0 then ret (acc, 0) else scan_loop fuel pattern page acc next)) as Ht.
  { apply touches_bind; [|intros acc'; case_match; [apply touches_ret|apply IH]].
    eapply touches_mono; [apply Hp|]. intros k. by apply (Hkeys keys next). }
  destruct (Ht w1) as (Hn&Hnet'&Hv). split_and!; [etrans; [exact Hn|exact Hn1]|intros Hw; apply Hnet'; by apply Hnet|].
  intros k Hk. etrans; [by apply Hv|apply Hv1].
Qed.

(** When the loop gets through, with Redis reachable and pages that delete their keys, no
    key of the pattern is left. *)
Definition deletes : Prop := ∀ acc keys w, w_net w = [] →
  wp (page acc keys) (λ r w', w_net w' = [] ∧ w_now w' = w_now w ∧ ∀ k, view w' k = if decide (k ∈ keys) then None else view w k) w.

Lemma scan_loop_run fuel acc cursor w : deletes → w_net w = [] →
  wp (scan_loop (S fuel) pattern page acc cursor) (λ r w', w_now w' = w_now w ∧ (∀ k, is_Some (view w' k) → is_Some (view w k)) ∧
    ∀ acc', r = Ok (acc', 0) → ∃ l, iteration r_scan pattern 100 cursor l ∧ ∀ k, is_Some (view w' k) →
      ∀ t c st, (t, c, st) ∈ l → is_Some (r_view st t k) ∧ k ∉ (r_scan t c pattern 100 st).2) w.
Proof.
  intros Hd. revert acc cursor w. induction fuel as [|fuel IH]; intros acc cursor w Hn; cbn [scan_loop];
    apply wp_bind, wp_ScanKeys_up; [done| |done|]; cbn beta iota; apply wp_bind;
    (eapply wp_mono; [by apply Hd|]); intros [acc1|e] w1 (Hn1&Ht1&Hv1); try (split_and!; [done| |done]);
    try (intros k; rewrite Hv1; case_decide; [by intros []|done]).
  - case_match eqn:Hz; apply wp_ret; (split_and!; [done| |]); try (intros k; rewrite Hv1; case_decide; [by intros []|done]).
    + intros acc' _. exists [(now_ms w, cursor, w_redis w)]. split; [constructor; by apply Z.eqb_eq|].
      intros k Hk t c st [= -> -> ->]%list_elem_of_singleton. rewrite Hv1 in Hk. case_decide; [by destruct Hk|done].
    + intros acc' [= _ He]. by rewrite He in Hz.
  - case_match eqn:Hz.
    + apply wp_ret. split_and!; [done|intros k; rewrite Hv1; case_decide; [by intros []|done]|].
      intros acc' _. exists [(now_ms w, cursor, w_redis w)]. split; [constructor; by apply Z.eqb_eq|].
      intros k Hk t c st [= -> -> ->]%list_elem_of_singleton. rewrite Hv1 in Hk. case_decide; [by destruct Hk|done].
    + eapply wp_mono; [by apply IH|]. intros r w2 (Ht2&Hsub&Hl).
      assert (∀ k, is_Some (view w2 k) → is_Some (view w k) ∧ k ∉ (r_scan (now_ms w) cursor pattern 100 (w_redis w)).2) as Hback.
      { intros k Hk. specialize (Hsub k Hk). rewrite Hv1 in Hsub. case_decide; [by destruct Hsub|done]. }
      split_and!; [congruence|intros k Hk; by apply Hback|]. intros acc' ->. destruct (Hl acc' eq_refl) as (l&Hit&Hk).
      exists ((now_ms w, cursor, w_redis w) :: l). split; [constructor; [by apply Z.eqb_neq|done]|].
      intros k Hsome t c st [[= -> -> ->]|Hin]%elem_of_cons; [by apply Hback|by apply Hk].
Qed.

Theorem scan_loop_complete fuel acc w acc' w' : deletes → w_net w = [] →
  scan_loop (S fuel) pattern page acc 0 w = (Ok (acc', 0), w') → ∀ k, r_match pattern k = true → view w' k = None.
Proof.
  intros Hd Hn Hrun k Hm. destruct (wp_intro _ _ _ _ _ Hrun (scan_loop_run fuel acc 0 w Hd Hn)) as (_&_&Hl).
  destruct (Hl acc' eq_refl) as (l&Hit&Hk). destruct (view w' k) as [e|] eqn:Hv; [exfalso|done].
  specialize (Hk k ltac:(by rewrite Hv)).
  destruct (r_scan_complete pattern 100 l k Hit Hm) as (t&c&st&Hin&Hpage); [intros t c st Hin; by apply (Hk t c st)|].
  by apply (Hk t c st).
Qed.
End loop.
End scan.
