(* ===== verification/Site.v ===== *)
(** * The process as a whole

    The state of a running server: the sessions with their objects and cache, the
    database, and the cache of account checks. The operations of a component run on the
    part of it they know. *)
From S2P Require Import Prelude GoTime Json Redis World TokenDomain Session SessionService AccountDomain Credential OAuthDomain Database.
Local Open Scope Z_scope.

(** [accountValidatorAdapter] of cmd/gosso/web_modules.go. *)
Record accountValidatorCacheEntry : Type := mkActiveEntry { ae_active : bool; ae_expiresAt : Z }.
Record ActiveCache : Type := mkActiveCache {
  av_cache : gmap string accountValidatorCacheEntry;
  av_lastCleanup : Z;
  av_cacheSize : Z;
}.

Record Site (R : Type) : Type := mkSite { si_sess : Sess R; si_db : DB; si_active : ActiveCache }.
Arguments mkSite {R}. Arguments si_sess {R}. Arguments si_db {R}. Arguments si_active {R}.

Section site.
Context {R : Type}.
Implicit Types s : Site R.

Definition si_world s : World R := sv_world (si_sess s).
Definition app_of s : App R := mkApp (si_world s) (si_db s).
Definition put_app (a : App R) s : Site R := mkSite (set_world (ap_world a) (si_sess s)) (ap_db a) (si_active s).
Definition put_sess (x : Sess R) s : Site R := mkSite x (si_db s) (si_active s).
Definition put_active (c : ActiveCache) s : Site R := mkSite (si_sess s) (si_db s) c.
Definition put_world (w : World R) s : Site R := put_sess (set_world w (si_sess s)) s.

Definition at_app {A} (m : M (App R) A) : M (Site R) A := λ s, let '(r, a) := m (app_of s) in (r, put_app a s).
Definition at_sess {A} (m : M (Sess R) A) : M (Site R) A := λ s, let '(r, x) := m (si_sess s) in (r, put_sess x s).
Definition at_world {A} (m : M (World R) A) : M (Site R) A := λ s, let '(r, w) := m (si_world s) in (r, put_world w s).
Definition site_now : M (Site R) Z := gets (λ s, w_now (si_world s)).

Lemma wp_at_app {A} (m : M (App R) A) (Q : res A → Site R → Prop) s :
  wp m (λ r a, Q r (put_app a s)) (app_of s) → wp (at_app m) Q s.
Proof. unfold wp, at_app. by destruct (m (app_of s)). Qed.
Lemma wp_at_sess {A} (m : M (Sess R) A) (Q : res A → Site R → Prop) s :
  wp m (λ r x, Q r (put_sess x s)) (si_sess s) → wp (at_sess m) Q s.
Proof. unfold wp, at_sess. by destruct (m (si_sess s)). Qed.
Lemma wp_at_world {A} (m : M (World R) A) (Q : res A → Site R → Prop) s :
  wp m (λ r w, Q r (put_world w s)) (si_world s) → wp (at_world m) Q s.
Proof. unfold wp, at_world. by destruct (m (si_world s)). Qed.

(** Statements do not touch Redis, the clock or the sources of randomness. *)
Definition keeps_world {A} (m : M (App R) A) : Prop := ∀ a, ap_world (m a).2 = ap_world a.
Lemma at_app_world {A} (m : M (App R) A) s : keeps_world m → si_world (at_app m s).2 = si_world s.
Proof. intros Hm. unfold at_app. specialize (Hm (app_of s)). by destruct (m (app_of s)). Qed.
Lemma at_world_world {A} (m : M (World R) A) s : si_world (at_world m s).2 = (m (si_world s)).2.
Proof. unfold at_world. by destruct (m (si_world s)). Qed.
Lemma keeps_world_statement {A} (f : Tables → list string → res A * Tables * list string) : keeps_world (statement f).
Proof. intros a. unfold statement. destruct (next_fate _) as [[] d]; [|done|]; by destruct (f _ _) as [[r t] ids]. Qed.
Lemma keeps_world_bind {A B} (m : M (App R) A) (k : A → M (App R) B) :
  keeps_world m → (∀ x, keeps_world (k x)) → keeps_world (bind m k).
Proof.
  intros Hm Hk a. unfold bind. specialize (Hm a). destruct (m a) as [[x|e] a1]; cbn in *; [|done]. by rewrite Hk.
Qed.
Lemma keeps_world_wrap {A} c (m : M (App R) A) : keeps_world m → keeps_world (wrap c m).
Proof. intros Hm a. unfold wrap. specialize (Hm a). by destruct (m a). Qed.
Lemma keeps_world_ret {A} (x : A) : keeps_world (ret x).
Proof. done. Qed.
Lemma keeps_world_fail {A} e : keeps_world (fail (A := A) e).
Proof. done. Qed.

(** Sessions and Redis do not touch the database. *)
Lemma at_sess_db {A} (m : M (Sess R) A) s : si_db (at_sess m s).2 = si_db s.
Proof. unfold at_sess. by destruct (m (si_sess s)). Qed.
Lemma at_world_db {A} (m : M (World R) A) s : si_db (at_world m s).2 = si_db s.
Proof. unfold at_world. by destruct (m (si_world s)). Qed.
End site.

(** ** Early returns of a handler

    [attempt m refuse k]: [x, err := m; if err != nil { return refuse(err) }; k]. *)
Definition attempt {S A B} (m : M S A) (refuse : err → B) (k : A → M S B) : M S B :=
  let! r := try m in
  match r with Ok x => k x | Err e => ret (refuse e) end.
Notation "'let?' x := m 'else' e 'in' k" := (attempt m (λ _, e) (λ x, k))
  (at level 10, x pattern, m at level 100, e at level 100, k at level 200) : go_scope.

Lemma wp_attempt {S A B} (m : M S A) (refuse : err → B) k (Q : res B → S → Prop) s :
  wp m (λ r s', match r with Ok x => wp (k x) Q s' | Err e => Q (Ok (refuse e)) s' end) s → wp (attempt m refuse k) Q s.
Proof. intros Hm. unfold attempt. apply wp_bind, wp_try. eapply wp_mono; [exact Hm|]. by intros [x|e] s'. Qed.

(** A handler that answers with something it does not refuse with got past each step. *)
Lemma attempt_inv {S A B} (m : M S A) (refuse : err → B) k s b s' :
  attempt m refuse k s = (Ok b, s') → (∀ e, refuse e ≠ b) → ∃ x s1, m s = (Ok x, s1) ∧ k x s1 = (Ok b, s').
Proof.
  unfold attempt, bind, try. destruct (m s) as [[x|e] s1]; [eauto|]. intros [= <- _] Hne. by destruct (Hne e).
Qed.

(** Operations of the process that only read the database. *)
Section site_reads.
Context {R : Type}.
Lemma wp_reads_app {A} (m : M (App R) A) (Q : res A → Site R → Prop) s : only_reads m →
  (∀ r a, m (app_of s) = (r, a) → ap_world a = si_world s → later (si_db s) (ap_db a) →
     Q r (put_app a s)) → wp (at_app m) Q s.
Proof.
  intros Hm HQ. apply wp_at_app. destruct (Hm (app_of s)) as [Hw Hd]. unfold wp. destruct (m (app_of s)) as [r a] eqn:E.
  by apply HQ.
Qed.
Definition reads_db {A} (m : M (Site R) A) : Prop := ∀ s, later (si_db s) (si_db (m s).2).
Lemma rdb_ret {A} (x : A) : reads_db (ret x). Proof. by intros s. Qed.
Lemma rdb_fail {A} e : reads_db (fail (A := A) e). Proof. by intros s. Qed.
Lemma rdb_lift {A} (r : res A) : reads_db (lift_res r). Proof. by intros s. Qed.
Lemma rdb_guard b e : reads_db (guard_err b e). Proof. intros s. by destruct b. Qed.
Lemma rdb_gets {A} (f : Site R → A) : reads_db (gets f). Proof. by intros s. Qed.
Lemma rdb_world {A} (m : M (World R) A) : reads_db (at_world m). Proof. intros s. by rewrite at_world_db. Qed.
Lemma rdb_sess {A} (m : M (Sess R) A) : reads_db (at_sess m). Proof. intros s. by rewrite at_sess_db. Qed.
Lemma rdb_app {A} (m : M (App R) A) : only_reads m → reads_db (at_app m).
Proof. intros Hm s. unfold at_app. destruct (Hm (app_of s)) as [_ Hd]. by destruct (m (app_of s)). Qed.
Lemma rdb_bind {A B} (m : M (Site R) A) (k : A → M (Site R) B) : reads_db m → (∀ x, reads_db (k x)) → reads_db (bind m k).
Proof.
  intros Hm Hk s. unfold bind. specialize (Hm s). destruct (m s) as [[x|e] s1]; cbn in *; [|done]. etrans; [exact Hm|apply Hk].
Qed.
Lemma rdb_try {A} (m : M (Site R) A) : reads_db m → reads_db (try m).
Proof. intros Hm s. unfold try. specialize (Hm s). by destruct (m s). Qed.
Lemma rdb_wrap {A} c (m : M (Site R) A) : reads_db m → reads_db (wrap c m).
Proof. intros Hm s. unfold wrap. specialize (Hm s). by destruct (m s). Qed.
Lemma rdb_ignore {A} (m : M (Site R) A) : reads_db m → reads_db (ignore m).
Proof. intros Hm s. apply Hm. Qed.
End site_reads.
#[export] Hint Resolve rdb_ret rdb_fail rdb_lift rdb_guard rdb_gets rdb_world rdb_sess : reading.
Ltac reads_db :=
  repeat first
    [ solve [eauto with reading nocore]
    | lazymatch goal with
      | |- reads_db (bind _ _) => apply rdb_bind; [|intros ?]
      | |- reads_db (try _) => apply rdb_try
      | |- reads_db (wrap _ _) => apply rdb_wrap
      | |- reads_db (ignore _) => apply rdb_ignore
      | |- reads_db (at_app _) => apply rdb_app
      | |- reads_db (if ?b then _ else _) => destruct b
      | |- reads_db (match ?x with _ => _ end) => destruct x
      end ].
