(* ===== verification/Verification.v ===== *)
(** * [internal/auth/service/verification_service.go]: verification codes

    A code of decimal digits is sent to an address; Redis keeps its keyed hash, the
    account and the number of wrong guesses. Sending is an operation of the interface
    [Sender] ([EmailSender], [SMSSender]); logging is left out. *)
From S2P Require Import Prelude GoTime Json Hash Url Redis World Cache Footprint GoStrings AccountDomain Credential Database AccountRepo Site OAuthDomain DeviceCode.
Local Open Scope Z_scope.

Definition verifyCodeKeyPrefix : string := "verify:code:".
Definition verifyCooldownPrefix : string := "verify:cooldown:".
Definition verifyCodeAttempts : Z := 5.
Definition verifyCodeTTL : Z := 10 * minute.
Definition verifyCooldownTTL : Z := 60 * second.
Definition verifyCodeLength : nat := 6.

Definition ErrServiceUnavailable := Sentinel "service temporarily unavailable".
Definition ErrIdentifierNotAssociated := Sentinel "identifier not associated with this account".
Definition ErrVerificationCodeMismatch := Sentinel "verification code does not belong to this account".
Definition ErrCooldownActive := Sentinel "verification cooldown active".
Definition ErrUnsupportedType := Sentinel "unsupported verification type".
Definition ErrVerificationCodeExpired := Sentinel "verification code expired or not found".
Definition ErrVerificationCodeExhausted := Sentinel "verification code exhausted, please request a new one".
Definition ErrVerificationCodeInvalid := Sentinel "invalid verification code".
Definition ErrPepper : err := Anon "verification_service: hashPepper is empty".

(** [VerificationServiceConfig], and what it becomes. *)
Record VerifyCfg : Type := mkVerifyCfg {
  vc_codeTTL : Z;
  vc_cooldownTTL : Z;
  vc_maxAttempts : Z;
  vc_codeLength : Z;
  vc_hashPepper : string;
}.
Definition NewVerificationServiceWithConfig (cfg : VerifyCfg) : VerifyCfg :=
  mkVerifyCfg (if 0 <? vc_codeTTL cfg then vc_codeTTL cfg else verifyCodeTTL)
    (if 0 <? vc_cooldownTTL cfg then vc_cooldownTTL cfg else verifyCooldownTTL)
    (if 0 <? vc_maxAttempts cfg then vc_maxAttempts cfg else verifyCodeAttempts)
    (if 0 <? vc_codeLength cfg then vc_codeLength cfg else Z.of_nat verifyCodeLength)
    (vc_hashPepper cfg).

Record verifyCodeData : Type := mkCodeData { vd_CodeHash : string; vd_Attempts : Z; vd_AccountID : string }.
Definition code_members (d : verifyCodeData) : list (string * json) :=
  [("code", JStr (vd_CodeHash d)); ("attempts", JNum (vd_Attempts d)); ("account_id", JStr (vd_AccountID d))].
Definition marshal_code (d : verifyCodeData) : string := jobj (code_members d).

Definition buildCodeKey (credType identifier : string) : string := verifyCodeKeyPrefix +:+ credType +:+ ":" +:+ identifier.
Definition buildVerifyCooldownKey (credType identifier : string) : string :=
  verifyCooldownPrefix +:+ credType +:+ ":" +:+ identifier.
#[global] Arguments buildCodeKey : simpl never.
#[global] Arguments buildVerifyCooldownKey : simpl never.

(** A message goes out, or it does not; Redis is not involved. *)
Record Sender (R : Type) `{RedisServer R} : Type := mkSender {
  send_message : string → string → M (World R) unit;
  send_touches to text : touches (λ _, False) (send_message to text);
  send_net to text w : w_net (send_message to text w).2 = w_net w;
}.
Arguments send_message {R _}. Arguments send_touches {R _}. Arguments send_net {R _}.

(** [fmt.Sprintf("%0*d", length, n)] *)
Definition zero_padded (length : nat) (n : Z) : string :=
  let s := dec n in String.string_of_list_ascii (replicate (length - String.length s) "0"%char) +:+ s.

Section script.
Context {R : Type} `{RedisServer R}.

(** [obj.field >= n] for a number; comparing anything else is a script error. *)
Definition number_of (field : string) (obj : list (string * json)) : M R Z :=
  match jget field obj with Some (JNum n) => ret n | _ => fail (Anon "ERR user_script: attempt to compare") end.
Definition verdict (status : string) (account : list json) : M R string :=
  ret (jprint (cjson_norm (JArr (JStr status :: account))) "").

Definition verifyAndIncrementScript (key codeHash : string) (maxAttempts defaultTTL : Z) (now : Z) : M R string :=
  let! data := s_get now key in
  match data with
  | None => verdict "not_found" [JStr ""]
  | Some d =>
      let! obj := cjson_decode d in
      let! attempts := number_of "attempts" obj in
      if maxAttempts <=? attempts then verdict "exhausted" [JStr ""]
      else if field_is "code" codeHash obj then
        s_del now key ;;
        verdict "ok" (match jget "account_id" obj with Some v => [v] | None => [] end)
      else
        let updated := cjson_encode (jset "attempts" (JNum (attempts + 1)) obj) in
        let! ttl := s_ttl now key in
        (if 0 <? ttl then s_set now key updated (Some (ttl * 1000))
         else s_set now key updated (Some (defaultTTL * 1000))) ;;
        verdict "mismatch" [JStr ""]
  end.
End script.

Section service.
Context {R : Type} `{RedisServer R} `{Lower} (cfg : VerifyCfg) (emailSvc smsSvc : Sender R).

Definition generateNumericCode (length : Z) : M (World R) string :=
  let! n := rand_int (10 ^ length) in ret (zero_padded (Z.to_nat length) n).
Definition pepperHash (code : string) : res string :=
  if bool_decide (vc_hashPepper cfg = "") then Err ErrPepper
  else Ok (hex_encode (hmac_sha256 (vc_hashPepper cfg) code)).
Definition normalize_identifier (identifier : string) : string := to_lower (TrimSpace identifier).

(** The code goes out by the channel of the type; when it does not, it is taken back. *)
Definition deliver_code (credType identifier code codeKey : string) : M (World R) unit :=
  let take_back (e : err) : M (World R) unit := ignore (Del [codeKey]) ;; fail e in
  let through (ctx : string) (s : Sender R) : M (World R) unit :=
    let! r := try (send_message s identifier code) in
    match r with Ok _ => ret tt | Err e => take_back (Wrap ctx e) end in
  if bool_decide (credType = "email") then through "send email" emailSvc
  else if bool_decide (credType = "phone") then through "send SMS" smsSvc
  else take_back (Wrap credType ErrUnsupportedType).

Definition SendCode (credType identifier accountID : string) : M (World R) unit :=
  let identifier := normalize_identifier identifier in
  let cooldownKey := buildVerifyCooldownKey credType identifier in
  let! r := try (Exists cooldownKey) in
  match r with
  | Err _ => fail ErrServiceUnavailable
  | Ok true => fail (Wrap "please wait before requesting another code" ErrCooldownActive)
  | Ok false =>
      let! code := wrap "generate code" (generateNumericCode (vc_codeLength cfg)) in
      let! codeHash := lift_res (pepperHash code) in
      let codeKey := buildCodeKey credType identifier in
      wrap "store code" (Set_ codeKey (marshal_code (mkCodeData codeHash 0 accountID)) (vc_codeTTL cfg)) ;;
      ignore (Set_ cooldownKey "1" (vc_cooldownTTL cfg)) ;;
      deliver_code credType identifier code codeKey
  end.

Definition VerifyCode (credType identifier code : string) : M (World R) string :=
  let codeKey := buildCodeKey credType (normalize_identifier identifier) in
  let! codeHash := lift_res (pepperHash code) in
  let! r := try (redis_call (verifyAndIncrementScript codeKey codeHash (vc_maxAttempts cfg) (trunc_secs (vc_codeTTL cfg)))) in
  match r with
  | Err _ => fail ErrServiceUnavailable
  | Ok text =>
      match jparse text with
      | Some (JArr l) =>
          match all_strs l with
          | Some (status :: account :: _) =>
              if bool_decide (status = "ok") then ret account
              else if bool_decide (status = "not_found") then fail ErrVerificationCodeExpired
              else if bool_decide (status = "exhausted") then fail ErrVerificationCodeExhausted
              else if bool_decide (status = "mismatch") then fail ErrVerificationCodeInvalid
              else fail (Anon ("unknown verify status: " +:+ status))
          | _ => fail (Anon "unmarshal verify result")
          end
      | _ => fail (Anon "unmarshal verify result")
      end
  end.

Definition VerifyCodeForAccount (credType identifier code expectedAccountID : string) : M (World R) unit :=
  let! accountID := VerifyCode credType identifier code in
  guard_err (negb (bool_decide (accountID = expectedAccountID))) ErrVerificationCodeMismatch.

Definition ValidateCredentialOwnership `{Postgres} (accountID credType identifier : string) : M (App R) unit :=
  let identifier := normalize_identifier identifier in
  let! creds := wrap "lookup credentials" (FindByAccountAndType accountID credType) in
  guard_err (negb (existsb (λ c, match cr_Identifier c with
                                 | Some i => equal_fold i identifier | None => false end) creds))
    ErrIdentifierNotAssociated.
End service.
