(* ===== verification/StateFootprints.v ===== *)
(** * Footprints of operations on a state that contains the world

    The services run on different states: the world, the world with the database, the
    sessions, the whole process. What such an operation may do to Redis is stated on the
    world inside the state ([HasWorld]) and composed along the monad. *)
From S2P Require Import Prelude GoTime Json Hash LuaPattern Redis World Cache Footprint TokenDomain Blacklist TokenService Session SessionService OAuthDomain AuthCode DeviceCode ServiceFootprints AccountDomain Credential Database Site.
Local Open Scope Z_scope.

Class HasWorld (S R : Type) : Type := world_of : S → World R.
#[export] Instance world_has_world {R} : HasWorld (World R) R := λ w, w.
#[export] Instance app_has_world {R} : HasWorld (App R) R := ap_world.
#[export] Instance sess_has_world {R} : HasWorld (Sess R) R := sv_world.
#[export] Instance site_has_world {R} : HasWorld (Site R) R := si_world.

(** The same moment, a healthy network stays healthy, the keys outside [P] unchanged. *)
Definition stays {R} `{RedisServer R} (P : string → Prop) (w w' : World R) : Prop :=
  w_now w' = w_now w ∧ (w_net w = [] → w_net w' = []) ∧ ∀ k, ¬ P k → view w' k = view w k.

Section stays.
Context {R : Type} `{RedisServer R}.
Implicit Types w : World R.
Lemma stays_refl P w : stays P w w.
Proof. done. Qed.
Lemma stays_trans P w1 w2 w3 : stays P w1 w2 → stays P w2 w3 → stays P w1 w3.
Proof.
  intros (Hn1&Hu1&Hv1) (Hn2&Hu2&Hv2). split_and!; [congruence|auto|]. intros k Hk. by rewrite Hv2, Hv1.
Qed.
Lemma stays_mono (P Q : string → Prop) w w' : (∀ k, P k → Q k) → stays P w w' → stays Q w w'.
Proof. intros Hpq (?&?&Hv). split_and!; auto. Qed.
End stays.
#[export] Instance stays_preorder {R} `{RedisServer R} (P : string → Prop) : PreOrder (stays (R := R) P).
Proof. split; [intros w; apply stays_refl|intros w1 w2 w3; apply stays_trans]. Qed.

(** [keeps P m]: outside [P] the operation leaves Redis alone. *)
Section keeps.
Context {S R : Type} `{RedisServer R} `{HasWorld S R} (P : string → Prop).
Definition keeps {A} (m : M S A) : Prop := ∀ s, stays P (world_of s) (world_of (m s).2).

Lemma state_keeps_ret {A} (x : A) : keeps (ret x). Proof. done. Qed.
Lemma state_keeps_fail {A} e : keeps (fail (A := A) e). Proof. done. Qed.
Lemma keeps_lift {A} (r : res A) : keeps (lift_res r). Proof. done. Qed.
Lemma state_keeps_gets {A} (f : S → A) : keeps (gets f). Proof. done. Qed.
Lemma keeps_guard b e : keeps (guard_err b e). Proof. by destruct b. Qed.
Lemma keeps_modify f : (∀ s, world_of (f s) = world_of s) → keeps (modify f).
Proof. intros Hf s. cbn. by rewrite Hf. Qed.
Lemma state_keeps_bind {A B} (m : M S A) (k : A → M S B) : keeps m → (∀ x, keeps (k x)) → keeps (bind m k).
Proof.
  intros Hm Hk s. unfold bind. specialize (Hm s). destruct (m s) as [[x|e] s1]; cbn in *; [|done]. etrans; [exact Hm|apply Hk].
Qed.
Lemma state_keeps_try {A} (m : M S A) : keeps m → keeps (try m).
Proof. intros Hm s. unfold try. specialize (Hm s). by destruct (m s). Qed.
Lemma state_keeps_wrap {A} c (m : M S A) : keeps m → keeps (wrap c m).
Proof. intros Hm s. unfold wrap. specialize (Hm s). by destruct (m s). Qed.
Lemma keeps_ignore {A} (m : M S A) : keeps m → keeps (ignore m).
Proof. intros Hm s. apply Hm. Qed.
Lemma keeps_each {A} (l : list A) (f : A → M S unit) : (∀ x, keeps (f x)) → keeps (for_each l f).
Proof. intros Hf. induction l; [apply state_keeps_ret|]. by apply state_keeps_bind. Qed.
Lemma keeps_attempt {A B} (m : M S A) (refuse : err → B) k : keeps m → (∀ x, keeps (k x)) → keeps (attempt m refuse k).
Proof. intros Hm Hk. apply state_keeps_bind; [by apply state_keeps_try|]. intros [x|e]; [apply Hk|apply state_keeps_ret]. Qed.
Lemma wp_keeps {A} (m : M S A) (Q : res A → S → Prop) s : keeps m →
  (∀ r s', m s = (r, s') → stays P (world_of s) (world_of s') → Q r s') → wp m Q s.
Proof. intros Hm HQ. unfold wp. specialize (Hm s). destruct (m s) as [r s'] eqn:Heq. by apply HQ. Qed.
End keeps.
Lemma keeps_mono {S R A} `{RedisServer R} `{HasWorld S R} (P Q : string → Prop) (m : M S A) :
  keeps P m → (∀ k, P k → Q k) → keeps Q m.
Proof. intros Hm Hpq s. by apply (stays_mono P). Qed.

(** ** From one state to another *)
Section states.
Context {R : Type} `{RedisServer R} (P : string → Prop).
Lemma keeps_touches {A} (m : M (World R) A) : touches P m → keeps P m.
Proof. done. Qed.
Lemma keeps_at_world {A} (m : M (World R) A) : touches P m → keeps P (at_world m).
Proof. intros Hm s. unfold at_world. specialize (Hm (si_world s)). by destruct (m (si_world s)). Qed.
Lemma keeps_in_world {A} (m : M (World R) A) : touches P m → keeps P (in_world m).
Proof. intros Hm a. unfold in_world. specialize (Hm (ap_world a)). by destruct (m (ap_world a)). Qed.
Lemma keeps_on_world {A} (m : M (World R) A) : touches P m → keeps P (on_world m).
Proof. intros Hm s. unfold on_world. specialize (Hm (sv_world s)). by destruct (m (sv_world s)). Qed.
Lemma keeps_at_app {A} (m : M (App R) A) : keeps P m → keeps P (at_app m).
Proof. intros Hm s. unfold at_app. specialize (Hm (app_of s)). by destruct (m (app_of s)). Qed.
Lemma keeps_at_sess {A} (m : M (Sess R) A) : keeps P m → keeps P (at_sess m).
Proof. intros Hm s. unfold at_sess. specialize (Hm (si_sess s)). by destruct (m (si_sess s)). Qed.
Lemma keeps_still {A} (m : M (App R) A) : keeps_world m → keeps P m.
Proof. intros Hm a. change (world_of (m a).2) with (ap_world (m a).2). by rewrite Hm. Qed.
Lemma keeps_statement {A} (f : Tables → list string → res A * Tables * list string) : keeps (R := R) P (statement f).
Proof. apply keeps_still, keeps_world_statement. Qed.
Lemma keeps_RunInTransaction {A} (m : M (App R) A) : keeps P m → keeps P (RunInTransaction m).
Proof.
  assert (keeps P (begin_tx (R := R))) as Hb by (intros a; unfold begin_tx; by destruct (next_fate _) as [[] ?]).
  assert (keeps P (commit_tx (R := R))) as Hc by (intros a; unfold commit_tx; by destruct (next_fate _) as [[] ?]).
  assert (keeps P (rollback (R := R))) as Hr by done.
  intros Hm. unfold RunInTransaction. apply state_keeps_bind; [by apply state_keeps_wrap|]. intros _.
  apply state_keeps_bind; [by apply state_keeps_try|]. intros [x|e]; [|by apply state_keeps_bind].
  apply state_keeps_bind; [by apply state_keeps_try|]. intros [y|e]; [apply state_keeps_ret|by apply state_keeps_bind].
Qed.
End states.
#[export] Hint Resolve state_keeps_ret state_keeps_fail keeps_lift state_keeps_gets keeps_guard keeps_statement keeps_touches keeps_at_world
  keeps_in_world keeps_on_world : footprint.

(** Along the monad; what remains are the operations without a lemma. *)
Ltac keep_step :=
  first
    [ solve [eauto with footprint nocore]
    | lazymatch goal with
      | |- keeps _ (bind _ _) => apply state_keeps_bind; [|intros ?]
      | |- keeps _ (attempt _ _ _) => apply keeps_attempt; [|intros ?]
      | |- keeps _ (try _) => apply state_keeps_try
      | |- keeps _ (wrap _ _) => apply state_keeps_wrap
      | |- keeps _ (ignore _) => apply keeps_ignore
      | |- keeps _ (for_each _ _) => apply keeps_each; intros ?
      | |- keeps _ (at_app _) => apply keeps_at_app
      | |- keeps _ (at_sess _) => apply keeps_at_sess
      | |- keeps _ (RunInTransaction _) => apply keeps_RunInTransaction
      | |- keeps _ (modify _) => apply keeps_modify; reflexivity
      | |- keeps _ (if ?b then _ else _) => destruct b
      | |- keeps _ (match ?x with _ => _ end) => destruct x
      end ].
Ltac keep := repeat keep_step.

(** ** The session service *)
Definition session_family : list string := [sessionKeyPrefix; accountSessionsPrefix; "refresh_token:"; "session_tokens:"].
Lemma session_keys_in_family k : session_store_key k → under session_family k.
Proof.
  intros (s&[->| ->]); [by apply (under_intro _ sessionKeyPrefix)|by apply (under_intro _ accountSessionsPrefix)].
Qed.
Lemma token_keys_in_family k : under token_keys k → under session_family k.
Proof. intros (p&x&Hp&->). exists p, x. split; [|done]. unfold token_keys, session_family in *. set_solver. Qed.

Section sessions.
Context {R : Type} `{RedisServer R} (cfg : SessionConfig) (tr : option (TokenRevoker R)).
#[local] Abbreviation F := (under session_family).

Lemma session_key_in sid : F (buildSessionKey sid).
Proof. apply session_keys_in_family. exists sid. by left. Qed.
Lemma index_key_in a : F (buildAccountSessionsKey a).
Proof. apply session_keys_in_family. exists a. by right. Qed.
#[local] Hint Resolve session_key_in index_key_in : footprint.

Lemma touches_GetEx (P : string → Prop) k e : P k → touches P (GetEx (R := R) k e).
Proof. intros Hk. unfold GetEx, not_found_or. touch; by s_touch. Qed.
Lemma touches_SRem (P : string → Prop) k m : P k → touches P (SRem (R := R) k m).
Proof. intros Hk. unfold SRem. touch; by s_touch. Qed.
#[local] Hint Resolve touches_GetEx touches_SRem : footprint.

Lemma keeps_new_obj x : keeps F (new_obj (R := R) x).
Proof. by intros s. Qed.
Lemma keeps_cacheStore sid c : keeps F (cacheStore (R := R) sid c).
Proof. intros s. unfold cacheStore. cbn. destruct (_ <=? _); [done|]. by destruct (_ !! _). Qed.
Lemma keeps_cacheEvict sid : keeps F (cacheEvict (R := R) sid).
Proof. intros s. unfold cacheEvict. cbn. by destruct (_ !! _). Qed.
#[local] Hint Resolve keeps_new_obj keeps_cacheStore keeps_cacheEvict : footprint.
Lemma keeps_parse_and_cache sid d : keeps F (parse_and_cache (R := R) sid d).
Proof. unfold parse_and_cache, cached_for. keep. Qed.
Lemma keeps_revoke_tokens sid : keeps F (revoke_tokens tr sid).
Proof.
  unfold revoke_tokens. destruct tr as [t|]; [|by keep]. apply keeps_on_world.
  eapply touches_mono; [apply revoke_all_touches|]. apply token_keys_in_family.
Qed.
#[local] Hint Resolve keeps_parse_and_cache keeps_revoke_tokens : footprint.
Lemma keeps_forceExpire sid k : (k ≠ "" → F k) → keeps F (forceExpireSession tr sid k).
Proof.
  intros Hk. unfold forceExpireSession. apply state_keeps_bind; [|intros ?].
  { apply keeps_ignore, keeps_on_world, touches_Del. repeat constructor; apply session_key_in. }
  case_bool_decide as Hke; [by keep|]. specialize (Hk Hke). keep.
Qed.
Lemma keeps_ValidateSession sid : keeps F (ValidateSession cfg tr sid).
Proof.
  unfold ValidateSession, load_obj. keep. apply keeps_forceExpire. intros _. apply index_key_in.
Qed.
Lemma keeps_GetSession sid : keeps F (GetSession (R := R) sid).
Proof. unfold GetSession. keep. Qed.
#[local] Hint Resolve keeps_GetSession : footprint.
Lemma keeps_RevokeSession a sid : keeps F (RevokeSession tr a sid).
Proof.
  unfold RevokeSession, load_obj. keep. apply keeps_on_world, touches_Del. repeat constructor; apply session_key_in.
Qed.
Lemma keeps_RevokeAllForAccount a : keeps F (RevokeAllForAccount tr a).
Proof.
  unfold RevokeAllForAccount, revokeAccountSessionsScript. keep.
  - apply keeps_on_world. touch. s_touch; apply index_key_in.
  - apply keeps_on_world, touches_Del, Forall_forall. intros k (sid&->&_)%list_elem_of_fmap. apply session_key_in.
Qed.
End sessions.
#[export] Hint Resolve touches_GetEx touches_SRem keeps_ValidateSession keeps_GetSession keeps_RevokeSession keeps_RevokeAllForAccount : footprint.
