(* ===== verification/AccountService.v ===== *)
(** * [internal/account/service]: registration, status, passwords, roles, identities

    The dependencies on other modules are the fields of [AccountServiceOptions]; an absent
    one is [None]. The zone database is the parameter [TzLib]. Logging is left out. *)
From S2P Require Import Prelude GoTime Json Hash Redis World Cache TokenDomain Session SessionService Url GoStrings AccountDomain Credential OAuthDomain Database ClientRepo AccountRepo Site.
Local Open Scope Z_scope.

(** [time.LoadLocation] *)
Class TzLib := { tz_known : string → bool }.

Definition ErrUsernameAlreadyTaken := Sentinel "username already taken".
Definition ErrUsernameEmpty := Sentinel "username must not be empty".
Definition ErrUsernameTooShort := Sentinel "username must be at least 2 characters".
Definition ErrUsernameTooLong := Sentinel "username must not exceed 64 characters".
Definition ErrUsernameInvalidChars :=
  Sentinel "username may only contain lowercase letters, digits, hyphens, dots, and underscores".
Definition ErrIncorrectOldPassword := Sentinel "incorrect old password".
Definition ErrSamePassword := Sentinel "new password must differ from old password".
Definition ErrFederatedIdentityAlreadyBound := Sentinel "federated identity already bound".
Definition ErrEmailAlreadyRegistered := Sentinel "email already registered".
Definition ErrPhoneAlreadyRegistered := Sentinel "phone already registered".
Definition ErrAccountNotActive := Sentinel "account is not active".
Definition ErrCredentialAlreadyExists := Sentinel "credential already exists".
Definition ErrCannotUnbindLastAuthMethod :=
  Sentinel "cannot unbind the only authentication method; set a password first".
Definition ErrPasswordRequired := Sentinel "password is required".
Definition ErrEmailOrPhoneRequired := Sentinel "at least one of email or phone is required".
Definition ErrSessionRevokerNotBound := Sentinel "SessionRevoker not configured; cannot revoke sessions".
Definition ErrOAuth2ClientDeleterNotBound :=
  Sentinel "OAuth2ClientDeleter not configured; cannot cascade-delete OAuth2 clients".

Record RegisterAccountRequest : Type := mkRegisterAccount {
  ra_Username : string;
  ra_DisplayName : string;
  ra_Email : string;
  ra_Phone : string;
  ra_Password : string;
  ra_Locale : string;
  ra_Timezone : string;
  ra_Metadata : option metadata;
}.

Record AccountServiceOptions (R : Type) : Type := mkOptions {
  op_SessionRevoker : option (string → M (Sess R) unit);
  op_OAuth2ClientDeleter : option (string → Z → M (App R) unit);
  op_ConsentCacheInvalidator : option (string → M (World R) unit);
  op_RoleCacheInvalidator : option (string → M (World R) unit);
}.
Arguments mkOptions {R}. Arguments op_SessionRevoker {R}. Arguments op_OAuth2ClientDeleter {R}.
Arguments op_ConsentCacheInvalidator {R}. Arguments op_RoleCacheInvalidator {R}.

Definition validateRegistration `{Unicode} `{MailLib} (req : RegisterAccountRequest) : res unit :=
  if bool_decide (ra_Password req = "") then Err ErrPasswordRequired
  else match ValidatePasswordStrength (ra_Password req) with
       | Err e => Err e
       | Ok _ =>
           if bool_decide (ra_Email req = "") && bool_decide (ra_Phone req = "") then Err ErrEmailOrPhoneRequired
           else if bool_decide (ra_DisplayName req = "") then Err ErrDisplayNameRequired
           else if negb (bool_decide (ra_Email req = "")) && negb (bool_decide (mail_parse (ra_Email req) = Some (ra_Email req)))
           then Err ErrInvalidEmailFormat
           else if negb (bool_decide (ra_Phone req = "")) && negb (ValidatePhoneFormat (ra_Phone req))
           then Err ErrInvalidPhoneFormat
           else Ok tt
       end.

Definition username_char (c : ascii) : bool := is_lower c || is_digit c || one_of ["_"; "-"; "."]%char c.
Definition validateUsername (username : string) : res unit :=
  if bool_decide (username = "") then Err ErrUsernameEmpty
  else if slen username <? 2 then Err ErrUsernameTooShort
  else if 64 <? slen username then Err ErrUsernameTooLong
  else if negb (sforall username_char username) then Err ErrUsernameInvalidChars
  else Ok tt.

(** The optional fields of a registration. *)
Definition with_profile (username : option string) (locale timezone : string) (meta : metadata) (a : Account) : Account :=
  mkAccount (a_ID a) username (a_DisplayName a) (a_AvatarURL a) (a_Status a) locale timezone meta (a_CreatedAt a)
    (a_UpdatedAt a) (a_DeletedAt a).
Definition set_primary (b : bool) (c : Credential) : Credential :=
  mkCredential (cr_ID c) (cr_AccountID c) (cr_Type c) (cr_Identifier c) (cr_Value c) (cr_Verified c) b (cr_Metadata c)
    (cr_CreatedAt c) (cr_UpdatedAt c) (cr_VerifiedAt c) (cr_LastUsedAt c) (cr_DeletedAt c).

Section service.
Context {R : Type} `{Postgres} `{Argon2} `{Unicode} `{MailLib} `{TzLib} (opts : AccountServiceOptions R).
#[local] Abbreviation AM := (M (App R)).
#[local] Abbreviation SM := (M (Site R)).

Definition audit_account (action accountID : string) (details : list (string * string)) : SM unit :=
  at_world (audit_log (Audit action (Some accountID) (("account_id", accountID) :: details))).

(** ** Registration *)
Definition checkCredentialExistsTx (credType identifier : string) : AM unit :=
  let! r := try (FindByTypeAndIdentifier credType identifier) in
  match r with
  | Err e => if errors_is e ErrCredentialNotFound then ret tt else fail (Wrap "check credential existence" e)
  | Ok _ =>
      fail (if bool_decide (credType = CredentialTypeEmail) then ErrEmailAlreadyRegistered
            else if bool_decide (credType = CredentialTypePhone) then ErrPhoneAlreadyRegistered
            else Wrap credType ErrCredentialAlreadyExists)
  end.

(** What [NewEmailCredential] and [NewPhoneCredential] take from the process. *)
Definition stamped (f : Z → string → res Credential) : AM Credential :=
  let! t := app_now in let! id := in_world uuid_new in lift_res (f t id).
Definition email_credentials (account : string) (req : RegisterAccountRequest) : AM (list Credential) :=
  if bool_decide (ra_Email req = "") then ret [] else
  let! c := wrap "create email credential" (stamped (λ t id, NewEmailCredential t id account (ra_Email req))) in
  ret [set_primary true c].
Definition phone_credentials (account : string) (req : RegisterAccountRequest) : AM (list Credential) :=
  if bool_decide (ra_Phone req = "") then ret [] else
  let! c := wrap "create phone credential" (stamped (λ t id, NewPhoneCredential t id account (ra_Phone req))) in
  ret [set_primary (bool_decide (ra_Email req = "")) c].

Definition create_in_tx (account : Account) (passwordCred : Credential) (req : RegisterAccountRequest) : AM unit :=
  (if bool_decide (ra_Email req = "") then ret tt else checkCredentialExistsTx CredentialTypeEmail (ra_Email req)) ;;
  (if bool_decide (ra_Phone req = "") then ret tt else checkCredentialExistsTx CredentialTypePhone (ra_Phone req)) ;;
  CreateAccount account ;;
  let! emails := email_credentials (a_ID account) req in
  let! phones := phone_credentials (a_ID account) req in
  CreateCredentials (passwordCred :: emails ++ phones).

(** The two lookups run concurrently; here the one for the address comes first. *)
Definition classifyRegistrationConflict (req : RegisterAccountRequest) : AM err :=
  let! email := (if bool_decide (ra_Email req = "") then ret false else
    let! r := try (FindByTypeAndIdentifier CredentialTypeEmail (ra_Email req)) in ret (is_ok r)) in
  let! phone := (if bool_decide (ra_Phone req = "") then ret false else
    let! r := try (FindByTypeAndIdentifier CredentialTypePhone (ra_Phone req)) in ret (is_ok r)) in
  ret (if email : bool then ErrEmailAlreadyRegistered else if phone : bool then ErrPhoneAlreadyRegistered
       else ErrUsernameAlreadyTaken).

Definition new_account (req : RegisterAccountRequest) : AM Account :=
  let! id := in_world uuid_new in
  let! t := app_now in
  let! a := wrap "create account" (lift_res (NewAccount t id (ra_DisplayName req))) in
  let username := TrimSpace (ra_Username req) in
  (if bool_decide (ra_Username req = "") then ret tt else lift_res (validateUsername username)) ;;
  let tz := TrimSpace (ra_Timezone req) in
  guard_err (negb (bool_decide (ra_Timezone req = "")) && negb (tz_known tz)) (Anon ("invalid timezone: " +:+ tz)) ;;
  ret (with_profile (if bool_decide (ra_Username req = "") then a_Username a else Some username)
         (if bool_decide (ra_Locale req = "") then a_Locale a else TrimSpace (ra_Locale req))
         (if bool_decide (ra_Timezone req = "") then a_Timezone a else tz)
         (default [] (ra_Metadata req)) a).

Definition RegisterAccount (req : RegisterAccountRequest) : SM Account :=
  wrap "validation failed" (lift_res (validateRegistration req)) ;;
  let! account := at_app (new_account req) in
  let! passwordCred := wrap "hash password" (at_world (NewPasswordCredential (a_ID account) (ra_Password req))) in
  let! r := try (at_app (RunInTransaction (create_in_tx account passwordCred req))) in
  match r with
  | Err e => if errors_is e ErrUniqueViolation
             then let! e' := at_app (classifyRegistrationConflict req) in fail e'
             else fail e
  | Ok _ =>
      audit_account "account.register" (a_ID account) [] ;;
      ret account
  end.

(** ** Lookups *)
Definition FindAccountByID (accountID : string) : AM Account := AccountRepo_FindByID accountID.
Definition FindAccountByUsername (username : string) : AM Account := FindByUsername username.
Definition AccountSvc_FindByUsernameWithPasswordCredential (username : string) : AM (Account * res Credential) :=
  FindByUsernameWithPasswordCredential username.
Definition ListAccounts (page pageSize : Z) (status : string) : AM (list Account * Z) := AccountRepo_FindAll page pageSize status.
Definition ListAccountSummaries (page pageSize : Z) (status : string) : AM (list (Account * option (list Role)) * Z) :=
  let! (accounts, total) := AccountRepo_FindAll page pageSize status in
  let! roles := FindRolesByAccountIDs (map a_ID accounts) in
  ret (map (λ a, (a, roles !! a_ID a)) accounts, total).
Definition AccountSvc_GetAccountRoles (accountID : string) : AM (list Role) := FindRolesByAccountID accountID.

(** ** Changes *)
Definition with_updated (t : Z) (a : Account) : Account := account_with_status (a_Status a) t (a_DeletedAt a) a.
(** The caller's record as it is sent. *)
Definition UpdateAccount (account : Account) : SM Account :=
  let account := Sanitize account in
  wrap "invalid account" (lift_res (account_Validate account)) ;;
  let! account := at_app (RunInTransaction (
    let! current := AccountRepo_FindByID (a_ID account) in
    let! now := app_now in
    let account := with_updated now account in
    AccountRepo_UpdateAccount account (a_UpdatedAt current) ;;
    ret account)) in
  audit_account "account.update" (a_ID account) [] ;;
  ret account.

(** The account of a row that must be active. *)
Definition active_account (accountID : string) : AM Account :=
  let! r := try (AccountRepo_FindByID accountID) in
  match r with
  | Err e => fail (if errors_is e ErrAccountNotFound then ErrAccountNotActive else e)
  | Ok a => guard_err (negb (IsActive (Some a))) ErrAccountNotActive ;; ret a
  end.
Definition active_account_or_missing (accountID : string) : AM Account :=
  let! a := AccountRepo_FindByID accountID in
  guard_err (negb (IsActive (Some a))) ErrAccountNotActive ;; ret a.

Definition soft_delete_in_tx (accountID : string) (now : Z) (deleter : string → Z → AM unit) : AM unit :=
  let! account := wrap "find account" (FindByIDIncludingDeletedTx accountID) in
  if bool_decide (is_Some (a_DeletedAt account)) then ret tt else
  SoftDeleteCredentialsByAccount accountID now ;;
  SoftDeleteFederatedIdentitiesByAccountID accountID now ;;
  SoftDeleteRolesByAccountID accountID now ;;
  deleter accountID now ;;
  SoftDeleteAccountByID accountID now.
Definition SoftDeleteAccount (accountID : string) : SM unit :=
  guard_err (bool_decide (accountID = "")) ErrAccountIDRequired ;;
  match op_SessionRevoker opts, op_OAuth2ClientDeleter opts with
  | None, _ => fail (Wrap "cannot revoke sessions on account deletion" ErrSessionRevokerNotBound)
  | Some _, None => fail (Wrap "cannot cascade-delete OAuth2 clients" ErrOAuth2ClientDeleterNotBound)
  | Some revokeAll, Some deleter =>
      let! now := site_now in
      at_app (RunInTransaction (soft_delete_in_tx accountID now deleter)) ;;
      let! revoked := try (at_sess (revokeAll accountID)) in
      match op_ConsentCacheInvalidator opts with
      | Some invalidate => ignore (at_world (invalidate accountID))
      | None => ret tt
      end ;;
      audit_account "account.delete" accountID [] ;;
      match revoked with
      | Err e => fail (Wrap "account deleted but session revocation failed" e)
      | Ok _ => ret tt
      end
  end.

Definition VerifyContactCredential (accountID : string) : SM unit :=
  let! credential := at_app (RunInTransaction (
    active_account accountID ;;
    let! emails := wrap "find email credential" (FindByAccountAndType accountID CredentialTypeEmail) in
    let! credentials := match emails with
      | [] => wrap "find phone credential" (FindByAccountAndType accountID CredentialTypePhone)
      | _ => ret emails end in
    match credentials with
    | [] => fail ErrCredentialNotFound
    | c :: _ =>
        let! now := app_now in
        let c := credential_Verify now c in
        UpdateCredential c ;;
        ret c
    end)) in
  audit_account "account.credential.verify" accountID [("credential_type", cr_Type credential)].

(** The credential to change is checked by [check]. *)
Definition replace_password (accountID newPasswordHash : string) (check : Credential → AM unit) : AM unit :=
  active_account_or_missing accountID ;;
  let! creds := wrap "find password credential" (FindByAccountAndType accountID CredentialTypePassword) in
  match creds with
  | [] => fail ErrCredentialNotFound
  | passwordCred :: _ =>
      check passwordCred ;;
      UpdateCredential (with_value newPasswordHash passwordCred)
  end.
Definition check_old (oldPassword : string) (c : Credential) : AM unit :=
  guard_err (negb (VerifyPassword (Some c) oldPassword)) ErrIncorrectOldPassword.
Definition ChangePassword (accountID oldPassword newPassword : string) : SM unit :=
  lift_res (ValidatePasswordStrength newPassword) ;;
  guard_err (bool_decide (oldPassword = newPassword)) ErrSamePassword ;;
  match op_SessionRevoker opts with
  | None => fail (Wrap "cannot revoke sessions on password change" ErrSessionRevokerNotBound)
  | Some revokeAll =>
      let! newPasswordHash := wrap "hash new password" (at_world (HashPassword newPassword)) in
      at_app (RunInTransaction (replace_password accountID newPasswordHash (check_old oldPassword))) ;;
      wrap "password changed but session revocation failed" (at_sess (revokeAll accountID)) ;;
      audit_account "account.password.change" accountID []
  end.
Definition AdminChangePassword (accountID newPassword : string) : SM unit :=
  lift_res (ValidatePasswordStrength newPassword) ;;
  match op_SessionRevoker opts with
  | None => fail (Wrap "cannot revoke sessions on password change" ErrSessionRevokerNotBound)
  | Some revokeAll =>
      let! newPasswordHash := wrap "hash new password" (at_world (HashPassword newPassword)) in
      at_app (RunInTransaction (replace_password accountID newPasswordHash (λ _, ret tt))) ;;
      wrap "password changed but session revocation failed" (at_sess (revokeAll accountID)) ;;
      audit_account "account.password.change" accountID [("admin_action", "true")]
  end.

Definition SuspendAccount (accountID : string) : SM unit :=
  match op_SessionRevoker opts with
  | None => fail (Wrap "cannot revoke sessions on account suspension" ErrSessionRevokerNotBound)
  | Some revokeAll =>
      at_app (RunInTransaction (AccountRepo_SuspendAccount accountID)) ;;
      wrap "suspend succeeded but session revocation failed" (at_sess (revokeAll accountID)) ;;
      audit_account "account.suspend" accountID []
  end.
Definition ActivateAccount (accountID : string) : SM unit :=
  at_app (RunInTransaction (AccountRepo_ActivateAccount accountID)) ;;
  audit_account "account.activate" accountID [].

(** ** Federated identities *)
Definition bind_in_tx (accountID provider providerUserID : string) (identity : FederatedIdentity) : AM unit :=
  active_account_or_missing accountID ;;
  let! existing := try (FindByProvider provider providerUserID) in
  guard_err (is_ok existing) ErrFederatedIdentityAlreadyBound ;;
  CreateFederatedIdentity identity.
Definition BindFederatedIdentity (accountID provider providerUserID : string) (profile : option metadata) : SM unit :=
  let! t := site_now in
  let! id := at_world uuid_new in
  let! identity := wrap "create federated identity"
    (lift_res (NewFederatedIdentity t id accountID provider providerUserID profile)) in
  let! r := try (at_app (RunInTransaction (bind_in_tx accountID provider providerUserID identity))) in
  match r with
  | Ok _ => audit_account "account.federated_identity.bind" accountID [("provider", provider); ("provider_user_id", providerUserID)]
  | Err e =>
      if errors_is e ErrUniqueViolation then
        let! existing := try (at_app (FindByProvider provider providerUserID)) in
        match existing with
        | Ok x => if bool_decide (fi_AccountID x = accountID) then ret tt else fail ErrFederatedIdentityAlreadyBound
        | Err _ => fail e
        end
      else fail e
  end.

(** Another way in must remain: a password, or another identity. *)
Definition unbind_in_tx (accountID identityID : string) (now : Z) : AM unit :=
  active_account accountID ;;
  let! pwCreds := wrap "check password credential" (FindByAccountAndType accountID CredentialTypePassword) in
  let hasPassword := existsb (λ c, negb (credential_IsDeleted (Some c))) pwCreds in
  (if hasPassword then ret tt else
   let! identities := wrap "check federated identities" (IdentityRepo_FindByAccountID accountID) in
   guard_err (bool_decide (List.filter (λ i, negb (identity_IsDeleted (Some i)) && negb (bool_decide (fi_ID i = identityID))) identities = []))
     ErrCannotUnbindLastAuthMethod) ;;
  SoftDeleteFederatedIdentityByID accountID identityID now.
Definition UnbindFederatedIdentity (accountID identityID : string) : SM unit :=
  let! now := site_now in
  at_app (RunInTransaction (unbind_in_tx accountID identityID now)) ;;
  audit_account "account.federated_identity.unbind" accountID [("identity_id", identityID)].

(** ** Roles *)
Definition invalidate_roles (accountID : string) : SM unit :=
  match op_RoleCacheInvalidator opts with
  | Some invalidate => ignore (at_world (invalidate accountID))
  | None => ret tt
  end.
Definition AssignRole (accountID roleID : string) : SM unit :=
  at_app (RunInTransaction (
    active_account accountID ;;
    let! role := findRoleByID roleID in
    guard_err (role_IsDeleted (Some role)) ErrRoleNotFound ;;
    let! now := app_now in
    AssignRoleToAccount accountID roleID now)) ;;
  invalidate_roles accountID ;;
  audit_account "account.role.assign" accountID [("role_id", roleID)].
Definition RemoveRole (accountID roleID : string) : SM unit :=
  let! now := site_now in
  at_app (RunInTransaction (active_account accountID ;; RemoveRoleFromAccount accountID roleID now)) ;;
  invalidate_roles accountID ;;
  audit_account "account.role.remove" accountID [("role_id", roleID)].

Definition ResetMFA (accountID : string) : SM unit :=
  at_app (AccountRepo_FindByID accountID) ;;
  let! now := site_now in
  at_app (RunInTransaction (
    wrap "delete totp" (SoftDeleteCredentialsByType accountID CredentialTypeTOTP now) ;;
    wrap "delete backup codes" (SoftDeleteCredentialsByType accountID CredentialTypeBackupCode now) ;;
    wrap "delete webauthn" (SoftDeleteCredentialsByType accountID CredentialTypeWebAuthn now))) ;;
  audit_account "account.mfa.disable" accountID [("reset_by", "admin")].
End service.

(** ** Reading an account *)
Lemma reads_FindAccountByID {R} id : only_reads (R := R) (FindAccountByID id).
Proof. unfold FindAccountByID, AccountRepo_FindByID, findAccountByID. reading. Qed.
#[export] Hint Resolve reads_FindAccountByID : reading.
