(* ===== verification/ConsentService.v ===== *)
(** * [internal/oauth2/service/consent_service.go]: consents in the database, cached in Redis *)
From S2P Require Import Prelude GoTime Json Hash Redis World Cache TokenDomain OAuthDomain AuthCode Database ClientRepo ClientService Footprint Scan SessionProps Url.
Local Open Scope Z_scope.

Definition consentKeyPrefix : string := "consent:".
Definition consentTTL : Z := 90 * 24 * hour.
Definition consentCacheFallbackTTL : Z := 5 * minute.
Definition consentTombstone : string :=
  "{" +:+ String dquote ("_tombstone" +:+ String dquote (":" +:+ String dquote ("revoked" +:+ String dquote "}"))).
Definition buildConsentKey (accountID clientID : string) : string :=
  consentKeyPrefix +:+ accountID +:+ "|" +:+ clientID.

(** ** JSON *)
Definition consent_members (c : Consent) (g cr u : string) (d : option string) : list (string * json) :=
  [("id", JStr (co_ID c)); ("account_id", JStr (co_AccountID c)); ("client_id", JStr (co_ClientID c));
   ("scopes", JArr (map JStr (co_Scopes c))); ("granted_at", JStr g); ("created_at", JStr cr); ("updated_at", JStr u)]
  ++ match d with Some s => [("deleted_at", JStr s)] | None => [] end.
Definition marshal_opt_time (t : option Z) : res (option string) :=
  match t with
  | None => Ok None
  | Some t => match marshal_time t with Ok s => Ok (Some s) | Err e => Err e end
  end.
Definition marshal_consent (c : Consent) : res string :=
  match two_times (co_GrantedAt c) (co_CreatedAt c), marshal_time (co_UpdatedAt c), marshal_opt_time (co_DeletedAt c) with
  | Ok (g, cr), Ok u, Ok d => Ok (jobj (consent_members c g cr u d))
  | Err e, _, _ | _, Err e, _ | _, _, Err e => Err e
  end.
(** A pointer to a time: absent and [null] are [nil]. *)
Definition get_opt_time (field : string) (l : list (string * json)) : option (option Z) :=
  match jfield field l with
  | None | Some JNull => Some None
  | Some (JStr s) => t ← parse_time s; Some (Some t)
  | _ => None
  end.
Definition consent_fields (l : list (string * json)) : option Consent :=
  i ← get_str "id" l; a ← get_str "account_id" l; c ← get_str "client_id" l; sc ← get_strs "scopes" l;
  g ← get_time "granted_at" l; cr ← get_time "created_at" l; u ← get_time "updated_at" l;
  d ← get_opt_time "deleted_at" l;
  Some (mkConsent i a c sc g cr u d).
Definition unmarshal_consent (s : string) : option Consent :=
  match jparse s with
  | Some (JObj l) => consent_fields l
  | Some JNull => consent_fields []
  | _ => None
  end.

Section service.
Context {R : Type} `{RedisServer R} `{Postgres}.
#[local] Abbreviation AM := (M (App R)).

(** What the cache knows; a tombstone or a broken entry is a miss, an error too. *)
Definition cached_consent (key : string) : AM (option Consent) :=
  let! r := try (in_world (Get key)) in
  ret match r with
      | Ok data => if bool_decide (data = consentTombstone) then None else unmarshal_consent data
      | Err _ => None
      end.
Definition consent_from_db (accountID clientID : string) : AM Consent :=
  let! r := try (findConsentByAccountAndClient accountID clientID) in
  match r with
  | Ok c => ret c
  | Err e => fail (if errors_is e ErrConsentNotFound then ErrConsentNotFound else Wrap "get consent from DB" e)
  end.
Definition cache_write_back (key : string) (c : Consent) : AM unit :=
  match marshal_consent c with
  | Ok data => ignore (in_world (Set_ key data consentTTL))
  | Err _ => ret tt
  end.
Definition GetConsent (accountID clientID : string) : AM Consent :=
  let key := buildConsentKey accountID clientID in
  let! cached := cached_consent key in
  match cached with
  | Some c => ret c
  | None =>
      let! c := consent_from_db accountID clientID in
      cache_write_back key c ;;
      ret c
  end.

Definition with_granted (t : Z) (c : Consent) : Consent :=
  mkConsent (co_ID c) (co_AccountID c) (co_ClientID c) (co_Scopes c) t (co_CreatedAt c) (co_UpdatedAt c) (co_DeletedAt c).
(** The caller's record as it is afterwards. *)
Definition SaveConsent (consent : option Consent) : AM Consent :=
  match consent with
  | None => fail ErrConsentNil
  | Some c =>
      guard_err (bool_decide (co_AccountID c = "") || bool_decide (co_ClientID c = ""))
        (ValidationError "consent account_id and client_id are required") ;;
      let! now := app_now in
      let! c := wrap "save consent to DB" (RunInTransaction (ConsentRepo_Upsert (with_granted now c))) in
      match marshal_consent c with
      | Err _ => ret c
      | Ok data =>
          let key := buildConsentKey (co_AccountID c) (co_ClientID c) in
          let! r := try (in_world (Set_ key data consentTTL)) in
          (match r with
           | Err _ => ignore (in_world (Set_ key data consentCacheFallbackTTL))
           | Ok _ => ret tt
           end) ;;
          ret c
      end
  end.

Definition delete_in_tx (accountID clientID : string) : AM unit :=
  let! now := app_now in ConsentRepo_SoftDelete accountID clientID now.
Definition DeleteConsent (accountID clientID : string) : AM unit :=
  wrap "delete consent from DB" (RunInTransaction (delete_in_tx accountID clientID)) ;;
  let key := buildConsentKey accountID clientID in
  let! r := try (in_world (Del [key])) in
  match r with
  | Err _ => ignore (in_world (Set_ key consentTombstone consentCacheFallbackTTL))
  | Ok _ => ret tt
  end.

Definition ListConsentsByAccountID (accountID : string) : AM (list Consent) :=
  guard_err (bool_decide (accountID = "")) (ValidationError "account_id is required") ;;
  wrap "list consents" (ConsentRepo_FindByAccountID accountID).
End service.

(** ** The cached consents of an account

    [DeleteConsentsByAccount] clears the cache only. *)
Section by_account.
Context {R : Type} `{ScanServer R}.

Definition consentPattern (accountID : string) : string := consentKeyPrefix +:+ accountID +:+ "|*".
Definition delete_page (deleted : Z) (keys : list string) : M (World R) Z :=
  (if bool_decide (keys = []) then ret tt else ignore (Del keys)) ;;
  ret (deleted + Z.of_nat (length keys)).
Definition scan_consents (accountID : string) : M (World R) (Z * Z) :=
  wrap "scan consent keys" (scan_loop maxIterations (consentPattern accountID) delete_page 0 0).
Definition DeleteConsentsByAccount (accountID : string) : M (World R) unit := scan_consents accountID ;; ret tt.

Lemma touches_DeleteConsentsByAccount accountID :
  touches (λ k, r_match (consentPattern accountID) k = true) (DeleteConsentsByAccount accountID).
Proof.
  apply touches_bind; [|intros; apply touches_ret]. apply touches_wrap, touches_scan_loop.
  intros n keys. apply touches_bind; [|intros; apply touches_ret].
  case_bool_decide; [apply touches_ret|]. apply touches_ignore, touches_Del. by apply Forall_forall.
Qed.
Lemma delete_page_deletes : deletes delete_page.
Proof.
  intros n keys w Hn. unfold delete_page. apply wp_bind. case_bool_decide as Hk.
  - subst. wp_steps. split_and!; [done..|]. intros k. by rewrite decide_False by apply not_elem_of_nil.
  - apply wp_ignore, wp_wrap, wp_redis_call_up; [done|]. apply del_keys_spec. intros st Hst. wp_steps. by split_and!.
Qed.
(** When the iteration gets through, nothing is cached for the account. *)
Lemma consents_dropped accountID w n w' : w_net w = [] → plain accountID = true →
  scan_consents accountID w = (Ok (n, 0), w') → ∀ clientID, view w' (buildConsentKey accountID clientID) = None.
Proof.
  intros Hn Hp Hrun clientID. unfold scan_consents, wrap in Hrun.
  destruct (scan_loop _ _ _ _ _ w) as [[[]|] w1] eqn:E; [|done]. injection Hrun as -> -> ->.
  apply (scan_loop_complete _ _ 999 0 w n w' delete_page_deletes Hn E).
  unfold consentPattern, buildConsentKey.
  replace (consentKeyPrefix +:+ accountID +:+ "|*") with ((consentKeyPrefix +:+ accountID +:+ "|") +:+ "*" +:+ "")
    by (rewrite !append_assoc; reflexivity).
  apply r_match_star; [|done|exists clientID; by rewrite append_empty_r, !append_assoc].
  revert Hp. unfold plain. intros Hp. rewrite !sforall_app, Hp. reflexivity.
Qed.
End by_account.

(** ** Documents *)
Definition consent_wf (c : Consent) : bool :=
  forallb utf8_valid [co_ID c; co_AccountID c; co_ClientID c] && forallb utf8_valid (co_Scopes c).

Lemma consent_members_wf c g cr u d : consent_wf c = true →
  utf8_valid g = true → utf8_valid cr = true → utf8_valid u = true → (∀ s, d = Some s → utf8_valid s = true) →
  members_wf (consent_members c g cr u d) = true.
Proof.
  unfold consent_wf, consent_members, members_wf. cbn [forallb]. rewrite !andb_true_iff.
  intros ((?&?&?&_)&Hs%strs_wf) ??? Hd. rewrite forallb_app. cbn [forallb fst snd jwf]. rewrite Hs, !andb_true_iff.
  split_and!; try done. destruct d as [s|]; [|done]. cbn [forallb fst snd jwf]. by rewrite (Hd s eq_refl).
Qed.
(** A consent read back is the consent written. *)
Lemma unmarshal_marshal_consent c d : consent_wf c = true → marshal_consent c = Ok d → unmarshal_consent d = Some c.
Proof.
  intros Hwf. unfold marshal_consent. destruct (two_times _ _) as [[g cr]|] eqn:Ht; [|done].
  destruct (marshal_time (co_UpdatedAt c)) as [u|] eqn:Hu; [|done].
  destruct (marshal_opt_time (co_DeletedAt c)) as [dl|] eqn:Hd; [|done].
  intros Heq. apply (f_equal (λ r, match r with Ok s => s | Err _ => d end)) in Heq. subst d.
  apply two_times_ok in Ht as [Hg Hcr]. unfold unmarshal_consent.
  rewrite jparse_jobj.
  2: { apply consent_members_wf; eauto using marshal_time_utf8. intros s ->. unfold marshal_opt_time in Hd.
       destruct (co_DeletedAt c) as [t|]; [|done]. destruct (marshal_time t) eqn:Ht; simplify_eq. eauto using marshal_time_utf8. }
  apply marshal_time_ok in Hg, Hcr, Hu. clear Hwf.
  destruct c as [i ac cl sc gt ct ut dt]; cbn in *. unfold consent_fields, consent_members.
  assert (get_opt_time "deleted_at" (consent_members (mkConsent i ac cl sc gt ct ut dt) g cr u dl) = Some dt) as Hdl.
  { unfold consent_members, get_opt_time. destruct dt as [t|]; cbn in Hd.
    - destruct (marshal_time t) as [s|] eqn:Ht; [|done]. injection Hd as <-. apply marshal_time_ok in Ht.
      assert (∀ l, jfield "deleted_at" (l ++ [("deleted_at", JStr s)]) = Some (JStr s)) as ->
        by (intros l; by rewrite jfield_app). cbn. by rewrite Ht.
    - injection Hd as <-. cbn -[jfield].
      assert (∀ o : option json, o = None → match o with None | Some JNull => Some None
        | Some (JStr s) => t ← parse_time s; Some (Some t) | _ => None end = Some None) as Hnone by by intros ? ->.
      apply Hnone. read_member. }
  unfold consent_members in Hdl. cbn [app co_ID co_AccountID co_ClientID co_Scopes] in Hdl |- *. rewrite Hdl. clear Hdl.
  destruct dl as [s|]; cbn [app co_ID co_AccountID co_ClientID co_Scopes];
    rewrite (get_str_member "id" _ i), (get_str_member "account_id" _ ac), (get_str_member "client_id" _ cl),
      (get_strs_member "scopes" _ sc), (get_time_member "granted_at" _ g gt Hg), (get_time_member "created_at" _ cr ct Hcr),
      (get_time_member "updated_at" _ u ut Hu) by read_member; reflexivity.
Qed.
