(* ===== verification/ConsentProps.v ===== *)
(** * Theorems of the consent service: the cache agrees with the database *)
From S2P Require Import Prelude GoTime Json Hash Redis World Cache TokenDomain TokenService TokenSpecs TokenProps OAuthDomain AuthCode Database ClientRepo ClientService ConsentService.
Local Open Scope Z_scope.

(** ** Keys of the cache *)
Fixpoint no_bar (s : string) : bool :=
  match s with EmptyString => true | String c s' => negb (bool_decide (c = "|"%char)) && no_bar s' end.
Lemma cut_at_bar a a' c c' : no_bar a = true → no_bar a' = true → a +:+ "|" +:+ c = a' +:+ "|" +:+ c' → a = a' ∧ c = c'.
Proof.
  revert a'. induction a as [|x a IH]; intros [|y a'] Ha Ha' Heq; cbn in *.
  - by simplify_eq.
  - injection Heq as <- _. by rewrite bool_decide_true in Ha'.
  - injection Heq as -> _. by rewrite bool_decide_true in Ha.
  - injection Heq as -> Heq. apply andb_true_iff in Ha as [_ Ha], Ha' as [_ Ha'].
    by destruct (IH a' Ha Ha' Heq) as [-> ->].
Qed.
Lemma consent_key_inj a a' c c' : no_bar a = true → no_bar a' = true →
  buildConsentKey a c = buildConsentKey a' c' → a = a' ∧ c = c'.
Proof. intros Ha Ha' Heq. apply append_inj in Heq. by apply cut_at_bar. Qed.

(** ** What is granted *)
Definition join (row : Consent) (cl : OAuth2Client) : Consent :=
  mkConsent (co_ID row) (co_AccountID row) (oc_ClientID cl) (co_Scopes row) (co_GrantedAt row) (co_CreatedAt row)
    (co_UpdatedAt row) (co_DeletedAt row).
Definition grant (t : Tables) (acc cid : string) (c : Consent) : Prop :=
  ∃ k row cl, t_consents t !! k = Some row ∧ co_AccountID row = acc ∧ live_consent row = true ∧
    t_clients t !! co_ClientID row = Some cl ∧ oc_ClientID cl = cid ∧ c = join row cl.

(** The tables of clients and consents: keys are identifiers, a client_id stands for one
    client, an account has at most one live consent per client, texts are UTF-8. *)
Record consents_ok (t : Tables) : Prop := ConsentsOk {
  ck_keys k c : t_consents t !! k = Some c → co_ID c = k;
  ck_client i c : t_clients t !! i = Some c → oc_ID c = i;
  ck_ids i j c c' : t_clients t !! i = Some c → t_clients t !! j = Some c' → oc_ClientID c = oc_ClientID c' → i = j;
  ck_unique i j c c' : t_consents t !! i = Some c → t_consents t !! j = Some c' → live_consent c = true →
    live_consent c' = true → co_AccountID c = co_AccountID c' → co_ClientID c = co_ClientID c' → i = j;
  ck_utf8 acc cid c : grant t acc cid c → consent_wf c = true;
}.

Lemma grant_unique t acc cid c c' : consents_ok t → grant t acc cid c → grant t acc cid c' → c = c'.
Proof.
  intros [Hk Hc Hi Hu _] (k&row&cl&Hk1&Ha1&Hl1&Hc1&Hcid1&->) (k'&row'&cl'&Hk2&Ha2&Hl2&Hc2&Hcid2&->).
  assert (co_ClientID row = co_ClientID row') as Heq by (eapply Hi; [exact Hc1|exact Hc2|congruence]).
  assert (k = k') as <- by (eapply Hu; [exact Hk1|exact Hk2|done|done|congruence|exact Heq]).
  rewrite Heq in Hc1. congruence.
Qed.

(** [select_one] and the joins, as relations. *)
Lemma elem_rows {A} (p : A → bool) (m : gmap string A) x :
  x ∈ List.filter p (map snd (map_to_list m)) ↔ ∃ k, m !! k = Some x ∧ p x = true.
Proof.
  rewrite list_elem_of_In, filter_In, <-list_elem_of_In, list_elem_of_fmap. split.
  - intros (([k y]&->&Hin%elem_of_map_to_list)&Hp). eauto.
  - intros (k&Hk&Hp). split; [|done]. exists (k, x). by rewrite elem_of_map_to_list.
Qed.
Lemma head_elem {A} (l : list A) x : head l = Some x → x ∈ l.
Proof. destruct l; [done|]. intros [= ->]. left. Qed.
Lemma head_none {A} (l : list A) : head l = None → ∀ x, x ∉ l.
Proof. destruct l; [|done]. intros _ x. apply not_elem_of_nil. Qed.
Lemma select_one_some {A} (p : A → bool) (m : gmap string A) x :
  select_one p m = Some x → ∃ k, m !! k = Some x ∧ p x = true.
Proof. intros Hx%head_elem. by apply elem_rows. Qed.
Lemma select_one_none {A} (p : A → bool) (m : gmap string A) k x :
  select_one p m = None → m !! k = Some x → p x = false.
Proof.
  intros Hn Hk. destruct (p x) eqn:Hp; [|done]. destruct (head_none _ Hn x). apply elem_rows. eauto.
Qed.

Lemma elem_granted t acc cid c :
  c ∈ List.filter (λ c, bool_decide (co_ClientID c = cid)) (consents_of t acc) → grant t acc cid c.
Proof.
  rewrite list_elem_of_In, filter_In, <-list_elem_of_In. unfold consents_of, rows_where. rewrite list_elem_of_omap.
  setoid_rewrite elem_rows. intros ((row&(k&Hk&[Ha%bool_decide_eq_true Hl]%andb_true_iff)&Hj)&Hcid%bool_decide_eq_true).
  unfold joined in Hj. destruct (t_clients t !! co_ClientID row) as [cl|] eqn:Hcl; [|done]. injection Hj as <-.
  by exists k, row, cl.
Qed.
Lemma granted_elem t acc cid c : consents_ok t →
  c ∈ List.filter (λ c, bool_decide (co_ClientID c = cid)) (consents_of t acc) ↔ grant t acc cid c.
Proof.
  intros Hok. split; [apply elem_granted|].
  rewrite list_elem_of_In, filter_In, <-list_elem_of_In. unfold consents_of, rows_where. rewrite list_elem_of_omap. setoid_rewrite elem_rows.
  intros (k&row&cl&Hk&Ha&Hl&Hcl&Hcid&->). rewrite bool_decide_true by done. split; [|done]. exists row.
    split; [exists k; split; [done|]; by rewrite bool_decide_true|]. unfold joined. by rewrite Hcl.
Qed.

(** Writing a row for a pair: the only live one of it, new or a new version. *)
Lemma put_consent_ok t row cl : consents_ok t → t_clients t !! co_ClientID row = Some cl → consent_wf (join row cl) = true →
  (∀ k c, t_consents t !! k = Some c → live_consent c = true → co_AccountID c = co_AccountID row →
     co_ClientID c = co_ClientID row → k = co_ID row) →
  (∀ old, t_consents t !! co_ID row = Some old → co_AccountID old = co_AccountID row ∧ co_ClientID old = co_ClientID row) →
  consents_ok (put_consent row t) ∧
  (∀ acc cid g, grant (put_consent row t) acc cid g →
     grant t acc cid g ∨ (live_consent row = true ∧ acc = co_AccountID row ∧ cid = oc_ClientID cl ∧ g = join row cl)) ∧
  (∀ acc cid g, (acc, cid) ≠ (co_AccountID row, oc_ClientID cl) → grant t acc cid g → grant (put_consent row t) acc cid g).
Proof.
  intros [Hk Hc Hi Hu Hutf] Hcl Hwf Honly Hold.
  assert (∀ acc cid g, grant (put_consent row t) acc cid g →
     grant t acc cid g ∨ (live_consent row = true ∧ acc = co_AccountID row ∧ cid = oc_ClientID cl ∧ g = join row cl)) as Hback.
  { intros acc cid g (k&r&cl'&Hr&Ha&Hl&Hcl'&Hcid&->). cbn in Hr, Hcl'. apply lookup_insert_Some in Hr as [[<- <-]|[Hne Hr]].
    - right. rewrite Hcl in Hcl'. injection Hcl' as <-. by split_and!.
    - left. by exists k, r, cl'. }
  split_and!; [constructor; cbn|exact Hback|].
  - intros k c. rewrite lookup_insert_Some. naive_solver.
  - exact Hc.
  - exact Hi.
  - intros i j c c'. rewrite !lookup_insert_Some. intros [[<- <-]|[Hni H1]] [[<- <-]|[Hnj H2]] Hl1 Hl2 Ha Hcid; try done.
    + symmetry. by apply (Honly j c').
    + by apply (Honly i c).
    + by apply (Hu i j c c').
  - intros acc cid g [Hg|(_&_&_&->)]%Hback; [by apply (Hutf acc cid)|done].
  - intros acc cid g Hne (k&r&cl'&Hr&Ha&Hl&Hcl'&Hcid&->). exists k, r, cl'. cbn. rewrite lookup_insert_ne; [by split_and!|].
    intros <-. destruct (Hold r Hr) as [Ha' Hc']. rewrite Hc', Hcl in Hcl'. injection Hcl' as <-. apply Hne. congruence.
Qed.

(** ** The cache

    A cached consent and the row may differ in the rounding of the time of the grant. *)
Definition agrees `{Postgres} (c d : Consent) : Prop :=
  with_granted (pg_round (co_GrantedAt c)) c = with_granted (pg_round (co_GrantedAt d)) d.
Definition coherent `{Postgres} (v : string → option rentry) (t : Tables) : Prop :=
  ∀ acc cid d c, no_bar acc = true → str_of (v (buildConsentKey acc cid)) = Ok (Some d) → d ≠ consentTombstone →
    unmarshal_consent d = Some c → ∃ c', grant t acc cid c' ∧ agrees c c'.

Section properties.
Context {R : Type} `{RedisServer R} `{Postgres}.
Implicit Types (w : World R) (a : App R).

Lemma coherent_incl v v' t : coherent v t →
  (∀ k d, str_of (v' k) = Ok (Some d) → str_of (v k) = Ok (Some d)) → coherent v' t.
Proof. intros Hc Hv acc cid d c Hb Hd. apply Hc; auto. Qed.
(** Writing an entry and changing what is granted for its pair only. *)
Lemma coherent_put v v' t t' acc cid o : coherent v t → no_bar acc = true →
  (∀ k, v' k = if decide (k = buildConsentKey acc cid) then o else v k) →
  (∀ d c, str_of o = Ok (Some d) → d ≠ consentTombstone → unmarshal_consent d = Some c → ∃ c', grant t' acc cid c' ∧ agrees c c') →
  (∀ acc' cid' c, (acc', cid') ≠ (acc, cid) → grant t acc' cid' c → grant t' acc' cid' c) → coherent v' t'.
Proof.
  intros Hcoh Hbar Hv Ho Ht acc' cid' d c Hb Hd Htomb Hu. rewrite Hv in Hd.
  destruct (decide _) as [Heq|Hne].
  - apply consent_key_inj in Heq as [-> ->]; [|done..]. eauto.
  - destruct (Hcoh acc' cid' d c Hb Hd Htomb Hu) as (c'&Hg&Ha). exists c'. split; [|done]. apply Ht; [|done].
    by intros [= -> ->].
Qed.

(** Between operations: both stores answer and nobody else is at work. *)
Definition calm a : Prop :=
  w_net (ap_world a) = [] ∧ db_base (ap_db a) = db_tables (ap_db a) ∧ db_fates (ap_db a) = [] ∧ db_others (ap_db a) = []
  ∧ Forall (λ i, utf8_valid i = true) (db_ids (ap_db a)).
Definition consistent a : Prop :=
  calm a ∧ consents_ok (db_tables (ap_db a)) ∧ coherent (view (ap_world a)) (db_tables (ap_db a)).

Lemma wp_in_world {A} (m : M (World R) A) (Q : res A → App R → Prop) w d :
  wp m (λ r w', Q r (mkApp w' d)) w → wp (in_world m) Q (mkApp w d).
Proof. unfold wp, in_world. cbn. by destruct (m w). Qed.
Lemma wp_Set key v px (Q : res unit → World R → Prop) w : w_net w = [] → 0 < px →
  (∀ w', w_net w' = [] → w_now w' = w_now w →
     (∀ k, view w' k = if decide (k = key) then Some (Entry (RStr v) (Some (now_ms w + r_px px))) else view w k) → Q (Ok tt) w') →
  wp (Set_ key v px) Q w.
Proof.
  intros Hn Hpx HQ. unfold Set_. rewrite (proj2 (Z.ltb_lt 0 px)) by done. apply wp_wrap, wp_redis_call_up; [done|].
  pose proof (r_px_pos px Hpx). apply wp_s_set; [done|]. intros st' Hu. apply HQ; [done..|]. exact Hu.
Qed.

Lemma wp_find_consent acc cid (Q : res Consent → App R → Prop) w t ids : consents_ok t →
  (∀ c, grant t acc cid c → Q (Ok c) (mkApp w (mkDB t t ids [] []))) →
  ((∀ c, ¬ grant t acc cid c) → Q (Err (Wrap acc ErrConsentNotFound)) (mkApp w (mkDB t t ids [] []))) →
  wp (findConsentByAccountAndClient acc cid) Q (mkApp w (mkDB t t ids [] [])).
Proof.
  intros Hok Hsome Hnone. unfold findConsentByAccountAndClient. wp_steps. apply wp_stmt_alone. cbn [fst snd wrap_res].
  destruct (head _) as [c|] eqn:Hh; wp_step.
  - apply Hsome, granted_elem, head_elem, Hh. done.
  - apply Hnone. intros c Hc%granted_elem; [|done]. by apply (head_none _ Hh) in Hc.
Qed.

Lemma agrees_refl c : agrees c c.
Proof. done. Qed.

(** What a lookup answers, given what is granted. *)
Definition answers (t : Tables) (acc cid : string) (r : res Consent) : Prop :=
  (∃ c c', r = Ok c ∧ grant t acc cid c' ∧ agrees c c') ∨ (r = Err ErrConsentNotFound ∧ ∀ c, ¬ grant t acc cid c).

Lemma get_consent_spec acc cid a : consistent a → no_bar acc = true →
  wp (GetConsent acc cid) (λ r a', consistent a' ∧ db_tables (ap_db a') = db_tables (ap_db a) ∧
    answers (db_tables (ap_db a)) acc cid r) a.
Proof.
  destruct a as [w [b t ids fates others]]. intros ((Hn&Hb&Hf&Ho&Hids)&Hok&Hcoh) Hbar. cbn in Hn, Hb, Hf, Ho, Hids, Hok, Hcoh. subst.
  unfold GetConsent, cached_consent. set (key := buildConsentKey acc cid). wp_steps. apply wp_in_world.
  apply wp_Get; [done|]. intros st' Hs. set (w1 := put_redis st' w).
  assert (∀ k, view w1 k = view w k) as Hv by exact Hs.
  assert (coherent (view w1) t) as Hcoh1 by (apply (coherent_incl (view w)); [done|]; intros k d; by rewrite Hv).
  assert (w_net w1 = []) as Hn1 by done. clearbody w1.
  assert (∀ r, answers t acc cid r → consistent (mkApp w1 (mkDB t t ids [] [])) ∧ db_tables (mkDB t t ids [] []) = t ∧ answers t acc cid r)
    as Hdone by (intros r Hr; split; [split; [by unfold calm|by split]|by split]).
  assert (wp (let! c := consent_from_db acc cid in cache_write_back key c ;; ret c)
    (λ r a', consistent a' ∧ db_tables (ap_db a') = t ∧ answers t acc cid r) (mkApp w1 (mkDB t t ids [] []))) as Hmiss.
  { unfold consent_from_db. wp_steps. apply wp_find_consent; [done| |].
    2: { intros Hno. cbn beta iota. change (errors_is (Wrap acc ErrConsentNotFound) ErrConsentNotFound) with true.
         cbn beta iota. apply wp_fail, Hdone. by right. }
    intros c Hc. cbn beta iota. wp_steps. unfold cache_write_back. destruct (marshal_consent c) as [d|] eqn:Hm.
    2: { wp_steps. apply Hdone. left. by exists c, c. }
    wp_steps. apply wp_in_world, wp_Set; [done|done|]. intros w2 Hn2 _ Hv2. wp_step.
    split; [|split; [done|left; by exists c, c]]. split; [by unfold calm|]. split; [done|].
    apply (coherent_put (view w1) (view w2) t t acc cid _ Hcoh1 Hbar Hv2); [|done].
    cbn. intros ? c2 [= <-] _ Hu. exists c. split; [done|].
    rewrite (unmarshal_marshal_consent c d) in Hu; [by simplify_eq| |done]. eapply ck_utf8; eauto. }
  destruct (str_of (view w key)) as [[d|]|e] eqn:Hd; cbn [fst snd]; wp_step; [|exact Hmiss..].
  case_bool_decide as Htomb; [exact Hmiss|]. destruct (unmarshal_consent d) as [c|] eqn:Hu; [|exact Hmiss].
  wp_step. apply Hdone. left. destruct (Hcoh acc cid d c Hbar Hd Htomb Hu) as (c'&Hg&Ha). by exists c, c'.
Qed.

Lemma upsert_spec now c t ids row t' ids' : consents_ok t → consent_wf c = true → Forall (λ i, utf8_valid i = true) ids →
  upsert_consent now c t ids = (Ok row, t', ids') →
  ∃ cl, oc_ClientID cl = co_ClientID c ∧ consents_ok t' ∧ grant t' (co_AccountID c) (co_ClientID c) (join row cl) ∧
    (∀ acc cid g, (acc, cid) ≠ (co_AccountID c, co_ClientID c) → grant t acc cid g → grant t' acc cid g) ∧
    row = mkConsent (co_ID row) (co_AccountID c) (oc_ID cl) (co_Scopes c) (pg_round (co_GrantedAt c)) (co_CreatedAt row) (co_UpdatedAt row) None ∧
    utf8_valid (co_ID row) = true ∧ Forall (λ i, utf8_valid i = true) ids'.
Proof.
  intros Hok Hwf Hids. unfold upsert_consent. destruct (client_row t (co_ClientID c)) as [cl|] eqn:Hcl; [|done].
  apply select_one_some in Hcl as (i&Hi&[Hcid%bool_decide_eq_true _]%andb_true_iff).
  pose proof (ck_client _ Hok _ _ Hi) as <-.
  unfold consent_wf in Hwf. cbn [forallb] in Hwf. rewrite !andb_true_iff in Hwf. destruct Hwf as ((Hid&Hacc&Hcl8&_)&Hsc).
  assert (∀ row, t_consents t !! co_ID row = None ∨ (∃ old, t_consents t !! co_ID row = Some old ∧ live_consent old = true ∧
      co_AccountID old = co_AccountID row ∧ co_ClientID old = co_ClientID row) →
    row = mkConsent (co_ID row) (co_AccountID c) (oc_ID cl) (co_Scopes c) (pg_round (co_GrantedAt c)) (co_CreatedAt row) (co_UpdatedAt row) None →
    (∀ k c', t_consents t !! k = Some c' → live_consent c' = true → co_AccountID c' = co_AccountID c → co_ClientID c' = oc_ID cl → k = co_ID row) →
    utf8_valid (co_ID row) = true →
    consents_ok (put_consent row t) ∧ grant (put_consent row t) (co_AccountID c) (co_ClientID c) (join row cl) ∧
    (∀ acc cid g, (acc, cid) ≠ (co_AccountID c, co_ClientID c) → grant t acc cid g → grant (put_consent row t) acc cid g)) as Hput.
  { intros r Hold Hr Honly Hid8.
    destruct (put_consent_ok t r cl) as (Hok'&_&Hfwd); [done|by rewrite Hr| |by rewrite Hr| |].
    - unfold consent_wf, join. rewrite Hr. cbn [co_ID co_AccountID co_ClientID co_Scopes forallb]. rewrite Hid8, Hacc, Hcid, Hcl8, Hsc. done.
    - intros old Ho. destruct Hold as [Hn|(o&Ho'&_&?&?)]; [by rewrite Hn in Ho|]. rewrite Ho in Ho'. injection Ho' as ->. done.
    - split_and!; [done| |].
      + exists (co_ID r), r, cl. cbn. rewrite lookup_insert_eq, Hr. by split_and!.
      + intros acc cid g Hne. apply Hfwd. rewrite Hr. cbn. by rewrite Hcid. }
  destruct (select_one _ (t_consents t)) as [old|] eqn:Hsel.
  - apply select_one_some in Hsel as (k&Hk&[[Ha%bool_decide_eq_true Hc%bool_decide_eq_true]%andb_true_iff Hl]%andb_true_iff).
    pose proof (ck_keys _ Hok _ _ Hk) as <-. intros Heq. apply (f_equal (λ x, (x.1.1, x.1.2, x.2))) in Heq. injection Heq as <- <- <-.
    assert (utf8_valid (co_ID old) = true) as Hid8.
    { assert (consent_wf (join old cl) = true) as Hw
        by (apply (ck_utf8 _ Hok (co_AccountID old) (oc_ClientID cl)); exists (co_ID old), old, cl; by rewrite Hc).
      unfold consent_wf in Hw. cbn [forallb] in Hw. by apply andb_true_iff in Hw as [[? _]%andb_true_iff _]. }
    exists cl. split; [done|]. destruct (Hput (mkConsent (co_ID old) (co_AccountID old) (co_ClientID old) (co_Scopes c)
      (pg_round (co_GrantedAt c)) (co_CreatedAt old) (pg_round now) None)) as (?&?&?).
    + right. by exists old.
    + cbn. by rewrite Ha, Hc.
    + intros k c' Hc' Hl' Ha' Hcl'. cbn. eapply (ck_unique _ Hok); [exact Hc'|exact Hk|done|done|congruence|congruence].
    + exact Hid8.
    + split_and!; try done. cbn. by rewrite Ha, Hc.
  - destruct ids as [|id ids1]; [done|]. apply Forall_cons in Hids as [Hid8 Hids1].
    destruct (t_consents t !! id) eqn:Hfresh; [done|]. intros Heq.
    apply (f_equal (λ x, (x.1.1, x.1.2, x.2))) in Heq. injection Heq as <- <- <-. exists cl. split; [done|].
    destruct (Hput (mkConsent id (co_AccountID c) (oc_ID cl) (co_Scopes c) (pg_round (co_GrantedAt c)) (pg_round now) (pg_round now) None))
      as (?&?&?); [by left|done| |done|by split_and!].
    intros k c' Hc' Hl' Ha' Hcl'. pose proof (select_one_none _ _ _ _ Hsel Hc') as Hx.
    unfold same_consent in Hx. by rewrite !bool_decide_true, Hl' in Hx.
Qed.

Lemma upsert_ids now c t ids e t' ids' : Forall (λ i, utf8_valid i = true) ids →
  upsert_consent now c t ids = (Err e, t', ids') → Forall (λ i, utf8_valid i = true) ids'.
Proof.
  intros Hids. unfold upsert_consent. destruct (client_row _ _); [|by intros [= _ _ <-]].
  destruct (select_one _ _); [done|]. destruct ids as [|id ids1]; [by intros [= _ _ <-]|].
  apply Forall_cons in Hids as [_ ?]. destruct (t_consents t !! id); [by intros [= _ _ <-]|done].
Qed.
Lemma delete_spec now acc cid at_ t ids n t' ids' : consents_ok t →
  soft_delete_consent now acc cid at_ t ids = (Ok n, t', ids') → n ≠ 0 →
  ids' = ids ∧ consents_ok t' ∧ (∀ c, ¬ grant t' acc cid c) ∧
  (∀ acc' cid' g, (acc', cid') ≠ (acc, cid) → grant t acc' cid' g → grant t' acc' cid' g).
Proof.
  intros Hok. unfold soft_delete_consent. destruct (client_row t cid) as [cl|] eqn:Hcl; cbn; [|by intros [= <- <- <-]].
  destruct (select_one _ _) as [row|] eqn:Hsel; [|by intros [= <- <- <-]]. intros [= <- <- <-] _.
  apply select_one_some in Hcl as (i&Hi&[Hcid%bool_decide_eq_true _]%andb_true_iff).
  pose proof (ck_client _ Hok _ _ Hi) as <-.
  apply select_one_some in Hsel as (k&Hk&[[Ha%bool_decide_eq_true Hc%bool_decide_eq_true]%andb_true_iff Hl]%andb_true_iff).
  pose proof (ck_keys _ Hok _ _ Hk) as <-. split; [done|]. set (row' := mkConsent _ _ _ _ _ _ _ _).
  assert (grant t acc cid (join row cl)) as Hg by (exists (co_ID row), row, cl; by rewrite Hc).
  destruct (put_consent_ok t row' cl) as (Hok'&Hback&Hfwd).
  - done.
  - cbn. by rewrite Hc.
  - pose proof (ck_utf8 _ Hok _ _ _ Hg) as Hw. exact Hw.
  - intros j c Hj Hlj Haj Hcj. eapply (ck_unique _ Hok); [exact Hj|exact Hk|done..].
  - intros old Ho. cbn in Ho. rewrite Hk in Ho. injection Ho as <-. done.
  - cbn in Hback, Hfwd. split_and!; [done| |].
    + intros g Hg'. destruct (Hback _ _ _ Hg') as [Hgt|(Hlive&_)]; [|done].
      destruct Hg' as (j&r&cl'&Hj&Haj&Hlj&Hcj&Hcidj&_). cbn in Hj, Hcj. apply lookup_insert_Some in Hj as [[_ <-]|[Hne Hj]]; [done|].
      apply Hne. eapply (ck_unique _ Hok); [exact Hk|exact Hj|done|done|congruence|].
      rewrite Hc. eapply (ck_ids _ Hok); [exact Hi|exact Hcj|congruence].
    + intros acc' cid' g Hne. apply Hfwd. by rewrite Ha, Hcid.
Qed.

(** ** The operations keep cache and database consistent *)
Lemma save_consent_spec c a : consistent a → no_bar (co_AccountID c) = true → consent_wf c = true → co_DeletedAt c = None →
  wp (SaveConsent (Some c)) (λ r a', (∀ c', r = Ok c' → is_ok (marshal_consent c') = true) → consistent a') a.
Proof.
  destruct a as [w [b t ids fates others]]. intros ((Hn&Hb&Hf&Ho&Hids)&Hok&Hcoh) Hbar Hwf Hdel.
  cbn in Hn, Hb, Hf, Ho, Hids, Hok, Hcoh. subst.
  unfold SaveConsent, app_now. wp_step. apply wp_guard_err; [intros _ _; split; [by unfold calm|by split]|intros _].
  wp_step. apply wp_gets. wp_steps. apply wp_tx. unfold ConsentRepo_Upsert, app_now. wp_step. apply wp_gets. wp_steps.
  apply wp_stmt_alone. cbn [ap_world]. set (c1 := with_granted (w_now w) c).
  destruct (upsert_consent (w_now w) c1 t ids) as [[[row|e] t'] ids'] eqn:Hup; cbn [fst snd wrap_res].
  2: { split; [done|]. intros _. apply upsert_ids in Hup; [|exact Hids]. by split; [unfold calm|]. }
  destruct (upsert_spec _ c1 _ _ _ _ _ Hok Hwf Hids Hup) as (cl&Hcid&Hok'&Hg&Hoth&Hrow&Hid8&Hids').
  wp_step. split; [done|]. cbn [ap_db db_tables db_ids db_others put_db].
  set (c2 := mkConsent (co_ID row) (co_AccountID c1) (co_ClientID c1) (co_Scopes c1) (co_GrantedAt c1) (co_CreatedAt row)
    (co_UpdatedAt row) (co_DeletedAt c1)).
  cbn [wrap_res]. destruct (marshal_consent c2) as [data|] eqn:Hm; [|wp_step; intros Hx; specialize (Hx c2 eq_refl); by rewrite Hm in Hx].
  wp_steps. apply wp_in_world, wp_Set; [done|done|]. intros w2 Hn2 _ Hv2. wp_steps. intros _.
  split; [by unfold calm|]. split; [done|]. cbn [ap_world ap_db db_tables].
  apply (coherent_put (view w) (view w2) t t' (co_AccountID c) (co_ClientID c) _ Hcoh Hbar Hv2); [|exact Hoth].
  intros d c' Hd _ Hu. cbn [str_of] in Hd. injection Hd as <-. exists (join row cl). split; [exact Hg|].
  rewrite (unmarshal_marshal_consent c2 data) in Hu; [injection Hu as <-| |done].
  - unfold agrees, with_granted, join, c2. rewrite Hrow. cbn. by rewrite pg_round_idem, Hcid, Hdel.
  - unfold consent_wf in *. cbn [forallb c2 co_ID co_AccountID co_ClientID co_Scopes c1 with_granted] in *.
    rewrite !andb_true_iff in *. by destruct Hwf as ((_&?&?&_)&?).
Qed.

Lemma delete_consent_spec acc cid a : consistent a → no_bar acc = true →
  wp (DeleteConsent acc cid) (λ r a', consistent a' ∧
    (r = Ok tt → ∀ c, ¬ grant (db_tables (ap_db a')) acc cid c)) a.
Proof.
  destruct a as [w [b t ids fates others]]. intros ((Hn&Hb&Hf&Ho&Hids)&Hok&Hcoh) Hbar.
  cbn in Hn, Hb, Hf, Ho, Hids, Hok, Hcoh. subst.
  unfold DeleteConsent, delete_in_tx, app_now. wp_steps. apply wp_tx. wp_step. apply wp_gets.
  unfold ConsentRepo_SoftDelete, app_now. wp_step. apply wp_gets. wp_steps. apply wp_stmt_alone. cbn [ap_world].
  destruct (soft_delete_consent _ _ _ _ t ids) as [[[n|e] t'] ids'] eqn:Hsd; cbn [fst snd wrap_res].
  2: { unfold soft_delete_consent in Hsd. by destruct (_ ← _; _). }
  apply wp_guard_err; intros Hz; (split; [done|]); cbn [ap_db db_base db_tables db_ids db_others put_db].
  { split; [|done]. split; [|split; [exact Hok|exact Hcoh]]. unfold calm. cbn. split_and!; try done.
    unfold soft_delete_consent in Hsd. by destruct (_ ← _; _); simplify_eq. }
  apply Z.eqb_neq in Hz. destruct (delete_spec _ _ _ _ _ _ _ _ _ Hok Hsd Hz) as (->&Hok'&Hno&Hoth).
  cbn [wrap_res]. unfold Del. wp_steps. apply wp_in_world, wp_wrap, wp_redis_call_up; [done|]. cbn [for_each].
  wp_step. apply wp_s_del. intros st' Hu. wp_steps. split; [|by intros _].
  split; [by unfold calm|]. split; [exact Hok'|]. cbn [ap_world ap_db db_tables].
  refine (coherent_put (view w) _ t t' acc cid None Hcoh Hbar Hu _ Hoth). by intros ? ? [=].
Qed.

(** ** Histories with stores that answer *)
Inductive consent_step : relation (App R) :=
  | ct_get acc cid a r a' : no_bar acc = true → GetConsent acc cid a = (r, a') → consent_step a a'
  | ct_save c a r a' : no_bar (co_AccountID c) = true → consent_wf c = true → co_DeletedAt c = None →
      SaveConsent (Some c) a = (r, a') → (∀ c', r = Ok c' → is_ok (marshal_consent c') = true) → consent_step a a'
  | ct_delete acc cid a r a' : no_bar acc = true → DeleteConsent acc cid a = (r, a') → consent_step a a'
  | ct_wait w d δ : 0 <= δ → consent_step (mkApp w d) (mkApp (tick δ w) d).

Lemma str_of_live n o d : str_of (live n o) = Ok (Some d) → str_of o = Ok (Some d).
Proof. unfold live. destruct o as [e|]; [|done]. by destruct (alive n e). Qed.
Lemma consent_step_consistent a a' : consent_step a a' → consistent a → consistent a'.
Proof.
  intros Hs Ha. destruct Hs as [acc cid a r a' Hb Heq|c a r a' Hb Hwf Hd Heq Hm|acc cid a r a' Hb Heq|w d δ Hδ].
  - by destruct (wp_intro _ _ _ _ _ Heq (get_consent_spec acc cid a Ha Hb)).
  - by apply (wp_intro _ _ _ _ _ Heq (save_consent_spec c a Ha Hb Hwf Hd)).
  - by destruct (wp_intro _ _ _ _ _ Heq (delete_consent_spec acc cid a Ha Hb)).
  - destruct Ha as (Hcalm&Hok&Hcoh). split; [exact Hcalm|]. split; [exact Hok|].
    apply (coherent_incl (view w)); [exact Hcoh|]. intros k s. cbn [ap_world]. rewrite view_tick by done. apply str_of_live.
Qed.
Lemma consent_reachable a a' : consistent a → rtc consent_step a a' → consistent a'.
Proof. intros Ha Hs. induction Hs as [|a1 a2 a3 H1 _ IH]; [done|]. by apply IH, (consent_step_consistent a1). Qed.

(** C30: the cache of consents is transparent. After any sequence of lookups, saves,
    withdrawals and waiting in which both stores answer, a lookup finds a consent exactly
    when the database has a live row for the account and the client, and it is that row
    up to the rounding of the time of the grant: entries of the cache are never ahead of
    or behind the database. *)
Theorem consent_cache_transparent acc cid a a' :
  consistent a → rtc consent_step a a' → no_bar acc = true →
  ∃ r a'', GetConsent acc cid a' = (r, a'') ∧ answers (db_tables (ap_db a')) acc cid r.
Proof.
  intros Ha Hs Hbar. pose proof (consent_reachable _ _ Ha Hs) as Ha'.
  destruct (wp_eq _ _ _ (get_consent_spec acc cid a' Ha' Hbar)) as (r&a''&Heq&_&_&Hans). eauto.
Qed.

(** A withdrawn consent is not used again. When a withdrawal succeeded in such a
    history, the next lookup of this account and client, at any later time, answers that
    there is no consent. *)
Theorem withdrawn_consent_is_refused acc cid a a1 w2 d2 δ :
  consistent a → rtc consent_step a a1 → no_bar acc = true →
  DeleteConsent acc cid a1 = (Ok tt, mkApp w2 d2) → 0 <= δ →
  (GetConsent acc cid (mkApp (tick δ w2) d2)).1 = Err ErrConsentNotFound.
Proof.
  intros Ha Hs Hbar Heq Hδ. pose proof (consent_reachable _ _ Ha Hs) as Ha1.
  destruct (wp_intro _ _ _ _ _ Heq (delete_consent_spec acc cid a1 Ha1 Hbar)) as [Ha2 Hno].
  pose proof (consent_step_consistent _ _ (ct_wait w2 d2 δ Hδ) Ha2) as Ha3.
  destruct (wp_eq _ _ _ (get_consent_spec acc cid _ Ha3 Hbar)) as (r&a''&->&_&_&Hans).
  destruct Hans as [(c&c'&->&Hg&_)|[-> _]]; [|done]. by destruct (Hno eq_refl c').
Qed.
End properties.
