(* ===== verification/ClientExamples.v ===== *)
(** * Witnesses and deviations: codes, clients and consents *)
From S2P Require Import Prelude GoTime Json LuaPattern Hash Url Redis World Cache TokenDomain TokenService TokenSpecs TokenProps OAuthDomain AuthCode DeviceCode DeviceProps DeviceFlow GoStrings Database ClientRepo ClientService ClientProps ClientController ConsentService ConsentProps.
Local Open Scope Z_scope.

(** ** Sample runs of the authorization code and device code services, and deviations *)
Module CodeSample.
Definition start : World MemRedis :=
  mkWorld ∅ (1750000000 * second) []
    [[1; 2; 3]; [4]; [5]; [6]; [7]; [8]; [9]; [10]; [11]; [12; 13]; [4]; [5]; [6]; [7]; [8]; [9]; [10]; [12]]%N [] [].
Definition expiry : Z := 10 * minute.
Definition uri : string := "https://app.example/cb".
(** The verifier and challenge of RFC 7636, appendix B. *)
Definition verifier : string := "dBjftJeZ4CVP-mB92K27uhbUJU1p1r_wW1gFWFOEjXk".
Definition challenge : string := "E9Melhoa2OwvFrEMTJguCHaoeK1t8URWbuGJSstw-cM".
Definition issue : M (World MemRedis) AuthorizationCode :=
  GenerateCode expiry "web" "acc-1" uri ["openid"; "profile"] challenge "S256" "n-0S6" "sess-1".
Definition issued : World MemRedis := (issue start).2.
Definition code : string := hex_encode (rand_block authCodeLength [1; 2; 3]%N).
Definition granted : AuthorizationCode :=
  mkAuthCode code "web" "acc-1" "sess-1" uri ["openid"; "profile"] challenge "S256" "n-0S6"
    (1750000600 * second) (1750000000 * second) [].
Definition exchange : M (World MemRedis) AuthorizationCode := ValidateCode code "web" uri (Some verifier).

Definition dcfg : DeviceCfg := mkDeviceCfg (10 * minute) (5 * second).
Definition device_issue (scopes : list string) : M (World MemRedis) DeviceCode := CreateDeviceCode dcfg "tv" scopes.
Definition device_issued : World MemRedis := (device_issue ["openid"] start).2.
Definition device_secret : string := hex_encode (rand_block deviceCodeLength [1; 2; 3]%N).
Abbreviation device_hash := (HashToken device_secret).
Definition approved : World MemRedis := (AuthorizeDeviceCodeByHash device_hash "acc-1" device_issued).2.
Definition claimed : World MemRedis := (ClaimAuthorizedDeviceCode device_secret "tv" approved).2.
End CodeSample.

Module CodeWitnesses.
Import CodeSample.
#[local] Instance full_lua : LuaOS := { has_os_date := true }.

Lemma auth_code_single_use_witness : view (exchange issued).2 (authCodeKey code) = None.
Proof.
  destruct (auth_code_single_use code "web" uri (Some verifier) issued (exchange issued).1 (exchange issued).2)
    as [Hv _]; [by destruct (exchange issued) eqn:He; cbn; rewrite <-He|vm_compute; discriminate|exact Hv].
Defined.

Lemma auth_code_validation_sound_witness :
  ∃ ac, exchange issued = (Ok ac, (exchange issued).2) ∧ ac_ClientID ac = "web".
Proof.
  eexists. split; [apply run_ok; vm_compute; reflexivity|].
  eapply (auth_code_validation_sound code "web" uri (Some verifier) issued _ (exchange issued).2).
  apply run_ok. vm_compute. reflexivity.
Defined.

Lemma auth_code_round_trip_witness :
  ∃ w'', ValidateCode code "web" uri (Some verifier) (tick minute issued) =
    (Ok (mkAuthCode "" "web" "acc-1" "sess-1" uri ["openid"; "profile"] challenge "S256" "n-0S6"
           (1750000600 * second) (1750000000 * second) []), w'').
Proof.
  destruct (auth_code_round_trip expiry "web" "acc-1" uri ["openid"; "profile"] challenge "S256" "n-0S6" "sess-1"
    (Some verifier) start granted issued minute) as [Hval _].
  - done.
  - done.
  - done.
  - vm_compute. reflexivity.
  - unfold issued. apply run_ok. vm_compute. reflexivity.
  - done.
  - apply Hval; [vm_compute; discriminate|]. right. exists verifier. split; [done|]. vm_compute. reflexivity.
Defined.

(** ** Device codes *)
Definition device_user : string := dashed "EFGHJKLM".
Definition device_doc : list (string * json) :=
  device_members (mkDevice "" device_user "tv" "" ["openid"] "pending" 0 0 0 5 0 "")
    "2025-06-15T15:16:40Z" "0001-01-01T00:00:00Z" "0001-01-01T00:00:00Z" "2025-06-15T15:06:40Z".
Lemma issued_pending : in_state (view device_issued (deviceCodeKey device_hash)) (Pending "tv").
Proof.
  assert (view device_issued (deviceCodeKey device_hash) =
          Some (Entry (RStr (jobj device_doc)) (Some 1750000600000))) as -> by (vm_compute; reflexivity).
  exists device_doc. split_and!; [done|split; vm_compute; reflexivity|vm_compute; reflexivity].
Qed.
Lemma approved_reached : rtc (device_step dcfg device_secret) device_issued approved.
Proof. apply rtc_once. apply (ds_authorize dcfg device_secret device_issued device_hash "acc-1"). vm_compute. reflexivity. Qed.

Definition claim : res DeviceCode := (ClaimAuthorizedDeviceCode device_secret "tv" approved).1.
Definition claimed_device : DeviceCode :=
  mkDevice "" device_user "tv" "acc-1" ["openid"] "used" (1750000600 * second) (1750000000 * second) zero_time 5
    (1750000000 * second) "".
Lemma claim_eq : ClaimAuthorizedDeviceCode device_secret "tv" approved = (Ok claimed_device, claimed).
Proof. unfold claimed. apply run_ok. vm_compute. reflexivity. Qed.

Lemma device_state_machine_witness :
  ∃ s, in_state (view approved (deviceCodeKey device_hash)) s ∧ rtc dmove (Pending "tv") s.
Proof.
  apply (device_state_machine dcfg device_secret device_issued approved (Pending "tv"));
    [apply issued_pending|apply approved_reached].
Defined.
Lemma device_claim_sound_witness : in_state (view claimed (deviceCodeKey device_hash)) (Used "tv" "acc-1").
Proof.
  destruct (device_claim_sound dcfg device_secret "tv" device_issued approved "tv" claimed_device claimed)
    as (_&_&_&_&Hused); [apply issued_pending|apply approved_reached|apply claim_eq|exact Hused].
Defined.
Lemma device_code_single_use_witness :
  is_ok (ClaimAuthorizedDeviceCode device_secret "tv" (put_net [] (tick minute claimed))).1 = false.
Proof.
  assert (in_state (view approved (deviceCodeKey device_hash)) (Authorized "tv" "acc-1")) as Hin by
    exact (proj1 (proj2 (proj2 (proj2 (device_claim_sound dcfg device_secret "tv" device_issued approved "tv"
      claimed_device claimed issued_pending approved_reached claim_eq))))).
  apply (device_code_single_use dcfg device_secret (Authorized "tv" "acc-1") "tv" approved claimed_device claimed);
    [exact Hin|apply claim_eq|].
  apply rtc_once. apply (ds_wait dcfg device_secret claimed [] minute). vm_compute. discriminate.
Defined.
Lemma device_flow_witness :
  ∃ w2 w3 w4, GetDeviceCodeByUserCode device_user (tick minute device_issued) =
      (Ok (mkDevice "" device_user "tv" "" ["openid"] "pending" (1750000600 * second) zero_time zero_time 5
             (1750000000 * second) device_hash), w2) ∧
    AuthorizeDeviceCodeByHash device_hash "acc-1" w2 = (Ok tt, w3) ∧
    ClaimAuthorizedDeviceCode device_secret "tv" (tick minute w3) =
      (Ok (mkDevice "" device_user "tv" "acc-1" ["openid"] "used" (1750000600 * second) (1750000060 * second)
             zero_time 5 (1750000000 * second) ""), w4).
Proof.
  apply (device_flow dcfg "tv" ["openid"] "acc-1" start
    (mkDevice device_secret device_user "tv" "" ["openid"] "pending" (1750000600 * second) zero_time zero_time 5
       (1750000000 * second) "") device_issued minute minute).
  - vm_compute. discriminate.
  - done.
  - done.
  - vm_compute. reflexivity.
  - unfold device_issued. apply run_ok. vm_compute. reflexivity.
  - done.
  - done.
  - vm_compute. reflexivity.
  - vm_compute. split; discriminate.
Defined.
Definition polled_once : World MemRedis := (CheckAndUpdatePollRate dcfg device_secret device_issued).2.
Lemma poll_rate_enforced_witness :
  is_ok (CheckAndUpdatePollRate dcfg device_secret (put_net [] (tick (4 * second) polled_once))).1 = false.
Proof.
  apply (poll_rate_enforced dcfg device_secret device_issued polled_once).
  - vm_compute. split; reflexivity.
  - unfold polled_once. apply run_ok. vm_compute. reflexivity.
  - done.
  - vm_compute. reflexivity.
Defined.
End CodeWitnesses.

Module CodeDeviations.
Import CodeSample CodeWitnesses.

(** When Redis cannot be reached, the exchange of a valid authorization code is
    answered with the error for an unknown code; the test for a missing result precedes
    the test for an error, so the branch that reports the failure is never taken. *)
Theorem outage_reported_as_unknown_code {R} `{RedisServer R} code client uri verifier net (w : World R) :
  ValidateCode code client uri verifier (put_net (Refused :: net) w) = (Err ErrCodeNotFound, put_net net w).
Proof. done. Qed.

(** The device flow of a client that has no scopes and asks for none. *)
Definition bare_issued : World MemRedis := (device_issue [] start).2.
Definition bare_approve : res unit * World MemRedis := AuthorizeDeviceCodeByHash device_hash "acc-1" bare_issued.
Definition bare_claim : res DeviceCode * World MemRedis := ClaimAuthorizedDeviceCode device_secret "tv" bare_approve.2.
(** A device code without scopes is lost. The user's approval succeeds; the scripts
    turn the empty list into an empty object, which Go refuses to read, so the claim
    fails after it has marked the code as used, and no later claim succeeds. *)
Example device_without_scopes_is_lost :
  bare_approve.1 = Ok tt ∧
  bare_claim.1 = Err (Wrap "unmarshal device code" (Anon "json")) ∧
  (ClaimAuthorizedDeviceCode device_secret "tv" bare_claim.2).1 = Err ErrDeviceCodeNotFound.
Proof. vm_compute. repeat split. Qed.

(** The Lua of a Redis server. *)
Definition redis_lua : LuaOS := {| has_os_date := false |}.
(** On a server without [os.date] no poll is ever allowed: the script fails after it
    has recorded the poll, and the failure is reported as an unknown code. The same run
    is allowed by an interpreter that has it. *)
Example poll_fails_without_os_date :
  (CheckAndUpdatePollRate (H0 := redis_lua) dcfg device_secret device_issued).1 = Err ErrDeviceCodeNotFound ∧
  (CheckAndUpdatePollRate (H0 := full_lua) dcfg device_secret device_issued).1 = Ok tt.
Proof. vm_compute. repeat split. Qed.
End CodeDeviations.

(** ** Sample runs of the client and consent services, and deviations *)
Lemma micro_idem t : t / 1000 * 1000 / 1000 * 1000 = t / 1000 * 1000.
Proof. by rewrite Z.div_mul. Qed.
#[export] Instance micro_postgres : Postgres := { pg_round t := t / 1000 * 1000; pg_round_idem := micro_idem; pg_le := String.leb }.
(** A hash that keeps the password. *)
#[export, refine] Instance plain_bcrypt : Bcrypt := {
  bcrypt_hash salt pw := if 72 <? slen pw then Err (Anon "bcrypt: password length exceeds 72 bytes") else Ok ("$2a$10$" +:+ pw);
  bcrypt_compare h pw := bool_decide (h = "$2a$10$" +:+ pw);
}.
Proof.
  - intros _ pw h. destruct (72 <? slen pw); [done|]. intros [= <-]. by apply bool_decide_true.
  - intros _ pw Hpw. by rewrite (proj2 (Z.ltb_ge _ _)).
Defined.
#[export, refine] Instance dashed_uuid : UUIDLib := { uuid_parse s := bool_decide (slen s = 36) }.
Proof. intros s Hs%bool_decide_eq_true. rewrite Hs. set_solver. Defined.

Module ClientSample.
Definition world : World MemRedis :=
  mkWorld ∅ (1750000000 * second) [] [[1; 2; 3]; [4; 5; 6]; [7; 8; 9]]%N ["5f0c1c9e-9d0f-4f0e-8f5e-0d7c4f1f6b3a"] [].
Definition no_tables : Tables := mkTables ∅ ∅ (mkPeople ∅ ∅ ∅ ∅ []) ∅.
Definition app (t : Tables) (ids : list string) (others : list (Tables → Tables)) : App MemRedis :=
  mkApp world (mkDB t t ids [] others).
Definition start : App MemRedis := app no_tables ["row-1"] [].
Definition req : RegisterClientRequest :=
  mkRegister "acc-1" "Shop" "" ["https://shop.example/cb"; "http://localhost:8080/cb"] [] ["authorization_code"; "refresh_token"]
    ["openid"; "profile"] true None false.
Definition registered : App MemRedis := (RegisterClient req start).2.
Definition cid : string := hex_encode (rand_block 24 [1; 2; 3]%N).
Definition secret : string := hex_encode (rand_block 32 [4; 5; 6]%N).
Definition shop : OAuth2Client :=
  mkClient "row-1" "acc-1" cid ("$2a$10$" +:+ secret) "Shop" "" ["https://shop.example/cb"; "http://localhost:8080/cb"] []
    ["authorization_code"; "refresh_token"] ["openid"; "profile"] true None "" false "" false
    (1750000000 * second) (1750000000 * second) None.
Definition tables : Tables := db_tables (ap_db registered).
Definition rename (n : string) : UpdateClientRequest := mkUpdate (Some n) None None None None None false.
(** Another process renames the client a second later. *)
Definition renamed_elsewhere (t : Tables) : Tables :=
  put_client (updated_row (1750000001 * second) (with_changes shop (rename "Bazaar") (oc_Scopes shop) None) shop) t.
End ClientSample.

Module ClientWitnesses.
Import ClientSample.

Lemma registered_eq : RegisterClient req start = (Ok (shop, secret), registered).
Proof. unfold registered. apply run_ok. vm_compute. reflexivity. Qed.
Lemma start_inv : row_inv false (ap_db start).
Proof.
  assert (clients_ok false no_tables) as Hok by (constructor; cbn; intros *; by rewrite lookup_empty).
  split_and!; [exact Hok..|by constructor].
Qed.
Lemma registered_reached : rtc (client_step false) start registered.
Proof. apply rtc_once. eapply (cs_register false req); [done|apply registered_eq]. Qed.
Lemma shop_stored : t_clients (db_tables (ap_db registered)) !! "row-1" = Some shop.
Proof. vm_compute. reflexivity. Qed.
Lemma registered_inv : row_inv false (ap_db registered).
Proof. apply (client_step_inv false start); [|apply start_inv]. eapply (cs_register false req); [done|apply registered_eq]. Qed.
Lemma tables_ok : clients_ok false tables.
Proof. exact (proj1 (proj2 registered_inv)). Qed.

Lemma clients_stay_valid_witness :
  Forall (λ g, IsValidGrantType g = true) (oc_GrantTypes shop) ∧ (HasAdminCapability (Some shop) = true ↔ ∃ s, s ∈ oc_Scopes shop ∧ IsAdminScope s = true).
Proof.
  destruct (clients_stay_valid false start registered "row-1" shop start_inv registered_reached shop_stored)
    as (_&Hg&_&_&_&Hadm). split; [exact Hg|exact Hadm].
Defined.
Lemma client_checks_are_membership_witness :
  ValidateRedirectURI (Some shop) "https://shop.example/cb" = true ∧ ValidateScope (Some shop) ["profile"; "admin"] = ["profile"].
Proof.
  destruct (client_checks_are_membership false start registered "row-1" shop start_inv registered_reached shop_stored)
    as (Hr&_&Hs&_). rewrite Hr, Hs. split; reflexivity.
Defined.

(** Somebody else tries to delete the client. *)
Lemma client_changes_are_owned_witness :
  db_tables (ap_db (DeleteClient "acc-2" cid registered).2) = db_tables (ap_db registered).
Proof.
  destruct (client_changes_are_owned false "acc-2" cid (rename "Mine") registered) as [_ Hdel];
    [apply registered_inv|reflexivity|reflexivity|done|].
  apply (Hdel (DeleteClient "acc-2" cid registered).1 (DeleteClient "acc-2" cid registered).2);
    [by destruct (DeleteClient _ _ _)|vm_compute; reflexivity|constructor].
Defined.

Definition racing : res OAuth2Client * App MemRedis :=
  UpdateClientByAccountID "acc-1" cid (rename "Store") (app tables [] [λ t, t; renamed_elsewhere]).
(** The other process wins. *)
Lemma racing_fails : is_ok racing.1 = false.
Proof. vm_compute. reflexivity. Qed.
Lemma no_lost_update_witness :
  db_tables (ap_db racing.2) ∈ [tables; tables; renamed_elsewhere tables].
Proof.
  pose proof (no_lost_update "acc-1" cid (rename "Store") world tables [] (λ t, t) renamed_elsewhere racing.1 racing.2) as Hall.
  assert (is_ok racing.1 = false) as Hfail by exact racing_fails.
  specialize (Hall ltac:(unfold racing; by destruct (UpdateClientByAccountID _ _ _ _))).
  destruct racing as [[c|e] a']; [done|exact Hall].
Defined.

Lemma req_valid : valid_registration req.
Proof. constructor; try (vm_compute; reflexivity); try (vm_compute; discriminate). right. vm_compute. reflexivity. Qed.
Lemma registration_round_trip_witness :
  ∃ c s a', RegisterClient req start = (Ok (c, s), a') ∧ FindByClientID cid a' = (Ok c, a') ∧ AuthenticateClient c s = Ok tt.
Proof.
  destruct (registration_round_trip req world no_tables "row-1" [] [1; 2; 3]%N [4; 5; 6]%N [7; 8; 9]%N []
    "5f0c1c9e-9d0f-4f0e-8f5e-0d7c4f1f6b3a" [] req_valid eq_refl eq_refl eq_refl eq_refl) as (c&s&a'&Hreg&_&Hfind&_&_&_&Hauth&_).
  exists c, s, a'. split; [exact Hreg|]. split; [exact Hfind|exact Hauth].
Defined.
Lemma deleted_client_is_gone_witness :
  (FindByClientID cid (DeleteClient "acc-1" cid (app tables [] [])).2).1 = Err (Wrap cid ErrClientNotFound).
Proof.
  destruct (deleted_client_is_gone false "acc-1" cid shop world tables [] tables_ok) as (r&a'&Heq&Hown&_);
    [vm_compute; reflexivity|].
  unfold app. rewrite Heq. apply Hown. reflexivity.
Defined.

Definition owner : Caller := mkCaller (Some "acc-1") None.
(** The owner asks for the client that was just registered. *)
Lemma registered_clients_are_unreachable_witness :
  GetClient owner (oc_ClientID shop) registered = (Ok (Failure 400 "invalid client_id"), registered).
Proof.
  apply (registered_clients_are_unreachable req start shop secret registered owner None registered registered_eq).
Defined.
End ClientWitnesses.

(** ** Consents *)
Module ConsentSample.
Import ClientSample.
Definition grant_ : Consent := mkConsent "c-0" "acc-7" cid ["openid"] 0 0 0 None.
Definition ready : App MemRedis := app tables ["consent-1"] [].
Definition granted : App MemRedis := (SaveConsent (Some grant_) ready).2.
Definition look : M (App MemRedis) Consent := GetConsent "acc-7" cid.
Definition withdraw : M (App MemRedis) unit := DeleteConsent "acc-7" cid.
Definition withdrawn : App MemRedis := (withdraw granted).2.
(** Redis does not answer the next calls. *)
Definition redis_down (n : nat) (a : App MemRedis) : App MemRedis := mkApp (put_net (replicate n Refused) (ap_world a)) (ap_db a).
End ConsentSample.

Module ConsentWitnesses.
Import ClientSample ConsentSample.

Lemma ready_consistent : consistent ready.
Proof.
  assert (t_consents tables = ∅) as Hempty by (vm_compute; reflexivity).
  split; [by unfold calm; repeat split; repeat constructor|]. split.
  - constructor; cbn [ready app ap_db db_tables]; rewrite ?Hempty.
    + intros k c. by rewrite lookup_empty.
    + apply (ok_keys _ _ ClientWitnesses.tables_ok).
    + intros i j c c' Hi Hj _.
      assert (∀ k c, t_clients tables !! k = Some c → k = "row-1") as Hone; [|by rewrite (Hone _ _ Hi), (Hone _ _ Hj)].
      assert (t_clients tables = {["row-1" := shop]}) as -> by (vm_compute; reflexivity).
      intros k x [<- _]%lookup_singleton_Some. done.
    + intros i j c c'. by rewrite lookup_empty.
    + intros acc cid' c (k&row&cl&Hk&_). by rewrite Hempty, lookup_empty in Hk.
  - intros acc cid' d c _ Hd. unfold view in Hd. cbn in Hd. by rewrite lookup_empty in Hd.
Qed.
Lemma granted_reached : rtc consent_step ready granted.
Proof.
  apply rtc_once. eapply (ct_save grant_); [vm_compute; reflexivity..| |].
  - unfold granted. apply run_ok. vm_compute. reflexivity.
  - intros c' [= <-]. vm_compute. reflexivity.
Qed.
Lemma consent_cache_transparent_witness :
  ∃ r a'', look granted = (r, a'') ∧ answers (db_tables (ap_db granted)) "acc-7" cid r.
Proof. apply (consent_cache_transparent "acc-7" cid ready granted ready_consistent granted_reached eq_refl). Defined.
Lemma withdrawn_consent_is_refused_witness :
  (look (mkApp (tick minute (ap_world withdrawn)) (ap_db withdrawn))).1 = Err ErrConsentNotFound.
Proof.
  apply (withdrawn_consent_is_refused "acc-7" cid ready granted (ap_world withdrawn) (ap_db withdrawn) minute ready_consistent granted_reached eq_refl);
    [|vm_compute; discriminate].
  assert (withdraw granted = (Ok tt, withdrawn)) as Hw by (unfold withdrawn; apply run_ok; vm_compute; reflexivity).
  unfold withdraw in Hw. rewrite Hw. by destruct withdrawn.
Defined.
End ConsentWitnesses.

Module ClientDeviations.
Import ClientSample ConsentSample.
Definition key : string := buildConsentKey "acc-7" cid.
(** The entry of the cache is gone after its 90 days; the consent is not. *)
Definition cold : App MemRedis := mkApp (tick (91 * 24 * hour) (ap_world granted)) (ap_db granted).

(** A lookup that misses the cache and a withdrawal run at the same time. *)
Definition read : res Consent * App MemRedis := consent_from_db "acc-7" cid cold.
Definition raced : App MemRedis :=
  match read.1 with Ok c => (cache_write_back key c (withdraw read.2).2).2 | Err _ => read.2 end.

(** A withdrawn consent can come back. A lookup misses the cache and reads the row;
    before it fills the cache, the withdrawal removes row and entry and reports success;
    then the lookup writes what it had read. From then on the consent is found again,
    89 days later too, although the database has none. *)
Theorem withdrawn_consent_comes_back :
  (withdraw read.2).1 = Ok tt ∧ (consent_from_db "acc-7" cid raced).1 = Err ErrConsentNotFound ∧
  is_ok (look raced).1 = true ∧ is_ok (look (mkApp (tick (89 * 24 * hour) (ap_world raced)) (ap_db raced))).1 = true.
Proof. vm_compute. split_and!; reflexivity. Qed.

(** A withdrawal during an outage of Redis does not take effect. It reports success,
    but neither the removal of the cached consent nor the tombstone that should replace it
    got through: lookups go on finding the consent until its 90 days are over. *)
Theorem withdrawal_without_redis_is_ignored :
  let a := (withdraw (redis_down 2 granted)).2 in
  (withdraw (redis_down 2 granted)).1 = Ok tt ∧ (consent_from_db "acc-7" cid a).1 = Err ErrConsentNotFound ∧
  is_ok (look a).1 = true ∧ is_ok (look (mkApp (tick (89 * 24 * hour) (ap_world a)) (ap_db a))).1 = true.
Proof. vm_compute. split_and!; reflexivity. Qed.

(** The consent for a deleted client cannot be withdrawn. It is still listed and
    found, but the statement that removes it looks for a live client and finds none. *)
Theorem consent_for_deleted_client_stays :
  let a := (DeleteClient "acc-1" cid granted).2 in
  (DeleteClient "acc-1" cid granted).1 = Ok tt ∧
  (map co_ClientID <$> match (ListConsentsByAccountID "acc-7" a).1 with Ok l => Some l | Err _ => None end) = Some [cid] ∧
  is_ok (look a).1 = true ∧
  (withdraw a).1 = Err (Wrap "delete consent from DB" (Wrap "acc-7" ErrConsentNotFound)).
Proof. vm_compute. split_and!; reflexivity. Qed.

(** An update can leave a client without name and without grant types, which
    registration refuses. *)
Theorem update_empties_client :
  let req' := mkUpdate (Some "") None None None (Some []) None false in
  match (UpdateClientByAccountID "acc-1" cid req' registered).1 with
  | Ok c => oc_Name c = "" ∧ oc_GrantTypes c = []
  | Err _ => False
  end ∧
  NewOAuth2Client 0 "" "acc-1" "" cid ["authorization_code"] = Err ErrClientNameRequired ∧
  NewOAuth2Client 0 "" "acc-1" "Shop" cid [] = Err ErrClientGrantTypesRequired.
Proof. vm_compute. split_and!; reflexivity. Qed.

Fixpoint letters (n : nat) : string := match n with O => "" | S n => String "a" (letters n) end.
(** A name of 256 characters passes validation and is too long for the column. *)
Example long_name_fails :
  validateClientName (letters 256) false = Ok tt ∧
  (UpdateClientByAccountID "acc-1" cid (rename (letters 256)) registered).1 = Err (Wrap "update oauth2_client" ErrTooLong).
Proof. vm_compute. split; reflexivity. Qed.
End ClientDeviations.
