(* ===== verification/AuthMiddleware.v ===== *)
(** * [internal/auth/middleware]: who is behind a request

    The middleware joins the two services: the access token is checked by the token
    service and its session by the session service, in the state of the latter. A request
    arrives with its headers and cookies parsed; the context it leaves for the handlers is
    part of the answer. *)
From S2P Require Import Prelude GoTime Json Hash LuaPattern Redis World Cache TokenDomain Blacklist TokenService TokenSpecs TokenProps AccessProps Session SessionService SessionSpecs SessionProps ServiceFootprints Url GoStrings OAuthDomain.
Local Open Scope Z_scope.

Record Request : Type := mkRequest {
  rq_method : string;
  rq_path : string;
  rq_uri : string;
  rq_authorization : string;
  rq_cookies : list (string * string);
}.
Definition Cookie (rq : Request) (name : string) : option string :=
  snd <$> List.find (λ c, bool_decide (c.1 = name)) (rq_cookies rq).

Record AuthConfigOptions : Type := mkAuthCfg { ao_LoginURL : string; ao_EnableCookieAuth : bool; ao_AuthCookieName : string }.

Definition ErrTokenScopeNotAllowed : err := Sentinel "token scope not allowed".
Definition errUnauthorized : err := Sentinel "unauthorized".
Definition ScopeMFA : string := "mfa".

(** [strings.EqualFold] with a text of ASCII letters that no other letter folds to. *)
Definition EqualFold (s t : string) : bool := bool_decide (ToLower s = ToLower t).

Definition extractBearerTokenWithConfig (rq : Request) (enableCookieAuth : bool) (name : string) : string :=
  let from_cookie :=
    if enableCookieAuth && negb (bool_decide (name = "")) then
      match Cookie rq name with
      | Some c => c
      | None => if negb (has_prefix "__Secure-" name) && negb (has_prefix "__Host-" name)
                then default "" (Cookie rq ("__Secure-" +:+ name)) else ""
      end
    else "" in
  match (if bool_decide (rq_authorization rq = "") then None else cut " " (rq_authorization rq)) with
  | Some (scheme, rest) => if EqualFold scheme "Bearer" then rest else from_cookie
  | None => from_cookie
  end.

(** ** Roles, scopes, permissions *)
Definition hasPermission (permissions : list string) (required : string) : bool :=
  existsb (λ p, bool_decide (p = "admin:*") || bool_decide (p = required)) permissions.
Definition hasRole (roles : list string) (required : string) : bool := existsb (λ r, bool_decide (r = required)) roles.
Definition hasScope (scopeClaim required : string) : bool :=
  existsb (λ s, bool_decide (s = required)) (Fields scopeClaim).

(** What a middleware does with the request: hand it on with the account and claims, or
    answer it. *)
Inductive verdict : Type :=
  | Next (account : string) (claims : AccessTokenClaims)
  | Redirect (location : string)
  | Reject (status : Z) (msg : string).

Definition AdminRequired (claims : option AccessTokenClaims) : option verdict :=
  match claims with
  | None => Some (Reject 401 "missing authorization")
  | Some c =>
      if negb (hasScope (cl_Scope c) ScopeAdmin) then Some (Reject 403 "admin client scope required")
      else if negb (hasRole (cl_Roles c) "admin") then Some (Reject 403 "admin access required")
      else None
  end.
Definition RequirePermission (required : string) (claims : option AccessTokenClaims) : option verdict :=
  match claims with
  | None => Some (Reject 401 "missing authorization")
  | Some c => if hasPermission (cl_Permissions c) required then None
              else Some (Reject 403 "insufficient admin permission")
  end.

(** [url.QueryEscape] *)
Definition hex_upper (n : N) : ascii := if (n <? 10)%N then ascii_of_N (n + 48) else ascii_of_N (n + 55).
Fixpoint QueryEscape (s : string) : string :=
  match s with
  | EmptyString => EmptyString
  | String c s' =>
      if is_letter c || is_digit c || one_of ["-"; "_"; "."; "~"]%char c then String c (QueryEscape s')
      else if bool_decide (c = " "%char) then String "+" (QueryEscape s')
      else String "%" (String (hex_upper (code c / 16)) (String (hex_upper (code c mod 16)) (QueryEscape s')))
  end.
Definition contains_char (c : ascii) (s : string) : bool := sexists (λ d, bool_decide (d = c)) s.

Section middleware.
Context {R : Type} `{RedisServer R} `{JwtLib} (tcfg : TokenCfg) (scfg : SessionConfig) (revoker : option (TokenRevoker R)).

(** The session's place in the heap goes to the context with the claims. Without a session
    validator ([sessions = false]) a token that names a session is refused. *)
Definition ValidateBearerTokenWithConfig (sessions : bool) (rq : Request) (cfg : AuthConfigOptions) :
    M (Sess R) (AccessTokenClaims * option nat) :=
  let tokenString := extractBearerTokenWithConfig rq (ao_EnableCookieAuth cfg) (ao_AuthCookieName cfg) in
  if bool_decide (tokenString = "") then fail errUnauthorized else
  let! r := try (on_world (ValidateAccessTokenWithContext tcfg tokenString)) in
  match r with
  | Err _ => fail errUnauthorized
  | Ok claims =>
      if bool_decide (cl_Scope claims = ScopeMFA) then fail ErrTokenScopeNotAllowed else
      if bool_decide (cl_SessionID claims = "") then ret (claims, None) else
      if negb sessions then fail errUnauthorized else
      let! r := try (ValidateSession scfg revoker (cl_SessionID claims)) in
      match r with
      | Err _ => fail errUnauthorized
      | Ok p => ret (claims, Some p)
      end
  end.
Definition ValidateBearerToken (rq : Request) : M (Sess R) (AccessTokenClaims * option nat) :=
  ValidateBearerTokenWithConfig true rq (mkAuthCfg "" true "__Host-access_token").

Definition JWTAuthMiddlewareWithConfig (cfg : AuthConfigOptions) (rq : Request) : M (Sess R) verdict :=
  let! r := try (ValidateBearerTokenWithConfig true rq cfg) in
  ret match r with
      | Ok (claims, _) => Next (cl_AccountID claims) claims
      | Err e =>
          if bool_decide (rq_method rq = "GET") && has_prefix "/oauth2/authorize" (rq_path rq) then
            let loginURL := if bool_decide (ao_LoginURL cfg = "") then "/login" else ao_LoginURL cfg in
            Redirect (loginURL +:+ (if contains_char "?" loginURL then "&redirect_uri=" else "?redirect_uri=")
                      +:+ QueryEscape (rq_uri rq))
          else if errors_is e ErrTokenScopeNotAllowed then Reject 403 "forbidden"
          else Reject 401 "unauthorized"
      end.
Definition JWTAuthMiddleware (rq : Request) : M (Sess R) verdict :=
  JWTAuthMiddlewareWithConfig (mkAuthCfg "/login" true "__Host-access_token") rq.

(** The chain in front of the admin API. *)
Definition admin_chain (required : string) (rq : Request) : M (Sess R) verdict :=
  let! v := JWTAuthMiddleware rq in
  match v with
  | Next a c =>
      ret match AdminRequired (Some c) with
          | Some v' => v'
          | None => match RequirePermission required (Some c) with Some v' => v' | None => Next a c end
          end
  | _ => ret v
  end.

(** ** Properties *)
Implicit Types s : Sess R.

(** The session a token names is stored and within its limits. *)
Definition session_alive s (sid : string) : Prop :=
  ∃ d e x, view (sv_world s) (buildSessionKey sid) = Some (Entry (RStr d) e) ∧
    (coherent s → unmarshal_session d = Some x) ∧
    w_now (sv_world s) - se_LastActiveAt x <= sc_ttl scfg ∧
    (0 < sc_maxAge scfg → w_now (sv_world s) - se_CreatedAt x <= sc_maxAge scfg).
Definition bearer_accepted s (rq : Request) (cfg : AuthConfigOptions) (c : AccessTokenClaims) : Prop :=
  let tok := extractBearerTokenWithConfig rq (ao_EnableCookieAuth cfg) (ao_AuthCookieName cfg) in
  tok ≠ "" ∧ access_accepted tcfg (sv_world s) tok c ∧ cl_Scope c ≠ ScopeMFA ∧
  (cl_SessionID c ≠ "" → session_alive s (cl_SessionID c)).

Lemma validate_bearer_ok b rq cfg s : 0 < sc_ttl scfg →
  wp (ValidateBearerTokenWithConfig b rq cfg) (λ r _, ∀ c p, r = Ok (c, p) → bearer_accepted s rq cfg c) s.
Proof.
  intros Httl. unfold ValidateBearerTokenWithConfig. case_bool_decide as Htok; [done|].
  wp_step. wp_step. apply wp_on_world. eapply wp_mono; [apply validate_access_quiet|].
  intros [c|e] w1 [Hq Hc]; [|by wp_step]. specialize (Hc c eq_refl). set (s1 := set_world w1 s).
  case_bool_decide as Hmfa; [by wp_step|]. case_bool_decide as Hsid.
  { wp_step. intros ? ? [= <- <-]. by split_and!. }
  destruct b; cbn [negb]; [|by wp_step].
  wp_step. destruct (ValidateSession scfg revoker (cl_SessionID c) s1) as [r s2] eqn:Hval.
  unfold try. unfold wp at 1. rewrite Hval. cbn [fst snd]. destruct r as [p|e]; [|by wp_step]. wp_step.
  intros ? ? [= <- <-]. split_and!; try done. intros _.
  destruct (validate_session_ok scfg revoker _ _ _ _ Httl Hval) as (Hidle&Hage&d&e&Hd&Hcoh).
  destruct Hq as (Hnow&_&_&_&Hview). cbn in Hidle, Hage, Hd. rewrite Hnow in Hidle, Hage. rewrite Hview in Hd.
  exists d, e, (sv_heap s2 !!! p). split_and!; done.
Qed.

Lemma jwt_auth_accepted cfg rq s account c s' :
  0 < sc_ttl scfg → JWTAuthMiddlewareWithConfig cfg rq s = (Ok (Next account c), s') →
  account = cl_AccountID c ∧ bearer_accepted s rq cfg c.
Proof.
  intros Httl. unfold JWTAuthMiddlewareWithConfig, bind, try.
  pose proof (validate_bearer_ok true rq cfg s Httl) as Hok. unfold wp in Hok.
  destruct (ValidateBearerTokenWithConfig true rq cfg s) as [[[c1 p]|e] s1]; cbn.
  - intros [=]; subst. split; [done|]. by apply (Hok c p).
  - destruct (_ && _); [done|]. by destruct (errors_is _ _).
Qed.

(** What passing the authentication means. A request is handed on only with a token in
    its Authorization header or cookie that the token service accepts in this state, that
    is not an MFA token, and whose session, if it names one, is stored and within its
    idle and absolute limits; the account handed on is the one in the claims. *)
Theorem jwt_auth_sound cfg rq s account c s' :
  0 < sc_ttl scfg → JWTAuthMiddlewareWithConfig cfg rq s = (Ok (Next account c), s') →
  account = cl_AccountID c ∧ bearer_accepted s rq cfg c.
Proof. apply jwt_auth_accepted. Qed.

(** C15: after a logout the access tokens of the session are refused. When [RevokeSession]
    reported success, no request with a token that names this session is handed on,
    in whatever state of the local cache, as long as the session is not created again. *)
Theorem revoked_session_is_shut_out (tr : TokenRevoker R) cfg rq a sid s s1 s2 r s3 :
  0 < sc_ttl scfg → sid ≠ "" → RevokeSession (Some tr) a sid s = (Ok tt, s1) →
  view (sv_world s2) (buildSessionKey sid) = view (sv_world s1) (buildSessionKey sid) →
  JWTAuthMiddlewareWithConfig cfg rq s2 = (r, s3) →
  ∀ account c, r = Ok (Next account c) → cl_SessionID c ≠ sid.
Proof.
  intros Httl Hne Hrev Hview Hauth account c -> Hsid.
  destruct (revoke_session_gone tr _ _ _ _ Hrev) as [Hgone _]. rewrite Hgone in Hview.
  destruct (jwt_auth_accepted _ _ _ _ _ _ Httl Hauth) as [_ (_&_&_&Halive)].
  rewrite Hsid in Halive. destruct (Halive Hne) as (d&e&x&Hd&_). by rewrite Hview in Hd.
Qed.

(** The admin API is for administrators. The chain of middlewares in front of an admin
    endpoint lets a request pass only if it is authenticated, its token carries both the
    role and the scope of an administrator, and it has the permission of the endpoint or
    the wildcard. *)
Theorem admin_chain_sound required rq s account c s' :
  0 < sc_ttl scfg → admin_chain required rq s = (Ok (Next account c), s') →
  bearer_accepted s rq (mkAuthCfg "/login" true "__Host-access_token") c ∧ account = cl_AccountID c ∧
  "admin" ∈ cl_Roles c ∧ ScopeAdmin ∈ Fields (cl_Scope c) ∧
  (required ∈ cl_Permissions c ∨ "admin:*" ∈ cl_Permissions c).
Proof.
  intros Httl. unfold admin_chain, JWTAuthMiddleware. set (cfg := mkAuthCfg _ _ _). unfold bind.
  destruct (JWTAuthMiddlewareWithConfig cfg rq s) as [[v|e] s1] eqn:Hauth; [|done].
  destruct v as [a c1| |]; cbn -[AdminRequired RequirePermission]; [|done|done].
  unfold AdminRequired, RequirePermission, hasScope, hasRole, hasPermission.
  destruct (existsb _ (Fields _)) eqn:Hscope; [|done]. destruct (existsb _ (cl_Roles c1)) eqn:Hrole; [|done].
  destruct (existsb _ (cl_Permissions c1)) eqn:Hperm; [|done]. cbn. intros [=]; subst.
  destruct (jwt_auth_accepted _ _ _ _ _ _ Httl Hauth) as [Ha Hacc].
  apply existsb_exists in Hscope as (x&Hx&->%bool_decide_eq_true), Hrole as (y&Hy&->%bool_decide_eq_true), Hperm as (z&Hz&Hz').
  rewrite <-!list_elem_of_In in *. split_and!; try done.
  apply orb_true_iff in Hz' as [->%bool_decide_eq_true| ->%bool_decide_eq_true]; auto.
Qed.
End middleware.
