(* ===== verification/HttpMiddleware.v ===== *)
(** * [middleware]: forged requests, floods, request identifiers

    [csrf.go], [redis_ratelimit.go] and [requestid.go]. The checks of the gouno library
    are the parameter [GounoCSRF]; logs, metrics, security headers and time limits are
    left out. *)
From S2P Require Import Prelude GoTime Json Hash LuaPattern Redis World Cache Footprint TokenDomain Url GoStrings AccountDomain Credential AuthMiddleware.
Local Open Scope Z_scope.

(** ** [encoding/json] on text from outside

    Space between the tokens goes away, and a number, which no field of the program's
    readers of such text holds, becomes 0; what is left is compact. *)
Definition json_space (c : ascii) : bool := one_of [" "; "009"; "010"; "013"]%char c.
Definition word_char (c : ascii) : bool := is_letter c || is_digit c || one_of ["+"; "-"; "."]%char c.
(** The rest of a number after its sign: digits without a leading zero, fraction, exponent. *)
Fixpoint digits_rest (s : string) : string :=
  match s with String c s' => if is_digit c then digits_rest s' else s | EmptyString => s end.
Definition digits1 (s : string) : option string :=
  match s with String c s' => if is_digit c then Some (digits_rest s') else None | EmptyString => None end.
Definition skip_one (l : list ascii) (s : string) : option string :=
  match s with String c s' => if one_of l c then Some s' else None | EmptyString => None end.
Definition json_number (s : string) : option string :=
  let s := default s (skip_one ["-"%char] s) in
  s ← match skip_one ["0"%char] s with Some s' => Some s' | None => digits1 s end;
  s ← match skip_one ["."%char] s with Some s' => digits1 s' | None => Some s end;
  match skip_one ["e"; "E"]%char s with
  | Some s' => digits1 (default s' (skip_one ["+"; "-"]%char s'))
  | None => Some s
  end.
Fixpoint skip_spaces (s : string) : string :=
  match s with String c s' => if json_space c then skip_spaces s' else s | EmptyString => s end.
(** [inside]: in a string, where [escaped] tells whether a backslash precedes; [touching]:
    the last character belongs to a word and nothing separates it from here. *)
Fixpoint compact (fuel : nat) (inside escaped touching : bool) (s : string) : option string :=
  match fuel, s with
  | O, _ => None
  | _, EmptyString => Some EmptyString
  | S fuel, String c s' =>
      if inside then
        String c <$> compact fuel (escaped || negb (bool_decide (c = dquote))) (negb escaped && bool_decide (c = backslash)) false s'
      else if json_space c then
        match skip_spaces s' with
        | String d r => if touching && word_char d then None else compact fuel false false false (String d r)
        | EmptyString => Some EmptyString
        end
      else if is_digit c || bool_decide (c = "-"%char) then
        if touching then None else (rest ← json_number s; String "0" <$> compact fuel false false true rest)
      else String c <$> compact fuel (bool_decide (c = dquote)) false (word_char c) s'
  end.
Definition decode_json (s : string) : option json := t ← compact (S (String.length s)) false false false s; jparse t.
Example decode_spaced : decode_json (" { " +:+ String dquote ("a" +:+ String dquote " : [1.5e3, -0, true ,null] } ")) =
  Some (JObj [("a", JArr [JNum 0; JNum 0; JBool true; JNull])]).
Proof. vm_compute. reflexivity. Qed.
Example decode_bad : forallb (λ s, negb (bool_decide (is_Some (decode_json s)))) ["[1 2]"; "01"; "1."; "[1,]"; "tr ue"; "{} x"; "1e"; "-"] = true.
Proof. vm_compute. reflexivity. Qed.

(** ** [csrf.go] *)
Definition csrfCookieName : string := "csrf_token".
Definition csrfSecureCookieName : string := "__Host-csrf_token".
Definition defaultCSRFMaxAge : Z := 4 * hour.
Definition maxCSRFMaxAge : Z := 24 * hour.
(** The life of the cookie that the middleware sets. *)
Definition csrf_max_age (maxAge : Z) : Z :=
  let maxAge := if maxAge <=? 0 then defaultCSRFMaxAge else maxAge in
  if maxCSRFMaxAge <? maxAge then maxCSRFMaxAge else maxAge.
Definition csrf_cookie_name (secure : bool) : string := if secure then csrfSecureCookieName else csrfCookieName.

(** A request with the header [X-CSRF-Token], the form field [csrf_token], and the cookies
    as they were sent, before their values are unescaped. *)
Record WebRequest : Type := mkWeb {
  wr_request : Request;
  wr_csrf_header : string;
  wr_csrf_form : string;
  wr_raw_cookies : list (string * string);
}.

(** [base64.RawURLEncoding.DecodeString] *)
Definition b64url_std (c : ascii) : ascii :=
  (if bool_decide (c = "-") then "+" else if bool_decide (c = "_") then "/"
   else if bool_decide (c = "+") || bool_decide (c = "/") then "=" else c)%char.
Definition b64url_decode (s : string) : option (list N) := b64std_decode (smap b64url_std s).
Definition alg_of (header : string) : option string :=
  match decode_json header with
  | Some (JObj l) => get_str "alg" l
  | Some JNull => Some ""
  | _ => None
  end.
Definition IsPlausibleJWT (token : string) : bool :=
  match Split "." token with
  | [h; p; s] =>
      negb (bool_decide (h = "")) && negb (bool_decide (p = "")) && negb (bool_decide (s = "")) &&
      match b64url_decode h with
      | Some bytes => match alg_of (string_of bytes) with Some alg => negb (bool_decide (alg = "")) | None => false end
      | None => false
      end
  | _ => false
  end.

Definition sessionCookieNames : list string := ["session"; "session_id"; "gosso_session"; "gosso_session_id"].
Definition has_suffix (suf s : string) : bool :=
  (String.length suf <=? String.length s)%nat && bool_decide (String.substring (String.length s - String.length suf) (String.length suf) s = suf).
Definition is_session_cookie (name : string) : bool :=
  existsb (λ n, bool_decide (n = name)) sessionCookieNames || has_suffix "_session_id" name || has_suffix "-session-id" name.
Definition is_access_cookie (name : string) : bool :=
  existsb (λ n, bool_decide (n = name)) ["access_token"; "__secure-access_token"; "__host-access_token"].
Definition hasOnlyAccessTokenCookie (cookies : list (string * string)) (bearerToken : string) : bool :=
  let access := List.filter (λ c, is_access_cookie (ToLower c.1)) cookies in
  if existsb (λ c, is_session_cookie (ToLower c.1)) cookies then false
  else match access with [] => true | _ => existsb (λ c, bool_decide (c.2 = bearerToken)) access end.

Class GounoCSRF (R : Type) := {
  CSRFMatches : string → string → bool;
  CSRFMatches_eq cookie token : CSRFMatches cookie token = true → cookie = token;
  GenerateCSRFToken : M (World R) string;
  (** the cookie that is set, when the request has none *)
  EnsureCSRFCookie : option string → M (World R) (option string);
}.
(** The request goes on, perhaps with a new cookie; or it is answered. *)
Inductive csrf_verdict : Type := Forward (cookie : option string) | Forbid (status : Z) (msg : string).

Section csrf.
Context {R : Type} `{GounoCSRF R}.
#[local] Abbreviation WM := (M (World R)).

Definition ensureCSRFCookie (present : option string) : WM csrf_verdict :=
  let! r := try (EnsureCSRFCookie present) in
  ret (match r with Ok c => Forward c | Err _ => Forbid 500 "internal server error" end).
Definition rotateCSRFCookie : WM (option string) :=
  let! r := try GenerateCSRFToken in ret (match r with Ok t => Some t | Err _ => None end).
Definition safe_method (method : string) : bool := existsb (λ m, bool_decide (m = method)) ["GET"; "HEAD"; "OPTIONS"].
Definition bearer_exempt (rq : WebRequest) : bool :=
  match strip_pre "Bearer " (rq_authorization (wr_request rq)) with
  | Some token => IsPlausibleJWT token && hasOnlyAccessTokenCookie (wr_raw_cookies rq) token
  | None => false
  end.
Definition skipped (skipPaths : list string) (path : string) : bool :=
  existsb (λ sp, bool_decide (path = sp) || has_prefix (sp +:+ "/") path) skipPaths.
Definition CSRFMiddleware (secure : bool) (skipPaths : list string) (rq : WebRequest) : WM csrf_verdict :=
  let present := Cookie (wr_request rq) (csrf_cookie_name secure) in
  if safe_method (rq_method (wr_request rq)) then ensureCSRFCookie present
  else if bearer_exempt rq then ret (Forward None)
  else if skipped skipPaths (rq_path (wr_request rq)) then ensureCSRFCookie present
  else match present with
       | None | Some "" => ret (Forbid 403 "CSRF token missing")
       | Some cookie =>
           let token := if bool_decide (wr_csrf_header rq = "") then wr_csrf_form rq else wr_csrf_header rq in
           if negb (CSRFMatches cookie token) then ret (Forbid 403 "CSRF token mismatch")
           else let! c := rotateCSRFCookie in ret (Forward c)
       end.
End csrf.

(** ** [requestid.go] *)
Definition maxRequestIDLength : Z := 128.
Definition isValidRequestID (s : string) : bool := sforall (λ c, is_letter c || is_digit c || one_of ["-"; "_"; "."]%char c) s.
Definition RequestIDMiddleware {R} (header : string) : M (World R) string :=
  if bool_decide (header = "") then uuid_new
  else if (maxRequestIDLength <? slen header) || negb (isValidRequestID header) then uuid_new
  else ret header.

(** ** [redis_ratelimit.go] *)
Section limiter.
Context {R : Type} `{RedisServer R}.

(** The time is what TIME answers: [now] in milliseconds and [us] microseconds more. The
    reply is whether the request may pass, how many more may, when the first place gets
    free in Unix seconds, and in how many seconds. *)
Definition rate_member (now us : Z) : string := dec now +:+ ":" +:+ dec (now mod 1000 * 1000 + us).
Definition ceil_div (a b : Z) : Z := - ((- a) / b).
Definition oldest_reply (window_sec now : Z) (oldest : list string) : Z * Z :=
  match oldest with
  | _ :: score :: _ =>
      let oldest_score := default 0 (parse_int score) in
      let diff := oldest_score + window_sec * 1000 - now in
      (ceil_div (oldest_score + window_sec * 1000) 1000,
       if 0 <? diff then Z.min (ceil_div diff 1000) window_sec else Z.min 0 window_sec)
  | _ => (now / 1000 + window_sec, window_sec)
  end.
Definition slidingWindowScript (key : string) (window_sec limit us : Z) (now : Z) : M R (list Z) :=
  s_zremrangebyscore now key 0 (now - window_sec * 1000) ;;
  let! count := s_zcard now key in
  let! (allowed, remaining) :=
    (if count <? limit then
       s_zadd now key now (rate_member now us) ;;
       s_pexpire now key (window_sec * 1000) ;;
       ret (1, limit - count - 1)
     else ret (0, 0)) in
  let! oldest := s_zfirst now key in
  let '(reset_at, retry_after) := oldest_reply window_sec now oldest in
  ret [allowed; remaining; reset_at; retry_after].

(** The headers [X-RateLimit-Limit], [-Remaining] and [-Reset]. *)
Record RateHeaders : Type := mkRateHeaders { rh_limit : Z; rh_remaining : Z; rh_reset : Z }.
Inductive rate_verdict : Type :=
  | Pass (headers : option RateHeaders)
  | TooMany (headers : RateHeaders) (retryAfter : Z)
  | Unavailable.
Definition rate_key (endpoint id : string) : string := "rate_limit:" +:+ endpoint +:+ "|" +:+ id.
#[global] Arguments rate_key : simpl never.
Definition RedisRateLimitMiddleware (endpoint id : string) (limit window : Z) (failOpen : bool) : M (World R) rate_verdict :=
  let! t := gets w_now in
  let! r := try (redis_call (slidingWindowScript (rate_key endpoint id) (trunc_secs window) limit (t / 1000 mod 1000))) in
  ret (match r with
       | Ok (allowed :: remaining :: resetAt :: retryAfter :: _) =>
           let h := mkRateHeaders limit remaining resetAt in
           if negb (allowed =? 1) then TooMany h retryAfter else Pass (Some h)
       | _ => if failOpen then Pass None else Unavailable
       end).
Definition IPKeyFunc (clientIP : string) : string := NormalizeIP clientIP.
End limiter.
