(* ===== verification/AuthCore.v ===== *)
(** * Authentication: the steps the flows share, profile and address *)
From S2P Require Import Prelude GoTime Json Hash Url Redis World Cache Footprint TokenDomain Blacklist TokenService Session SessionService OAuthDomain GoStrings AccountDomain Credential Database ClientRepo ClientService AccountRepo Mfa Scan Site Verification AccountService AuthMiddleware.
Local Open Scope Z_scope.

(** ** [internal/auth/service]: what the login flows share

    Settings, rate limits, cached roles, MFA tokens, sessions with their tokens
    ([auth_service.go], [auth_login_helpers.go], [auth_session_token.go]). The dummy work
    against timing attacks is the hash it computes; logging is left out. *)
(** ** [errors.go], [constants.go] *)
Definition ErrInvalidCredentials := Sentinel "invalid credentials".
Definition ErrAccountLocked := Sentinel "account locked, try again later".
Definition ErrIPLocked := Sentinel "too many attempts from this IP, try again later".
Definition ErrMFARateLimited := Sentinel "too many MFA attempts, try again later".
Definition ErrInvalidMFAToken := Sentinel "invalid or expired MFA token".
Definition ErrInvalidMFATokenScope := Sentinel "invalid MFA token scope".
Definition ErrUnsupportedMFAType := Sentinel "unsupported MFA type".
Definition ErrPasskeyNotAvailable := Sentinel "passkey not available".
Definition ErrPasskeyNotVerified := Sentinel "passkey verification not completed".
Definition ErrSessionInvalid := Sentinel "session invalid".
Definition ErrInvalidRefreshToken := Sentinel "invalid refresh token".
Definition ErrCredentialOwnership := Sentinel "credential does not belong to account".
Definition ErrUnsupportedCredentialType := Sentinel "unsupported credential type".
Definition ErrEmailAlreadyInUse := Sentinel "email already in use".
Definition RoleAdmin : string := "admin".

(** ** Settings *)
Definition defaultMFAVerificationTTL : Z := 5 * minute.
Definition defaultLoginRateLimitWindow : Z := 15 * minute.
Definition defaultLoginMaxAttempts : Z := 5.
Definition defaultLoginMaxAttemptsPerIP : Z := 30.
Definition defaultMFAAccountMaxAttempts : Z := 10.
Definition defaultMFAAccountRateLimitWindow : Z := 5 * minute.
Definition roleCacheTTL : Z := 5 * minute.
Definition roleCacheVersion : Z := 2.

Record AuthServiceConfig : Type := mkAuthServiceConfig {
  ac_LoginRateLimitWindow : Z;
  ac_LoginMaxAttempts : Z;
  ac_LoginMaxAttemptsPerIP : Z;
  ac_MFAVerificationTTL : Z;
  ac_MFAAccountMaxAttempts : Z;
  ac_MFAAccountRateLimitWindow : Z;
  ac_LoginIPAllowlist : list string;
}.
(** The service: settings, the services of tokens and sessions, MFA, and whether there is a
    passkey service. *)
Record AuthService (R : Type) `{RedisServer R} : Type := mkAuthService {
  as_loginRateLimitWindow : Z;
  as_loginMaxAttempts : Z;
  as_loginMaxAttemptsPerIP : Z;
  as_mfaVerificationTTL : Z;
  as_mfaAccountMaxAttempts : Z;
  as_mfaAccountRateLimitWindow : Z;
  as_loginIPAllowlist : list IPNet;
  as_tokenSvc : TokenCfg;
  as_sessionSvc : SessionConfig;
  as_tokenRevoker : option (TokenRevoker R);
  as_mfaSvc : MFAService;
}.
Arguments as_loginRateLimitWindow {R _}. Arguments as_loginMaxAttempts {R _}. Arguments as_loginMaxAttemptsPerIP {R _}.
Arguments as_mfaVerificationTTL {R _}. Arguments as_mfaAccountMaxAttempts {R _}. Arguments as_mfaAccountRateLimitWindow {R _}.
Arguments as_loginIPAllowlist {R _}. Arguments as_tokenSvc {R _}. Arguments as_sessionSvc {R _}.
Arguments as_tokenRevoker {R _}. Arguments as_mfaSvc {R _}. Arguments mkAuthService {R _}.

Definition positive_or (d v : Z) : Z := if 0 <? v then v else d.
Definition NewAuthServiceWithConfig {R} `{RedisServer R} (tokens : TokenCfg) (sessions : SessionConfig)
    (revoker : option (TokenRevoker R)) (mfa : MFAService) (cfg : AuthServiceConfig) : AuthService R :=
  mkAuthService (positive_or defaultLoginRateLimitWindow (ac_LoginRateLimitWindow cfg))
    (positive_or defaultLoginMaxAttempts (ac_LoginMaxAttempts cfg))
    (positive_or defaultLoginMaxAttemptsPerIP (ac_LoginMaxAttemptsPerIP cfg))
    (positive_or defaultMFAVerificationTTL (ac_MFAVerificationTTL cfg))
    (positive_or defaultMFAAccountMaxAttempts (ac_MFAAccountMaxAttempts cfg))
    (positive_or defaultMFAAccountRateLimitWindow (ac_MFAAccountRateLimitWindow cfg))
    (parseIPAllowlist (ac_LoginIPAllowlist cfg)) tokens sessions revoker mfa.

(** The session of a result is its place in the heap. *)
Record LoginResult : Type := mkLoginResult {
  lr_Account : Account;
  lr_Session : option nat;
  lr_AccessToken : string;
  lr_RefreshToken : string;
  lr_MFAToken : string;
  lr_RequiresMFA : bool;
  lr_MFATypes : list string;
}.
Definition buildLoginResult (account : Account) (session : nat) (accessToken : string) (refreshToken : RefreshToken) : LoginResult :=
  mkLoginResult account (Some session) accessToken (rt_Token refreshToken) "" false [].
Definition buildMFAResult (account : Account) (mfaToken : string) (mfaTypes : list string) : LoginResult :=
  mkLoginResult account None "" "" mfaToken true mfaTypes.

Definition safeAuditReason (e : err) : string :=
  if errors_is e ErrInvalidCredentials then "invalid_credentials"
  else if errors_is e ErrAccountLocked then "account_locked"
  else if errors_is e ErrIPLocked then "ip_rate_limited"
  else if errors_is e ErrMFARateLimited then "mfa_rate_limited"
  else if errors_is e ErrAccountNotActive then "account_inactive"
  else if errors_is e ErrInvalidMFACode then "invalid_mfa_code"
  else if errors_is e ErrInvalidMFAToken || errors_is e ErrInvalidMFATokenScope then "invalid_mfa_token"
  else if errors_is e ErrAccountNotFound then "account_not_found"
  else "internal_error".

(** ** Keys *)
Definition login_attempts_key (ip username : string) : string := "login_attempts:" +:+ ip +:+ ":" +:+ username.
Definition login_attempts_ip_key (ip : string) : string := "login_attempts_ip:" +:+ ip.
Definition mfa_attempts_key (accountID : string) : string := "mfa_attempts:" +:+ accountID.
Definition mfa_verified_key (jti : string) : string := "webauthn:mfa_verified:" +:+ jti.
Definition roleCacheKey (accountID : string) : string := "auth:roles:" +:+ accountID.
#[global] Arguments login_attempts_key : simpl never.
#[global] Arguments login_attempts_ip_key : simpl never.
#[global] Arguments mfa_attempts_key : simpl never.
#[global] Arguments mfa_verified_key : simpl never.
#[global] Arguments roleCacheKey : simpl never.

(** The cached roles of an account; an empty list is a nil slice, which prints as [null]. *)
Record roleCacheEntry : Type := mkRoleEntry { rc_Version : Z; rc_Roles : list string; rc_Permissions : list string }.
Definition strs_or_null (l : list string) : json := match l with [] => JNull | _ => JArr (map JStr l) end.
Definition marshal_roles (e : roleCacheEntry) : string :=
  jobj [("version", JNum (rc_Version e)); ("roles", strs_or_null (rc_Roles e)); ("permissions", strs_or_null (rc_Permissions e))].
Definition unmarshal_roles (s : string) : option roleCacheEntry :=
  match jparse s with
  | Some (JObj l) => v ← get_int "version" l; r ← get_strs "roles" l; p ← get_strs "permissions" l; Some (mkRoleEntry v r p)
  | Some JNull => Some (mkRoleEntry 0 [] [])
  | _ => None
  end.
(** Each name once, in the order of its first occurrence. *)
Definition dedup (l : list string) : list string :=
  foldl (λ seen x, if bool_decide (x ∈ seen) then seen else seen ++ [x]) [] l.

Section core.
Context {R : Type} `{RedisServer R} `{JwtLib} `{Postgres} `{Bcrypt} `{Argon2} `{Totp} `{AesGcm} `{Lower} (s : AuthService R).
#[local] Abbreviation SM := (M (Site R)).
#[local] Abbreviation tcfg := (as_tokenSvc s).
#[local] Abbreviation scfg := (as_sessionSvc s).
#[local] Abbreviation tr := (as_tokenRevoker s).

(** ** Audit records *)
Definition login_audit (action : string) (account : option string) (detail : list (string * string)) : SM unit :=
  at_world (audit_log (Audit action account detail)).
(** The deferred record of a failure. *)
Definition on_failure {A} (action : string) (account : option string) (detail : list (string * string)) (m : SM A) : SM A :=
  let! r := try m in
  match r with
  | Ok x => ret x
  | Err e => login_audit action account (detail ++ [("reason", safeAuditReason e)]) ;; fail e
  end.

(** ** Rate limits *)
(** A count that has reached the limit locks; so does a Redis that does not answer. *)
Definition within_limit (key : string) (limit window : Z) (locked : err) : SM unit :=
  let! r := try (at_world (CheckAndIncr key limit window)) in
  match r with
  | Err _ => fail ErrServiceUnavailable
  | Ok count => guard_err (limit <=? count) locked
  end.
Definition isIPAllowlisted (normalizedIP : string) : bool :=
  match ParseIP normalizedIP with
  | None => false
  | Some ip => existsb (λ n, Contains n ip) (as_loginIPAllowlist s)
  end.
Definition checkIPRateLimit (ip : string) : SM unit :=
  let normalizedIP := NormalizeIP ip in
  if isIPAllowlisted normalizedIP then ret tt
  else within_limit (login_attempts_ip_key normalizedIP) (as_loginMaxAttemptsPerIP s) (as_loginRateLimitWindow s) ErrIPLocked.
Definition checkMFAAccountRateLimit (accountID : string) : SM unit :=
  within_limit (mfa_attempts_key accountID) (as_mfaAccountMaxAttempts s) (as_mfaAccountRateLimitWindow s) ErrMFARateLimited.
Definition clearLoginRateLimits (ip : string) (username : option string) : SM unit :=
  match username with
  | None => ret tt
  | Some u => ignore (at_world (Del [login_attempts_key (NormalizeIP ip) (to_lower u)]))
  end.

Definition dummyArgon2Hash (password : string) : SM unit := ignore (at_world (HashPassword password)).

(** ** Roles in tokens *)
Definition fetchRolesCached (accountID : string) : SM (list string * list string) :=
  let key := roleCacheKey accountID in
  let! cached := try (at_world (Get key)) in
  match (match cached with
         | Ok data => e ← unmarshal_roles data; if rc_Version e =? roleCacheVersion then Some e else None
         | Err _ => None end) with
  | Some e => ret (rc_Roles e, rc_Permissions e)
  | None =>
      let! roles := wrap "fetch roles for token" (at_app (FindRolesByAccountID accountID)) in
      let roleNames := dedup (map r_Name roles) in
      let permissions := dedup (concat (map r_Permissions roles)) in
      ignore (at_world (Set_ key (marshal_roles (mkRoleEntry roleCacheVersion roleNames permissions)) roleCacheTTL)) ;;
      ret (roleNames, permissions)
  end.
Definition InvalidateRoleCache (accountID : string) : M (World R) unit := Del [roleCacheKey accountID].
Definition token_claims (accountID sessionID scope : string) (roles permissions : list string) : AccessTokenClaims :=
  Claims "" "" [] None None None "" accountID "" "" roles permissions scope "" sessionID.
Definition buildTokenClaims (accountID sessionID : string) : SM AccessTokenClaims :=
  let! (roleNames, permissions) := fetchRolesCached accountID in
  let scope := if bool_decide (RoleAdmin ∈ roleNames) then "openid profile email admin" else "openid profile email" in
  ret (token_claims accountID sessionID scope roleNames permissions).

(** ** Sessions with their tokens *)
Definition issue_for_session (ctx : Ctx) (accountID sessionID : string) : SM (string * RefreshToken) :=
  let! claims := wrap "build token claims" (buildTokenClaims accountID sessionID) in
  let! accessToken := wrap "generate access token" (at_world (GenerateAccessToken tcfg claims)) in
  let! refreshToken := wrap "generate refresh token" (at_world (GenerateRefreshToken tcfg ctx accountID "" sessionID "")) in
  ret (accessToken, refreshToken).
(** A session whose tokens could not be issued is deleted again. *)
Definition createSessionAndTokens (ctx : Ctx) (account : Account) (ip userAgent : string) : SM (nat * string * RefreshToken) :=
  let! t := site_now in
  let! id := at_world uuid_new in
  let! session := wrap "create session" (lift_res (NewSession t id (a_ID account) (default "" (a_Username account)) ip userAgent false)) in
  let! p := at_sess (new_obj session) in
  wrap "create session" (at_sess (CreateSession scfg tr p)) ;;
  let! x := at_sess (load_obj p) in
  let! r := try (issue_for_session ctx (a_ID account) (se_ID x)) in
  match r with
  | Ok (accessToken, refreshToken) => ret (p, accessToken, refreshToken)
  | Err e => ignore (at_sess (DeleteSession (se_ID x))) ;; fail e
  end.

(** ** Tokens between the factors *)
Definition mfa_claims (id accountID : string) (exp : Z) : AccessTokenClaims :=
  Claims "" "" [] (Some (NewNumericDate exp)) None None id accountID "" "" [] [] ScopeMFA "" "".
Definition handleMFARequirement (account : Account) : SM (option LoginResult) :=
  let! r := try (at_app (GetMFAStatus (as_mfaSvc s) (a_ID account))) in
  match r with
  | Err _ => fail ErrServiceUnavailable
  | Ok status =>
      if negb (ms_Enabled status) then ret None else
      let! id := at_world uuid_new in
      let! t := site_now in
      let! mfaToken := wrap "generate mfa token"
        (at_world (GenerateShortLivedToken tcfg (mfa_claims id (a_ID account) (t + as_mfaVerificationTTL s)))) in
      ret (Some (buildMFAResult account mfaToken (ms_Types status)))
  end.
Definition ValidateMFAToken (mfaToken : string) : SM AccessTokenClaims :=
  let! r := try (at_world (ValidateAccessTokenWithContext tcfg mfaToken)) in
  match r with
  | Err e => fail (if errors_is e ErrBlacklistUnavailable then ErrServiceUnavailable else ErrInvalidMFAToken)
  | Ok claims => guard_err (negb (bool_decide (cl_Scope claims = ScopeMFA))) ErrInvalidMFATokenScope ;; ret claims
  end.
Definition blacklistMFAToken (claims : AccessTokenClaims) : SM unit :=
  if bool_decide (cl_ID claims = "") then ret tt else
  match cl_ExpiresAt claims with
  | None => fail (Anon "mfa token missing expires_at")
  | Some exp => wrap "blacklist mfa token" (at_world (RevokeAccessToken (cl_ID claims) exp))
  end.
Definition MarkPasskeyMFAVerified (mfaTokenJTI : string) : SM unit :=
  at_world (Set_ (mfa_verified_key mfaTokenJTI) "1" (as_mfaVerificationTTL s)).
(** The flag is consumed. *)
Definition verifyPasskeyMFAFlag (mfaTokenJTI : string) : SM unit :=
  let! r := try (at_world (GetDel (mfa_verified_key mfaTokenJTI))) in
  match r with
  | Err e => fail (if errors_is e ErrKeyNotFound then ErrPasskeyNotVerified else Wrap "verify passkey mfa" e)
  | Ok verified => guard_err (negb (bool_decide (verified = "1"))) ErrPasskeyNotVerified
  end.
Definition verifyMFACode (mfaType accountID mfaCode mfaTokenJTI : string) : SM unit :=
  if bool_decide (mfaType = "passkey") then
    if negb (mf_passkeys (as_mfaSvc s)) then fail ErrPasskeyNotAvailable else verifyPasskeyMFAFlag mfaTokenJTI
  else if bool_decide (mfaType = "totp") then
    let! valid := wrap "totp verification error" (at_app (VerifyTOTP (as_mfaSvc s) accountID mfaCode)) in
    if valid : bool then ret tt else
    let! valid := wrap "backup code verification error" (at_app (VerifyBackupCode accountID mfaCode)) in
    guard_err (negb valid) ErrInvalidMFACode
  else fail (Wrap mfaType ErrUnsupportedMFAType).
End core.

(** ** [internal/auth/service]: profile, address, step-up checks

    [auth_profile.go] and the credential checks of [auth_service.go]. *)
Section profile.
Context {R : Type} `{RedisServer R} `{Postgres} `{Argon2} `{Unicode} `{Lower}.
#[local] Abbreviation AM := (M (App R)).
#[local] Abbreviation SM := (M (Site R)).

Definition with_display_name (n : string) (a : Account) : Account :=
  mkAccount (a_ID a) (a_Username a) n (a_AvatarURL a) (a_Status a) (a_Locale a) (a_Timezone a) (a_Metadata a)
    (a_CreatedAt a) (a_UpdatedAt a) (a_DeletedAt a).
Definition update_audit (ctx : Ctx) (accountID : string) (detail : string * string) : SM unit :=
  at_world (audit_log (Audit "account.update" (Some accountID) [detail; ("ip", ctx_ip ctx); ("user_agent", ctx_ua ctx)])).
Definition UpdateProfile (ctx : Ctx) (accountID displayName : string) : SM Account :=
  guard_err (bool_decide (accountID = "")) (Anon "account id is required") ;;
  let displayName := TrimSpace displayName in
  guard_err (bool_decide (displayName = "")) (Anon "display name is required") ;;
  let! account := at_app (FindAccountByID accountID) in
  let! account := UpdateAccount (with_display_name displayName account) in
  update_audit ctx accountID ("display_name", displayName) ;;
  ret account.

(** ** The address *)
Definition with_address (newEmail : string) (now : Z) (c : Credential) : Credential :=
  mkCredential (cr_ID c) (cr_AccountID c) (cr_Type c) (Some newEmail) (cr_Value c) true (cr_Primary c) (cr_Metadata c)
    (cr_CreatedAt c) now (Some now) (cr_LastUsedAt c) (cr_DeletedAt c).
Definition address_credential (id accountID newEmail : string) (now : Z) : Credential :=
  mkCredential id accountID CredentialTypeEmail (Some newEmail) "" true true [] now now (Some now) None None.
(** The address belongs to nobody else. *)
Definition address_free (accountID newEmail : string) : AM unit :=
  let! existing := try (FindByTypeAndIdentifier CredentialTypeEmail newEmail) in
  match existing with
  | Ok c => guard_err (negb (bool_decide (cr_AccountID c = accountID))) ErrEmailAlreadyInUse
  | Err e => guard_err (negb (errors_is e ErrCredentialNotFound)) e
  end.
Definition update_email_tx (accountID newEmail : string) : AM unit :=
  address_free accountID newEmail ;;
  let! creds := FindByAccountAndType accountID CredentialTypeEmail in
  let! now := app_now in
  match creds with
  | c :: _ => UpdateCredential (with_address newEmail now c)
  | [] => let! id := in_world uuid_new in CreateCredentials [address_credential id accountID newEmail now]
  end.
Definition UpdateEmail (ctx : Ctx) (accountID newEmail : string) : SM unit :=
  guard_err (bool_decide (accountID = "")) (Anon "account id is required") ;;
  let newEmail := to_lower (TrimSpace newEmail) in
  guard_err (bool_decide (newEmail = "")) (Anon "email is required") ;;
  at_app (RunInTransaction (update_email_tx accountID newEmail)) ;;
  update_audit ctx accountID ("email", newEmail).
Definition IsEmailAvailable (email : string) : AM bool :=
  let email := to_lower (TrimSpace email) in
  guard_err (bool_decide (email = "")) (Anon "email is required") ;;
  let! r := try (FindByTypeAndIdentifier CredentialTypeEmail email) in
  match r with
  | Ok _ => ret false
  | Err e => if errors_is e ErrCredentialNotFound then ret true else fail e
  end.

(** ** Checks before sensitive operations *)
Definition VerifyCurrentPassword (accountID password : string) : SM unit :=
  guard_err (bool_decide (accountID = "") || bool_decide (password = "")) ErrInvalidCredentials ;;
  let! r := try (at_app (FindPasswordCredential accountID)) in
  match r with
  | Err _ => dummyArgon2Hash password ;; fail ErrInvalidCredentials
  | Ok cred => guard_err (negb (VerifyPassword (Some cred) password)) ErrInvalidCredentials
  end.
Definition contact_type (credType : string) : res string :=
  if bool_decide (credType = "email") then Ok CredentialTypeEmail
  else if bool_decide (credType = "phone") then Ok CredentialTypePhone
  else Err (Wrap credType ErrUnsupportedCredentialType).
Definition ConfirmVerificationCredential (credType identifier accountID : string) : AM unit :=
  let! domainCredType := lift_res (contact_type credType) in
  RunInTransaction (
    let! cred := wrap "find credential" (FindByTypeAndIdentifier domainCredType identifier) in
    guard_err (negb (bool_decide (cr_AccountID cred = accountID))) ErrCredentialOwnership ;;
    let! now := app_now in
    UpdateCredential (credential_Verify now cred)).
End profile.
