(* ===== verification/AuthLogin.v ===== *)
(** * [internal/auth/service]: login, logout, lockout, refresh, profile

    [auth_login.go], [auth_lockout.go], [auth_session.go], [auth_profile.go] and the rest of
    [auth_service.go]. The deferred failure record of a handler is [on_failure]. *)
From S2P Require Import Prelude GoTime Json Hash Url LuaPattern Redis World Cache Footprint TokenDomain Blacklist TokenService Session SessionService GoStrings AccountDomain Credential OAuthDomain Database ClientRepo ClientService AccountRepo Mfa Scan Site AccountService AuthMiddleware Verification AuthCore.
Local Open Scope Z_scope.

Definition ActionLoginSuccess : string := "auth.login.success".
Definition ActionLoginFailure : string := "auth.login.failure".
Definition ActionMFALoginSuccess : string := "auth.mfa_login.success".
Definition ActionMFALoginFailure : string := "auth.mfa_login.failure".
Definition ActionLogout : string := "auth.logout".
Definition maxUsernameLen : Z := 254.

Record LoginCommand : Type := mkLoginCommand { lc_Username : string; lc_Password : string; lc_IP : string; lc_UserAgent : string }.
Record LockoutCounter : Type := mkLockoutCounter { lo_Key : string; lo_Attempts : Z }.
Record LockoutStatus : Type := mkLockoutStatus {
  ls_AccountID : string; ls_Username : string; ls_LockedOut : bool; ls_Counters : list LockoutCounter }.
Record RefreshResult : Type := mkRefreshResult { rr_AccessToken : string; rr_RefreshToken : string; rr_SessionID : string }.

Definition refreshTokenLockPrefix : string := "auth_refresh_lock:".
Definition refreshTokenLockTTL : Z := 30 * second.
Definition refreshTokenLockWaitTimeout : Z := 5 * second.
Definition refreshTokenLockPoll : Z := 25 * millisecond.
Definition refreshTokenHashPrefix (refreshToken : string) : string :=
  if bool_decide (refreshToken = "") then "" else String.substring 0 16 (HashToken refreshToken).
Definition refresh_lock_key (refreshToken : string) : string := refreshTokenLockPrefix +:+ refreshTokenHashPrefix refreshToken.
#[global] Arguments refresh_lock_key : simpl never.

(** The session of a login that passed a second factor. *)
Definition mfa_marked (x : Session) : Session :=
  mkSession (se_ID x) (se_AccountID x) (se_Username x) (se_IP x) (se_UserAgent x) true (se_CreatedAt x) (se_LastActiveAt x) (se_Metadata x).

Section login.
Context {R : Type} `{RedisServer R} `{JwtLib} `{Postgres} `{Bcrypt} `{Argon2} `{Totp} `{AesGcm} `{Lower} (s : AuthService R).
#[local] Abbreviation SM := (M (Site R)).
#[local] Abbreviation tcfg := (as_tokenSvc s).
#[local] Abbreviation scfg := (as_sessionSvc s).
#[local] Abbreviation tr := (as_tokenRevoker s).

(** ** Passwords *)
Definition updateCredentialLastUsed (cred : Credential) : SM unit :=
  let! t := site_now in at_app (UpdateLastUsedAt (cr_ID cred) t).
(** Length in bytes. *)
Definition login_input_ok (req : LoginCommand) : bool :=
  (slen (lc_Username req) <=? maxUsernameLen) && (slen (lc_Password req) <=? MaxPasswordLength)
  && negb (bool_decide (lc_Username req = "")) && negb (bool_decide (lc_Password req = "")).
Definition no_such_login (password : string) {A} : SM A := dummyArgon2Hash password ;; fail ErrInvalidCredentials.
(** The account whose password was given. *)
Definition check_password (username password : string) : SM (Account * Credential) :=
  let! r := try (at_app (AccountSvc_FindByUsernameWithPasswordCredential username)) in
  match r with
  | Err e => if errors_is e ErrAccountNotFound || errors_is e ErrCredentialNotFound
             then no_such_login password else fail ErrServiceUnavailable
  | Ok (_, Err e) => no_such_login password
  | Ok (account, Ok cred) =>
      if negb (IsActive (Some account)) then no_such_login password else
      guard_err (negb (VerifyPassword (Some cred) password)) ErrInvalidCredentials ;;
      ret (account, cred)
  end.
Definition admit_attempt (req : LoginCommand) : SM unit :=
  within_limit (login_attempts_key (NormalizeIP (lc_IP req)) (to_lower (lc_Username req)))
    (as_loginMaxAttempts s) (as_loginRateLimitWindow s) ErrAccountLocked ;;
  checkIPRateLimit s (lc_IP req) ;;
  guard_err (negb (login_input_ok req)) ErrInvalidCredentials.

Definition login_admitted (ctx : Ctx) (req : LoginCommand) : SM LoginResult :=
  let! (account, cred) := check_password (to_lower (lc_Username req)) (lc_Password req) in
  let! mfaResult := handleMFARequirement s account in
  match mfaResult with
  | Some result => ret result
  | None =>
      let! (session, accessToken, refreshToken) := createSessionAndTokens s ctx account (lc_IP req) (lc_UserAgent req) in
      ignore (updateCredentialLastUsed cred) ;;
      let! x := at_sess (load_obj session) in
      clearLoginRateLimits (lc_IP req) (a_Username account) ;;
      login_audit ActionLoginSuccess (Some (a_ID account))
        [("account_id", a_ID account); ("session_id", se_ID x); ("ip", lc_IP req); ("user_agent", lc_UserAgent req)] ;;
      ret (buildLoginResult account session accessToken refreshToken)
  end.
Definition LoginByUsernamePassword (ctx : Ctx) (req : LoginCommand) : SM LoginResult :=
  on_failure ActionLoginFailure None
    [("username", lc_Username req); ("ip", lc_IP req); ("user_agent", lc_UserAgent req)] (
  admit_attempt req ;;
  login_admitted ctx req).

(** ** Second factors *)
Definition completeLogin (ctx : Ctx) (account : Account) (ip userAgent action : string) (extraDetail : list (string * string))
    (mfaVerified : bool) : SM LoginResult :=
  let! (session, accessToken, refreshToken) := createSessionAndTokens s ctx account ip userAgent in
  (if mfaVerified then
     let! x := at_sess (load_obj session) in
     at_sess (store_obj session (mfa_marked x)) ;;
     wrap "failed to mark session as MFA-verified" (at_sess (UpdateSession scfg session))
   else ret tt) ;;
  let! x := at_sess (load_obj session) in
  clearLoginRateLimits ip (a_Username account) ;;
  login_audit action (Some (a_ID account))
    (("account_id", a_ID account) :: ("session_id", se_ID x) :: extraDetail ++ [("ip", ip); ("user_agent", userAgent)]) ;;
  ret (buildLoginResult account session accessToken refreshToken).

Definition active_by_id (accountID : string) : SM Account :=
  let! r := try (at_app (FindAccountByID accountID)) in
  match r with
  | Err _ => fail ErrInvalidCredentials
  | Ok account => guard_err (negb (IsActive (Some account))) ErrInvalidCredentials ;; ret account
  end.
Definition mfa_failure {A} (account : option string) (ip userAgent : string) (m : SM A) : SM A :=
  on_failure ActionMFALoginFailure account [("ip", ip); ("user_agent", userAgent)] m.

Definition finish_mfa_login (ctx : Ctx) (claims : AccessTokenClaims) (mfaCode mfaType ip userAgent : string) : SM LoginResult :=
  let accountID := cl_AccountID claims in
  checkMFAAccountRateLimit s accountID ;;
  let! verified := try (verifyMFACode s mfaType accountID mfaCode (cl_ID claims)) in
  match verified with
  | Err e => ignore (blacklistMFAToken claims) ;; fail e
  | Ok _ =>
      let! account := active_by_id accountID in
      let! spent := try (blacklistMFAToken claims) in
      match spent with
      | Err _ => fail ErrInvalidCredentials
      | Ok _ => completeLogin ctx account ip userAgent ActionMFALoginSuccess [] true
      end
  end.
Definition VerifyMFALogin (ctx : Ctx) (mfaToken mfaCode mfaType ip userAgent : string) : SM LoginResult :=
  let! claims := mfa_failure None ip userAgent (checkIPRateLimit s ip ;; ValidateMFAToken s mfaToken) in
  mfa_failure (Some (cl_AccountID claims)) ip userAgent (finish_mfa_login ctx claims mfaCode mfaType ip userAgent).

Definition finish_passkey_login (ctx : Ctx) (claims : AccessTokenClaims) (ip userAgent : string) : SM LoginResult :=
  let accountID := cl_AccountID claims in
  checkMFAAccountRateLimit s accountID ;;
  verifyPasskeyMFAFlag (cl_ID claims) ;;
  let! account := active_by_id accountID in
  blacklistMFAToken claims ;;
  completeLogin ctx account ip userAgent ActionMFALoginSuccess [] true.
Definition CompletePasskeyMFALogin (ctx : Ctx) (mfaToken ip userAgent : string) : SM LoginResult :=
  let! claims := mfa_failure None ip userAgent (ValidateMFAToken s mfaToken) in
  mfa_failure (Some (cl_AccountID claims)) ip userAgent (finish_passkey_login ctx claims ip userAgent).

Definition LoginByPasskey (ctx : Ctx) (accountID ip userAgent : string) : SM LoginResult :=
  on_failure ActionLoginFailure None [("method", "passkey"); ("account_id", accountID); ("ip", ip); ("user_agent", userAgent)] (
  let! account := active_by_id accountID in
  completeLogin ctx account ip userAgent ActionLoginSuccess [("method", "passkey")] true).

(** ** Logout: the errors that [errors.Join] joins; none means success *)
Definition failures {A} (ctx : string) (m : SM A) : SM (list err) :=
  let! r := try m in ret (match r with Ok _ => [] | Err e => [Wrap ctx e] end).
Definition Logout (ctx : Ctx) (accountID sessionID accessTokenJTI : string) (tokenExpiresAt : Z) : SM (list err) :=
  let! e1 := failures "revoke session" (at_sess (RevokeSession tr accountID sessionID)) in
  let! e2 := failures "revoke refresh tokens" (at_world (RevokeAllForSession ctx sessionID)) in
  (if bool_decide (accessTokenJTI = "") then ret tt
   else ignore (at_world (RevokeAccessToken accessTokenJTI tokenExpiresAt))) ;;
  login_audit ActionLogout (if bool_decide (accountID = "") then None else Some accountID)
    [("session_id", sessionID); ("ip", ctx_ip ctx); ("user_agent", ctx_ua ctx)] ;;
  ret (e1 ++ e2).

(** ** Refresh *)
(** A token that is gone may have been rotated a moment ago: then its successor is used. *)
Definition loadRefreshTokenForRefresh (ctx : Ctx) (refreshToken : string) : SM (RefreshToken * bool) :=
  let! r := try (at_world (ValidateRefreshToken refreshToken)) in
  match r with
  | Ok rt => ret (rt, false)
  | Err e =>
      if negb (errors_is e ErrKeyNotFound) then fail e else
      let! replay := try (at_world (RotateRefreshToken tcfg ctx refreshToken)) in
      match replay with Ok rt => ret (rt, true) | Err _ => fail e end
  end.
Definition ip_allows (oldRT : RefreshToken) (currentIP : string) : bool :=
  bool_decide (rt_IP oldRT = "") || negb (bool_decide (currentIP = "")) && bool_decide (NormalizeIP (rt_IP oldRT) = NormalizeIP currentIP).
(** The error of a step becomes another one. *)
Definition or_else {A} (e : err) (m : SM A) : SM A := let! r := try m in match r with Ok x => ret x | Err _ => fail e end.
(** The account and the claims are looked up concurrently; here the account comes first. *)
Definition refresh_claims (oldRT : RefreshToken) : SM AccessTokenClaims :=
  let! account := try (at_app (FindAccountByID (rt_AccountID oldRT))) in
  let! claims := try (buildTokenClaims (rt_AccountID oldRT) (rt_SessionID oldRT)) in
  guard_err (negb (match account with Ok a => IsActive (Some a) | Err _ => false end)) ErrAccountNotActive ;;
  lift_res (wrap_res "build token claims" claims).
Definition for_client (oldRT : RefreshToken) (c : AccessTokenClaims) : AccessTokenClaims :=
  Claims (cl_Issuer c) (cl_Subject c) (cl_Audience c) (cl_ExpiresAt c) (cl_NotBefore c) (cl_IssuedAt c) (cl_ID c) (cl_AccountID c)
    (cl_Username c) (cl_Email c) (cl_Roles c) (cl_Permissions c)
    (if bool_decide (rt_Scope oldRT = "") then cl_Scope c else rt_Scope oldRT) (rt_ClientID oldRT) (cl_SessionID c).
Definition refreshTokensLocked (ctx : Ctx) (refreshToken : string) : SM RefreshResult :=
  let! (oldRT, replayedRotation) := or_else ErrInvalidRefreshToken (loadRefreshTokenForRefresh ctx refreshToken) in
  guard_err (negb (ip_allows oldRT (ctx_ip ctx))) ErrInvalidRefreshToken ;;
  let sessionID := rt_SessionID oldRT in
  (if bool_decide (sessionID = "") then ret tt else
   or_else ErrSessionInvalid (at_sess (ValidateSession scfg tr sessionID)) ;; ret tt) ;;
  let! claims := refresh_claims oldRT in
  let! accessToken := wrap "generate access token" (at_world (GenerateAccessToken tcfg (for_client oldRT claims))) in
  (if bool_decide (sessionID = "") then ret tt else
   or_else ErrSessionInvalid (at_sess (RefreshSession scfg tr sessionID))) ;;
  let! newRefreshToken := (if replayedRotation : bool then ret oldRT
    else or_else ErrInvalidRefreshToken (at_world (RotateRefreshToken tcfg ctx refreshToken))) in
  ret (mkRefreshResult accessToken (rt_Token newRefreshToken) sessionID).

(** [pause] is what happens in the process while the loop sleeps for
    [refreshTokenLockPoll]. [None]: no more rounds. *)
Fixpoint lock_loop {A} (pause : SM unit) (fuel : nat) (lockKey : string) (deadline : Z) (fn : SM A) : SM (option A) :=
  match fuel with
  | O => ret None
  | S fuel =>
      let! acquired := at_world (SetNX lockKey "1" refreshTokenLockTTL) in
      if acquired : bool then
        let! result := try fn in
        ignore (at_world (Del [lockKey])) ;;
        lift_res (match result with Ok x => Ok (Some x) | Err e => Err e end)
      else
        let! t := site_now in
        if deadline <? t then fail ErrInvalidRefreshToken else
        pause ;;
        lock_loop pause fuel lockKey deadline fn
  end.
Definition lock_rounds : nat := 202.
Definition withRefreshTokenLock {A} (pause : SM unit) (refreshToken : string) (fn : SM A) : SM (option A) :=
  if bool_decide (refreshToken = "") then let! x := fn in ret (Some x) else
  let! t := site_now in
  lock_loop pause lock_rounds (refresh_lock_key refreshToken) (t + refreshTokenLockWaitTimeout) fn.
Definition RefreshTokens (pause : SM unit) (ctx : Ctx) (refreshToken : string) : SM (option RefreshResult) :=
  withRefreshTokenLock pause refreshToken (refreshTokensLocked ctx refreshToken).
End login.

(** ** Lockout *)
Section lockout.
Context {R : Type} `{ScanServer R} `{Postgres} `{Lower}.
#[local] Abbreviation SM := (M (Site R)).

Definition attempts_pattern (username : string) : string := "login_attempts:*:" +:+ username.
(** The first error is kept. *)
Definition clear_page (firstErr : option err) (keys : list string) : M (World R) (option err) :=
  if bool_decide (keys = []) then ret firstErr else
  let! r := try (Del keys) in
  ret (match r with Ok _ => firstErr | Err e => Some (default (Wrap "delete rate limit keys" e) firstErr) end).
Definition ClearLoginRateLimitsByUsername (username : string) : M (World R) unit :=
  let! (firstErr, _) := wrap "scan rate limit keys" (scan_loop maxIterations (attempts_pattern (to_lower username)) clear_page None 0) in
  match firstErr with None => ret tt | Some e => fail e end.
Definition ClearLockout (accountID : string) : SM unit :=
  let! account := wrap "find account" (at_app (FindAccountByID accountID)) in
  match a_Username account with
  | None => ret tt
  | Some username => at_world (ClearLoginRateLimitsByUsername username)
  end.

(** [strconv.ParseInt], whose error is dropped; a counter has 64 bits. *)
Definition counter_of (val : string) : Z := default 0 (parse_int val).
Fixpoint read_counters (keys : list string) : M (World R) (list LockoutCounter) :=
  match keys with
  | [] => ret []
  | key :: keys =>
      let! r := try (Get key) in
      let! rest := read_counters keys in
      ret (match r with
           | Ok val => if 0 <? counter_of val then mkLockoutCounter key (counter_of val) :: rest else rest
           | Err _ => rest
           end)
  end.
(** A failing scan ends the loop with what was found. *)
Fixpoint scan_counters (fuel : nat) (pattern : string) (counters : list LockoutCounter) (cursor : Z) : M (World R) (list LockoutCounter) :=
  match fuel with
  | O => ret counters
  | S fuel =>
      let! r := try (ScanKeys cursor pattern 100) in
      match r with
      | Err _ => ret counters
      | Ok (keys, next) =>
          let! more := read_counters keys in
          if next =? 0 then ret (counters ++ more) else scan_counters fuel pattern (counters ++ more) next
      end
  end.
Definition GetLockoutStatus (accountID : string) : SM LockoutStatus :=
  let! account := wrap "find account" (at_app (FindAccountByID accountID)) in
  let username := to_lower (default "" (a_Username account)) in
  if bool_decide (username = "") then ret (mkLockoutStatus accountID username false []) else
  let! counters := at_world (scan_counters maxIterations (attempts_pattern username) [] 0) in
  ret (mkLockoutStatus accountID username (negb (bool_decide (counters = []))) counters).
End lockout.
