(* ===== verification/PasswordReset.v ===== *)
(** * [internal/auth/service/password_reset_service.go]: password reset

    A token goes out by mail; Redis keeps whose password it resets and how often it was
    tried. Revoking the sessions is a job of its own goroutine, or runs in the request when
    too many are under way; [Wait], the end of the process, is left out, as are time limits
    and logs. *)
From S2P Require Import Prelude GoTime Json LuaPattern Hash Url Redis World Cache Footprint TokenDomain TokenService Session SessionService GoStrings AccountDomain Credential OAuthDomain Database AccountRepo Scan Site AccountService AuthMiddleware Verification AuthCore AuthLogin.
Local Open Scope Z_scope.

Definition passwordResetTokenKeyPrefix : string := "password_reset:token:".
Definition passwordResetCooldownPrefix : string := "password_reset:cooldown:".
Definition passwordResetTokenLength : nat := 32.
Definition passwordResetTokenTTL : Z := 30 * minute.
Definition passwordResetCooldownTTL : Z := 60 * second.
Definition passwordResetMaxAttempts : Z := 5.
Definition ErrPasswordResetInvalidToken := Sentinel "invalid or expired reset token".
Definition ErrPasswordResetExhausted := Sentinel "reset token exhausted, please request a new one".
Definition ErrPasswordCooldown := Sentinel "please wait before requesting another reset".
Definition ActionPasswordReset : string := "account.password.reset".

Definition reset_token_key (tokenHash : string) : string := passwordResetTokenKeyPrefix +:+ tokenHash.
Definition reset_cooldown_key `{Lower} (email : string) : string := passwordResetCooldownPrefix +:+ to_lower email.
#[global] Arguments reset_token_key : simpl never.
#[global] Arguments reset_cooldown_key : simpl never.

Record passwordResetData : Type := mkResetData { rd_AccountID : string; rd_Email : string; rd_Username : string; rd_Attempts : Z }.
Definition reset_members (d : passwordResetData) : list (string * json) :=
  [("account_id", JStr (rd_AccountID d)); ("email", JStr (rd_Email d))] ++ omit_str "username" (rd_Username d)
  ++ [("attempts", JNum (rd_Attempts d))].
Definition marshal_reset (d : passwordResetData) : string := jobj (reset_members d).
Definition unmarshal_reset (s : string) : option passwordResetData :=
  match jparse s with
  | Some (JObj l) =>
      a ← get_str "account_id" l; e ← get_str "email" l; u ← get_str "username" l; n ← get_int "attempts" l;
      Some (mkResetData a e u n)
  | Some JNull => Some (mkResetData "" "" "" 0)
  | _ => None
  end.

(** [string.gsub] with text that has no special meaning: [skip] characters belong to the
    occurrence that was just replaced. *)
Fixpoint gsub (p r : string) (skip : nat) (s : string) : string :=
  match s with
  | EmptyString => EmptyString
  | String c s' =>
      match skip with
      | S skip => gsub p r skip s'
      | O => match strip_prefix p s with
             | Some _ => r +:+ gsub p r (String.length p - 1) s'
             | None => String c (gsub p r 0 s')
             end
      end
  end.
Definition attempts_of (data : string) : Z := default 0 (d ← match_num "attempts" data; parse_int d).
Definition counted (data : string) : string :=
  let n := attempts_of data in
  gsub (num_member "attempts" +:+ dec n) (num_member "attempts" +:+ dec (n + 1)) 0 data.

Inductive reset_reply : Type := NoToken | TriedOut | Counted (d : string).
Definition checkAndIncrementAttemptsScript {R} `{RedisServer R} (key : string) (maxAttempts ttl : Z) (now : Z) : M R reset_reply :=
  let! data := s_get now key in
  match data with
  | None => ret NoToken
  | Some d =>
      if maxAttempts <=? attempts_of d then s_del now key ;; ret TriedOut
      else s_set now key (counted d) (Some (ttl * 1000)) ;; ret (Counted (counted d))
  end.

(** The settings; the base URL in the form [url.Parse] and [String] give it, when it has one. *)
Record PasswordResetCfg : Type := mkResetCfg {
  pc_tokenTTL : Z;
  pc_cooldownTTL : Z;
  pc_maxAttempts : Z;
  pc_baseURL : option string;
  pc_clearsRateLimits : bool;
}.
Definition NewPasswordResetServiceWithConfig (cfg : PasswordResetCfg) : PasswordResetCfg :=
  mkResetCfg (positive_or passwordResetTokenTTL (pc_tokenTTL cfg)) (positive_or passwordResetCooldownTTL (pc_cooldownTTL cfg))
    (positive_or passwordResetMaxAttempts (pc_maxAttempts cfg)) (pc_baseURL cfg) (pc_clearsRateLimits cfg).

Section service.
Context {R : Type} `{ScanServer R} `{Postgres} `{Argon2} `{Unicode} `{Lower}.
Context (cfg : PasswordResetCfg) (mailer : Sender R) (tcfg : TokenCfg) (tr : option (TokenRevoker R)).
#[local] Abbreviation SM := (M (Site R)).

(** Who asks for a reset: an active account of the address. *)
Definition reset_account (email : string) : SM (option (Credential * Account)) :=
  let! r := try (at_app (FindByTypeAndIdentifier CredentialTypeEmail email)) in
  match r with
  | Err _ => ret None
  | Ok cred =>
      let! a := try (at_app (FindAccountByID (cr_AccountID cred))) in
      ret (match a with Ok account => if IsActive (Some account) then Some (cred, account) else None | Err _ => None end)
  end.
Definition send_reset (email : string) (cred : Credential) (account : Account) : SM unit :=
  let! tokenBytes := wrap "generate token" (at_world (rand_read passwordResetTokenLength)) in
  let token := hex_encode tokenBytes in
  let data := mkResetData (cr_AccountID cred) email (default "" (a_Username account)) 0 in
  wrap "store reset token" (at_world (Set_ (reset_token_key (HashToken token)) (marshal_reset data) (pc_tokenTTL cfg))) ;;
  or_else ErrServiceUnavailable (at_world (Set_ (reset_cooldown_key email) "1" (pc_cooldownTTL cfg))) ;;
  match pc_baseURL cfg with
  | None => fail (Wrap "invalid password reset base URL" (Anon "parse"))
  | Some base => wrap "send reset email" (at_world (send_message mailer email (base +:+ "#token=" +:+ QueryEscape token)))
  end.
Definition RequestReset (email : string) : SM unit :=
  let email := to_lower (TrimSpace email) in
  let! cooling := or_else ErrServiceUnavailable (at_world (Exists (reset_cooldown_key email))) in
  guard_err cooling ErrPasswordCooldown ;;
  let! who := reset_account email in
  match who with
  | None => ret tt
  | Some (cred, account) => send_reset email cred account
  end.

(** Every error of the script comes with a nil result. *)
Definition try_token (tokenKey : string) : SM passwordResetData :=
  let! r := try (at_world (redis_call (checkAndIncrementAttemptsScript tokenKey (pc_maxAttempts cfg) (trunc_secs (pc_tokenTTL cfg))))) in
  match r with
  | Err _ | Ok NoToken => fail ErrPasswordResetInvalidToken
  | Ok TriedOut => fail ErrPasswordResetExhausted
  | Ok (Counted d) => match unmarshal_reset d with None => fail (Anon "unmarshal reset data") | Some data => ret data end
  end.
Definition set_password (accountID hashedPassword : string) : M (App R) unit :=
  RunInTransaction (
    let! cred := wrap "find password credential" (FindPasswordCredential accountID) in
    UpdateCredential (with_value hashedPassword cred)).
Definition clear_limits (data : passwordResetData) : SM unit :=
  if pc_clearsRateLimits cfg then
    ignore (at_world (ClearLoginRateLimitsByUsername (if bool_decide (rd_Username data = "") then rd_Email data else rd_Username data)))
  else ret tt.
(** The job that ends the sessions of an account. *)
Definition revoke_job (accountID : string) : SM unit := ignore (at_sess (RevokeAllForAccount tr accountID)).
(** [busy]: too many jobs are under way. The account is the one whose job was started. *)
Definition VerifyAndReset (busy : bool) (ctx : Ctx) (token newPassword : string) : SM (option string) :=
  let token := TrimSpace token in
  lift_res (ValidatePasswordStrength newPassword) ;;
  let tokenKey := reset_token_key (HashToken token) in
  let! data := try_token tokenKey in
  let accountID := rd_AccountID data in
  let! account := wrap "find account" (at_app (FindAccountByID accountID)) in
  guard_err (negb (IsActive (Some account))) ErrAccountNotActive ;;
  let! hashedPassword := wrap "hash password" (at_world (HashPassword newPassword)) in
  wrap "update password" (at_app (set_password accountID hashedPassword)) ;;
  wrap "delete reset token from redis" (at_world (Del [tokenKey])) ;;
  clear_limits data ;;
  ignore (at_world (RevokeAccountTokens tcfg ctx accountID)) ;;
  (if busy then revoke_job accountID else ret tt) ;;
  login_audit ActionPasswordReset (Some accountID)
    [("account_id", accountID); ("ip", ctx_ip ctx); ("user_agent", ctx_ua ctx)] ;;
  ret (if busy then None else Some accountID).
End service.
