(* ===== verification/Passkey.v ===== *)
(** * [internal/auth/service/passkey_service.go]: passkeys

    The WebAuthn library is the parameter [WebAuthnLib]: it makes the challenge of a
    ceremony and checks the answer of the authenticator. The service keeps the state of a
    ceremony in Redis for one use, and the passkeys in the database. Logs are left out. *)
From S2P Require Import Prelude GoTime Json Hash Url Redis World Cache Footprint GoStrings AccountDomain Credential OAuthDomain Database ClientRepo AccountRepo Site AccountService AuthCore.
Local Open Scope Z_scope.

Definition defaultChallengeTTL : Z := 5 * minute.
Definition redisKeyRegChallenge (requestID : string) : string := "webauthn:reg:" +:+ requestID.
Definition redisKeyLoginChallenge (requestID : string) : string := "webauthn:login:" +:+ requestID.
Definition redisKeyMFAChallenge (requestID : string) : string := "webauthn:mfa:" +:+ requestID.
#[global] Arguments redisKeyRegChallenge : simpl never.
#[global] Arguments redisKeyLoginChallenge : simpl never.
#[global] Arguments redisKeyMFAChallenge : simpl never.
Definition maxPasskeyRequestBodySize : Z := 65536.
Definition ErrChallengeNotFound := Sentinel "challenge not found or expired".
Definition ErrPasskeyNotFound := Sentinel "no passkey found for account".
Definition ErrPasskeyAlreadyRegistered := Sentinel "passkey already registered".
Definition ErrRequestBodyTooLarge := Sentinel "request body too large".
(** A nil pointer dereference ends the handler; the recovery middleware answers 500. *)
Definition nil_panic : err := Typed "panic" "invalid memory address or nil pointer dereference".

(** [*webauthn.WebAuthn] with the state of a ceremony, [SessionData]. *)
Class WebAuthnLib (R : Type) `{RedisServer R} := {
  WaSession : Type;
  WaOptions : Type;
  (** what the authenticator proves: it holds the key and saw the challenge of this ceremony *)
  asserts : WaSession → list N → string → Prop;
  wa_marshal : WaSession → res string;
  wa_unmarshal : string → option WaSession;
  wa_read_back s t : wa_marshal s = Ok t → wa_unmarshal t = Some s;
  (** [sessionData.UserID] *)
  wa_UserID : WaSession → string;
  wa_BeginRegistration : WebAuthnUser → list (list N) → M (World R) (WaOptions * WaSession);
  wa_BeginLogin : WebAuthnUser → M (World R) (WaOptions * WaSession);
  wa_BeginDiscoverableLogin : M (World R) (WaOptions * WaSession);
  wa_FinishRegistration : Z → WebAuthnUser → WaSession → string → res WaCredential;
  wa_FinishLogin : Z → WebAuthnUser → WaSession → string → res WaCredential;
  wa_FinishPasskeyLogin : Z → WebAuthnUser → WaSession → string → res WaCredential;
  (** [protocol.ParseCredentialRequestResponseBody]: the raw identifier and the flag
      [BackupEligible] *)
  wa_parse : string → res (list N * bool);
  (** An accepted answer is an assertion by a key of the user, the one it names. *)
  wa_login_ok now u s body c raw be : wa_FinishLogin now u s body = Ok c → wa_parse body = Ok (raw, be) →
    wa_UserID s = wu_accountID u ∧ ∃ c0, c0 ∈ wu_credentials u ∧ wa_ID c0 = raw ∧ asserts s (wa_PublicKey c0) body;
  wa_passkey_ok now u s body c raw be : wa_FinishPasskeyLogin now u s body = Ok c → wa_parse body = Ok (raw, be) →
    ∃ c0, c0 ∈ wu_credentials u ∧ wa_ID c0 = raw ∧ asserts s (wa_PublicKey c0) body;
}.

Record PasskeyCredentialView : Type := mkPasskeyView {
  pv_ID : string;
  pv_Name : string;
  pv_CreatedAt : Z;
  pv_LastUsedAt : option Z;
  pv_AttestationType : string;
  pv_Transports : list string;
}.
Record PasskeyCfg : Type := mkPasskeyCfg { pk_challengeTTL : Z }.
Definition NewPasskeyServiceWithConfig (cfg : PasskeyCfg) : PasskeyCfg :=
  mkPasskeyCfg (if pk_challengeTTL cfg <=? 0 then defaultChallengeTTL else pk_challengeTTL cfg).

(** [FlagBackupEligible] *)
Definition backup_eligible : N := 8.
Definition has_backup_eligible (flags : N) : bool := negb (N.land flags backup_eligible =? 0)%N.
Definition set_backup_eligible (be : bool) (flags : N) : N :=
  if be then N.lor flags backup_eligible else N.ldiff flags backup_eligible.
Definition readLimitedBody (body : string) (maxSize : Z) : res string :=
  if maxSize <? slen body then Err ErrRequestBodyTooLarge else Ok body.

Section service.
Context {R : Type} `{WebAuthnLib R} `{Postgres} (cfg : PasskeyCfg).
#[local] Abbreviation AM := (M (App R)).

Definition store_challenge (key : string → string) (sessionData : WaSession) : AM string :=
  let! data := wrap "marshal session data" (lift_res (wa_marshal sessionData)) in
  let! requestID := in_world uuid_new in
  wrap "store challenge" (in_world (Set_ (key requestID) data (pk_challengeTTL cfg))) ;;
  ret requestID.
Definition take_challenge (key : string) : AM WaSession :=
  let! r := try (in_world (GetDel key)) in
  match r with
  | Err _ => fail ErrChallengeNotFound
  | Ok data => match wa_unmarshal data with Some s => ret s | None => fail (Wrap "unmarshal session data" (Anon "json")) end
  end.

Definition BeginRegistration (accountID username displayName : string) : AM (WaOptions * string) :=
  let! existing := wrap "find existing credentials" (PasskeyRepo_FindByAccountID accountID) in
  let user := NewWebAuthnUser accountID username displayName existing in
  let! (options, sessionData) := wrap "begin registration" (in_world (wa_BeginRegistration user (map wa_ID (wu_credentials user)))) in
  let! requestID := store_challenge redisKeyRegChallenge sessionData in
  ret (options, requestID).
Definition ensureCredentialNotRegistered (credentialID : list N) : AM unit :=
  let! r := try (PasskeyRepo_FindByCredentialID (b64_encode credentialID)) in
  match r with
  | Ok _ => fail ErrPasskeyAlreadyRegistered
  | Err e => if errors_is e ErrWebAuthnCredentialNotFound then ret tt else fail (Wrap "check existing credential" e)
  end.
Definition new_passkey (accountID name : string) (c : WaCredential) : AM WebAuthnCredential :=
  let! now := app_now in
  let! id := in_world uuid_new in
  match NewWebAuthnCredential now id (mkPasskeyParams accountID (wa_ID c) (wa_PublicKey c) (wa_AttestationType c) (wa_Transport c)
          (wa_SignCount c) (wa_AAGUID c) (if bool_decide (name = "") then "Passkey" else name)) with
  | Ok cred => ret (verified_passkey (with_flags (wa_Flags c mod 256) cred))
  | Err _ => fail nil_panic
  end.
Definition CompleteRegistration (requestID accountID username displayName name body : string) : AM WebAuthnCredential :=
  let! sessionData := take_challenge (redisKeyRegChallenge requestID) in
  let! existing := wrap "find existing credentials for exclusion list" (PasskeyRepo_FindByAccountID accountID) in
  let user := NewWebAuthnUser accountID username displayName existing in
  let! now := app_now in
  let! credential := wrap "finish registration" (lift_res (wa_FinishRegistration now user sessionData body)) in
  ensureCredentialNotRegistered (wa_ID credential) ;;
  let! cred := new_passkey accountID name credential in
  let! r := try (RunInTransaction (PasskeyRepo_CreateCredential cred)) in
  match r with
  | Ok _ => ret cred
  | Err e => fail (if errors_is e ErrUniqueViolation then ErrPasskeyAlreadyRegistered else Wrap "save credential" e)
  end.

Definition beginLoginInternal (accountID : string) (key : string → string) (logAction : string) : AM (WaOptions * string) :=
  let! r := try (PasskeyRepo_FindByAccountID accountID) in
  match r with
  | Err _ | Ok [] => fail ErrPasskeyNotFound
  | Ok creds =>
      let! (options, sessionData) := wrap ("begin " +:+ logAction +:+ " login") (in_world (wa_BeginLogin (NewWebAuthnUser accountID "" "" creds))) in
      let! requestID := store_challenge key sessionData in
      ret (options, requestID)
  end.
Definition BeginLogin (accountID : string) : AM (WaOptions * string) := beginLoginInternal accountID redisKeyLoginChallenge "login".
Definition BeginMFALogin (accountID : string) : AM (WaOptions * string) := beginLoginInternal accountID redisKeyMFAChallenge "mfa".
Definition BeginDiscoverableLogin : AM (WaOptions * string) :=
  let! (options, sessionData) := wrap "begin discoverable login" (in_world wa_BeginDiscoverableLogin) in
  let! requestID := store_challenge redisKeyLoginChallenge sessionData in
  ret (options, requestID).

(** Whether the user was known when the ceremony began. *)
Definition finishLogin (user : WebAuthnUser) (sessionData : WaSession) (body : string) : AM WaCredential :=
  let! now := app_now in
  lift_res (if bool_decide (wa_UserID sessionData = "") then wa_FinishPasskeyLogin now user sessionData body
            else wa_FinishLogin now user sessionData body).
(** The flag that some authenticators change is taken from the answer, in the record and
    among the credentials of the account. *)
Definition normalize (be : bool) (cred : WebAuthnCredential) : WebAuthnCredential :=
  if Bool.eqb (has_backup_eligible (wc_Flags cred)) be then cred else with_flags (set_backup_eligible be (wc_Flags cred)) cred.
Fixpoint replace_flags (cred : WebAuthnCredential) (l : list WebAuthnCredential) : list WebAuthnCredential :=
  match l with
  | [] => []
  | c :: l => if bool_decide (wc_ID c = wc_ID cred) then with_flags (wc_Flags cred) c :: l else c :: replace_flags cred l
  end.
Definition find_passkey (raw : list N) : AM WebAuthnCredential :=
  let! r := try (PasskeyRepo_FindByCredentialID (b64_encode raw)) in
  match r with
  | Ok cred => ret cred
  | Err e => fail (if errors_is e ErrWebAuthnCredentialNotFound then ErrCredentialNotFound else Wrap "find credential" e)
  end.
Definition used_passkey (now : Z) (waCred : WaCredential) (cred : WebAuthnCredential) : WebAuthnCredential :=
  passkey_MarkUsed now (with_flags (wa_Flags waCred mod 256)
    (if (0 <? wa_SignCount waCred)%N then with_sign_count (wa_SignCount waCred) cred else cred)).
Definition completeLoginInternal (requestID expectedAccountID : string) (key : string → string) (body : string) : AM WebAuthnCredential :=
  let! sessionData := take_challenge (key requestID) in
  let! body := lift_res (readLimitedBody body maxPasskeyRequestBodySize) in
  let! (credID, responseBE) := wrap "parse credential response" (lift_res (wa_parse body)) in
  let! found := find_passkey credID in
  guard_err (negb (bool_decide (expectedAccountID = "")) && negb (bool_decide (wc_AccountID found = expectedAccountID))) ErrCredentialOwnership ;;
  let! allCreds := wrap "find credentials" (PasskeyRepo_FindByAccountID (wc_AccountID found)) in
  let cred := normalize responseBE found in
  let allCreds := if Bool.eqb (has_backup_eligible (wc_Flags found)) responseBE then allCreds else replace_flags cred allCreds in
  let! waCred := wrap "finish login" (finishLogin (NewWebAuthnUser (wc_AccountID cred) "" "" allCreds) sessionData body) in
  let! now := app_now in
  let cred := used_passkey now waCred cred in
  ignore (RunInTransaction (PasskeyRepo_UpdateCredential cred)) ;;
  ret cred.
Definition CompleteLogin (requestID body : string) : AM (string * WebAuthnCredential) :=
  let! cred := completeLoginInternal requestID "" redisKeyLoginChallenge body in
  ret (wc_AccountID cred, cred).
Definition CompleteMFALogin (requestID accountID body : string) : AM unit :=
  completeLoginInternal requestID accountID redisKeyMFAChallenge body ;; ret tt.

Definition HasPasskeys (accountID : string) : AM bool := PasskeyRepo_HasPasskeys accountID.
Definition passkey_view (c : WebAuthnCredential) : PasskeyCredentialView :=
  mkPasskeyView (wc_ID c) (wc_Name c) (wc_CreatedAt c) (wc_LastUsedAt c) (wc_AttestationType c) (wc_Transports c).
Definition ListCredentials (accountID : string) : AM (list PasskeyCredentialView) :=
  let! creds := wrap "find credentials" (PasskeyRepo_FindByAccountID accountID) in ret (map passkey_view creds).
Definition DeleteCredential (accountID credentialID : string) : AM unit :=
  let! creds := wrap "find credentials by account" (PasskeyRepo_FindByAccountID accountID) in
  match List.find (λ c, bool_decide (wc_ID c = credentialID)) creds with
  | None => fail ErrCredentialNotFound
  | Some target =>
      let! now := app_now in
      wrap "delete credential" (RunInTransaction (PasskeyRepo_SoftDeleteCredential (wc_ID target) now))
  end.
Definition ResolveAccountForRegistration (accountID : string) : AM (string * string) :=
  let! account := wrap "resolve account" (FindAccountByID accountID) in
  let username := default accountID (a_Username account) in
  ret (username, if bool_decide (a_DisplayName account = "") then username else a_DisplayName account).
End service.
