(* ===== verification/OidcService.v ===== *)
(** * [internal/oidc/service]: ID tokens, user information, published keys, logout

    The signing library is the parameter [IdJwt]; the requests to relying parties that a
    logout starts are part of its result, since they run on their own. *)
From S2P Require Import Prelude GoTime Json Hash Redis World Cache TokenDomain Blacklist TokenService Session SessionService Url GoStrings AccountDomain Credential OAuthDomain Database ClientRepo AccountRepo Site AccountService.
Local Open Scope Z_scope.

(** ** Discovery: the document with its members in the order [Marshal] prints a map *)
Definition texts (l : list string) : json := JArr (map JStr l).
Definition NewDiscoveryService (issuer : string) : list (string * json) :=
  [("authorization_endpoint", JStr (issuer +:+ "/oauth2/authorize"));
   ("authorization_response_iss_parameter_supported", JBool true);
   ("backchannel_logout_supported", JBool true);
   ("claims_supported", texts ["sub"; "iss"; "aud"; "exp"; "iat"; "auth_time"; "nonce"; "name"; "preferred_username"; "picture"; "email";
      "email_verified"; "phone_number"; "phone_number_verified"; "locale"]);
   ("code_challenge_methods_supported", texts ["S256"]);
   ("device_authorization_endpoint", JStr (issuer +:+ "/oauth2/device/code"));
   ("end_session_endpoint", JStr (issuer +:+ "/oidc/logout"));
   ("frontchannel_logout_session_supported", JBool true);
   ("frontchannel_logout_supported", JBool true);
   ("grant_types_supported", texts ["authorization_code"; "refresh_token"; "client_credentials"; "urn:ietf:params:oauth:grant-type:device_code"]);
   ("id_token_signing_alg_values_supported", texts ["RS256"]);
   ("introspection_endpoint", JStr (issuer +:+ "/oauth2/introspect"));
   ("introspection_endpoint_auth_methods_supported", texts ["client_secret_post"; "client_secret_basic"]);
   ("issuer", JStr issuer);
   ("jwks_uri", JStr (issuer +:+ "/.well-known/jwks.json"));
   ("response_modes_supported", texts ["query"]);
   ("response_types_supported", texts ["code"]);
   ("revocation_endpoint", JStr (issuer +:+ "/oauth2/revoke"));
   ("revocation_endpoint_auth_methods_supported", texts ["client_secret_post"; "client_secret_basic"]);
   ("scopes_supported", texts ["openid"; "profile"; "email"; "phone"]);
   ("subject_types_supported", texts ["public"]);
   ("token_endpoint", JStr (issuer +:+ "/oauth2/token"));
   ("token_endpoint_auth_methods_supported", texts ["client_secret_post"; "client_secret_basic"; "none"]);
   ("userinfo_endpoint", JStr (issuer +:+ "/oidc/userinfo"))].
Definition GetDiscoveryDocument (issuer : string) : string := jobj (NewDiscoveryService issuer).

(** ** [id_token_service.go] *)
Record IDTokenClaims : Type := mkIDClaims {
  id_Issuer : string;
  id_Subject : string;
  id_Audience : list string;
  id_ExpiresAt : Z;
  id_IssuedAt : Z;
  id_ID : string;
  id_AZP : string;
  id_Name : string;
  id_PreferredUsername : string;
  id_Picture : string;
  id_Email : string;
  id_EmailVerified : option bool;
  id_PhoneNumber : string;
  id_PhoneVerified : option bool;
  id_Locale : string;
  id_Nonce : string;
  id_AuthTime : option Z;
  id_AMR : list string;
  id_ATHash : string;
}.

(** RS256 over these claims. [id_parse] checks the method and the signature with a key and
    nothing else; [id_kid] reads the header without checking. *)
Class IdJwt `{JwtLib} := {
  id_sign : string → string → IDTokenClaims → res string;
  id_parse : string → string → option IDTokenClaims;
  id_kid : string → option string;
  id_parse_signed kid priv c tok : id_sign kid priv c = Ok tok → id_parse (jwt_public priv) tok = Some c;
}.

Definition defaultIDTokenExpiry : Z := 10 * minute.
(** The expiry that [NewIDTokenService] keeps. *)
Definition id_expiry (expiry : Z) : Z := if expiry <=? 0 then defaultIDTokenExpiry else expiry.

Definition with_profile_claims (a : Account) (c : IDTokenClaims) : IDTokenClaims :=
  mkIDClaims (id_Issuer c) (id_Subject c) (id_Audience c) (id_ExpiresAt c) (id_IssuedAt c) (id_ID c) (id_AZP c)
    (a_DisplayName a) (default "" (a_Username a)) (default "" (a_AvatarURL a)) (id_Email c) (id_EmailVerified c)
    (id_PhoneNumber c) (id_PhoneVerified c) (a_Locale a) (id_Nonce c) (id_AuthTime c) (id_AMR c) (id_ATHash c).
Definition with_email (email : string) (verified : bool) (c : IDTokenClaims) : IDTokenClaims :=
  mkIDClaims (id_Issuer c) (id_Subject c) (id_Audience c) (id_ExpiresAt c) (id_IssuedAt c) (id_ID c) (id_AZP c)
    (id_Name c) (id_PreferredUsername c) (id_Picture c) email (Some verified)
    (id_PhoneNumber c) (id_PhoneVerified c) (id_Locale c) (id_Nonce c) (id_AuthTime c) (id_AMR c) (id_ATHash c).
Definition with_phone (phone : string) (verified : bool) (c : IDTokenClaims) : IDTokenClaims :=
  mkIDClaims (id_Issuer c) (id_Subject c) (id_Audience c) (id_ExpiresAt c) (id_IssuedAt c) (id_ID c) (id_AZP c)
    (id_Name c) (id_PreferredUsername c) (id_Picture c) (id_Email c) (id_EmailVerified c)
    phone (Some verified) (id_Locale c) (id_Nonce c) (id_AuthTime c) (id_AMR c) (id_ATHash c).
Definition with_at_hash (h : string) (c : IDTokenClaims) : IDTokenClaims :=
  mkIDClaims (id_Issuer c) (id_Subject c) (id_Audience c) (id_ExpiresAt c) (id_IssuedAt c) (id_ID c) (id_AZP c)
    (id_Name c) (id_PreferredUsername c) (id_Picture c) (id_Email c) (id_EmailVerified c)
    (id_PhoneNumber c) (id_PhoneVerified c) (id_Locale c) (id_Nonce c) (id_AuthTime c) (id_AMR c) h.

(** The first half of the hash. *)
Definition at_hash (accessToken : string) : string :=
  if bool_decide (accessToken = "") then "" else
  let hash := sha256 accessToken in b64_encode (take (length hash / 2)%nat hash).

(** The credentials fill the claims in their order, so the last of a type stays. *)
Definition contact_claim (cl : IDTokenClaims) (c : Credential) : IDTokenClaims :=
  match cr_Identifier c with
  | None => cl
  | Some identifier =>
      if bool_decide (cr_Type c = CredentialTypeEmail) then with_email identifier (IsVerified (Some c)) cl
      else if bool_decide (cr_Type c = CredentialTypePhone) then with_phone identifier (IsVerified (Some c)) cl
      else cl
  end.
Definition contact_types (scopes : list string) : list string :=
  (if bool_decide ("email" ∈ scopes) then [CredentialTypeEmail] else [])
  ++ (if bool_decide ("phone" ∈ scopes) then [CredentialTypePhone] else []).

(** ** [jwks_service.go]

    The key of the process is one pair for its lifetime. An entry of the document is its
    identifier and public key; the JSON text is left out. *)
Record Jwks : Type := mkJwks { jk_current : string * string; jk_previousKey : option (string * string) }.
Definition NewJWKSService (kid public : string) : Jwks := mkJwks (kid, public) None.
Definition Reload (j : Jwks) : Jwks := mkJwks (jk_current j) (Some (jk_current j)).
Definition ClearPreviousKey (j : Jwks) : Jwks := mkJwks (jk_current j) None.
Definition published (j : Jwks) : list (string * string) := jk_current j :: from_option (λ k, [k]) [] (jk_previousKey j).
Definition GetPublicKeyByKID (kid : string) (j : Jwks) : option string :=
  snd <$> List.find (λ k, bool_decide (k.1 = kid)) (published j).
Definition GetAllPublicKeys (j : Jwks) : list string := map snd (published j).

(** ** [logout_service.go] *)
Definition ErrSessionServiceNotConfigured := Sentinel "session service not configured".
Definition ErrAudienceMismatch := Sentinel "id_token_hint audience does not match client_id".
Record LogoutTokenClaims : Type := mkLogoutClaims {
  lo_Issuer : string;
  lo_Subject : string;
  lo_Audience : list string;
  lo_IssuedAt : Z;
  lo_ExpiresAt : Z;
  lo_SID : string;
}.
(** A POST of a logout token to a relying party. *)
Record Notification : Type := mkNotification { nt_ClientID : string; nt_URI : string; nt_Claims : LogoutTokenClaims }.
Record FrontChannelLogoutEntry : Type := mkEntry { fe_URI : string; fe_SessionRequired : bool; fe_ClientID : string }.

Definition generateLogoutToken (issuer : string) (now : Z) (clientID accountID sessionID : string) (sessionRequired : bool) :
    LogoutTokenClaims :=
  mkLogoutClaims issuer accountID [clientID] (NewNumericDate now) (NewNumericDate (now + 5 * minute))
    (if sessionRequired && negb (bool_decide (sessionID = "")) then sessionID else "").

Section service.
Context {R : Type} `{RedisServer R} `{Postgres} `{IdJwt}.
Context (tcfg : TokenCfg) (issuer : string) (expiry : Z) (jwks : Jwks) (tr : option (TokenRevoker R)).
#[local] Abbreviation SM := (M (Site R)).

Definition base_claims (now : Z) (id accountID clientID nonce : string) (authTime : Z) (authMethods : list string) : IDTokenClaims :=
  mkIDClaims issuer accountID [clientID] (NewNumericDate (now + expiry)) (NewNumericDate now) id clientID
    "" "" "" "" None "" None "" nonce (Some (Unix authTime)) authMethods "".

Definition addContactClaims (accountID : string) (scopes : list string) (claims : IDTokenClaims) : SM IDTokenClaims :=
  if bool_decide (contact_types scopes = []) then ret claims else
  let! creds := wrap "query contact credentials for ID token" (at_app (FindByAccountAndTypes accountID (contact_types scopes))) in
  ret (foldl contact_claim claims creds).

Definition GenerateIDToken (accountID clientID : string) (scopes : list string) (nonce : string) (authTime : Z)
    (accessToken : string) (authMethods : list string) : SM string :=
  let! account := wrap "find account" (at_app (FindAccountByID accountID)) in
  let! now := site_now in
  let! id := at_world uuid_new in
  let claims := base_claims now id accountID clientID nonce authTime authMethods in
  let claims := if bool_decide ("profile" ∈ scopes) then with_profile_claims account claims else claims in
  let! claims := addContactClaims accountID scopes claims in
  let claims := with_at_hash (at_hash accessToken) claims in
  lift_res (wrap_res "sign id token" (id_sign (tc_keyID tcfg) (tc_privateKey tcfg) claims)).

(** ** [userinfo_service.go]

    The members of the answer; a later one of the same name replaces the earlier. *)
Definition first_of (credType : string) (creds : list Credential) : option Credential :=
  head (List.filter (λ c, bool_decide (cr_Type c = credType)) creds).
Definition contact_info (credType key : string) (creds : list Credential) (info : list (string * json)) : list (string * json) :=
  match first_of credType creds with
  | Some c => match cr_Identifier c with
              | Some i => jset (key +:+ "_verified") (JBool (IsVerified (Some c))) (jset key (JStr i) info)
              | None => info end
  | None => info
  end.
Definition profile_info (a : Account) (info : list (string * json)) : list (string * json) :=
  let info := jset "name" (JStr (a_DisplayName a)) info in
  let info := match a_Username a with Some u => jset "preferred_username" (JStr u) info | None => info end in
  let info := match a_AvatarURL a with
              | Some u => if bool_decide (u = "") then info else jset "picture" (JStr u) info | None => info end in
  jset "locale" (JStr (a_Locale a)) info.
Definition scope_info (a : Account) (creds : list Credential) (info : list (string * json)) (scope : string) : list (string * json) :=
  if bool_decide (scope = "profile") then profile_info a info
  else if bool_decide (scope = "email") then contact_info CredentialTypeEmail "email" creds info
  else if bool_decide (scope = "phone") then contact_info CredentialTypePhone "phone_number" creds info
  else info.
Definition GetUserInfo (accountID : string) (scopes : list string) : SM (list (string * json)) :=
  let! account := wrap "find account" (at_app (FindAccountByID accountID)) in
  guard_err (negb (bool_decide (a_Status account = AccountStatusActive))) ErrAccountNotActive ;;
  let! creds := (if bool_decide (contact_types scopes = []) then ret []
                 else wrap "find credentials" (at_app (FindByAccountAndTypes accountID (contact_types scopes)))) in
  ret (foldl (scope_info account creds) [("sub", JStr accountID)] scopes).

(** ** Logout *)
(** The current key first; when it fails, the published keys: the one the header names, or
    all of them when it names none or the current one. *)
Definition parse_hint (tokenString : string) : option IDTokenClaims :=
  match id_parse (jwt_public (tc_privateKey tcfg)) tokenString with
  | Some claims => Some claims
  | None =>
      match id_kid tokenString with
      | Some kid => if negb (bool_decide (kid = "")) && negb (bool_decide (kid = tc_keyID tcfg))
                    then key ← GetPublicKeyByKID kid jwks; id_parse key tokenString
                    else head (omap (λ key, id_parse key tokenString) (GetAllPublicKeys jwks))
      | None => head (omap (λ key, id_parse key tokenString) (GetAllPublicKeys jwks))
      end
  end.
Definition ValidateIDTokenHint (tokenString clientID : string) : res IDTokenClaims :=
  if bool_decide (tokenString = "") then Err (Anon "empty id_token_hint") else
  match parse_hint tokenString with
  | None => Err (Wrap "parse id_token_hint" (Anon "token signature is invalid"))
  | Some claims =>
      if negb (bool_decide (id_Issuer claims = issuer)) then Err (Anon "id_token_hint issuer mismatch")
      else if bool_decide (id_Audience claims = []) then Err (Anon "id_token_hint has no audience")
      else if negb (bool_decide (clientID = "")) && negb (bool_decide (clientID ∈ id_Audience claims))
      then Err (Wrap "token audience" ErrAudienceMismatch)
      else Ok claims
  end.

(** The clients that are told; a failed lookup is only logged. *)
Definition triggerBackChannelLogout (accountID sessionID : string) : SM (list Notification) :=
  let! r := try (at_app (FindBackchannelLogoutClientsByAccountID accountID)) in
  let! now := site_now in
  ret match r with
      | Err _ => []
      | Ok clients => map (λ c, mkNotification (oc_ClientID c) (oc_BackchannelLogoutURI c)
          (generateLogoutToken issuer now (oc_ClientID c) accountID sessionID (oc_BackchannelLogoutSessionRequired c))) clients
      end.
Definition LogoutByAccountID (ctx : Ctx) (accountID : string) : SM (list Notification) :=
  wrap "revoke all sessions for account" (at_sess (RevokeAllForAccount tr accountID)) ;;
  ignore (at_world (RevokeAccountTokens tcfg ctx accountID)) ;;
  triggerBackChannelLogout accountID "".
Definition LogoutBySessionID (ctx : Ctx) (accountID sessionID : string) : SM (list Notification) :=
  wrap "revoke session" (at_sess (RevokeSession tr accountID sessionID)) ;;
  ignore (at_world (RevokeAllForSession ctx sessionID)) ;;
  triggerBackChannelLogout accountID sessionID.
Definition GetFrontChannelLogoutURIs (accountID : string) : SM (list FrontChannelLogoutEntry) :=
  let! clients := wrap "find frontchannel logout clients" (at_app (FindFrontchannelLogoutClientsByAccountID accountID)) in
  ret (map (λ c, mkEntry (oc_FrontchannelLogoutURI c) (oc_FrontchannelLogoutSessionRequired c) (oc_ClientID c)) clients).
End service.
