(* ===== verification/OidcController.v ===== *)
(** * [internal/oidc/controller/oidc_controller.go]: the OpenID Connect endpoints

    The documents of discovery and of the published keys are constant texts and are left
    out. The answer to the front-channel logout is the list of frames of the page. *)
From S2P Require Import Prelude GoTime Json Hash Redis World Cache TokenDomain Blacklist TokenService Session SessionService Url GoStrings AccountDomain Credential OAuthDomain Database ClientRepo AccountRepo Site AccountService AuthMiddleware OidcService.
Local Open Scope Z_scope.

Inductive oidc_answer : Type :=
  | OidcError (status : Z) (message : string)
  | UserInfoIs (info : list (string * json))
  | LoggedOut
  | OidcRedirect (uri : string) (state : option string)
  | FrontChannelPage (frames : list string).

Record logoutRequest : Type := mkLogoutRequest {
  lr_IDTokenHint : string;
  lr_ClientID : string;
  lr_PostLogoutRedirectURI : string;
  lr_State : string;
}.
Definition maxStateLength : Z := 256.

Definition frame_url (issuer sessionID : string) (e : FrontChannelLogoutEntry) : string :=
  fe_URI e +:+ "?iss=" +:+ QueryEscape issuer
  +:+ (if fe_SessionRequired e && negb (bool_decide (sessionID = "")) then "&sid=" +:+ QueryEscape sessionID else "").
Definition buildFrontChannelIframes (issuer sessionID : string) (entries : list FrontChannelLogoutEntry) : list string :=
  map (frame_url issuer sessionID) entries.

(** [strings.Split(s, " ")]; empty pieces stay. *)
Definition scope_list (scope : string) : list string := Split " " scope.

Section controller.
Context {R : Type} `{RedisServer R} `{Postgres} `{IdJwt}.
Context (tcfg : TokenCfg) (scfg : SessionConfig) (issuer : string) (jwks : Jwks) (tr : option (TokenRevoker R)).
#[local] Abbreviation SM := (M (Site R)).

(** After the middleware; [None] when it left no claims. *)
Definition UserInfo (claims : option AccessTokenClaims) : SM oidc_answer :=
  match claims with
  | None => ret (OidcError 401 "authentication required")
  | Some c =>
      let! r := try (GetUserInfo (cl_AccountID c) (scope_list (cl_Scope c))) in
      ret match r with
          | Err e => if errors_is e ErrAccountNotActive then OidcError 403 "account is not active"
                     else OidcError 500 "Failed to get user info"
          | Ok info => UserInfoIs (if hasScope (cl_Scope c) "admin"
                                   then jset "scope" (JStr (cl_Scope c)) (jset "roles" (JArr (map JStr (cl_Roles c))) info)
                                   else info)
          end
  end.

(** Nothing without the header; an invalid one ends the request. *)
Definition validateBearerToken (rq : Request) : SM (res (option AccessTokenClaims)) :=
  if bool_decide (rq_authorization rq = "") then ret (Ok None) else
  let! r := try (at_sess (ValidateBearerToken tcfg scfg tr rq)) in
  ret match r with Ok (c, _) => Ok (Some c) | Err e => Err e end.

(** What a way to log out came to: an answer that ends the request, the client, or nothing. *)
Inductive attempted : Type :=
  | Aborted (a : oidc_answer)
  | Done (clientID : string) (told : list Notification)
  | Skipped.

Definition blacklist_bearer (c : AccessTokenClaims) : SM unit :=
  match cl_ExpiresAt c with
  | Some e => ignore (at_world (RevokeAccessToken (cl_ID c) e))
  | None => ret tt
  end.
Definition tryLogoutByIDTokenHint (ctx : Ctx) (req : logoutRequest) (bearer : option AccessTokenClaims) : SM attempted :=
  match ValidateIDTokenHint tcfg issuer jwks (lr_IDTokenHint req) (lr_ClientID req) with
  | Err e => ret (if errors_is e ErrAudienceMismatch then Aborted (OidcError 400 "audience mismatch") else Skipped)
  | Ok claims =>
      if match bearer with Some b => negb (bool_decide (cl_AccountID b = id_Subject claims)) | None => false end
      then ret (Aborted (OidcError 403 "id_token_hint subject does not match authenticated user")) else
      let! r := try (LogoutByAccountID tcfg issuer tr ctx (id_Subject claims)) in
      match r with
      | Err _ => ret (Aborted (OidcError 500 "logout failed"))
      | Ok told =>
          match bearer with Some b => blacklist_bearer b | None => ret tt end ;;
          ret (Done (if bool_decide (lr_ClientID req = "") then default "" (head (id_Audience claims)) else lr_ClientID req) told)
      end
  end.
Definition tryLogoutByBearerToken (ctx : Ctx) (claims : AccessTokenClaims) : SM attempted :=
  let! r := try (LogoutBySessionID issuer tr ctx (cl_AccountID claims) (cl_SessionID claims)) in
  match r with
  | Err _ => ret (Aborted (OidcError 500 "logout failed"))
  | Ok told => blacklist_bearer claims ;; ret (Done (cl_ClientID claims) told)
  end.

(** The query of the redirect is left to [net/url]. *)
Definition handlePostLogoutRedirect (req : logoutRequest) (clientID : string) : SM oidc_answer :=
  let! r := try (at_app (findByClientID clientID)) in
  match r with
  | Err _ => ret LoggedOut
  | Ok client =>
      let uri := lr_PostLogoutRedirectURI req in
      if negb (ValidatePostLogoutRedirectURI (Some client) uri) then ret (OidcError 400 "invalid post_logout_redirect_uri")
      else if bool_decide (lr_State req = "") then ret (OidcRedirect uri None)
      else if maxStateLength <? slen (lr_State req) then ret (OidcError 400 "state parameter too long")
      else ret (match url_parse uri with
                | None => OidcError 400 "invalid post_logout_redirect_uri"
                | Some _ => OidcRedirect uri (Some (lr_State req)) end)
  end.

(** The end of a logout, with the relying parties told. *)
Definition finish_logout (req : logoutRequest) (clientID : string) (performed : bool) (told : list Notification) :
    SM (oidc_answer * list Notification) :=
  if negb (bool_decide (lr_PostLogoutRedirectURI req = "")) && negb (bool_decide (clientID = "")) then
    let! a := handlePostLogoutRedirect req clientID in ret (a, told)
  else ret (if performed then LoggedOut else OidcError 401 "authentication required", told).
Definition Logout (ctx : Ctx) (rq : Request) (form : option logoutRequest) : SM (oidc_answer * list Notification) :=
  match form with
  | None => ret (OidcError 400 "invalid request", [])
  | Some req =>
      let! b := validateBearerToken rq in
      match b with
      | Err _ => ret (OidcError 401 "invalid session", [])
      | Ok bearer =>
          let! hint := (if bool_decide (lr_IDTokenHint req = "") then ret Skipped else tryLogoutByIDTokenHint ctx req bearer) in
          match hint with
          | Aborted a => ret (a, [])
          | Done clientID told =>
              match bearer with
              | Some c =>
                  if bool_decide (clientID = "") then
                    let! again := tryLogoutByBearerToken ctx c in
                    match again with
                    | Aborted a => ret (a, told)
                    | Done clientID told' => finish_logout req clientID true (told ++ told')
                    | Skipped => finish_logout req clientID true told
                    end
                  else finish_logout req clientID true told
              | None => finish_logout req clientID true told
              end
          | Skipped =>
              match bearer with
              | Some c =>
                  let! by_token := tryLogoutByBearerToken ctx c in
                  match by_token with
                  | Aborted a => ret (a, [])
                  | Done clientID told => finish_logout req clientID true told
                  | Skipped => finish_logout req "" true []
                  end
              | None => finish_logout req "" false []
              end
          end
      end
  end.

(** ** Front channel *)
Definition FrontChannelLogout (rq : Request) (form : option (string * string)) : SM oidc_answer :=
  match form with
  | None => ret (OidcError 400 "invalid request")
  | Some (hint, clientID) =>
      let! who := (if bool_decide (hint = "") then
          let! b := validateBearerToken rq in
          ret match b with
              | Err _ => inl (OidcError 401 "invalid session")
              | Ok None => inl (OidcError 401 "authentication required")
              | Ok (Some c) => inr (cl_AccountID c, cl_SessionID c) end
        else ret match ValidateIDTokenHint tcfg issuer jwks hint clientID with
                 | Err _ => inl (OidcError 400 "invalid id_token_hint")
                 | Ok claims => inr (id_Subject claims, "") end) in
      match who with
      | inl a => ret a
      | inr (accountID, sessionID) =>
          let! r := try (GetFrontChannelLogoutURIs accountID) in
          ret match r with
              | Err _ => OidcError 500 "logout failed"
              | Ok entries => FrontChannelPage (buildFrontChannelIframes issuer sessionID entries) end
      end
  end.
End controller.
