(* ===== verification/OidcProps.v ===== *)
(** * Theorems of the OpenID Connect services *)
From S2P Require Import Prelude GoTime Json Hash Redis World Cache Footprint TokenDomain Blacklist TokenService TokenProps AccessProps Session SessionService SessionProps ServiceFootprints Url GoStrings AccountDomain Credential OAuthDomain Database ClientRepo AccountRepo Site AccountService AuthMiddleware OidcService OidcController.
Local Open Scope Z_scope.

(** ** Queries on accounts *)
Lemma sort_by_elem {A} (le : A → A → bool) l x : x ∈ sort_by le l ↔ x ∈ l.
Proof.
  induction l as [|y l IH]; [done|]. rewrite elem_of_cons, <-IH. clear IH. cbn [sort_by foldr].
  change (foldr _ [] l) with (sort_by le l). generalize (sort_by le l) as m. intros m.
  induction m as [|z m IHm]; [by rewrite list_elem_of_singleton, elem_of_nil; naive_solver|].
  destruct (le y z); [by rewrite elem_of_cons|]. rewrite !elem_of_cons, IHm. naive_solver.
Qed.
Lemma credentials_of_elem p a types c : c ∈ credentials_of p a types →
  cr_AccountID c = a ∧ cr_Type c ∈ types ∧ live_credential c = true.
Proof.
  unfold credentials_of, primary_first, rows_where. rewrite sort_by_elem. intros [_ Hc]%list_elem_of_In%filter_In.
  rewrite !andb_true_iff, !bool_decide_eq_true in Hc. naive_solver.
Qed.

Section queries.
Context {R : Type} `{Postgres}.
Implicit Types s : Site R.

Lemma found_credentials a types (ap : App R) :
  wp (FindByAccountAndTypes a types) (λ r _, ∀ l, r = Ok l → Forall (λ c, cr_AccountID c = a ∧ cr_Type c ∈ types) l) ap.
Proof.
  unfold FindByAccountAndTypes. case_bool_decide; [wp_step; by intros l [= <-]|]. apply wp_wrap.
  eapply wp_mono; [apply (statement_result _ (Forall (λ c, cr_AccountID c = a ∧ cr_Type c ∈ types))); [|done]|].
  - cbn. intros t ids x [= <-]. apply Forall_forall. intros c Hc%credentials_of_elem. naive_solver.
  - intros [l|e] a' [_ Hl]; cbn; naive_solver.
Qed.
Lemma found_account a (ap : App R) :
  wp (FindAccountByID a) (λ r _, ∀ x, r = Ok x → ∃ t, account_row t a false = Some x) ap.
Proof.
  unfold FindAccountByID, AccountRepo_FindByID, findAccountByID. wp_step. apply wp_wrap. wp_unfold. unfold query, statement.
  destruct (next_fate _) as [x d]. destruct x; cbn [fst snd wrap_res]; [|done..].
  unfold found. cbn. destruct (account_row _ _ _) as [y|] eqn:Hrow; [|done]. wp_step. intros ? [= <-]. eauto.
Qed.
End queries.

(** ** The claims a scope reveals *)
Definition reveals (scopes : list string) (c : IDTokenClaims) : Prop :=
  ("profile" ∉ scopes → id_Name c = "" ∧ id_PreferredUsername c = "" ∧ id_Picture c = "" ∧ id_Locale c = "") ∧
  ("email" ∉ scopes → id_Email c = "" ∧ id_EmailVerified c = None) ∧
  ("phone" ∉ scopes → id_PhoneNumber c = "" ∧ id_PhoneVerified c = None).
(** The part of the claims that no scope changes. *)
Definition core (c : IDTokenClaims) : string * string * list string * Z * Z * string * string * string * option Z * list string :=
  (id_Issuer c, id_Subject c, id_Audience c, id_ExpiresAt c, id_IssuedAt c, id_ID c, id_AZP c, id_Nonce c, id_AuthTime c, id_AMR c).

Lemma contact_types_in scopes t : t ∈ contact_types scopes →
  (t = CredentialTypeEmail ∧ "email" ∈ scopes) ∨ (t = CredentialTypePhone ∧ "phone" ∈ scopes).
Proof. unfold contact_types. repeat case_bool_decide; set_solver. Qed.
Lemma contact_claims_reveal scopes l c : Forall (λ x, cr_Type x ∈ contact_types scopes) l → reveals scopes c →
  reveals scopes (foldl contact_claim c l) ∧ core (foldl contact_claim c l) = core c.
Proof.
  revert c. induction l as [|x l IH]; intros c Hl Hc; [done|]. apply Forall_cons in Hl as [Hx Hl]. cbn [foldl].
  assert (reveals scopes (contact_claim c x) ∧ core (contact_claim c x) = core c) as [Hr Hcore];
    [|destruct (IH (contact_claim c x) Hl Hr) as [? ->]; done].
  unfold contact_claim. destruct (cr_Identifier x) as [i|]; [|done]. destruct Hc as (Hp&He&Hph).
  apply contact_types_in in Hx as [[-> Hin]|[-> Hin]]; (split; [|done]); split_and!; cbn; intros; try done; naive_solver.
Qed.

Section id_tokens.
Context {R : Type} `{RedisServer R} `{Postgres} `{IdJwt} (tcfg : TokenCfg) (issuer : string) (expiry : Z).
Implicit Types s : Site R.

(** An ID token says what was granted and no more. It verifies under the published key;
    it names the account, the client as its only audience and authorized party, the
    nonce, the time and methods of the login, the hash of the access token it was
    issued with, and expires after the configured lifetime; profile, address and
    telephone claims are empty unless their scope was granted. *)
Theorem id_token_sound accountID clientID scopes nonce authTime accessToken authMethods s tok s' :
  GenerateIDToken tcfg issuer expiry accountID clientID scopes nonce authTime accessToken authMethods s = (Ok tok, s') →
  ∃ c id, id_parse (jwt_public (tc_privateKey tcfg)) tok = Some c ∧
    core c = (issuer, accountID, [clientID], NewNumericDate (w_now (si_world s) + expiry), NewNumericDate (w_now (si_world s)), id,
              clientID, nonce, Some (Unix authTime), authMethods) ∧
    id_ATHash c = at_hash accessToken ∧ reveals scopes c.
Proof.
  intros Hrun.
  enough (wp (GenerateIDToken tcfg issuer expiry accountID clientID scopes nonce authTime accessToken authMethods)
    (λ r _, ∀ tok, r = Ok tok → ∃ c id, id_parse (jwt_public (tc_privateKey tcfg)) tok = Some c ∧
      core c = (issuer, accountID, [clientID], NewNumericDate (w_now (si_world s) + expiry), NewNumericDate (w_now (si_world s)), id,
                clientID, nonce, Some (Unix authTime), authMethods) ∧
      id_ATHash c = at_hash accessToken ∧ reveals scopes c) s) as Hwp by exact (wp_intro _ _ _ _ _ Hrun Hwp tok eq_refl).
  clear tok s' Hrun. unfold GenerateIDToken. wp_step. apply wp_wrap.
  pose proof (at_app_world (FindAccountByID accountID) s) as Hw. unfold wp at 1.
  destruct (at_app (FindAccountByID accountID) s) as [[account|e] s1]; cbn [fst snd wrap_res] in *; [|done].
  assert (si_world s1 = si_world s) as Hw1.
  { apply Hw. unfold FindAccountByID, AccountRepo_FindByID, findAccountByID. apply keeps_world_bind;
      [apply keeps_world_wrap, keeps_world_statement|]. intros [x|]; [apply keeps_world_ret|apply keeps_world_fail]. }
  wp_step. apply wp_gets. wp_step. apply wp_at_world. rewrite Hw1.
  unfold wp at 1, uuid_new. destruct (w_uuid (si_world s)) as [|id l]; [done|]. cbn [fst snd].
  set (s2 := put_world _ _). set (c0 := base_claims _ _ _ _ _ _ _ _ _).
  set (c1 := if bool_decide ("profile" ∈ scopes) then _ else c0).
  assert (reveals scopes c1 ∧ core c1 = core c0) as [Hr1 Hc1].
  { unfold c1. case_bool_decide as Hp; (split; [|done]); split_and!; intros; done. }
  wp_step. unfold addContactClaims. 
  assert (∀ c s3, reveals scopes c ∧ core c = core c0 → wp (lift_res (wrap_res "sign id token"
      (id_sign (tc_keyID tcfg) (tc_privateKey tcfg) (with_at_hash (at_hash accessToken) c))))
    (λ r _, ∀ tok, r = Ok tok → ∃ c id, id_parse (jwt_public (tc_privateKey tcfg)) tok = Some c ∧
      core c = (issuer, accountID, [clientID], NewNumericDate (w_now (si_world s) + expiry), NewNumericDate (w_now (si_world s)), id,
                clientID, nonce, Some (Unix authTime), authMethods) ∧
      id_ATHash c = at_hash accessToken ∧ reveals scopes c) s3) as Hsign.
  { intros c s3 [Hr Hc]. wp_step. intros tok Htok. destruct (id_sign _ _ _) as [t|] eqn:Hs; [|done]. injection Htok as ->.
    exists (with_at_hash (at_hash accessToken) c), id. split; [by apply (id_parse_signed _ _ _ _ Hs)|]. split; [exact Hc|by split]. }
  case_bool_decide as Hct; [wp_step; by apply Hsign|]. wp_step. apply wp_wrap, wp_at_app.
  eapply wp_mono; [apply found_credentials|]. intros [creds|e] a Hcreds; cbn [wrap_res]; [|done]. specialize (Hcreds _ eq_refl).
  wp_step. apply Hsign. destruct (contact_claims_reveal scopes creds c1) as [Hr Hc]; [|done|by rewrite Hc].
  eapply Forall_impl; [exact Hcreds|]. naive_solver.
Qed.
End id_tokens.

(** ** User information *)
Section userinfo.
Context {R : Type} `{Postgres}.
Implicit Types s : Site R.

Definition info_ok (a : string) (creds : list Credential) (scopes : list string) (info : list (string * json)) : Prop :=
  jget "sub" info = Some (JStr a) ∧
  (∀ k v, jget k info = Some v → k ∈ ["name"; "preferred_username"; "picture"; "locale"] → "profile" ∈ scopes) ∧
  (∀ k v, jget k info = Some v → k ∈ ["email"; "email_verified"] → "email" ∈ scopes) ∧
  (∀ k v, jget k info = Some v → k ∈ ["phone_number"; "phone_number_verified"] → "phone" ∈ scopes) ∧
  (∀ v, jget "email" info = Some v → ∃ c i, c ∈ creds ∧ cr_Type c = CredentialTypeEmail ∧ cr_Identifier c = Some i ∧ v = JStr i).

Lemma first_of_elem t creds c : first_of t creds = Some c → c ∈ creds ∧ cr_Type c = t.
Proof.
  unfold first_of. destruct (List.filter _ creds) as [|y l] eqn:Hf; [done|]. intros [= ->].
  assert (c ∈ List.filter (λ c, bool_decide (cr_Type c = t)) creds) as Hin by (rewrite Hf; left).
  apply list_elem_of_In, filter_In in Hin as [? ?%bool_decide_eq_true]. split; [by apply list_elem_of_In|done].
Qed.
(** One member more. *)
Lemma info_set a creds scopes info k v : info_ok a creds scopes info → k ≠ "sub" → k ≠ "email" →
  (k ∈ ["name"; "preferred_username"; "picture"; "locale"] → "profile" ∈ scopes) →
  (k ∈ ["email"; "email_verified"] → "email" ∈ scopes) →
  (k ∈ ["phone_number"; "phone_number_verified"] → "phone" ∈ scopes) → info_ok a creds scopes (jset k v info).
Proof.
  intros (Hs&Hp&He&Hph&Hv) Hsub Hem H1 H2 H3. split_and!.
  - by rewrite jget_jset, decide_False.
  - intros k' v'. rewrite jget_jset. case_decide; [intros _; subst; done|apply Hp].
  - intros k' v'. rewrite jget_jset. case_decide; [intros _; subst; done|apply He].
  - intros k' v'. rewrite jget_jset. case_decide; [intros _; subst; done|apply Hph].
  - intros v'. rewrite jget_jset, decide_False by done. apply Hv.
Qed.
Ltac member := apply info_set; [|discriminate|discriminate|set_solver|set_solver|set_solver].
Lemma info_email a creds scopes info c i : info_ok a creds scopes info → c ∈ creds → cr_Type c = CredentialTypeEmail →
  cr_Identifier c = Some i → "email" ∈ scopes → info_ok a creds scopes (jset "email" (JStr i) info).
Proof.
  intros (Hs&Hp&He&Hph&Hv) Hin Ht Hi Hsc. split_and!.
  - by rewrite jget_jset, decide_False.
  - intros k' v'. rewrite jget_jset. case_decide; [subst; set_solver|apply Hp].
  - done.
  - intros k' v'. rewrite jget_jset. case_decide; [subst; set_solver|apply Hph].
  - intros v'. rewrite jget_jset, decide_True by done. intros [= <-]. eauto 10.
Qed.
Lemma scope_info_ok x a creds scopes sc info : sc ∈ scopes → info_ok a creds scopes info →
  info_ok a creds scopes (scope_info x creds info sc).
Proof.
  intros Hsc Hi. unfold scope_info. case_bool_decide as H1; [|case_bool_decide as H2; [|case_bool_decide as H3; [|done]]]; subst sc.
  - unfold profile_info. member. destruct (a_AvatarURL x) as [u|]; [case_bool_decide; [|member]|];
      (destruct (a_Username x); [member|]; by member).
  - unfold contact_info. destruct (first_of _ _) as [c|] eqn:Hf; [|done]. apply first_of_elem in Hf as [Hin Ht].
    destruct (cr_Identifier c) as [i|] eqn:Hid; [|done]. cbn. member. by apply (info_email _ _ _ _ c).
  - unfold contact_info. destruct (first_of _ _) as [c|]; [|done]. destruct (cr_Identifier c); [|done]. cbn. member. by member.
Qed.

(** The user information endpoint reveals what the token's scopes allow. An answer is for
    a live active account; it names the account of the token; a profile, address or
    telephone member appears only with its scope, and the address is one of the account's. *)
Theorem userinfo_respects_scopes accountID scopes s info s' :
  GetUserInfo accountID scopes s = (Ok info, s') →
  ∃ a creds, a_Status a = AccountStatusActive ∧ (∃ p, account_row p accountID false = Some a) ∧
    Forall (λ c, cr_AccountID c = accountID) creds ∧ info_ok accountID creds scopes info.
Proof.
  intros Hrun.
  enough (wp (GetUserInfo accountID scopes) (λ r _, ∀ info, r = Ok info →
    ∃ a creds, a_Status a = AccountStatusActive ∧ (∃ p, account_row p accountID false = Some a) ∧
      Forall (λ c, cr_AccountID c = accountID) creds ∧ info_ok accountID creds scopes info) s) as Hwp
    by exact (wp_intro _ _ _ _ _ Hrun Hwp info eq_refl).
  clear info s' Hrun. unfold GetUserInfo. wp_step. apply wp_wrap, wp_at_app. eapply wp_mono; [apply found_account|].
  intros [a|e] a1 Ha; cbn [wrap_res]; [|done]. destruct (Ha a eq_refl) as [p Hp].
  wp_step. apply wp_guard_err; [done|]. intros Hst%negb_false_iff%bool_decide_eq_true.
  assert (∀ creds s1, Forall (λ c, cr_AccountID c = accountID) creds →
    wp (ret (foldl (scope_info a creds) [("sub", JStr accountID)] scopes)) (λ r _, ∀ info, r = Ok info →
      ∃ a creds, a_Status a = AccountStatusActive ∧ (∃ p, account_row p accountID false = Some a) ∧
        Forall (λ c, cr_AccountID c = accountID) creds ∧ info_ok accountID creds scopes info) s1) as Hend.
  { intros creds s1 Hcreds. wp_step. intros info [= <-]. exists a, creds. split; [done|]. split; [eauto|]. split; [done|].
    assert (∀ l, (∀ x, x ∈ l → x ∈ scopes) → ∀ i, info_ok accountID creds scopes i → info_ok accountID creds scopes (foldl (scope_info a creds) i l)) as Hf.
    { intros l. induction l as [|x l IH]; intros Hl i Hi; [done|]. cbn [foldl]. apply IH; [set_solver|].
      apply scope_info_ok; [|done]. apply Hl. left. }
    apply Hf; [done|]. split_and!; [done|..]; cbn; intros *; repeat case_decide; set_solver. }
  wp_step. case_bool_decide; [wp_step; by apply Hend|]. apply wp_wrap, wp_at_app.
  eapply wp_mono; [apply found_credentials|]. intros [creds|e] a2 Hcreds; cbn [wrap_res]; [|done]. apply Hend.
  eapply Forall_impl; [exact (Hcreds _ eq_refl)|]. naive_solver.
Qed.
End userinfo.

(** ** Published keys *)
Inductive jwks_step : Jwks → Jwks → Prop :=
  | jk_reload j : jwks_step j (Reload j)
  | jk_clear j : jwks_step j (ClearPreviousKey j).
(** The published document never has another key than the one in use. Whatever sequence
    of reloads and clearings follows the start, every entry is the key of the process, so
    that no previous key is ever found, by its identifier or among all. *)
Theorem published_keys_are_current kid public j :
  rtc jwks_step (NewJWKSService kid public) j →
  Forall (λ k, k = (kid, public)) (published j) ∧
  (∀ kid', kid' ≠ kid → GetPublicKeyByKID kid' j = None) ∧ Forall (λ k, k = public) (GetAllPublicKeys j).
Proof.
  intros Hrun.
  assert (jk_current j = (kid, public) ∧ (jk_previousKey j = None ∨ jk_previousKey j = Some (kid, public))) as [Hc Hp].
  { assert (∀ j0 : Jwks, rtc jwks_step j0 j → jk_current j0 = (kid, public) ∧ (jk_previousKey j0 = None ∨ jk_previousKey j0 = Some (kid, public)) →
      jk_current j = (kid, public) ∧ (jk_previousKey j = None ∨ jk_previousKey j = Some (kid, public))) as Hinv.
    { clear Hrun. intros j0 Hrun. induction Hrun as [|x y z Hstep _ IH]; [done|]. intros [Hc Hp]. apply IH.
      destruct Hstep; cbn; rewrite Hc; auto. }
    apply (Hinv _ Hrun). by split; [|left]. }
  unfold GetPublicKeyByKID, GetAllPublicKeys, published. rewrite Hc. split_and!.
  - destruct Hp as [-> | ->]; repeat constructor.
  - intros kid' Hne. destruct Hp as [-> | ->]; cbn; by rewrite !bool_decide_false.
  - destruct Hp as [-> | ->]; repeat constructor.
Qed.

(** ** Logout *)
Section logout.
Context {R : Type} `{RedisServer R} `{Postgres} `{IdJwt}.
Context (tcfg : TokenCfg) (scfg : SessionConfig) (issuer : string) (jwks : Jwks).
Implicit Types s : Site R.

(** A notification goes to a live client the account consented to, for that client. *)
Definition told_rightly (accountID sessionID : string) (n : Notification) : Prop :=
  ∃ t c oc, oc ∈ map snd (map_to_list (t_consents t)) ∧ co_AccountID oc = accountID ∧ co_ClientID oc = oc_ID c ∧ live_consent oc = true ∧
    c ∈ map snd (map_to_list (t_clients t)) ∧ live_client c = true ∧
    nt_ClientID n = oc_ClientID c ∧ nt_URI n = oc_BackchannelLogoutURI c ∧ nt_URI n ≠ "" ∧
    lo_Issuer (nt_Claims n) = issuer ∧ lo_Subject (nt_Claims n) = accountID ∧ lo_Audience (nt_Claims n) = [oc_ClientID c] ∧
    (lo_SID (nt_Claims n) = "" ∨ lo_SID (nt_Claims n) = sessionID ∧ oc_BackchannelLogoutSessionRequired c = true).

Lemma logout_clients_elem uri a t c : c ∈ logout_clients uri a t →
  uri c ≠ "" ∧ live_client c = true ∧ c ∈ map snd (map_to_list (t_clients t)) ∧
  ∃ oc, oc ∈ map snd (map_to_list (t_consents t)) ∧ co_AccountID oc = a ∧ co_ClientID oc = oc_ID c ∧ live_consent oc = true.
Proof.
  unfold logout_clients, rows_where. intros [Hin Hc]%list_elem_of_In%filter_In.
  rewrite !andb_true_iff, negb_true_iff, bool_decide_eq_false, existsb_exists in Hc. destruct Hc as [[Hu Hl] (oc&Hoc&Hb)].
  rewrite !andb_true_iff, !bool_decide_eq_true in Hb. split_and!; [done..|by apply list_elem_of_In|].
  exists oc. split; [by apply list_elem_of_In|]. naive_solver.
Qed.
Lemma trigger_spec a sid s :
  wp (triggerBackChannelLogout issuer a sid) (λ r s', si_world s' = si_world s ∧ ∃ told, r = Ok told ∧ Forall (told_rightly a sid) told) s.
Proof.
  unfold triggerBackChannelLogout. wp_step. wp_step. apply wp_at_app. unfold FindBackchannelLogoutClientsByAccountID. apply wp_wrap.
  pose proof (keeps_world_statement (R := R) (λ t ids, (Ok (logout_clients oc_BackchannelLogoutURI a t), t, ids)) (app_of s)) as Hw.
  pose proof (statement_result (R := R) (λ t ids, (Ok (logout_clients oc_BackchannelLogoutURI a t), t, ids))
    (λ l, ∃ t, l = logout_clients oc_BackchannelLogoutURI a t)) as Hres.
  destruct (Hres ltac:(by intros t ids x [= <-]; eauto) (app_of s) I) as [_ Hl]. unfold wp.
  destruct (statement _ (app_of s)) as [r ap]. cbn [fst snd] in *.
  assert (si_world (put_app ap s) = si_world s) as Hs by (unfold put_app, si_world; cbn; by rewrite Hw).
  destruct r as [l|e]; cbn [wrap_res]; cbn -[put_app]; (split; [done|]); eexists; (split; [done|]); [|done].
  destruct (Hl l eq_refl) as [t ->]. apply Forall_forall. intros n (c&->&Hc)%list_elem_of_fmap.
  apply logout_clients_elem in Hc as (Hu&Hlive&Hin&oc&Hoc&Hacc&Hcl&Hloc). exists t, c, oc. cbn.
  split_and!; try done. destruct (_ && _) eqn:Hsid; [right|by left]. by apply andb_true_iff in Hsid as [-> _].
Qed.

(** Logging an account out ends its sessions and tells the relying parties. When the
    logout by account reports success, every session the account's index listed is gone and
    so is the index; each notification goes to the registered address of a live client with
    a live consent of this account, with a token of this issuer for that client alone. *)
Theorem logout_ends_account_sessions (tr : TokenRevoker R) ctx a s told s' S :
  set_of (view (si_world s) (buildAccountSessionsKey a)) = Some S →
  LogoutByAccountID tcfg issuer (Some tr) ctx a s = (Ok told, s') →
  view (si_world s') (buildAccountSessionsKey a) = None ∧
  (∀ sid, sid ∈ S → view (si_world s') (buildSessionKey sid) = None) ∧ Forall (told_rightly a "") told.
Proof.
  intros HS Hrun.
  enough (wp (LogoutByAccountID tcfg issuer (Some tr) ctx a) (λ r s', ∀ told, r = Ok told →
    view (si_world s') (buildAccountSessionsKey a) = None ∧
    (∀ sid, sid ∈ S → view (si_world s') (buildSessionKey sid) = None) ∧ Forall (told_rightly a "") told) s) as Hwp
    by exact (wp_intro _ _ _ _ _ Hrun Hwp told eq_refl).
  clear told s' Hrun. unfold LogoutByAccountID. wp_step. apply wp_wrap, wp_at_sess. unfold wp at 1.
  destruct (RevokeAllForAccount (Some tr) a (si_sess s)) as [[[]|e] x] eqn:Hrev; cbn [fst snd wrap_res]; [|done].
  apply (revoke_all_for_account_sound tr a (si_sess s) x S HS) in Hrev as [Hidx Hgone].
  wp_step. unfold wp at 1, ignore. cbn [fst snd]. set (s1 := put_sess x s).
  pose proof (touches_RevokeAccountTokens tcfg ctx a (si_world s1)) as (_&_&Hv).
  rewrite <-(at_world_world (RevokeAccountTokens tcfg ctx a) s1) in Hv. set (s2 := (at_world _ s1).2) in *.
  eapply wp_mono; [apply trigger_spec|]. intros r s3 [Hw (l&->&Hl)] ? [= <-]. rewrite Hw.
  assert (∀ p k, forallb (apart p) token_family = true →
    view (si_world s2) (p +:+ k) = view (si_world s1) (p +:+ k)) as Hsame.
  { intros p k Hp. apply Hv. apply (under_apart [p]); [by apply andb_true_iff|]. exists p, k. split; [left|done]. }
  split_and!; [|intros sid Hsid|exact Hl].
  - etransitivity; [apply (Hsame "account_sessions:" a); reflexivity|exact Hidx].
  - etransitivity; [apply (Hsame "session:" sid); reflexivity|by apply Hgone].
Qed.

(** *** Who may log out *)
Definition by_hint (req : logoutRequest) (claims : IDTokenClaims) : Prop :=
  lr_IDTokenHint req ≠ "" ∧ ValidateIDTokenHint tcfg issuer jwks (lr_IDTokenHint req) (lr_ClientID req) = Ok claims.
Definition by_bearer s (rq : Request) (c : AccessTokenClaims) : Prop :=
  rq_authorization rq ≠ "" ∧ bearer_accepted tcfg scfg (si_sess s) rq (mkAuthCfg "" true "__Host-access_token") c.
(** The request proved who it is; two proofs agree. *)
Definition identified s rq req : Prop :=
  (∃ claims, by_hint req claims ∧ (rq_authorization rq ≠ "" → ∃ c, by_bearer s rq c ∧ cl_AccountID c = id_Subject claims))
  ∨ (∃ c, by_bearer s rq c).
Definition effective_answer (a : oidc_answer) (told : list Notification) : Prop :=
  told ≠ [] ∨ match a with LoggedOut | OidcRedirect _ _ => True | _ => False end.
(** Redirects go to an address the client registered. *)
Definition redirect_ok (req : logoutRequest) (a : oidc_answer) : Prop :=
  ∀ uri st, a = OidcRedirect uri st → uri = lr_PostLogoutRedirectURI req ∧
    ∃ t clientID client, client_row t clientID = Some client ∧ ValidatePostLogoutRedirectURI (Some client) uri = true.

Lemma wp_bearer tr rq s : 0 < sc_ttl scfg →
  wp (validateBearerToken tcfg scfg tr rq) (λ r _, ∃ b, r = Ok b ∧ (b = Ok None ↔ rq_authorization rq = "") ∧
    ∀ c, b = Ok (Some c) → by_bearer s rq c) s.
Proof.
  intros Httl. unfold validateBearerToken. case_bool_decide as Hh; [wp_step; eexists; split; [done|]; by split|].
  wp_step. wp_step. apply wp_at_sess. eapply wp_mono; [by apply validate_bearer_ok|].
  intros [[c p]|e] x Hc; wp_step; eexists; (split; [done|]); (split; [by split|]); [|done].
  intros ? [= <-]. split; [done|]. by apply (Hc c p).
Qed.
Lemma found_client cid (ap : App R) :
  wp (findByClientID cid) (λ r _, ∀ c, r = Ok c → ∃ t, client_row t cid = Some c) ap.
Proof.
  unfold findByClientID. wp_step. apply wp_wrap. wp_unfold. unfold statement. destruct (next_fate _) as [x d].
  destruct x; cbn [fst snd wrap_res]; [|done..]. destruct (client_row _ _) as [c|] eqn:Hrow; [|done].
  wp_step. intros ? [= <-]. eauto.
Qed.
Lemma redirect_spec req cid s : wp (handlePostLogoutRedirect req cid) (λ r _, ∃ a, r = Ok a ∧ redirect_ok req a) s.
Proof.
  unfold handlePostLogoutRedirect. wp_step. wp_step. apply wp_at_app. eapply wp_mono; [apply found_client|].
  assert (∀ a, (∀ u st, a ≠ OidcRedirect u st) → ∃ a', Ok a = Ok a' ∧ redirect_ok req a') as Hno
    by (intros a Ha; exists a; split; [done|]; intros u st ->; by destruct (Ha u st)).
  intros [client|e] ap Hc; [|wp_step; by apply Hno]. destruct (Hc client eq_refl) as [t Ht].
  destruct (ValidatePostLogoutRedirectURI (Some client) (lr_PostLogoutRedirectURI req)) eqn:Hv; cbn [negb]; [|wp_step; by apply Hno].
  assert (∀ st, ∃ a', Ok (OidcRedirect (lr_PostLogoutRedirectURI req) st) = Ok a' ∧ redirect_ok req a') as Hok.
  { intros st. eexists. split; [done|]. intros u st' [= <- _]. split; [done|]. by exists t, cid, client. }
  case_bool_decide; [wp_step; by apply Hok|]. destruct (_ <? _); [wp_step; by apply Hno|].
  wp_step. destruct (url_parse _); [by apply Hok|by apply Hno].
Qed.
Lemma finish_spec req cid performed told (Q : oidc_answer * list Notification → Prop) s :
  (∀ a, redirect_ok req a → (performed = false → cid = "" → a = OidcError 401 "authentication required") → Q (a, told)) →
  wp (finish_logout req cid performed told) (λ r _, ∃ x, r = Ok x ∧ Q x) s.
Proof.
  intros HQ. unfold finish_logout. destruct (_ && _) eqn:Hr.
  - wp_step. eapply wp_mono; [apply redirect_spec|]. intros r s1 (a&->&Ha). wp_step. eexists. split; [done|]. apply HQ; [done|].
    intros _ ->. by rewrite andb_false_r in Hr.
  - wp_step. eexists. split; [done|]. apply HQ; [by destruct performed|]. by intros ->.
Qed.

(** What the two ways of logging out come to. *)
Definition attempted_ok (P : Prop) (t : attempted) : Prop :=
  match t with Aborted a => ∃ st msg, a = OidcError st msg | Done _ _ => P | Skipped => True end.
Lemma blacklist_ok c s : wp (blacklist_bearer c) (λ r _, ∃ u, r = Ok u) s.
Proof. unfold blacklist_bearer. destruct (cl_ExpiresAt c); by eexists. Qed.
Lemma bearer_logout_spec tr ctx c s :
  wp (tryLogoutByBearerToken issuer tr ctx c) (λ r _, ∃ t, r = Ok t ∧ attempted_ok True t) s.
Proof.
  unfold tryLogoutByBearerToken. wp_step. wp_step. eapply (wp_mono _ (λ _ _, True)); [done|]. intros [told|e] s1 _.
  - wp_step. eapply wp_mono; [apply blacklist_ok|]. intros r s2 [u ->]. wp_step. by eexists.
  - wp_step. eexists. split; [done|]. by do 2 eexists.
Qed.
Lemma hint_spec tr ctx req bearer (P : Prop) s :
  (∀ claims, ValidateIDTokenHint tcfg issuer jwks (lr_IDTokenHint req) (lr_ClientID req) = Ok claims →
     (∀ c, bearer = Some c → cl_AccountID c = id_Subject claims) → P) →
  wp (tryLogoutByIDTokenHint tcfg issuer jwks tr ctx req bearer) (λ r _, ∃ t, r = Ok t ∧ attempted_ok P t) s.
Proof.
  intros HP. unfold tryLogoutByIDTokenHint. destruct (ValidateIDTokenHint _ _ _ _ _) as [claims|e].
  2: { wp_step. eexists. split; [done|]. destruct (errors_is e _); [by do 2 eexists|done]. }
  destruct (match bearer with Some b => _ | None => false end) eqn:Hm; [wp_step; eexists; split; [done|]; by do 2 eexists|].
  assert P as HPP.
  { apply (HP claims); [done|]. intros c ->. by apply negb_false_iff, bool_decide_eq_true in Hm. }
  wp_step. wp_step. eapply (wp_mono _ (λ _ _, True)); [done|]. intros [told|e] s1 _.
  - wp_step. eapply (wp_mono _ (λ r _, ∃ u, r = Ok u)); [destruct bearer; [apply blacklist_ok|by eexists]|].
    intros r s2 [u ->]. wp_step. by eexists.
  - wp_step. eexists. split; [done|]. by do 2 eexists.
Qed.

(** Nobody is logged out without proof. When the logout endpoint ends a session or tells
    a relying party, the request carried an ID token of this issuer whose signature checks
    for the client it names, or an accepted bearer token; with both, they name the
    same account; and a redirect goes to an address registered by a live client. *)
Theorem logout_is_authenticated tr ctx rq req s a told s' :
  0 < sc_ttl scfg → Logout tcfg scfg issuer jwks tr ctx rq (Some req) s = (Ok (a, told), s') →
  (effective_answer a told → identified s rq req) ∧ redirect_ok req a.
Proof.
  intros Httl Hrun.
  set (Q := λ x, (effective_answer x.1 x.2 → identified s rq req) ∧ redirect_ok req x.1).
  enough (wp (Logout tcfg scfg issuer jwks tr ctx rq (Some req)) (λ r _, ∃ x, r = Ok x ∧ Q x) s) as Hwp.
  { destruct (wp_intro _ _ _ _ _ Hrun Hwp) as (x&[= <-]&HQ). exact HQ. }
  clear a told s' Hrun.
  assert (∀ st msg, Q (OidcError st msg, [])) as Herr by (intros st msg; split; [by intros [?|?]|done]).
  assert (∀ a told, identified s rq req → redirect_ok req a → Q (a, told)) as Hid by by split.
  unfold Logout. wp_step. eapply wp_mono; [by apply wp_bearer|]. intros r s1 (b&->&Hnone&Hb).
  destruct b as [bearer|e]; [|wp_step; eexists; split; [done|apply Herr]].
  assert (∀ c, bearer = Some c → identified s rq req) as Hi by (intros c ->; right; exists c; by apply Hb).
  wp_step. eapply (wp_mono _ (λ r _, ∃ h, r = Ok h ∧ match h with
    | Aborted a => ∃ st msg, a = OidcError st msg
    | Done cid told => identified s rq req
    | Skipped => True end)).
  { case_bool_decide as Hhint; [wp_step; by eexists|]. apply hint_spec. intros claims Hv Hagree. left. exists claims. split; [by split|].
    intros Hauth. destruct bearer as [c|]; [exists c; split; [by apply Hb|by apply Hagree]|]. by destruct Hauth; apply Hnone. }
  intros r s2 (h&->&Hh). destruct h as [a|cid told|].
  - wp_step. destruct Hh as (st&msg&->). eexists. split; [done|apply Herr].
  - assert (∀ l s3, wp (finish_logout req cid true l) (λ r _, ∃ x, r = Ok x ∧ Q x) s3) as Hend
      by (intros; apply finish_spec; intros a Ha _; by apply Hid).
    destruct bearer as [c|]; [|apply Hend]. case_bool_decide; [|apply Hend].
    wp_step. eapply wp_mono; [apply bearer_logout_spec|]. intros r s3 (t&->&Ht). destruct t as [a|cid' told'|]; [|apply finish_spec; intros a Ha _; by apply Hid|apply Hend].
    wp_step. eexists. split; [done|]. apply Hid; [done|]. destruct Ht as (st&msg&->). by intros ? ?.
  - destruct bearer as [c|].
    + specialize (Hi c eq_refl). wp_step. eapply wp_mono; [apply bearer_logout_spec|]. intros r s3 (t&->&Ht).
      destruct t as [a|cid' told'|]; [|apply finish_spec; intros a Ha _; by apply Hid..].
      wp_step. destruct Ht as (st&msg&->). eexists. split; [done|apply Herr].
    + apply finish_spec. intros a Ha Hno. rewrite Hno by done. apply Herr.
Qed.
End logout.
