(* ===== verification/OAuthController.v ===== *)
(** * [internal/oauth2/controller]: what the endpoints share

    A request arrives with its media type, basic credentials and form parsed. An answer is
    data: the status, the members of the JSON body, the cookies, the target of a redirect
    with the parameters that are set on it; templates and the header that forbids caching
    are left out. The other modules are the fields of the controller. *)
From S2P Require Import Prelude GoTime Json Redis World Cache TokenDomain Session SessionService Url GoStrings AccountDomain Credential OAuthDomain Database Site AuthMiddleware.
Local Open Scope Z_scope.

Record HttpRequest : Type := mkHttp {
  hr_Request : Request;
  hr_ContentLength : Z;
  hr_ContentType : string;
  hr_MediaType : string;
  hr_BasicAuth : option (string * string);
  hr_CookieSession : string;
  hr_Secure : bool;
  hr_Ctx : Ctx;
}.

Record SetCookie : Type := mkCookie {
  ck_Name : string;
  ck_Value : string;
  ck_MaxAge : Z;
  ck_Secure : bool;
  ck_SameSite : string;
}.
Record TokenResponse : Type := mkTokens {
  tr_access_token : string;
  tr_token_type : string;
  tr_expires_in : Z;
  tr_scope : string;
  tr_refresh_token : option string;
  tr_id_token : option string;
}.
Record DeviceResponse : Type := mkDeviceResponse {
  dr_device_code : string;
  dr_user_code : string;
  dr_verification_uri : string;
  dr_verification_uri_complete : string;
  dr_expires_in : Z;
  dr_interval : Z;
}.
(** [consentTemplateData] without the texts that only decorate the page. *)
Record ConsentPage : Type := mkConsentPage {
  cp_ClientName : string;
  cp_ClientID : string;
  cp_Scopes : list string;
  cp_ConsentID : string;
}.
(** What the handlers write; each of their paths ends in one of these. *)
Inductive answer : Type :=
  | Refuse (status : Z) (error description : string)
  | Tokens (t : TokenResponse)
  | CookieSession (cookies : list SetCookie) (expires_in : Z) (scope : string)
  | StatusOnly (status : Z)
  | Introspected (members : list (string * json))
  | DeviceStarted (d : DeviceResponse)
  | DevicePage (userCode : option string) (clientName : string) (scopes : list string) (error : string)
  | ResultPage (title : string)
  | ConsentForm (p : ConsentPage)
  | RedirectTo (uri : string) (params : list (string * string)).

(** The fields of [OAuth2Controller] that are other modules or settings. *)
Record OAuth2Controller (R : Type) : Type := mkController {
  c_accountValidator : string → M (Site R) bool;
  c_roleFetcher : option (string → M (Site R) (list string));
  c_permissionFetcher : option (string → M (Site R) (list string));
  (** account, client, scopes, nonce, time of authentication, access token, methods *)
  c_idTokenSvc : option (string → string → list string → string → Z → string → list string → M (Site R) string);
  c_issuer : string;
  c_enforcePKCEForConfidential : bool;
  c_includeUserRoles : bool;
  c_includeUserPermissions : bool;
}.
Arguments mkController {R}. Arguments c_accountValidator {R}. Arguments c_roleFetcher {R}. Arguments c_permissionFetcher {R}.
Arguments c_idTokenSvc {R}. Arguments c_issuer {R}. Arguments c_enforcePKCEForConfidential {R}.
Arguments c_includeUserRoles {R}. Arguments c_includeUserPermissions {R}.

(** ** What the endpoints rely on

    A helper service reads accounts: it leaves Redis, the clock, the network and the source
    of randomness alone; the check of an account always answers, and the database moves
    under it only by what others do. *)
Definition undisturbed {R} (s s' : Site R) : Prop :=
  w_redis (si_world s') = w_redis (si_world s) ∧ w_now (si_world s') = w_now (si_world s)
  ∧ w_net (si_world s') = w_net (si_world s) ∧ w_rand (si_world s') = w_rand (si_world s).
Definition reads_only {R A} (m : M (Site R) A) : Prop := ∀ s, undisturbed s (m s).2.
Class OAuth2Deps {R} (c : OAuth2Controller R) : Prop := {
  deps_active accountID s : ∃ b, (c_accountValidator c accountID s).1 = Ok b;
  deps_active_reads accountID : reads_only (c_accountValidator c accountID);
  deps_active_later accountID : reads_db (c_accountValidator c accountID);
  deps_roles_read f accountID : c_roleFetcher c = Some f → reads_only (f accountID);
  deps_permissions_read f accountID : c_permissionFetcher c = Some f → reads_only (f accountID);
  deps_id_token_reads f a cl sc n t tok am : c_idTokenSvc c = Some f → reads_only (f a cl sc n t tok am);
}.

Lemma undisturbed_refl {R} (s : Site R) : undisturbed s s.
Proof. done. Qed.
Lemma undisturbed_trans {R} (s1 s2 s3 : Site R) : undisturbed s1 s2 → undisturbed s2 s3 → undisturbed s1 s3.
Proof. intros (?&?&?&?) (?&?&?&?). split_and!; congruence. Qed.

(** ** Scopes, constants *)
Definition oauth2MaxFormBodySize : Z := 8 * 1024.
Definition authCookieName : string := "__Host-access_token".
Definition refreshCookieName : string := "__Host-refresh_token".
Definition FormMediaType : string := "application/x-www-form-urlencoded".

Fixpoint split_space (cur s : string) : list string :=
  let flush := if bool_decide (cur = "") then [] else [cur] in
  match s with
  | EmptyString => flush
  | String c s' => if bool_decide (c = " "%char) then flush ++ split_space "" s'
                   else split_space (cur +:+ String c "") s'
  end.
Definition splitScope (scope : string) : list string := split_space "" scope.
Definition intersectScopes (requested allowed : list string) : list string :=
  List.filter (λ s, bool_decide (s ∈ allowed)) requested.
Fixpoint join_space (l : list string) : string :=
  match l with
  | [] => ""
  | [s] => s
  | s :: l' => s +:+ " " +:+ join_space l'
  end.

Definition invalid_client : answer := Refuse 401 "invalid_client" "".
(** [HandleClientAuthError] *)
Definition HandleClientAuthError : answer := Refuse 401 "invalid_client" "client authentication failed".
Definition server_error : answer := Refuse 500 "server_error" "".
Definition invalid_request (description : string) : answer := Refuse 400 "invalid_request" description.
Definition invalid_grant (description : string) : answer := Refuse 400 "invalid_grant" description.

(** [redirectWithCode]; setting the parameters on the query is left to [net/url]. *)
Definition redirectWithCode (redirectURI code state issuer : string) : answer :=
  match url_parse redirectURI with
  | None => Refuse 400 "invalid_redirect_uri" ""
  | Some _ => RedirectTo redirectURI
      (("code", code) :: (if bool_decide (state = "") then [] else [("state", state)])
       ++ (if bool_decide (issuer = "") then [] else [("iss", issuer)]))
  end.
Definition csrfTokenFromCookie (rq : Request) : string :=
  let cookie := default "" (Cookie rq "__Host-csrf_token") in
  if bool_decide (cookie = "") then default "" (Cookie rq "csrf_token") else cookie.

(** ** Facts *)
Lemma split_space_no_space cur s x :
  x ∈ split_space cur s → sforall (λ c, negb (bool_decide (c = " "%char))) cur = true →
  sforall (λ c, negb (bool_decide (c = " "%char))) x = true ∧ x ≠ "".
Proof.
  assert (∀ u c, sforall (λ c, negb (bool_decide (c = " "%char))) (u +:+ String c "") =
    sforall (λ c, negb (bool_decide (c = " "%char))) u && negb (bool_decide (c = " "%char))) as Happ.
  { intros u c. induction u as [|d u IH]; cbn; [by rewrite andb_true_r|]. by rewrite IH, andb_assoc. }
  revert cur. induction s as [|c s IH]; intros cur; cbn [split_space].
  - case_bool_decide; [set_solver|]. intros ->%list_elem_of_singleton. done.
  - case_bool_decide as Hc; [|intros Hx Hcur; apply (IH _ Hx); by rewrite Happ, Hcur, bool_decide_false by done].
    rewrite elem_of_app. intros [Hx|Hx] Hcur; [|by apply (IH _ Hx)].
    case_bool_decide; [set_solver|]. by apply list_elem_of_singleton in Hx as ->.
Qed.
(** Joining what was split gives the words back. *)
Lemma split_space_word cur w : sforall (λ c, negb (bool_decide (c = " "%char))) w = true →
  ∀ s, split_space cur (w +:+ s) = split_space (cur +:+ w) s.
Proof.
  revert cur. induction w as [|c w IH]; intros cur Hw s; cbn.
  - by rewrite append_empty_r.
  - cbn in Hw. apply andb_true_iff in Hw as [Hc%negb_true_iff%bool_decide_eq_false Hw].
    rewrite bool_decide_false by done. rewrite IH by done. by rewrite append_assoc.
Qed.
Definition word (w : string) : bool := sforall (λ c, negb (bool_decide (c = " "%char))) w && negb (bool_decide (w = "")).
Lemma splitScope_words scope : Forall (λ w, word w = true) (splitScope scope).
Proof.
  apply Forall_forall. intros w Hw. destruct (split_space_no_space "" scope w Hw eq_refl) as [Hs Hne].
  unfold word. by rewrite Hs, bool_decide_false.
Qed.
Lemma split_join l : Forall (λ w, word w = true) l → splitScope (join_space l) = l.
Proof.
  induction l as [|w l IH]; [done|]. intros [Hw Hl]%Forall_cons. specialize (IH Hl).
  apply andb_true_iff in Hw as [Hs Hne%negb_true_iff%bool_decide_eq_false].
  unfold splitScope in *. destruct l as [|w' l].
  - cbn [join_space]. pose proof (split_space_word "" w Hs "") as Heq. rewrite append_empty_r in Heq. rewrite Heq.
    cbn. by rewrite bool_decide_false.
  - cbn [join_space]. rewrite split_space_word by done. cbn [String.append split_space].
    rewrite (bool_decide_false (w = "")) by done. rewrite bool_decide_true by done. cbn [app]. f_equal. exact IH.
Qed.
