(* ===== verification/TokenEndpoint.v ===== *)
(** * [oauth2_token.go], [oauth2_revoke.go] and the device grant of [oauth2_device.go] *)
From S2P Require Import Prelude GoTime Json Hash Redis World Cache TokenDomain TokenService Session SessionService Url GoStrings AccountDomain Credential OAuthDomain AuthCode DeviceCode Database ClientRepo ClientService Site AuthMiddleware OAuthController.
Local Open Scope Z_scope.

Record TokenRequest : Type := mkTokenRequest {
  tq_GrantType : string;
  tq_Code : string;
  tq_RedirectURI : string;
  tq_ClientID : string;
  tq_ClientSecret : string;
  tq_CodeVerifier : string;
  tq_RefreshToken : string;
  tq_Scope : string;
  tq_DeviceCode : string;
}.
(** The [binding] tags; lengths in characters. *)
Definition bind_token (q : TokenRequest) : bool :=
  negb (bool_decide (tq_GrantType q = "")) && (char_count (tq_Code q) <=? 128) && (char_count (tq_RedirectURI q) <=? 2048)
  && (char_count (tq_ClientID q) <=? 128) && (char_count (tq_ClientSecret q) <=? 256) && (char_count (tq_CodeVerifier q) <=? 256)
  && (char_count (tq_RefreshToken q) <=? 2048) && (char_count (tq_Scope q) <=? 2048) && (char_count (tq_DeviceCode q) <=? 128).
Definition with_basic_auth (auth : option (string * string)) (q : TokenRequest) : TokenRequest :=
  match auth with
  | None => q
  | Some (clientID, clientSecret) =>
      mkTokenRequest (tq_GrantType q) (tq_Code q) (tq_RedirectURI q) clientID clientSecret (tq_CodeVerifier q)
        (tq_RefreshToken q) (tq_Scope q) (tq_DeviceCode q)
  end.

Definition isCookieSessionRequest (rq : HttpRequest) : bool := bool_decide (hr_CookieSession rq = "1").
Definition setSSOAuthCookie (rq : HttpRequest) (accessToken : string) (maxAgeSeconds : Z) : SetCookie :=
  mkCookie authCookieName accessToken maxAgeSeconds (hr_Secure rq) "Lax".
Definition setSSORefreshCookie (rq : HttpRequest) (refreshToken : string) (maxAgeSeconds : Z) : list SetCookie :=
  if bool_decide (refreshToken = "") then []
  else [mkCookie refreshCookieName refreshToken maxAgeSeconds (hr_Secure rq) "Strict"].
(** [int(d.Seconds())] *)
Definition whole_seconds (d : Z) : Z := Z.quot d second.
Definition maxAgeUntil (now expiry : Z) : Z :=
  let seconds := whole_seconds (expiry - now) in if seconds <? 1 then 1 else seconds.

(** The claims of an access token for a client. *)
Definition token_claims (accountID scope clientID sessionID : string) (roles permissions : list string) : AccessTokenClaims :=
  Claims "" "" [] None None None "" accountID "" "" roles permissions scope clientID sessionID.

Section endpoint.
Context {R : Type} `{RedisServer R} `{JwtLib} `{Postgres} `{Bcrypt} `{LuaOS}.
Context (tcfg : TokenCfg) (dcfg : DeviceCfg) (c : OAuth2Controller R).
#[local] Abbreviation SM := (M (Site R)).

Definition AccessExpirySeconds : Z := whole_seconds (tc_accessExpiry tcfg).

Definition fetch_roles (accountID : string) : SM (list string) :=
  match c_roleFetcher c with
  | Some f => if c_includeUserRoles c then f accountID else ret []
  | None => ret []
  end.
Definition fetch_permissions (accountID : string) : SM (list string) :=
  match c_permissionFetcher c with
  | Some f => if c_includeUserPermissions c then f accountID else ret []
  | None => ret []
  end.
Definition maybeGenerateIDToken (accountID clientID : string) (scopes : list string) (nonce : string) (authTime : Z)
    (accessToken : string) (authMethods : list string) : SM string :=
  match c_idTokenSvc c with
  | None => ret ""
  | Some f => if bool_decide ("openid" ∈ scopes) then f accountID clientID scopes nonce authTime accessToken authMethods
              else ret ""
  end.
Definition id_token_error : answer := Refuse 500 "server_error" "failed to generate id_token".
Definition nonempty (s : string) : option string := if bool_decide (s = "") then None else Some s.

(** The tokens of a grant that names an account: roles, permissions, the access token, a
    refresh token when the client may use one, the ID token. *)
Definition issue_tokens (ctx : Ctx) (client : OAuth2Client) (accountID clientID sessionID : string) (scopes : list string)
    (nonce : string) (authTime : Z) (authMethods : list string)
    (k : string → option RefreshToken → string → SM answer) : SM answer :=
  let? roles := fetch_roles accountID else server_error in
  let? permissions := fetch_permissions accountID else server_error in
  let? accessToken := at_world (GenerateAccessToken tcfg
    (token_claims accountID (join_space scopes) clientID sessionID roles permissions)) else server_error in
  let? refreshToken := (if HasGrantType (Some client) GrantTypeRefreshToken
    then let! rt := at_world (GenerateRefreshToken tcfg ctx accountID clientID sessionID (join_space scopes)) in ret (Some rt)
    else ret None) else server_error in
  let? idToken := maybeGenerateIDToken accountID clientID scopes nonce authTime accessToken authMethods else id_token_error in
  k accessToken refreshToken idToken.

(** ** The grants *)
Definition handleAuthorizationCodeGrant (rq : HttpRequest) (req : TokenRequest) : SM answer :=
  let? client := at_app (FindByClientID (tq_ClientID req)) else invalid_client in
  if negb (HasGrantType (Some client) "authorization_code")
  then ret (Refuse 400 "unauthorized_client" "authorization_code grant not allowed for this client") else
  if negb (is_ok (AuthenticateClient client (tq_ClientSecret req))) then ret HandleClientAuthError else
  if negb (oc_IsConfidential client) && bool_decide (tq_CodeVerifier req = "")
  then ret (invalid_grant "code_verifier required for public clients") else
  let? authCode := at_world (ValidateCode (tq_Code req) (tq_ClientID req) (tq_RedirectURI req) (nonempty (tq_CodeVerifier req)))
    else invalid_grant "invalid or expired authorization code" in
  let! active := c_accountValidator c (ac_AccountID authCode) in
  if negb active then ret (invalid_grant "account is not active") else
  issue_tokens (hr_Ctx rq) client (ac_AccountID authCode) (ac_ClientID authCode) (ac_SessionID authCode) (ac_Scopes authCode)
    (ac_Nonce authCode) (ac_AuthTime authCode) (ac_AuthMethods authCode) (λ accessToken refreshToken idToken,
    let! t := site_now in
    let scope := join_space (ac_Scopes authCode) in
    ret (if isCookieSessionRequest rq then
           CookieSession (setSSOAuthCookie rq accessToken AccessExpirySeconds ::
               match refreshToken with
               | Some rt => setSSORefreshCookie rq (rt_Token rt) (maxAgeUntil t (rt_ExpiresAt rt))
               | None => [] end) AccessExpirySeconds scope
         else Tokens (mkTokens accessToken "Bearer" AccessExpirySeconds scope (rt_Token <$> refreshToken) (nonempty idToken)))).

Definition handleRefreshTokenGrant (rq : HttpRequest) (req : TokenRequest) : SM answer :=
  if bool_decide (tq_ClientID req = "") then ret (invalid_grant "client_id is required") else
  let? client := at_app (FindByClientID (tq_ClientID req)) else invalid_client in
  if negb (HasGrantType (Some client) "refresh_token")
  then ret (Refuse 400 "unauthorized_client" "refresh_token grant not allowed for this client") else
  if oc_IsConfidential client && negb (is_ok (AuthenticateClient client (tq_ClientSecret req))) then ret HandleClientAuthError else
  let? oldRefreshToken := at_world (ValidateRefreshToken (tq_RefreshToken req)) else invalid_grant "invalid refresh token" in
  if negb (bool_decide (tq_ClientID req = rt_ClientID oldRefreshToken)) then ret (invalid_grant "client_id mismatch") else
  let! active := c_accountValidator c (rt_AccountID oldRefreshToken) in
  if negb active then ret (invalid_grant "account is not active") else
  if negb (bool_decide (tq_Scope req = ""))
     && negb (forallb (λ s, bool_decide (s ∈ splitScope (rt_Scope oldRefreshToken))) (splitScope (tq_Scope req)))
  then ret (Refuse 400 "invalid_scope" "requested scope exceeds originally granted scope") else
  let? newRefreshToken := at_world (RotateRefreshToken tcfg (hr_Ctx rq) (tq_RefreshToken req)) else invalid_grant "invalid refresh token" in
  let accessTokenScope := if bool_decide (tq_Scope req = "") then rt_Scope newRefreshToken else tq_Scope req in
  let? roles := fetch_roles (rt_AccountID newRefreshToken) else server_error in
  let? permissions := fetch_permissions (rt_AccountID newRefreshToken) else server_error in
  let? accessToken := at_world (GenerateAccessToken tcfg (token_claims (rt_AccountID newRefreshToken) accessTokenScope
    (rt_ClientID newRefreshToken) (rt_SessionID newRefreshToken) roles permissions)) else server_error in
  let! t := site_now in
  ret (if isCookieSessionRequest rq then
         CookieSession (setSSOAuthCookie rq accessToken AccessExpirySeconds ::
           setSSORefreshCookie rq (rt_Token newRefreshToken) (maxAgeUntil t (rt_ExpiresAt newRefreshToken)))
           AccessExpirySeconds accessTokenScope
       else Tokens (mkTokens accessToken "Bearer" AccessExpirySeconds accessTokenScope (Some (rt_Token newRefreshToken)) None)).

Definition handleClientCredentialsGrant (req : TokenRequest) : SM answer :=
  if bool_decide (tq_ClientID req = "") || bool_decide (tq_ClientSecret req = "") then ret invalid_client else
  let? client := at_app (FindByClientID (tq_ClientID req)) else invalid_client in
  if negb (oc_IsConfidential client)
  then ret (Refuse 400 "unauthorized_client" "client_credentials grant requires confidential client") else
  if negb (HasGrantType (Some client) GrantTypeClientCredentials)
  then ret (Refuse 400 "unauthorized_client" "client_credentials grant not allowed") else
  if negb (is_ok (AuthenticateClient client (tq_ClientSecret req))) then ret invalid_client else
  let scopes := ValidateScope (Some client) (splitScope (tq_Scope req)) in
  if bool_decide (scopes = [])
  then ret (Refuse 400 "invalid_scope" "scope parameter is required and must contain valid scopes for this client") else
  let! active := c_accountValidator c (oc_AccountID client) in
  if negb active then ret (Refuse 400 "invalid_client" "account is not active") else
  let? accessToken := at_world (GenerateAccessToken tcfg
    (token_claims (oc_AccountID client) (join_space scopes) (tq_ClientID req) "" [] [])) else server_error in
  ret (Tokens (mkTokens accessToken "Bearer" AccessExpirySeconds (join_space scopes) None None)).

(** Whether the code had expired when the claim failed. *)
Definition claim_failed (deviceCode : string) : SM answer :=
  let! r := try (at_world (GetDeviceCode deviceCode)) in
  let! t := site_now in
  ret (invalid_grant match r with
                     | Ok dc => if device_IsExpired t (Some dc) then "device code has expired" else "device code already consumed"
                     | Err _ => "device code already consumed" end).
Definition handleDeviceCodeGrant (rq : HttpRequest) (req : TokenRequest) : SM answer :=
  if bool_decide (tq_ClientID req = "") || bool_decide (tq_DeviceCode req = "")
  then ret (invalid_request "client_id and device_code required") else
  let? client := at_app (FindByClientID (tq_ClientID req)) else Refuse 400 "invalid_client" "" in
  if negb (HasGrantType (Some client) GrantTypeDeviceCode)
  then ret (Refuse 400 "unauthorized_client" "device_code grant not allowed") else
  if negb (is_ok (AuthenticateClient client (tq_ClientSecret req))) then ret HandleClientAuthError else
  let? dc := at_world (GetDeviceCode (tq_DeviceCode req)) else invalid_grant "device code not found" in
  if negb (bool_decide (dc_ClientID dc = tq_ClientID req))
  then ret (invalid_grant "device code was not issued to this client") else
  let! t := site_now in
  if device_IsExpired t (Some dc) then ret (Refuse 400 "expired_token" "device code has expired") else
  let? _ := at_world (CheckAndUpdatePollRate dcfg (tq_DeviceCode req)) else Refuse 429 "slow_down" "too many requests" in
  if bool_decide (dc_Status dc = StatusPending) then ret (Refuse 400 "authorization_pending" "authorization is pending") else
  if bool_decide (dc_Status dc = StatusDenied) then ret (Refuse 400 "access_denied" "device authorization was denied") else
  if negb (bool_decide (dc_Status dc = StatusAuthorized)) then ret (invalid_grant "device code already consumed") else
  let! active := c_accountValidator c (dc_AccountID dc) in
  if negb active then ret (invalid_grant "account is not active") else
  let! claimed := try (at_world (ClaimAuthorizedDeviceCode (tq_DeviceCode req) (tq_ClientID req))) in
  match claimed with
  | Err _ => claim_failed (tq_DeviceCode req)
  | Ok dc =>
      issue_tokens (hr_Ctx rq) client (dc_AccountID dc) (dc_ClientID dc) "" (dc_Scopes dc) "" (dc_AuthorizedAt dc) []
        (λ accessToken refreshToken idToken,
        ret (Tokens (mkTokens accessToken "Bearer" AccessExpirySeconds (join_space (dc_Scopes dc))
               (rt ← refreshToken; nonempty (rt_Token rt)) (nonempty idToken))))
  end.

Definition Token (rq : HttpRequest) (form : option TokenRequest) : SM answer :=
  if oauth2MaxFormBodySize <? hr_ContentLength rq then ret (Refuse 413 "invalid_request" "request body too large") else
  if bool_decide (hr_ContentType rq = "") then ret (invalid_request "Content-Type header is required") else
  if negb (bool_decide (hr_MediaType rq = FormMediaType))
  then ret (Refuse 415 "invalid_request" "Content-Type must be application/x-www-form-urlencoded") else
  match form with
  | None => ret (invalid_request "")
  | Some q =>
      if negb (bind_token q) then ret (invalid_request "") else
      let req := with_basic_auth (hr_BasicAuth rq) q in
      if bool_decide (tq_GrantType req = "authorization_code") then handleAuthorizationCodeGrant rq req
      else if bool_decide (tq_GrantType req = "refresh_token") then handleRefreshTokenGrant rq req
      else if bool_decide (tq_GrantType req = "client_credentials") then handleClientCredentialsGrant req
      else if bool_decide (tq_GrantType req = GrantTypeDeviceCode) then handleDeviceCodeGrant rq req
      else ret (Refuse 400 "unsupported_grant_type" "")
  end.

(** ** Revocation and introspection *)
Record RevokeRequest : Type := mkRevokeRequest {
  vq_Token : string;
  vq_TokenHint : string;
  vq_ClientID : string;
  vq_ClientSecret : string;
}.
Definition bind_revoke (q : RevokeRequest) : bool :=
  negb (bool_decide (vq_Token q = "")) && (char_count (vq_Token q) <=? 2048) && (char_count (vq_TokenHint q) <=? 64)
  && (char_count (vq_ClientID q) <=? 128) && (char_count (vq_ClientSecret q) <=? 256).

(** The client a revocation is restricted to; none without credentials. *)
Definition revoking_client (clientID clientSecret : string) (k : string → SM answer) : SM answer :=
  if bool_decide (clientID = "") then k "" else
  let? client := at_app (FindByClientID clientID) else invalid_client in
  if negb (is_ok (AuthenticateClient client clientSecret)) then ret HandleClientAuthError else k clientID.
Definition try_access_token (token hint clientIDMatch : string) : SM answer :=
  if bool_decide (hint = "refresh_token") then ret (StatusOnly 200) else
  let! r := try (at_world (ValidateAccessTokenWithContext tcfg token)) in
  match r with
  | Ok claims =>
      if bool_decide (clientIDMatch = "") || bool_decide (cl_ClientID claims = clientIDMatch) then
        match cl_ExpiresAt claims with
        | Some e => let? _ := at_world (RevokeAccessToken (cl_ID claims) e) else server_error in ret (StatusOnly 200)
        | None => ret (StatusOnly 200)
        end
      else ret (StatusOnly 200)
  | Err _ => ret (StatusOnly 200)
  end.
Definition Revoke (rq : HttpRequest) (form : option RevokeRequest) : SM answer :=
  if bool_decide (hr_ContentType rq = "") then ret (invalid_request "Content-Type header is required") else
  match form with
  | None => ret (invalid_request "")
  | Some q =>
      if negb (bind_revoke q) then ret (invalid_request "") else
      let '(clientID, clientSecret) := default (vq_ClientID q, vq_ClientSecret q) (hr_BasicAuth rq) in
      revoking_client clientID clientSecret (λ clientIDMatch,
        if bool_decide (vq_TokenHint q = "access_token") then try_access_token (vq_Token q) (vq_TokenHint q) clientIDMatch else
        let! r := try (at_world (ValidateRefreshToken (vq_Token q))) in
        match r with
        | Ok rt =>
            if negb (bool_decide (clientIDMatch = "")) && negb (bool_decide (rt_ClientID rt = clientIDMatch))
            then ret (StatusOnly 200)
            else let? _ := at_world (RevokeRefreshToken (hr_Ctx rq) (vq_Token q)) else server_error in ret (StatusOnly 200)
        | Err _ => try_access_token (vq_Token q) (vq_TokenHint q) clientIDMatch
        end)
  end.

(** The form of an introspection: the token, and the credentials it may carry. *)
Definition Introspect (rq : HttpRequest) (token : option string) (clientID clientSecret : string) : SM answer :=
  if negb (bool_decide (hr_ContentType rq = "")) && bool_decide (hr_MediaType rq = "application/json")
  then ret (Refuse 415 "invalid_request" "Content-Type must be application/x-www-form-urlencoded") else
  match token with
  | None => ret (invalid_request "")
  | Some token =>
      if bool_decide (token = "") || (2048 <? char_count token) then ret (invalid_request "") else
      let '(clientID, clientSecret) := default (clientID, clientSecret) (hr_BasicAuth rq) in
      if bool_decide (clientID = "") then ret (Refuse 401 "invalid_client" "client authentication required") else
      let? client := at_app (FindByClientID clientID) else invalid_client in
      if negb (is_ok (AuthenticateClient client clientSecret)) then ret HandleClientAuthError else
      if negb (oc_IsConfidential client)
      then ret (Refuse 401 "invalid_client" "public clients are not allowed to introspect") else
      let? result := at_world (IntrospectToken tcfg token) else server_error in
      ret (Introspected (match jget "client_id" result with
                         | Some (JStr id) => if bool_decide (id = clientID) then result else [("active", JBool false)]
                         | _ => [("active", JBool false)] end))
  end.
End endpoint.
