(* ===== verification/AuthorizeEndpoint.v ===== *)
(** * [oauth2_authorize.go] and the pages of [oauth2_device.go]: asking the user

    The parameters of an authorization request wait in Redis under the identifier of the
    consent page; the submission of the page must repeat them. Redis is always configured
    (cmd/gosso/web_modules.go). Rendering a template does not fail here. *)
From S2P Require Import Prelude GoTime Json Hash Redis World Cache TokenDomain TokenService Session SessionService Url GoStrings AccountDomain Credential OAuthDomain AuthCode DeviceCode Database ClientRepo ClientService ConsentService ClientController Site AuthMiddleware OAuthController TokenEndpoint.
Local Open Scope Z_scope.

Definition consentStateTTL : Z := 10 * minute.
Definition consentStateKeyPrefix : string := "consent_state:".
Definition consentStateKey (consentID : string) : string := consentStateKeyPrefix +:+ consentID.
Definition sessionIDFromContext (claims : option AccessTokenClaims) : string :=
  match claims with Some c => cl_SessionID c | None => "" end.

Record consentState : Type := mkConsentState {
  cs_AccountID : string;
  cs_SessionID : string;
  cs_ClientID : string;
  cs_RedirectURI : string;
  cs_CodeChallenge : string;
  cs_CodeChallengeMethod : string;
  cs_Nonce : string;
  cs_State : string;
  cs_Scope : string;
}.
#[export] Instance consentState_eq : EqDecision consentState.
Proof. solve_decision. Defined.
Definition consent_state_members (s : consentState) : list (string * json) :=
  [("account_id", JStr (cs_AccountID s)); ("session_id", JStr (cs_SessionID s)); ("client_id", JStr (cs_ClientID s));
   ("redirect_uri", JStr (cs_RedirectURI s)); ("code_challenge", JStr (cs_CodeChallenge s));
   ("code_challenge_method", JStr (cs_CodeChallengeMethod s)); ("nonce", JStr (cs_Nonce s)); ("state", JStr (cs_State s));
   ("scope", JStr (cs_Scope s))].
Definition marshal_consent_state (s : consentState) : string := jobj (consent_state_members s).
Definition consent_state_fields (l : list (string * json)) : option consentState :=
  a ← get_str "account_id" l; i ← get_str "session_id" l; c ← get_str "client_id" l; u ← get_str "redirect_uri" l;
  ch ← get_str "code_challenge" l; m ← get_str "code_challenge_method" l; n ← get_str "nonce" l; st ← get_str "state" l;
  sc ← get_str "scope" l;
  Some (mkConsentState a i c u ch m n st sc).
Definition unmarshal_consent_state (s : string) : option consentState :=
  match jparse s with
  | Some (JObj l) => consent_state_fields l
  | Some JNull => consent_state_fields []
  | _ => None
  end.

(** The query of an authorization request. *)
Record AuthorizeQuery : Type := mkAuthorizeQuery {
  az_ClientID : string;
  az_RedirectURI : string;
  az_ResponseType : string;
  az_Scope : string;
  az_State : string;
  az_CodeChallenge : string;
  az_CodeChallengeMethod : string;
  az_Nonce : string;
  az_ResponseMode : string;
}.
(** [strings.ReplaceAll(scope, "+", " ")] *)
Definition plus_to_space (scope : string) : string := smap (λ c, if bool_decide (c = "+"%char) then " "%char else c) scope.

(** The form of the consent page; [cf_Approved] is its text. *)
Record ConsentRequest : Type := mkConsentRequest {
  cf_ClientID : string;
  cf_RedirectURI : string;
  cf_Scope : string;
  cf_State : string;
  cf_Approved : string;
  cf_CodeChallenge : string;
  cf_CodeChallengeMethod : string;
  cf_Nonce : string;
  cf_ConsentID : string;
}.
(** [strconv.ParseBool]; an empty field is false. *)
Definition bool_text (s : string) : bool :=
  bool_decide (s ∈ [""; "1"; "t"; "T"; "TRUE"; "true"; "True"; "0"; "f"; "F"; "FALSE"; "false"; "False"]).
Definition bind_consent (q : ConsentRequest) : bool :=
  negb (bool_decide (cf_ClientID q = "")) && negb (bool_decide (cf_RedirectURI q = "")) && negb (bool_decide (cf_Scope q = ""))
  && bool_text (cf_Approved q).
(** What the submission claims, for the account and session behind it. *)
Definition claimed_state (accountID sessionID : string) (q : ConsentRequest) : consentState :=
  mkConsentState accountID sessionID (cf_ClientID q) (cf_RedirectURI q) (cf_CodeChallenge q) (cf_CodeChallengeMethod q)
    (cf_Nonce q) (cf_State q) (cf_Scope q).

Record DeviceCodeRequestParams : Type := mkDeviceParams { dp_ClientID : string; dp_ClientSecret : string; dp_Scope : string }.
Definition bind_device (q : DeviceCodeRequestParams) : bool :=
  negb (bool_decide (dp_ClientID q = "")) && (char_count (dp_ClientID q) <=? 128) && (char_count (dp_ClientSecret q) <=? 256)
  && (char_count (dp_Scope q) <=? 2048).
Record DeviceUserSubmitRequest : Type := mkDeviceSubmit { du_DeviceCode : string; du_UserCode : string; du_Approved : string }.
Definition bind_device_submit (q : DeviceUserSubmitRequest) : bool :=
  (char_count (du_DeviceCode q) <=? 128) && (char_count (du_UserCode q) <=? 32) && negb (bool_decide (du_Approved q = "")).

(** [url.JoinPath(issuer, "/oauth2/device")] for an issuer without query, fragment and
    escapes, and whose path has no dot segments: one slash between the two. *)
Fixpoint trim_slashes (s : string) : string :=
  match s with
  | EmptyString => EmptyString
  | String c s' => let t := trim_slashes s' in if bool_decide (t = "") && bool_decide (c = "/"%char) then "" else String c t
  end.
Definition device_page_uri (issuer : string) : option string :=
  match url_parse issuer with
  | None => None
  | Some _ => Some (trim_slashes issuer +:+ "/oauth2/device")
  end.

Section endpoint.
Context {R : Type} `{RedisServer R} `{JwtLib} `{Postgres} `{Bcrypt} `{LuaOS}.
Context (tcfg : TokenCfg) (scfg : SessionConfig) (codeExpiry : Z) (dcfg : DeviceCfg) (tr : option (TokenRevoker R)).
Context (c : OAuth2Controller R).
#[local] Abbreviation SM := (M (Site R)).

Definition unauthorized : answer := Refuse 401 "unauthorized" "invalid or expired token".
(** The account behind the request. *)
Definition authenticateRequest (rq : Request) (k : string → SM answer) : SM answer :=
  let! r := try (at_sess (ValidateBearerToken tcfg scfg tr rq)) in
  match r with
  | Err e => ret (if errors_is e ErrTokenScopeNotAllowed then Refuse 403 "forbidden" "insufficient scope" else unauthorized)
  | Ok (claims, _) => k (cl_AccountID claims)
  end.
(** [middleware.RequireAccountID] *)
Definition with_account (account : option string) (k : string → SM answer) : SM answer :=
  match account with
  | Some accountID => if bool_decide (accountID = "") then ret (Refuse 401 "unauthorized" "") else k accountID
  | None => ret (Refuse 401 "unauthorized" "")
  end.
Definition storage_unavailable (description : string) : answer := Refuse 503 "server_error" description.

(** A code for what was granted, sent to the client. *)
Definition send_code (clientID accountID redirectURI : string) (scopes : list string)
    (codeChallenge codeChallengeMethod nonce sessionID state : string) : SM answer :=
  let? ac := at_world (GenerateCode codeExpiry clientID accountID redirectURI scopes codeChallenge codeChallengeMethod nonce sessionID)
    else server_error in
  ret (redirectWithCode redirectURI (ac_Code ac) state (c_issuer c)).

(** The checks that need the client only. *)
Definition authorize_refusal (client : OAuth2Client) (q : AuthorizeQuery) : option answer :=
  if negb (ValidateRedirectURI (Some client) (az_RedirectURI q)) then Some (Refuse 400 "invalid_redirect_uri" "")
  else if negb (oc_IsConfidential client) && bool_decide (az_State q = "")
  then Some (invalid_request "state parameter is required for public clients")
  else if negb (oc_IsConfidential client) && bool_decide (az_CodeChallenge q = "")
  then Some (invalid_request "code_challenge is required for public clients")
  else if oc_IsConfidential client && c_enforcePKCEForConfidential c && bool_decide (az_CodeChallenge q = "")
  then Some (invalid_request "code_challenge is required for all clients")
  else None.
(** The checks that come before. *)
Definition query_refusal (q : AuthorizeQuery) : option answer :=
  if negb (bool_decide (az_CodeChallenge q = "")) && negb (bool_decide (az_CodeChallengeMethod q = "S256"))
  then Some (invalid_request "code_challenge_method must be S256")
  else if negb (bool_decide (az_CodeChallengeMethod q = "")) && bool_decide (az_CodeChallenge q = "")
  then Some (invalid_request "code_challenge is required when code_challenge_method is specified")
  else if negb (bool_decide (az_ResponseType q = "code")) then Some (Refuse 400 "unsupported_response_type" "")
  else if negb (bool_decide (az_ResponseMode q = "")) && negb (bool_decide (az_ResponseMode q = "query"))
  then Some (invalid_request "unsupported response_mode, only 'query' is supported")
  else None.

Definition Authorize (who : Caller) (q : AuthorizeQuery) : SM answer :=
  let scope := plus_to_space (az_Scope q) in
  match query_refusal q with Some a => ret a | None =>
  let? client := at_app (FindByClientID (az_ClientID q)) else Refuse 400 "invalid_client" "" in
  match authorize_refusal client q with Some a => ret a | None =>
  with_account (ca_account who) (λ accountID,
  let sessionID := sessionIDFromContext (ca_claims who) in
  let! active := c_accountValidator c accountID in
  if negb active then ret (Refuse 403 "access_denied" "account is not active") else
  let! consentID := at_world uuid_new in
  let state := mkConsentState accountID sessionID (az_ClientID q) (az_RedirectURI q) (az_CodeChallenge q)
    (az_CodeChallengeMethod q) (az_Nonce q) (az_State q) scope in
  let? _ := at_world (Set_ (consentStateKey consentID) (marshal_consent_state state) consentStateTTL)
    else storage_unavailable "unable to process consent, please try again" in
  let page := ConsentForm (mkConsentPage (oc_Name client) (az_ClientID q) (splitScope scope) consentID) in
  let! r := try (at_app (GetConsent accountID (az_ClientID q))) in
  match r with
  | Err _ => ret page
  | Ok consent =>
      let allowedScopes := intersectScopes (ValidateScope (Some client) (splitScope scope)) (co_Scopes consent) in
      if bool_decide (allowedScopes = []) then ret page else
      send_code (az_ClientID q) accountID (az_RedirectURI q) allowedScopes (az_CodeChallenge q) (az_CodeChallengeMethod q)
        (az_Nonce q) sessionID (az_State q)
  end)
  end end.

(** The user says no: back to the client. *)
Definition deny_consent (q : ConsentRequest) : SM answer :=
  let invalid := Refuse 400 "invalid_client" "invalid client or redirect_uri" in
  let? client := at_app (FindByClientID (cf_ClientID q)) else invalid in
  if negb (ValidateRedirectURI (Some client) (cf_RedirectURI q)) then ret invalid else
  ret match url_parse (cf_RedirectURI q) with
      | None => Refuse 400 "invalid_redirect_uri" ""
      | Some _ => RedirectTo (cf_RedirectURI q)
                    (("error", "access_denied") :: (if bool_decide (cf_State q = "") then [] else [("state", cf_State q)]))
      end.

(** The state of a consent page, read and deleted in one round trip. *)
Definition take_consent_state (consentID : string) (k : consentState → SM answer) : SM answer :=
  let expired := invalid_request "invalid or expired consent session" in
  let! r := try (at_world (GetDel (consentStateKey consentID))) in
  match r with
  | Err e => ret (if errors_is e ErrKeyNotFound then expired else storage_unavailable "consent state storage error")
  | Ok data =>
      if bool_decide (data = "") then ret expired else
      match unmarshal_consent_state data with
      | None => ret (invalid_request "invalid consent session data")
      | Some stored => k stored
      end
  end.

Definition approve_consent (accountID sessionID : string) (q : ConsentRequest) : SM answer :=
  let? client := at_app (FindByClientID (cf_ClientID q)) else Refuse 400 "invalid_client" "" in
  if negb (ValidateRedirectURI (Some client) (cf_RedirectURI q)) then ret (Refuse 400 "invalid_redirect_uri" "") else
  let scopes := ValidateScope (Some client) (splitScope (cf_Scope q)) in
  if bool_decide (scopes = []) then ret (Refuse 400 "invalid_scope" "") else
  let! active := c_accountValidator c accountID in
  if negb active then ret (Refuse 400 "unauthorized_client" "account is not active") else
  let! t := site_now in
  let! id := at_world uuid_new in
  let? consent := lift_res (NewConsent t id accountID (cf_ClientID q) scopes) else invalid_request "" in
  let? _ := at_app (SaveConsent (Some consent)) else server_error in
  send_code (cf_ClientID q) accountID (cf_RedirectURI q) scopes (cf_CodeChallenge q) (cf_CodeChallengeMethod q) (cf_Nonce q)
    sessionID (cf_State q).

Definition SubmitConsent (who : Caller) (rq : HttpRequest) (form : option ConsentRequest) : SM answer :=
  if oauth2MaxFormBodySize <? hr_ContentLength rq then ret (Refuse 413 "invalid_request" "request body too large") else
  if bool_decide (hr_ContentType rq = "") then ret (invalid_request "Content-Type header is required") else
  if negb (bool_decide (hr_MediaType rq = FormMediaType))
  then ret (Refuse 415 "invalid_request" "Content-Type must be application/x-www-form-urlencoded") else
  match form with
  | None => ret (invalid_request "")
  | Some q =>
      if negb (bind_consent q) then ret (invalid_request "") else
      authenticateRequest (hr_Request rq) (λ accountID,
      if negb (EqualFold (cf_Approved q) "true") then deny_consent q else
      if bool_decide (cf_ConsentID q = "") then ret (invalid_request "missing consent session") else
      let sessionID := sessionIDFromContext (ca_claims who) in
      take_consent_state (cf_ConsentID q) (λ stored,
      if negb (bool_decide (claimed_state accountID sessionID q = stored))
      then ret (invalid_request "authorization parameters mismatch") else
      approve_consent accountID sessionID q))
  end.

(** ** Devices *)
Definition DeviceCodeRequest (form : option DeviceCodeRequestParams) : SM answer :=
  let invalid := invalid_request "client_id is required" in
  match form with
  | None => ret invalid
  | Some q =>
      if negb (bind_device q) then ret invalid else
      let? client := at_app (FindByClientID (dp_ClientID q)) else invalid_client in
      if negb (HasGrantType (Some client) GrantTypeDeviceCode)
      then ret (Refuse 400 "unauthorized_client" "device_code grant not allowed") else
      if negb (is_ok (AuthenticateClient client (dp_ClientSecret q))) then ret HandleClientAuthError else
      let asked := splitScope (dp_Scope q) in
      let scopes := if bool_decide (asked = []) then oc_Scopes client else ValidateScope (Some client) asked in
      if negb (bool_decide (asked = [])) && bool_decide (scopes = []) && negb (bool_decide (dp_Scope q = ""))
      then ret (Refuse 400 "invalid_scope" "none of the requested scopes are valid for this client") else
      let? dc := at_world (CreateDeviceCode dcfg (dp_ClientID q) scopes) else server_error in
      match device_page_uri (c_issuer c) with
      | None => ret server_error
      | Some uri =>
          let! t := site_now in
          ret (DeviceStarted (mkDeviceResponse (dc_DeviceCode dc) (dc_UserCode dc) uri
            (uri +:+ "?user_code=" +:+ QueryEscape (dc_UserCode dc)) (whole_seconds (dc_ExpiresAt dc - t)) (dc_Interval dc)))
      end
  end.

Definition DeviceUserPage (userCode : string) : SM answer :=
  if bool_decide (userCode = "") then ret (DevicePage None "" [] "") else
  let? dc := at_world (GetDeviceCodeByUserCode userCode)
    else DevicePage None "" [] "Invalid or expired code. Please try again." in
  let! t := site_now in
  if device_IsExpired t (Some dc) || negb (bool_decide (dc_Status dc = StatusPending))
  then ret (DevicePage None "" [] "This code has expired or is no longer valid.") else
  let? client := at_app (FindByClientID (dc_ClientID dc)) else Refuse 400 "invalid_client" "" in
  ret (DevicePage (Some (dc_UserCode dc)) (oc_Name client) (dc_Scopes dc) "").

(** The code of a submission: by its user code when there is one. *)
Definition submitted_code (q : DeviceUserSubmitRequest) (k : string → SM answer) : SM answer :=
  if bool_decide (du_UserCode q = "") then k "" else
  let? dc := at_world (GetDeviceCodeByUserCode (du_UserCode q)) else invalid_request "invalid or expired user code" in
  k (dc_Hash dc).
(** The decision of the user about the device code with this hash, or about the one
    submitted. *)
Definition decide_device (rq : Request) (q : DeviceUserSubmitRequest) (dcHash : string) : SM answer :=
  authenticateRequest rq (λ accountID,
  let hash := if bool_decide (dcHash = "") then HashToken (du_DeviceCode q) else dcHash in
  if bool_decide (du_Approved q = "true") then
    let? _ := at_world (AuthorizeDeviceCodeByHash hash accountID) else invalid_request "device code authorization failed" in
    ret (ResultPage "Authorization Granted")
  else
    let? _ := at_world (DenyDeviceCodeByHash hash) else invalid_request "device code denial failed" in
    ret (ResultPage "Authorization Denied")).
Definition DeviceUserSubmit (rq : Request) (form : option DeviceUserSubmitRequest) : SM answer :=
  match form with
  | None => ret (invalid_request "")
  | Some q => if negb (bind_device_submit q) then ret (invalid_request "") else submitted_code q (decide_device rq q)
  end.
End endpoint.
