(* ===== verification/AuthController.v ===== *)
(** * [internal/auth/controller]: the endpoints of login, account and passkeys

    One definition per handler. The body of a request arrives decoded and the [binding]
    tags are checked here; the tag [email] is the validator of gin, a parameter. An answer
    is a [reply] with the cookies that are set; logs and the headers that forbid caching
    are left out. *)
From S2P Require Import Prelude GoTime Json Hash Url Redis World Cache TokenDomain Blacklist TokenService Session SessionService OAuthDomain GoStrings AccountDomain Credential Database ClientRepo ClientService ClientController AccountRepo Mfa Scan Site Verification AccountService AuthMiddleware AuthCore AuthLogin PasswordReset Passkey OAuthController TokenEndpoint.
Local Open Scope Z_scope.

(** [validator]: the tag [email]. *)
Class ValidatorLib := { is_email : string → bool }.

(** What a handler knows of a request: the address and agent gin reports, the claims, the
    account and the session the middleware left in the context. *)
Record AuthRequest : Type := mkAuthRequest {
  aq_Request : Request;
  aq_ClientIP : string;
  aq_UserAgent : string;
  aq_Ctx : Ctx;
  aq_Caller : Caller;
  aq_Session : option nat;
  aq_ContentLength : Z;
  aq_CookieSession : string;
  aq_TLS : bool;
  aq_ForwardedProto : string;
}.

(** ** [helpers.go] *)
(** Only claims are ever stored under the key of the claims. *)
Definition getClaimsFromContext {S A} (rq : AuthRequest) (k : AccessTokenClaims → M S (reply A)) : M S (reply A) :=
  match ca_claims (aq_Caller rq) with
  | None => ret (Failure 401 "authentication required")
  | Some tc => k tc
  end.
Definition isCookieSession (rq : AuthRequest) : bool := bool_decide (aq_CookieSession rq = "1").
Definition isSecureRequest (rq : AuthRequest) : bool := aq_TLS rq || bool_decide (aq_ForwardedProto rq = "https").
Definition authCookie (accessToken : string) (maxAgeSeconds : Z) (secure : bool) : SetCookie :=
  mkCookie authCookieName accessToken maxAgeSeconds secure "Lax".
Definition refreshCookie (refreshToken : string) (maxAgeSeconds : Z) (secure : bool) : SetCookie :=
  mkCookie refreshCookieName refreshToken maxAgeSeconds secure "Strict".
Definition clearedCookies (secure : bool) : list SetCookie := [authCookie "" (-1) secure; refreshCookie "" (-1) secure].

(** The bodies of a login: [tokenResponse], [cookieSessionResponse], [mfaRequiredResponse]. *)
Inductive LoginBody : Type :=
  | TokenSet (access_token refresh_token session_id : string) (expires_in : Z)
  | SessionOnly (session_id : string) (expires_in : Z)
  | MFARequired (mfa_token : string) (mfa_types : list string).
Record LoginReply : Type := mkLoginReply { ly_reply : reply LoginBody; ly_cookies : list SetCookie }.
Definition refuse (status : Z) (msg : string) : LoginReply := mkLoginReply (Failure status msg) [].
Definition refuse_with (r : reply LoginBody) : LoginReply := mkLoginReply r [].

(** [strings.Contains] *)
Fixpoint scontains (sub s : string) : bool :=
  has_prefix sub s || match s with String _ s' => scontains sub s' | EmptyString => false end.
Definition required (s : string) (max : Z) : bool := negb (bool_decide (s = "")) && (char_count s <=? max).
(** [required,min=12,max=72] *)
Definition bind_password (s : string) : bool := required s 72 && (12 <=? char_count s).

Definition loginErrorMap : list ErrorRule :=
  [mkRule ErrServiceUnavailable 503 "service temporarily unavailable";
   mkRule ErrIPLocked 429 "too many attempts from this IP, try again later";
   mkRule ErrMFARateLimited 429 "too many MFA attempts, try again later"].
Definition refreshErrorMap : list ErrorRule :=
  [mkRule ErrServiceUnavailable 503 "service temporarily unavailable";
   mkRule ErrIPLocked 429 "too many attempts from this IP, try again later"].
Definition mfaVerifyErrorMap : list ErrorRule :=
  [mkRule ErrServiceUnavailable 503 "service temporarily unavailable";
   mkRule ErrMFARateLimited 429 "too many MFA attempts, try again later"].
Definition revokeSessionErrorMap : list ErrorRule :=
  [mkRule ErrSessionAccessDenied 403 "session not found or access denied"].
Definition sendVerificationErrorMap : list ErrorRule :=
  [mkRule ErrServiceUnavailable 503 "service temporarily unavailable";
   mkRule ErrCooldownActive 429 "too many requests, please try again later";
   mkRule ErrUnsupportedType 400 "unsupported credential type"].
Definition passkeyLoginErrorMap : list ErrorRule := [mkRule ErrPasskeyNotFound 404 "login failed"].
Definition passkeyRegistrationErrorMap : list ErrorRule := [mkRule ErrPasskeyAlreadyRegistered 409 "passkey already registered"].
Definition passkeyDeleteErrorMap : list ErrorRule :=
  [mkRule ErrCredentialOwnership 403 "credential does not belong to account";
   mkRule ErrCredentialNotFound 404 "credential not found"].

(** ** Requests *)
Record LoginRequest : Type := mkLoginRequest { lq_Username : string; lq_Password : string }.
Definition bind_login (q : LoginRequest) : bool := required (lq_Username q) 254 && required (lq_Password q) 72.
Record MFAVerifyRequest : Type := mkMFAVerify { mv_MFAToken : string; mv_Code : string; mv_Type : string }.
Definition bind_mfa_verify (q : MFAVerifyRequest) : bool :=
  negb (bool_decide (mv_MFAToken q = "")) && (char_count (mv_Code q) <=? 32).
Record ChangePasswordRequest : Type := mkChangePassword { cq_CurrentPassword : string; cq_NewPassword : string }.
Record EmailChangeRequest : Type := mkEmailChange { eq_NewEmail : string; eq_Password : string }.
Record EmailConfirmRequest : Type := mkEmailConfirm { ef_NewEmail : string; ef_Code : string }.
Record VerificationRequest : Type := mkVerification { vq_Type : string; vq_Identifier : string; vq_Code : string }.
Record ResetPasswordRequest : Type := mkResetPassword { rp_Token : string; rp_NewPassword : string }.
Record MFACompleteRequest : Type := mkMFAComplete { mc_MFAToken : string; mc_RequestID : string }.

Section controller.
Context {R : Type} `{RedisServer R} `{!ScanServer R} `{JwtLib} `{Postgres} `{Bcrypt} `{Argon2} `{Totp} `{AesGcm} `{Unicode} `{Lower}.
Context `{MailLib} `{ValidatorLib} `{UUIDLib} `{!WebAuthnLib R}.
(** The services of the controller; a missing one answers 503. *)
Context (s : AuthService R) (mfaSvc : option MFAService) (opts : AccountServiceOptions R).
Context (vcfg : VerifyCfg) (emailSvc smsSvc : Sender R) (pcfg : PasswordResetCfg) (secureCookie : bool).
#[local] Abbreviation SM := (M (Site R)).
#[local] Abbreviation tcfg := (as_tokenSvc s).
#[local] Abbreviation tr := (as_tokenRevoker s).

Definition bad_body {A} : reply A := Failure 400 "invalid request body".

(** The tokens go to the client in the body, unless it asked for cookies only. *)
Definition respondTokenSet (rq : AuthRequest) (accessToken refreshToken sessionID : string) : reply LoginBody :=
  let expiresIn := whole_seconds (tc_accessExpiry tcfg) in
  Data 200 (if isCookieSession rq then SessionOnly sessionID expiresIn else TokenSet accessToken refreshToken sessionID expiresIn).
Definition grant_session (rq : AuthRequest) (secure : bool) (accessToken refreshToken sessionID : string) : LoginReply :=
  mkLoginReply (respondTokenSet rq accessToken refreshToken sessionID)
    [authCookie accessToken (whole_seconds (tc_accessExpiry tcfg)) secure;
     refreshCookie refreshToken (whole_seconds (tc_refreshExpiry tcfg)) secure].
(** A completed login has a session. *)
Definition grant_login (rq : AuthRequest) (secure : bool) (result : LoginResult) : SM LoginReply :=
  match lr_Session result with
  | None => fail nil_panic
  | Some p =>
      let! x := at_sess (load_obj p) in
      ret (grant_session rq secure (lr_AccessToken result) (lr_RefreshToken result) (se_ID x))
  end.
Definition mfa_or_grant (rq : AuthRequest) (secure : bool) (result : LoginResult) : SM LoginReply :=
  if lr_RequiresMFA result then ret (mkLoginReply (Data 200 (MFARequired (lr_MFAToken result) (lr_MFATypes result))) [])
  else grant_login rq secure result.

(** ** [auth_controller.go] *)
Definition Login (rq : AuthRequest) (body : option LoginRequest) : SM LoginReply :=
  match body with
  | None => ret (refuse_with bad_body)
  | Some q =>
      if negb (bind_login q) then ret (refuse_with bad_body) else
      attempt (LoginByUsernamePassword s (aq_Ctx rq) (mkLoginCommand (lq_Username q) (lq_Password q) (aq_ClientIP rq) (aq_UserAgent rq)))
        (λ e, refuse_with (AbortWithServiceError e loginErrorMap 401 "Login failed"))
        (mfa_or_grant rq secureCookie)
  end.

(** The token that was decoded, and whether decoding succeeded. An error counts when the
    request tells the length of its body. No rounds are left: [None]. *)
Definition Refresh (pause : SM unit) (rq : AuthRequest) (token : string) (decoded : bool) : SM (option LoginReply) :=
  if negb (decoded && (char_count token <=? 128)) && (0 <? aq_ContentLength rq) then ret (Some (refuse_with bad_body)) else
  let token := if bool_decide (token = "") then default "" (Cookie (aq_Request rq) refreshCookieName) else token in
  if bool_decide (token = "") then ret (Some (refuse 400 "refresh token is required")) else
  let! r := try (RefreshTokens s pause (aq_Ctx rq) token) in
  ret match r with
      | Err e => Some (refuse_with (AbortWithServiceError e refreshErrorMap 401 "Token refresh failed"))
      | Ok None => None
      | Ok (Some result) => Some (grant_session rq secureCookie (rr_AccessToken result) (rr_RefreshToken result) (rr_SessionID result))
      end.

Definition MFAVerify (rq : AuthRequest) (body : option MFAVerifyRequest) : SM LoginReply :=
  match body with
  | None => ret (refuse_with bad_body)
  | Some q =>
      if negb (bind_mfa_verify q) then ret (refuse_with bad_body) else
      let ty := if bool_decide (mv_Type q = "") then "totp" else mv_Type q in
      if negb (bool_decide (ty = "totp")) && negb (bool_decide (ty = "passkey")) then ret (refuse 400 "unsupported mfa type") else
      if negb (bool_decide (ty = "passkey")) && bool_decide (mv_Code q = "") then ret (refuse 400 "code is required") else
      attempt (VerifyMFALogin s (aq_Ctx rq) (mv_MFAToken q) (mv_Code q) ty (aq_ClientIP rq) (aq_UserAgent rq))
        (λ e, refuse_with (AbortWithServiceError e mfaVerifyErrorMap 401 "MFA verification failed"))
        (grant_login rq secureCookie)
  end.

(** ** [auth_mfa.go] *)
Definition with_mfa {A} (k : MFAService → SM (reply A)) : SM (reply A) :=
  match mfaSvc with None => ret (Failure 503 "MFA service not available") | Some m => k m end.
Definition MFAEnroll (rq : AuthRequest) : SM (reply TOTPEnrollment) :=
  getClaimsFromContext rq (λ tc, with_mfa (λ m,
    attempt (at_app (EnrollTOTP m (cl_AccountID tc)))
      (λ e, if errors_is e ErrInvalidConfig then Failure 503 "MFA service not configured" else Failure 500 "failed to enroll MFA")
      (λ enrollment, ret (Data 200 enrollment)))).
Definition MFAActivate (rq : AuthRequest) (body : option string) : SM (reply string) :=
  match body with
  | None => ret bad_body
  | Some code =>
      if negb (required code 8) then ret bad_body else
      getClaimsFromContext rq (λ tc, with_mfa (λ m,
        let? _ := at_app (ActivateTOTP m (cl_AccountID tc) code) else Failure 400 "invalid activation code" in
        ret (Data 200 "TOTP activated")))
  end.
Definition MFADisable (rq : AuthRequest) (body : option string) : SM (reply string) :=
  match body with
  | None => ret bad_body
  | Some currentPassword =>
      if negb (required currentPassword 72) then ret bad_body else
      getClaimsFromContext rq (λ tc, with_mfa (λ m,
        let? _ := VerifyCurrentPassword (cl_AccountID tc) currentPassword else Failure 403 "invalid password" in
        let? _ := at_app (DisableTOTP (cl_AccountID tc)) else Failure 500 "failed to disable MFA" in
        ret (Data 200 "MFA disabled")))
  end.
Definition MFAGenerateBackupCodes (rq : AuthRequest) : SM (reply (list string)) :=
  getClaimsFromContext rq (λ tc, with_mfa (λ m,
    let? codes := at_app (GenerateBackupCodes m (cl_AccountID tc)) else Failure 500 "failed to generate backup codes" in
    ret (Data 200 codes))).
Definition MFAStatusHandler (rq : AuthRequest) : SM (reply MFAStatus) :=
  getClaimsFromContext rq (λ tc, with_mfa (λ m,
    let? status := at_app (GetMFAStatus m (cl_AccountID tc)) else Failure 500 "failed to get MFA status" in
    ret (Data 200 status))).

(** ** [auth_password.go] *)
(** The answer does not depend on what happened. *)
Definition ForgotPassword (body : option string) : SM (reply string) :=
  match body with
  | None => ret bad_body
  | Some email =>
      if bool_decide (email = "") || negb (is_email email) then ret bad_body else
      ignore (RequestReset pcfg emailSvc email) ;;
      ret (Data 200 "if the email exists, a reset link has been sent")
  end.
Definition ResetPassword (busy : bool) (rq : AuthRequest) (body : option ResetPasswordRequest) : SM (reply string) :=
  match body with
  | None => ret bad_body
  | Some q =>
      if bool_decide (rp_Token q = "") || negb (bind_password (rp_NewPassword q)) then ret bad_body else
      let? _ := VerifyAndReset pcfg tcfg tr busy (aq_Ctx rq) (rp_Token q) (rp_NewPassword q)
        else Failure 400 "invalid or expired reset token" in
      ret (Data 200 "password has been reset successfully")
  end.
(** The errors about the new password are told by their text. *)
Definition password_fault (e : err) : bool :=
  errors_is e ErrUtilPasswordTooLong || errors_is e ErrPasswordTooShort || errors_is e ErrPasswordComplexity
  || scontains "password" (error_text e) && negb (scontains "hash" (error_text e)).
Definition ChangePasswordHandler (rq : AuthRequest) (body : option ChangePasswordRequest) : SM (reply string) :=
  let bad := Failure 400 "invalid request body or password too short/long" in
  match body with
  | None => ret bad
  | Some q =>
      if negb (required (cq_CurrentPassword q) 72) || negb (bind_password (cq_NewPassword q)) then ret bad else
      getClaimsFromContext rq (λ tc,
        let? _ := VerifyCurrentPassword (cl_AccountID tc) (cq_CurrentPassword q) else Failure 403 "incorrect current password" in
        attempt (ChangePassword opts (cl_AccountID tc) (cq_CurrentPassword q) (cq_NewPassword q))
          (λ e, if errors_is e ErrSamePassword then Failure 400 "new password must be different from current password"
                else if errors_is e ErrAccountNotActive then Failure 409 (error_text e)
                else if password_fault e then Failure 400 (error_text e)
                else Failure 500 "failed to change password")
          (λ _, ret (Data 200 "password changed successfully")))
  end.

(** ** [auth_profile.go] *)
Definition UpdateProfileHandler (rq : AuthRequest) (body : option string) : SM (reply (string * option string * string)) :=
  match body with
  | None => ret bad_body
  | Some displayName =>
      if negb (required displayName 100) then ret bad_body else
      getClaimsFromContext rq (λ tc,
        let? account := UpdateProfile (aq_Ctx rq) (cl_AccountID tc) displayName else Failure 500 "failed to update profile" in
        ret (Data 200 (a_ID account, a_Username account, a_DisplayName account)))
  end.
Definition bind_email (s : string) : bool := required s 254 && is_email s.
Definition RequestEmailChange (rq : AuthRequest) (body : option EmailChangeRequest) : SM (reply string) :=
  match body with
  | None => ret bad_body
  | Some q =>
      if negb (bind_email (eq_NewEmail q)) || negb (required (eq_Password q) 72) then ret bad_body else
      getClaimsFromContext rq (λ tc,
        attempt (VerifyCurrentPassword (cl_AccountID tc) (eq_Password q))
          (λ e, if errors_is e ErrInvalidCredentials then Failure 401 "incorrect password" else Failure 500 "failed to verify password")
          (λ _,
        let? available := at_app (IsEmailAvailable (eq_NewEmail q)) else Failure 500 "failed to check email availability" in
        if negb available then ret (Failure 409 "email already in use") else
        attempt (at_world (SendCode vcfg emailSvc smsSvc "email" (eq_NewEmail q) (cl_AccountID tc)))
          (λ e, if errors_is e ErrCooldownActive then Failure 429 "too many requests, please try again later"
                else Failure 500 "failed to send verification code")
          (λ _, ret (Data 200 "verification code sent"))))
  end.
Definition ConfirmEmailChange (rq : AuthRequest) (body : option EmailConfirmRequest) : SM (reply string) :=
  match body with
  | None => ret bad_body
  | Some q =>
      if negb (bind_email (ef_NewEmail q)) || negb (required (ef_Code q) 32) then ret bad_body else
      getClaimsFromContext rq (λ tc,
        attempt (at_world (VerifyCodeForAccount vcfg "email" (ef_NewEmail q) (ef_Code q) (cl_AccountID tc)))
          (λ e, if errors_is e ErrVerificationCodeExpired || errors_is e ErrVerificationCodeInvalid || errors_is e ErrVerificationCodeExhausted
                then Failure 400 "invalid or expired verification code" else Failure 500 "failed to verify code")
          (λ _,
        attempt (UpdateEmail (aq_Ctx rq) (cl_AccountID tc) (ef_NewEmail q))
          (λ e, if errors_is e ErrEmailAlreadyInUse then Failure 409 "email already in use" else Failure 500 "failed to update email")
          (λ _, ret (Data 200 "email updated successfully"))))
  end.

(** ** [auth_session.go] *)
(** The cookies go away when the logout is complete. *)
Definition LogoutHandler (rq : AuthRequest) : SM (reply string * list SetCookie) :=
  match ca_claims (aq_Caller rq) with
  | None => ret (Failure 401 "authentication required", [])
  | Some tc =>
      let! failed := AuthLogin.Logout s (aq_Ctx rq) (cl_AccountID tc) (cl_SessionID tc) (cl_ID tc) (default zero_time (cl_ExpiresAt tc)) in
      ret (if bool_decide (failed = []) then (Data 200 "logged out", clearedCookies secureCookie)
           else (Failure 500 "logout incomplete", []))
  end.
Definition GetSessionHandler (rq : AuthRequest) : SM (reply Session) :=
  getClaimsFromContext rq (λ _,
    match aq_Session rq with
    | None => ret (Failure 401 "session invalid")
    | Some p => let! x := at_sess (load_obj p) in ret (Data 200 x)
    end).
Definition ListSessions (rq : AuthRequest) : SM (reply (list Session)) :=
  getClaimsFromContext rq (λ tc,
    let? sessions := at_sess (ListSessionsByAccount (as_sessionSvc s) tr (cl_AccountID tc)) else Failure 500 "failed to list sessions" in
    ret (Data 200 sessions)).
Definition RevokeSessionHandler (rq : AuthRequest) (id : string) : SM (reply bool) :=
  getClaimsFromContext rq (λ tc, ValidateUUID id "session_id" (
    if bool_decide (id = cl_SessionID tc) then ret (Failure 400 "use /logout to revoke current session") else
    attempt (at_sess (RevokeSession tr (cl_AccountID tc) id))
      (λ e, AbortWithServiceError e revokeSessionErrorMap 500 "Failed to revoke session")
      (λ _, ret (Data 200 true)))).

(** ** [auth_verification.go] *)
Definition known_type (ty : string) : bool := bool_decide (ty = "email") || bool_decide (ty = "phone").
Definition SendVerification (rq : AuthRequest) (body : option (string * string)) : SM (reply string) :=
  match body with
  | None => ret bad_body
  | Some (ty, identifier) =>
      if bool_decide (ty = "") || negb (required identifier 255) then ret bad_body else
      if negb (known_type ty) then ret (Failure 400 "type must be 'email' or 'phone'") else
      if bool_decide (ty = "email") && bool_decide (mail_parse identifier = None) then ret (Failure 400 "invalid email format") else
      if bool_decide (ty = "phone") && negb (ValidatePhoneFormat identifier) then ret (Failure 400 "invalid phone format") else
      if bool_decide (ty = "phone") then ret (Failure 501 "phone verification is not yet supported") else
      getClaimsFromContext rq (λ tc,
        let? _ := at_app (ValidateCredentialOwnership (cl_AccountID tc) CredentialTypeEmail identifier) else Failure 400 "invalid request" in
        attempt (at_world (SendCode vcfg emailSvc smsSvc ty identifier (cl_AccountID tc)))
          (λ e, AbortWithServiceError e sendVerificationErrorMap 500 "failed to send verification code")
          (λ _, ret (Data 200 "verification code sent")))
  end.
Definition ConfirmVerification (rq : AuthRequest) (body : option VerificationRequest) : SM (reply string) :=
  match body with
  | None => ret bad_body
  | Some q =>
      if bool_decide (vq_Type q = "") || negb (required (vq_Identifier q) 255) || negb (required (vq_Code q) 32) then ret bad_body else
      if negb (known_type (vq_Type q)) then ret (Failure 400 "type must be 'email' or 'phone'") else
      if bool_decide (vq_Type q = "phone") then ret (Failure 501 "phone verification is not yet supported") else
      getClaimsFromContext rq (λ tc,
        attempt (at_world (VerifyCodeForAccount vcfg (vq_Type q) (vq_Identifier q) (vq_Code q) (cl_AccountID tc)))
          (λ e, if errors_is e ErrServiceUnavailable
                then AbortWithServiceError e sendVerificationErrorMap 503 "service temporarily unavailable"
                else Failure 400 "invalid verification code")
          (λ _,
        let? _ := at_app (ConfirmVerificationCredential (vq_Type q) (vq_Identifier q) (cl_AccountID tc))
          else Failure 400 "invalid verification code" in
        ret (Data 200 "credential verified")))
  end.

(** ** [passkey_controller.go]

    A request whose body the service reads again comes with its text as well. The service
    is [None] when it is not configured: one endpoint asks, the others fall over. *)
Context (passkeySvc : option PasskeyCfg).
Definition passkeys {A} (k : PasskeyCfg → SM A) : SM A := match passkeySvc with None => fail nil_panic | Some p => k p end.
(** Errors are handled; a panic is not an error. *)
Definition call {A B} (m : SM A) (on_err : err → B) (k : A → SM B) : SM B :=
  let! r := try m in
  match r with
  | Ok x => k x
  | Err e => if bool_decide (e = nil_panic) then fail e else ret (on_err e)
  end.

Definition resolveAccountForPasskey {A} (rq : AuthRequest) (k : string → string → string → SM (reply A)) : SM (reply A) :=
  RequireAccountID (ca_account (aq_Caller rq)) (λ accountID, passkeys (λ _,
    attempt (at_app (ResolveAccountForRegistration accountID)) (λ _, Failure 404 "account not found")
      (λ '(username, displayName), k accountID username displayName))).
Definition RegisterBegin (rq : AuthRequest) : SM (reply (WaOptions * string)) :=
  resolveAccountForPasskey rq (λ accountID username displayName, passkeys (λ p,
    let? options := at_app (BeginRegistration p accountID username displayName) else Failure 500 "failed to begin registration" in
    ret (Data 200 options))).
(** A body that cannot be decoded has no name. *)
Definition RegisterComplete (rq : AuthRequest) (request_id : string) (name : option string) (text : string) : SM (reply (string * string)) :=
  ValidateUUID request_id "request_id" (resolveAccountForPasskey rq (λ accountID username displayName,
    call (at_app (CompleteRegistration request_id accountID username displayName (default "" name) text))
      (λ e, AbortWithServiceError e passkeyRegistrationErrorMap 400 "registration failed")
      (λ cred, ret (Data 200 (wc_ID cred, wc_Name cred))))).
Definition LoginBegin (body : option string) : SM (reply (WaOptions * string)) :=
  match body with
  | None => ret bad_body
  | Some accountID =>
      if bool_decide (accountID = "") then
        passkeys (λ p, let? options := at_app (BeginDiscoverableLogin p) else Failure 500 "failed to begin login" in ret (Data 200 options))
      else if negb (uuid_parse accountID) then ret (Failure 400 "invalid account_id format") else
        passkeys (λ p, attempt (at_app (BeginLogin p accountID))
          (λ e, AbortWithServiceError e passkeyLoginErrorMap 500 "Failed to begin passkey login")
          (λ options, ret (Data 200 options)))
  end.
Definition LoginComplete (rq : AuthRequest) (request_id : option string) (text : string) : SM LoginReply :=
  match request_id with
  | None | Some "" => ret (refuse_with bad_body)
  | Some requestID => passkeys (λ _,
      let? (accountID, _) := at_app (CompleteLogin requestID text) else refuse 401 "login failed" in
      let? result := LoginByPasskey s (aq_Ctx rq) accountID (aq_ClientIP rq) (aq_UserAgent rq) else refuse 401 "login failed" in
      mfa_or_grant rq (isSecureRequest rq) result)
  end.
Definition MFABegin (body : option string) : SM (reply (WaOptions * string)) :=
  match body with
  | None | Some "" => ret bad_body
  | Some mfaToken =>
      match passkeySvc with
      | None => ret (Failure 503 "passkey not available")
      | Some p =>
          let? claims := ValidateMFAToken s mfaToken else Failure 401 "invalid mfa token" in
          let? options := at_app (BeginMFALogin p (cl_AccountID claims)) else Failure 500 "failed to begin MFA" in
          ret (Data 200 options)
      end
  end.
Definition MFAComplete (rq : AuthRequest) (body : option MFACompleteRequest) (text : string) : SM LoginReply :=
  match body with
  | None => ret (refuse_with bad_body)
  | Some q =>
      if bool_decide (mc_MFAToken q = "") || bool_decide (mc_RequestID q = "") then ret (refuse_with bad_body) else
      let? claims := ValidateMFAToken s (mc_MFAToken q) else refuse 401 "invalid mfa token" in
      passkeys (λ _,
      let? _ := at_app (CompleteMFALogin (mc_RequestID q) (cl_AccountID claims) text) else refuse 401 "passkey verification failed" in
      let? _ := MarkPasskeyMFAVerified s (cl_ID claims) else refuse 500 "internal server error" in
      let? result := CompletePasskeyMFALogin s (aq_Ctx rq) (mc_MFAToken q) (aq_ClientIP rq) (aq_UserAgent rq)
        else refuse 401 "MFA verification failed" in
      grant_login rq (isSecureRequest rq) result)
  end.
Definition ListPasskeys (rq : AuthRequest) : SM (reply (list PasskeyCredentialView)) :=
  RequireAccountID (ca_account (aq_Caller rq)) (λ accountID, passkeys (λ _,
    let? creds := at_app (ListCredentials accountID) else Failure 500 "failed to list passkeys" in
    ret (Data 200 creds))).
Definition DeletePasskey (rq : AuthRequest) (id : string) : SM (reply bool) :=
  RequireAccountID (ca_account (aq_Caller rq)) (λ accountID,
    if bool_decide (id = "") then ret (Failure 400 "credential id required") else
    if negb (uuid_parse id) then ret (Failure 400 "invalid credential id") else
    passkeys (λ _, attempt (at_app (DeleteCredential accountID id))
      (λ e, AbortWithServiceError e passkeyDeleteErrorMap 500 "Failed to delete passkey")
      (λ _, ret (Data 200 true)))).
End controller.
