(* ===== verification/SocialLogin.v ===== *)
(** * Login through an identity provider

    [internal/auth/service/social_login_service.go] and
    [internal/auth/controller/auth_social.go]. The requests to a provider are the
    parameter [ProviderHTTP], with the decoding of its answers; the URLs of a provider are
    in the form [url.Parse] and [String] give. *)
From S2P Require Import Prelude GoTime Json Hash Url Redis World Cache TokenDomain TokenService Session SessionService GoStrings AccountDomain Credential OAuthDomain Database ClientRepo ClientService ClientController AccountRepo Mfa Scan Site Verification AccountService AuthMiddleware OAuthController TokenEndpoint AuthCore AuthLogin AuthController.
Local Open Scope Z_scope.

Definition ErrProviderURLNotSecure := Sentinel "social login: provider URL must use HTTPS".
Definition ErrFailedToCreateAccount := Sentinel "failed to create account".
Definition maxSocialLoginResponseBodySize : Z := 1048576.
Record OAuthProviderConfig : Type := mkProvider {
  op_ClientID : string;
  op_ClientSecret : string;
  op_RedirectURI : string;
  op_Scopes : list string;
  op_AuthURL : string;
  op_TokenURL : string;
  op_UserInfoURL : string;
}.

(** ** The answers of providers *)
(** A member of type [any]; a number is what it prints as without fraction. *)
Inductive provider_id : Type := IDMissing | IDText (s : string) | IDNumber (z : Z) | IDOther.
Record ProviderInfo : Type := mkProviderInfo {
  pi_ID : provider_id;
  pi_Email : string;
  pi_Name : string;
  pi_EmailVerified : bool;
  pi_OpenID : string;
  pi_Nickname : string;
}.
Class ProviderHTTP (R : Type) := {
  (** URL and form; status and body *)
  http_post : string → list (string * string) → M (World R) (Z * string);
  (** URL and bearer token *)
  http_get : string → string → M (World R) (Z * string);
  (** the member [access_token] *)
  decode_token : string → option string;
  (** the members that the type of the provider has *)
  decode_info : string → string → option ProviderInfo;
}.
Definition first_bytes (n : Z) (s : string) : string := if n <? slen s then String.substring 0 (Z.to_nat n) s else s.

Definition normalizeProviderID (id : provider_id) (provider : string) : res string :=
  match id with
  | IDMissing => Err (Anon (provider +:+ ": missing id field"))
  | IDText s => if bool_decide (s = "") then Err (Anon (provider +:+ ": empty id field")) else Ok s
  | IDNumber z => Ok (dec z)
  | IDOther => Err (Anon (provider +:+ ": unexpected id type"))
  end.
(** Identifier, address, name, whether the provider verified the address. *)
Definition profile_of (provider : string) (info : ProviderInfo) : res (string * string * string * bool) :=
  if bool_decide (provider = "google") then
    match normalizeProviderID (pi_ID info) "google" with
    | Ok id => Ok (id, pi_Email info, pi_Name info, pi_EmailVerified info) | Err e => Err e end
  else if bool_decide (provider = "github") then
    match normalizeProviderID (pi_ID info) "github" with
    | Ok id => Ok (id, pi_Email info, pi_Name info, false) | Err e => Err e end
  else if bool_decide (pi_OpenID info = "") then Err (Anon "wechat: missing or empty openid")
  else Ok (pi_OpenID info, "", pi_Nickname info, false).

(** ** URLs *)
Definition validateProviderURL (rawURL fieldName : string) : res unit :=
  if bool_decide (rawURL = "") then Ok tt else
  match url_parse rawURL with
  | None => Err (Wrap (fieldName +:+ ": invalid URL") (Anon "parse"))
  | Some u =>
      let host := ToLower (url_Hostname u) in
      if existsb (λ h, bool_decide (host = h)) ["localhost"; "127.0.0.1"; "::1"] then Ok tt
      else if negb (bool_decide (url_Scheme u = "https")) then Err (Wrap fieldName ErrProviderURLNotSecure)
      else Ok tt
  end.
(** The providers are checked in some order. *)
Fixpoint NewSocialLoginService (providers : list (string * OAuthProviderConfig)) : res unit :=
  match providers with
  | [] => Ok tt
  | (name, p) :: l =>
      match validateProviderURL (op_AuthURL p) (name +:+ ".auth_url"), validateProviderURL (op_TokenURL p) (name +:+ ".token_url"),
            validateProviderURL (op_UserInfoURL p) (name +:+ ".userinfo_url") with
      | Ok _, Ok _, Ok _ => NewSocialLoginService l
      | Err e, _, _ | _, Err e, _ | _, _, Err e => Err e
      end
  end.
(** [url.Values.Encode]: in the order of the keys, which is the order given here. *)
Definition encode_params (l : list (string * string)) : string :=
  String.concat "&" (map (λ p, QueryEscape p.1 +:+ "=" +:+ QueryEscape p.2) l).
(** The query of a URL is replaced. *)
Definition with_query (url query : string) : string :=
  let '(u, frag) := match cut "#" url with Some (a, b) => (a, "#" +:+ b) | None => (url, "") end in
  Url.before "?" u +:+ "?" +:+ query +:+ frag.

Section service.
Context {R : Type} `{RedisServer R} `{JwtLib} `{Postgres} `{Bcrypt} `{Argon2} `{Totp} `{AesGcm} `{Unicode} `{Lower} `{MailLib} `{!ProviderHTTP R}.
Context (s : AuthService R) (checksMFA : bool) (providers : list (string * OAuthProviderConfig)).
#[local] Abbreviation AM := (M (App R)).
#[local] Abbreviation SM := (M (Site R)).

Definition provider_config (provider : string) : option OAuthProviderConfig :=
  snd <$> List.find (λ p, bool_decide (p.1 = provider)) providers.
Definition GenerateAuthState : M (World R) string :=
  let! bytes := wrap "generate auth state" (rand_read 32) in ret (hex_encode bytes).
Definition GetAuthURL (provider state : string) : res string :=
  match provider_config provider with
  | None => Err (Wrap provider ErrUnsupportedProvider)
  | Some p =>
      if bool_decide (op_AuthURL p = "") then Err (Anon ("auth URL not configured for provider: " +:+ provider)) else
      match url_parse (op_AuthURL p) with
      | None => Err (Wrap ("parse auth URL for provider " +:+ provider) (Anon "parse"))
      | Some _ => Ok (with_query (op_AuthURL p) (encode_params
          [("client_id", op_ClientID p); ("redirect_uri", op_RedirectURI p); ("response_type", "code");
           ("scope", join_space (op_Scopes p)); ("state", state)]))
      end
  end.

Definition exchangeCode (p : OAuthProviderConfig) (code : string) : M (World R) string :=
  let! (status, body) := wrap "token request" (http_post (op_TokenURL p)
    [("grant_type", "authorization_code"); ("code", code); ("client_id", op_ClientID p);
     ("client_secret", op_ClientSecret p); ("redirect_uri", op_RedirectURI p)]) in
  guard_err (negb (status =? 200)) (Anon "token request failed") ;;
  match decode_token (first_bytes maxSocialLoginResponseBodySize body) with
  | None => fail (Wrap "parse token response" (Anon "json"))
  | Some t => guard_err (bool_decide (t = "")) (Anon "no access_token in response") ;; ret t
  end.
Definition fetchUserInfo (provider : string) (p : OAuthProviderConfig) (accessToken : string) : M (World R) (string * string * string * bool) :=
  let! (status, body) := wrap "userinfo request" (http_get (op_UserInfoURL p) accessToken) in
  guard_err (negb (status =? 200)) (Anon "userinfo request failed") ;;
  guard_err (negb (IsValidProvider provider)) (Wrap provider ErrUnsupportedProvider) ;;
  match decode_info provider (first_bytes maxSocialLoginResponseBodySize body) with
  | None => fail (Wrap ("parse " +:+ provider +:+ " userinfo") (Anon "json"))
  | Some info => lift_res (profile_of provider info)
  end.

(** ** Sessions *)
Definition issueSessionAndTokens (ctx : Ctx) (account : Account) (ip userAgent : string) : SM LoginResult :=
  let! mfaResult := (if checksMFA then handleMFARequirement s account else ret None) in
  match mfaResult with
  | Some result => ret result
  | None =>
      let! (session, accessToken, refreshToken) := createSessionAndTokens s ctx account ip userAgent in
      ret (buildLoginResult account session accessToken refreshToken)
  end.
Definition loginExistingUser (ctx : Ctx) (accountID ip userAgent : string) : SM LoginResult :=
  on_failure ActionLoginFailure (Some accountID) [("method", "social"); ("account_id", accountID); ("ip", ip); ("user_agent", userAgent)] (
    let! account := wrap "find account for social login" (at_app (FindAccountByID accountID)) in
    guard_err (negb (IsActive (Some account))) ErrAccountNotActive ;;
    issueSessionAndTokens ctx account ip userAgent).

(** ** Accounts *)
Definition new_identity (accountID provider providerUserID : string) : AM FederatedIdentity :=
  wrap "create federated identity"
    (let! t := app_now in let! id := in_world uuid_new in lift_res (NewFederatedIdentity t id accountID provider providerUserID None)).
(** [None]: no account has verified the address; the caller goes on. *)
Definition linkByEmailIfVerified (ctx : Ctx) (provider providerUserID email ip userAgent : string) : SM (option LoginResult) :=
  let! r := try (at_app (FindByTypeAndIdentifier CredentialTypeEmail email)) in
  match r with
  | Err e => if errors_is e ErrCredentialNotFound then ret None else fail (Wrap "find credential by email" e)
  | Ok existingCred =>
      if negb (IsVerified (Some existingCred)) then ret None else
      let! identity := at_app (new_identity (cr_AccountID existingCred) provider providerUserID) in
      let! linked := try (at_app (RunInTransaction (CreateFederatedIdentity identity))) in
      guard_err (match linked with Ok _ => false | Err e => negb (errors_is e ErrUniqueViolation) end)
        (match linked with Ok _ => Anon "" | Err e => Wrap "link federated identity" e end) ;;
      let! result := loginExistingUser ctx (cr_AccountID existingCred) ip userAgent in
      ret (Some result)
  end.
Definition email_of_account (accountID email : string) (emailVerified : bool) : AM unit :=
  if bool_decide (email = "") then ret tt else
  wrap "create email credential" (
    let! t := app_now in
    let! id := in_world uuid_new in
    let! c := lift_res (NewEmailCredential t id accountID email) in
    let! t := app_now in
    let c := set_primary true c in
    CreateCredentials [if emailVerified : bool then credential_Verify t c else c]).
Definition createAccountWithIdentity (account : Account) (provider providerUserID email : string) (emailVerified : bool) : AM unit :=
  RunInTransaction (
    wrap "create account" (CreateAccount (Sanitize account)) ;;
    email_of_account (a_ID account) email emailVerified ;;
    let! identity := new_identity (a_ID account) provider providerUserID in
    wrap "create federated identity" (CreateFederatedIdentity identity)).
Definition register_social (ctx : Ctx) (account : Account) (provider ip userAgent : string) : SM LoginResult :=
  login_audit "account.register" (Some (a_ID account))
    [("account_id", a_ID account); ("provider", provider); ("ip", ctx_ip ctx); ("user_agent", ctx_ua ctx)] ;;
  issueSessionAndTokens ctx account ip userAgent.
Definition createNewUser (ctx : Ctx) (provider providerUserID email name : string) (emailVerified : bool) (ip userAgent : string) : SM LoginResult :=
  let email := if bool_decide (email = "") || bool_decide (is_Some (mail_parse email)) then email else "" in
  let! linked := (if bool_decide (email = "") then ret None else linkByEmailIfVerified ctx provider providerUserID email ip userAgent) in
  match linked with
  | Some result => ret result
  | None =>
      let! account := wrap "create account" (at_app (
        let! id := in_world uuid_new in let! t := app_now in
        lift_res (NewAccount t id (if bool_decide (name = "") then "User" else name)))) in
      let! r := try (at_app (createAccountWithIdentity account provider providerUserID email emailVerified)) in
      match r with
      | Ok _ => register_social ctx (Sanitize account) provider ip userAgent
      | Err e =>
          let! linked := (if negb (bool_decide (email = "")) && errors_is e ErrUniqueViolation
                          then linkByEmailIfVerified ctx provider providerUserID email ip userAgent else ret None) in
          match linked with
          | Some result => ret result
          | None => fail (Wrap (error_text e) ErrFailedToCreateAccount)
          end
      end
  end.
Definition HandleCallback (ctx : Ctx) (provider code ip userAgent : string) : SM LoginResult :=
  match provider_config provider with
  | None => fail (Wrap provider ErrUnsupportedProvider)
  | Some p =>
      let! accessToken := wrap "exchange code" (at_world (exchangeCode p code)) in
      let! (providerUserID, email, name, emailVerified) := wrap "fetch user info" (at_world (fetchUserInfo provider p accessToken)) in
      let! r := try (at_app (FindByProvider provider providerUserID)) in
      match r with
      | Ok known => loginExistingUser ctx (fi_AccountID known) ip userAgent
      | Err e =>
          guard_err (negb (errors_is e ErrFederatedIdentityNotFound)) (Wrap "find federated identity" e) ;;
          createNewUser ctx provider providerUserID email name emailVerified ip userAgent
      end
  end.
End service.

(** ** [auth_social.go] *)
Definition validSocialProviders : list string := ["google"; "github"; "wechat"].
Definition socialCookieName : string := "oauth_state".
Definition socialCookiePath : string := "/api/auth/social".
(** At the first colon. *)
Definition splitOAuthState (state : string) : option (string * string) :=
  match cut ":" state with
  | Some (nonce, ip) => if bool_decide (nonce = "") || bool_decide (ip = "") then None else Some (nonce, ip)
  | None => None
  end.
(** An address is eight groups of 16 bits; of an IPv4 address the last two count. *)
Definition sameSubnet24 (ip1 ip2 : string) : bool :=
  match ParseIP ip1, ParseIP ip2 with
  | Some a, Some b =>
      if is_v4 a && is_v4 b then
        match drop 6 a, drop 6 b with
        | [a1; a2], [b1; b2] => (a1 =? b1)%N && (a2 / 256 =? b2 / 256)%N
        | _, _ => false
        end
      else bool_decide (take 4 a = take 4 b)
  | _, _ => false
  end.
Definition state_accepted (state savedNonce clientIP : string) : bool :=
  negb (bool_decide (state = "")) && negb (bool_decide (savedNonce = "")) &&
  match splitOAuthState state with
  | Some (nonce, ip) => bool_decide (nonce = savedNonce) && sameSubnet24 ip clientIP
  | None => false
  end.

Section controller.
Context {R : Type} `{RedisServer R} `{JwtLib} `{Postgres} `{Bcrypt} `{Argon2} `{Totp} `{AesGcm} `{Unicode} `{Lower} `{MailLib} `{!ProviderHTTP R}.
Context (s : AuthService R) (checksMFA secureCookie : bool) (socialSvc : option (list (string * OAuthProviderConfig))).
#[local] Abbreviation SM := (M (Site R)).

Definition stateCookie (nonce : string) (maxAge : Z) : SetCookie := mkCookie socialCookieName nonce maxAge secureCookie "Lax".
(** A redirect to the provider, with the cookie; or a refusal. *)
Definition SocialAuthURL (rq : AuthRequest) (provider : string) : SM (reply string * list SetCookie) :=
  match socialSvc with
  | None => ret (Failure 501 "social login not configured", [])
  | Some providers =>
      if negb (existsb (λ p, bool_decide (p = provider)) validSocialProviders) then ret (Failure 400 "unsupported social provider", []) else
      let? nonce := at_world GenerateAuthState else (Failure 500 "failed to generate state", []) in
      let cookies := [stateCookie nonce 600] in
      ret match GetAuthURL providers provider (nonce +:+ ":" +:+ aq_ClientIP rq) with
          | Err _ => (Failure 400 "social login not available", cookies)
          | Ok authURL => (Data 302 authURL, cookies)
          end
  end.
Definition with_cookie (c : SetCookie) (l : LoginReply) : LoginReply := mkLoginReply (ly_reply l) (c :: ly_cookies l).
Definition SocialCallback (rq : AuthRequest) (provider state code : string) : SM LoginReply :=
  match socialSvc with
  | None => ret (refuse 501 "social login not configured")
  | Some providers =>
      let savedNonce := default "" (Cookie (aq_Request rq) socialCookieName) in
      let answer l := with_cookie (stateCookie "" (-1)) l in
      if negb (state_accepted state savedNonce (aq_ClientIP rq)) then ret (answer (refuse 400 "invalid or missing state parameter")) else
      if negb (existsb (λ p, bool_decide (p = provider)) validSocialProviders) then ret (answer (refuse 400 "unsupported social provider")) else
      if bool_decide (code = "") then ret (answer (refuse 400 "missing code parameter")) else
      if 4096 <? slen code then ret (answer (refuse 400 "code parameter too long")) else
      let? result := HandleCallback s checksMFA providers (aq_Ctx rq) provider code (aq_ClientIP rq) (aq_UserAgent rq)
        else answer (refuse 401 "social login failed") in
      let! r := mfa_or_grant s rq secureCookie result in
      ret (answer r)
  end.
End controller.
