(* ===== verification/AdminController.v ===== *)
(** * [internal/admin/controller] and the audit queries of [internal/audit]

    The handlers of the administration, behind the middleware that checks role, scope and
    permission. The audit table is what a query sees of it; records are written by a
    pipeline outside the model. *)
From S2P Require Import Prelude GoTime Json LuaPattern Hash Url Redis World Cache TokenDomain Session SessionService OAuthDomain GoStrings AccountDomain Credential Database ClientRepo ClientService ClientController AccountRepo Mfa Scan Site Verification AccountService ConsentService AuthMiddleware AuthCore AuthLogin PasswordReset OAuthController AuthController.
Local Open Scope Z_scope.

(** ** [internal/audit]: records and queries *)
Record AuditRecord : Type := mkAuditRecord {
  ar_ID : string;
  ar_CorrelationID : string;
  ar_AccountID : option string;
  ar_Action : string;
  ar_Actor : string;
  ar_Resource : string;
  ar_Old : option string;
  ar_New : option string;
  ar_Meta : option string;
  ar_CreatedAt : Z;
}.
Definition NewRecord {R} (action actor : string) (accountID : option string) (resource : string) (meta : option string) : M (World R) AuditRecord :=
  let! id := uuid_new in
  let! correlation := uuid_new in
  let! t := gets w_now in
  ret (mkAuditRecord id correlation accountID action actor resource None None meta t).
Definition WithOld (old : string) (r : AuditRecord) : AuditRecord :=
  mkAuditRecord (ar_ID r) (ar_CorrelationID r) (ar_AccountID r) (ar_Action r) (ar_Actor r) (ar_Resource r) (Some old) (ar_New r)
    (ar_Meta r) (ar_CreatedAt r).
Definition WithNew (newData : string) (r : AuditRecord) : AuditRecord :=
  mkAuditRecord (ar_ID r) (ar_CorrelationID r) (ar_AccountID r) (ar_Action r) (ar_Actor r) (ar_Resource r) (ar_Old r) (Some newData)
    (ar_Meta r) (ar_CreatedAt r).

Record AuditQueryFilter : Type := mkAuditFilter {
  af_AccountID : string;
  af_EventType : string;
  af_StartTime : option Z;
  af_EndTime : option Z;
  af_Page : Z;
  af_PageSize : Z;
}.
Definition auditMaxPageSize : Z := 100.
(** An [int] has 64 bits; a product wraps around. *)
Definition wrap64 (z : Z) : Z := (z + 2 ^ 63) mod 2 ^ 64 - 2 ^ 63.
Definition clampAuditPagination (page pageSize : Z) : Z * Z * Z :=
  let page := if page <? 1 then 1 else page in
  let pageSize := if (pageSize <? 1) || (auditMaxPageSize <? pageSize) then 20 else pageSize in
  (page, pageSize, wrap64 ((page - 1) * pageSize)).
Definition audit_matches (f : AuditQueryFilter) (r : AuditRecord) : bool :=
  (bool_decide (af_AccountID f = "") || bool_decide (ar_AccountID r = Some (af_AccountID f)))
  && (bool_decide (af_EventType f = "") || bool_decide (ar_Action r = af_EventType f))
  && match af_StartTime f with Some t => t <=? ar_CreatedAt r | None => true end
  && match af_EndTime f with Some t => ar_CreatedAt r <=? t | None => true end.
Definition audit_rows (f : AuditQueryFilter) (t : list AuditRecord) : list AuditRecord :=
  newest_first ar_CreatedAt (List.filter (audit_matches f) t).
(** What the two statements see of the table; [None]: the statement fails. The database
    refuses a negative offset. *)
Definition Query (counted selected : option (list AuditRecord)) (f : AuditQueryFilter) : res (list AuditRecord * Z) :=
  let '(_, pageSize, offset) := clampAuditPagination (af_Page f) (af_PageSize f) in
  match counted with
  | None => Err (Wrap "count audit records" ErrDatabase)
  | Some t =>
      let total := Z.of_nat (length (List.filter (audit_matches f) t)) in
      if total =? 0 then Ok ([], 0) else
      match (if offset <? 0 then None else selected) with
      | None => Err (Wrap "query audit records" ErrDatabase)
      | Some t => Ok (take (Z.to_nat pageSize) (drop (Z.to_nat offset) (audit_rows f t)), total)
      end
  end.

(** ** [admin_controller.go] *)
Definition adminAccountErrorMap : list ErrorRule :=
  [mkRule ErrAccountNotFound 404 "account not found"; mkRule ErrInvalidStatusTransition 409 "invalid account status transition"].
Definition adminCreateAccountErrorMap : list ErrorRule :=
  [mkRule ErrUsernameAlreadyTaken 409 "username already taken"; mkRule ErrEmailAlreadyRegistered 409 "email already registered";
   mkRule ErrPhoneAlreadyRegistered 409 "phone already registered"].
Definition adminDeleteAccountErrorMap : list ErrorRule := [mkRule ErrAccountNotActive 409 "account is not active"].
Definition adminRoleErrorMap : list ErrorRule :=
  [mkRule ErrAccountNotActive 409 "account is not active"; mkRule ErrRoleNotFound 404 "role not found";
   mkRule ErrRoleAssignmentNotFound 404 "role assignment not found"].
Definition adminConsentErrorMap : list ErrorRule := [mkRule ErrConsentNotFound 404 "consent not found"].

(** [uuid.Parse] with its value. *)
Class UUIDValue `{UUIDLib} := {
  uuid_value : string → option N;
  uuid_value_parse s : uuid_parse s = bool_decide (is_Some (uuid_value s));
}.

Record CreateAccountRequestBody : Type := mkCreateBody {
  cb_Username : string;
  cb_DisplayName : string;
  cb_Email : string;
  cb_Phone : string;
  cb_Password : string;
  cb_Locale : string;
  cb_Timezone : string;
}.
Definition bind_create `{ValidatorLib} (b : CreateAccountRequestBody) : bool :=
  required (cb_Username b) 64 && (2 <=? char_count (cb_Username b)) && required (cb_DisplayName b) 255
  && (bool_decide (cb_Email b = "") || is_email (cb_Email b) && (char_count (cb_Email b) <=? 254))
  && (char_count (cb_Phone b) <=? 32) && bind_password (cb_Password b)
  && (char_count (cb_Locale b) <=? 10) && (char_count (cb_Timezone b) <=? 64).

(** [strconv.Atoi] with its error dropped: out of range it is the nearest number. *)
Definition atoi_or_zero (s : string) : Z :=
  match parse_int s with
  | Some v => v
  | None =>
      let '(neg, body) := match s with
        | String c s' => if bool_decide (c = "-"%char) then (true, s') else if bool_decide (c = "+"%char) then (false, s') else (false, s)
        | EmptyString => (false, s) end in
      if bool_decide (body = "") || negb (sforall is_digit body) then 0 else if neg then - 2 ^ 63 else 2 ^ 63 - 1
  end.
Definition query_or (d : string) (q : option string) : string := default d q.

Section admin.
Context {R : Type} `{RedisServer R} `{!ScanServer R} `{Postgres} `{Argon2} `{Unicode} `{Lower} `{MailLib} `{TzLib} `{ValidatorLib}.
Context `{UUIDValue}.
Context (opts : AccountServiceOptions R).
#[local] Abbreviation SM := (M (Site R)).

(** The account of the caller, the empty text when there is none. *)
Definition isSelfAccount (who : Caller) (accountID : string) : bool :=
  let currentAdminID := default "" (ca_account who) in
  if bool_decide (currentAdminID = "") then true
  else match uuid_value currentAdminID, uuid_value accountID with
       | Some a, Some b => (a =? b)%N
       | _, _ => false
       end.
Definition on_other {A} (who : Caller) (accountID : string) (k : SM (reply A)) : SM (reply A) :=
  ValidateUUID accountID "account_id" (
    if isSelfAccount who accountID then ret (Failure 403 "cannot perform this operation on your own account") else k).
(** The last steps of a handler: an error is mapped, success has its text. *)
Definition perform {A} (m : SM unit) (rules : list ErrorRule) (failed : string) (done : A) : SM (reply A) :=
  attempt m (λ e, AbortWithServiceError e rules 500 failed) (λ _, ret (Data 200 done)).
Definition perform_read {A} (m : SM A) (rules : list ErrorRule) (failed : string) : SM (reply A) :=
  attempt m (λ e, AbortWithServiceError e rules 500 failed) (λ x, ret (Data 200 x)).

Definition creation_conflict (e : err) : bool :=
  errors_is e ErrUsernameAlreadyTaken || errors_is e ErrEmailAlreadyRegistered || errors_is e ErrPhoneAlreadyRegistered.
Definition creation_fault (e : err) : bool :=
  existsb (errors_is e) [ErrUsernameEmpty; ErrUsernameTooShort; ErrUsernameTooLong; ErrUsernameInvalidChars; ErrPasswordRequired;
    ErrEmailOrPhoneRequired; ErrUtilPasswordTooLong; ErrPasswordTooShort; ErrPasswordComplexity]
  || existsb (λ t, scontains t (error_text e))
       ["validation failed"; "password"; "username"; "credential:"; "account:"; "invalid timezone"].
Definition CreateAccountHandler (body : option CreateAccountRequestBody) : SM (reply Account) :=
  match body with
  | None => ret (Failure 400 "invalid request body")
  | Some b =>
      if negb (bind_create b) then ret (Failure 400 "invalid request body") else
      if bool_decide (TrimSpace (cb_Email b) = "") && bool_decide (TrimSpace (cb_Phone b) = "")
      then ret (Failure 400 "email or phone is required") else
      attempt (RegisterAccount (mkRegisterAccount (TrimSpace (cb_Username b)) (TrimSpace (cb_DisplayName b))
          (TrimSpace (cb_Email b)) (TrimSpace (cb_Phone b)) (cb_Password b) (TrimSpace (cb_Locale b)) (TrimSpace (cb_Timezone b)) None))
        (λ e, if creation_conflict e then AbortWithServiceError e adminCreateAccountErrorMap 409 "failed to create account"
              else if creation_fault e then Failure 400 (error_text e)
              else Failure 500 "failed to create account")
        (λ account, ret (Data 201 account))
  end.

(** A page: the items, with their roles when they were asked for, and what was asked. *)
Record AccountsPage : Type := mkAccountsPage {
  gp_items : list (Account * option (list Role));
  gp_total : Z;
  gp_page : Z;
  gp_page_size : Z;
}.
Definition page_of (page : option string) : Z :=
  match parse_int (query_or "1" page) with Some v => if v <? 1 then 1 else v | None => 1 end.
Definition page_size_of (page_size : option string) : Z :=
  match parse_int (query_or "20" page_size) with
  | Some v => if v <? 1 then 20 else if MaxPageSize <? v then MaxPageSize else v
  | None => 20
  end.
Definition ListAccountsHandler (page page_size : option string) (status include : string) : SM (reply AccountsPage) :=
  let p := page_of page in
  let n := page_size_of page_size in
  if negb (existsb (λ s, bool_decide (status = s)) [""; "active"; "suspended"; "deleted"])
  then ret (Failure 400 "invalid status value, must be active, suspended, or deleted") else
  if bool_decide (include = "roles") then
    let? (items, total) := at_app (ListAccountSummaries p n status) else Failure 500 "failed to list account summaries" in
    ret (Data 200 (mkAccountsPage items total p n))
  else
    let? (items, total) := at_app (ListAccounts p n status) else Failure 500 "failed to list accounts" in
    ret (Data 200 (mkAccountsPage (map (λ a, (a, None)) items) total p n)).

Definition GetAccountHandler (account_id : string) : SM (reply Account) :=
  ValidateUUID account_id "account_id" (perform_read (at_app (FindAccountByID account_id)) adminAccountErrorMap "Failed to get account").
Definition DeleteAccountHandler (who : Caller) (account_id : string) : SM (reply string) :=
  on_other who account_id (perform (SoftDeleteAccount opts account_id) adminDeleteAccountErrorMap "Failed to delete account" "account deleted").
Definition DisableAccountHandler (who : Caller) (account_id : string) : SM (reply string) :=
  on_other who account_id (perform (SuspendAccount opts account_id) adminAccountErrorMap "Failed to disable account" "account disabled").
Definition EnableAccountHandler (who : Caller) (account_id : string) : SM (reply string) :=
  on_other who account_id (perform (ActivateAccount account_id) adminAccountErrorMap "Failed to enable account" "account enabled").
Definition GetAccountRolesHandler (account_id : string) : SM (reply (list Role)) :=
  ValidateUUID account_id "account_id" (perform_read (at_app (AccountSvc_GetAccountRoles account_id)) adminAccountErrorMap "Failed to get account roles").
Definition AddRoleHandler (who : Caller) (account_id : string) (body : option string) : SM (reply string) :=
  on_other who account_id (
    match body with
    | None | Some "" => ret (Failure 400 "invalid request body")
    | Some roleID => ValidateUUID roleID "role_id" (
        perform (AssignRole opts account_id roleID) adminRoleErrorMap "Failed to assign role" "role assigned")
    end).
Definition RemoveRoleHandler (who : Caller) (account_id role_id : string) : SM (reply string) :=
  on_other who account_id (ValidateUUID role_id "role_id" (
    perform (RemoveRole opts account_id role_id) adminRoleErrorMap "Failed to remove role" "role removed")).
Definition ListConsentsHandler (account_id : string) : SM (reply (list Consent)) :=
  ValidateUUID account_id "account_id" (
    perform_read (at_app (ListConsentsByAccountID account_id)) adminConsentErrorMap "Failed to list consents").
Definition RevokeConsentHandler (who : Caller) (account_id client_id : string) : SM (reply string) :=
  on_other who account_id (ValidateUUID client_id "client_id" (
    perform (at_app (DeleteConsent account_id client_id)) adminConsentErrorMap "Failed to revoke consent" "consent revoked")).
Definition GetLockoutStatusHandler (account_id : string) : SM (reply LockoutStatus) :=
  ValidateUUID account_id "account_id" (perform_read (GetLockoutStatus account_id) [] "failed to get lockout status").
Definition ClearLockoutHandler (who : Caller) (account_id : string) : SM (reply string) :=
  on_other who account_id (perform (ClearLockout account_id) [] "failed to clear lockout" "lockout cleared").
Definition AdminChangePasswordHandler (who : Caller) (account_id : string) (body : option string) : SM (reply string) :=
  on_other who account_id (
    let bad := Failure 400 "invalid request body or password too short/long" in
    match body with
    | None => ret bad
    | Some newPassword =>
        if negb (bind_password newPassword) then ret bad else
        attempt (AdminChangePassword opts account_id newPassword)
          (λ e, if errors_is e ErrAccountNotActive then Failure 409 (error_text e)
                else if errors_is e ErrPasswordRequired || errors_is e ErrSamePassword || password_fault e then Failure 400 (error_text e)
                else Failure 500 "failed to change password")
          (λ _, ret (Data 200 "password changed successfully"))
    end).
Definition ResetMFAHandler (who : Caller) (account_id : string) : SM (reply string) :=
  on_other who account_id (
    attempt (ResetMFA account_id)
      (λ e, if errors_is e ErrAccountNotFound then Failure 404 "account not found" else Failure 500 "failed to reset MFA")
      (λ _, ret (Data 200 "MFA reset successfully"))).

(** The parameters of the query string, empty when they are absent. *)
Record AuditParams : Type := mkAuditParams {
  ap_account_id : string;
  ap_event_type : string;
  ap_start_time : string;
  ap_end_time : string;
  ap_page : option string;
  ap_page_size : option string;
}.
Record AuditPage : Type := mkAuditPage { au_items : list AuditRecord; au_total : Z; au_page : Z; au_page_size : Z }.
Definition time_param (s : string) : option (option Z) :=
  if bool_decide (s = "") then Some None else Some <$> parse_time s.
Definition ListAuditLogs (counted selected : option (list AuditRecord)) (q : AuditParams) : reply AuditPage :=
  if negb (bool_decide (ap_account_id q = "")) && negb (uuid_parse (ap_account_id q)) then Failure 400 "invalid account_id" else
  match time_param (ap_start_time q), time_param (ap_end_time q) with
  | None, _ => Failure 400 "invalid start_time format, use RFC3339"
  | _, None => Failure 400 "invalid end_time format, use RFC3339"
  | Some start, Some end_ =>
      let f := mkAuditFilter (ap_account_id q) (ap_event_type q) start end_
        (atoi_or_zero (query_or "1" (ap_page q))) (atoi_or_zero (query_or "20" (ap_page_size q))) in
      match Query counted selected f with
      | Err _ => Failure 500 "failed to query audit logs"
      | Ok (records, total) => Data 200 (mkAuditPage records total (af_Page f) (af_PageSize f))
      end
  end.
End admin.
