(* ===== verification/Wiring.v ===== *)
(** * [cmd/gosso/web_modules.go]: the account checks and the controller with the services it is built from *)
From S2P Require Import Prelude GoTime Json Redis World TokenDomain TokenService Session SessionService OAuthDomain AccountDomain Credential Database ClientRepo AccountRepo Site AccountService OidcService OAuthController.
Local Open Scope Z_scope.

(** ** The adapters of cmd/gosso/web_modules.go between the OAuth2 endpoints and accounts

    The check whether an account is active is cached in the process; roles and permissions
    are read each time. *)
Definition cacheCleanupInterval : Z := 30 * second.
Definition accountValidatorCacheMaxSize : Z := 1024.
Definition newAccountValidatorAdapter (now : Z) : ActiveCache := mkActiveCache ∅ now 0.

(** The counter goes down by one, not below zero. *)
Definition decrement (n : Z) : Z := if n - 1 <? 0 then 0 else n - 1.
Definition expired_keys (t : Z) (m : gmap string accountValidatorCacheEntry) : list string :=
  omap (λ kv, if ae_expiresAt kv.2 <? t then Some kv.1 else None) (map_to_list m).
Definition cleanup (t : Z) (c : ActiveCache) : ActiveCache :=
  if cacheCleanupInterval <? t - av_lastCleanup c then
    let c' := foldl (λ c k, mkActiveCache (delete k (av_cache c)) (av_lastCleanup c) (decrement (av_cacheSize c)))
                c (expired_keys t (av_cache c)) in
    mkActiveCache (av_cache c') t (av_cacheSize c')
  else c.

Section adapters.
Context {R : Type} `{Postgres} (cacheTTL : Z).
#[local] Abbreviation SM := (M (Site R)).

Definition active_store (replacing : bool) (accountID : string) (active : bool) : SM unit := λ s,
  let c := si_active s in
  (Ok tt,
   if replacing || (av_cacheSize c <? accountValidatorCacheMaxSize) then
     put_active (mkActiveCache (<[accountID := mkActiveEntry active (w_now (si_world s) + cacheTTL)]> (av_cache c))
                   (av_lastCleanup c) (if replacing then av_cacheSize c else av_cacheSize c + 1)) s
   else s).

Definition lookup_active (replacing : bool) (accountID : string) : SM bool :=
  let! r := try (at_app (FindAccountByID accountID)) in
  match r with
  | Err e => (if errors_is e ErrAccountNotFound then active_store replacing accountID false else ret tt) ;; ret false
  | Ok account => active_store replacing accountID (IsActive (Some account)) ;; ret (IsActive (Some account))
  end.
(** An expired entry goes before the lookup, without the counter. *)
Definition IsAccountActive (accountID : string) : SM bool :=
  let! t := site_now in
  modify (λ s, put_active (cleanup t (si_active s)) s) ;;
  let! entry := gets (λ s, av_cache (si_active s) !! accountID) in
  match entry with
  | None => lookup_active false accountID
  | Some cached =>
      if t <? ae_expiresAt cached then ret (ae_active cached)
      else
        modify (λ s, let c := si_active s in
          put_active (mkActiveCache (delete accountID (av_cache c)) (av_lastCleanup c) (av_cacheSize c)) s) ;;
        lookup_active true accountID
  end.

Definition SoftDeleteOAuth2ClientsByAccount (accountID : string) (deletedAt : Z) : M (App R) unit :=
  ClientRepo_SoftDeleteByAccountID accountID deletedAt.

Definition GetAccountRoles (accountID : string) : SM (list string) :=
  let! roles := at_app (AccountSvc_GetAccountRoles accountID) in
  ret (map r_Name roles).
(** Each permission once, in the order of its first occurrence. *)
Definition add_new (acc : list string) (p : string) : list string := if bool_decide (p ∈ acc) then acc else acc ++ [p].
Definition distinct (l : list string) : list string := foldl add_new [] l.
Definition GetAccountPermissions (accountID : string) : SM (list string) :=
  let! roles := at_app (AccountSvc_GetAccountRoles accountID) in
  ret (distinct (concat (map r_Permissions roles))).

(** ** Properties *)
Implicit Types s : Site R.

Lemma cleanup_lookup t c k e : av_cache (cleanup t c) !! k = Some e → av_cache c !! k = Some e.
Proof.
  unfold cleanup. destruct (_ <? _); [|done]. cbn.
  generalize (expired_keys t (av_cache c)) as l. intros l. revert c. induction l as [|k' l IH]; intros c; cbn; [done|].
  intros Hl%IH. cbn in Hl. by apply lookup_delete_Some in Hl as [_ ?].
Qed.

(** The cache is never larger than its counter, which never passes the bound. *)
Definition cache_bounded (c : ActiveCache) : Prop :=
  Z.of_nat (size (av_cache c)) <= av_cacheSize c <= accountValidatorCacheMaxSize.

Lemma size_delete_le {V} (m : gmap string V) k : (size (delete k m) <= size m)%nat.
Proof. rewrite map_size_delete. destruct (m !! k); cbn; lia. Qed.
Lemma size_delete_in {V} (m : gmap string V) k : is_Some (m !! k) → Z.of_nat (size (delete k m)) = Z.of_nat (size m) - 1.
Proof.
  intros [v Hv]. rewrite map_size_delete, Hv. enough (0 < size m)%nat by lia.
  enough (size m ≠ 0)%nat by lia. intros ->%map_size_empty_inv. by rewrite lookup_empty in Hv.
Qed.
Lemma cleanup_bounded t c : cache_bounded c → cache_bounded (cleanup t c).
Proof.
  intros Hc. unfold cleanup. destruct (_ <? _); [|done].
  set (f := λ c k, mkActiveCache _ _ _).
  enough (∀ l c, NoDup l → (∀ k, k ∈ l → is_Some (av_cache c !! k)) → cache_bounded c → cache_bounded (foldl f c l)) as Hf.
  { apply (Hf (expired_keys t (av_cache c)) c); [..|exact Hc].
    - unfold expired_keys. assert (NoDup (map fst (map_to_list (av_cache c)))) as Hnd by apply NoDup_fst_map_to_list.
      revert Hnd. generalize (map_to_list (av_cache c)). intros l. induction l as [|[k e] l IH]; cbn; [constructor|].
      intros [Hk Hl]%NoDup_cons. destruct (_ <? _); [|by apply IH]. constructor; [|by apply IH].
      intros ([k' e']&Hin&Heq)%list_elem_of_omap. destruct (_ <? _); [|done]. injection Heq as ->. apply Hk.
      apply list_elem_of_fmap. by exists (k, e').
    - intros k ([k' e]&Hin&Heq)%list_elem_of_omap. destruct (_ <? _); [|done]. injection Heq as ->.
      apply elem_of_map_to_list in Hin. cbn in Hin. by rewrite Hin. }
  intros l. induction l as [|k l IH]; intros c' Hnd Hin Hb; [done|]. apply NoDup_cons in Hnd as [Hk Hnd]. cbn. apply IH; [done| |].
  - intros k' Hk'. cbn. rewrite lookup_delete_ne by congruence. apply Hin. set_solver.
  - unfold cache_bounded in *. cbn. rewrite size_delete_in by (apply Hin; set_solver).
    unfold decrement. destruct (_ <? 0) eqn:Hz; [apply Z.ltb_lt in Hz|apply Z.ltb_ge in Hz]; lia.
Qed.
Lemma insert_bounded {V} (m : gmap string V) k v : Z.of_nat (size (<[k := v]> m)) <= Z.of_nat (size m) + 1.
Proof. rewrite map_size_insert. destruct (m !! k); cbn; lia. Qed.

(** The account as the database shows it. *)
Definition shown_active (d : DB) (accountID : string) : bool := IsActive (account_row (t_people (db_tables d)) accountID false).

(** What a lookup leaves: the answer is what the database shows, the cache has at most one
    entry more, which holds for the lifetime from now. *)
Definition looked_up (replacing : bool) (accountID : string) s (r : res bool) s' : Prop :=
  ∃ b, r = Ok b ∧ si_sess s' = si_sess s ∧ (b = true → shown_active (si_db s') accountID = true) ∧
    (si_active s' = si_active s ∨
     (replacing || (av_cacheSize (si_active s) <? accountValidatorCacheMaxSize)) = true ∧
     si_active s' = mkActiveCache (<[accountID := mkActiveEntry b (w_now (si_world s) + cacheTTL)]> (av_cache (si_active s)))
       (av_lastCleanup (si_active s)) (if replacing then av_cacheSize (si_active s) else av_cacheSize (si_active s) + 1)).

Lemma find_account_shown accountID (a : App R) :
  wp (FindAccountByID accountID) (λ r a', ap_world a' = ap_world a ∧
    (∀ x, r = Ok x → account_row (t_people (db_tables (ap_db a'))) accountID false = Some x)) a.
Proof.
  unfold FindAccountByID, AccountRepo_FindByID, findAccountByID. wp_step. apply wp_wrap. wp_unfold. unfold query, statement.
  destruct (next_fate _) as [x d]. destruct x; cbn [fst snd wrap_res]; [|by split..].
  unfold found. cbn. set (row := account_row _ _ _). destruct row as [y|] eqn:Hrow; [|by split].
  wp_step. split; [done|]. by intros ? [= <-].
Qed.
Lemma lookup_active_spec replacing accountID s :
  wp (lookup_active replacing accountID) (looked_up replacing accountID s) s.
Proof.
  unfold lookup_active. wp_step. wp_step. apply wp_at_app. eapply wp_mono; [apply find_account_shown|].
  intros r a' [Hw Hrow]. change (ap_world (app_of s)) with (si_world s) in Hw.
  assert (∀ b, (b = true → shown_active (ap_db a') accountID = true) →
    looked_up replacing accountID s (Ok b) (active_store replacing accountID b (put_app a' s)).2) as Hstore.
  { intros b Hb. unfold active_store. cbn [snd si_active put_app]. exists b. split; [done|].
    destruct (replacing || _) eqn:Hc; cbn; rewrite Hw; (split; [by destruct s as [[]]|]); (split; [exact Hb|]); auto. }
  destruct r as [x|e].
  - wp_step. apply Hstore. intros Hact. unfold shown_active. cbn. by rewrite (Hrow x eq_refl).
  - wp_step. destruct (errors_is e ErrAccountNotFound); [by apply Hstore|]. wp_step. wp_step.
    exists false. split; [done|]. cbn. rewrite Hw. split; [by destruct s as [[]]|]. by split; [|left].
Qed.

(** A fresh entry answers; otherwise the database does, and an expired entry is gone first. *)
Definition answer_of (accountID : string) s (r : res bool) s' : Prop :=
  let c := cleanup (w_now (si_world s)) (si_active s) in
  (∃ e, av_cache c !! accountID = Some e ∧ w_now (si_world s) < ae_expiresAt e ∧ r = Ok (ae_active e) ∧ s' = put_active c s)
  ∨ (av_cache c !! accountID = None ∧ looked_up false accountID (put_active c s) r s')
  ∨ (∃ e, av_cache c !! accountID = Some e ∧ ae_expiresAt e <= w_now (si_world s) ∧
     looked_up true accountID
       (put_active (mkActiveCache (delete accountID (av_cache c)) (av_lastCleanup c) (av_cacheSize c)) s) r s').
Lemma is_account_active_spec accountID s : wp (IsAccountActive accountID) (answer_of accountID s) s.
Proof.
  unfold IsAccountActive, answer_of. wp_step. apply wp_gets. wp_step. wp_step. wp_step. apply wp_gets. cbn [si_active put_active].
  set (t := w_now (si_world s)). set (c := cleanup t (si_active s)).
  destruct (av_cache c !! accountID) as [e|] eqn:He.
  - destruct (t <? ae_expiresAt e) eqn:Ht; [apply Z.ltb_lt in Ht|apply Z.ltb_ge in Ht].
    + wp_step. left. eauto.
    + wp_step. wp_step. right; right. exists e. split; [done|]. split; [done|]. apply lookup_active_spec.
  - right; left. split; [done|]. apply lookup_active_spec.
Qed.
(** The check touches neither Redis nor the sessions nor the clock. *)
Lemma is_account_active_frame accountID s : ∃ b, (IsAccountActive accountID s).1 = Ok b ∧ si_sess (IsAccountActive accountID s).2 = si_sess s.
Proof.
  destruct (wp_eq _ _ _ (is_account_active_spec accountID s)) as (r&s'&->&Hans). cbn [fst snd].
  destruct Hans as [(e&_&_&->&->)|[(_&b&->&->&_)|(e&_&_&b&->&->&_)]]; eauto.
Qed.

(** It only reads the database. *)
Lemma is_account_active_reads accountID : reads_db (IsAccountActive accountID).
Proof.
  assert (∀ rep b, reads_db (active_store rep accountID b)) as Hstore by (intros rep b s; unfold active_store; by destruct (_ || _)).
  assert (∀ rep, reads_db (lookup_active rep accountID)) as Hlook by (intros rep; unfold lookup_active; reads_db; apply Hstore).
  assert (∀ f, reads_db (modify (λ s, put_active (f s) s))) as Hmod by by intros f s.
  unfold IsAccountActive, site_now. reads_db; first [apply Hmod | apply Hlook].
Qed.

(** The process as the check sees it: checks, and anything that takes time and leaves the
    cache alone. *)
Inductive check_step : Site R → Site R → Prop :=
  | cs_check accountID s : check_step s (IsAccountActive accountID s).2
  | cs_other s s' : si_active s' = si_active s → w_now (si_world s) <= w_now (si_world s') → check_step s s'.

Lemma bounded_step s s' : check_step s s' → cache_bounded (si_active s) → cache_bounded (si_active s').
Proof.
  intros [accountID s1|s1 s2 -> _]; [|done]. intros Hb.
  pose proof (is_account_active_spec accountID s1) as Hans. unfold wp in Hans.
  pose proof (cleanup_bounded (w_now (si_world s1)) _ Hb) as Hc.
  destruct Hans as [(e&_&_&_&->)|[(Hnone&b&_&_&_&Hst)|(e&He&_&b&_&_&_&Hst)]]; [done| |].
  - cbn [si_active put_active] in Hst. destruct Hst as [->|[Hlt ->]]; [done|]. unfold cache_bounded in *. cbn [av_cache av_cacheSize orb] in *.
    apply Z.ltb_lt in Hlt. pose proof (insert_bounded (av_cache (cleanup (w_now (si_world s1)) (si_active s1))) accountID
      (mkActiveEntry b (w_now (si_world s1) + cacheTTL))).
    change (si_world (put_active _ s1)) with (si_world s1). lia.
  - cbn [si_active put_active] in Hst. unfold cache_bounded in *.
    pose proof (size_delete_in (av_cache (cleanup (w_now (si_world s1)) (si_active s1))) accountID ltac:(eauto)).
    pose proof (insert_bounded (delete accountID (av_cache (cleanup (w_now (si_world s1)) (si_active s1)))) accountID
      (mkActiveEntry b (w_now (si_world s1) + cacheTTL))).
    destruct Hst as [->|[_ ->]]; cbn [av_cache av_cacheSize] in *;
      change (si_world (put_active _ s1)) with (si_world s1); lia.
Qed.

(** The cache of account checks is bounded. After any sequence of checks and other
    work, from a fresh start, it has at most 1024 entries, and never more than its
    counter says. *)
Theorem validator_cache_bounded s s' :
  si_active s = newAccountValidatorAdapter (w_now (si_world s)) → rtc check_step s s' →
  Z.of_nat (size (av_cache (si_active s'))) <= av_cacheSize (si_active s') <= accountValidatorCacheMaxSize.
Proof.
  intros Hs Hrun. assert (cache_bounded (si_active s)) as Hb.
  { rewrite Hs. unfold cache_bounded, newAccountValidatorAdapter. cbn. rewrite map_size_empty. unfold accountValidatorCacheMaxSize. lia. }
  clear Hs. induction Hrun as [|s1 s2 s3 Hstep _ IH]; [exact Hb|]. apply IH. by apply (bounded_step s1).
Qed.

(** Entries hold for no longer than the lifetime from now. *)
Definition entries_fresh s : Prop :=
  map_Forall (λ _ e, ae_expiresAt e <= w_now (si_world s) + cacheTTL) (av_cache (si_active s)).
(** Entries that say an account is active end by [d]. *)
Definition ends_by (accountID : string) (d : Z) s : Prop :=
  ∀ e, av_cache (si_active s) !! accountID = Some e → ae_active e = true → ae_expiresAt e <= d.

Lemma looked_up_time replacing accountID s r s' : looked_up replacing accountID s r s' → si_world s' = si_world s.
Proof. intros (b&_&Hs&_). unfold si_world. by rewrite Hs. Qed.
Lemma answer_time accountID s : si_world (IsAccountActive accountID s).2 = si_world s.
Proof.
  pose proof (is_account_active_spec accountID s) as Hans. unfold wp in Hans.
  destruct Hans as [(e&_&_&_&->)|[(_&Hl)|(e&_&_&Hl)]]; [done|by apply looked_up_time in Hl|by apply looked_up_time in Hl].
Qed.
Lemma fresh_step s s' : check_step s s' → 0 <= cacheTTL → entries_fresh s → entries_fresh s'.
Proof.
  intros [accountID s1|s1 s2 Hact Hle] Httl Hf.
  - intros k e. rewrite answer_time. intros Hk. pose proof (is_account_active_spec accountID s1) as Hans. unfold wp in Hans.
    assert (∀ e, av_cache (cleanup (w_now (si_world s1)) (si_active s1)) !! k = Some e → ae_expiresAt e <= w_now (si_world s1) + cacheTTL)
      as Hc by (intros e' He'%cleanup_lookup; exact (Hf k e' He')).
    destruct Hans as [(e'&_&_&_&Hs)|[(_&b&_&_&_&Hst)|(e'&_&_&b&_&_&_&Hst)]]; [rewrite Hs in Hk; by apply Hc| |];
      cbn [si_active put_active] in Hst; (destruct Hst as [Hst|[_ Hst]]; rewrite Hst in Hk; cbn in Hk; [|apply lookup_insert_Some in Hk as [[_ <-]|[_ Hk]]; [change (si_world (put_active _ s1)) with (si_world s1); cbn; lia|]]).
    + by apply Hc.
    + by apply Hc.
    + apply lookup_delete_Some in Hk as [_ Hk]. by apply Hc.
    + apply lookup_delete_Some in Hk as [_ Hk]. by apply Hc.
  - intros k e Hk. rewrite Hact in Hk. specialize (Hf k e Hk). cbn in Hf. lia.
Qed.
Lemma ends_step accountID d s s' : check_step s s' →
  (∀ a, s' = (IsAccountActive a s).2 → shown_active (si_db s') accountID = false) →
  ends_by accountID d s → ends_by accountID d s'.
Proof.
  intros [a s1|s1 s2 Hact Hle] Hoff He.
  - specialize (Hoff a eq_refl). intros e. pose proof (is_account_active_spec a s1) as Hans. unfold wp in Hans.
    assert (∀ e, av_cache (cleanup (w_now (si_world s1)) (si_active s1)) !! accountID = Some e → ae_active e = true → ae_expiresAt e <= d)
      as Hc by (intros e' He'%cleanup_lookup; exact (He e' He')).
    destruct Hans as [(e'&_&_&_&Hs)|[(_&b&_&_&Hb&Hst)|(e'&_&_&b&_&_&Hb&Hst)]]; [rewrite Hs; apply Hc| |];
      cbn [si_active put_active] in Hst; (destruct Hst as [Hst|[_ Hst]]; rewrite Hst; cbn; intros Hk Hon;
        [|apply lookup_insert_Some in Hk as [[-> <-]|[_ Hk]]; [cbn in Hon; subst; by rewrite Hb in Hoff|]]).
    + by apply Hc.
    + by apply Hc.
    + apply lookup_delete_Some in Hk as [_ Hk]. by apply Hc.
    + apply lookup_delete_Some in Hk as [_ Hk]. by apply Hc.
  - intros e Hk. rewrite Hact in Hk. by apply He.
Qed.

(** Steps while no check sees the account active in the database. *)
Definition off_step (accountID : string) s s' : Prop :=
  check_step s s' ∧ ∀ a, s' = (IsAccountActive a s).2 → shown_active (si_db s') accountID = false.

(** Suspending an account takes effect within the lifetime of a cached check. From a
    fresh start, when from some moment on no lookup finds the account active in the
    database, then every check made [cacheTTL] or more after that moment refuses it,
    whatever was cached before and whatever else happened. *)
Theorem suspension_takes_effect accountID s0 s1 s2 s3 b :
  0 <= cacheTTL → si_active s0 = newAccountValidatorAdapter (w_now (si_world s0)) → rtc check_step s0 s1 →
  rtc (off_step accountID) s1 s2 → w_now (si_world s1) + cacheTTL <= w_now (si_world s2) →
  IsAccountActive accountID s2 = (Ok b, s3) → shown_active (si_db s3) accountID = false → b = false.
Proof.
  intros Httl H0 Hrun Hoff Hlate Hcheck Hshown.
  assert (entries_fresh s1) as Hfresh.
  { assert (entries_fresh s0) as Hf0 by (unfold entries_fresh; rewrite H0; apply map_Forall_empty).
    clear -Httl Hf0 Hrun. induction Hrun as [|x y z Hstep _ IH]; [exact Hf0|]. apply IH. by apply (fresh_step x). }
  assert (ends_by accountID (w_now (si_world s1) + cacheTTL) s1) as He by by intros e Hk _; apply (Hfresh _ _ Hk).
  revert He. generalize dependent (w_now (si_world s1) + cacheTTL). intros d Hlate He. clear Hfresh Hrun H0.
  assert (ends_by accountID d s2) as He2.
  { clear -Hoff He. induction Hoff as [|x y z [Hstep Ho] _ IH]; [exact He|]. apply IH. by apply (ends_step accountID d x). }
  pose proof (is_account_active_spec accountID s2) as Hans. unfold wp in Hans. rewrite Hcheck in Hans. cbn [fst snd] in Hans.
  destruct Hans as [(e&Hk&Hlt&[= ->]&_)|[(_&b'&[= ->]&_&Hb&_)|(e&_&_&b'&[= ->]&_&Hb&_)]].
  - destruct (ae_active e) eqn:Hon; [|done]. apply cleanup_lookup in Hk. specialize (He2 e Hk Hon). lia.
  - destruct b'; [|done]. by rewrite Hb in Hshown.
  - destruct b'; [|done]. by rewrite Hb in Hshown.
Qed.
End adapters.

(** ** [cmd/gosso/web_modules.go]: the controller with the services it is built from *)
Section wiring.
Context {R : Type} `{RedisServer R} `{Postgres} `{IdJwt}.
Implicit Types s : Site R.

(** The settings of [AuthConfig] the endpoints use. *)
Record OAuthSettings : Type := mkSettings {
  os_AccountValidatorCacheTTL : Z;
  os_IDTokenExpiry : Z;
  os_EnforcePKCEForConfidential : bool;
  os_IncludeUserRoles : bool;
  os_IncludeUserPermissions : bool;
}.
Definition accountValidatorCacheTTL (os : OAuthSettings) : Z :=
  if os_AccountValidatorCacheTTL os <=? 0 then 5 * second else os_AccountValidatorCacheTTL os.
Definition oauth2Ctrl (tcfg : TokenCfg) (os : OAuthSettings) : OAuth2Controller R :=
  mkController (IsAccountActive (accountValidatorCacheTTL os)) (Some GetAccountRoles) (Some GetAccountPermissions)
    (Some (GenerateIDToken tcfg (tc_issuer tcfg) (id_expiry (os_IDTokenExpiry os)))) (tc_issuer tcfg)
    (os_EnforcePKCEForConfidential os) (os_IncludeUserRoles os) (os_IncludeUserPermissions os).

(** ** The helper services only read *)
Lemma reads_only_bind {A B} (m : M (Site R) A) (k : A → M (Site R) B) :
  reads_only m → (∀ x, reads_only (k x)) → reads_only (bind m k).
Proof.
  intros Hm Hk s. unfold bind. specialize (Hm s). destruct (m s) as [[x|e] s1]; cbn in *; [|done].
  by apply (undisturbed_trans _ s1), Hk.
Qed.
Lemma reads_only_ret {A} (x : A) : reads_only (R := R) (ret x).
Proof. done. Qed.
Lemma reads_lift {A} (r : res A) : reads_only (R := R) (lift_res r).
Proof. done. Qed.
Lemma reads_only_wrap {A} c (m : M (Site R) A) : reads_only m → reads_only (wrap c m).
Proof. intros Hm s. unfold wrap. specialize (Hm s). by destruct (m s). Qed.
Lemma reads_at_app {A} (m : M (App R) A) : keeps_world m → reads_only (at_app m).
Proof. intros Hm s. unfold undisturbed. by rewrite at_app_world. Qed.
Lemma reads_uuid : reads_only (R := R) (at_world uuid_new).
Proof. intros s. unfold undisturbed. rewrite at_world_world. unfold uuid_new. by destruct (w_uuid _). Qed.

Lemma keeps_world_query {A} ctx (f : Tables → list string → res A * Tables * list string) (k : A → M (App R) A) :
  (∀ x, keeps_world (k x)) → keeps_world (bind (wrap ctx (statement f)) k).
Proof. intros Hk. apply keeps_world_bind; [apply keeps_world_wrap, keeps_world_statement|exact Hk]. Qed.
Lemma keeps_world_account a : keeps_world (R := R) (FindAccountByID a).
Proof.
  unfold FindAccountByID, AccountRepo_FindByID, findAccountByID. apply keeps_world_bind; [apply keeps_world_wrap, keeps_world_statement|].
  intros [x|]; [apply keeps_world_ret|apply keeps_world_fail].
Qed.
Lemma keeps_world_roles a : keeps_world (R := R) (AccountSvc_GetAccountRoles a).
Proof. apply keeps_world_wrap, keeps_world_statement. Qed.
Lemma keeps_world_contacts a l : keeps_world (R := R) (FindByAccountAndTypes a l).
Proof. unfold FindByAccountAndTypes. case_bool_decide; [apply keeps_world_ret|apply keeps_world_wrap, keeps_world_statement]. Qed.

Lemma reads_IDToken tcfg issuer expiry a cl sc n t tok am :
  reads_only (GenerateIDToken (R := R) tcfg issuer expiry a cl sc n t tok am).
Proof.
  unfold GenerateIDToken. apply reads_only_bind; [apply reads_only_wrap, reads_at_app, keeps_world_account|intros x].
  apply reads_only_bind; [done|intros now]. apply reads_only_bind; [apply reads_uuid|intros id].
  apply reads_only_bind; [|intros c; apply reads_lift]. unfold addContactClaims. case_bool_decide; [done|].
  apply reads_only_bind; [apply reads_only_wrap, reads_at_app, keeps_world_contacts|intros l; apply reads_only_ret].
Qed.

#[export] Instance oauth2Ctrl_deps tcfg os : OAuth2Deps (oauth2Ctrl tcfg os).
Proof.
  split; cbn.
  - intros a s. destruct (is_account_active_frame (accountValidatorCacheTTL os) a s) as (b&Hb&_). eauto.
  - intros a s. destruct (is_account_active_frame (accountValidatorCacheTTL os) a s) as (_&_&Hs).
    unfold undisturbed, si_world. by rewrite Hs.
  - apply is_account_active_reads.
  - intros f a [= <-]. apply reads_only_bind; [apply reads_at_app, keeps_world_roles|intros l; apply reads_only_ret].
  - intros f a [= <-]. apply reads_only_bind; [apply reads_at_app, keeps_world_roles|intros l; apply reads_only_ret].
  - intros f a cl sc n t tok am [= <-]. apply reads_IDToken.
Qed.
End wiring.
