(* ===== verification/TokenEndpointProps.v ===== *)
(** * What the token endpoint grants *)
From S2P Require Import Prelude GoTime Json Hash Redis World Cache Footprint TokenDomain Blacklist TokenService TokenSpecs TokenIndex TokenInv TokenProps AccessProps Session SessionService Url GoStrings AccountDomain Credential OAuthDomain AuthCode DeviceCode ServiceFootprints DeviceProps Database ClientRepo ClientService ClientProps Site AuthMiddleware OAuthController TokenEndpoint.
Local Open Scope Z_scope.

(** ** The tokens of an answer *)
Definition token_of (a : answer) : option string :=
  match a with
  | Tokens t => Some (tr_access_token t)
  | CookieSession (ck :: _) _ _ => Some (ck_Value ck)
  | _ => None
  end.
Definition scope_of (a : answer) : string :=
  match a with Tokens t => tr_scope t | CookieSession _ _ scope => scope | _ => "" end.

Section site.
Context {R : Type} `{RedisServer R}.
Implicit Types s : Site R.

(** The same moment; the keys outside [P] unchanged. *)
Definition frame (P : string → Prop) s s' : Prop :=
  w_now (si_world s') = w_now (si_world s) ∧ ∀ k, ¬ P k → view (si_world s') k = view (si_world s) k.
Lemma frame_refl P s : frame P s s.
Proof. done. Qed.
Lemma frame_trans P s1 s2 s3 : frame P s1 s2 → frame P s2 s3 → frame P s1 s3.
Proof. intros [Hn1 Hv1] [Hn2 Hv2]. split; [congruence|]. intros k Hk. by rewrite Hv2, Hv1. Qed.
Lemma frame_mono (P Q : string → Prop) s s' : (∀ k, P k → Q k) → frame P s s' → frame Q s s'.
Proof. intros Hpq [Hn Hv]. split; [done|]. auto. Qed.
Lemma undisturbed_frame P s s' : undisturbed s s' → frame P s s'.
Proof. intros (Hr&Hn&_). split; [done|]. intros k _. unfold view, now_ms. by rewrite Hr, Hn. Qed.
Lemma touches_frame {A} P (m : M (World R) A) s : touches P m → frame P s (at_world m s).2.
Proof. intros Hm. unfold frame. rewrite at_world_world. by destruct (Hm (si_world s)) as (?&_&?). Qed.
Lemma world_frame P s s' : si_world s' = si_world s → frame P s s'.
Proof. intros Heq. unfold frame. by rewrite Heq. Qed.

(** One step of a handler that touches [P]. *)
Lemma wp_at_touch {A} P (m : M (World R) A) (Q : res A → Site R → Prop) s : touches P m →
  (∀ r s', m (si_world s) = (r, si_world s') → frame P s s' → Q r s') → wp (at_world m) Q s.
Proof.
  intros Hm HQ. pose proof (touches_frame P m s Hm) as Hf. unfold wp, at_world in *.
  destruct (m (si_world s)) as [r w] eqn:Heq. cbn [fst snd] in *. apply HQ; [|exact Hf]. done.
Qed.
Lemma wp_reads {A} (m : M (Site R) A) (Q : res A → Site R → Prop) s : reads_only m →
  (∀ r s', m s = (r, s') → undisturbed s s' → Q r s') → wp m Q s.
Proof. intros Hm HQ. unfold wp. specialize (Hm s). destruct (m s) as [r s'] eqn:Heq. by apply HQ. Qed.

(** Finding a client leaves Redis alone and shows a live row. *)
Definition shown_client (clientID : string) s (client : OAuth2Client) : Prop :=
  ∃ a, FindByClientID clientID (app_of s) = (Ok client, a) ∧ client_row (db_tables (ap_db a)) clientID = Some client.
Lemma keeps_world_find clientID : keeps_world (R := R) (FindByClientID clientID).
Proof.
  unfold FindByClientID, findByClientID. apply keeps_world_bind; [apply keeps_world_wrap, keeps_world_statement|].
  intros [c|]; [apply keeps_world_ret|apply keeps_world_fail].
Qed.
Lemma reads_FindByClientID clientID : only_reads (R := R) (FindByClientID clientID).
Proof.
  unfold FindByClientID, findByClientID. apply reads_bind; [apply reads_wrap, (reads_select (λ t, client_row t clientID))|].
  intros [c|]; [apply reads_ret|apply reads_fail].
Qed.
Lemma wp_find_client_later clientID (Q : res OAuth2Client → Site R → Prop) s :
  (∀ r s', si_world s' = si_world s → si_active s' = si_active s → later (si_db s) (si_db s') →
     (∀ client, r = Ok client → shown_client clientID s client) → Q r s') →
  wp (at_app (FindByClientID clientID)) Q s.
Proof.
  intros HQ. pose proof (at_app_world _ s (keeps_world_find clientID)) as Hw. unfold wp. 
  pose proof (rdb_app _ (reads_FindByClientID clientID) s) as Hl.
  apply (HQ _ _ Hw); [unfold at_app; by destruct (FindByClientID _ _)|exact Hl|]. clear Hl.
  unfold at_app. destruct (FindByClientID clientID (app_of s)) as [r a] eqn:Heq. cbn [fst]. intros client ->. exists a. split; [done|].
  revert Heq. unfold FindByClientID, findByClientID, bind, wrap. unfold statement.
  destruct (next_fate _) as [[] d]; cbn; try done. destruct (client_row (db_tables d) clientID) as [c|] eqn:Hrow; [|done].
  by intros [= -> <-].
Qed.
Lemma wp_find_client clientID (Q : res OAuth2Client → Site R → Prop) s :
  (∀ r s', si_world s' = si_world s → (∀ client, r = Ok client → shown_client clientID s client) → Q r s') →
  wp (at_app (FindByClientID clientID)) Q s.
Proof. intros HQ. apply wp_find_client_later. auto. Qed.
End site.

Section endpoint.
Context {R : Type} `{RedisServer R} `{JwtLib} `{Bcrypt} `{LuaOS}.
Context (tcfg : TokenCfg) (dcfg : DeviceCfg) (c : OAuth2Controller R) `{!OAuth2Deps c}.
Implicit Types s : Site R.

(** A token signed now for these claims. *)
Definition minted s (cl : AccessTokenClaims) (tok : string) : Prop :=
  ∃ id, jwt_sign (tc_keyID tcfg) (tc_privateKey tcfg) (issued tcfg id (w_now (si_world s)) cl) = Ok tok.
(** The check of the account was asked in a state of this moment and said yes. *)
Definition said_active (accountID : string) s : Prop :=
  ∃ s1, w_now (si_world s1) = w_now (si_world s) ∧ (c_accountValidator c accountID s1).1 = Ok true.
Lemma minted_now s s' cl tok : w_now (si_world s') = w_now (si_world s) → minted s' cl tok → minted s cl tok.
Proof. intros Hn [id Hid]. exists id. by rewrite <-Hn. Qed.

Lemma wp_validator_later accountID (Q : res bool → Site R → Prop) s :
  (∀ b s', undisturbed s s' → later (si_db s) (si_db s') → (b = true → (c_accountValidator c accountID s).1 = Ok true) → Q (Ok b) s') →
  wp (c_accountValidator c accountID) Q s.
Proof using OAuth2Deps0.
  intros HQ. pose proof (deps_active_later accountID s) as Hl. apply wp_reads; [apply deps_active_reads|]. intros r s' Heq Hu. rewrite Heq in Hl.
  destruct (deps_active accountID s) as [b Hb]. rewrite Heq in Hb. cbn in Hb. subst r. apply HQ; [done..|].
  intros ->. by rewrite Heq.
Qed.
Lemma wp_validator accountID (Q : res bool → Site R → Prop) s :
  (∀ b s', undisturbed s s' → (b = true → (c_accountValidator c accountID s).1 = Ok true) → Q (Ok b) s') →
  wp (c_accountValidator c accountID) Q s.
Proof using OAuth2Deps0. intros HQ. apply wp_validator_later. auto. Qed.
Lemma reads_roles accountID : reads_only (fetch_roles c accountID).
Proof using OAuth2Deps0.
  unfold fetch_roles. destruct (c_roleFetcher c) as [f|] eqn:Hf; [|by intros s]. destruct (c_includeUserRoles c); [|by intros s].
  by apply deps_roles_read.
Qed.
Lemma reads_permissions accountID : reads_only (fetch_permissions c accountID).
Proof using OAuth2Deps0.
  unfold fetch_permissions. destruct (c_permissionFetcher c) as [f|] eqn:Hf; [|by intros s].
  destruct (c_includeUserPermissions c); [|by intros s]. by apply deps_permissions_read.
Qed.
Lemma reads_id_token a cl sc n t tok am : reads_only (maybeGenerateIDToken c a cl sc n t tok am).
Proof using OAuth2Deps0.
  unfold maybeGenerateIDToken. destruct (c_idTokenSvc c) as [f|] eqn:Hf; [|by intros s].
  destruct (bool_decide _); [|by intros s]. by apply (deps_id_token_reads f).
Qed.

(** The access token of a grant, whatever the refusals are. *)
Lemma wp_mint cl (Q : res string → Site R → Prop) s :
  (∀ r s', frame (λ _, False) s s' → w_net (si_world s') = w_net (si_world s) →
     (∀ tok, r = Ok tok → minted s cl tok) → Q r s') → wp (at_world (GenerateAccessToken tcfg cl)) Q s.
Proof.
  intros HQ. apply (wp_at_touch (λ _, False)); [apply touches_GenerateAccessToken|]. intros r s' Heq Hf. apply HQ; [done| |].
  - revert Heq. unfold GenerateAccessToken, bind, now, gets, claims_id, signToken, lift_res, uuid_new. cbn.
    case_bool_decide; [|by intros [= _ <-]]. destruct (w_uuid _); by intros [= _ <-].
  - intros tok ->. apply generate_access_inv in Heq as (id&Hid&_). by exists id.
Qed.

(** What the refresh token of a grant says. *)
Lemma generate_refresh_says ctx acc cl sid sc w :
  wp (GenerateRefreshToken tcfg ctx acc cl sid sc) (λ r _, ∀ rt, r = Ok rt →
    rt_AccountID rt = acc ∧ rt_ClientID rt = cl ∧ rt_SessionID rt = sid ∧ rt_Scope rt = sc) w.
Proof.
  unfold GenerateRefreshToken. wp_step. wp_step. apply wp_rand_read; [done|]. intros b l _. cbn [wrap_res].
  wp_step. apply wp_gets. wp_step. apply wp_guard_err; [done|intros _]. wp_step. wp_step.
  destruct (marshal_rt _) as [d|]; cbn [wrap_res]; [|done]. wp_step. wp_step.
  eapply (wp_mono _ (λ _ _, True)); [done|]. intros [u|e] w' _; cbn [wrap_res]; [|done]. wp_step. by intros ? [= <-].
Qed.

(** A refresh token of a grant is for the same account, client, session and scopes, and
    only a client that may use one gets one. *)
Definition refresh_matches (client : OAuth2Client) (acc cl sid scope : string) (rt : option RefreshToken) : Prop :=
  match rt with
  | None => True
  | Some rt => HasGrantType (Some client) GrantTypeRefreshToken = true ∧ rt_AccountID rt = acc ∧ rt_ClientID rt = cl ∧
               rt_SessionID rt = sid ∧ rt_Scope rt = scope
  end.

(** A refusal hands out nothing. *)
Definition hands_out_nothing (Q : res answer → Site R → Prop) : Prop := ∀ a s', token_of a = None → Q (Ok a) s'.

(** A branch that refuses. *)
Ltac refused Hno := solve [cbn [negb is_ok andb orb]; wp_step; by apply Hno | by apply Hno].
Lemma wp_issue_tokens ctx client acc cl sid scopes nonce authTime am k (Q : res answer → Site R → Prop) s :
  hands_out_nothing Q →
  (∀ roles permissions tok rt idt s', frame (under refresh_family) s s' →
     minted s (token_claims acc (join_space scopes) cl sid roles permissions) tok →
     refresh_matches client acc cl sid (join_space scopes) rt → wp (k tok rt idt) Q s') →
  wp (issue_tokens tcfg c ctx client acc cl sid scopes nonce authTime am k) Q s.
Proof using OAuth2Deps0.
  intros Hno Hk. unfold issue_tokens.
  apply wp_attempt, wp_reads; [apply reads_roles|]. intros [roles|e] s1 _ Hu1; [|refused Hno].
  apply wp_attempt, wp_reads; [apply reads_permissions|]. intros [permissions|e] s2 _ Hu2; [|refused Hno].
  apply wp_attempt, wp_mint. intros [tok|e] s3 Hf3 _ Hmint; [|refused Hno].
  assert (frame (λ _, False) s s2) as Hf2 by (apply undisturbed_frame, (undisturbed_trans _ s1); done).
  specialize (Hmint _ eq_refl). apply (minted_now _ _ _ _ (proj1 Hf2)) in Hmint.
  assert (frame (under refresh_family) s s3) as Hf by (apply (frame_mono (λ _, False)); [done|]; by apply (frame_trans _ _ s2)).
  apply wp_attempt.
  assert (∀ rt s4, frame (under refresh_family) s3 s4 → refresh_matches client acc cl sid (join_space scopes) rt →
    wp (let? idToken := maybeGenerateIDToken c acc cl scopes nonce authTime tok am else id_token_error in k tok rt idToken) Q s4)
    as Hrest.
  { intros rt s4 Hf4 Hrt. apply wp_attempt, wp_reads; [apply reads_id_token|]. intros [idt|e] s5 _ Hu5; [|refused Hno].
    apply (Hk roles permissions); [|done..]. apply (frame_trans _ _ s4); [by apply (frame_trans _ _ s3)|by apply undisturbed_frame]. }
  destruct (HasGrantType (Some client) GrantTypeRefreshToken) eqn:Hgt; [|wp_step; by apply Hrest].
  wp_step. apply (wp_at_touch (under refresh_family)); [apply touches_GenerateRefreshToken|].
  intros [rt|e] s4 Heq Hf4; [|refused Hno]. wp_step. apply Hrest; [done|].
  split; [done|]. by apply (wp_intro _ _ _ _ _ Heq (generate_refresh_says _ _ _ _ _ _)).
Qed.

(** ** The authorization code grant *)
Lemma code_not_token code : ¬ under refresh_family (authCodeKey code).
Proof. apply (under_apart code_family); [reflexivity|]. apply (under_intro _ authCodeKeyPrefix). reflexivity. Qed.

Record code_grant (req : TokenRequest) s s' (tok scope : string) (cg_client : OAuth2Client) (cg_code : AuthorizationCode)
    (cg_document : string) (cg_roles cg_permissions : list string) : Prop := {
  cg_shown : shown_client (tq_ClientID req) s cg_client;
  cg_may : HasGrantType (Some cg_client) "authorization_code" = true;
  cg_authenticated : AuthenticateClient cg_client (tq_ClientSecret req) = Ok tt;
  cg_proof_key : oc_IsConfidential cg_client = false → tq_CodeVerifier req ≠ "";
  cg_stored : str_of (view (si_world s) (authCodeKey (tq_Code req))) = Ok (Some cg_document);
  cg_read : unmarshal_authcode cg_document = Some cg_code;
  cg_accepted : code_accepted (w_now (si_world s)) (tq_ClientID req) (tq_RedirectURI req) (nonempty (tq_CodeVerifier req)) cg_code;
  cg_active : said_active (ac_AccountID cg_code) s;
  cg_scope : scope = join_space (ac_Scopes cg_code);
  cg_minted : minted s (token_claims (ac_AccountID cg_code) scope (tq_ClientID req) (ac_SessionID cg_code) cg_roles cg_permissions) tok;
  cg_gone : view (si_world s') (authCodeKey (tq_Code req)) = None;
}.

(** The store after an attempt: the code is gone, unless nothing was read. *)
Lemma code_grant_wp rq req s :
  wp (handleAuthorizationCodeGrant tcfg c rq req) (λ r s', ∀ a tok, r = Ok a → token_of a = Some tok →
    ∃ client ac d roles permissions, code_grant req s s' tok (scope_of a) client ac d roles permissions) s.
Proof using OAuth2Deps0.
  set (Q := λ r s', _). assert (hands_out_nothing Q) as Hno by (intros a s' Hnone b tok [= ->]; by rewrite Hnone).
  unfold handleAuthorizationCodeGrant. apply wp_attempt, wp_find_client.
  intros [client|e] s1 Hw1 Hshown; [specialize (Hshown _ eq_refl)|refused Hno].
  destruct (HasGrantType (Some client) _) eqn:Hmay; [|refused Hno]. cbn [negb].
  destruct (AuthenticateClient client _) as [[]|] eqn:Hauth; [|refused Hno]. cbn [negb is_ok].
  destruct (negb _ && _) eqn:Hpk; [by apply Hno|].
  apply wp_attempt, (wp_at_touch (under code_family)); [apply touches_ValidateCode|].
  intros [ac|e] s2 Heq Hf2; [|refused Hno].
  pose proof (wp_intro _ _ _ _ _ Heq (validate_code_exchange _ _ _ _ _)) as [_ [?|(d&Hd&Hv&Hac)]]; [done|].
  destruct (Hac ac eq_refl) as [Hread Hacc]. rewrite Hw1 in Hd, Hacc.
  assert (view (si_world s2) (authCodeKey (tq_Code req)) = None) as Hgone by (rewrite Hv; by decide_keys).
  assert (frame (under code_family) s s2) as Hf by by apply (frame_trans _ _ s1); [apply world_frame|].
  wp_step. apply wp_validator. intros [] s3 Hu3 Hactive; [specialize (Hactive eq_refl)|refused Hno]. cbn [negb].
  assert (∀ P, frame P s2 s3) as Hf3 by (intros P; by apply undisturbed_frame).
  apply wp_issue_tokens; [done|]. intros roles permissions tok rt idt s4 Hf4 Hmint _.
  wp_step. apply wp_gets. wp_step.
  assert (∀ a tok', token_of a = Some tok' → tok' = tok → scope_of a = join_space (ac_Scopes ac) →
    ∃ client ac d roles permissions, code_grant req s s4 tok' (scope_of a) client ac d roles permissions) as Hgoal.
  { intros a tok' Ha -> Hscope. exists client, ac, d, roles, permissions. destruct Hacc as (Hexp&Hcl&Huri&Hproof). split; try done.
    - intros Hpub. rewrite Hpub in Hpk. by apply bool_decide_eq_false in Hpk.
    - exists s2. split; [apply Hf|exact Hactive].
    - rewrite Hscope, <-Hcl. apply (minted_now _ s3); [|done].
      by rewrite (proj1 (Hf3 (λ _, False))), (proj1 Hf).
    - rewrite (proj2 Hf4), (proj2 (Hf3 (λ _, False))) by auto using code_not_token. exact Hgone. }
  destruct (isCookieSessionRequest rq); intros a tok' [= <-] Htok; (apply Hgoal; [done| |done]); cbn in Htok; congruence.
Qed.

(** ** The client credentials grant *)
Record credentials_grant (req : TokenRequest) s (tok scope : string) (client : OAuth2Client) (scopes : list string) : Prop := {
  xg_shown : shown_client (tq_ClientID req) s client;
  xg_may : HasGrantType (Some client) GrantTypeClientCredentials = true;
  xg_confidential : oc_IsConfidential client = true;
  xg_secret : bcrypt_compare (oc_ClientSecretHash client) (tq_ClientSecret req) = true;
  xg_active : said_active (oc_AccountID client) s;
  xg_scope : scope = join_space scopes;
  xg_some : scopes ≠ [];
  xg_scopes : ∀ x, x ∈ scopes → x ∈ oc_Scopes client ∧ x ∈ splitScope (tq_Scope req) ∧
    (IsAdminScope x = true → HasAdminCapability (Some client) = true);
  xg_minted : minted s (token_claims (oc_AccountID client) scope (tq_ClientID req) "" [] []) tok;
}.
Lemma authenticate_secret client secret : oc_IsConfidential client = true →
  AuthenticateClient client secret = Ok tt → secret ≠ "" ∧ bcrypt_compare (oc_ClientSecretHash client) secret = true.
Proof.
  unfold AuthenticateClient. intros ->. cbn. case_bool_decide; [done|]. by destruct (bcrypt_compare _ _).
Qed.
Lemma validate_scope_in client l x : x ∈ ValidateScope (Some client) l →
  x ∈ oc_Scopes client ∧ x ∈ l ∧ (IsAdminScope x = true → HasAdminCapability (Some client) = true).
Proof.
  unfold ValidateScope. intros [Hin [Hadm Hx]%andb_true_iff]%list_elem_of_In%filter_In. apply list_elem_of_In in Hin.
  apply bool_decide_eq_true in Hx. split_and!; [done..|]. intros Ha. rewrite Ha in Hadm. by destruct (HasAdminCapability _).
Qed.
Lemma credentials_grant_wp req s :
  wp (handleClientCredentialsGrant tcfg c req) (λ r _, ∀ a tok, r = Ok a → token_of a = Some tok →
    ∃ client scopes, credentials_grant req s tok (scope_of a) client scopes) s.
Proof using H OAuth2Deps0.
  set (Q := λ r s', _). assert (hands_out_nothing Q) as Hno by (intros a s' Hnone b tok [= ->]; by rewrite Hnone).
  unfold handleClientCredentialsGrant. destruct (_ || _); [refused Hno|]. apply wp_attempt, wp_find_client.
  intros [client|e] s1 Hw1 Hshown; [specialize (Hshown _ eq_refl)|refused Hno].
  destruct (oc_IsConfidential client) eqn:Hconf; [|refused Hno]. cbn [negb].
  destruct (HasGrantType (Some client) _) eqn:Hmay; [|refused Hno]. cbn [negb].
  destruct (AuthenticateClient client _) as [[]|] eqn:Hauth; [|refused Hno]. cbn [negb is_ok].
  case_bool_decide as Hsome; [refused Hno|]. set (scopes := ValidateScope _ _) in *.
  wp_step. apply wp_validator. intros [] s2 Hu2 Hactive; [specialize (Hactive eq_refl)|refused Hno]. cbn [negb].
  apply wp_attempt, wp_mint. intros [tok|e] s3 _ _ Hmint; [specialize (Hmint _ eq_refl)|refused Hno].
  wp_step. intros a tok' [= <-] [= <-]. exists client, scopes. split; try done.
  - by apply (authenticate_secret client).
  - exists s1. by rewrite Hw1.
  - apply validate_scope_in.
  - apply (minted_now _ s2); [|done]. by rewrite (proj1 (proj2 Hu2)), Hw1.
Qed.

(** ** The refresh token grant *)
Record refresh_grant (req : TokenRequest) (old : RefreshToken) s s' (tok scope : string) (client : OAuth2Client)
    (roles permissions : list string) : Prop := {
  rg_shown : shown_client (tq_ClientID req) s client;
  rg_may : HasGrantType (Some client) "refresh_token" = true;
  rg_secret : oc_IsConfidential client = true → bcrypt_compare (oc_ClientSecretHash client) (tq_ClientSecret req) = true;
  rg_client : rt_ClientID old = tq_ClientID req;
  rg_accepted : refresh_accepted (si_world s) (tq_RefreshToken req) old;
  rg_active : said_active (rt_AccountID old) s;
  rg_scope : scope = rt_Scope old ∨ (scope = tq_Scope req ∧ ∀ x, x ∈ splitScope scope → x ∈ splitScope (rt_Scope old));
  rg_minted : minted s (token_claims (rt_AccountID old) scope (rt_ClientID old) (rt_SessionID old) roles permissions) tok;
  rg_consumed : view (si_world s') (buildRefreshTokenKey (tq_RefreshToken req)) = None;
}.
Lemma rotatable_same s s' t b old :
  w_redis (si_world s') = w_redis (si_world s) → w_now (si_world s') = w_now (si_world s) →
  w_net (si_world s') = w_net (si_world s) → w_rand (si_world s') = w_rand (si_world s) →
  rotatable tcfg (si_world s) t b old → rotatable tcfg (si_world s') t b old.
Proof. unfold rotatable, Inv, view, now_ms. by intros -> -> -> ->. Qed.

(** A validation changes nothing and keeps a healthy network healthy. *)
Lemma validate_undisturbed t s r s' :
  at_world (ValidateRefreshToken t) s = (r, s') → w_net (si_world s) = [] →
  quiet (si_world s) (si_world s') ∧ w_net (si_world s') = [] ∧
  ∀ rt, r = Ok rt → refresh_accepted (si_world s) t rt.
Proof.
  intros Heq Hn. pose proof (touches_ValidateRefreshToken (λ _, False) t (si_world s)) as (_&Hup&_).
  pose proof (validate_accepts t (si_world s)) as Hacc. 
  assert (wp (ValidateRefreshToken t) (λ _ w', quiet (si_world s) w') (si_world s)) as Hq.
  { pose proof (quiet_refl (si_world s)). unfold ValidateRefreshToken. wp_step. wp_step. apply wp_Get_any. intros r1 w1 Hq1 _.
    destruct r1 as [d|e]; [|by case_match; wp_step]. destruct (unmarshal_rt d) as [rt|]; [|by wp_step].
    wp_step. apply wp_gets. wp_step. apply wp_guard_err; [done|intros _]. case_bool_decide; [by wp_step|].
    wp_step. wp_step. apply wp_revoked_after; [|intros e w2 Hq2; wp_step; by apply (quiet_trans _ w1)].
    intros w2 Hq2. pose proof (quiet_trans _ _ _ Hq1 Hq2). destruct (revoked_after w1 _); [|by wp_step].
    wp_step. apply wp_guard_err; [done|intros _]. by wp_step. }
  unfold wp, at_world in *. destruct (ValidateRefreshToken t (si_world s)) as [r1 w1]. cbn [fst snd] in *.
  injection Heq as <- <-. cbn. auto.
Qed.

Lemma rotatable_quiet w w' t b old : quiet w w' → w_net w' = [] → rotatable tcfg w t b old → rotatable tcfg w' t b old.
Proof.
  intros Hq Hn. pose proof (Inv_quiet tcfg _ _ Hq) as Hinv. destruct Hq as (Ht&Hr&_&_&Hv). unfold rotatable. rewrite Ht, Hr, Hn.
  setoid_rewrite Hv. naive_solver.
Qed.

(** Rotating a token that can be rotated, inside the handler. *)
Lemma wp_rotate ctx t b old (Q : res RefreshToken → Site R → Prop) s :
  0 < tc_refreshExpiry tcfg → rotatable tcfg (si_world s) t b old → HashToken (fresh_token b) ≠ HashToken t →
  (∀ s', w_now (si_world s') = w_now (si_world s) → view (si_world s') (buildRefreshTokenKey t) = None →
     Q (Ok (successor tcfg (w_now (si_world s)) (fresh_token b) old)) s') →
  wp (at_world (RotateRefreshToken tcfg ctx t)) Q s.
Proof.
  intros Hexp (Hn&Hw&Ht&Hye&Hyc&[l Hr]&Ha&d&x&Hv&Hd) Hne HQ.
  destruct (rotate_effect tcfg Hexp ctx t (si_world s) b l d x old) as (w'&nd&rd&Hrot&_&_&_&Hnow&_&_&_&Hview); try done.
  apply wp_at_world. unfold wp. rewrite Hrot. cbn [fst snd]. apply HQ; [exact Hnow|].
  change (view w' (buildRefreshTokenKey t) = None). rewrite Hview. unfold rotated.
  assert (buildRefreshTokenKey t ≠ buildRefreshTokenKey (fresh_token b)) by (intros ?%append_inj; congruence).
  destruct (script_session d); by decide_keys.
Qed.

Lemma scope_within (requested granted : string) :
  negb (bool_decide (requested = "")) && negb (forallb (λ x, bool_decide (x ∈ splitScope granted)) (splitScope requested)) = false →
  requested = "" ∨ ∀ x, x ∈ splitScope requested → x ∈ splitScope granted.
Proof.
  rewrite andb_false_iff, !negb_false_iff, bool_decide_eq_true, forallb_forall. intros [|Hall]; [by left|right].
  intros x Hx%list_elem_of_In. by apply (bool_decide_eq_true _), Hall.
Qed.

Lemma refresh_grant_wp rq req b old s :
  0 < tc_refreshExpiry tcfg → rotatable tcfg (si_world s) (tq_RefreshToken req) b old →
  HashToken (fresh_token b) ≠ HashToken (tq_RefreshToken req) →
  wp (handleRefreshTokenGrant tcfg c rq req) (λ r s', ∀ a tok, r = Ok a → token_of a = Some tok →
    ∃ client roles permissions, refresh_grant req old s s' tok (scope_of a) client roles permissions) s.
Proof using H OAuth2Deps0.
  intros Hexp Hrot Hne.
  set (Q := λ r s', _). assert (hands_out_nothing Q) as Hno by (intros a s' Hnone b' tok [= ->]; by rewrite Hnone).
  unfold handleRefreshTokenGrant. case_bool_decide; [refused Hno|]. apply wp_attempt, wp_find_client.
  intros [client|e] s1 Hw1 Hshown; [specialize (Hshown _ eq_refl)|refused Hno].
  destruct (HasGrantType (Some client) _) eqn:Hmay; [|refused Hno]. cbn [negb].
  destruct (oc_IsConfidential client && _) eqn:Hauth; [refused Hno|].
  apply wp_attempt. unfold wp at 1. destruct (at_world _ s1) as [r s2] eqn:Hval. cbn [fst snd].
  apply validate_undisturbed in Hval as (Hq&Hn2&Hacc); [|rewrite Hw1; apply Hrot]. destruct r as [rt|e]; [|refused Hno].
  specialize (Hacc _ eq_refl). rewrite Hw1 in Hq, Hacc.
  assert (rt = old) as -> by (destruct Hrot as (_&_&_&_&_&_&_&d&x&Hv&Hd), Hacc as ((d'&x'&Hv'&Hd')&_); congruence).
  case_bool_decide as Hcl; [|refused Hno]. cbn [negb].
  wp_step. apply wp_validator. intros [] s3 (Hr3&Hnow3&Hnet3&Hrand3) Hactive; [specialize (Hactive eq_refl)|refused Hno]. cbn [negb].
  destruct (negb _ && negb _) eqn:Hscope; [refused Hno|]. apply scope_within in Hscope.
  assert (w_now (si_world s2) = w_now (si_world s)) as Hnow2 by apply Hq.
  apply wp_attempt, (wp_rotate _ _ b old); [done| |done|].
  { apply (rotatable_same s2); try done. by apply (rotatable_quiet (si_world s)). }
  intros s4 Hnow4 Hgone. set (new := successor _ _ _ _). set (scope := if bool_decide _ then _ else _).
  apply wp_attempt, wp_reads; [apply reads_roles|]. intros [roles|e] s5 _ Hu5; [|refused Hno].
  apply wp_attempt, wp_reads; [apply reads_permissions|]. intros [permissions|e] s6 _ Hu6; [|refused Hno].
  apply wp_attempt, wp_mint. intros [tok|e] s7 Hf7 _ Hmint; [specialize (Hmint _ eq_refl)|refused Hno].
  wp_step. apply wp_gets. wp_step.
  assert (∀ a, scope_of a = scope →
    ∃ client roles permissions, refresh_grant req old s s7 tok (scope_of a) client roles permissions) as Hgoal.
  { intros a ->. exists client, roles, permissions. split; try done.
    - intros Hconf. rewrite Hconf in Hauth. apply negb_false_iff in Hauth.
      destruct (AuthenticateClient client _) as [[]|] eqn:Hok; [|done]. by apply (authenticate_secret client).
    - exists s2. by split.
    - unfold scope. case_bool_decide; [by left|right]. split; [done|]. by destruct Hscope.
    - apply (minted_now _ s6); [|exact Hmint].
      by rewrite (proj1 (proj2 Hu6)), (proj1 (proj2 Hu5)), Hnow4, Hnow3.
    - rewrite (proj2 Hf7) by tauto. assert (undisturbed s4 s6) as Hu by by apply (undisturbed_trans _ s5).
      by rewrite (proj2 (undisturbed_frame (λ _, False) _ _ Hu)) by tauto. }
  destruct (isCookieSessionRequest rq); intros a tok' [= <-] [= <-]; by apply Hgoal.
Qed.

(** ** The device grant *)
Lemma device_not_token h : ¬ under refresh_family (deviceCodeKey h).
Proof. apply (under_apart device_family); [reflexivity|]. apply (under_intro _ deviceCodeKeyPrefix). reflexivity. Qed.

(** What the record read says of the state of the code. *)
Lemma get_device_state t w st dc w' : in_state (view w (deviceCodeKey (HashToken t))) st →
  GetDeviceCode t w = (Ok dc, w') → dc_Status dc = StatusAuthorized →
  st = Authorized (dc_ClientID dc) (dc_AccountID dc).
Proof.
  intros Hin Heq Hst.
  enough (wp (GetDeviceCode t) (λ r _, ∀ dc, r = Ok dc → dc_Status dc = StatusAuthorized →
    st = Authorized (dc_ClientID dc) (dc_AccountID dc)) w) as Hwp by exact (wp_intro _ _ _ _ _ Heq Hwp dc eq_refl Hst).
  clear dc Hst Heq w'. unfold GetDeviceCode, fetch. wp_step. wp_step. wp_step. apply wp_Get_any. intros r w1 _ Hr.
  destruct r as [d|e]; [|by case_match; wp_step]. destruct (get_result_ok _ _ Hr) as [x Hx]. rewrite Hx in Hin.
  destruct Hin as (l&[= ->]&Hwf&Hs). wp_step. destruct (unmarshal_device (jobj l)) as [dc|] eqn:Hu; [|by wp_step].
  wp_step. intros ? [= <-] Hst. destruct (state_of_members _ _ Hs) as (s0&c0&a0&Hs0&Hc0&Ha0&Heq).
  destruct (unmarshal_doc _ _ _ _ _ Hwf Hu Hs0 Hc0 Ha0) as (Hd1&->&->). rewrite Hst in Hd1.
  assert (field_is "status" "authorized" l = true) as Hf by by apply field_is_true; rewrite Hs0, <-Hd1.
  pose proof (state_of_status l st "authorized" Hs Hf). by destruct st.
Qed.

Record device_grant (req : TokenRequest) s s' (tok scope : string) (client : OAuth2Client) (account : string)
    (roles permissions : list string) : Prop := {
  dg_shown : shown_client (tq_ClientID req) s client;
  dg_may : HasGrantType (Some client) GrantTypeDeviceCode = true;
  dg_authenticated : AuthenticateClient client (tq_ClientSecret req) = Ok tt;
  dg_active : said_active account s;
  dg_minted : minted s (token_claims account scope (tq_ClientID req) "" roles permissions) tok;
  dg_used : in_state (view (si_world s') (deviceCodeKey (HashToken (tq_DeviceCode req)))) (Used (tq_ClientID req) account);
}.
Lemma device_grant_wp rq req st s :
  in_state (view (si_world s) (deviceCodeKey (HashToken (tq_DeviceCode req)))) st →
  wp (handleDeviceCodeGrant tcfg dcfg c rq req) (λ r s', ∀ a tok, r = Ok a → token_of a = Some tok →
    ∃ client account roles permissions, st = Authorized (tq_ClientID req) account ∧
      device_grant req s s' tok (scope_of a) client account roles permissions) s.
Proof using H OAuth2Deps0.
  intros Hin. set (k := deviceCodeKey _) in *.
  set (Q := λ r s', _). assert (hands_out_nothing Q) as Hno by (intros a s' Hnone b' tok [= ->]; by rewrite Hnone).
  unfold handleDeviceCodeGrant. destruct (_ || _); [refused Hno|]. apply wp_attempt, wp_find_client.
  intros [client|e] s1 Hw1 Hshown; [specialize (Hshown _ eq_refl)|refused Hno].
  destruct (HasGrantType (Some client) _) eqn:Hmay; [|refused Hno]. cbn [negb].
  destruct (AuthenticateClient client _) as [[]|] eqn:Hauth; [|refused Hno]. cbn [negb is_ok].
  apply wp_attempt, (wp_at_touch (λ _, False)); [apply touches_GetDeviceCode|]. intros [dc|e] s2 Hget Hf2; [|refused Hno].
  rewrite Hw1 in Hget. case_bool_decide as Hcl; [|refused Hno]. cbn [negb]. wp_step. apply wp_gets.
  destruct (device_IsExpired _ _); [refused Hno|].
  assert (view (si_world s2) k = view (si_world s) k) as Hk2 by (rewrite (proj2 Hf2), Hw1 by tauto; done).
  apply wp_attempt, (wp_at_touch (under device_family)); [apply touches_CheckAndUpdatePollRate|].
  intros [u|e] s3 Hpoll Hf3; [|refused Hno].
  assert (∃ st3, in_state (view (si_world s3) k) st3 ∧ dmove st st3) as (st3&Hin3&Hmove).
  { rewrite <-Hk2 in Hin. apply (step_moves dcfg (tq_DeviceCode req) (si_world s2)); [done|].
    change (si_world s3) with ((Ok u, si_world s3).2). rewrite <-Hpoll. constructor. }
  case_bool_decide; [refused Hno|]. case_bool_decide; [refused Hno|]. case_bool_decide as Hst; [|refused Hno]. cbn [negb].
  pose proof (get_device_state _ _ _ _ _ Hin Hget Hst) as ->. rewrite Hcl in Hmove. set (acc := dc_AccountID dc) in *.
  wp_step. apply wp_validator. intros [] s4 Hu4 Hactive; [specialize (Hactive eq_refl)|refused Hno]. cbn [negb].
  pose proof (undisturbed_frame (λ _, False) _ _ Hu4) as Hf4. wp_step. wp_step.
  apply (wp_at_touch (under device_family)); [apply touches_ClaimAuthorizedDeviceCode|].
  intros [dc'|e] s5 Hclaim Hf5.
  2: { unfold claim_failed. wp_step. wp_step. apply (wp_at_touch (λ _, False)); [apply touches_GetDeviceCode|]. intros r s6 _ _.
       wp_step. apply wp_gets. wp_step. by apply Hno. }
  rewrite <-(proj2 Hf4) in Hin3 by tauto.
  destruct (claim_effect _ _ _ _ _ _ Hin3 Hclaim) as (acc'&->&_&Hcl'&Hacc'&Hused). rewrite Hcl', Hacc'.
  assert (acc' = acc) as -> by by inversion Hmove.
  apply wp_issue_tokens; [done|]. intros roles permissions tok rt idt s6 Hf6 Hmint _. wp_step.
  intros a tok' [= <-] [= <-]. exists client, acc, roles, permissions. split; [by rewrite Hcl|].
  assert (w_now (si_world s3) = w_now (si_world s)) as Hnow3 by by rewrite (proj1 Hf3), (proj1 Hf2), Hw1.
  split; try done.
  - by exists s3.
  - apply (minted_now _ s5); [|done]. by rewrite (proj1 Hf5), (proj1 Hf4).
  - fold k. by rewrite (proj2 Hf6) by apply device_not_token.
Qed.
End endpoint.
