(* ===== verification/AuthSpecs.v ===== *)
(** * What the steps of the login flows do

    The keys they change, the database they read, the counter that limits them, the
    session object they create. *)
From S2P Require Import Prelude GoTime Json Hash Url LuaPattern Redis World Cache Footprint TokenDomain Blacklist TokenService TokenSpecs TokenIndex TokenInv TokenProps AccessProps Session SessionService SessionSpecs SessionProps GoStrings AccountDomain Credential OAuthDomain AuthCode DeviceCode ServiceFootprints Database ClientRepo ClientService AccountRepo Mfa Scan Site StateFootprints AccountService AuthMiddleware OAuthController TokenEndpoint TokenEndpointProps Verification AuthCore AuthLogin.
Local Open Scope Z_scope.

(** ** Reading accounts *)
Section queries.
Context {R : Type} `{Postgres}.
Lemma reads_password_row u : only_reads (R := R) (AccountSvc_FindByUsernameWithPasswordCredential u).
Proof. unfold AccountSvc_FindByUsernameWithPasswordCredential, FindByUsernameWithPasswordCredential. reading. Qed.
Lemma reads_FindRoles id : only_reads (R := R) (FindRolesByAccountID id).
Proof. unfold FindRolesByAccountID. reading. Qed.
Lemma reads_FindByAccountAndType id ty : only_reads (R := R) (FindByAccountAndType id ty).
Proof. unfold FindByAccountAndType. reading. Qed.
#[local] Hint Resolve reads_FindByAccountAndType : reading.
Lemma reads_VerifyTOTP `{Totp} `{AesGcm} (mfa : MFAService) id code : only_reads (R := R) (VerifyTOTP mfa id code).
Proof. unfold VerifyTOTP. reading. Qed.
End queries.
#[export] Hint Resolve reads_password_row reads_FindRoles reads_FindByAccountAndType reads_VerifyTOTP : reading.

(** ** The counter of [CheckAndIncr] *)
Definition counter_at (o : option rentry) (c : option (Z * Z)) : Prop :=
  match c with
  | None => o = None
  | Some (n, deadline) => o = Some (Entry (RStr (dec n)) (Some deadline)) ∧ 0 < n < 2 ^ 63 - 1
  end.
Definition counter_store {R} `{RedisServer R} (w : World R) key : Prop := ∃ c, counter_at (view w key) c.
Definition tally (limit window now : Z) (c : option (Z * Z)) : Z * option (Z * Z) :=
  match c with
  | None => (1, Some (1, now + ceil_secs window * 1000))
  | Some (n, deadline) => if limit <=? n then (n, c) else (n + 1, Some (n + 1, deadline))
  end.

Section counter.
Context {R : Type} `{RedisServer R}.
Implicit Types w : World R.

Lemma ceil_secs_pos t : 0 < t → 0 < ceil_secs t.
Proof. unfold ceil_secs, second. intros Ht. div_lia. Qed.
Lemma check_script_spec key limit window now c (st : R) : 0 < limit < 2 ^ 62 → 0 < window → counter_at (r_view st now key) c →
  wp (checkAndIncrLuaScript key limit (ceil_secs window) now)
     (λ r st', r = Ok (tally limit window now c).1 ∧ counter_at (r_view st' now key) (tally limit window now c).2 ∧
        ∀ k, k ≠ key → r_view st' now k = r_view st now k) st.
Proof.
  intros Hl Hw Hc. pose proof (ceil_secs_pos window Hw). unfold checkAndIncrLuaScript. apply wp_bind, wp_s_get. intros st1 Hs1.
  destruct c as [[n d]|]; cbn [counter_at] in Hc; [destruct Hc as [Hc Hn]|]; rewrite Hc; cbn [str_of tonumber].
  - rewrite parse_int_dec by lia. wp_steps. cbn [tally]. destruct (Z.leb_spec limit n).
    { wp_steps. cbn. split_and!; [done|by rewrite Hs1|lia|lia|intros; by rewrite Hs1]. }
    apply wp_bind, (wp_s_incr _ _ n (Some d)); [rewrite Hs1, Hc; split_and!; [apply parse_int_dec; lia|done|lia]|].
    intros st2 Hs2. rewrite (proj2 (Z.eqb_neq _ _)) by lia. wp_steps. cbn [fst snd counter_at].
    split_and!; [done|by rewrite Hs2, decide_True|lia|lia|]. intros k Hk. by rewrite Hs2, decide_False, Hs1 by done.
  - wp_steps. rewrite (proj2 (Z.leb_gt _ _)) by lia.
    apply wp_bind, (wp_s_incr _ _ 0 None); [by rewrite Hs1, Hc|]. intros st2 Hs2. cbn [Z.add Z.eqb]. wp_steps.
    apply wp_s_pexpire; [lia|]. intros st3 Hs3. rewrite Hs2, decide_True in Hs3 by done. wp_steps. cbn [tally fst snd counter_at].
    split_and!; [done|by rewrite Hs3, decide_True|lia|lia|]. intros k Hk. by rewrite Hs3, decide_False, Hs2, decide_False, Hs1 by done.
Qed.
Lemma check_incr_wp key limit window w c : 0 < limit < 2 ^ 62 → 0 < window → counter_at (view w key) c →
  wp (CheckAndIncr key limit window) (λ r w', w_now w' = w_now w ∧ (∀ k, k ≠ key → view w' k = view w k) ∧
    ((r = Ok (tally limit window (now_ms w) c).1 ∧ counter_at (view w' key) (tally limit window (now_ms w) c).2) ∨
     (w_net w ≠ [] ∧ is_ok r = false ∧ ∃ c', counter_at (view w' key) c' ∧ (c' = c ∨ c' = (tally limit window (now_ms w) c).2)))) w.
Proof.
  intros Hl Hw Hc. unfold CheckAndIncr. rewrite (proj2 (Z.leb_gt _ _)) by lia. apply wp_wrap, wp_redis_call_fates.
  - intros net. eapply wp_mono; [by apply check_script_spec|]. intros r st (->&Hst&Hk). split.
    + split_and!; [done|done|]. by left.
    + intros Hn. split_and!; [done|done|right]. split_and!; [done|done|]. eauto.
  - intros net Hn. split_and!; [done|done|right]. split_and!; [done|done|]. eauto.
Qed.
End counter.

(** ** Keys *)
Definition attempt_family : list string := ["login_attempts:"; "login_attempts_ip:"; "mfa_attempts:"].
Definition issue_family : list string := session_family ++ ["auth:roles:"].
#[export] Hint Extern 1 (under _ (login_attempts_key _ _)) => refine (under_intro _ "login_attempts:" _ _); reflexivity : footprint.
#[export] Hint Extern 1 (under _ (login_attempts_ip_key _)) => refine (under_intro _ "login_attempts_ip:" _ _); reflexivity : footprint.
#[export] Hint Extern 1 (under _ (mfa_attempts_key _)) => refine (under_intro _ "mfa_attempts:" _ _); reflexivity : footprint.
#[export] Hint Extern 1 (under _ (mfa_verified_key _)) => refine (under_intro _ "webauthn:mfa_verified:" _ _); reflexivity : footprint.
#[export] Hint Extern 1 (under _ (roleCacheKey _)) => refine (under_intro _ "auth:roles:" _ _); reflexivity : footprint.
#[export] Hint Extern 1 (under _ (buildSessionKey _)) => refine (under_intro _ sessionKeyPrefix _ _); reflexivity : footprint.
#[export] Hint Extern 1 (under _ (buildAccountSessionsKey _)) => refine (under_intro _ accountSessionsPrefix _ _); reflexivity : footprint.

Lemma under_more ps qs k : under ps k → forallb (λ p, bool_decide (p ∈ qs)) ps = true → under qs k.
Proof.
  intros (p&x&Hp&->) Hall. rewrite forallb_forall in Hall. exists p, x. split; [|done].
  apply list_elem_of_In, Hall, bool_decide_eq_true in Hp. exact Hp.
Qed.

Section login_keys.
Context {R : Type} `{RedisServer R} `{JwtLib} `{Postgres} `{Bcrypt} `{Argon2} `{Totp} `{AesGcm} `{Lower} (s : AuthService R).
#[local] Abbreviation scfg := (as_sessionSvc s).
#[local] Abbreviation tr := (as_tokenRevoker s).
#[local] Abbreviation F := (under session_family).

Lemma keeps_login_audit P a acc d : keeps P (login_audit (R := R) a acc d).
Proof. unfold login_audit. keep. Qed.
#[local] Hint Resolve keeps_login_audit : footprint.
Lemma keeps_on_failure {A} P a acc d (m : M (Site R) A) : keeps P m → keeps P (on_failure a acc d m).
Proof. intros Hm. unfold on_failure. keep. Qed.
Lemma keeps_within_limit P k l t e : P k → keeps P (within_limit (R := R) k l t e).
Proof. intros Hk. unfold within_limit. keep. Qed.
Lemma keeps_ip_counter ip : keeps (under ["login_attempts_ip:"]) (checkIPRateLimit s ip).
Proof. unfold checkIPRateLimit. keep. apply keeps_within_limit. eauto with footprint. Qed.
Lemma keeps_ip_limit ip : keeps (under attempt_family) (checkIPRateLimit s ip).
Proof. eapply keeps_mono; [apply keeps_ip_counter|]. intros k Hk. by apply (under_more _ _ _ Hk). Qed.
Lemma keeps_mfa_limit a : keeps (under attempt_family) (checkMFAAccountRateLimit s a).
Proof. apply keeps_within_limit. eauto with footprint. Qed.
Lemma keeps_clear ip u : keeps (under attempt_family) (clearLoginRateLimits (R := R) ip u).
Proof. unfold clearLoginRateLimits. keep. apply keeps_at_world, touches_Del. repeat constructor. eauto with footprint. Qed.
Lemma keeps_hash P pw : keeps P (dummyArgon2Hash (R := R) pw).
Proof. unfold dummyArgon2Hash, HashPassword. keep. apply keeps_at_world. touch. Qed.
Lemma keeps_reading {A} P (m : M (App R) A) : only_reads m → keeps P m.
Proof. intros Hm. apply keeps_still. intros a. apply Hm. Qed.

(** *** Sessions *)
#[local] Hint Resolve touches_GetEx touches_SRem : footprint.
Lemma touches_SetIfExists (P : string → Prop) k v e : P k → touches P (SetIfExists (R := R) k v e).
Proof. intros Hk. unfold SetIfExists, setIfExistsLuaScript. touch; by s_touch. Qed.
Lemma touches_Expire (P : string → Prop) k e : P k → touches P (Expire (R := R) k e).
Proof. intros Hk. unfold Expire. touch; by s_touch. Qed.
#[local] Hint Resolve touches_SetIfExists touches_Expire : footprint.
Lemma s_touches_drop now a sid : s_touches F now (drop_session (R := R) now (buildAccountSessionsKey a) sid).
Proof. unfold drop_session. s_touch; eauto with footprint. Qed.
Lemma s_touches_scan now ids : s_touches F now (scan_sessions (R := R) now ids).
Proof. induction ids as [|sid ids IH]; cbn [scan_sessions]; s_touch. apply IH. Qed.
Lemma s_touches_pass now a pick max l rem : s_touches F now (evict_pass (R := R) now (buildAccountSessionsKey a) pick max l rem).
Proof.
  revert rem. induction l as [|x l IH]; intros rem; cbn [evict_pass]; [apply s_touches_ret|].
  destruct (_ <=? _); [apply s_touches_ret|]. destruct (pick _); [|apply IH].
  apply s_touches_bind; [apply s_touches_drop|intros _]. apply s_touches_bind; [apply IH|intros [? ?]; apply s_touches_ret].
Qed.
Lemma s_touches_evict a max p now : s_touches F now (evictOldestSessionsScript (R := R) (buildAccountSessionsKey a) max p now).
Proof.
  unfold evictOldestSessionsScript. apply s_touches_bind; [by s_touch|intros ids]. destruct (_ <=? _); [apply s_touches_ret|].
  apply s_touches_bind; [apply s_touches_scan|intros [good bad]].
  apply s_touches_bind; [apply s_touches_each; intros; apply s_touches_drop|intros _].
  apply s_touches_bind; [apply s_touches_pass|intros [ev rem]]. destruct (_ && _); [|apply s_touches_ret].
  apply s_touches_bind; [apply s_touches_pass|intros [? ?]; apply s_touches_ret].
Qed.
Lemma keeps_revoke_each ids : keeps F (revoke_each tr ids).
Proof. unfold revoke_each. keep. apply keeps_revoke_tokens. Qed.
Lemma keeps_enforce a p : keeps F (enforceSessionLimit scfg tr a p).
Proof.
  unfold enforceSessionLimit. destruct (_ <=? _); [apply state_keeps_ret|]. destruct tr as [t|] eqn:Ht; [|apply state_keeps_fail].
  apply state_keeps_bind; [|intros ids; rewrite <-Ht; apply keeps_revoke_each].
  apply state_keeps_wrap, keeps_on_world, touches_call. intros now. apply s_touches_evict.
Qed.
Lemma keeps_store_obj p x : keeps F (store_obj (R := R) p x).
Proof. by intros st. Qed.
#[local] Hint Resolve keeps_enforce keeps_store_obj keeps_cacheStore keeps_cacheEvict keeps_new_obj : footprint.
Lemma keeps_CreateSession p : keeps F (CreateSession scfg tr p).
Proof.
  unfold CreateSession, load_obj, createSessionScript. keep. apply keeps_on_world. touch. s_touch; eauto with footprint.
Qed.
Lemma keeps_write_back c sid p : keeps F (write_back (R := R) scfg c sid p).
Proof. unfold write_back, UpdateActivity, load_obj. keep. Qed.
Lemma keeps_UpdateSession p : keeps F (UpdateSession (R := R) scfg p).
Proof. unfold UpdateSession, load_obj. keep. apply keeps_write_back. Qed.
Lemma keeps_DeleteSession sid : keeps F (DeleteSession (R := R) sid).
Proof.
  unfold DeleteSession, load_obj. keep. apply keeps_on_world, touches_Del. repeat constructor. eauto with footprint.
Qed.

(** *** Sessions with their tokens *)
#[local] Abbreviation I := (under issue_family).
Lemma session_issue k : under session_family k → I k.
Proof. intros Hk. by apply (under_more _ _ _ Hk). Qed.
#[local] Hint Resolve keeps_login_audit touches_GenerateAccessToken : footprint.
Lemma keeps_roles_only a : keeps (under ["auth:roles:"]) (fetchRolesCached (R := R) a).
Proof.
  unfold fetchRolesCached. keep; try (apply keeps_reading; eauto with reading); apply keeps_at_world; touch; eauto with footprint.
Qed.
Lemma keeps_roles a : keeps I (fetchRolesCached (R := R) a).
Proof. eapply keeps_mono; [apply keeps_roles_only|]. intros k Hk. by apply (under_more _ _ _ Hk). Qed.
(** The tokens of a session touch no session. *)
Definition grant_family : list string := token_keys ++ ["auth:roles:"].
Lemma keeps_issue_grant ctx a sid : keeps (under grant_family) (issue_for_session s ctx a sid).
Proof.
  unfold issue_for_session, buildTokenClaims. keep; [eapply keeps_mono; [apply keeps_roles_only|]; intros k Hk; by apply (under_more _ _ _ Hk)|].
  apply keeps_at_world. eapply touches_mono; [apply touches_GenerateRefreshToken|]. intros k Hk. by apply (under_more _ _ _ Hk).
Qed.
Lemma keeps_issue ctx a sid : keeps I (issue_for_session s ctx a sid).
Proof. eapply keeps_mono; [apply keeps_issue_grant|]. intros k Hk. by apply (under_more _ _ _ Hk). Qed.
Lemma keeps_createSessionAndTokens ctx acc ip ua : keeps I (createSessionAndTokens s ctx acc ip ua).
Proof.
  assert (∀ A (m : M (Sess R) A), keeps F m → keeps I m) as Hs
    by (intros A m Hm; eapply keeps_mono; [exact Hm|apply session_issue]).
  unfold createSessionAndTokens, site_now, load_obj. keep;
    [apply Hs, keeps_CreateSession|apply keeps_issue|apply Hs, keeps_DeleteSession].
Qed.
End login_keys.

(** ** From a result back to what happened *)
Section inversion.
Context {S : Type}.
Lemma bind_inv {A B} (m : M S A) (k : A → M S B) s b s' :
  bind m k s = (Ok b, s') → ∃ x s1, m s = (Ok x, s1) ∧ k x s1 = (Ok b, s').
Proof. unfold bind. destruct (m s) as [[x|e] s1]; [eauto|done]. Qed.
Lemma try_inv {A} (m : M S A) s r s' : try m s = (Ok r, s') → m s = (r, s').
Proof. unfold try. destruct (m s). by intros [= -> ->]. Qed.
Lemma wrap_inv {A} c (m : M S A) s x s' : wrap c m s = (Ok x, s') → m s = (Ok x, s').
Proof. unfold wrap. destruct (m s) as [[y|e] s1]; [|done]. by intros [= -> ->]. Qed.
Lemma guard_inv b e (s s' : S) u : guard_err b e s = (Ok u, s') → b = false ∧ s' = s.
Proof. destruct b; [done|]. by intros [= _ ->]. Qed.
Lemma ret_inv {A} (x y : A) (s s' : S) : ret x s = (Ok y, s') → y = x ∧ s' = s.
Proof. by intros [= -> ->]. Qed.
Lemma ignore_inv {A} (m : M S A) s r s' : ignore m s = (r, s') → s' = (m s).2.
Proof. unfold ignore. destruct (m s). by intros [= _ ->]. Qed.
End inversion.
Section site_inversion.
Context {R : Type}.
Implicit Types s : Site R.
Lemma at_world_inv {A} (m : M (World R) A) s r s' : at_world m s = (r, s') → ∃ w, m (si_world s) = (r, w) ∧ s' = put_world w s.
Proof. unfold at_world. destruct (m (si_world s)). intros [= -> <-]. eauto. Qed.
Lemma at_sess_inv {A} (m : M (Sess R) A) s r s' : at_sess m s = (r, s') → ∃ x, m (si_sess s) = (r, x) ∧ s' = put_sess x s.
Proof. unfold at_sess. destruct (m (si_sess s)). intros [= -> <-]. eauto. Qed.
Lemma at_app_inv {A} (m : M (App R) A) s r s' : at_app m s = (r, s') → ∃ a, m (app_of s) = (r, a) ∧ s' = put_app a s.
Proof. unfold at_app. destruct (m (app_of s)). intros [= -> <-]. eauto. Qed.
Lemma on_failure_inv {A} act acc d (m : M (Site R) A) s x s' : on_failure act acc d m s = (Ok x, s') → m s = (Ok x, s').
Proof.
  intros (r&s1&Hm%try_inv&Hk)%bind_inv. destruct r as [y|e]; [by apply ret_inv in Hk as [-> ->]|].
  by apply bind_inv in Hk as (?&?&_&?).
Qed.
End site_inversion.
(** Take the run [H] of a program apart, one step. *)
Ltac inv_step H :=
  lazymatch type of H with
  | bind (try _) _ _ = _ => let x := fresh "r" in let s1 := fresh "st" in let Hx := fresh "Hr" in
      apply bind_inv in H as (x&s1&Hx&H); apply try_inv in Hx
  | bind (guard_err _ _) _ _ = _ => let x := fresh "u" in let s1 := fresh "st" in let Hx := fresh "Hg" in
      apply bind_inv in H as (x&s1&Hx&H); apply guard_inv in Hx as [Hx ->]; clear x
  | bind (wrap _ _) _ _ = _ => let x := fresh "x" in let s1 := fresh "st" in let Hx := fresh "Hx" in
      apply bind_inv in H as (x&s1&Hx&H); apply wrap_inv in Hx
  | bind (ignore _) _ _ = _ => let x := fresh "u" in let s1 := fresh "st" in let Hx := fresh "Hi" in
      apply bind_inv in H as (x&s1&Hx&H); apply ignore_inv in Hx; clear x
  | bind _ _ _ = _ => let x := fresh "x" in let s1 := fresh "st" in let Hx := fresh "Hx" in
      apply bind_inv in H as (x&s1&Hx&H)
  | ret _ ?s = (_, ?s') => let Hs := fresh in apply ret_inv in H as [H Hs]; first [is_var s; subst s | subst s']
  | guard_err _ _ _ = _ => apply guard_inv in H as [H ->]
  | wrap _ _ _ = _ => apply wrap_inv in H
  | fail _ _ = _ => discriminate H
  end.

