(* ===== verification/AuthProps.v ===== *)
(** * What a login means *)
From S2P Require Import Prelude GoTime Json Hash Url LuaPattern Redis World Cache Footprint TokenDomain Blacklist TokenService TokenSpecs TokenIndex TokenInv TokenProps AccessProps Session SessionService SessionSpecs SessionProps GoStrings AccountDomain Credential OAuthDomain AuthCode DeviceCode ServiceFootprints Database ClientRepo ClientService AccountRepo Mfa Scan Site StateFootprints AccountService AuthMiddleware OAuthController TokenEndpoint TokenEndpointProps Verification AuthCore AuthLogin AuthSpecs.
Local Open Scope Z_scope.

Section login.
Context {R : Type} `{RedisServer R} `{JwtLib} `{Postgres} `{Bcrypt} `{Argon2} `{Totp} `{AesGcm} `{Lower} (s : AuthService R).
#[local] Abbreviation tcfg := (as_tokenSvc s).
#[local] Abbreviation scfg := (as_sessionSvc s).
#[local] Abbreviation tr := (as_tokenRevoker s).
Implicit Types st : Site R.
Definition session_at st (p : nat) : Session := sv_heap (si_sess st) !!! p.

(** ** Creating a session with its tokens *)
(** A session that starts now, and tokens for it and its account. *)
Record opened st st' (accountID ip : string) (factor : bool) (p : nat) (accessToken : string) (refreshToken : RefreshToken) : Prop := {
  op_place : (p < length (sv_heap (si_sess st')))%nat;
  op_account : se_AccountID (session_at st' p) = accountID;
  op_ip : se_IP (session_at st' p) = ip;
  op_factor : se_MFAVerified (session_at st' p) = factor;
  op_start : se_CreatedAt (session_at st' p) = w_now (si_world st);
  op_access : ∃ id scope roles permissions, jwt_sign (tc_keyID tcfg) (tc_privateKey tcfg)
    (issued tcfg id (w_now (si_world st)) (token_claims accountID (se_ID (session_at st' p)) scope roles permissions)) = Ok accessToken;
  op_refresh : rt_AccountID refreshToken = accountID ∧ rt_SessionID refreshToken = se_ID (session_at st' p) ∧ rt_ClientID refreshToken = "";
}.

(** The session is stored under its key. *)
Definition stored st (x : Session) : Prop := holds_session (si_sess st) x.
Lemma keeps_run {A} P (m : M (Site R) A) st r st' : keeps P m → m st = (r, st') → stays P (si_world st) (si_world st').
Proof. intros Hm Hrun. specialize (Hm st). by rewrite Hrun in Hm. Qed.
Lemma si_world_put w st : si_world (put_world w st) = w. Proof. done. Qed.
Lemma heap_at_world {A} (m : M (World R) A) st : sv_heap (si_sess (at_world m st).2) = sv_heap (si_sess st).
Proof. unfold at_world. by destruct (m (si_world st)). Qed.
Lemma si_world_sess x st : si_world (put_sess x st) = sv_world x. Proof. done. Qed.
Lemma reads_db_issue ctx a sid : reads_db (issue_for_session s ctx a sid).
Proof. unfold issue_for_session, buildTokenClaims, fetchRolesCached. reads_db. Qed.
Lemma reads_db_create ctx acc ip ua : reads_db (createSessionAndTokens s ctx acc ip ua).
Proof. unfold createSessionAndTokens, site_now. reads_db. apply reads_db_issue. Qed.
Lemma issued_tokens ctx a sid st at_ rt st' : issue_for_session s ctx a sid st = (Ok (at_, rt), st') →
  (∃ id scope roles permissions, jwt_sign (tc_keyID tcfg) (tc_privateKey tcfg)
    (issued tcfg id (w_now (si_world st)) (token_claims a sid scope roles permissions)) = Ok at_) ∧
  (rt_AccountID rt = a ∧ rt_SessionID rt = sid ∧ rt_ClientID rt = "") ∧ sv_heap (si_sess st') = sv_heap (si_sess st).
Proof.
  unfold issue_for_session. intros Hrun. inv_step Hrun. inv_step Hrun. inv_step Hrun. inv_step Hrun. injection Hrun as <- <-.
  destruct (keeps_roles (R := R) a st) as (Hn&_).
  unfold buildTokenClaims in Hx. apply bind_inv in Hx as ([roles perms]&st3&Hroles&Hx). apply ret_inv in Hx as [-> ->].
  rewrite Hroles in Hn. cbn [snd] in Hn.
  assert (sv_heap (si_sess st3) = sv_heap (si_sess st)) as Hh3.
  { revert Hroles. unfold fetchRolesCached. intros Hf. inv_step Hf.
    apply at_world_inv in Hr as (w1&_&->). destruct (match r with Ok _ => _ | Err _ => _ end) as [e|].
    - by inv_step Hf.
    - inv_step Hf. apply at_app_inv in Hx as (a1&_&->). inv_step Hf. inv_step Hf. subst. by rewrite heap_at_world. }
  apply at_world_inv in Hx0 as (w2&Hgen&->). apply at_world_inv in Hx1 as (w3&Hrt&->).
  apply generate_access_inv in Hgen as (id&Hid&_). split; [|split].
  - exists id. eexists _, roles, perms. change (w_now (si_world st3) = w_now (si_world st)) in Hn. rewrite <-Hn. exact Hid.
  - destruct (wp_intro _ _ _ _ _ Hrt (generate_refresh_says _ _ _ _ _ _ _) _ eq_refl) as (?&?&?&_). done.
  - exact Hh3.
Qed.
Lemma session_not_grant sid : ¬ under grant_family (buildSessionKey sid).
Proof. apply (under_apart [sessionKeyPrefix]); [reflexivity|]. by apply (under_intro _ sessionKeyPrefix). Qed.
Lemma session_opened_stored ctx account ip ua st p at_ rt st' :
  createSessionAndTokens s ctx account ip ua st = (Ok (p, at_, rt), st') →
  opened st st' (a_ID account) ip false p at_ rt ∧ stored st' (session_at st' p).
Proof.
  unfold createSessionAndTokens. intros Hrun. inv_step Hrun. injection Hx as <- <-. inv_step Hrun.
  apply at_world_inv in Hx as (w1&Huuid&->). inv_step Hrun.
  assert (w_now w1 = w_now (si_world st)) as Hn1.
  { destruct (touches_uuid (λ _, True) (si_world st)) as (Hn&_). by rewrite Huuid in Hn. }
  unfold NewSession in Hx. case_bool_decide; [discriminate Hx|]. injection Hx as <- <-. inv_step Hrun.
  apply at_sess_inv in Hx as (x1&Hnew&->). injection Hnew as <- <-.
  inv_step Hrun. apply at_sess_inv in Hx as (x2&Hcreate&->). destruct x0.
  match type of Hcreate with CreateSession _ _ ?p ?x = _ =>
    pose proof (create_session_stored scfg tr p x ltac:(cbn; rewrite length_app; cbn; lia)) as Hwp;
    pose proof (keeps_CreateSession s p x) as (Hn2&_) end.
  rewrite Hcreate in Hn2. destruct (wp_intro _ _ _ _ _ Hcreate Hwp eq_refl) as (Hstored&id&Hheap). clear Hwp. cbn in Hn2. inv_step Hrun.
  injection Hx as <- <-. inv_step Hrun. destruct r as [[at1 rt1]|e]; [|by inv_step Hrun].
  inv_step Hrun. injection Hrun as -> <- <-. pose proof (keeps_run _ _ _ _ _ (keeps_issue_grant _ _ _ _) Hr) as (_&_&Hgrant).
  apply issued_tokens in Hr as ((i&scope&roles&perms&Hi)&Hrt&Hh). cbn in Hh. rewrite si_world_sess in Hi; change (world_of x2) with (sv_world x2) in Hn2; rewrite Hn2, ?Hn1 in Hi.
  set (n := length (sv_heap (si_sess st))) in *.
  assert (session_at st' n = begin_session (w_now (si_world st)) id
    (mkSession x (a_ID account) (default "" (a_Username account)) ip ua false (w_now (si_world st)) (w_now (si_world st)) (Some []))) as Hobj.
  { unfold session_at. rewrite Hh, Hheap. cbn. rewrite list_lookup_total_insert_eq by (rewrite length_app; cbn; lia).
    subst n. by rewrite lookup_total_app_r, Nat.sub_diag, Hn1 by done. }
  assert (sv_heap x2 !!! n = session_at st' n) as Hsame by (unfold session_at; by rewrite Hh).
  assert (stored st' (session_at st' n)) as Hst.
  { rewrite <-Hsame. destruct Hstored as (d&e&Hd&Hv). exists d, e. split; [exact Hd|]. etransitivity; [apply Hgrant, session_not_grant|exact Hv]. }
  split; [|exact Hst]. rewrite Hsame in Hi, Hrt. rewrite Hobj in *. constructor; rewrite ?Hobj; try done.
  - subst n. rewrite Hh, Hheap. cbn. rewrite length_insert, length_app. cbn. lia.
  - by eauto 10.
Qed.

Lemma session_opened ctx account ip ua st p at_ rt st' :
  createSessionAndTokens s ctx account ip ua st = (Ok (p, at_, rt), st') → opened st st' (a_ID account) ip false p at_ rt.
Proof. intros Hrun. by apply session_opened_stored in Hrun as [? _]. Qed.

Lemma opened_at st1 st1' st st' a ip f p at_ rt : opened st st' a ip f p at_ rt →
  w_now (si_world st1) = w_now (si_world st) → sv_heap (si_sess st1') = sv_heap (si_sess st') → opened st1 st1' a ip f p at_ rt.
Proof.
  intros [] Hn Hh. constructor; unfold session_at in *; rewrite ?Hn, ?Hh; done.
Qed.

(** ** Passwords *)
(** What the tables say: the active account of the name, and the credential the password opens. *)
Definition password_opens (p : People) (username password : string) (account : Account) : Prop :=
  account_named p username = Some account ∧ IsActive (Some account) = true ∧
  ∃ c, head (credentials_of p (a_ID account) [CredentialTypePassword]) = Some c ∧ VerifyPassword (Some c) password = true.
(** A verified authenticator is enrolled. *)
Definition second_factor (p : People) (accountID : string) : bool := existsb usable (credentials_of p accountID [CredentialTypeTOTP]).

Lemma check_password_inv u pw st account c st' : check_password u pw st = (Ok (account, c), st') →
  si_sess st' = si_sess st ∧ later (si_db st) (si_db st') ∧
  ∃ d, later (si_db st) d ∧ password_opens (t_people (db_tables d)) u pw account.
Proof.
  unfold check_password. intros Hrun. inv_step Hrun. apply at_app_inv in Hr as (a&Hq&->).
  destruct r as [[acc [cr|e]]|e].
  2:{ unfold no_such_login in Hrun. by inv_step Hrun. }
  2:{ destruct (_ || _); [|discriminate Hrun]. unfold no_such_login in Hrun. by inv_step Hrun. }
  destruct (IsActive (Some acc)) eqn:Ha; cbn [negb] in Hrun; [|unfold no_such_login in Hrun; by inv_step Hrun].
  inv_step Hrun. apply negb_false_iff in Hg. inv_step Hrun. injection Hrun as <- <-.
  enough (ap_world a = si_world st ∧ later (si_db st) (ap_db a) ∧
    ∃ d, later (si_db st) d ∧ account_named (t_people (db_tables d)) u = Some account ∧
      head (credentials_of (t_people (db_tables d)) (a_ID account) [CredentialTypePassword]) = Some c) as (Hw&Hd&d&Hl&Hacc&Hc).
  { split; [cbn; rewrite Hw; by destruct st as [[]]|split; [exact Hd|]]. exists d. split; [exact Hl|]. split; [exact Hacc|]. split; [exact Ha|]. by exists c. }
  pose proof (reads_password_row (R := R) u (app_of st)) as [Hw Hd]. rewrite Hq in Hw, Hd. split; [exact Hw|split; [exact Hd|]].
  revert Hq. unfold AccountSvc_FindByUsernameWithPasswordCredential, FindByUsernameWithPasswordCredential. intros Hq. inv_step Hq.
  apply query_inv in Hx as (d&Hl&->&_).
  exists d. split; [exact Hl|]. destruct (account_named _ _) as [b|]; cbn in Hq; [|discriminate Hq].
  destruct (head _) as [k|] eqn:Hk; inv_step Hq; [by injection Hq as <- <-|discriminate Hq].
Qed.

(** What stands between the factors: a token good for nothing else. *)
Definition between_factors st (accountID tok : string) : Prop :=
  ∃ id exp, exp <= NewNumericDate (w_now (si_world st) + MaxShortLivedExpiry) ∧
    jwt_sign (tc_keyID tcfg) (tc_privateKey tcfg) (ensureClientAudience
      (stamp_claims tcfg id (NewNumericDate (w_now (si_world st))) exp (mfa_claims id accountID (w_now (si_world st) + as_mfaVerificationTTL s)))) = Ok tok.
Lemma mfa_requirement_inv account st o st' : handleMFARequirement s account st = (Ok o, st') →
  w_now (si_world st') = w_now (si_world st) ∧ later (si_db st) (si_db st') ∧
  ∃ d, later (si_db st) d ∧
    match o with
    | Some res => second_factor (t_people (db_tables d)) (a_ID account) = true ∧
        ∃ tok types, res = buildMFAResult account tok types ∧ between_factors st (a_ID account) tok
    | None => second_factor (t_people (db_tables d)) (a_ID account) = false
    end.
Proof.
  unfold handleMFARequirement. intros Hrun. inv_step Hrun. apply at_app_inv in Hr as (a&Hq&->).
  destruct r as [status|e]; [|discriminate Hrun].
  assert (only_reads (GetMFAStatus (R := R) (as_mfaSvc s) (a_ID account))) as Hreads.
  { unfold GetMFAStatus, PasskeyRepo_HasPasskeys. reading. apply reads_passkeys. }
  pose proof (Hreads (app_of st)) as [Hw Hd]. rewrite Hq in Hw, Hd. cbn [snd] in Hw, Hd.
  unfold GetMFAStatus in Hq. inv_step Hq. unfold FindByAccountAndType in Hx. inv_step Hx. apply query_inv in Hx as (d&Hl&->&->).
  inv_step Hq. inv_step Hq. subst status. cbn [ms_Enabled ms_Types] in Hrun.
  change (existsb usable (credentials_of (t_people (db_tables d)) (a_ID account) [CredentialTypeTOTP])) with (second_factor (t_people (db_tables d)) (a_ID account)) in *.
  assert (w_now (si_world (put_app a st)) = w_now (si_world st)) as Hn by (cbn; by rewrite Hw).
  destruct (second_factor _ _) eqn:Hsf; cbn [negb] in Hrun.
  2:{ inv_step Hrun. subst o. split; [exact Hn|]. split; [exact Hd|]. by exists d. }
  inv_step Hrun. apply at_world_inv in Hx0 as (w1&Huuid&->). inv_step Hrun. injection Hx0 as <- <-.
  inv_step Hrun. apply at_world_inv in Hx0 as (w2&Htok&->). inv_step Hrun. subst o.
  destruct (touches_uuid (λ _, True) (ap_world a)) as (Hn1&_). change (si_world (put_app a st)) with (ap_world a) in *.
  rewrite Huuid in Hn1. cbn [snd] in Hn1. change (si_world (put_world w1 (put_app a st))) with w1 in *.
  assert (w_now w2 = w_now w1) as Hn2.
  { unfold GenerateShortLivedToken, now, gets, claims_id, signToken in Htok. inv_step Htok. injection Hx0 as <- <-. inv_step Htok.
    apply (f_equal snd) in Htok. cbn in Htok. subst w2. case_bool_decide; [|by inv_step Hx0].
    unfold uuid_new in Hx0. destruct (w_uuid w1); [done|]. by injection Hx0 as <- <-. }
  split; [cbn; congruence|]. split; [exact Hd|]. exists d. split; [exact Hl|]. split; [exact Hsf|].
  eexists _, _. split; [done|]. unfold GenerateShortLivedToken in Htok. inv_step Htok. injection Hx0 as <- <-. inv_step Htok.
  injection Htok as Htok _. unfold between_factors. rewrite Hn1, Hn in Htok.
  exists x2. eexists. split; [|assert (∀ c (r : res string) y, wrap_res c r = Ok y → r = Ok y) as Hwrap by (by intros ? [] ?); exact (Hwrap _ _ _ Htok)].
  unfold short_lived_expiry. match goal with |- (if ?x <? ?y then _ else _) <= _ => destruct (Z.ltb_spec x y); lia end.
Qed.

(** ** The session objects are left alone *)
Definition spares {A} (m : M (Site R) A) : Prop := ∀ st, sv_heap (si_sess (m st).2) = sv_heap (si_sess st).
Lemma spares_run {A} (m : M (Site R) A) st r st' : spares m → m st = (r, st') → sv_heap (si_sess st') = sv_heap (si_sess st).
Proof. intros Hm Hrun. specialize (Hm st). by rewrite Hrun in Hm. Qed.
Lemma spares_world {A} (m : M (World R) A) : spares (at_world m).
Proof. intros st. apply heap_at_world. Qed.
Lemma spares_app {A} (m : M (App R) A) : spares (at_app m).
Proof. intros st. unfold at_app. by destruct (m (app_of st)). Qed.
Lemma spares_bind {A B} (m : M (Site R) A) (k : A → M (Site R) B) : spares m → (∀ x, spares (k x)) → spares (bind m k).
Proof. intros Hm Hk st. unfold bind. specialize (Hm st). destruct (m st) as [[x|e] st1]; cbn in *; [|done]. by rewrite Hk. Qed.
Lemma spares_ignore {A} (m : M (Site R) A) : spares m → spares (ignore m).
Proof. intros Hm st. apply Hm. Qed.
Lemma spares_try {A} (m : M (Site R) A) : spares m → spares (try m).
Proof. intros Hm st. unfold try. specialize (Hm st). by destruct (m st). Qed.
Lemma spares_clear ip u : spares (clearLoginRateLimits (R := R) ip u).
Proof. unfold clearLoginRateLimits. destruct u; [apply spares_ignore, spares_world|by intros st]. Qed.

(** The counter of this key answers with a count below the limit. *)
Definition counted_below (key : string) (limit window : Z) (w w' : World R) : Prop :=
  ∃ n, CheckAndIncr key limit window w = (Ok n, w') ∧ n < limit.
Lemma within_limit_inv key limit window e st u st' : within_limit key limit window e st = (Ok u, st') →
  ∃ w', counted_below key limit window (si_world st) w' ∧ st' = put_world w' st.
Proof.
  unfold within_limit. intros Hrun. inv_step Hrun. apply at_world_inv in Hr as (w&Hc&->). destruct r as [n|e']; [|discriminate Hrun].
  inv_step Hrun. apply Z.leb_gt in Hrun. exists w. split; [by exists n|done].
Qed.
(** An attempt that is let in: counted for its name and address, then for its address unless
    that is on the list of those that are trusted, below the limit both times. *)
Definition let_in (req : LoginCommand) st : Prop :=
  let ip := NormalizeIP (lc_IP req) in
  login_input_ok req = true ∧
  ∃ w1, counted_below (login_attempts_key ip (to_lower (lc_Username req))) (as_loginMaxAttempts s) (as_loginRateLimitWindow s) (si_world st) w1 ∧
    (isIPAllowlisted s ip = true ∨
     ∃ w2, counted_below (login_attempts_ip_key ip) (as_loginMaxAttemptsPerIP s) (as_loginRateLimitWindow s) w1 w2).
Lemma admit_inv req st u st' : admit_attempt s req st = (Ok u, st') →
  let_in req st ∧ w_now (si_world st') = w_now (si_world st) ∧ si_db st' = si_db st.
Proof.
  intros Hrun. assert (keeps (under attempt_family) (admit_attempt s req)) as Hk.
  { unfold admit_attempt. keep; [apply keeps_within_limit; eauto with footprint|apply keeps_ip_limit]. }
  pose proof (keeps_run _ _ _ _ _ Hk Hrun) as (Hn&_). clear Hk. revert Hrun. unfold admit_attempt. intros Hrun. inv_step Hrun.
  apply within_limit_inv in Hx as (w1&Hc1&->). inv_step Hrun. inv_step Hrun. apply negb_false_iff in Hrun.
  unfold checkIPRateLimit in Hx. destruct (isIPAllowlisted s (NormalizeIP (lc_IP req))) eqn:Hip.
  - inv_step Hx. split; [|by split]. split; [exact Hrun|]. exists w1. split; [exact Hc1|by left].
  - apply within_limit_inv in Hx as (w2&Hc2&->). split; [|by split]. split; [exact Hrun|]. exists w1. split; [exact Hc1|].
    right. exists w2. exact Hc2.
Qed.

Lemma session_not_attempt sid : ¬ under attempt_family (buildSessionKey sid).
Proof. apply (under_apart session_family); [done|]. eauto with footprint. Qed.
(** C5: what a password login means. It succeeds only when the counters of failed attempts
    for its name and address, and for its address alone, had room in the state it started
    in, only for the active account of the name, found in the database while the request
    ran, and only with a password its stored credential opens. When an authenticator is
    enrolled the answer holds nothing but a token good for the second step; otherwise it
    holds a session of that account that starts now, is not marked as having passed a second
    factor and is stored in Redis under its key, an access token signed for exactly this
    account and session, and a refresh token for them. *)
Theorem password_login_sound ctx req st res st' :
  LoginByUsernamePassword s ctx req st = (Ok res, st') →
  let_in req st ∧
  (∃ d, later (si_db st) d ∧
     password_opens (t_people (db_tables d)) (to_lower (lc_Username req)) (lc_Password req) (lr_Account res)) ∧
  ∃ d, later (si_db st) d ∧
    if second_factor (t_people (db_tables d)) (a_ID (lr_Account res))
    then ∃ tok types, res = buildMFAResult (lr_Account res) tok types ∧ between_factors st (a_ID (lr_Account res)) tok
    else ∃ p accessToken refreshToken, res = buildLoginResult (lr_Account res) p accessToken refreshToken ∧
         opened st st' (a_ID (lr_Account res)) (lc_IP req) false p accessToken refreshToken ∧ stored st' (session_at st' p).
Proof.
  unfold LoginByUsernamePassword, login_admitted. intros Hrun%on_failure_inv. inv_step Hrun. apply admit_inv in Hx as (Hok&Hn1&Hd1).
  apply bind_inv in Hrun as ([account cred]&st2&Hpw&Hrun). apply check_password_inv in Hpw as (Hsess&Hd2&d&Hd&Hopens).
  inv_step Hrun. apply mfa_requirement_inv in Hx as (Hn3&Hd3&d'&Hd'&Hfactor). split; [exact Hok|]. rewrite Hd1 in *.
  assert (later (si_db st) d') as Hl by (etrans; [exact Hd2|exact Hd']).
  assert (w_now (si_world st2) = w_now (si_world st)) as Hn2 by (unfold si_world in *; by rewrite Hsess).
  destruct x0 as [result|].
  - inv_step Hrun. subst result. destruct Hfactor as (Hsf&tok&types&->&Htok). cbn [lr_Account buildMFAResult].
    split; [by exists d|]. exists d'. split; [exact Hl|]. rewrite Hsf. exists tok, types. split; [done|].
    unfold between_factors in *. by rewrite Hn2 in Htok.
  - apply bind_inv in Hrun as ([[p at_] rt]&st4&Hcreate&Hrun). apply session_opened_stored in Hcreate as [Hopen Hstored].
    inv_step Hrun. inv_step Hrun. inv_step Hrun. inv_step Hrun. inv_step Hrun. subst res. cbn [lr_Account buildLoginResult].
    split; [by exists d|]. exists d'. split; [exact Hl|]. rewrite Hfactor. exists p, at_, rt. split; [done|].
    destruct (keeps_run _ _ _ _ _ (keeps_clear _ _) Hx0) as (_&_&Hk1). destruct (keeps_run (λ _, False) _ _ _ _ (keeps_login_audit _ _ _ _) Hx1) as (_&_&Hk2).
    apply (spares_run _ _ _ _ (spares_world _)) in Hx1. apply (spares_run _ _ _ _ (spares_clear _ _)) in Hx0.
    apply at_sess_inv in Hx as (y&Hy&->). injection Hy as _ <-.
    assert (spares (updateCredentialLastUsed (R := R) cred)) as Hsp by (apply spares_bind; [by intros z|intros t; apply spares_app]).
    assert (keeps (λ _, False) (updateCredentialLastUsed (R := R) cred)) as Hkp by (unfold updateCredentialLastUsed, UpdateLastUsedAt; keep).
    subst. destruct (Hkp st4) as (_&_&Hk0).
    assert (sv_heap (si_sess st') = sv_heap (si_sess st4)) as Hh by (rewrite Hx1, Hx0; apply Hsp).
    split; [by eapply opened_at; [exact Hopen|congruence|]|]. unfold session_at in *. rewrite Hh. destruct Hstored as (d0&e&Hm&Hv).
    exists d0, e. split; [exact Hm|]. change (view (si_world st') (buildSessionKey (se_ID (sv_heap (si_sess st4) !!! p))) = Some (Entry (RStr d0) e)).
    rewrite Hk2 by (by intros []). rewrite Hk1 by apply session_not_attempt. etransitivity; [by apply Hk0; intros []|exact Hv].
Qed.

(** ** Second factors *)
Lemma on_world_inv {A} (m : M (World R) A) x r x' : on_world m x = (r, x') → ∃ w, m (sv_world x) = (r, w) ∧ x' = set_world w x.
Proof. unfold on_world. destruct (m (sv_world x)). intros [= -> <-]. eauto. Qed.
Lemma set_if_exists_ok key v e w w' : SetIfExists (R := R) key v e w = (Ok true, w') →
  ∃ dl, view w' key = Some (Entry (RStr v) (Some dl)).
Proof.
  intros Hrun. apply (wp_intro _ (λ r w', r = Ok true → ∃ dl, view w' key = Some (Entry (RStr v) (Some dl))) _ _ _ Hrun); [|done].
  unfold SetIfExists, setIfExistsLuaScript. apply wp_wrap, wp_redis_call; [|done]. intros net.
  set (secs := if _ <=? 0 then 1 else _). assert (0 < secs) by (subst secs; destruct (Z.leb_spec (ceil_secs e) 0); lia).
  apply wp_bind, wp_s_exists. intros st1 Hs1. case_match; [|by wp_steps].
  apply wp_bind, wp_s_set; [lia|]. intros st2 Hs2. wp_steps. split; [|done]. intros _. eexists.
  transitivity (r_view st2 (now_ms w) key); [done|]. by rewrite Hs2, decide_True.
Qed.
Lemma update_session_inv p x x' : UpdateSession (R := R) scfg p x = (Ok tt, x') → (p < length (sv_heap x))%nat →
  sv_heap x' = <[p := touch (w_now (sv_world x)) (sv_heap x !!! p)]> (sv_heap x) ∧
  ∃ d e, marshal_session (sv_heap x' !!! p) = Ok d ∧
    view (sv_world x') (buildSessionKey (se_ID (sv_heap x' !!! p))) = Some (Entry (RStr d) e).
Proof.
  intros Hrun Hp. unfold UpdateSession, write_back in Hrun. inv_step Hrun. injection Hx as <- <-.
  inv_step Hrun. inv_step Hx. injection Hx0 as <- <-. inv_step Hx. injection Hx0 as <- <-. inv_step Hx.
  unfold lift_res, wrap_res in Hx0. injection Hx0 as Hm <-. destruct (marshal_session _) as [d|e] eqn:Hmd in Hm; [|discriminate Hm]. injection Hm as <-.
  inv_step Hx. inv_step Hx. apply negb_false_iff in Hg. subst.
  rewrite list_lookup_total_insert_eq in Hmd, Hx by done. set (y := touch _ _) in *.
  apply on_world_inv in Hx0 as (w1&Hset&->). apply set_if_exists_ok in Hset as [dl Hv].
  apply ignore_inv in Hx. destruct (on_world _ _) as [r st1] eqn:Hexp in Hx. cbn in Hx. subst st1.
  apply on_world_inv in Hexp as (w2&Hexp&->).
  assert (sv_heap x' = <[p:=y]> (sv_heap x) ∧ sv_world x' = w2) as [Hh Hw].
  { unfold cacheEvict, modify in Hrun. injection Hrun as <-. by case_match. }
  split; [exact Hh|]. exists d, (Some dl). rewrite Hh, Hw, list_lookup_total_insert_eq by done. split; [exact Hmd|].
  destruct (touches_Expire (R := R) (λ k, k = buildAccountSessionsKey (se_AccountID y)) (buildAccountSessionsKey (se_AccountID y)) (sc_ttl scfg) eq_refl
    (sv_world (set_world w1 (mkSess (sv_world x) (<[p:=y]> (sv_heap x)) (sv_cache x) (sv_size x))))) as (_&_&Hk).
  rewrite Hexp in Hk. cbn [snd] in Hk. rewrite Hk by (intros Heq; by apply session_not_index in Heq). exact Hv.
Qed.

Definition completion_family : list string := issue_family ++ attempt_family.
Lemma keeps_completeLogin ctx account ip ua act extra b :
  keeps (under completion_family) (completeLogin s ctx account ip ua act extra b).
Proof.
  assert (∀ A ps (m : M (Site R) A), keeps (under ps) m → forallb (λ p, bool_decide (p ∈ completion_family)) ps = true →
    keeps (under completion_family) m) as Hsub
    by (intros A ps m Hm Hps; eapply keeps_mono; [exact Hm|]; intros k Hk; by apply (under_more _ _ _ Hk)).
  unfold completeLogin, load_obj. apply state_keeps_bind; [by eapply Hsub; [apply keeps_createSessionAndTokens|]|intros [[p at_] rt]].
  apply state_keeps_bind; [|intros _].
  - destruct b; [|apply state_keeps_ret]. keep; [by intros ?|]. eapply keeps_mono; [apply keeps_UpdateSession|]. intros k Hk. by apply (under_more _ _ _ Hk).
  - keep. by eapply Hsub; [apply keeps_clear|].
Qed.

(** A login that is complete: an opened session that passed a second factor, stored so. *)
Definition completed st st' (account : Account) (ip : string) (res : LoginResult) : Prop :=
  ∃ p accessToken refreshToken, res = buildLoginResult account p accessToken refreshToken ∧
    opened st st' (a_ID account) ip true p accessToken refreshToken ∧ stored st' (session_at st' p).
Lemma complete_login_inv ctx account ip ua act extra st res st' :
  completeLogin s ctx account ip ua act extra true st = (Ok res, st') → completed st st' account ip res.
Proof.
  unfold completeLogin. intros Hrun. apply bind_inv in Hrun as ([[p at_] rt]&st1&Hcreate&Hrun).
  apply session_opened in Hcreate as Hopen. destruct Hopen as [Hplace Hacc Hip _ Hstart Haccess Hrefresh].
  apply bind_inv in Hrun as (u&st2&Hmark&Hrun). inv_step Hmark. apply at_sess_inv in Hx as (y&Hy&->). injection Hy as <- <-.
  inv_step Hmark. apply at_sess_inv in Hx as (y&Hy&->). injection Hy as _ <-. inv_step Hmark.
  apply at_sess_inv in Hmark as (y&Hupd&->). destruct u. apply update_session_inv in Hupd as (Hheap&d&e&Hm&Hv);
    [|cbn; by rewrite length_insert].
  cbn in Hheap. rewrite list_lookup_total_insert_eq, list_insert_insert_eq in Hheap by done.
  inv_step Hrun. apply at_sess_inv in Hx as (y'&Hy&->). injection Hy as _ <-. inv_step Hrun. inv_step Hrun. inv_step Hrun. subst res.
  assert (sv_heap (si_sess st') = sv_heap y) as Hh.
  { apply (spares_run _ _ _ _ (spares_world _)) in Hx0. apply (spares_run _ _ _ _ (spares_clear _ _)) in Hx. by rewrite Hx0, Hx. }
  fold (session_at st1 p) in Hheap. set (z := touch _ _) in Hheap.
  assert (session_at st' p = z) as Hz by (unfold session_at; by rewrite Hh, Hheap, list_lookup_total_insert_eq).
  exists p, at_, rt. split; [done|]. split.
  - constructor; rewrite ?Hz; subst z; cbn; try done. by rewrite Hh, Hheap, length_insert.
  - exists d, e. unfold session_at. rewrite Hh. split; [exact Hm|].
    destruct (keeps_run _ _ _ _ _ (keeps_clear ip (a_Username account)) Hx) as (_&_&Hk1).
    destruct (keeps_run (λ _, False) _ _ _ _ (keeps_login_audit _ _ _ _) Hx0) as (_&_&Hk2).
    rewrite Hk2 by (by intros []). rewrite Hk1 by apply session_not_attempt. exact Hv.
Qed.

(** ** The token between the factors *)
Definition revocation_keys : list string := ["blacklist:token:"; "account_revoked_after:"].
Lemma accepted_same w w' tok c : w_now w' = w_now w → (∀ k, under revocation_keys k → view w' k = view w k) →
  access_accepted tcfg w tok c → access_accepted tcfg w' tok c.
Proof.
  intros Hn Hk (Hp&Hr&Haud&Hid&Hbl&Hacc). rewrite <-Hn in Hp, Hr. split_and!; try done.
  - rewrite Hk; [done|]. refine (under_intro _ "blacklist:token:" _ _). reflexivity.
  - intros i Hi Hne. destruct (Hacc i Hi Hne) as (ra&Hra&Hle). exists ra. split; [|exact Hle]. rewrite <-Hra.
    unfold revoked_after. rewrite Hk; [done|]. refine (under_intro _ "account_revoked_after:" _ _). reflexivity.
Qed.
(** Steps that leave the revocation keys alone do not change what is accepted. *)
Lemma accepted_stays P w w' tok c : stays P w w' → (∀ k, P k → ¬ under revocation_keys k) →
  access_accepted tcfg w' tok c ↔ access_accepted tcfg w tok c.
Proof.
  intros (Hn&_&Hv) HP. assert (∀ k, under revocation_keys k → view w' k = view w k) as Hk
    by (intros k Hk; apply Hv; intros HPk; by apply (HP k)).
  split; apply accepted_same; try done. intros k Hu. by rewrite Hk.
Qed.
Lemma validate_mfa_inv tok st c st' : ValidateMFAToken s tok st = (Ok c, st') →
  access_accepted tcfg (si_world st) tok c ∧ cl_Scope c = ScopeMFA ∧
  stays (λ _, False) (si_world st) (si_world st') ∧ si_db st' = si_db st.
Proof.
  unfold ValidateMFAToken. intros Hrun. inv_step Hrun. apply at_world_inv in Hr as (w&Hval&->).
  destruct r as [c'|e]; [|discriminate Hrun]. inv_step Hrun. inv_step Hrun. subst c'.
  apply negb_false_iff, bool_decide_eq_true in Hg. split_and!; [|exact Hg| |done].
  - by apply (wp_intro _ _ _ _ _ Hval (validate_access_ok tcfg tok _)).
  - pose proof (touches_ValidateAccessToken (R := R) tcfg (λ _, False) tok (si_world st)) as Ht. by rewrite Hval in Ht.
Qed.

(** The token is spent: its identifier is blacklisted for as long as it could be accepted. *)
Definition spent w (claims : AccessTokenClaims) : Prop :=
  ∃ exp, cl_ExpiresAt claims = Some exp ∧ (0 < exp - w_now w + 5 * minute →
    view w (buildBlacklistKey (cl_ID claims)) = Some (Entry (RStr "1") (Some (now_ms w + Z.max 1 ((exp - w_now w + 5 * minute) / millisecond))))).
Lemma spend_inv claims st u st' : blacklistMFAToken claims st = (Ok u, st') → cl_ID claims ≠ "" → spent (si_world st') claims.
Proof.
  unfold blacklistMFAToken. intros Hrun Hid. rewrite bool_decide_false in Hrun by done.
  destruct (cl_ExpiresAt claims) as [exp|] eqn:He; [|discriminate Hrun]. inv_step Hrun. apply at_world_inv in Hrun as (w&Hrev&->).
  exists exp. split; [exact He|]. rewrite si_world_put. destruct u.
  pose proof (keeps_now_RevokeAccess (cl_ID claims) exp (si_world st)) as Hn. rewrite Hrev in Hn. cbn [snd] in Hn.
  intros Hpos. rewrite Hn in *. destruct (revoke_access_effect _ _ _ _ Hrev Hpos) as [_ Hv]. unfold now_ms in *. by rewrite Hn.
Qed.
Lemma keeps_spend claims : keeps (under ["blacklist:token:"]) (blacklistMFAToken (R := R) claims).
Proof. unfold blacklistMFAToken. keep; apply keeps_at_world, touches_RevokeAccessToken; eauto with footprint. Qed.
Lemma spent_stays P w w' claims : stays P w w' → (∀ k, P k → ¬ under ["blacklist:token:"] k) → spent w claims → spent w' claims.
Proof.
  intros (Hn&_&Hv) HP (exp&He&Hbl). exists exp. split; [exact He|]. unfold now_ms in *. rewrite Hn, Hv; [exact Hbl|].
  intros Hk. apply (HP _ Hk). eauto with footprint.
Qed.

(** ** Verifying the second factor *)
(** The factor that was given, and the database after it was checked: the flag of a passkey
    ceremony, a code of a verified authenticator, or a backup code, which is consumed. *)
Definition factor_given st (claims : AccessTokenClaims) (code mfaType : string) (d0 : DB) : Prop :=
  (mfaType = "passkey" ∧ later (si_db st) d0 ∧
     ∃ e, view (si_world st) (mfa_verified_key (cl_ID claims)) = Some (Entry (RStr "1") e)) ∨
  (mfaType = "totp" ∧
     ((∃ d c, later (si_db st) d ∧ later d d0 ∧ c ∈ credentials_of (t_people (db_tables d)) (cl_AccountID claims) [CredentialTypeTOTP] ∧
         usable c = true ∧ code_matches (as_mfaSvc s) (w_now (si_world st)) code c = true) ∨
      ∃ a a' : App R, later (si_db st) (ap_db a) ∧ VerifyBackupCode (cl_AccountID claims) code a = (Ok true, a') ∧ d0 = ap_db a')).

Lemma verify_flag_inv claims st u st' : verifyPasskeyMFAFlag (R := R) (cl_ID claims) st = (Ok u, st') →
  ∃ e, view (si_world st) (mfa_verified_key (cl_ID claims)) = Some (Entry (RStr "1") e).
Proof.
  unfold verifyPasskeyMFAFlag. intros Hrun. inv_step Hrun. apply at_world_inv in Hr as (w&Hget&->).
  destruct r as [v|e]; [|discriminate Hrun]. inv_step Hrun. apply negb_false_iff, bool_decide_eq_true in Hrun as ->.
  apply (wp_intro _ (λ r _, ∀ v, r = Ok v → ∃ e, view (si_world st) (mfa_verified_key (cl_ID claims)) = Some (Entry (RStr v) e)) _ _ _ Hget); [|done].
  unfold GetDel, not_found_or. apply wp_bind, wp_wrap, wp_redis_call; [|done]. intros net. apply wp_s_getdel. intros st1 _.
  split; [|done]. unfold view. destruct (r_view _ _ _) as [[[x|x|x] e]|]; cbn; try done. intros ? [= <-]. eauto.
Qed.
Lemma verify_factor_inv mfaType code claims st u st' :
  verifyMFACode s mfaType (cl_AccountID claims) code (cl_ID claims) st = (Ok u, st') →
  factor_given st claims code mfaType (si_db st').
Proof.
  unfold verifyMFACode, factor_given. intros Hrun. case_bool_decide as Hp.
  { left. split; [exact Hp|]. destruct (mf_passkeys _); [|discriminate Hrun]. cbn [negb] in Hrun.
    apply verify_flag_inv in Hrun as Hflag. split; [|exact Hflag]. unfold verifyPasskeyMFAFlag in Hrun. inv_step Hrun.
    apply at_world_inv in Hr as (w&_&->). destruct r as [v|e]; [|discriminate Hrun]. by inv_step Hrun. }
  case_bool_decide as Ht; [|discriminate Hrun]. right. split; [exact Ht|].
  inv_step Hrun. apply at_app_inv in Hx as (a&Htotp&->).
  destruct (reads_VerifyTOTP (R := R) (as_mfaSvc s) (cl_AccountID claims) code (app_of st)) as [Hw Hd]. rewrite Htotp in Hw, Hd. cbn [snd] in Hw, Hd.
  destruct x.
  - inv_step Hrun. left. revert Htotp. unfold VerifyTOTP. intros Htotp. inv_step Htotp. unfold FindByAccountAndType in Hx. inv_step Hx.
    apply query_inv in Hx as (d&Hl&->&->). inv_step Htotp. injection Hx as <- <-.
    destruct (existsb _ _) eqn:Hex; [|destruct (_ && _); [discriminate Htotp|by inv_step Htotp]]. inv_step Htotp.
    apply existsb_exists in Hex as (c&Hin&Hcode). apply filter_In in Hin as [Hin Huse]. exists d, c. split; [exact Hl|]. split; [done|].
    split; [by apply list_elem_of_In|]. by split.
  - right. inv_step Hrun. apply at_app_inv in Hx as (a'&Hback&->). inv_step Hrun. apply negb_false_iff in Hrun. subst x.
    exists a, a'. split; [exact Hd|]. by split.
Qed.

Lemma factor_given_at st1 st claims code ty d0 : stays (under attempt_family) (si_world st) (si_world st1) → si_db st1 = si_db st →
  factor_given st1 claims code ty d0 → factor_given st claims code ty d0.
Proof.
  intros (Hn&_&Hv) Hd. unfold factor_given. rewrite Hd, Hn, Hv; [done|].
  apply (under_apart ["webauthn:mfa_verified:"]); [done|]. eauto with footprint.
Qed.
Lemma keeps_verifyMFACode ty a code jti : keeps (under ["webauthn:mfa_verified:"]) (verifyMFACode s ty a code jti).
Proof.
  unfold verifyMFACode, verifyPasskeyMFAFlag, VerifyBackupCode, use_code, SoftDeleteCredential, erase_credentials, on_people, app_now.
  keep; apply keeps_reading; eauto with reading.
Qed.
Lemma active_inv id st account st' : active_by_id id st = (Ok account, st') →
  w_now (si_world st') = w_now (si_world st) ∧ later (si_db st) (si_db st') ∧ IsActive (Some account) = true ∧
  ∃ d, later (si_db st) d ∧ account_row (t_people (db_tables d)) id false = Some account.
Proof.
  unfold active_by_id. intros Hrun. inv_step Hrun. apply at_app_inv in Hr as (a&Hfind&->). destruct r as [x|e]; [|discriminate Hrun].
  inv_step Hrun. apply negb_false_iff in Hg. inv_step Hrun. subst x.
  destruct (reads_FindAccountByID (R := R) id (app_of st)) as [Hw Hd]. rewrite Hfind in Hw, Hd. cbn [snd] in Hw, Hd.
  split; [cbn; by rewrite Hw|]. split; [exact Hd|]. split; [exact Hg|].
  unfold FindAccountByID, AccountRepo_FindByID, findAccountByID in Hfind. inv_step Hfind. apply query_inv in Hx as (d&Hl&->&->).
  exists d. split; [exact Hl|]. destruct (account_row _ _ _); cbn in Hfind; [|discriminate Hfind]. by inv_step Hfind; subst.
Qed.
Lemma limit_inv (m : M (Site R) unit) st u st' : keeps (under attempt_family) m → (∀ z, si_db (m z).2 = si_db z) → m st = (Ok u, st') →
  stays (under attempt_family) (si_world st) (si_world st') ∧ si_db st' = si_db st.
Proof. intros Hk Hd Hrun. specialize (Hk st). specialize (Hd st). rewrite Hrun in Hk, Hd. by split. Qed.
Lemma limit_db k l t e z : si_db (within_limit (R := R) k l t e z).2 = si_db z.
Proof.
  unfold within_limit, bind, try. pose proof (at_world_db (CheckAndIncr k l t) z) as Hz.
  destruct (at_world _ z) as [[n|?] z1]; [by destruct (l <=? n)|done].
Qed.
Lemma ip_limit_db ip z : si_db (checkIPRateLimit s ip z).2 = si_db z.
Proof. unfold checkIPRateLimit. destruct (isIPAllowlisted _ _); [done|apply limit_db]. Qed.

(** What a successful second step means, from the state where its token was presented. *)
Definition second_step st st' tok code ty ip res : Prop :=
  ∃ claims account d0, access_accepted tcfg (si_world st) tok claims ∧ cl_Scope claims = ScopeMFA ∧
    factor_given st claims code ty d0 ∧
    (∃ d, later d0 d ∧ account_row (t_people (db_tables d)) (cl_AccountID claims) false = Some account ∧ IsActive (Some account) = true) ∧
    completed st st' account ip res ∧ spent (si_world st') claims.
Lemma second_step_at st1 st st' tok code ty ip res : stays (under attempt_family) (si_world st) (si_world st1) → si_db st1 = si_db st →
  second_step st1 st' tok code ty ip res → second_step st st' tok code ty ip res.
Proof.
  intros Hst Hd (claims&account&d0&Hacc&Hsc&Hf&Hrow&(p&at_&rt&->&Hopen&Hstored)&Hspent). exists claims, account, d0.
  split; [by apply (accepted_stays _ _ _ tok claims Hst ltac:(intros k; by apply under_apart))|]. split; [exact Hsc|].
  split; [by eapply factor_given_at|]. split; [exact Hrow|]. split; [|exact Hspent].
  exists p, at_, rt. split; [done|]. split; [|exact Hstored]. destruct Hst as (Hn&_). by eapply opened_at.
Qed.
Lemma stays_now P w w' : stays (R := R) P w w' → w_now w' = w_now w.
Proof. by intros (?&_). Qed.

(** The last part of both ways: the account, the token is spent, the login is completed. *)
Lemma conclude_inv P ctx claims account ip ua act extra st0 st1 st2 st3 st' u res tok code ty :
  access_accepted tcfg (si_world st0) tok claims → cl_Scope claims = ScopeMFA → factor_given st0 claims code ty (si_db st1) →
  stays P (si_world st0) (si_world st1) → active_by_id (cl_AccountID claims) st1 = (Ok account, st2) →
  blacklistMFAToken claims st2 = (Ok u, st3) → completeLogin s ctx account ip ua act extra true st3 = (Ok res, st') →
  second_step st0 st' tok code ty ip res.
Proof.
  intros Hacc Hsc Hf Hst1 (Hn2&_&Hact&d&Hd&Hrow)%active_inv Hspend Hrun.
  pose proof (keeps_run _ _ _ _ _ (keeps_spend claims) Hspend) as Hst3. apply spend_inv in Hspend as Hspent; [|by destruct Hacc as (_&_&_&?&_)].
  pose proof (keeps_run _ _ _ _ _ (keeps_completeLogin _ _ _ _ _ _ _) Hrun) as Hst4.
  apply complete_login_inv in Hrun as (p&at_&rt&->&Hopen&Hstored).
  exists claims, account, (si_db st1). split; [exact Hacc|]. split; [exact Hsc|]. split; [exact Hf|]. split; [by exists d|]. split.
  - exists p, at_, rt. split; [done|]. split; [|exact Hstored]. eapply opened_at; [exact Hopen| |done].
    apply stays_now in Hst1, Hst3. congruence.
  - eapply spent_stays; [exact Hst4| |exact Hspent]. intros k. by apply under_apart.
Qed.
Lemma finish_mfa_inv ctx claims code ty ip ua st res st' tok : access_accepted tcfg (si_world st) tok claims → cl_Scope claims = ScopeMFA →
  finish_mfa_login s ctx claims code ty ip ua st = (Ok res, st') → second_step st st' tok code ty ip res.
Proof.
  unfold finish_mfa_login. intros Hacc Hsc Hrun. inv_step Hrun.
  apply limit_inv in Hx as [Hst1 Hd1]; [|apply keeps_mfa_limit|intros z; apply limit_db]. apply (second_step_at st0); [done..|].
  inv_step Hrun. pose proof (keeps_run _ _ _ _ _ (keeps_verifyMFACode _ _ _ _) Hr) as Hst2.
  destruct r as [u|e]; [|by inv_step Hrun]. apply verify_factor_inv in Hr. inv_step Hrun. inv_step Hrun.
  destruct r as [u'|e]; [|discriminate Hrun].
  eapply conclude_inv; [|exact Hsc|exact Hr|exact Hst2|exact Hx|exact Hr0|exact Hrun].
  by apply (accepted_stays _ _ _ tok claims Hst1 ltac:(intros k; by apply under_apart)).
Qed.

Lemma finish_by_code ctx tok code ty ip ua st res st' :
  VerifyMFALogin s ctx tok code ty ip ua st = (Ok res, st') → second_step st st' tok code ty ip res.
Proof.
  unfold VerifyMFALogin, mfa_failure. intros Hrun. apply bind_inv in Hrun as (claims&st1&Hval%on_failure_inv&Hrun%on_failure_inv).
  inv_step Hval. apply limit_inv in Hx as [Hst Hd]; [|apply keeps_ip_limit|apply ip_limit_db].
  apply validate_mfa_inv in Hval as (Hacc&Hsc&Hst1&Hd1). eapply second_step_at; [exact Hst|exact Hd|].
  eapply second_step_at; [|exact Hd1|]; [eapply stays_mono; [|exact Hst1]; done|].
  eapply finish_mfa_inv; [|exact Hsc|exact Hrun]. by apply (accepted_stays _ _ _ tok claims Hst1 ltac:(done)).
Qed.
(** C6: what a login with a second factor means. The token was accepted and is one for the
    second step; the factor was a code of a verified authenticator of its account, a
    backup code, which is used up, or a passkey ceremony recorded for this very token; the
    account is active. The session belongs to it, is marked and stored as having passed a
    second factor, and the tokens are for exactly it. The token is spent. *)
Theorem mfa_login_sound ctx tok code ty ip ua st res st' :
  VerifyMFALogin s ctx tok code ty ip ua st = (Ok res, st') → second_step st st' tok code ty ip res.
Proof. apply finish_by_code. Qed.

Lemma finish_passkey_inv ctx claims ip ua st res st' tok : access_accepted tcfg (si_world st) tok claims → cl_Scope claims = ScopeMFA →
  finish_passkey_login s ctx claims ip ua st = (Ok res, st') → second_step st st' tok "" "passkey" ip res.
Proof.
  unfold finish_passkey_login. intros Hacc Hsc Hrun. inv_step Hrun.
  apply limit_inv in Hx as [Hst1 Hd1]; [|apply keeps_mfa_limit|intros z; apply limit_db]. apply (second_step_at st0); [done..|].
  inv_step Hrun. inv_step Hrun. inv_step Hrun.
  assert (si_db st1 = si_db st0) as Hd2.
  { unfold verifyPasskeyMFAFlag in Hx. inv_step Hx. apply at_world_inv in Hr as (w&_&->). destruct r; [by inv_step Hx|discriminate Hx]. }
  assert (keeps (under ["webauthn:mfa_verified:"]) (verifyPasskeyMFAFlag (R := R) (cl_ID claims))) as Hkeep
    by (unfold verifyPasskeyMFAFlag; keep).
  pose proof (keeps_run _ _ _ _ _ Hkeep Hx) as Hst2. apply verify_flag_inv in Hx.
  eapply conclude_inv; [|exact Hsc| |exact Hst2|exact Hx0|exact Hx1|exact Hrun].
  - by apply (accepted_stays _ _ _ tok claims Hst1 ltac:(intros k; by apply under_apart)).
  - left. by rewrite Hd2.
Qed.
Lemma finish_by_passkey ctx tok ip ua st res st' :
  CompletePasskeyMFALogin s ctx tok ip ua st = (Ok res, st') → second_step st st' tok "" "passkey" ip res.
Proof.
  unfold CompletePasskeyMFALogin, mfa_failure. intros Hrun. apply bind_inv in Hrun as (claims&st1&Hval%on_failure_inv&Hrun%on_failure_inv).
  apply validate_mfa_inv in Hval as (Hacc&Hsc&Hst1&Hd1). eapply second_step_at; [eapply stays_mono; [|exact Hst1]; done|exact Hd1|].
  eapply finish_passkey_inv; [|exact Hsc|exact Hrun]. by apply (accepted_stays _ _ _ tok claims Hst1 ltac:(done)).
Qed.

#[local] Abbreviation anything := (λ _ : string, True).
Lemma keeps_anything {A} P (m : M (Site R) A) : keeps P m → keeps anything m.
Proof. intros Hm. by eapply keeps_mono. Qed.
Lemma keeps_second_step A act acc d (m : AccessTokenClaims → M (Site R) A) v :
  keeps anything v → (∀ c, keeps anything (m c)) → keeps anything (let! c := on_failure act None d v in on_failure act (acc c) d (m c)).
Proof. intros Hv Hm. apply state_keeps_bind; [by apply keeps_on_failure|]. intros c. by apply keeps_on_failure. Qed.
Lemma keeps_VerifyMFALogin ctx tok code ty ip ua : keeps anything (VerifyMFALogin s ctx tok code ty ip ua).
Proof.
  unfold VerifyMFALogin, mfa_failure. apply (keeps_second_step _ _ (λ c, Some (cl_AccountID c))).
  - apply state_keeps_bind; [eapply keeps_anything, keeps_ip_limit|intros _]. unfold ValidateMFAToken.
    keep; apply keeps_at_world, touches_ValidateAccessToken.
  - intros c. unfold finish_mfa_login, active_by_id.
    keep; first [eapply keeps_anything, keeps_mfa_limit | eapply keeps_anything, keeps_verifyMFACode | eapply keeps_anything, keeps_spend
      | eapply keeps_anything, keeps_completeLogin | apply keeps_reading; eauto with reading].
Qed.
Lemma keeps_passkey_step ctx tok ip ua : keeps anything (CompletePasskeyMFALogin s ctx tok ip ua).
Proof.
  unfold CompletePasskeyMFALogin, mfa_failure. apply (keeps_second_step _ _ (λ c, Some (cl_AccountID c))).
  - unfold ValidateMFAToken. keep; apply keeps_at_world, touches_ValidateAccessToken.
  - intros c. unfold finish_passkey_login, active_by_id, verifyPasskeyMFAFlag.
    keep; first [eapply keeps_anything, keeps_mfa_limit | eapply keeps_anything, keeps_spend
      | eapply keeps_anything, keeps_completeLogin | apply keeps_reading; eauto with reading | by apply keeps_at_world, touches_GetDel].
Qed.

(** A spent token of this service is not accepted again. *)
Lemma spent_refused w w2 kid c0 claims tok : jwt_sign kid (tc_privateKey tcfg) c0 = Ok tok →
  access_accepted tcfg w tok claims → ∀ w', w_now w' = w_now w → spent w' claims → w_now w' <= w_now w2 →
  view w2 (buildBlacklistKey (cl_ID c0)) = live (now_ms w2) (view w' (buildBlacklistKey (cl_ID c0))) →
  ∀ c2, ¬ access_accepted tcfg w2 tok c2.
Proof.
  intros Hsign (Hp&_) w' Hn (exp&Hexp&Hbl) Hle Hview c2 (Hp2&Hreg&_&_&Hnone&_).
  rewrite (jwt_parse_signed _ _ (w_now w) _ kid _ c0 tok Hsign (keyfunc_rs256 _)) in Hp.
  rewrite (jwt_parse_signed _ _ (w_now w2) _ kid _ c0 tok Hsign (keyfunc_rs256 _)) in Hp2.
  destruct (registered_ok _ _ (w_now w) c0); [|discriminate Hp]. destruct (registered_ok _ _ (w_now w2) c0) eqn:Hr2; [|discriminate Hp2].
  injection Hp as <-. injection Hp2 as <-. unfold registered_ok in Hreg. rewrite Hexp, !andb_true_iff, Z.ltb_lt in Hreg.
  destruct Hreg as [[Hcur _] _]. cbn in Hcur. unfold accessTokenClockSkew in Hcur.
  assert (0 < exp - w_now w' + 5 * minute) as Hpos by (unfold minute, second in *; lia).
  rewrite Hview, (Hbl Hpos), live_before in Hnone; [done|]. unfold now_ms, millisecond, minute, second in *. div_lia.
Qed.

(** C20: a token between the factors works once. After it led to a login, by either way,
    neither way accepts it again, at whatever later time, from whomever, with whatever
    code, as long as its blacklist entry has only had the time pass. *)
Theorem mfa_token_single_use ctx tok code ty ip ua st res st' st2 kid c0 :
  jwt_sign kid (tc_privateKey tcfg) c0 = Ok tok →
  VerifyMFALogin s ctx tok code ty ip ua st = (Ok res, st') ∨ CompletePasskeyMFALogin s ctx tok ip ua st = (Ok res, st') →
  w_now (si_world st') <= w_now (si_world st2) →
  view (si_world st2) (buildBlacklistKey (cl_ID c0)) = live (now_ms (si_world st2)) (view (si_world st') (buildBlacklistKey (cl_ID c0))) →
  ∀ ctx2 code2 ty2 ip2 ua2,
    is_ok (VerifyMFALogin s ctx2 tok code2 ty2 ip2 ua2 st2).1 = false ∧
    is_ok (CompletePasskeyMFALogin s ctx2 tok ip2 ua2 st2).1 = false.
Proof.
  intros Hsign Hfirst Hle Hview ctx2 code2 ty2 ip2 ua2.
  assert (∃ code ty, second_step st st' tok code ty ip res) as (code1&ty1&claims&account&d0&Hacc&_&_&_&(p&at_&rt&_&Hopen&_)&Hspent).
  { destruct Hfirst as [Hrun|Hrun]; [apply finish_by_code in Hrun|apply finish_by_passkey in Hrun]; eauto. }
  assert (w_now (si_world st') = w_now (si_world st)) as Hn.
  { destruct Hfirst as [Hrun|Hrun]; [apply (keeps_run _ _ _ _ _ (keeps_VerifyMFALogin _ _ _ _ _ _)) in Hrun|
      apply (keeps_run _ _ _ _ _ (keeps_passkey_step _ _ _ _)) in Hrun]; by apply stays_now in Hrun. }
  assert (∀ c, ¬ access_accepted tcfg (si_world st2) tok c) as Hno by (by eapply spent_refused).
  split.
  - destruct (VerifyMFALogin s ctx2 tok code2 ty2 ip2 ua2 st2) as [[res2|e] st3] eqn:E; [exfalso|done].
    apply finish_by_code in E as (c2&?&?&Hacc2&_). by apply (Hno c2).
  - destruct (CompletePasskeyMFALogin s ctx2 tok ip2 ua2 st2) as [[res2|e] st3] eqn:E; [exfalso|done].
    apply finish_by_passkey in E as (c2&?&?&Hacc2&_). by apply (Hno c2).
Qed.
End login.
