(* ===== verification/RefreshProps.v ===== *)
(** * Guessing passwords; refreshing a session *)
From S2P Require Import Prelude GoTime Json LuaPattern Hash Url Redis World Cache Footprint TokenDomain Blacklist TokenService TokenSpecs TokenIndex TokenInv TokenProps AccessProps Session SessionService SessionSpecs SessionProps OAuthDomain ServiceFootprints GoStrings AccountDomain Credential Database ClientRepo ClientService AccountRepo Mfa Scan Site Verification StateFootprints AccountService AuthMiddleware AuthCore AuthLogin TokenEndpointProps AuthSpecs AuthProps.
Local Open Scope Z_scope.

(** ** Guessing passwords is bounded *)
Section lockout.
Context {R : Type} `{RedisServer R} `{JwtLib} `{Postgres} `{Bcrypt} `{Argon2} `{Totp} `{AesGcm} `{Lower} (s : AuthService R).
Context (ip username : string).
Implicit Types st : Site R.
#[local] Abbreviation key := (login_attempts_key ip username).
#[local] Abbreviation limit := (as_loginMaxAttempts s).
#[local] Abbreviation window := (as_loginRateLimitWindow s).
#[local] Abbreviation away := (λ k : string, k ≠ key).

(** An attempt at this name from this address, however they are written. *)
Definition aims_here (req : LoginCommand) : Prop := NormalizeIP (lc_IP req) = ip ∧ to_lower (lc_Username req) = username.

Lemma away_under ps : ¬ under ps key → ∀ k, under ps k → k ≠ key.
Proof. intros Hk k Hu ->. by apply Hk. Qed.
Lemma keeps_away {A} ps (m : M (Site R) A) : keeps (under ps) m → forallb (λ p, apart p "login_attempts:") ps = true → keeps away m.
Proof.
  intros Hm Hps. eapply keeps_mono; [exact Hm|]. apply away_under. intros Hu.
  refine (under_apart ps ["login_attempts:"] _ _ Hu _); [|eauto with footprint].
  rewrite forallb_forall in Hps |- *. intros p Hp. cbn. by rewrite Hps.
Qed.
Lemma within_limit_wp (e : err) st c : 0 < limit < 2 ^ 62 → 0 < window → counter_at (view (si_world st) key) c →
  e ≠ ErrServiceUnavailable →
  wp (within_limit key limit window e) (λ r st', w_now (si_world st') = w_now (si_world st) ∧ ∃ c',
    counter_at (view (si_world st') key) c' ∧
    ((c' = (tally limit window (now_ms (si_world st)) c).2 ∧ ((r = Ok tt ∧ (tally limit window (now_ms (si_world st)) c).1 < limit) ∨ r = Err e)) ∨
     (r = Err ErrServiceUnavailable ∧ (c' = c ∨ c' = (tally limit window (now_ms (si_world st)) c).2)))) st.
Proof.
  intros Hl Hw Hc He. unfold within_limit. apply wp_bind, wp_try, wp_at_world.
  eapply wp_mono; [by apply check_incr_wp|]. intros r w (Hn&_&[[-> Hc']|(Hnet&Hr&c'&Hc'&Hor)]).
  - apply wp_guard_err; intros Hb; (split; [exact Hn|]); eexists; (split; [exact Hc'|]); left; (split; [done|]).
    + by right.
    + left. split; [done|lia].
  - destruct r as [n|e']; [discriminate Hr|]. split; [exact Hn|]. exists c'. split; [exact Hc'|]. by right.
Qed.

(** Where a login fails it has left the counter alone since it was admitted. *)
Definition fails_away {A} (m : M (Site R) A) : Prop :=
  ∀ st, wp m (λ r st', is_ok r = false → stays away (si_world st) (si_world st')) st.
Lemma fails_keeps {A} (m : M (Site R) A) : keeps away m → fails_away m.
Proof. intros Hm st. apply (wp_keeps _ _ _ _ Hm). by intros r st' _ ? _. Qed.
Lemma fails_ok {A} (m : M (Site R) A) : (∀ st, is_ok (m st).1 = true) → fails_away m.
Proof. intros Hm st. unfold wp. specialize (Hm st). destruct (m st) as [r st']. cbn in *. by rewrite Hm. Qed.
Lemma fails_bind {A B} (m : M (Site R) A) (k : A → M (Site R) B) : keeps away m → (∀ x, fails_away (k x)) → fails_away (bind m k).
Proof.
  intros Hm Hk st. apply wp_bind. apply (wp_keeps _ _ _ _ Hm). intros [x|e] st1 _ Hst; [|by intros _].
  eapply wp_mono; [apply Hk|]. intros r st2 Hr Hf. etrans; [exact Hst|by apply Hr].
Qed.
Lemma keeps_dummy pw : keeps away (dummyArgon2Hash (R := R) pw).
Proof. apply keeps_hash. Qed.
Lemma keeps_check_password u pw : keeps away (check_password (R := R) u pw).
Proof. unfold check_password, no_such_login. keep; first [apply keeps_dummy | apply keeps_reading; eauto with reading]. Qed.
Lemma keeps_mfa_requirement a : keeps away (handleMFARequirement s a).
Proof.
  assert (only_reads (GetMFAStatus (R := R) (as_mfaSvc s) (a_ID a))) as Hreads.
  { unfold GetMFAStatus, PasskeyRepo_HasPasskeys. reading. apply reads_passkeys. }
  unfold handleMFARequirement, GenerateShortLivedToken, claims_id, signToken, now, site_now.
  keep; first [by apply keeps_reading | apply keeps_at_world; touch].
Qed.
Lemma login_admitted_away ctx req : fails_away (login_admitted s ctx req).
Proof.
  unfold login_admitted. apply fails_bind; [apply keeps_check_password|intros [account cred]].
  apply fails_bind; [apply keeps_mfa_requirement|intros [result|]]; [by apply fails_ok|].
  apply fails_bind; [by eapply keeps_away; [apply keeps_createSessionAndTokens|]|intros [[p at_] rt]].
  apply fails_ok. intros st. unfold clearLoginRateLimits. by destruct (a_Username account).
Qed.

(** ** One attempt *)
Lemma wp_on_failure {A} act acc d (m : M (Site R) A) (Q : res A → Site R → Prop) st :
  wp m (λ r st1, match r with
    | Ok x => Q (Ok x) st1
    | Err e => ∀ st2, stays (λ _, False) (si_world st1) (si_world st2) → Q (Err e) st2 end) st → wp (on_failure act acc d m) Q st.
Proof.
  intros Hm. unfold on_failure. apply wp_bind, wp_try. eapply wp_mono; [exact Hm|]. intros [x|e] st1; [done|]. intros HQ.
  apply wp_bind. apply (wp_keeps (λ _, False) _ _ _ (keeps_login_audit _ _ _ _)). intros [u|e'] st2 Heq Hst; [by apply HQ|].
  by apply at_world_inv in Heq as (w&[=]&_).
Qed.
(** Told that the name or the password is wrong. *)
Definition told_wrong (r : res LoginResult) : nat :=
  match r with Err e => if bool_decide (e = ErrInvalidCredentials) then 1 else 0 | Ok _ => 0 end.

Lemma attempt_wp ctx req st c : 0 < limit < 2 ^ 62 → 0 < window → aims_here req → counter_at (view (si_world st) key) c →
  wp (LoginByUsernamePassword s ctx req) (λ r st', is_ok r = false →
    w_now (si_world st') = w_now (si_world st) ∧ ∃ c', counter_at (view (si_world st') key) c' ∧
      ((c' = (tally limit window (now_ms (si_world st)) c).2 ∧ (told_wrong r = 0%nat ∨ (tally limit window (now_ms (si_world st)) c).1 < limit)) ∨
       (told_wrong r = 0%nat ∧ c' = c))) st.
Proof.
  intros Hl Hw [Hip Hun] Hc. unfold LoginByUsernamePassword. apply wp_on_failure. set (t := tally _ _ _ _).
  assert (∀ w w', stays away w w' → view w' key = view w key) as Hkey by (intros w w' (_&_&Hv); apply Hv; intros Hne; by apply Hne).
  apply wp_bind. unfold admit_attempt. rewrite Hip, Hun. apply wp_bind.
  eapply wp_mono; [by apply (within_limit_wp ErrAccountLocked _ c)|]. fold t.
  intros r st1 (Hn1&c'&Hc'&Hr). destruct r as [u|e].
  - destruct Hr as [[-> [[_ Hlt]|?]]|[? _]]; [|done..].
    assert (∀ (r : res LoginResult) st2 st3, stays away (si_world st1) (si_world st2) → stays away (si_world st2) (si_world st3) →
      w_now (si_world st3) = w_now (si_world st) ∧ ∃ c', counter_at (view (si_world st3) key) c' ∧
        ((c' = t.2 ∧ (told_wrong r = 0%nat ∨ t.1 < limit)) ∨ (told_wrong r = 0%nat ∧ c' = c))) as Hend.
    { intros r st2 st3 Ha Hb. split; [apply stays_now in Ha, Hb; congruence|]. exists t.2. rewrite (Hkey _ _ Hb), (Hkey _ _ Ha). auto. }
    assert (keeps away (checkIPRateLimit s (lc_IP req) ;; guard_err (negb (login_input_ok req)) ErrInvalidCredentials)) as Hadmit.
    { apply state_keeps_bind; [|intros; apply keeps_guard]. by eapply keeps_away; [apply keeps_ip_counter|]. }
    apply (wp_keeps _ _ _ _ Hadmit). intros [u'|e] st2 _ Hst2.
    + eapply wp_mono; [apply login_admitted_away|]. intros [res|e] st3 Hst3; [done|]. intros st4 Hst4 _.
      apply (Hend _ st3); [etrans; [exact Hst2|by apply Hst3]|]. by eapply stays_mono; [|exact Hst4].
    + intros st3 Hst3 _. apply (Hend _ st2); [exact Hst2|]. by eapply stays_mono; [|exact Hst3].
  - intros st2 Hst2 _. assert (stays away (si_world st1) (si_world st2)) as Hst by (by eapply stays_mono; [|exact Hst2]).
    split; [apply stays_now in Hst; congruence|]. exists c'. rewrite (Hkey _ _ Hst). split; [exact Hc'|].
    destruct Hr as [[-> [[? _]|[= ->]]]|[[= ->] [-> | ->]]]; [done|left|right|left]; auto.
Qed.

(** ** An attack

    A course of events that ends before [until]: attempts at this name from this address
    that fail, waiting, and whatever else leaves the counter alone. The index counts the
    attempts that were told that name or password is wrong. *)
Inductive attacking (until : Z) : Site R → nat → Prop :=
  | attack_stop st : attacking until st 0
  | attack_try st ctx req r st1 n : aims_here req → LoginByUsernamePassword s ctx req st = (r, st1) → is_ok r = false →
      attacking until st1 n → attacking until st (told_wrong r + n)
  | attack_wait st δ n : 0 <= δ → w_now (si_world st) + δ <= until →
      attacking until (put_world (tick δ (si_world st)) st) n → attacking until st n
  | attack_other st A (m : M (Site R) A) n : keeps away m → attacking until (m st).2 n → attacking until st n.

(** What is left of the limit when the counter does not run out before [until]. *)
Definition lasts (until : Z) (c : option (Z * Z)) : Prop := match c with None => True | Some (_, d) => until < d * millisecond end.
Definition tries_left (c : option (Z * Z)) : Z := match c with None => limit - 1 | Some (n, _) => Z.max 0 (limit - 1 - n) end.

Lemma tally_left until now c : 0 < limit → until < (now + ceil_secs window * 1000) * millisecond → lasts until c →
  let t := tally limit window now c in lasts until t.2 ∧ tries_left t.2 <= tries_left c ∧ (t.1 < limit → tries_left t.2 + 1 <= tries_left c).
Proof.
  intros Hl Hu Hc. destruct c as [[n d]|]; cbn in *.
  - destruct (Z.leb_spec limit n); cbn; split_and!; try done; lia.
  - split_and!; [done|lia..].
Qed.

Lemma attack_bound until start st n c : 0 < limit < 2 ^ 62 → 0 < window →
  start <= w_now (si_world st) → w_now (si_world st) <= until → until + millisecond <= start + window →
  counter_at (view (si_world st) key) c → lasts until c → attacking until st n → Z.of_nat n <= tries_left c.
Proof.
  intros Hl Hw Hs Hle Hu Hc Hlast Hatt. revert c Hc Hlast Hs Hle.
  induction Hatt as [st|st ctx req r st1 n Haim Hrun Hfail _ IH|st δ n Hδ Hd _ IH|st A m n Hm _ IH]; intros c Hc Hlast Hs Hle.
  - destruct c as [[m d]|]; cbn; lia.
  - destruct (wp_intro _ _ _ _ _ Hrun (attempt_wp ctx req st c Hl Hw Haim Hc) Hfail) as (Hn&c'&Hc'&Hcase).
    assert (until < (now_ms (si_world st) + ceil_secs window * 1000) * millisecond) as Hfresh.
    { unfold now_ms, ceil_secs, millisecond, second in *. div_lia. }
    destruct (tally_left until (now_ms (si_world st)) c ltac:(lia) Hfresh Hlast) as (Hlast'&Hle'&Hless).
    assert (told_wrong r ≤ 1)%nat as Hone by (unfold told_wrong; destruct r; [lia|case_bool_decide; lia]).
    rewrite Hn in IH. destruct Hcase as [[-> Hor]|[H0' ->]].
    + specialize (IH _ Hc' Hlast' Hs Hle). destruct Hor as [H0'|Hlt]; [|specialize (Hless Hlt)]; lia.
    + specialize (IH _ Hc' Hlast Hs Hle). lia.
  - apply IH; [|done|cbn; lia|cbn; lia]. change (si_world (put_world (tick δ (si_world st)) st)) with (tick δ (si_world st)).
    rewrite view_tick by done. destruct c as [[m d]|]; cbn in Hc, Hlast; [destruct Hc as [Hc Hm]|]; rewrite Hc; cbn [counter_at]; [|done].
    split; [|done]. apply live_before. unfold now_ms, tick, millisecond in *. cbn. div_lia.
  - destruct (Hm st) as (Hn&_&Hv). change (world_of (m st).2) with (si_world (m st).2) in *. change (world_of st) with (si_world st) in *.
    apply IH; [|done|by rewrite Hn|by rewrite Hn]. rewrite Hv; [exact Hc|]. intros Hne. by apply Hne.
Qed.

(** C19: guessing a password is bounded. Within one rate-limit window, however the attempts
    at one name from one address are spread out and spelled, whatever the network and the
    database do, and whatever else the server does that leaves the counter alone, fewer
    than the maximum number of wrong guesses are answered as wrong; the others are told
    that the account is locked, or nothing. *)
Theorem password_guesses_bounded st until n : 0 < limit < 2 ^ 62 → 0 < window →
  view (si_world st) key = None → w_now (si_world st) <= until → until + millisecond <= w_now (si_world st) + window →
  attacking until st n → Z.of_nat n <= limit - 1.
Proof.
  intros Hl Hw Hnone Hle Hu Hatt. by apply (attack_bound until (w_now (si_world st)) st n None).
Qed.
End lockout.

(** ** What a refresh means, and that it ends *)

Section tokens.
Context {R : Type} `{RedisServer R} (cfg : TokenCfg).
Implicit Types w : World R.

(** The token was rotated a moment ago and its successor is still good. *)
Definition replayed w tok (old : RefreshToken) : Prop :=
  ∃ d e rt, view w (buildRefreshTokenReplayKey (HashToken tok)) = Some (Entry (RStr d) e) ∧ parseRefreshTokenReplay d = Ok old ∧
    refresh_accepted w (rt_Token old) rt.
Lemma accepted_quiet w w' tok rt : quiet w w' → refresh_accepted w' tok rt → refresh_accepted w tok rt.
Proof. intros Hq. unfold refresh_accepted. rewrite (revoked_after_quiet _ _ _ Hq). destruct Hq as (Hn&_&_&_&Hk). by rewrite Hn, Hk. Qed.
Lemma replay_means tok w : wp (replay_or_not_found (buildRefreshTokenReplayKey (HashToken tok)))
  (λ r _, ∀ old, r = Ok old → replayed w tok old) w.
Proof.
  unfold replay_or_not_found, getRefreshTokenReplay. apply wp_bind, wp_try, wp_bind, wp_Get_any. intros r w1 Hq Hr.
  destruct r as [d|e]; [|by apply wp_fail]. destruct (get_result_ok _ _ Hr) as [x Hx]. apply wp_bind, wp_lift_res.
  destruct (parseRefreshTokenReplay d) as [old|e] eqn:Hp; [|by apply wp_fail]. apply wp_bind.
  eapply wp_mono; [apply validate_accepts|]. intros [rt|e] w2 Hacc; [|by apply wp_fail]. apply wp_ret, wp_ret. intros ? [= <-].
  exists d, x, rt. split; [exact Hx|]. split; [exact Hp|]. eapply accepted_quiet; [exact Hq|by apply Hacc].
Qed.
Lemma validate_missing tok w :
  wp (ValidateRefreshToken tok) (λ r w', ∀ e, r = Err e → errors_is e ErrKeyNotFound = true → view w (buildRefreshTokenKey tok) = None ∧ quiet w w') w.
Proof.
  unfold ValidateRefreshToken. wp_step. wp_step. apply wp_Get_any. intros r w1 Hq Hr.
  destruct r as [d|e].
  - destruct (unmarshal_rt d) as [rt|]; [|wp_step; by intros ? [= <-]]. wp_step. apply wp_gets. wp_step. apply wp_guard_err; [by intros _ ? [= <-]|intros _].
    case_bool_decide; [by wp_step|]. wp_step. wp_step. apply wp_revoked_after; [|intros; wp_step; by intros ? [= <-]]. intros w2 _.
    destruct (revoked_after _ _) as [ra|]; [|wp_step; by intros ? [= <-]]. wp_step. apply wp_guard_err; [by intros _ ? [= <-]|intros _]. by wp_step.
  - destruct (errors_is e ErrKeyNotFound) eqn:He; wp_step; intros ? [= <-]; [|cbn; by rewrite He]. intros _. split; [|exact Hq].
    destruct Hr as [Hr|[= ->]]; [|discriminate He]. unfold str_of in Hr. destruct (view w _) as [[[v|v|v] x]|]; cbn in Hr; [done|injection Hr as ->; discriminate He..|done].
Qed.
Lemma rotate_missing ctx tok w : view w (buildRefreshTokenKey tok) = None →
  wp (RotateRefreshToken cfg ctx tok) (λ r _, ∀ old, r = Ok old → replayed w tok old) w.
Proof.
  intros Hnone. unfold RotateRefreshToken. apply wp_bind, wp_wrap, wp_rand_read; [done|]. intros b l Hb. cbn [wrap_res].
  set (w0 := mkWorld _ _ _ l _ _). assert (∀ old, replayed w0 tok old → replayed w tok old) as Hsame by done.
  apply wp_bind, wp_try, wp_Get_any. intros r w1 Hq Hr.
  assert (get_result None r) as Hr' by (change (get_result (view w (buildRefreshTokenKey tok)) r) in Hr; by rewrite Hnone in Hr).
  destruct Hr' as [-> | ->]; cbn; [|by apply wp_fail].
  eapply wp_mono; [apply replay_means|]. intros r w2 Hr2 old Ho. apply Hsame. destruct (Hr2 old Ho) as (d&e&rt&Hv&Hp&Hacc).
  exists d, e, rt. split; [by destruct Hq as (_&_&_&_&<-)|]. split; [exact Hp|]. by eapply accepted_quiet.
Qed.
End tokens.

Section refresh.
Context {R : Type} `{RedisServer R} `{JwtLib} `{Postgres} `{Bcrypt} `{Argon2} `{Totp} `{AesGcm} `{Lower} (s : AuthService R).
#[local] Abbreviation tcfg := (as_tokenSvc s).
#[local] Abbreviation scfg := (as_sessionSvc s).
#[local] Abbreviation tr := (as_tokenRevoker s).
Implicit Types st : Site R.

Lemma or_else_inv {A} e (m : M (Site R) A) st x st' : or_else e m st = (Ok x, st') → m st = (Ok x, st').
Proof. unfold or_else. intros Hrun. inv_step Hrun. destruct r; [|discriminate Hrun]. inv_step Hrun. by subst. Qed.

(** The token a refresh goes by: the one presented, or its successor. *)
Definition goes_by w tok (old : RefreshToken) (again : bool) : Prop :=
  if again then view w (buildRefreshTokenKey tok) = None ∧ replayed w tok old else refresh_accepted w tok old.
Lemma load_inv ctx tok st old again st' : loadRefreshTokenForRefresh s ctx tok st = (Ok (old, again), st') →
  goes_by (si_world st) tok old again ∧ stays (under token_family) (si_world st) (si_world st') ∧ ∃ w, st' = put_world w st.
Proof.
  unfold loadRefreshTokenForRefresh. intros Hrun. inv_step Hrun. apply at_world_inv in Hr as (w&Hval&->).
  pose proof (touches_ValidateRefreshToken (R := R) (under token_family) tok (si_world st)) as Ht1. rewrite Hval in Ht1. cbn [snd] in Ht1.
  destruct r as [rt|e].
  - inv_step Hrun. injection Hrun as -> ->. split; [by apply validate_reads in Hval|]. split; [exact Ht1|by exists w].
  - destruct (errors_is e ErrKeyNotFound) eqn:He; [|discriminate Hrun]. cbn [negb] in Hrun.
    destruct (wp_intro _ _ _ _ _ Hval (validate_missing tok _) e eq_refl He) as [Hnone Hq].
    inv_step Hrun. apply at_world_inv in Hr as (w2&Hrot&->).
    pose proof (touches_RotateRefreshToken (R := R) tcfg ctx tok (si_world (put_world w st))) as Ht2. rewrite Hrot in Ht2. cbn [snd] in Ht2.
    destruct r as [rt|e2]; [|discriminate Hrun]. inv_step Hrun. injection Hrun as -> ->.
    assert (stays (under token_family) (si_world st) w2) as Hst by (etrans; [exact Ht1|exact Ht2]).
    split; [split; [exact Hnone|]|split; [exact Hst|by exists w2]].
    assert (view w (buildRefreshTokenKey tok) = None) as Hnone2 by (destruct Hq as (_&_&_&_&Hk); by rewrite Hk).
    destruct (wp_intro _ _ _ _ _ Hrot (rotate_missing tcfg ctx tok _ Hnone2) rt eq_refl) as (d&e'&rt'&Hv&Hp&Hacc).
    exists d, e', rt'. destruct Hq as (Hn&Hx&Hy&Hz&Hk). split; [by rewrite <-Hk|]. split; [exact Hp|]. by eapply accepted_quiet; [|exact Hacc].
Qed.

Lemma claims_inv old st c st' : refresh_claims old st = (Ok c, st') →
  stays (under issue_family) (si_world st) (si_world st') ∧
  (∃ d a, later (si_db st) d ∧ account_row (t_people (db_tables d)) (rt_AccountID old) false = Some a ∧ IsActive (Some a) = true) ∧
  ∃ scope roles permissions, c = token_claims (rt_AccountID old) (rt_SessionID old) scope roles permissions.
Proof.
  unfold refresh_claims. intros Hrun. inv_step Hrun. inv_step Hrun. inv_step Hrun. apply negb_false_iff in Hg.
  apply at_app_inv in Hr as (a&Hfind&->). destruct r as [x|e]; [|discriminate Hg].
  destruct (reads_FindAccountByID (R := R) (rt_AccountID old) (app_of st)) as [Hw Hd]. rewrite Hfind in Hw, Hd. cbn [snd] in Hw, Hd.
  apply (f_equal fst) in Hrun as Hc. apply (f_equal snd) in Hrun as Hs. cbn in Hc, Hs. subst st'.
  destruct r0 as [c'|e]; [|discriminate Hc]. injection Hc as ->.
  unfold buildTokenClaims in Hr0. apply bind_inv in Hr0 as ([roles perms]&st3&Hroles&Hr0). apply ret_inv in Hr0 as [-> ->].
  pose proof (keeps_run _ _ _ _ _ (keeps_roles _) Hroles) as Hst. split; [|split].
  - replace (si_world (put_app a st)) with (si_world st) in Hst by (cbn; by rewrite Hw). exact Hst.
  - unfold FindAccountByID, AccountRepo_FindByID, findAccountByID in Hfind. inv_step Hfind. apply query_inv in Hx as (d&Hl&->&->).
    exists d, x. split; [exact Hl|]. split; [|exact Hg]. destruct (account_row _ _ _); cbn in Hfind; [|discriminate Hfind]. by inv_step Hfind; subst.
  - by eexists _, roles, perms.
Qed.

(** C12: what a refresh means. It succeeds only for a stored refresh token that has not
    expired and was not issued before its account was revoked, or for one whose successor
    is such a token, from the address the token is bound to, while its session is live,
    for an account the database shows active. The access token is signed now for exactly
    that account, client and session. *)
Theorem refresh_sound ctx tok st rr st' : 0 < sc_ttl scfg →
  refreshTokensLocked s ctx tok st = (Ok rr, st') →
  ∃ old again, goes_by (si_world st) tok old again ∧
    (rt_IP old = "" ∨ ctx_ip ctx ≠ "" ∧ NormalizeIP (rt_IP old) = NormalizeIP (ctx_ip ctx)) ∧
    (rt_SessionID old ≠ "" → ∃ d e x, view (si_world st) (buildSessionKey (rt_SessionID old)) = Some (Entry (RStr d) e) ∧
       (coherent (si_sess st) → unmarshal_session d = Some x) ∧ w_now (si_world st) - se_LastActiveAt x <= sc_ttl scfg ∧
       (0 < sc_maxAge scfg → w_now (si_world st) - se_CreatedAt x <= sc_maxAge scfg)) ∧
    (∃ d a, later (si_db st) d ∧ account_row (t_people (db_tables d)) (rt_AccountID old) false = Some a ∧ IsActive (Some a) = true) ∧
    (∃ id scope roles permissions, jwt_sign (tc_keyID tcfg) (tc_privateKey tcfg) (issued tcfg id (w_now (si_world st))
       (for_client old (token_claims (rt_AccountID old) (rt_SessionID old) scope roles permissions))) = Ok (rr_AccessToken rr)) ∧
    rr_SessionID rr = rt_SessionID old ∧ (again = true → rr_RefreshToken rr = rt_Token old).
Proof.
  intros Httl Hrun. unfold refreshTokensLocked in Hrun. apply bind_inv in Hrun as ([old again]&st1&Hload&Hrun).
  apply or_else_inv, load_inv in Hload as (Hgoes&Hst1&w1&->). inv_step Hrun. apply negb_false_iff in Hg. unfold ip_allows in Hg.
  rewrite orb_true_iff, andb_true_iff, negb_true_iff, bool_decide_eq_false, !bool_decide_eq_true in Hg.
  exists old, again. split; [exact Hgoes|]. split; [exact Hg|]. rewrite si_world_put in Hst1.
  apply bind_inv in Hrun as (u&st2&Hsess&Hrun). apply bind_inv in Hrun as (c&st3&Hclaims&Hrun). apply claims_inv in Hclaims as (Hst3&Hacc&sc&roles&perms&->).
  apply bind_inv in Hrun as (at_&st4&Hat%wrap_inv&Hrun). apply at_world_inv in Hat as (w4&Hgen&->).
  apply bind_inv in Hrun as (u5&st5&_&Hrun). apply bind_inv in Hrun as (new&st6&Hnew&Hrun). inv_step Hrun. subst rr. cbn [rr_AccessToken rr_SessionID rr_RefreshToken].
  apply generate_access_inv in Hgen as (id&Hid&_).
  assert (w_now (si_world st2) = w_now w1 ∧ si_db st2 = si_db st) as [Hn2 Hd2].
  { case_bool_decide; [by inv_step Hsess|]. inv_step Hsess. apply or_else_inv, at_sess_inv in Hx as (y&Hval&->). inv_step Hsess.
    destruct (keeps_ValidateSession scfg tr (rt_SessionID old) (si_sess (put_world w1 st))) as (Hn&_). rewrite Hval in Hn. by split. }
  split; [|split; [by rewrite Hd2 in Hacc|split; [|split; [done|]]]].
  - intros Hne. rewrite bool_decide_false in Hsess by done. inv_step Hsess. apply or_else_inv, at_sess_inv in Hx as (y&Hval&->).
    destruct (validate_session_ok scfg tr _ _ _ _ Httl Hval) as (Hidle&Hage&d&e&Hv&Hcoh). destruct Hst1 as (Hn&_&Hk).
    change (sv_world (si_sess (put_world w1 st))) with w1 in *. rewrite Hn in Hidle, Hage. exists d, e, (sv_heap y !!! x).
    split; [|split; [exact Hcoh|by split]]. rewrite <-Hk; [exact Hv|]. apply (under_apart [sessionKeyPrefix]); [done|]. eauto with footprint.
  - exists id, sc, roles, perms. apply stays_now in Hst3, Hst1. by rewrite Hst3, Hn2, Hst1 in Hid.
  - intros ->. by inv_step Hnew; subst.
Qed.

(** ** Waiting for the lock ends *)
Lemma lock_loop_ends {A} (pause : M (Site R) unit) (fn : M (Site R) A) lockKey deadline fuel st :
  (∀ st, w_now (si_world st) + refreshTokenLockPoll <= w_now (si_world (pause st).2)) →
  (0 < fuel)%nat → deadline < w_now (si_world st) + (Z.of_nat fuel - 1) * refreshTokenLockPoll →
  (lock_loop pause fuel lockKey deadline fn st).1 ≠ Ok None.
Proof.
  intros Hpause. assert (0 < refreshTokenLockPoll) by done. revert st. induction fuel as [|fuel IH]; intros st Hf Hd; [lia|].
  cbn [lock_loop]. unfold bind at 1.
  pose proof (keeps_at_world (λ _, True) (SetNX (R := R) lockKey "1" refreshTokenLockTTL) (touches_SetNX _ _ _ _ I) st) as (Hn&_).
  change (w_now (si_world (at_world (SetNX (R := R) lockKey "1" refreshTokenLockTTL) st).2) = w_now (si_world st)) in Hn.
  destruct (at_world _ st) as [[[]|e] st1]; [| |done].
  - unfold bind, try, ignore, lift_res. destruct (fn st1) as [[x|e] st2]; by destruct (at_world _ st2).
  - cbn [snd] in Hn. unfold bind at 1, site_now, gets. cbn [fst snd]. destruct (Z.ltb_spec deadline (w_now (si_world st1))); [done|].
    unfold bind. pose proof (Hpause st1) as Hp. destruct (pause st1) as [[u|e] st2]; [|done]. cbn [snd] in Hp. apply IH; nia.
Qed.
(** C36: a refresh ends. However often another request holds the lock of its token,
    whatever happens meanwhile, and as long as sleeping takes at least the poll interval,
    the loop gives an answer within its rounds. *)
Theorem refresh_terminates (pause : M (Site R) unit) ctx tok st :
  (∀ st, w_now (si_world st) + refreshTokenLockPoll <= w_now (si_world (pause st).2)) →
  (RefreshTokens s pause ctx tok st).1 ≠ Ok None.
Proof.
  intros Hpause. unfold RefreshTokens, withRefreshTokenLock. case_bool_decide.
  - unfold bind. by destruct (refreshTokensLocked s ctx tok st) as [[x|e] st1].
  - unfold bind at 1, site_now, gets. cbn [fst snd]. apply lock_loop_ends; [done|unfold lock_rounds; lia|].
    unfold lock_rounds, refreshTokenLockWaitTimeout, refreshTokenLockPoll, millisecond, second. lia.
Qed.
End refresh.
