(* ===== verification/AuthorizeProps.v ===== *)
(** * What the authorization endpoint and the device pages grant *)
From S2P Require Import Prelude GoTime Json Hash Redis World Cache Footprint TokenDomain Blacklist TokenService TokenSpecs TokenIndex TokenInv TokenProps AccessProps Session SessionService Url GoStrings AccountDomain Credential OAuthDomain AuthCode DeviceCode ServiceFootprints DeviceProps Database ClientRepo ClientService ConsentService ConsentProps ClientController Site StateFootprints AuthMiddleware OAuthController TokenEndpoint TokenEndpointProps AuthorizeEndpoint.
Local Open Scope Z_scope.

(** The code an answer sends to the client. *)
Definition code_of (a : answer) : option string :=
  match a with RedirectTo _ (("code", code) :: _) => Some code | _ => None end.

Definition consent_family : list string := [consentKeyPrefix].
Definition consent_state_family : list string := [consentStateKeyPrefix].

(** ** Footprints *)
Section footprints.
Context {R : Type} `{RedisServer R}.

Lemma consent_key_in acc cid : under consent_family (buildConsentKey acc cid).
Proof. by apply (under_intro _ consentKeyPrefix). Qed.
Lemma state_key_in id : under consent_state_family (consentStateKey id).
Proof. by apply (under_intro _ consentStateKeyPrefix). Qed.
Lemma code_key_in code : under code_family (authCodeKey code).
Proof. by apply (under_intro _ authCodeKeyPrefix). Qed.
#[local] Hint Resolve consent_key_in state_key_in code_key_in : footprint.

Lemma keeps_GetConsent `{Postgres} acc cid : keeps (under consent_family) (GetConsent (R := R) acc cid).
Proof. unfold GetConsent, cached_consent, consent_from_db, cache_write_back, findConsentByAccountAndClient. keep. Qed.
Lemma keeps_SaveConsent `{Postgres} o : keeps (under consent_family) (SaveConsent (R := R) o).
Proof. unfold SaveConsent, ConsentRepo_Upsert, app_now. keep. Qed.
Lemma keeps_ValidateBearer `{JwtLib} tcfg scfg tr b rq cfg :
  keeps (under session_family) (ValidateBearerTokenWithConfig (R := R) tcfg scfg tr b rq cfg).
Proof. unfold ValidateBearerTokenWithConfig. keep. Qed.
Lemma keeps_find clientID P : keeps P (FindByClientID (R := R) clientID).
Proof. apply keeps_still, keeps_world_find. Qed.
End footprints.

(** A string read from Redis was there. *)
Lemma get_found {R} `{RedisServer R} key (w : World R) : wp (Get (R := R) key) (λ r _, ∀ d, r = Ok d → ∃ e, view w key = Some (Entry (RStr d) e)) w.
Proof.
  unfold Get, not_found_or. wp_step. wp_step. apply wp_redis_call; [|done].
  intros net. apply wp_s_get. intros st' _. split; [|done]. change (r_view (w_redis w) (now_ms w)) with (view w).
  destruct (view w key) as [[[v|v|v] e]|]; cbn; [wp_step|done|done|by wp_step]. intros ? [= <-]. eauto.
Qed.

Lemma consent_not_state acc cid : ¬ under consent_state_family (buildConsentKey acc cid).
Proof. apply (under_apart consent_family); [reflexivity|apply consent_key_in]. Qed.

(** ** Issuing a code *)
Section endpoint.
Context {R : Type} `{RedisServer R} `{JwtLib} `{Postgres} `{Bcrypt} `{LuaOS}.
Context (tcfg : TokenCfg) (scfg : SessionConfig) (codeExpiry : Z) (dcfg : DeviceCfg) (tr : option (TokenRevoker R)).
Context (c : OAuth2Controller R) `{!OAuth2Deps c}.
Implicit Types s : Site R.

Definition issued_code (t : Z) (code cl acc uri : string) (scopes : list string) (ch m n sid : string) : AuthorizationCode :=
  mkAuthCode code cl acc sid uri scopes ch m n (t + codeExpiry) t [].
(** The code waits in Redis to be exchanged. *)
Definition code_waits s (ac : AuthorizationCode) : Prop :=
  ∃ d e, marshal_authcode (storedCode ac) = Ok d ∧ view (si_world s) (authCodeKey (ac_Code ac)) = Some (Entry (RStr d) e).
(** A refusal sends no code. *)
Definition sends_nothing (Q : res answer → Site R → Prop) : Prop := ∀ a s', code_of a = None → Q (Ok a) s'.

Lemma code_of_redirect uri code st iss : code_of (redirectWithCode uri code st iss) = Some code ∨ code_of (redirectWithCode uri code st iss) = None.
Proof. unfold redirectWithCode. destruct (url_parse uri); [by left|by right]. Qed.

Lemma wp_send_code cl acc uri scopes ch m n sid st (Q : res answer → Site R → Prop) s : 0 < codeExpiry → sends_nothing Q →
  (∀ a code s', code_of a = Some code → (∃ params, a = RedirectTo uri params) →
     code_waits s' (issued_code (w_now (si_world s)) code cl acc uri scopes ch m n sid) →
     stays (under code_family) (si_world s) (si_world s') → Q (Ok a) s') →
  wp (send_code codeExpiry c cl acc uri scopes ch m n sid st) Q s.
Proof.
  intros Hexp Hno HQ. unfold send_code. apply wp_attempt, (wp_keeps (under code_family)); [apply keeps_at_world, touches_GenerateCode|].
  intros [ac|e] s1 Heq Hs1; [|by apply Hno]. wp_step.
  unfold at_world in Heq. destruct (GenerateCode _ _ _ _ _ _ _ _ _ _) as [r w] eqn:Hgen. injection Heq as -> <-.
  destruct (generate_code_stored _ _ _ _ _ _ _ _ _ _ _ _ Hexp Hgen) as (b&d&Hac&Hd&_&_&Hv).
  destruct (code_of (redirectWithCode uri (ac_Code ac) st (c_issuer c))) as [code|] eqn:Hcode; [|by apply Hno].
  apply (HQ _ _ _ Hcode); [| |exact Hs1].
  - revert Hcode. unfold redirectWithCode. destruct (url_parse uri); [eauto|done].
  - assert (code = ac_Code ac) as -> by (destruct (code_of_redirect uri (ac_Code ac) st (c_issuer c)); congruence).
    assert (issued_code (w_now (si_world s)) (ac_Code ac) cl acc uri scopes ch m n sid = ac) as -> by by rewrite Hac.
    exists d. eexists. split; [done|]. cbn. rewrite Hv. by decide_keys.
Qed.

(** ** The authorization request *)

(** What the account once granted the client: the consent cached for the two, or a live
    row of the database as it is now or becomes while the request runs. *)
Definition stored_consent (v : string → option rentry) (db : DB) (accountID clientID : string) (consent : Consent) : Prop :=
  (∃ d e, v (buildConsentKey accountID clientID) = Some (Entry (RStr d) e) ∧ d ≠ consentTombstone ∧
     unmarshal_consent d = Some consent) ∨
  (∃ db', later db db' ∧ grant (db_tables db') accountID clientID consent).
Lemma stored_consent_mono v v' db db' acc cid consent : v' (buildConsentKey acc cid) = v (buildConsentKey acc cid) → later db db' →
  stored_consent v' db' acc cid consent → stored_consent v db acc cid consent.
Proof.
  intros Hv Hdb [(d&e&Hd&Hrest)|(db2&Hdb2&Hg)]; [left; exists d, e; by rewrite <-Hv|right; exists db2; split; [by etrans|done]].
Qed.
Lemma cached_consent_inv acc cid (a : App R) :
  wp (cached_consent (buildConsentKey acc cid)) (λ r a', ap_db a' = ap_db a ∧ ∀ consent, r = Ok (Some consent) →
    ∃ d e, view (ap_world a) (buildConsentKey acc cid) = Some (Entry (RStr d) e) ∧ d ≠ consentTombstone ∧
      unmarshal_consent d = Some consent) a.
Proof.
  unfold cached_consent. wp_step. wp_step. wp_unfold. unfold in_world. pose proof (get_found (buildConsentKey acc cid) (ap_world a)) as Hg.
  unfold wp in Hg. destruct (Get (buildConsentKey acc cid) (ap_world a)) as [[d|e] w]; cbn [fst snd] in *; wp_step; (split; [done|]); [|done].
  destruct (Hg d eq_refl) as [e He]. intros consent. case_bool_decide; [done|]. intros [= Hc]. by exists d, e.
Qed.
Lemma consent_row_inv acc cid (a : App R) :
  wp (findConsentByAccountAndClient acc cid) (λ r _, ∀ consent, r = Ok consent →
    ∃ db', later (ap_db a) db' ∧ grant (db_tables db') acc cid consent) a.
Proof.
  unfold findConsentByAccountAndClient. wp_step. apply wp_wrap.
  apply (wp_select (λ t, head (List.filter (λ c, bool_decide (co_ClientID c = cid)) (consents_of t acc)))); intros db' Hdb'; cbn [fst snd wrap_res]; [|done].
  destruct (head _) as [c0|] eqn:Hh; [|done]. wp_step. intros ? [= <-]. exists db'. split; [done|]. by apply elem_granted, head_elem.
Qed.
Lemma get_consent_inv acc cid (a : App R) :
  wp (GetConsent acc cid) (λ r _, ∀ consent, r = Ok consent → stored_consent (view (ap_world a)) (ap_db a) acc cid consent) a.
Proof.
  unfold GetConsent. wp_step. eapply wp_mono; [apply cached_consent_inv|]. intros [[consent|]|e] a1 [Hdb Hc]; [| |done].
  - wp_step. intros ? [= <-]. left. by apply Hc.
  - wp_step. unfold consent_from_db. wp_step. wp_step. eapply wp_mono; [apply consent_row_inv|].
    intros [c0|e] a2 Hrow; [|done]. wp_step. wp_step. destruct (Hrow _ eq_refl) as (db'&Hl&Hg). rewrite Hdb in Hl.
    assert (∀ a3 : App R, wp (ret c0) (λ r _, ∀ consent, r = Ok consent → stored_consent (view (ap_world a)) (ap_db a) acc cid consent) a3) as Hend.
    { intros a3. wp_step. intros ? [= <-]. right. eauto. }
    unfold cache_write_back, wp, bind. destruct (marshal_consent c0); [|apply (Hend a2)]. unfold ignore. destruct (in_world _ a2). apply Hend.
Qed.

Record authorized (who : Caller) (q : AuthorizeQuery) s s' (uri code : string) (client : OAuth2Client) (consent : Consent)
    (accountID : string) (scopes : list string) : Prop := {
  au_shown : shown_client (az_ClientID q) s client;
  au_type : az_ResponseType q = "code";
  au_redirect : uri = az_RedirectURI q ∧ ValidateRedirectURI (Some client) uri = true;
  au_proof_key : oc_IsConfidential client = false ∨ c_enforcePKCEForConfidential c = true → az_CodeChallenge q ≠ "";
  au_method : az_CodeChallenge q ≠ "" → az_CodeChallengeMethod q = "S256";
  au_state : oc_IsConfidential client = false → az_State q ≠ "";
  au_account : ca_account who = Some accountID ∧ accountID ≠ "";
  au_active : ∃ s1, si_world s1 = si_world s ∧ si_active s1 = si_active s ∧ later (si_db s) (si_db s1) ∧
    (c_accountValidator c accountID s1).1 = Ok true;
  au_consent : stored_consent (view (si_world s)) (si_db s) accountID (az_ClientID q) consent;
  au_scopes : scopes = intersectScopes (ValidateScope (Some client) (splitScope (plus_to_space (az_Scope q)))) (co_Scopes consent);
  au_some : scopes ≠ [];
  au_code : code_waits s' (issued_code (w_now (si_world s)) code (az_ClientID q) accountID uri scopes (az_CodeChallenge q)
              (az_CodeChallengeMethod q) (az_Nonce q) (sessionIDFromContext (ca_claims who)));
}.

Lemma query_refusal_none q : query_refusal q = None →
  az_ResponseType q = "code" ∧ (az_CodeChallenge q ≠ "" → az_CodeChallengeMethod q = "S256").
Proof.
  unfold query_refusal. repeat case_bool_decide; cbn; naive_solver.
Qed.
Lemma query_refusal_code q a : query_refusal q = Some a → code_of a = None.
Proof. unfold query_refusal. repeat case_match; naive_solver. Qed.
Lemma authorize_refusal_none client q : authorize_refusal c client q = None →
  ValidateRedirectURI (Some client) (az_RedirectURI q) = true ∧ (oc_IsConfidential client = false → az_State q ≠ "") ∧
  (oc_IsConfidential client = false ∨ c_enforcePKCEForConfidential c = true → az_CodeChallenge q ≠ "").
Proof.
  unfold authorize_refusal. destruct (ValidateRedirectURI _ _); [|done]. cbn [negb].
  destruct (oc_IsConfidential client), (c_enforcePKCEForConfidential c); cbn; repeat case_bool_decide; naive_solver.
Qed.
Lemma authorize_refusal_code client q a : authorize_refusal c client q = Some a → code_of a = None.
Proof. unfold authorize_refusal. repeat case_match; naive_solver. Qed.

Lemma authorize_wp who q s : 0 < codeExpiry →
  wp (Authorize codeExpiry c who q) (λ r s', ∀ a code, r = Ok a → code_of a = Some code →
    ∃ uri params client consent accountID scopes, a = RedirectTo uri params ∧
      authorized who q s s' uri code client consent accountID scopes) s.
Proof using H1 OAuth2Deps0.
  intros Hexp. set (Q := λ r s', _). assert (sends_nothing Q) as Hno by (intros a s' Hnone b code [= ->]; by rewrite Hnone).
  unfold Authorize. destruct (query_refusal q) as [a|] eqn:Hq; [apply Hno, (query_refusal_code _ _ Hq)|].
  apply query_refusal_none in Hq as [Htype Hmethod].
  apply wp_attempt, wp_find_client_later. intros [client|e] s1 Hw1 Ha1 Hl1 Hshown; [specialize (Hshown _ eq_refl)|by apply Hno].
  destruct (authorize_refusal c client q) as [a|] eqn:Hc; [apply Hno, (authorize_refusal_code _ _ _ Hc)|].
  apply authorize_refusal_none in Hc as (Huri&Hstate&Hpk).
  unfold with_account. destruct (ca_account who) as [accountID|] eqn:Hacc; [|by apply Hno]. case_bool_decide as Hne; [by apply Hno|].
  wp_step. apply wp_validator_later; [done|]. intros [] s2 Hu2 Hl2 Hactive; [specialize (Hactive eq_refl)|by apply Hno]. cbn [negb].
  assert (w_now (si_world s2) = w_now (si_world s)) as Hn2 by (rewrite <-Hw1; apply Hu2).
  wp_step. apply (wp_keeps (λ _, False)); [by apply keeps_at_world, touches_uuid|]. intros [id|e] s3 Hid (Hn3&_&Hv3); [|done].
  apply wp_attempt, (wp_keeps (under consent_state_family)); [apply keeps_at_world, touches_Set, state_key_in|].
  intros [[]|e] s4 Hset (Hn4&_&Hv4); [|by apply Hno]. change (world_of ?x) with (si_world x) in *.
  wp_step. wp_step. apply (wp_keeps (under consent_family)); [apply keeps_at_app, keeps_GetConsent|].
  intros [consent|e] s5 Hconsent (Hn5&_); [|by apply Hno]. change (world_of ?x) with (si_world x) in *.
  case_bool_decide as Hscopes; [by apply Hno|].
  assert (w_now (si_world s5) = w_now (si_world s)) as Hn by congruence.
  apply wp_send_code; [done..|]. intros a code s6 Hcode [params Ha] Hwaits _ b code' [= <-] Hcode'.
  assert (code' = code) as -> by congruence. rewrite Hn in Hwaits.
  eexists _, params, client, consent, accountID, _. split; [exact Ha|]. split; try done.
  - by exists s1.
  - pose proof (get_consent_inv accountID (az_ClientID q) (app_of s4)) as Hc. unfold wp, at_app in *. destruct (GetConsent _ _ _) as [rc a4].
    injection Hconsent as -> _. apply (stored_consent_mono _ (view (si_world s4)) _ (si_db s4)); [| |by apply Hc].
    + rewrite Hv4, Hv3 by auto using consent_not_state. destruct Hu2 as (Hr2&_). unfold view, now_ms. by rewrite Hr2, Hn2, Hw1.
    + etrans; [exact Hl1|]. etrans; [exact Hl2|]. apply (f_equal snd) in Hid, Hset. cbn in Hid, Hset. by rewrite <-Hset, at_world_db, <-Hid, at_world_db.
Qed.

(** C4: what a code from the authorization endpoint means. When a request is answered with
    a redirect that carries an authorization code, then the client exists and has
    registered the redirect URI, the response type is [code], a public client sent a state
    and a proof key (a confidential one too where that is enforced), the proof key method
    is S256, the account behind the request was found active, the consent of this account
    for this client is cached or is a live row of the database, and the code that now
    waits in Redis is for that account, session, client, redirect URI and proof key, and
    for scopes that were asked for, that the client may use and that this consent names. *)
Theorem authorize_sound who q s uri params code s' : 0 < codeExpiry →
  Authorize codeExpiry c who q s = (Ok (RedirectTo uri params), s') → code_of (RedirectTo uri params) = Some code →
  ∃ client consent accountID scopes, authorized who q s s' uri code client consent accountID scopes ∧
    ∀ x, x ∈ scopes → x ∈ splitScope (plus_to_space (az_Scope q)) ∧ x ∈ co_Scopes consent.
Proof using H1 OAuth2Deps0.
  intros Hexp Hrun Hcode.
  destruct (wp_intro _ _ _ _ _ Hrun (authorize_wp who q s Hexp) _ _ eq_refl Hcode) as (uri'&p&client&consent&acc&scopes&[= <- <-]&Ha).
  exists client, consent, acc, scopes. split; [exact Ha|]. intros x Hx. rewrite (au_scopes _ _ _ _ _ _ _ _ _ _ Ha) in Hx.
  unfold intersectScopes in Hx. apply list_elem_of_In, filter_In in Hx as [Hx Hc%bool_decide_eq_true].
  split; [|exact Hc]. by apply list_elem_of_In, validate_scope_in in Hx as (_&Hx&_).
Qed.

(** ** The consent page *)

(** The state of the page: read, and gone whatever follows. *)
Lemma wp_take_state id k (Q : res answer → Site R → Prop) s : sends_nothing Q →
  (∀ d e stored s', view (si_world s) (consentStateKey id) = Some (Entry (RStr d) e) → unmarshal_consent_state d = Some stored →
     view (si_world s') (consentStateKey id) = None → stays (under consent_state_family) (si_world s) (si_world s') →
     si_db s' = si_db s → wp (k stored) Q s') →
  wp (take_consent_state id k) Q s.
Proof.
  intros Hno Hk. unfold take_consent_state. wp_step. wp_step.
  assert (touches (under consent_state_family) (GetDel (R := R) (consentStateKey id))) as Ht by apply touches_GetDel, state_key_in.
  specialize (Ht (si_world s)). apply wp_at_world.
  assert (wp (GetDel (consentStateKey id)) (λ r w', ∀ d, r = Ok d → (∃ e, view (si_world s) (consentStateKey id) = Some (Entry (RStr d) e)) ∧
    view w' (consentStateKey id) = None) (si_world s)) as Hgd.
  { unfold GetDel, not_found_or. wp_step. wp_step. apply wp_redis_call; [|done].
    intros net. apply wp_s_getdel. intros st' Hst. split; [|done].
    change (r_view (w_redis (si_world s)) (now_ms (si_world s))) with (view (si_world s)) in *.
    destruct (view (si_world s) (consentStateKey id)) as [[[v|v|v] e]|] eqn:Hv; cbn in *; [wp_step|done|done|by wp_step].
    intros ? [= <-]. split; [eauto|]. unfold view. cbn. change (now_ms _) with (now_ms (si_world s)). rewrite Hst. by decide_keys. }
  unfold wp in *. destruct (GetDel (consentStateKey id) (si_world s)) as [r w']. cbn [fst snd] in *.
  destruct r as [d|e]; [|apply Hno; by destruct (errors_is _ _)]. destruct (Hgd d eq_refl) as [[e He] Hgone].
  case_bool_decide; [by apply Hno|]. destruct (unmarshal_consent_state d) as [stored|] eqn:Hd; [|by apply Hno].
  by apply (Hk d e stored).
Qed.

(** What a code from a submitted page means. *)
Record approved (who : Caller) (rq : HttpRequest) (q : ConsentRequest) s s' (uri code : string) (client : OAuth2Client)
    (claims : AccessTokenClaims) (scopes : list string) : Prop := {
  ap_bearer : bearer_accepted tcfg scfg (si_sess s) (hr_Request rq) (mkAuthCfg "" true "__Host-access_token") claims;
  ap_said_yes : EqualFold (cf_Approved q) "true" = true;
  ap_page : ∃ d e, view (si_world s) (consentStateKey (cf_ConsentID q)) = Some (Entry (RStr d) e) ∧
    unmarshal_consent_state d = Some (claimed_state (cl_AccountID claims) (sessionIDFromContext (ca_claims who)) q);
  ap_gone : view (si_world s') (consentStateKey (cf_ConsentID q)) = None;
  ap_shown : ∃ s1, si_db s1 = si_db s ∧ shown_client (cf_ClientID q) s1 client;
  ap_redirect : uri = cf_RedirectURI q ∧ ValidateRedirectURI (Some client) uri = true;
  ap_active : said_active c (cl_AccountID claims) s;
  ap_scopes : scopes = ValidateScope (Some client) (splitScope (cf_Scope q));
  ap_some : scopes ≠ [];
  ap_code : code_waits s' (issued_code (w_now (si_world s)) code (cf_ClientID q) (cl_AccountID claims) uri scopes (cf_CodeChallenge q)
              (cf_CodeChallengeMethod q) (cf_Nonce q) (sessionIDFromContext (ca_claims who)));
}.

Lemma deny_sends_nothing q (Q : res answer → Site R → Prop) s : sends_nothing Q → wp (deny_consent q) Q s.
Proof.
  intros Hno. unfold deny_consent. apply wp_attempt, wp_find_client. intros [client|e] s1 _ _; [|by apply Hno].
  destruct (ValidateRedirectURI _ _); [|by apply Hno]. cbn [negb]. wp_step. apply Hno. by destruct (url_parse _).
Qed.
Lemma state_not_code id : ¬ under code_family (consentStateKey id).
Proof. apply (under_apart consent_state_family); [reflexivity|apply state_key_in]. Qed.
Lemma state_not_consent id : ¬ under consent_family (consentStateKey id).
Proof. apply (under_apart consent_state_family); [reflexivity|apply state_key_in]. Qed.
Lemma state_not_session id : ¬ under session_family (consentStateKey id).
Proof. apply (under_apart consent_state_family); [reflexivity|apply state_key_in]. Qed.

(** The second half: the page is gone, the account known. *)
Lemma approve_wp accountID sid q s0 s1 (Q : res answer → Site R → Prop) : 0 < codeExpiry → sends_nothing Q →
  si_db s1 = si_db s0 → w_now (si_world s1) = w_now (si_world s0) →
  (∀ a code params client s', a = RedirectTo (cf_RedirectURI q) params → code_of a = Some code →
     shown_client (cf_ClientID q) s1 client → ValidateRedirectURI (Some client) (cf_RedirectURI q) = true →
     said_active c accountID s0 → ValidateScope (Some client) (splitScope (cf_Scope q)) ≠ [] →
     code_waits s' (issued_code (w_now (si_world s0)) code (cf_ClientID q) accountID (cf_RedirectURI q)
       (ValidateScope (Some client) (splitScope (cf_Scope q))) (cf_CodeChallenge q) (cf_CodeChallengeMethod q) (cf_Nonce q) sid) →
     (∀ id, view (si_world s') (consentStateKey id) = view (si_world s1) (consentStateKey id)) → Q (Ok a) s') →
  (∀ e s', Q (Err e) s') →
  wp (approve_consent codeExpiry c accountID sid q) Q s1.
Proof using H1 OAuth2Deps0.
  intros Hexp Hno Hdb Hnow HQ Hpanic. unfold approve_consent.
  apply wp_attempt, wp_find_client. intros [client|e] s2 Hw2 Hshown; [specialize (Hshown _ eq_refl)|by apply Hno].
  destruct (ValidateRedirectURI _ _) eqn:Huri; [|by apply Hno]. cbn [negb].
  case_bool_decide as Hsc; [by apply Hno|].
  wp_step. apply wp_validator; [done|]. intros [] s3 (Hr3&Hn3&_) Hactive; [specialize (Hactive eq_refl)|by apply Hno]. cbn [negb].
  wp_step. apply wp_gets. wp_step.
  apply (wp_keeps (λ _, False)); [by apply keeps_at_world, touches_uuid|]. intros [id|e] s4 _ (Hn4&_&Hv4); [|apply Hpanic].
  apply wp_attempt, wp_lift_res. destruct (NewConsent _ _ _ _ _) as [consent|]; [|by apply Hno].
  apply wp_attempt, (wp_keeps (under consent_family)); [apply keeps_at_app, keeps_SaveConsent|].
  intros [saved|e] s5 _ (Hn5&_&Hv5); [|by apply Hno]. change (world_of ?x) with (si_world x) in *.
  apply wp_send_code; [done..|]. intros a code s6 Hcode [params ->] Hwaits (Hn6&_&Hv6).
  assert (w_now (si_world s5) = w_now (si_world s0)) as Hn by congruence. rewrite Hn in Hwaits.
  apply (HQ _ code params client); try done.
  - exists s2. split; [congruence|exact Hactive].
  - intros id'. rewrite Hv6, Hv5, Hv4 by auto using state_not_code, state_not_consent. unfold view, now_ms. by rewrite Hr3, Hn3, Hw2.
Qed.

Lemma submit_wp who rq q s : 0 < codeExpiry → 0 < sc_ttl scfg →
  wp (SubmitConsent tcfg scfg codeExpiry tr c who rq (Some q)) (λ r s', ∀ a code, r = Ok a → code_of a = Some code →
    ∃ uri params client claims scopes, a = RedirectTo uri params ∧ approved who rq q s s' uri code client claims scopes) s.
Proof using H1 OAuth2Deps0.
  intros Hexp Httl. set (Q := λ r s', _). assert (sends_nothing Q) as Hno by (intros a s' Hnone b code [= ->]; by rewrite Hnone).
  unfold SubmitConsent. repeat (case_match; [by apply Hno|]).
  unfold authenticateRequest, ValidateBearerToken. wp_step. wp_step. apply wp_at_sess.
  set (cfg := mkAuthCfg "" true "__Host-access_token").
  pose proof (validate_bearer_ok tcfg scfg tr true (hr_Request rq) cfg (si_sess s) Httl) as Hok.
  pose proof (keeps_ValidateBearer tcfg scfg tr true (hr_Request rq) cfg (si_sess s)) as (Hn1&_&Hv1).
  unfold wp in Hok. unfold wp at 1. revert Hok Hn1 Hv1.
  destruct (ValidateBearerTokenWithConfig _ _ _ _ _ _ _) as [[[claims p]|e] x]; cbn [fst snd]; intros Hok Hn1 Hv1; [|by apply Hno; destruct (errors_is _ _)].
  specialize (Hok claims p eq_refl). set (s1 := put_sess x s).
  change (w_now (si_world s1) = w_now (si_world s)) in Hn1. change (∀ k, ¬ under session_family k → view (si_world s1) k = view (si_world s) k) in Hv1.
  destruct (EqualFold (cf_Approved q) "true") eqn:Hyes; cbn [negb]; [|by apply deny_sends_nothing].
  destruct (bool_decide (cf_ConsentID q = "")); [by apply Hno|].
  apply wp_take_state; [done|]. intros d e stored s2 Hd Hstored Hgone (Hn2&_&_) Hdb.
  destruct (bool_decide (claimed_state _ _ _ = stored)) eqn:Hclaim; [apply bool_decide_eq_true in Hclaim as <-|by apply Hno]. cbn [negb].
  apply (approve_wp _ _ _ s); [done..| | |].
  - congruence.
  - intros a code params client s3 -> Hcode Hshown Huri Hactive Hsc Hwaits Hkept b code' [= <-] Hcode'.
    assert (code' = code) as -> by congruence. eexists _, params, client, claims, _. split; [done|]. split; try done.
    + exists d, e. split; [|done]. rewrite <-Hv1; [done|apply state_not_session].
    + by rewrite Hkept.
    + exists s2. split; [|done]. by rewrite Hdb.
  - by intros e' s3 a code [=].
Qed.

(** C10: what a code from the consent page means. When the submission of a consent page is
    answered with a redirect that carries an authorization code, then a token behind the
    request was accepted, the user approved, and the submitted client, redirect URI,
    scope, state, nonce and proof key are those of the authorization request that waited
    in Redis under this page for the same account and session. That state is gone
    afterwards, so the page approves once. The code that now waits is for that account,
    session, client, redirect URI and proof key, and for the scopes that were asked for and
    the client may use; the account was found active. *)
Theorem consent_submission_sound who rq q s uri params code s' : 0 < codeExpiry → 0 < sc_ttl scfg →
  SubmitConsent tcfg scfg codeExpiry tr c who rq (Some q) s = (Ok (RedirectTo uri params), s') →
  code_of (RedirectTo uri params) = Some code →
  (∃ client claims scopes, approved who rq q s s' uri code client claims scopes) ∧
  ∀ who' rq' q' s2 a s3, cf_ConsentID q' = cf_ConsentID q →
    view (si_world s2) (consentStateKey (cf_ConsentID q)) = view (si_world s') (consentStateKey (cf_ConsentID q)) →
    SubmitConsent tcfg scfg codeExpiry tr c who' rq' (Some q') s2 = (Ok a, s3) → code_of a = None.
Proof using H1 OAuth2Deps0.
  intros Hexp Httl Hrun Hcode.
  destruct (wp_intro _ _ _ _ _ Hrun (submit_wp who rq q s Hexp Httl) _ _ eq_refl Hcode) as (uri'&p&client&claims&scopes&[= <- <-]&Ha).
  split; [by exists client, claims, scopes|]. intros who' rq' q' s2 a s3 Hid Hgone Hrun'.
  destruct (code_of a) as [code'|] eqn:Hcode'; [|done].
  destruct (wp_intro _ _ _ _ _ Hrun' (submit_wp who' rq' q' s2 Hexp Httl) _ _ eq_refl Hcode') as (?&?&?&?&?&_&[_ _ (d&e&Hd&_)]).
  rewrite Hid, Hgone, (ap_gone _ _ _ _ _ _ _ _ _ _ Ha) in Hd. done.
Qed.

(** ** The page and its state *)
Lemma consent_state_parses x : forallb utf8_valid [cs_AccountID x; cs_SessionID x; cs_ClientID x; cs_RedirectURI x; cs_CodeChallenge x;
    cs_CodeChallengeMethod x; cs_Nonce x; cs_State x; cs_Scope x] = true →
  unmarshal_consent_state (marshal_consent_state x) = Some x.
Proof.
  destruct x as [a i cl u ch m n st sc]. cbn -[utf8_valid]. rewrite !andb_true_iff. intros (?&?&?&?&?&?&?&?&?&_).
  unfold unmarshal_consent_state, marshal_consent_state. rewrite jparse_jobj; [done|].
  unfold members_wf, consent_state_members. cbn -[utf8_valid]. rewrite !andb_true_iff. by split_and!.
Qed.

(** The state an authorization request leaves for its page. *)
Definition page_state (who : Caller) (q : AuthorizeQuery) (accountID : string) : consentState :=
  mkConsentState accountID (sessionIDFromContext (ca_claims who)) (az_ClientID q) (az_RedirectURI q) (az_CodeChallenge q)
    (az_CodeChallengeMethod q) (az_Nonce q) (az_State q) (plus_to_space (az_Scope q)).
Definition shows_page (a : answer) : option string := match a with ConsentForm p => Some (cp_ConsentID p) | _ => None end.

Lemma page_wp who q s :
  wp (Authorize codeExpiry c who q) (λ r s', ∀ a id, r = Ok a → shows_page a = Some id →
    ∃ accountID, ca_account who = Some accountID ∧ w_now (si_world s') = w_now (si_world s) ∧
      (∀ p, a = ConsentForm p → cp_ClientID p = az_ClientID q ∧ cp_Scopes p = splitScope (plus_to_space (az_Scope q))) ∧
      view (si_world s') (consentStateKey id) = Some (Entry (RStr (marshal_consent_state (page_state who q accountID)))
        (Some (now_ms (si_world s) + r_px consentStateTTL)))) s.
Proof using H1 OAuth2Deps0.
  set (Q := λ r s', _). assert (∀ a s', shows_page a = None → Q (Ok a) s') as Hno by (intros a s' Hnone b id [= ->]; by rewrite Hnone).
  unfold Authorize. destruct (query_refusal q) as [a|] eqn:Hq; [apply Hno; revert Hq; unfold query_refusal; repeat case_match; naive_solver|].
  apply wp_attempt, wp_find_client. intros [client|e] s1 Hw1 _; [|by apply Hno].
  destruct (authorize_refusal c client q) as [a|] eqn:Hc; [apply Hno; revert Hc; unfold authorize_refusal; repeat case_match; naive_solver|].
  unfold with_account. destruct (ca_account who) as [accountID|] eqn:Hacc; [|by apply Hno]. case_bool_decide; [by apply Hno|].
  wp_step. apply wp_validator; [done|]. intros [] s2 Hu2 _; [|by apply Hno]. cbn [negb].
  assert (w_now (si_world s2) = w_now (si_world s)) as Hn2 by (rewrite <-Hw1; apply Hu2).
  wp_step. apply (wp_keeps (λ _, False)); [by apply keeps_at_world, touches_uuid|]. intros [id|e] s3 _ (Hn3&_); [|done].
  apply wp_attempt, wp_at_world, wp_Set_any; [done|]. intros [[]|e] w4 Hn4 _ Hv4; [|by apply Hno]. specialize (Hv4 eq_refl).
  set (s4 := put_world w4 s3). change (world_of ?x) with (si_world x) in *.
  wp_step. wp_step. apply (wp_keeps (under consent_family)); [apply keeps_at_app, keeps_GetConsent|].
  intros r s5 _ (Hn5&_&Hv5). change (world_of ?x) with (si_world x) in *. change (si_world s4) with w4 in Hn5.
  assert (∀ p, cp_ConsentID p = id → cp_ClientID p = az_ClientID q → cp_Scopes p = splitScope (plus_to_space (az_Scope q)) → Q (Ok (ConsentForm p)) s5) as Hpage.
  { intros p Hp Hcl Hsc a id' [= <-] [= <-]. exists accountID. split; [done|]. split; [congruence|]. split; [by intros ? [= <-]|].
    rewrite Hp, Hv5 by apply state_not_consent. change (si_world s4) with w4. rewrite Hv4, decide_True by done.
    unfold now_ms. by rewrite Hn3, Hn2. }
  destruct r as [consent|e]; [|by apply Hpage]. case_bool_decide; [by apply Hpage|].
  unfold send_code. apply wp_attempt. unfold wp. destruct (at_world _ s5) as [[ac|e] s6]; [|by apply Hno]. cbn.
  apply Hno. unfold redirectWithCode. by destruct (url_parse _).
Qed.

(** A page that waits is taken once. *)
Lemma take_page id d e x s : w_net (si_world s) = [] → view (si_world s) (consentStateKey id) = Some (Entry (RStr d) e) → d ≠ "" →
  unmarshal_consent_state d = Some x → ∃ s2, view (si_world s2) (consentStateKey id) = None ∧ si_db s2 = si_db s ∧
    ∀ k, take_consent_state id k s = k x s2.
Proof.
  intros Hnet He Hd Hx. set (key := consentStateKey id) in *.
  assert (wp (GetDel key) (λ r w', r = Ok d ∧ view w' key = None) (si_world s)) as Hgd.
  { unfold GetDel, not_found_or. wp_step. wp_step. apply wp_redis_call_up; [done|]. apply wp_s_getdel. intros st' Hst.
    change (r_view (w_redis (si_world s)) (now_ms (si_world s))) with (view (si_world s)) in *. rewrite He in *. cbn in *. wp_step. split; [done|].
    unfold view. cbn. change (now_ms _) with (now_ms (si_world s)). rewrite Hst. by decide_keys. }
  destruct (wp_eq _ _ _ Hgd) as (r&w'&Heq&->&Hgone). exists (put_world w' s). split_and!; [exact Hgone|done|].
  intros k. unfold take_consent_state, bind, try, at_world. fold key. rewrite Heq. by rewrite bool_decide_false, Hx by done.
Qed.
(** The form that says yes and repeats the parameters of the request. *)
Definition page_form (q : AuthorizeQuery) (p : ConsentPage) : ConsentRequest :=
  mkConsentRequest (az_ClientID q) (az_RedirectURI q) (plus_to_space (az_Scope q)) (az_State q) "true" (az_CodeChallenge q)
    (az_CodeChallengeMethod q) (az_Nonce q) (cp_ConsentID p).
Definition form_accepted (rq : HttpRequest) (f : ConsentRequest) : bool :=
  (hr_ContentLength rq <=? oauth2MaxFormBodySize) && negb (bool_decide (hr_ContentType rq = "")) && bool_decide (hr_MediaType rq = FormMediaType) &&
  bind_consent f.
(** What a code that answers a submission of the page is for. *)
Definition grants_shown (who : Caller) (q : AuthorizeQuery) (p : ConsentPage) (accountID : string) s s' (uri code : string) : Prop :=
  uri = az_RedirectURI q ∧ ∃ client, ValidateRedirectURI (Some client) uri = true ∧
    code_waits s' (issued_code (w_now (si_world s)) code (cp_ClientID p) accountID uri (ValidateScope (Some client) (cp_Scopes p))
      (az_CodeChallenge q) (az_CodeChallengeMethod q) (az_Nonce q) (sessionIDFromContext (ca_claims who))).


(** ** Devices *)

(** The device a submission is about. *)
Definition submitted_hash s (q : DeviceUserSubmitRequest) (hash : string) : Prop :=
  if bool_decide (du_UserCode q = "") then hash = HashToken (du_DeviceCode q)
  else ∃ h e, view (si_world s) (userCodeKey (dashed (ToUpper (remove_dashes (du_UserCode q))))) = Some (Entry (RStr h) e) ∧
         hash = if bool_decide (h = "") then HashToken (du_DeviceCode q) else h.

Lemma fetch_found ctx key w : wp (fetch (R := R) ctx key) (λ r _, ∀ d, r = Ok d → ∃ e, view w key = Some (Entry (RStr d) e)) w.
Proof.
  unfold fetch. wp_step. wp_step. eapply wp_mono; [apply get_found|]. intros [d|e] w1 Hd.
  - wp_step. intros ? [= <-]. by apply Hd.
  - by destruct (errors_is _ _).
Qed.
Lemma user_code_hash code w : wp (GetDeviceCodeByUserCode code) (λ r _, ∀ dc, r = Ok dc →
  ∃ e, view w (userCodeKey (dashed (ToUpper (remove_dashes code)))) = Some (Entry (RStr (dc_Hash dc)) e)) w.
Proof.
  unfold GetDeviceCodeByUserCode. wp_step. apply wp_guard_err; [done|]. intros _. wp_step.
  eapply wp_mono; [apply fetch_found|]. intros [h|e] w1 Hh; [|done]. destruct (Hh h eq_refl) as [e He]. wp_step.
  eapply wp_mono with (Q1 := λ _ _, True); [done|]. intros [d|e'] w2 _; [|done].
  destruct (unmarshal_device d); wp_step; [|done]. intros dc [= <-]. eauto.
Qed.

Definition granted_page : answer := ResultPage "Authorization Granted".
Lemma decide_device_wp rq q h hash s : 0 < sc_ttl scfg → hash = (if bool_decide (h = "") then HashToken (du_DeviceCode q) else h) →
  wp (decide_device tcfg scfg tr rq q h) (λ r s', r = Ok granted_page → ∃ claims,
    bearer_accepted tcfg scfg (si_sess s) rq (mkAuthCfg "" true "__Host-access_token") claims ∧
    ∀ st, utf8_valid (cl_AccountID claims) = true → in_state (view (si_world s) (deviceCodeKey hash)) st →
      ∃ client, st = Pending client ∧ in_state (view (si_world s') (deviceCodeKey hash)) (Authorized client (cl_AccountID claims))) s.
Proof.
  intros Httl ->. set (hash := if bool_decide (h = "") then _ else h). unfold decide_device, authenticateRequest, ValidateBearerToken. wp_step. wp_step. apply wp_at_sess.
  set (cfg := mkAuthCfg "" true "__Host-access_token").
  pose proof (validate_bearer_ok tcfg scfg tr true rq cfg (si_sess s) Httl) as Hok.
  pose proof (keeps_ValidateBearer tcfg scfg tr true rq cfg (si_sess s)) as (_&_&Hv).
  unfold wp in Hok. unfold wp at 1. revert Hok Hv.
  destruct (ValidateBearerTokenWithConfig _ _ _ _ _ _ _) as [[[claims p]|e] x]; cbn [fst snd]; intros Hok Hv;
    [|destruct (errors_is _ _); by wp_step].
  specialize (Hok claims p eq_refl). set (s1 := put_sess x s). fold hash. case_bool_decide.
  - apply wp_attempt, wp_at_world. change (∀ k, ¬ under session_family k → view (si_world s1) k = view (si_world s) k) in Hv.
    assert (∀ r w', (AuthorizeDeviceCodeByHash hash (cl_AccountID claims) (si_world s1)) = (r, w') → is_ok r = true → ∀ st,
      utf8_valid (cl_AccountID claims) = true → in_state (view (si_world s) (deviceCodeKey hash)) st →
      ∃ client, st = Pending client ∧ in_state (view w' (deviceCodeKey hash)) (Authorized client (cl_AccountID claims))) as Hmove.
    { intros r w' Heq Hr st Hacc Hst. rewrite <-Hv in Hst by by apply (under_apart device_family); [|apply (under_intro _ deviceCodeKeyPrefix)].
      destruct (wp_intro _ _ _ _ _ Heq (wp_authorize hash (cl_AccountID claims) (si_world s1) st Hacc Hst)) as (r'&(_&_&Hcase)&Hr').
      destruct Hcase as [[_ ->]|(l&e&Hl&Hwf&Hpend&Hin&_)]; [by rewrite Hr in Hr'|].
      rewrite Hl in Hst. apply in_state_doc in Hst; [|done].
      pose proof (state_of_status l st "pending" Hst Hpend) as Hname. destruct st as [|client| | |]; try done. eauto. }
    unfold wp. destruct (AuthorizeDeviceCodeByHash _ _ _) as [[[]|e] w'] eqn:Heq; cbn; [|done]. intros _. exists claims. split; [exact Hok|].
    apply (Hmove _ _ eq_refl eq_refl).
  - apply wp_attempt. unfold wp. destruct (at_world _ _) as [[[]|e] s2]; by cbn.
Qed.

(** Approving a device. When the submission of the device page is answered with
    [Authorization Granted], then a token behind the request was accepted, and the device
    code the submitted user code stands for (or the submitted device code) moved from
    pending to authorized for the account of that token. *)
Theorem device_approval_sound rq q s s' : 0 < sc_ttl scfg →
  DeviceUserSubmit tcfg scfg tr rq (Some q) s = (Ok (ResultPage "Authorization Granted"), s') →
  ∃ claims hash s1, stays (λ _, False) (si_world s) (si_world s1) ∧
    bearer_accepted tcfg scfg (si_sess s1) rq (mkAuthCfg "" true "__Host-access_token") claims ∧ submitted_hash s q hash ∧
    ∀ st, utf8_valid (cl_AccountID claims) = true → in_state (view (si_world s) (deviceCodeKey hash)) st →
      ∃ client, st = Pending client ∧ in_state (view (si_world s') (deviceCodeKey hash)) (Authorized client (cl_AccountID claims)).
Proof.
  intros Httl. unfold DeviceUserSubmit. destruct (bind_device_submit q); [cbn [negb]|done].
  unfold submitted_code. case_bool_decide as Hu.
  - intros Hrun. destruct (wp_intro _ _ _ _ _ Hrun (decide_device_wp rq q "" _ s Httl eq_refl) eq_refl) as (claims&Hb&Hst).
    exists claims, (HashToken (du_DeviceCode q)), s. split_and!; [done..|unfold submitted_hash; by rewrite bool_decide_true|exact Hst].
  - intros (dc&s1&Hdc&Hrun)%attempt_inv; [|done].
    pose proof (touches_GetDeviceCodeByUserCode (λ _, False) (du_UserCode q) (si_world s)) as Ht.
    pose proof (user_code_hash (du_UserCode q) (si_world s)) as Hh. unfold wp, at_world in *. revert Ht Hh Hdc.
    destruct (GetDeviceCodeByUserCode (du_UserCode q) (si_world s)) as [r w]; cbn [fst snd]. intros Ht Hh [= -> <-].
    destruct (Hh dc eq_refl) as [e He].
    destruct (wp_intro _ _ _ _ _ Hrun (decide_device_wp rq q (dc_Hash dc) _ _ Httl eq_refl) eq_refl) as (claims&Hb&Hst).
    exists claims. eexists _, (put_world w s). split; [exact Ht|]. split; [exact Hb|]. split.
    + unfold submitted_hash. rewrite bool_decide_false by done. eauto.
    + intros st Hacc Hin. apply Hst; [done|]. destruct Ht as (_&_&Hv). change (si_world (put_world w s)) with w. rewrite Hv; [exact Hin|by intros []].
Qed.
End endpoint.
