(* ===== verification/TokenEndpointClaims.v ===== *)
(** * Theorems of the token, revocation and introspection endpoints *)
From S2P Require Import Prelude GoTime Json Hash Redis World Cache Footprint TokenDomain Blacklist TokenService TokenSpecs TokenIndex TokenInv TokenProps AccessProps Session SessionService Url GoStrings AccountDomain Credential OAuthDomain AuthCode DeviceCode ServiceFootprints DeviceProps Database ClientRepo ClientService ClientProps Site AuthMiddleware OAuthController TokenEndpoint TokenEndpointProps.
Local Open Scope Z_scope.

Section claims.
Context {R : Type} `{RedisServer R} `{JwtLib} `{Bcrypt} `{LuaOS}.
Context (tcfg : TokenCfg) (dcfg : DeviceCfg) (c : OAuth2Controller R).
Implicit Types s : Site R.
#[local] Abbreviation endpoint := (Token tcfg dcfg c).
Definition effective (rq : HttpRequest) (q : TokenRequest) : TokenRequest := with_basic_auth (hr_BasicAuth rq) q.

(** Tokens come from the handler of the grant type. *)
Lemma token_dispatch rq form s a s' tok : endpoint rq form s = (Ok a, s') → token_of a = Some tok →
  ∃ q, form = Some q ∧ bind_token q = true ∧
    hr_MediaType rq = FormMediaType ∧ hr_ContentLength rq <= oauth2MaxFormBodySize ∧
    ((tq_GrantType q = "authorization_code" ∧ handleAuthorizationCodeGrant tcfg c rq (effective rq q) s = (Ok a, s')) ∨
    (tq_GrantType q = "refresh_token" ∧ handleRefreshTokenGrant tcfg c rq (effective rq q) s = (Ok a, s')) ∨
    (tq_GrantType q = "client_credentials" ∧ handleClientCredentialsGrant tcfg c (effective rq q) s = (Ok a, s')) ∨
    (tq_GrantType q = GrantTypeDeviceCode ∧ handleDeviceCodeGrant tcfg dcfg c rq (effective rq q) s = (Ok a, s'))).
Proof.
  unfold Token. intros Heq Htok.
  assert (∀ b, token_of b = None → ret b s = (Ok a, s') → False) as Hno by (intros b Hb [= -> _]; by rewrite Hb in Htok).
  destruct (_ <? _) eqn:Hlen; [exfalso; by (eapply Hno; [|exact Heq])|]. apply Z.ltb_ge in Hlen.
  case_bool_decide; [exfalso; by (eapply Hno; [|exact Heq])|]. case_bool_decide as Hm; [|exfalso; by (eapply Hno; [|exact Heq])]. cbn [negb] in Heq.
  destruct form as [q|]; [|exfalso; by (eapply Hno; [|exact Heq])]. destruct (bind_token q) eqn:Hb; [|exfalso; by (eapply Hno; [|exact Heq])]. cbn [negb] in Heq.
  refine (ex_intro _ q (conj eq_refl (conj Hb (conj Hm (conj Hlen _))))). fold (effective rq q) in Heq.
  assert (tq_GrantType (effective rq q) = tq_GrantType q) as Hgt by (unfold effective, with_basic_auth; by destruct (hr_BasicAuth rq) as [[]|]).
  rewrite Hgt in Heq. do 4 (case_bool_decide; [by auto 10|]). exfalso; by (eapply Hno; [|exact Heq]).
Qed.

Ltac grant_case Hrun Htok Hgt :=
  destruct (token_dispatch _ _ _ _ _ _ Hrun Htok) as (q'&[= <-]&_&_&_&Hcases);
  destruct Hcases as [[Hg Heq]|[[Hg Heq]|[[Hg Heq]|[Hg Heq]]]]; rewrite Hgt in Hg; try discriminate Hg.

(** C3: an authorization code buys tokens only for whom and what it was granted. When the
    endpoint hands out tokens for a code, the client is a live row that may use the
    grant, it authenticated (a public one sent a proof key), the stored code names this
    client and this redirect URI, is not expired, and the proof key answers its
    challenge; the check of the account said active; the access token is signed now for
    exactly the account, scopes and session of the code; and the code is gone. *)
Theorem code_grant_sound `{!OAuth2Deps c} rq q s a s' tok :
  endpoint rq (Some q) s = (Ok a, s') → token_of a = Some tok → tq_GrantType q = "authorization_code" →
  ∃ client ac d roles permissions, code_grant tcfg c (effective rq q) s s' tok (scope_of a) client ac d roles permissions.
Proof.
  intros Hrun Htok Hgt. grant_case Hrun Htok Hgt.
  by apply (wp_intro _ _ _ _ _ Heq (code_grant_wp tcfg c rq (effective rq q) s)).
Qed.

(** C14: a code buys tokens once. After a grant for a code, no request with that code gets
    tokens, at whatever later time, from whichever client, whatever the network and the
    database do; other work meanwhile may change anything but the code's key. *)
Theorem code_grants_once `{!OAuth2Deps c} rq q s a s' tok rq2 q2 s2 :
  endpoint rq (Some q) s = (Ok a, s') → token_of a = Some tok → tq_GrantType q = "authorization_code" →
  view (si_world s2) (authCodeKey (tq_Code q)) = view (si_world s') (authCodeKey (tq_Code q)) →
  tq_GrantType q2 = "authorization_code" → tq_Code q2 = tq_Code q →
  ∀ a2 s3, endpoint rq2 (Some q2) s2 = (Ok a2, s3) → token_of a2 = None.
Proof.
  intros Hrun Htok Hgt Hview Hgt2 Hcode a2 s3 Hrun2.
  assert (∀ rq q, tq_Code (effective rq q) = tq_Code q) as Hsame
    by (intros x y; unfold effective, with_basic_auth; by destruct (hr_BasicAuth x) as [[]|]).
  destruct (token_of a2) as [tok2|] eqn:Htok2; [exfalso|done].
  assert (view (si_world s') (authCodeKey (tq_Code q)) = None) as Hgone.
  { grant_case Hrun Htok Hgt.
    destruct (wp_intro _ _ _ _ _ Heq (code_grant_wp tcfg c rq (effective rq q) s) a tok) as (?&?&?&?&?&Hg1); [done..|].
    pose proof (cg_gone _ _ _ _ _ _ _ _ _ _ _ _ Hg1) as Hgone. by rewrite Hsame in Hgone. }
  destruct (token_dispatch _ _ _ _ _ _ Hrun2 Htok2) as (q'&[= <-]&_&_&_&Hcases).
  destruct Hcases as [[Hg Heq]|[[Hg Heq]|[[Hg Heq]|[Hg Heq]]]]; rewrite Hgt2 in Hg; try discriminate Hg.
  destruct (wp_intro _ _ _ _ _ Heq (code_grant_wp tcfg c rq2 (effective rq2 q2) s2) a2 tok2) as (?&?&?&?&?&Hg1); [done..|].
  pose proof (cg_stored _ _ _ _ _ _ _ _ _ _ _ _ Hg1) as Hst. rewrite Hsame, Hcode, Hview, Hgone in Hst. done.
Qed.

(** C11: refreshing never widens a grant. While Redis answers, and when the endpoint hands out
    tokens for a refresh token of the store, which keeps its invariant, the client is the
    one the token was issued to, a confidential one gave its secret, the account is active
    and not revoked since; the access token is for the same account, client and session and
    for the granted scopes or fewer; the old refresh token is consumed. *)
Theorem refresh_grant_sound `{!OAuth2Deps c} rq q b old s a s' tok :
  0 < tc_refreshExpiry tcfg → rotatable tcfg (si_world s) (tq_RefreshToken q) b old →
  HashToken (fresh_token b) ≠ HashToken (tq_RefreshToken q) →
  endpoint rq (Some q) s = (Ok a, s') → token_of a = Some tok → tq_GrantType q = "refresh_token" →
  ∃ client roles permissions, refresh_grant tcfg c (effective rq q) old s s' tok (scope_of a) client roles permissions.
Proof.
  intros Hexp Hrot Hne Hrun Htok Hgt. grant_case Hrun Htok Hgt.
  assert (tq_RefreshToken (effective rq q) = tq_RefreshToken q) as Hsame
    by (unfold effective, with_basic_auth; by destruct (hr_BasicAuth rq) as [[]|]).
  rewrite <-Hsame in Hrot, Hne.
  by apply (wp_intro _ _ _ _ _ Heq (refresh_grant_wp tcfg c rq (effective rq q) b old s Hexp Hrot Hne)).
Qed.

(** A client acting for itself gets only what it is registered for. Tokens of the client
    credentials grant go to a live confidential client that may use it and gave its
    secret, for at least one scope, each one requested, registered and, when it is
    an administrative one, held by a client with that capability; the token
    names the owner's account and no user role. *)
Theorem client_credentials_sound `{!OAuth2Deps c} rq q s a s' tok :
  endpoint rq (Some q) s = (Ok a, s') → token_of a = Some tok → tq_GrantType q = "client_credentials" →
  ∃ client scopes, credentials_grant tcfg c (effective rq q) s tok (scope_of a) client scopes.
Proof.
  intros Hrun Htok Hgt. grant_case Hrun Htok Hgt.
  by apply (wp_intro _ _ _ _ _ Heq (credentials_grant_wp tcfg c (effective rq q) s)).
Qed.

(** C13: a device gets tokens only after a user authorized its code, for that user, and once.
    When the endpoint hands out tokens for a device code, the code was authorized, by the
    account the token names, for the client that asks; afterwards it is used, and
    whatever the device code service does then, no later request gets tokens for it. *)
Theorem device_grant_sound `{!OAuth2Deps c} rq q st s a s' tok rq2 q2 s2 a2 s3 :
  in_state (view (si_world s) (deviceCodeKey (HashToken (tq_DeviceCode q)))) st →
  endpoint rq (Some q) s = (Ok a, s') → token_of a = Some tok → tq_GrantType q = GrantTypeDeviceCode →
  (∃ client account roles permissions, st = Authorized (tq_ClientID (effective rq q)) account ∧
     device_grant tcfg c (effective rq q) s s' tok (scope_of a) client account roles permissions) ∧
  (rtc (device_step dcfg (tq_DeviceCode q)) (si_world s') (si_world s2) →
   tq_GrantType q2 = GrantTypeDeviceCode → tq_DeviceCode q2 = tq_DeviceCode q →
   endpoint rq2 (Some q2) s2 = (Ok a2, s3) → token_of a2 = None).
Proof.
  intros Hin Hrun Htok Hgt.
  assert (∀ rq q, tq_DeviceCode (effective rq q) = tq_DeviceCode q) as Hsame
    by (intros x y; unfold effective, with_basic_auth; by destruct (hr_BasicAuth x) as [[]|]).
  grant_case Hrun Htok Hgt. rewrite <-(Hsame rq) in Hin.
  destruct (wp_intro _ _ _ _ _ Heq (device_grant_wp tcfg dcfg c rq (effective rq q) st s Hin) a tok) as (client&acc&roles&perms&->&Hg1);
    [done..|]. split; [by exists client, acc, roles, perms|].
  intros Hsteps Hgt2 Hcode Hrun2. destruct (token_of a2) as [tok2|] eqn:Htok2; [exfalso|done].
  pose proof (dg_used _ _ _ _ _ _ _ _ _ _ _ Hg1) as Hused. rewrite Hsame in Hused.
  destruct (steps_move _ _ _ _ _ Hused Hsteps) as (st2&Hin2&Hmoves).
  destruct (token_dispatch _ _ _ _ _ _ Hrun2 Htok2) as (q'&[= <-]&_&_&_&Hcases).
  destruct Hcases as [[Hg' Heq2]|[[Hg' Heq2]|[[Hg' Heq2]|[Hg' Heq2]]]]; rewrite Hgt2 in Hg'; try discriminate Hg'.
  rewrite <-Hcode, <-(Hsame rq2) in Hin2.
  destruct (wp_intro _ _ _ _ _ Heq2 (device_grant_wp tcfg dcfg c rq2 (effective rq2 q2) st2 s2 Hin2) a2 tok2) as (?&acc2&?&?&->&_); [done..|].
  clear -Hmoves. remember (Used _ _) as s1 eqn:H1. remember (Authorized _ _) as s2 eqn:H2.
  assert (match s2 with Used _ _ | Absent => True | _ => False end) as Hend; [|by subst].
  clear H2. assert (match s1 with Used _ _ | Absent => True | _ => False end) as Hstart by by rewrite H1.
  clear H1. induction Hmoves as [|x y z Hm _ IH]; [done|]. apply IH. by destruct Hm.
Qed.

(** ** Introspection *)
Definition credentials (rq : HttpRequest) (clientID clientSecret : string) : string * string :=
  default (clientID, clientSecret) (hr_BasicAuth rq).

Lemma introspect_accepted tok w : wp (IntrospectToken tcfg tok) (λ r _, ∀ m, r = Ok m → m = [("active", JBool false)] ∨
  ∃ cl, access_accepted tcfg w tok cl ∧ m = introspection_result cl) w.
Proof.
  unfold IntrospectToken. wp_step. wp_step. eapply wp_mono; [apply (validate_access_ok tcfg tok w)|].
  intros [cl|e] w' Hacc; cbn beta iota.
  - wp_step. intros m [= <-]. right. exists cl. auto.
  - destruct (errors_is e _); wp_step; [done|]. intros m [= <-]. by left.
Qed.
Lemma introspected_client cl : jget "client_id" (introspection_result cl) = Some (JStr (cl_ClientID cl)).
Proof. reflexivity. Qed.

(** C35: c: introspection tells a client about its own tokens only. When it reports an active
    token, the caller is a live confidential client that gave its secret, the token is
    one the token service accepts now, it was issued to this client, and the answer
    is what its claims say. *)
Theorem introspection_shows_own_tokens rq token cid secret s m s' :
  Introspect tcfg rq token cid secret s = (Ok (Introspected m), s') → jget "active" m = Some (JBool true) →
  ∃ tok client cl, token = Some tok ∧ shown_client (credentials rq cid secret).1 s client ∧
    oc_IsConfidential client = true ∧ bcrypt_compare (oc_ClientSecretHash client) (credentials rq cid secret).2 = true ∧
    access_accepted tcfg (si_world s) tok cl ∧ cl_ClientID cl = (credentials rq cid secret).1 ∧ m = introspection_result cl.
Proof.
  intros Hrun Hact. unfold credentials.
  enough (wp (Introspect tcfg rq token cid secret) (λ r _, ∀ m, r = Ok (Introspected m) → jget "active" m = Some (JBool true) →
    ∃ tok client cl, token = Some tok ∧ shown_client (default (cid, secret) (hr_BasicAuth rq)).1 s client ∧
      oc_IsConfidential client = true ∧
      bcrypt_compare (oc_ClientSecretHash client) (default (cid, secret) (hr_BasicAuth rq)).2 = true ∧
      access_accepted tcfg (si_world s) tok cl ∧ cl_ClientID cl = (default (cid, secret) (hr_BasicAuth rq)).1 ∧
      m = introspection_result cl) s) as Hwp by exact (wp_intro _ _ _ _ _ Hrun Hwp m eq_refl Hact).
  clear m s' Hrun Hact. unfold Introspect. destruct (_ && _); [by wp_step|]. destruct token as [tok|]; [|by wp_step].
  destruct (_ || _); [by wp_step|]. destruct (default (cid, secret) (hr_BasicAuth rq)) as [id sec]. cbn [fst snd].
  case_bool_decide; [by wp_step|]. apply wp_attempt, wp_find_client. intros [client|e] s1 Hw1 Hshown; [|done].
  specialize (Hshown _ eq_refl). destruct (AuthenticateClient client sec) as [[]|] eqn:Hauth; cbn [negb is_ok]; [|by wp_step].
  destruct (oc_IsConfidential client) eqn:Hconf; cbn [negb]; [|by wp_step].
  apply wp_attempt, wp_at_world. rewrite Hw1. eapply wp_mono; [apply introspect_accepted|].
  intros [res|e] w Hres; [|done]. wp_step. intros m [= <-] Hact. 
  destruct (Hres res eq_refl) as [->|(cl&Hacc&->)]; [done|]. rewrite introspected_client in Hact |- *.
  case_bool_decide as Hcl; [|done]. exists tok, client, cl.
  destruct (authenticate_secret client sec Hconf Hauth) as [_ Hsec]. by split_and!.
Qed.

(** ** Revocation *)
Lemma wp_revoking_client cid secret k (Q : res answer → Site R → Prop) s :
  (∀ a s', si_world s' = si_world s → Q (Ok a) s') →
  (cid = "" → wp (k "") Q s) →
  (∀ client s', cid ≠ "" → si_world s' = si_world s → shown_client cid s client → AuthenticateClient client secret = Ok tt →
     wp (k cid) Q s') → wp (revoking_client cid secret k) Q s.
Proof.
  intros Hno Hnone Hk. unfold revoking_client. case_bool_decide; [auto|].
  apply wp_attempt, wp_find_client. intros [client|e] s1 Hw1 Hshown; [|by apply Hno].
  destruct (AuthenticateClient client secret) as [[]|] eqn:Hauth; cbn [negb is_ok]; [|wp_step; by apply Hno].
  apply (Hk client); auto.
Qed.

Lemma frame_none {P} s s' : frame (λ _, False) s s' → frame P s s'.
Proof. by apply frame_mono. Qed.
Lemma try_access_frame tok hint cm s :
  wp (try_access_token tcfg tok hint cm) (λ _ s', frame (under ["blacklist:token:"]) s s' ∧
    ∀ jti, view (si_world s') (buildBlacklistKey jti) ≠ view (si_world s) (buildBlacklistKey jti) →
      ∃ cl, access_accepted tcfg (si_world s) tok cl ∧ cl_ID cl = jti ∧ (cm = "" ∨ cl_ClientID cl = cm)) s.
Proof.
  unfold try_access_token. case_bool_decide; [wp_step; by split|]. wp_step. wp_step.
  apply (wp_at_touch (λ _, False)); [apply touches_ValidateAccessToken|]. intros [cl|e] s1 Hval Hf1; cbn beta iota.
  2: { wp_step. split; [by apply frame_none|]. intros jti Hne. destruct Hne. apply Hf1. tauto. }
  pose proof (wp_intro _ _ _ _ _ Hval (validate_access_ok tcfg tok _) cl eq_refl) as Hacc.
  assert (∀ s2, frame (λ _, False) s1 s2 → frame (under ["blacklist:token:"]) s s2 ∧
    ∀ jti, view (si_world s2) (buildBlacklistKey jti) ≠ view (si_world s) (buildBlacklistKey jti) →
      ∃ cl, access_accepted tcfg (si_world s) tok cl ∧ cl_ID cl = jti ∧ (cm = "" ∨ cl_ClientID cl = cm)) as Hstay.
  { intros s2 Hf2. split; [apply frame_none; by apply (frame_trans _ _ s1)|]. intros jti Hne. destruct Hne.
    rewrite (proj2 Hf2) by tauto. apply Hf1. tauto. }
  destruct (_ || _) eqn:Hcm; [|wp_step; by apply Hstay].
  destruct (cl_ExpiresAt cl) as [e|]; [|wp_step; by apply Hstay].
  apply wp_attempt, (wp_at_touch (λ k, k = buildBlacklistKey (cl_ID cl))).
  { by apply touches_RevokeAccessToken. }
  intros [u|e'] s2 _ Hf2; [wp_step|]; (split;
    [apply (frame_trans _ _ s1); [by apply frame_none|]; apply (frame_mono (λ k, k = buildBlacklistKey (cl_ID cl))); [|done];
     intros k ->; in_family|]; intros jti Hne; exists cl; split; [done|split];
     [destruct (decide (cl_ID cl = jti)) as [|Hj]; [done|]; destruct Hne; rewrite (proj2 Hf2), (proj2 Hf1); [done|tauto|];
        unfold buildBlacklistKey; intros ?%append_inj; congruence
     |apply orb_true_iff in Hcm as [?%bool_decide_eq_true|?%bool_decide_eq_true]; auto]).
Qed.

(** Acceptance depends on the time and on what the keys show. *)
Lemma access_accepted_same s s' tok cl : frame (λ _, False) s' s →
  access_accepted tcfg (si_world s) tok cl → access_accepted tcfg (si_world s') tok cl.
Proof.
  intros [Hn Hv]. unfold access_accepted, revoked_after. rewrite Hn, !Hv by tauto. done.
Qed.

(** C26: a client revokes its own tokens only. A request with client credentials changes
    something only when they are right; it leaves a refresh token of another client stored
    as it was, and blacklists an identifier only when the token sent is an access token in
    force with that identifier, issued to this client; whatever the network does. *)
Theorem revocation_is_client_bound rq q s a s' :
  let cid := (credentials rq (vq_ClientID q) (vq_ClientSecret q)).1 in
  let secret := (credentials rq (vq_ClientID q) (vq_ClientSecret q)).2 in
  Revoke tcfg rq (Some q) s = (Ok a, s') → cid ≠ "" →
  (∀ k, view (si_world s') k ≠ view (si_world s) k →
     ∃ client, shown_client cid s client ∧ AuthenticateClient client secret = Ok tt) ∧
  (∀ d x rt, view (si_world s) (buildRefreshTokenKey (vq_Token q)) = Some (Entry (RStr d) x) → unmarshal_rt d = Some rt →
     rt_ClientID rt ≠ cid → view (si_world s') (buildRefreshTokenKey (vq_Token q)) = Some (Entry (RStr d) x)) ∧
  (∀ jti, view (si_world s') (buildBlacklistKey jti) ≠ view (si_world s) (buildBlacklistKey jti) →
     ∃ cl, access_accepted tcfg (si_world s) (vq_Token q) cl ∧ cl_ID cl = jti ∧ cl_ClientID cl = cid).
Proof.
  intros cid secret Hrun Hcid. set (key := buildRefreshTokenKey (vq_Token q)).
  set (Q := λ (_ : res answer) s',
    (∀ k, view (si_world s') k ≠ view (si_world s) k → ∃ client, shown_client cid s client ∧ AuthenticateClient client secret = Ok tt) ∧
    (∀ d x rt, view (si_world s) key = Some (Entry (RStr d) x) → unmarshal_rt d = Some rt →
       rt_ClientID rt ≠ cid → view (si_world s') key = Some (Entry (RStr d) x)) ∧
    (∀ jti, view (si_world s') (buildBlacklistKey jti) ≠ view (si_world s) (buildBlacklistKey jti) →
       ∃ cl, access_accepted tcfg (si_world s) (vq_Token q) cl ∧ cl_ID cl = jti ∧ cl_ClientID cl = cid)).
  enough (wp (Revoke tcfg rq (Some q)) Q s) as Hwp by exact (wp_intro _ _ _ _ _ Hrun Hwp). clear Hrun a s'.
  assert (∀ r s', frame (λ _, False) s s' → Q r s') as Hsame.
  { intros r s' [_ Hv]. unfold Q. split_and!; intros *; rewrite Hv by tauto; done. }
  unfold Revoke. case_bool_decide; [wp_step; by apply Hsame|]. destruct (negb _); [wp_step; by apply Hsame|].
  unfold cid, secret, credentials in *. clear cid secret. destruct (default _ _) as [cid secret]. cbn [fst snd] in *.
  apply wp_revoking_client; [intros a s' Hw; by apply Hsame, world_frame|done|].
  intros client s1 _ Hw1 Hshown Hauth.
  assert (∀ s', ∃ client, shown_client cid s client ∧ AuthenticateClient client secret = Ok tt) as Hex by eauto.
  assert (∀ r s2 s3, frame (λ _, False) s s2 → frame (under ["blacklist:token:"]) s2 s3 ∧
    (∀ jti, view (si_world s3) (buildBlacklistKey jti) ≠ view (si_world s2) (buildBlacklistKey jti) →
       ∃ cl, access_accepted tcfg (si_world s2) (vq_Token q) cl ∧ cl_ID cl = jti ∧ (cid = "" ∨ cl_ClientID cl = cid)) → Q r s3)
    as Hacc.
  { intros r s2 s3 [Hn2 Hv2] [[_ Hv3] Hbl]. unfold Q. split_and!; [by intros k _; apply (Hex s)| |].
    - intros d x rt Hd _ _. rewrite Hv3 by (apply (under_apart refresh_family); [reflexivity|unfold key; in_family]). by rewrite Hv2 by tauto.
    - intros jti Hne. rewrite <-(Hv2 (buildBlacklistKey jti)) in Hne by tauto.
      destruct (Hbl jti Hne) as (cl&Hcl&Hid&[?|Hc]); [done|]. exists cl. split; [|done].
      by apply (access_accepted_same s2 s). }
  case_bool_decide as Hhint.
  - eapply wp_mono; [apply try_access_frame|]. intros r s2 Hs2. apply (Hacc r s1); [by apply world_frame|exact Hs2].
  - wp_step. wp_step. apply (wp_at_touch (λ _, False)); [apply touches_ValidateRefreshToken|]. intros [rt|e] s2 Hval Hf2; cbn beta iota.
    + pose proof (validate_reads _ _ _ _ Hval) as ((d0&x0&Hd0&Hrt0)&_). rewrite Hw1 in Hd0.
      destruct (_ && _) eqn:Hmine; [wp_step; apply Hsame, (frame_trans _ _ s1); [by apply world_frame|done]|].
      assert (rt_ClientID rt = cid) as Hrc.
      { rewrite bool_decide_false in Hmine by done. cbn in Hmine. by apply negb_false_iff, bool_decide_eq_true in Hmine. }
      apply wp_attempt, (wp_at_touch (under refresh_family)); [apply touches_RevokeRefreshToken|]. intros r s3 _ Hf3.
      assert (∀ r, Q r s3) as HQ; [|by destruct r; [wp_step|]; apply HQ].
      intros r'. split; [by intros k _; apply (Hex s)|split].
      * intros d x rt' Hd Hu Hne. fold key in Hd0. assert (rt' = rt) as -> by congruence. done.
      * intros jti Hne. destruct Hne.
        rewrite (proj2 Hf3) by (apply (under_apart ["blacklist:token:"]); [reflexivity|in_family]).
        by rewrite (proj2 Hf2), Hw1 by tauto.
    + eapply wp_mono; [apply try_access_frame|]. intros r s3 Hs3. apply (Hacc r s2); [|exact Hs3].
      apply (frame_trans _ _ s1); [by apply world_frame|done].
Qed.

Lemma revoke_refresh_effect ctx t d x w : w_net w = [] → Inv tcfg w → view w (buildRefreshTokenKey t) = Some (Entry (RStr d) x) →
  wp (RevokeRefreshToken ctx t) (λ r w', r = Ok tt ∧ view w' (buildRefreshTokenKey t) = None) w.
Proof.
  intros Hn Hinv Hv. unfold RevokeRefreshToken. wp_step. wp_step. apply wp_redis_call_up; [done|].
  eapply delete_script_spec; [exact Hv|done|apply Hinv|]. intros st' Hst'. cbn [wrap_res].
  assert (view (put_redis st' w) (buildRefreshTokenKey t) = None) as Hgone.
  { etransitivity; [exact (Hst' _)|]. unfold consumed. destruct (script_session d); by decide_keys. }
  destruct (unmarshal_rt d); [|by wp_step]. apply wp_audit_log. by split.
Qed.

(** Revoking a refresh token works. With the stores up, a request for a refresh token in
    force, without credentials or with those of the token's own client, is
    answered 200, and the token is gone: it is refused ever after, until a token with the
    same secret is stored. *)
Theorem revocation_takes_effect rq q s rt :
  let cid := (credentials rq (vq_ClientID q) (vq_ClientSecret q)).1 in
  let secret := (credentials rq (vq_ClientID q) (vq_ClientSecret q)).2 in
  w_net (si_world s) = [] → Inv tcfg (si_world s) → (ValidateRefreshToken (vq_Token q) (si_world s)).1 = Ok rt →
  hr_ContentType rq ≠ "" → bind_revoke q = true → vq_TokenHint q ≠ "access_token" →
  (cid = "" ∨ rt_ClientID rt = cid ∧ ∃ client, (FindByClientID cid (app_of s)).1 = Ok client ∧ AuthenticateClient client secret = Ok tt) →
  ∃ s', Revoke tcfg rq (Some q) s = (Ok (StatusOnly 200), s') ∧ view (si_world s') (buildRefreshTokenKey (vq_Token q)) = None ∧
    ∀ s2, view (si_world s2) (buildRefreshTokenKey (vq_Token q)) = view (si_world s') (buildRefreshTokenKey (vq_Token q)) →
      is_ok (ValidateRefreshToken (vq_Token q) (si_world s2)).1 = false.
Proof.
  intros cid secret Hn Hinv Hval Hct Hbind Hhint Hcred.
  enough (wp (Revoke tcfg rq (Some q)) (λ r s', r = Ok (StatusOnly 200) ∧ view (si_world s') (buildRefreshTokenKey (vq_Token q)) = None) s)
    as Hwp.
  { destruct (wp_eq _ _ _ Hwp) as (r&s'&Heq&->&Hgone). exists s'. split; [exact Heq|]. split; [exact Hgone|]. intros s2 Hs2.
    destruct (ValidateRefreshToken _ (si_world s2)) as [[rt2|e] w2] eqn:Hv2; [exfalso|done].
    apply validate_reads in Hv2 as ((d&x&Hd&_)&_). by rewrite Hs2, Hgone in Hd. }
  unfold Revoke. rewrite (bool_decide_false (hr_ContentType rq = "")) by done. rewrite Hbind. cbn [negb].
  unfold cid, secret, credentials in *. clear cid secret. destruct (default _ _) as [cid secret]. cbn [fst snd] in *.
  assert (∀ s1 cm b, si_world s1 = si_world s → b = false ∨ rt_ClientID rt = cm →
    wp (let! r := try (at_world (ValidateRefreshToken (vq_Token q))) in
        match r with
        | Ok rt => if b && negb (bool_decide (rt_ClientID rt = cm)) then ret (StatusOnly 200)
                   else let? _ := at_world (RevokeRefreshToken (hr_Ctx rq) (vq_Token q)) else server_error in ret (StatusOnly 200)
        | Err _ => try_access_token tcfg (vq_Token q) (vq_TokenHint q) cm
        end) (λ r s', r = Ok (StatusOnly 200) ∧ view (si_world s') (buildRefreshTokenKey (vq_Token q)) = None) s1) as Hrest.
  { intros s1 cm b Hw1 Hcm. wp_step. wp_step. unfold wp at 1. destruct (at_world _ s1) as [r s2] eqn:Hrun. cbn [fst snd].
    assert (r = Ok rt) as ->.
    { unfold at_world in Hrun. rewrite Hw1 in Hrun. destruct (ValidateRefreshToken _ (si_world s)) as [r' w']. cbn in *. by simplify_eq. }
    apply validate_undisturbed in Hrun as (Hq&Hn2&Hacc); [|by rewrite Hw1]. rewrite Hw1 in Hq, Hacc. cbn beta iota.
    destruct (Hacc rt eq_refl) as ((d&x&Hd&_)&_).
    destruct (_ && _) eqn:Hmine.
    { apply andb_true_iff in Hmine as [-> Hm2%negb_true_iff%bool_decide_eq_false]. by destruct Hcm. }
    apply wp_attempt, wp_at_world.
    assert (view (si_world s2) (buildRefreshTokenKey (vq_Token q)) = Some (Entry (RStr d) x)) as Hv2
      by (destruct Hq as (_&_&_&_&Hv); by rewrite Hv).
    eapply wp_mono; [apply (revoke_refresh_effect _ _ d x); [done|by apply (Inv_quiet _ (si_world s))|done]|].
    intros r w [-> Hgone]. by wp_step. }
  unfold revoking_client. case_bool_decide as Hc; [|destruct Hcred as [?|(Hrt&client&Hfind&Hauth)]; [done|]].
  - rewrite (bool_decide_false (vq_TokenHint q = _)) by done. by apply Hrest; [|left].
  - apply wp_attempt. pose proof (at_app_world (FindByClientID cid) s) as Hw. unfold wp at 1.
    assert ((at_app (FindByClientID cid) s).1 = Ok client) as ->.
    { unfold at_app. destruct (FindByClientID cid (app_of s)). exact Hfind. }
    rewrite Hauth. cbn [negb is_ok]. rewrite (bool_decide_false (vq_TokenHint q = _)) by done. apply Hrest; [|by right]. apply Hw. apply keeps_world_find.
Qed.
End claims.
