(* ===== verification/VerifyProps.v ===== *)
(** * What verification codes and backup codes promise *)
From S2P Require Import Prelude GoTime Json LuaPattern Hash Url Redis World Cache Footprint TokenDomain OAuthDomain DeviceCode DeviceProps GoStrings AccountDomain Credential Database ClientRepo ClientService AccountRepo Mfa Verification.
Local Open Scope Z_scope.

(** ** What verification codes promise *)
(** ** The stored document *)
Definition data_wf (d : verifyCodeData) : bool := utf8_valid (vd_CodeHash d) && utf8_valid (vd_AccountID d).
Definition tried (d : verifyCodeData) : verifyCodeData := mkCodeData (vd_CodeHash d) (vd_Attempts d + 1) (vd_AccountID d).

Lemma code_members_wf d : data_wf d = true → members_wf (code_members d) = true.
Proof. unfold data_wf. rewrite andb_true_iff. intros [Hc Ha]. unfold code_members, members_wf. cbn -[utf8_valid]. by rewrite Hc, Ha. Qed.
Lemma code_table d : lua_table (code_members d) = code_members d.
Proof. apply lua_table_nodup, (bool_decide_unpack _). vm_compute. exact I. Qed.
Lemma code_try d : cjson_encode (jset "attempts" (JNum (vd_Attempts d + 1)) (code_members d)) = marshal_code (tried d).
Proof. reflexivity. Qed.
Lemma verdict_text status account : utf8_valid status = true → utf8_valid account = true →
  jparse (jprint (cjson_norm (JArr [JStr status; JStr account])) "") = Some (JArr [JStr status; JStr account]).
Proof. intros Hs Ha. apply jparse_jprint. cbn -[utf8_valid]. by rewrite Hs, Ha. Qed.

Section spec.
Context {R : Type} `{RedisServer R}.
Implicit Types w : World R.

(** What is under the key of a code: nothing, or such a document with a deadline. *)
Definition code_at (o : option rentry) (s : option (verifyCodeData * Z)) : Prop :=
  match s with
  | None => o = None
  | Some (d, deadline) => o = Some (Entry (RStr (marshal_code d)) (Some deadline)) ∧ data_wf d = true
  end.
Definition code_store w key : Prop := ∃ s, code_at (view w key) s.

(** The verdict on a guess and what it leaves. *)
Inductive outcome : Type := NotFound | Exhausted | Right (account : string) | Wrong.
Definition judge (maxAttempts now defaultTTL : Z) (codeHash : string) (s : option (verifyCodeData * Z)) :
    outcome * option (verifyCodeData * Z) :=
  match s with
  | None => (NotFound, None)
  | Some (d, deadline) =>
      if maxAttempts <=? vd_Attempts d then (Exhausted, s)
      else if bool_decide (vd_CodeHash d = codeHash) then (Right (vd_AccountID d), None)
      else let ttl := (deadline - now + 500) / 1000 in
           (Wrong, Some (tried d, now + (if 0 <? ttl then ttl else defaultTTL) * 1000))
  end.
Definition verdict_of (o : outcome) : string :=
  let text status account := jprint (cjson_norm (JArr [JStr status; JStr account])) "" in
  match o with
  | NotFound => text "not_found" "" | Exhausted => text "exhausted" "" | Wrong => text "mismatch" ""
  | Right account => text "ok" account
  end.

(** The script is the judge. *)
Lemma verify_script_spec key h m ttl now s (st : R) : 0 < ttl → code_at (r_view st now key) s →
  wp (verifyAndIncrementScript key h m ttl now)
     (λ r st', r = Ok (verdict_of (judge m now ttl h s).1) ∧ code_at (r_view st' now key) (judge m now ttl h s).2 ∧
        ∀ k, k ≠ key → r_view st' now k = r_view st now k) st.
Proof.
  intros Httl Hat. unfold verifyAndIncrementScript. apply wp_bind, wp_s_get. intros st1 Hs1.
  destruct s as [[d deadline]|]; cbn [code_at] in Hat; [destruct Hat as [Hat Hwf]|]; rewrite Hat; cbn [str_of].
  2:{ unfold verdict. wp_steps. split_and!; [done|by rewrite Hs1|intros; by rewrite Hs1]. }
  unfold cjson_decode, marshal_code. rewrite (jparse_jobj _ (code_members_wf _ Hwf)), code_table. wp_steps.
  unfold number_of. replace (jget "attempts" (code_members d)) with (Some (JNum (vd_Attempts d))) by reflexivity. wp_steps.
  cbn [judge]. destruct (m <=? vd_Attempts d) eqn:Hm.
  { unfold verdict. wp_steps. split_and!; [done|by rewrite Hs1|intros; by rewrite Hs1]. }
  unfold field_is. replace (jget "code" (code_members d)) with (Some (JStr (vd_CodeHash d))) by reflexivity.
  case_bool_decide.
  { apply wp_bind, wp_s_del. intros st2 Hs2. replace (jget "account_id" (code_members d)) with (Some (JStr (vd_AccountID d))) by reflexivity.
    unfold verdict. wp_steps. split_and!; [done|cbn; by rewrite Hs2, decide_True by done|].
    intros k Hk. by rewrite Hs2, decide_False, Hs1 by done. }
  apply wp_bind, wp_s_ttl. intros st2 Hs2. rewrite Hs1, Hat. rewrite code_try.
  set (t := (deadline - now + 500) / 1000). apply wp_bind.
  assert (∀ px st3, updates now st2 st3 key (Some (Entry (RStr (marshal_code (tried d))) (Some (now + px)))) →
    wp (verdict "mismatch" [JStr ""]) (λ r st', r = Ok (verdict_of Wrong) ∧
      code_at (r_view st' now key) (Some (tried d, now + px)) ∧ ∀ k, k ≠ key → r_view st' now k = r_view st now k) st3) as Hend.
  { intros px st3 Hs3. unfold verdict. wp_steps. split_and!; [done|cbn; by rewrite Hs3, decide_True by done|].
    intros k Hk. by rewrite Hs3, decide_False, Hs2, Hs1 by done. }
  destruct (Z.ltb_spec 0 t); apply wp_s_set; try lia; intros st3 Hs3; by apply Hend.
Qed.

Context `{Lower} (cfg : VerifyCfg) (ct id : string).
#[local] Abbreviation key := (buildCodeKey ct (normalize_identifier id)).
#[local] Abbreviation hash code := (hex_encode (hmac_sha256 (vc_hashPepper cfg) code)).
#[local] Abbreviation verify := (VerifyCode (R := R) cfg ct id).

Definition result_of (o : outcome) : res string :=
  match o with
  | Right account => Ok account
  | NotFound => Err ErrVerificationCodeExpired
  | Exhausted => Err ErrVerificationCodeExhausted
  | Wrong => Err ErrVerificationCodeInvalid
  end.
Definition judged (w : World R) (code : string) (s : option (verifyCodeData * Z)) : outcome * option (verifyCodeData * Z) :=
  judge (vc_maxAttempts cfg) (now_ms w) (trunc_secs (vc_codeTTL cfg)) (hash code) s.

Lemma judge_account m t d h s a s' : (∀ x e, s = Some (x, e) → data_wf x = true) →
  judge m t d h s = (Right a, s') → utf8_valid a = true.
Proof.
  destruct s as [[x e]|]; cbn; [|done]. intros Hwf. specialize (Hwf _ _ eq_refl). unfold data_wf in Hwf.
  apply andb_true_iff in Hwf as [_ Ha]. repeat case_match; congruence.
Qed.

(** A guess is judged, or nobody hears the verdict. *)
Lemma verify_code_wp code w s : 0 < trunc_secs (vc_codeTTL cfg) → vc_hashPepper cfg ≠ "" → code_at (view w key) s →
  wp (verify code) (λ r w', w_now w' = w_now w ∧ (∀ k, k ≠ key → view w' k = view w k) ∧
    ((r = result_of (judged w code s).1 ∧ code_at (view w' key) (judged w code s).2) ∨
     (w_net w ≠ [] ∧ r = Err ErrServiceUnavailable ∧ ∃ s', code_at (view w' key) s' ∧ (s' = s ∨ s' = (judged w code s).2)))) w.
Proof.
  intros Httl Hp Hat. unfold VerifyCode, pepperHash. rewrite bool_decide_false by done. wp_steps.
  assert (∀ x e, s = Some (x, e) → data_wf x = true) as Hwf by (intros x e ->; by destruct Hat).
  apply wp_redis_call_fates.
  - intros net. eapply wp_mono; [by apply verify_script_spec|]. intros r st (->&Hst&Hk). split.
    + cbn [wrap_res]. unfold judged. destruct (judge _ _ _ _ s) as [o s'] eqn:Hj; cbn [fst snd] in *.
      destruct o as [| |a|]; cbn [verdict_of];
        (rewrite verdict_text by first [done|by eapply judge_account; [|exact Hj]]); cbn [all_strs]; eval_tests;
        (split_and!; [done|done|left; by split]).
    + intros Hn. cbn. split_and!; [done|done|right]. split_and!; [done|done|]. eauto.
  - intros net Hn. cbn. split_and!; [done|done|right]. split_and!; [done|done|]. exists s. split; [exact Hat|by left].
Qed.

Lemma wrong_pepper code w r w' : vc_hashPepper cfg = "" → verify code w = (r, w') → r = Err ErrPepper ∧ w' = w.
Proof. intros Hp. unfold VerifyCode, pepperHash. rewrite bool_decide_true by done. cbn. intros [= <- <-]. done. Qed.

(** ** Guessing

    A course of events for one address: guesses, waiting, and whatever else happens away
    from its key. The index counts the guesses that were compared with the code as far as
    the guesser was told. *)
Definition compared (r : res string) : nat :=
  match r with Ok _ => 1 | Err e => if bool_decide (e = ErrVerificationCodeInvalid) then 1 else 0 end.
Inductive guessing : World R → nat → Prop :=
  | guess_stop w : guessing w 0
  | guess_code w code r w1 n : verify code w = (r, w1) → guessing w1 n → guessing w (compared r + n)
  | guess_wait w δ n : 0 <= δ → guessing (tick δ w) n → guessing w n
  | guess_other w A (m : M (World R) A) n : touches (λ k, k ≠ key) m → guessing (m w).2 n → guessing w n.

(** The guesses left. *)
Definition budget (s : option (verifyCodeData * Z)) : nat :=
  match s with Some (d, _) => Z.to_nat (vc_maxAttempts cfg - vd_Attempts d) | None => 0 end.
Lemma judged_budget code w s : (compared (result_of (judged w code s).1) + budget (judged w code s).2 ≤ budget s)%nat.
Proof.
  unfold judged, judge. destruct s as [[d deadline]|]; [|reflexivity].
  destruct (Z.leb_spec (vc_maxAttempts cfg) (vd_Attempts d)); [reflexivity|].
  case_bool_decide; cbn [fst snd result_of compared budget tried vd_Attempts]; eval_tests; lia.
Qed.

Lemma code_at_live w δ s : 0 <= δ → code_at (view w key) s →
  ∃ s', code_at (view (tick δ w) key) s' ∧ (s' = s ∨ s' = None).
Proof.
  intros Hδ Hs. assert (view (tick δ w) key = live (now_ms (tick δ w)) (view w key)) as ->.
  { unfold view. cbn. apply r_view_later. unfold now_ms. cbn. unfold millisecond. div_lia. }
  destruct s as [[d dl]|]; cbn in Hs; [destruct Hs as [-> Hwf]|rewrite Hs; exists None; split; [done|by left]].
  unfold live. case_match; [exists (Some (d, dl)); split; [done|by left]|exists None; split; [done|by right]].
Qed.

(** No more guesses are compared than are left. *)
Lemma guessing_budget w n s : 0 < trunc_secs (vc_codeTTL cfg) → code_at (view w key) s → guessing w n → (n ≤ budget s)%nat.
Proof.
  intros Httl Hs Hn. revert s Hs.
  induction Hn as [w|w code r w1 n Hrun _ IH|w δ n Hδ _ IH|w A m n Hm _ IH]; intros s Hs.
  - lia.
  - destruct (decide (vc_hashPepper cfg = "")) as [Hp|Hp].
    { destruct (wrong_pepper _ _ _ _ Hp Hrun) as [-> ->]. cbn. by apply IH. }
    pose proof (judged_budget code w s).
    destruct (wp_intro _ _ _ _ _ Hrun (verify_code_wp code w s Httl Hp Hs)) as (_&_&[[-> Hat]|(_&->&s'&Hat&Hs')]);
      specialize (IH _ Hat); [lia|].
    destruct Hs' as [-> | ->]; cbn [compared]; rewrite bool_decide_false by done; lia.
  - destruct (code_at_live w δ s Hδ Hs) as (s'&Hs'&[-> | ->]); specialize (IH _ Hs'); cbn [budget] in *; lia.
  - apply IH. destruct (Hm w) as (_&_&Hk). rewrite Hk; [done|]. intros Hne. by apply Hne.
Qed.

(** What an accepted verification code means. When a code is accepted, a document of
    this service was stored for the address, the keyed hash of the code is the stored one,
    fewer wrong guesses than the limit were made, and the account in the answer is the one
    the code was sent for. The document is gone, and whatever is guessed afterwards is
    compared with nothing: the code is accepted once. *)
Theorem verification_code_sound code w acc w' :
  0 < trunc_secs (vc_codeTTL cfg) → code_store w key → verify code w = (Ok acc, w') →
  (∃ d deadline, view w key = Some (Entry (RStr (marshal_code d)) (Some deadline)) ∧ vd_CodeHash d = hash code ∧
     vd_Attempts d < vc_maxAttempts cfg ∧ vd_AccountID d = acc) ∧
  view w' key = None ∧ ∀ n, guessing w' n → n = 0%nat.
Proof.
  intros Httl [s Hs] Hrun. destruct (decide (vc_hashPepper cfg = "")) as [Hp|Hp].
  { by destruct (wrong_pepper _ _ _ _ Hp Hrun). }
  destruct (wp_intro _ _ _ _ _ Hrun (verify_code_wp code w s Httl Hp Hs)) as (_&_&[[Hr Hat]|(_&?&_)]); [|done].
  unfold judged, judge in Hr, Hat. destruct s as [[d deadline]|]; [|done]. destruct Hs as [Hs _].
  destruct (Z.leb_spec (vc_maxAttempts cfg) (vd_Attempts d)); [done|].
  case_bool_decide as Hc; [|done]. cbn in Hr, Hat. injection Hr as ->.
  split_and!; [by exists d, deadline|done|]. intros n Hn. pose proof (guessing_budget w' n None Httl Hat Hn) as Hb. cbn in Hb. lia.
Qed.

(** C21: guessing a verification code is bounded. Whatever is guessed, however long the
    guesser waits, whatever the network does and whatever else the server does away from
    the key, no more guesses are compared with a stored code than the limit allows. *)
Theorem verification_guesses_bounded w n s :
  0 < trunc_secs (vc_codeTTL cfg) → code_at (view w key) s → (∀ d e, s = Some (d, e) → 0 <= vd_Attempts d) →
  guessing w n → (n ≤ Z.to_nat (vc_maxAttempts cfg))%nat.
Proof.
  intros Httl Hs Hpos Hn. pose proof (guessing_budget w n s Httl Hs Hn) as Hb.
  destruct s as [[d e]|]; cbn [budget] in Hb; [|lia]. specialize (Hpos d e eq_refl). lia.
Qed.
End spec.

(** ** The bytes of a hash *)
Definition word32 (x : N) : Prop := (x < 4294967296)%N.
Lemma w32_word x : word32 (w32 x).
Proof. unfold word32, w32. change 4294967295%N with (N.ones 32). rewrite N.land_ones. by apply N.mod_lt. Qed.
Lemma sha_blocks_words f st l : Forall word32 st → Forall word32 (sha_blocks f st l).
Proof.
  revert st l. induction f as [|f IH]; intros st l Hst; cbn [sha_blocks]; [done|]. destruct l; [done|]. apply IH.
  unfold sha_block. generalize (fold_left sha_round (zip sha_k (rev (schedule 48 (rev (words (take 64 (n :: l))))))) st).
  induction st as [|x st IHst]; intros [|y u]; cbn; constructor; [apply w32_word|]. apply IHst. by inversion Hst.
Qed.
Lemma sha256_bytes s : Forall (λ x, x < 256)%N (sha256 s).
Proof.
  unfold sha256. apply Forall_concat, Forall_map. eapply Forall_impl; [apply sha_blocks_words; by repeat constructor|].
  assert (∀ y, N.land y 255 < 256)%N as Hb by (intros y; change 255%N with (N.ones 8); rewrite N.land_ones; by apply N.mod_lt).
  intros w Hw. unfold word_bytes. repeat constructor; [|apply Hb..].
  rewrite N.shiftr_div_pow2. apply N.Div0.div_lt_upper_bound. exact Hw.
Qed.

(** ** Sending *)
Section sending.
Context {R : Type} `{RedisServer R} `{Lower} (cfg : VerifyCfg) (emailSvc smsSvc : Sender R).
Implicit Types w : World R.

(** The channel of a type of address. *)
Definition sender_for (credType : string) : option (Sender R) :=
  if bool_decide (credType = "email") then Some emailSvc else if bool_decide (credType = "phone") then Some smsSvc else None.

Lemma deliver_ok ct ident code key w w' : deliver_code emailSvc smsSvc ct ident code key w = (Ok tt, w') →
  ∃ s, sender_for ct = Some s ∧ send_message s ident code w = (Ok tt, w').
Proof.
  unfold deliver_code, sender_for, bind, try, ignore, fail. destruct (bool_decide (ct = "email")); [|destruct (bool_decide (ct = "phone"))].
  - destruct (send_message emailSvc ident code w) as [[[]|e] w1] eqn:E; [|done]. intros [= <-]. eauto.
  - destruct (send_message smsSvc ident code w) as [[[]|e] w1] eqn:E; [|done]. intros [= <-]. eauto.
  - done.
Qed.

Lemma cooldown_not_code ct ident : buildVerifyCooldownKey ct ident ≠ buildCodeKey ct ident.
Proof. by unfold buildVerifyCooldownKey, buildCodeKey, verifyCooldownPrefix, verifyCodeKeyPrefix. Qed.

(** What is stored for the code that went out. *)
Definition sent_code (w0 w : World R) ct ident accountID : Prop :=
  ∃ s code w1, sender_for ct = Some s ∧ send_message s ident code w1 = (Ok tt, w) ∧
    code_at (view w (buildCodeKey ct ident))
      (Some (mkCodeData (hex_encode (hmac_sha256 (vc_hashPepper cfg) code)) 0 accountID, now_ms w0 + r_px (vc_codeTTL cfg))) ∧
    vc_hashPepper cfg ≠ "" ∧ w_now w = w_now w0.

Lemma send_code_wp ct id accountID w : 0 < vc_codeTTL cfg → utf8_valid accountID = true →
  wp (SendCode cfg emailSvc smsSvc ct id accountID)
     (λ r w', r = Ok tt → sent_code w w' ct (normalize_identifier id) accountID) w.
Proof.
  intros Httl Hu. unfold SendCode. apply wp_bind, wp_try, (wp_touched (λ _, False)); [apply touches_Exists|].
  intros r1 w1 _ Hn1 _. destruct r1 as [[]|]; [done| |done].
  apply wp_bind, wp_wrap, (wp_touched (λ _, False)); [unfold generateNumericCode; touch|].
  intros [code|] w2 _ Hn2 _; [cbn [wrap_res]|done].
  unfold pepperHash. case_bool_decide as Hp; [done|]. apply wp_bind, wp_lift_res. cbn beta iota.
  apply wp_bind, wp_wrap, wp_Set_any; [done|]. intros [[]|] w3 Hn3 _ Hv3; [cbn [wrap_res]; specialize (Hv3 eq_refl)|done].
  apply wp_bind, wp_ignore, (wp_touched (λ k, k = buildVerifyCooldownKey ct (normalize_identifier id)));
    [by apply touches_Set|]. intros r4 w4 _ Hn4 Hv4.
  unfold wp. destruct (deliver_code _ _ _ _ _ _ w4) as [[[]|e] w5] eqn:E; [intros _|done]. cbn [snd].
  destruct (deliver_ok _ _ _ _ _ _ E) as (s&Hs&Hsend). exists s, code, w4.
  destruct (send_touches s (normalize_identifier id) code w4) as (Hn5&_&Hv5). rewrite Hsend in Hn5, Hv5. cbn [snd] in *.
  split_and!; [done|done| |done|congruence]. cbn [code_at]. rewrite Hv5, Hv4, Hv3, decide_True; [|done| |tauto].
  - unfold now_ms. rewrite Hn2, Hn1. split; [done|]. unfold data_wf. cbn [vd_CodeHash vd_AccountID].
    rewrite Hu, clean_utf8; [done|]. apply hex_encode_clean, sha256_bytes.
  - intros He. by eapply cooldown_not_code.
Qed.

(** C23: a verification code works. When a code was sent, its stored life is the configured
    one, and the code in the message, entered for the same address while it lives and
    with Redis reachable, is accepted and names the account it was sent for. It is gone then:
    no code is accepted for this address any more, at any later time and on any network,
    until another one is sent. *)
Theorem verification_round_trip ct id accountID w w' :
  0 < trunc_secs (vc_codeTTL cfg) → 0 < vc_maxAttempts cfg → utf8_valid accountID = true →
  SendCode cfg emailSvc smsSvc ct id accountID w = (Ok tt, w') →
  ∃ s code w1, sender_for ct = Some s ∧ send_message s (normalize_identifier id) code w1 = (Ok tt, w') ∧
    ∀ δ, 0 <= δ → δ + 2 * millisecond <= vc_codeTTL cfg →
      ∃ w3, VerifyCode cfg ct id code (put_net [] (tick δ w')) = (Ok accountID, w3) ∧
        ∀ δ' net again, 0 <= δ' → is_ok (VerifyCode cfg ct id again (put_net net (tick δ' w3))).1 = false.
Proof.
  intros Httl Hmax Hu Hrun. assert (0 < vc_codeTTL cfg) as Hpos.
  { unfold trunc_secs in Httl. destruct (Z.lt_ge_cases 0 (vc_codeTTL cfg)); [done|].
    assert (Z.quot (vc_codeTTL cfg) second <= 0); [|lia]. unfold second. apply Z.quot_le_upper_bound; lia. }
  destruct (wp_intro _ _ _ _ _ Hrun (send_code_wp ct id accountID w Hpos Hu) eq_refl) as (s&code&w1&Hs&Hsend&Hat&Hp&Hn).
  exists s, code, w1. split_and!; [done..|]. intros δ Hδ Hlate. set (w2 := put_net [] (tick δ w')).
  assert (code_at (view w2 (buildCodeKey ct (normalize_identifier id)))
    (Some (mkCodeData (hex_encode (hmac_sha256 (vc_hashPepper cfg) code)) 0 accountID, now_ms w + r_px (vc_codeTTL cfg)))) as Hat2.
  { destruct Hat as [Hv Hwf]. split; [|done].
    assert (view w2 (buildCodeKey ct (normalize_identifier id)) =
      live (now_ms w2) (view w' (buildCodeKey ct (normalize_identifier id)))) as ->
      by (apply r_view_later; unfold now_ms; cbn; unfold millisecond; div_lia).
    rewrite Hv. apply live_before.
    rewrite r_px_exact by done. unfold now_ms, w2. cbn. rewrite Hn. unfold millisecond in *. div_lia. }
  destruct (wp_eq _ _ _ (verify_code_wp cfg ct id code w2 _ Httl Hp Hat2)) as (r&w3&->&_&_&[[-> Hgone]|(Hne&_)]); [|by destruct Hne].
  assert (judged cfg w2 code (Some (mkCodeData (hex_encode (hmac_sha256 (vc_hashPepper cfg) code)) 0 accountID, now_ms w + r_px (vc_codeTTL cfg)))
    = (Right accountID, None)) as Hright.
  { unfold judged, judge. cbn [vd_Attempts vd_CodeHash vd_AccountID]. by rewrite (proj2 (Z.leb_gt _ _)), bool_decide_true by done. }
  rewrite Hright in *. exists w3. split; [done|]. intros δ' net again Hδ'.
  assert (code_at (view (put_net net (tick δ' w3)) (buildCodeKey ct (normalize_identifier id))) None) as Hnone
    by (refine (eq_trans (r_view_later _ (now_ms w3) (now_ms (tick δ' w3)) _ _) _);
        [unfold now_ms; cbn; unfold millisecond; div_lia|change (r_view (w_redis (tick δ' w3)) (now_ms w3)) with (view w3); by rewrite Hgone]).
  destruct (wp_eq _ _ _ (verify_code_wp cfg ct id again _ _ Httl Hp Hnone)) as (r&w4&->&_&_&[[-> _]|(_&->&_)]); done.
Qed.
End sending.

(** ** Backup codes and stored secrets *)
Lemma sort_by_perm {A} (le : A → A → bool) l : sort_by le l ≡ₚ l.
Proof.
  induction l as [|x l IH]; [done|]. cbn [sort_by foldr]. change (foldr _ [] l) with (sort_by le l). rewrite <-IH at 2.
  generalize (sort_by le l) as m. induction m as [|y m IHm]; cbn; [done|]. destruct (le x y); [done|]. rewrite IHm. apply Permutation_swap.
Qed.
Lemma filter_perm {A} (p : A → bool) l m : l ≡ₚ m → List.filter p l ≡ₚ List.filter p m.
Proof.
  induction 1 as [|x l m _ IH|x y l|l m k _ IH1 _ IH2]; cbn; [done| | |by etrans].
  - destruct (p x); by rewrite ?IH.
  - destruct (p x), (p y); try done. apply Permutation_swap.
Qed.
Lemma filter_none {A} (p : A → bool) l : (∀ x, x ∈ l → p x = false) → List.filter p l = [].
Proof.
  induction l as [|x l IH]; intros Hl; cbn; [done|]. rewrite (Hl x) by apply list_elem_of_here. apply IH. intros y Hy. by apply Hl, list_elem_of_further.
Qed.
Lemma rows_perm {A} (m : gmap string A) k x : m !! k = Some x → map snd (map_to_list m) ≡ₚ x :: map snd (map_to_list (delete k m)).
Proof. intros Hk. by rewrite <-(map_to_list_delete m k x Hk). Qed.
Lemma rows_insert {A} (m : gmap string A) k x : map snd (map_to_list (<[k := x]> m)) ≡ₚ x :: map snd (map_to_list (delete k m)).
Proof. rewrite <-insert_delete_eq, map_to_list_insert by apply lookup_delete_eq. done. Qed.

Section codes.
Context {R : Type} `{Postgres} `{Bcrypt}.

(** A row is stored under its own identifier. *)
Definition keyed (p : People) : Prop := map_Forall (λ k c, cr_ID c = k) (t_credentials p).
(** The backup codes of an account that a code opens. *)
Definition open_codes (p : People) (accountID code : string) : list Credential :=
  List.filter (λ c, usable c && bcrypt_compare (cr_Value c) code) (credentials_of p accountID [CredentialTypeBackupCode]).

Lemma change_one p k c f : keyed p → t_credentials p !! k = Some c → live_credential c = true →
  change_credentials (λ d, bool_decide (cr_ID d = k) && live_credential d) f p = (1, set_credentials (<[k := f c]> (t_credentials p)) p).
Proof.
  intros Hkey Hk Hlive. pose proof (Hkey _ _ Hk) as Hid. unfold change_credentials. f_equal.
  - unfold rows_where. rewrite (filter_perm _ _ _ (rows_perm _ _ _ Hk)). cbn [List.filter]. rewrite Hlive, bool_decide_true by done. cbn [andb].
    enough (List.filter (λ d, bool_decide (cr_ID d = k) && live_credential d) (map snd (map_to_list (delete k (t_credentials p)))) = []) as -> by done.
    apply filter_none. intros d Hd. apply list_elem_of_fmap in Hd as ([k' d']&->&Hd).
    apply elem_of_map_to_list, lookup_delete_Some in Hd as [Hne Hd]. cbn. rewrite bool_decide_false; [done|]. by rewrite (Hkey _ _ Hd).
  - unfold set_credentials. f_equal. apply map_eq. intros k'. rewrite lookup_fmap. destruct (decide (k' = k)) as [->|Hne].
    + rewrite lookup_insert_eq, Hk. cbn. by rewrite bool_decide_true, Hlive.
    + rewrite lookup_insert_ne by done. destruct (t_credentials p !! k') as [d|] eqn:Hd; cbn; [|done].
      rewrite bool_decide_false; [done|]. by rewrite (Hkey _ _ Hd).
Qed.
Lemma open_code_row p a code c : keyed p → c ∈ open_codes p a code →
  t_credentials p !! cr_ID c = Some c ∧ live_credential c = true ∧ cr_AccountID c = a ∧ cr_Type c = CredentialTypeBackupCode.
Proof.
  intros Hkey [Hin _]%list_elem_of_In%filter_In. apply list_elem_of_In in Hin. unfold credentials_of, primary_first in Hin.
  rewrite sort_by_perm in Hin. apply list_elem_of_In, filter_In in Hin as [Hin Hsel]. apply list_elem_of_In, list_elem_of_fmap in Hin as ([k c']&->&Hin).
  apply elem_of_map_to_list in Hin. cbn in *. rewrite !andb_true_iff, !bool_decide_eq_true, list_elem_of_singleton in Hsel.
  rewrite (Hkey _ _ Hin). naive_solver.
Qed.
Lemma open_codes_spent p a code c d u : keyed p → c ∈ open_codes p a code →
  length (open_codes (set_credentials (<[cr_ID c := erased d u c]> (t_credentials p)) p) a code) = pred (length (open_codes p a code)).
Proof.
  intros Hkey Hc. destruct (open_code_row _ _ _ _ Hkey Hc) as (Hk&_). apply list_elem_of_In, filter_In in Hc as [Hin Hopen].
  apply list_elem_of_In in Hin. unfold open_codes, credentials_of, primary_first, rows_where in *. rewrite sort_by_perm in Hin.
  apply list_elem_of_In, filter_In in Hin as [_ Hsel]. cbn [t_credentials set_credentials].
  rewrite (filter_perm _ _ _ (sort_by_perm _ _)), (filter_perm _ _ _ (filter_perm _ _ _ (rows_insert _ _ _))).
  rewrite (filter_perm _ (sort_by _ _) _ (sort_by_perm _ _)), (filter_perm _ _ _ (filter_perm _ _ _ (rows_perm _ _ _ Hk))).
  cbn [List.filter]. rewrite Hsel. cbn [List.filter]. rewrite Hopen. unfold live_credential at 1. cbn. by rewrite !andb_false_r.
Qed.
Lemma keyed_insert p c d u : keyed p → keyed (set_credentials (<[cr_ID c := erased d u c]> (t_credentials p)) p).
Proof. intros Hkey. by apply map_Forall_insert_2. Qed.

(** The people of the tables, with a database that answers and is used by nobody else. *)
Definition people_of (a : App R) : People := t_people (db_tables (ap_db a)).
Definition quiet_db (a : App R) : Prop := db_fates (ap_db a) = [] ∧ db_others (ap_db a) = [].

Lemma verify_backup_wp acc code a : quiet_db a → keyed (people_of a) →
  wp (VerifyBackupCode acc code) (λ r a', quiet_db a' ∧ keyed (people_of a') ∧
    r = Ok (bool_decide (open_codes (people_of a) acc code ≠ [])) ∧
    length (open_codes (people_of a') acc code) = pred (length (open_codes (people_of a) acc code)) ∧
    (people_of a' = people_of a ∨ ∃ c now, c ∈ open_codes (people_of a) acc code ∧
       people_of a' = set_credentials (<[cr_ID c := erased now now c]> (t_credentials (people_of a))) (people_of a))) a.
Proof.
  destruct a as [w [b t ids fates others]]. intros [Hf Ho] Hkey. unfold people_of in *. cbn in Hf, Ho, Hkey. subst. cbn [ap_db db_tables].
  unfold VerifyBackupCode. apply wp_tx, wp_bind, wp_wrap. unfold FindByAccountAndType. apply wp_wrap, wp_stmt_alone. cbn [fst snd wrap_res].
  unfold use_code. fold (open_codes (t_people t) acc code). destruct (open_codes (t_people t) acc code) as [|c l] eqn:Hl.
  - wp_step. cbn. rewrite Hl. by repeat split; auto.
  - assert (c ∈ open_codes (t_people t) acc code) as Hc by (rewrite Hl; apply list_elem_of_here).
    destruct (open_code_row _ _ _ _ Hkey Hc) as (Hk&Hlive&_). apply wp_bind, wp_gets, wp_bind, wp_wrap.
    unfold SoftDeleteCredential, erase_credentials. apply wp_bind, wp_bind, wp_gets, wp_wrap. apply wp_stmt_alone.
    rewrite (change_one _ _ _ _ Hkey Hk Hlive). cbn. wp_steps. cbn.
    pose proof (open_codes_spent (t_people t) acc code c (pg_round (w_now w)) (pg_round (w_now w)) Hkey Hc) as Hlen. rewrite Hl in Hlen.
    split; [done|]. split; [done|]. split; [by apply keyed_insert|].
    split; [done|]. split; [exact Hlen|]. right. eexists c, _. split; [apply list_elem_of_here|done].
Qed.

(** C22: a backup code works once. With the database to itself, a code is accepted exactly
    when the account has an unused one it opens; one such credential is then erased and
    nothing else changes, and as many remain as there were less one. So a code handed out
    once is refused at every later time. *)
Theorem backup_code_single_use acc code a : quiet_db a → keyed (people_of a) →
  ∃ a', VerifyBackupCode acc code a = (Ok (bool_decide (open_codes (people_of a) acc code ≠ [])), a') ∧
    (people_of a' = people_of a ∨ ∃ c now, c ∈ open_codes (people_of a) acc code ∧
       people_of a' = set_credentials (<[cr_ID c := erased now now c]> (t_credentials (people_of a))) (people_of a)) ∧
    length (open_codes (people_of a') acc code) = pred (length (open_codes (people_of a) acc code)) ∧
    (length (open_codes (people_of a) acc code) = 1%nat → ∀ w : World R, (VerifyBackupCode (R := R) acc code (mkApp w (ap_db a'))).1 = Ok false).
Proof.
  intros Hq Hkey. destruct (wp_eq _ _ _ (verify_backup_wp acc code a Hq Hkey)) as (r&a'&Hrun&Hq'&Hkey'&->&Hlen&Hor).
  exists a'. split_and!; [exact Hrun|exact Hor|exact Hlen|]. intros Hone w. rewrite Hone in Hlen. cbn in Hlen.
  destruct (wp_eq _ _ _ (verify_backup_wp acc code (mkApp w (ap_db a')) Hq' Hkey')) as (r&a2&->&_&_&->&_). cbn [fst].
  apply nil_length_inv in Hlen. change (people_of (mkApp w (ap_db a'))) with (people_of a'). by rewrite Hlen.
Qed.
End codes.

(** ** The stored secret *)
Lemma unhex_char n : (n < 16)%N → is_hex (hex_char n) = true ∧ unhex (hex_char n) = n.
Proof. intros Hn. do 16 (destruct n as [|n] using N.peano_ind; [done|clear IHn]). lia. Qed.
Lemma hex_decode_encode l : Forall (λ x, x < 256)%N l → hex_decode (hex_encode l) = Some l.
Proof.
  induction 1 as [|x l Hx Hl IH]; [done|]. cbn [hex_encode hex_decode].
  assert (x / 16 < 16)%N as H1 by (apply N.Div0.div_lt_upper_bound; lia). assert (x mod 16 < 16)%N as H2 by (by apply N.mod_lt).
  destruct (unhex_char _ H1) as [-> ->], (unhex_char _ H2) as [-> ->]. cbn [andb]. rewrite IH. cbn.
  do 2 f_equal. rewrite N.mul_comm. symmetry. apply N.div_mod. done.
Qed.
