(* ===== verification/PasswordResetProps.v ===== *)
(** * What a password reset means *)
From S2P Require Import Prelude GoTime Json LuaPattern Hash Url Redis World Cache Footprint TokenDomain Blacklist TokenService TokenSpecs TokenProps AccessProps Session SessionService SessionSpecs SessionProps ServiceFootprints GoStrings AccountDomain Credential OAuthDomain Database ClientRepo AccountRepo Mfa Scan Site StateFootprints AccountService AuthMiddleware Verification AuthCore AuthLogin AuthSpecs AuthProps VerifyProps PasswordReset.
Local Open Scope Z_scope.

(** ** Counting in the text of the document *)
Lemma string_cut p s r : strip_prefix p s = Some r ↔ s = p +:+ r.
Proof.
  revert s. induction p as [|a p IH]; intros [|b s]; cbn; try naive_solver.
  case_bool_decide as Hab; [subst; rewrite IH; split; [by intros ->|by intros [= ->]]|]. split; [done|by intros [= -> ->]].
Qed.
Lemma gsub_skip p r a s : gsub p r (String.length a) (a +:+ s) = gsub p r 0 s.
Proof. induction a as [|c a IH]; cbn; [by destruct s|exact IH]. Qed.
Lemma gsub_first p r s rest : p ≠ "" → lua_match Some p s = Some rest →
  ∃ pre, s = pre +:+ p +:+ rest ∧ gsub p r 0 s = pre +:+ r +:+ gsub p r 0 rest.
Proof.
  intros Hp. induction s as [|c s IH].
  - cbn. destruct p; [done|]. cbn. done.
  - cbn [lua_match gsub]. destruct (strip_prefix p (String c s)) as [t|] eqn:Hs; cbn [mbind option_bind].
    + intros [= ->]. exists "". apply string_cut in Hs as Heq. split; [exact Heq|]. destruct p as [|x p]; [done|]. injection Heq as -> ->.
      cbn [String.length String.append]. rewrite Nat.sub_0_r || rewrite Nat.sub_succ, Nat.sub_0_r. by rewrite gsub_skip.
    + intros Hm. destruct (IH Hm) as (pre&->&Hg). exists (String c pre). split; [done|]. cbn. by rewrite Hg.
Qed.
Lemma gsub_none p r s : lua_match Some p s = None → gsub p r 0 s = s.
Proof.
  induction s as [|c s IH]; [done|]. cbn [lua_match gsub]. destruct (strip_prefix p (String c s)); cbn [mbind option_bind]; [done|].
  intros Hm. by rewrite IH.
Qed.

(** The documents under the keys of reset tokens. *)
Definition reset_wf (d : passwordResetData) : Prop :=
  utf8_valid (rd_AccountID d) && utf8_valid (rd_Email d) && utf8_valid (rd_Username d) = true ∧ 0 <= rd_Attempts d < 2 ^ 62.
Definition retried (d : passwordResetData) : passwordResetData :=
  mkResetData (rd_AccountID d) (rd_Email d) (rd_Username d) (rd_Attempts d + 1).
#[local] Abbreviation front d := ([("account_id", JStr (rd_AccountID d)); ("email", JStr (rd_Email d))] ++ omit_str "username" (rd_Username d)).
Lemma reset_text d : marshal_reset d = String "{" (jmembers (front d ++ [("attempts", JNum (rd_Attempts d))]) "").
Proof. unfold marshal_reset, jobj. rewrite jprint_obj. unfold reset_members. by rewrite app_assoc. Qed.
Lemma front_skippable d : forallb (skippable "attempts") (front d) = true.
Proof. unfold omit_str. by destruct (rd_Username d). Qed.
Lemma last_member (l : list (string * string)) : ∃ h, ∀ k j rest,
  jmembers (((λ x, (x.1, JStr x.2)) <$> l) ++ [(k, j)]) rest = h +:+ jmembers [(k, j)] rest.
Proof.
  induction l as [|[k v] l [h IH]]; [by exists ""|].
  exists (jquote k (String ":" (jquote v (String "," h)))). intros k' j rest. cbn [fmap list_fmap app fst snd].
  assert (∀ a b c, jquote a b +:+ c = jquote a (b +:+ c)) as Hq by (intros; unfold jquote; cbn; by rewrite append_assoc).
  rewrite Hq. cbn [String.append]. rewrite Hq. cbn [String.append]. rewrite <-IH. by destruct l.
Qed.
Lemma reset_front d : ∃ h, ∀ n, String "{" (jmembers (front d ++ [("attempts", JNum n)]) "") = h +:+ num_member "attempts" +:+ dec n +:+ "}".
Proof.
  destruct (last_member ([("account_id", rd_AccountID d); ("email", rd_Email d)] ++
    (if bool_decide (rd_Username d = "") then [] else [("username", rd_Username d)]))) as [h Hh].
  exists (String "{" h). intros n. cbn [String.append]. f_equal. transitivity (h +:+ jmembers [("attempts", JNum n)] ""); [|done].
  rewrite <-Hh. unfold omit_str. by destruct (rd_Username d).
Qed.
Lemma lua_match_here cap p r x : cap r = Some x → lua_match cap p (p +:+ r) = Some x.
Proof. intros Hc. pose proof (strip_prefix_app p r) as Hp. destruct (p +:+ r) eqn:He; cbn [lua_match]; rewrite Hp; cbn; by rewrite Hc. Qed.
Lemma reset_attempts d : reset_wf d → attempts_of (marshal_reset d) = rd_Attempts d.
Proof.
  intros [_ Hn]. unfold attempts_of, match_num. rewrite reset_text. unfold num_member. rewrite skip_char by done.
  rewrite skip_members; [|done|apply front_skippable|done].
  change (jmembers [("attempts", JNum (rd_Attempts d))] "") with
    (String dquote ("attempts" +:+ String dquote (String ":" "")) +:+ (dec (rd_Attempts d) +:+ "}")).
  rewrite (lua_match_here _ _ _ (dec (rd_Attempts d))) by (by apply take_digits_dec; [lia|]).
  cbn. rewrite parse_int_dec by lia. done.
Qed.
Lemma append_inj_r (a b c : string) : a +:+ c = b +:+ c → a = b.
Proof.
  revert b. induction a as [|x a IH]; intros [|y b] Heq; [done|..|].
  - apply (f_equal String.length) in Heq. cbn in Heq. rewrite Json.length_append in Heq. lia.
  - apply (f_equal String.length) in Heq. cbn in Heq. rewrite Json.length_append in Heq. lia.
  - injection Heq as -> Heq. f_equal. by apply IH.
Qed.
(** The script rewrites the count and nothing else. *)
Lemma reset_counted d : reset_wf d → counted (marshal_reset d) = marshal_reset (retried d).
Proof.
  intros Hwf. unfold counted. rewrite (reset_attempts d Hwf). destruct Hwf as [_ Hn].
  set (p := num_member "attempts" +:+ dec (rd_Attempts d)). set (r := num_member "attempts" +:+ dec (rd_Attempts d + 1)).
  assert (lua_match Some p (marshal_reset d) = Some "}") as Hm.
  { rewrite reset_text. subst p. change (num_member "attempts" +:+ dec (rd_Attempts d)) with
      (String dquote ("attempts" +:+ String dquote (String ":" (dec (rd_Attempts d))))). rewrite skip_char by done.
    rewrite skip_members; [|done|apply front_skippable|done].
    change (jmembers [("attempts", JNum (rd_Attempts d))] "") with
      (num_member "attempts" +:+ (dec (rd_Attempts d) +:+ "}")). rewrite <-append_assoc. by apply lua_match_here. }
  destruct (gsub_first p r _ _ ltac:(done) Hm) as (pre&Heq&->). destruct (reset_front d) as [h Hh].
  rewrite (reset_text (retried d)). change (front (retried d)) with (front d). cbn [retried rd_Attempts]. rewrite Hh.
  rewrite reset_text, Hh in Heq. subst p r. rewrite !append_assoc in *.
  assert (pre = h) as -> by (rewrite <-!append_assoc in Heq; symmetry in Heq; by do 3 apply append_inj_r in Heq). done.
Qed.
Lemma reset_read d : reset_wf d → unmarshal_reset (marshal_reset d) = Some d.
Proof.
  intros [Hu Hn]. rewrite !andb_true_iff in Hu. destruct Hu as [[Ha He] Hun]. unfold unmarshal_reset, marshal_reset.
  rewrite jparse_jobj.
  - unfold reset_members, omit_str. destruct d as [a e u n]. cbn in *. destruct u; done.
  - unfold reset_members, omit_str. destruct d as [a e u n]. cbn [rd_AccountID rd_Email rd_Username rd_Attempts] in *.
    destruct u; cbn -[utf8_valid Z.pow]; rewrite ?Ha, ?He, ?Hun; reflexivity.
Qed.

Definition reset_at (o : option rentry) (s : option (passwordResetData * Z)) : Prop :=
  match s with None => o = None | Some (d, deadline) => o = Some (Entry (RStr (marshal_reset d)) (Some deadline)) ∧ reset_wf d end.
(** The verdict on a token and what it leaves. *)
Definition weigh (maxAttempts ttl now : Z) (s : option (passwordResetData * Z)) : reset_reply * option (passwordResetData * Z) :=
  match s with
  | None => (NoToken, None)
  | Some (d, _) => if maxAttempts <=? rd_Attempts d then (TriedOut, None)
                   else (Counted (marshal_reset (retried d)), Some (retried d, now + ttl * 1000))
  end.
Lemma retried_wf d m : reset_wf d → (m <=? rd_Attempts d) = false → m < 2 ^ 62 → reset_wf (retried d).
Proof. intros [Hu Hn] Hm%Z.leb_gt Hb. split; [exact Hu|]. cbn [retried rd_Attempts]. lia. Qed.

Section script.
Context {R : Type} `{RedisServer R}.
Lemma admit_script_spec key m ttl now s (st : R) : 0 < ttl → m < 2 ^ 62 → reset_at (r_view st now key) s →
  wp (checkAndIncrementAttemptsScript key m ttl now)
     (λ r st', r = Ok (weigh m ttl now s).1 ∧ reset_at (r_view st' now key) (weigh m ttl now s).2 ∧
        ∀ k, k ≠ key → r_view st' now k = r_view st now k) st.
Proof.
  intros Httl Hm Hat. unfold checkAndIncrementAttemptsScript. apply wp_bind, wp_s_get. intros st1 Hs1.
  destruct s as [[d e]|]; cbn [reset_at] in Hat.
  - destruct Hat as [Hat Hwf]. rewrite Hat. cbn [str_of re_val]. rewrite (reset_attempts d Hwf). cbn [weigh].
    destruct (m <=? rd_Attempts d) eqn:Hle.
    + apply wp_bind, wp_s_del. intros st2 Hs2. apply wp_ret. split_and!; [done|cbn; by rewrite Hs2, decide_True by done|].
      intros k Hk. rewrite Hs2, decide_False by done. apply Hs1.
    + rewrite (reset_counted d Hwf). apply wp_bind, wp_s_set; [lia|]. intros st2 Hs2. apply wp_ret. split_and!; [done| |].
      * cbn [fst snd reset_at]. rewrite Hs2, decide_True by done. split; [done|]. by eapply retried_wf.
      * intros k Hk. rewrite Hs2, decide_False by done. apply Hs1.
  - rewrite Hat. cbn [str_of]. apply wp_ret. cbn. split_and!; [done|by rewrite Hs1|intros; by rewrite Hs1].
Qed.
End script.

Section reset.
Context {R : Type} `{ScanServer R} `{Postgres} `{Argon2} `{Unicode} `{Lower}.
Context (cfg : PasswordResetCfg) (tcfg : TokenCfg) (tr : option (TokenRevoker R)).
Implicit Types st : Site R.
#[local] Abbreviation away key := (λ k : string, k ≠ key).

Lemma try_token_inv key st data st' s : 0 < trunc_secs (pc_tokenTTL cfg) → pc_maxAttempts cfg < 2 ^ 62 →
  reset_at (view (si_world st) key) s → try_token cfg key st = (Ok data, st') →
  si_db st' = si_db st ∧ w_now (si_world st') = w_now (si_world st) ∧
  ∃ d e, s = Some (d, e) ∧ rd_Attempts d < pc_maxAttempts cfg ∧ data = retried d.
Proof.
  intros Httl Hmax Hat Hrun. unfold try_token in Hrun. inv_step Hrun. apply at_world_inv in Hr as (w&Hcall&->).
  destruct r as [[| |t]|e]; [discriminate Hrun..| |discriminate Hrun].
  assert (wp (redis_call (checkAndIncrementAttemptsScript key (pc_maxAttempts cfg) (trunc_secs (pc_tokenTTL cfg))))
    (λ r w', w_now w' = w_now (si_world st) ∧ ∀ t, r = Ok (Counted t) → (weigh (pc_maxAttempts cfg) (trunc_secs (pc_tokenTTL cfg)) (now_ms (si_world st)) s).1 = Counted t)
    (si_world st)) as Hwp.
  { apply wp_redis_call_fates; [|done]. intros net. eapply wp_mono; [by apply admit_script_spec|].
    intros r st1 (->&_&_). split; [|done]. split; [done|]. by intros t' [= ->]. }
  destruct (wp_intro _ _ _ _ _ Hcall Hwp) as [Hn Ht]. specialize (Ht t eq_refl). unfold weigh in Ht.
  destruct s as [[d e]|]; [|done]. destruct Hat as [_ Hwf]. destruct (_ <=? _) eqn:Hle; [done|]. injection Ht as <-.
  rewrite (reset_read (retried d)) in Hrun by (by eapply retried_wf). inv_step Hrun. subst. split; [done|]. split; [exact Hn|].
  exists d, e. apply Z.leb_gt in Hle. by split_and!.
Qed.

Lemma touches_clear_logins u : touches (under attempt_family) (ClearLoginRateLimitsByUsername (R := R) u).
Proof.
  unfold ClearLoginRateLimitsByUsername. apply touches_bind.
  - apply touches_wrap. eapply touches_mono; [apply touches_scan_loop|].
    + intros acc keys. unfold clear_page. case_bool_decide; [apply touches_ret|]. apply touches_bind; [|intros; apply touches_ret].
      apply touches_try, touches_Del, Forall_forall. done.
    + intros k Hk. apply (r_match_head "login_attempts:" (":" +:+ to_lower u)) in Hk as [mid ->]; [|done]. by apply under_intro.
  - intros [[e|] ?]; touch.
Qed.

(** The key of a reset token is nobody else's. *)
Lemma reset_away ps hash k : forallb (λ p, apart p passwordResetTokenKeyPrefix) ps = true → under ps k → k ≠ reset_token_key hash.
Proof.
  intros Hps Hu ->. refine (under_apart ps [passwordResetTokenKeyPrefix] _ _ Hu _); [|by apply under_intro].
  rewrite forallb_forall in Hps |- *. intros p Hp. cbn. by rewrite Hps.
Qed.
Lemma reset_tail busy ctx data st job st' hash :
  (clear_limits cfg data ;; ignore (at_world (RevokeAccountTokens tcfg ctx (rd_AccountID data))) ;;
   (if busy : bool then revoke_job tr (rd_AccountID data) else ret tt) ;;
   login_audit ActionPasswordReset (Some (rd_AccountID data)) [("account_id", rd_AccountID data); ("ip", ctx_ip ctx); ("user_agent", ctx_ua ctx)] ;;
   ret (if busy then None else Some (rd_AccountID data))) st = (Ok job, st') →
  view (si_world st') (reset_token_key hash) = view (si_world st) (reset_token_key hash) ∧ job = (if busy then None else Some (rd_AccountID data)).
Proof.
  intros Hrun. inv_step Hrun. inv_step Hrun. inv_step Hrun. inv_step Hrun. apply (f_equal fst) in Hrun as Hj. apply (f_equal snd) in Hrun as Hs.
  cbn in Hj, Hs. injection Hj as <-. subst st'. split; [|done].
  assert (∀ ps w w', stays (under ps) w w' → forallb (λ p, apart p passwordResetTokenKeyPrefix) ps = true →
    view w' (reset_token_key hash) = view w (reset_token_key hash)) as Hkey.
  { intros ps w w' (_&_&Hk) Hps. apply Hk. intros Hu. by eapply reset_away. }
  etrans; [|etrans; [|etrans]].
  - refine (Hkey [] _ _ (keeps_run (under []) _ _ _ _ _ Hx1) _); [apply keeps_login_audit|done].
  - refine (Hkey session_family _ _ (keeps_run (under session_family) _ _ _ _ _ Hx0) _); [|done].
    destruct busy; [|apply state_keeps_ret]. apply keeps_ignore, keeps_at_sess, keeps_RevokeAllForAccount.
  - subst. refine (Hkey token_family _ _ (keeps_ignore _ _ (keeps_at_world _ _ (touches_RevokeAccountTokens _ _ _)) _) _). done.
  - refine (Hkey attempt_family _ _ (keeps_run (under attempt_family) _ _ _ _ _ Hx) _); [|done]. unfold clear_limits.
    destruct (pc_clearsRateLimits cfg); [|apply state_keeps_ret]. apply keeps_ignore, keeps_at_world, touches_clear_logins.
Qed.
#[local] Abbreviation key_of token := (reset_token_key (HashToken (TrimSpace token))).
Lemma reset_inv busy ctx token pw st job st' s : 0 < trunc_secs (pc_tokenTTL cfg) → pc_maxAttempts cfg < 2 ^ 62 →
  reset_at (view (si_world st) (key_of token)) s → VerifyAndReset cfg tcfg tr busy ctx token pw st = (Ok job, st') →
  ValidatePasswordStrength pw = Ok tt ∧ ∃ d e, s = Some (d, e) ∧ rd_Attempts d < pc_maxAttempts cfg ∧
    (∃ db a, later (si_db st) db ∧ account_row (t_people (db_tables db)) (rd_AccountID d) false = Some a ∧ IsActive (Some a) = true) ∧
    job = (if busy then None else Some (rd_AccountID d)) ∧ view (si_world st') (key_of token) = None.
Proof.
  intros Httl Hmax Hat Hrun. unfold VerifyAndReset in Hrun. inv_step Hrun.
  assert (ValidatePasswordStrength pw = Ok tt) as Hpw by (destruct x; injection Hx as Hx _; exact Hx). split; [exact Hpw|].
  assert (st0 = st) as -> by (by injection Hx). inv_step Hrun. destruct (try_token_inv _ _ _ _ _ Httl Hmax Hat Hx0) as (Hdb&_&d&e&Hs&Hd&->).
  cbn [retried rd_AccountID] in Hrun. inv_step Hrun. inv_step Hrun. apply negb_false_iff in Hg. inv_step Hrun. inv_step Hrun. inv_step Hrun.
  destruct (reset_tail _ _ (retried d) _ _ _ (HashToken (TrimSpace token)) Hrun) as [Hv Hjob].
  exists d, e. split; [exact Hs|]. split; [exact Hd|]. split; [|split; [exact Hjob|]].
  - apply at_app_inv in Hx1 as (a&Hfind&->). unfold FindAccountByID, AccountRepo_FindByID, findAccountByID in Hfind. inv_step Hfind.
    apply query_inv in Hx1 as (db&Hl&->&->). change (ap_db (app_of st0)) with (si_db st0) in Hl. rewrite Hdb in Hl.
    exists db, x0. split; [exact Hl|]. split; [|exact Hg]. destruct (account_row _ _ _); cbn in Hfind; [|discriminate Hfind]. by inv_step Hfind; subst.
  - rewrite Hv. apply at_world_inv in Hx4 as (w&Hdel&->). change (si_world (put_world w ?y)) with w.
    refine (wp_intro _ (λ r w', r = Ok tt → view w' _ = None) _ _ _ Hdel _ _); [|by destruct x3].
    apply wp_Del_any; [|done]. intros w' _ Hk _. by rewrite Hk, decide_True by apply list_elem_of_here.
Qed.

(** C18: what a password reset means. It succeeds only with a strong enough password, for a
    token whose document is stored and was not tried too often, while the database shows
    its account active; the token is gone then, and the job that ends the account's
    sessions is started or done. No reset succeeds with a token that is not stored: the
    token is good for one reset. *)
Theorem password_reset_sound busy ctx token pw st job st' s : 0 < trunc_secs (pc_tokenTTL cfg) → pc_maxAttempts cfg < 2 ^ 62 →
  reset_at (view (si_world st) (reset_token_key (HashToken (TrimSpace token)))) s →
  VerifyAndReset cfg tcfg tr busy ctx token pw st = (Ok job, st') →
  ValidatePasswordStrength pw = Ok tt ∧
  (∃ d e, s = Some (d, e) ∧ rd_Attempts d < pc_maxAttempts cfg ∧
    (∃ db a, later (si_db st) db ∧ account_row (t_people (db_tables db)) (rd_AccountID d) false = Some a ∧ IsActive (Some a) = true) ∧
    job = (if busy then None else Some (rd_AccountID d))) ∧
  view (si_world st') (reset_token_key (HashToken (TrimSpace token))) = None ∧
  ∀ busy2 ctx2 pw2 st2, view (si_world st2) (reset_token_key (HashToken (TrimSpace token))) = None →
    is_ok (VerifyAndReset cfg tcfg tr busy2 ctx2 token pw2 st2).1 = false.
Proof.
  intros Httl Hmax Hat Hrun. destruct (reset_inv _ _ _ _ _ _ _ _ Httl Hmax Hat Hrun) as (Hpw&d&e&Hs&Hd&Hacc&Hjob&Hgone).
  split; [exact Hpw|]. split; [by exists d, e|]. split; [exact Hgone|]. intros busy2 ctx2 pw2 st2 Hnone.
  destruct (VerifyAndReset _ _ _ busy2 ctx2 token pw2 st2) as [[job2|e2] st3] eqn:Hrun2; [|done].
  by destruct (reset_inv _ _ _ _ _ _ _ None Httl Hmax Hnone Hrun2) as (_&d2&e3&?&_).
Qed.

(** ** A reset that nothing disturbs *)
Lemma password_row p a c : keyed p → credentials_of p a [CredentialTypePassword] = [c] →
  t_credentials p !! cr_ID c = Some c ∧ live_credential c = true ∧ cr_AccountID c = a ∧ cr_Type c = CredentialTypePassword.
Proof.
  intros Hkey Hc. assert (c ∈ credentials_of p a [CredentialTypePassword]) as Hin by (rewrite Hc; apply list_elem_of_here).
  unfold credentials_of, primary_first in Hin. rewrite sort_by_perm in Hin. apply list_elem_of_In, filter_In in Hin as [Hin Hsel].
  apply list_elem_of_In, list_elem_of_fmap in Hin as ([k c']&->&Hin). apply elem_of_map_to_list in Hin.
  cbn in *. rewrite !andb_true_iff, !bool_decide_eq_true, list_elem_of_singleton in Hsel. rewrite (Hkey _ _ Hin). naive_solver.
Qed.
(** The row with the new password, which is then the account's one password. *)
Definition new_row (now : Z) (hash : string) (c : Credential) : Credential := credential_updated now (with_value hash c) c.
Lemma new_row_only p a c now hash : keyed p → credentials_of p a [CredentialTypePassword] = [c] →
  credentials_of (set_credentials (<[cr_ID c := new_row now hash c]> (t_credentials p)) p) a [CredentialTypePassword] = [new_row now hash c].
Proof.
  intros Hkey Hc. destruct (password_row _ _ _ Hkey Hc) as (Hk&Hlive&Ha&Hty). apply Permutation_singleton_r.
  unfold credentials_of, primary_first, rows_where in *. rewrite sort_by_perm. cbn [t_credentials set_credentials].
  rewrite (filter_perm _ _ _ (rows_insert _ _ _)). pose proof (sort_by_perm (λ c d, if Bool.eqb (cr_Primary c) (cr_Primary d)
    then cr_CreatedAt c <=? cr_CreatedAt d else cr_Primary c) (List.filter (λ c, bool_decide (cr_AccountID c = a) && live_credential c
    && bool_decide (cr_Type c ∈ [CredentialTypePassword])) (map snd (map_to_list (t_credentials p))))) as Hperm. rewrite Hc in Hperm.
  rewrite (filter_perm _ _ _ (rows_perm _ _ _ Hk)) in Hperm. cbn [List.filter] in Hperm |- *.
  rewrite (bool_decide_true (cr_AccountID c = a)), Hlive, (bool_decide_true (cr_Type c ∈ _)) in Hperm by (rewrite ?list_elem_of_singleton; done).
  cbn in Hperm. apply Permutation_cons_inv in Hperm. symmetry in Hperm. apply Permutation_nil_r in Hperm.
  unfold new_row at 1 2 3. cbn. rewrite bool_decide_true by done. rewrite (bool_decide_true (cr_Type c ∈ _)) by (by rewrite list_elem_of_singleton).
  assert (live_credential (credential_updated now (with_value hash c) c) = true) as -> by exact Hlive. cbn. by rewrite Hperm.
Qed.

Lemma set_password_wp a hash c (ap : App R) : quiet_db ap → keyed (people_of ap) → credentials_of (people_of ap) a [CredentialTypePassword] = [c] →
  credential_fits c = true → identifier_taken (people_of ap) c = false →
  wp (set_password a hash) (λ r ap', r = Ok tt ∧ ap_world ap' = ap_world ap ∧ quiet_db ap' ∧
    people_of ap' = set_credentials (<[cr_ID c := new_row (w_now (ap_world ap)) hash c]> (t_credentials (people_of ap))) (people_of ap)) ap.
Proof.
  destruct ap as [w [b t ids fates others]]. intros [Hf Ho] Hkey Hc Hfit Hfree. unfold people_of in *. cbn in Hf, Ho, Hkey, Hc, Hfree. subst.
  destruct (password_row _ _ _ Hkey Hc) as (Hk&Hlive&Ha&Hty). cbn [ap_db ap_world db_tables].
  unfold set_password. apply wp_tx, wp_bind, wp_wrap. unfold FindPasswordCredential. apply wp_bind, wp_wrap, wp_stmt_alone.
  cbn [fst snd wrap_res]. rewrite Hc. cbn [head found]. apply wp_ret. cbn [wrap_res].
  unfold UpdateCredential. apply wp_bind, wp_gets, wp_bind, wp_wrap, wp_stmt_alone. unfold update_credential. cbn [cr_ID with_value]. rewrite Hk, Hlive. cbn [negb].
  assert (credential_fits (new_row (w_now w) hash c) = true) as Hfit' by exact Hfit. unfold new_row in Hfit'.
  assert (identifier_taken (t_people t) (new_row (w_now w) hash c) = false) as Hfree' by exact Hfree. unfold new_row in Hfree'.
  cbn [ap_world]. rewrite Hfit', Hfree'. cbn. wp_steps. cbn. by repeat split.
Qed.

Lemma try_token_up key st d e : 0 < trunc_secs (pc_tokenTTL cfg) → pc_maxAttempts cfg < 2 ^ 62 → w_net (si_world st) = [] →
  reset_at (view (si_world st) key) (Some (d, e)) → rd_Attempts d < pc_maxAttempts cfg →
  wp (try_token cfg key) (λ r st', r = Ok (retried d) ∧ ∃ w, st' = put_world w st ∧ w_now w = w_now (si_world st) ∧ w_net w = [] ∧
    w_rand w = w_rand (si_world st) ∧ ∀ k, k ≠ key → view w k = view (si_world st) k) st.
Proof.
  intros Httl Hmax Hnet Hat Hd. unfold try_token. apply wp_bind, wp_try, wp_at_world, wp_redis_call_up; [done|].
  eapply wp_mono; [by apply admit_script_spec|]. intros r st1 (->&_&Hk). unfold weigh. rewrite (proj2 (Z.leb_gt _ _)) by done. cbn [fst].
  rewrite (reset_read (retried d)) by (eapply retried_wf; [apply Hat|by apply Z.leb_gt|done]).
  apply wp_ret. split; [done|]. eexists. split; [done|]. by split_and!.
Qed.
(** The account was never revoked, or in an earlier second. *)
Definition unrevoked (w : World R) (a : string) : Prop :=
  view w (buildAccountRevokedAfterKey a) = None ∨
  ∃ c, revoked_secs (view w (buildAccountRevokedAfterKey a)) = Some c ∧ c < Unix (w_now w).
(** It is revoked up to this second, for as long as the record lives. *)
Definition revoked_now (w : World R) (a : string) (t : Z) : Prop :=
  view w (buildAccountRevokedAfterKey a) = Some (Entry (RStr (dec (Unix t))) (Some (t / millisecond + trunc_secs (revocation_ttl tcfg) * 1000))).
Lemma revoke_tokens_up ctx a w : w_net w = [] → unrevoked w a → wp (RevokeAccountTokens tcfg ctx a) (λ _ w', revoked_now w' a (w_now w)) w.
Proof.
  intros Hnet Hc. unfold RevokeAccountTokens. assert (0 < trunc_secs (revocation_ttl tcfg)) as Httl
    by (unfold revocation_ttl, trunc_secs, MinAccountRevocationTTL, minute, second; div_lia).
  apply wp_bind, wp_gets, wp_bind. unfold SetAccountRevokedAfter. apply wp_bind, wp_wrap.
  apply wp_redis_call_up; [done|]. apply ratchet_script_spec; [done|]. intros r st' Hst _.
  assert (revoked_now (put_redis st' w) a (w_now w)) as Hgoal.
  { unfold revoked_now, view at 1. cbn. rewrite (Hst _), decide_True by done. unfold ratchet. change (r_view (w_redis w) (now_ms w)) with (view w).
    destruct Hc as [->|(c&Hc&Hlt)]; [done|]. unfold revoked_secs in Hc. destruct (str_of _) as [[v|]|]; try done.
    rewrite Hc. by rewrite (proj2 (Z.leb_gt _ _)). }
  destruct r as [n|x]; cbn [wrap_res]; [|exact Hgoal]. apply wp_ret, wp_audit_log. exact Hgoal.
Qed.
(** While the record lives no token of the account validates that is from an earlier second. *)
Lemma revoked_refuses `{JwtLib} w a t δ net : 0 <= Unix t < 2 ^ 63 → a ≠ "" → revoked_now w a t → w_now w = t → 0 <= δ →
  δ + millisecond < trunc_secs (revocation_ttl tcfg) * second → let w1 := put_net net (tick δ w) in
  (∀ tok rt w', ValidateRefreshToken tok w1 = (Ok rt, w') → rt_AccountID rt = a → Unix t <= Unix (rt_CreatedAt rt)) ∧
  (∀ tok c w' i, ValidateAccessTokenWithContext tcfg tok w1 = (Ok c, w') → cl_AccountID c = a → cl_IssuedAt c = Some i → Unix t <= Unix i).
Proof.
  intros Ht Ha Hrec Hnow Hδ Hlt w1.
  assert (∀ ra i, revoked_after w1 a = Ok ra → IsZero ra = true ∨ ra <= i → Unix t <= Unix i) as Hrule.
  { intros ra i. unfold revoked_after, w1. change (view (put_net net (tick δ w)) ?k) with (view (tick δ w) k).
    rewrite view_tick, Hrec, live_before by (try done; unfold now_ms, tick, millisecond, second in *; cbn; rewrite Hnow; div_lia).
    cbn [str_of]. unfold parse_revoked_after. rewrite parse_int_dec by lia. intros [= <-] [Hz|Hle].
    - unfold IsZero in Hz. apply bool_decide_eq_true in Hz. unfold from_unix, zero_time, second in *. lia.
    - unfold Unix, from_unix, second in *. clear -Hle. div_lia. }
  split.
  - intros tok rt w' Hval Hacc. destruct (validate_reads _ _ _ _ Hval) as (_&_&Hra). rewrite Hacc in Hra. destruct (Hra Ha) as (ra&Hr&Hor). eauto.
  - intros tok c w' i Hval Hacc Hi. pose proof (wp_intro _ _ _ _ _ Hval (validate_access_ok tcfg tok w1) _ eq_refl) as (_&_&_&_&_&Hra).
    rewrite Hacc in Hra. destruct (Hra i Hi Ha) as (ra&Hr&Hor). eauto.
Qed.

(** A process that nothing disturbs. *)
Record calm st : Prop := {
  cm_net : w_net (si_world st) = [];
  cm_db : quiet_db (app_of st);
  cm_keyed : keyed (people_of (app_of st));
}.
Lemma wp_query_quiet {A} (f : People → A) (Q : res A → App R → Prop) ap : quiet_db ap → Q (Ok (f (people_of ap))) ap → wp (query f) Q ap.
Proof. destruct ap as [w [b t ids fates others]]. intros [Hf Ho] HQ. cbn in Hf, Ho. subst. by apply wp_stmt_alone. Qed.
Lemma put_app_of st : put_app (app_of st) st = st.
Proof. by destruct st as [[] ? ?]. Qed.
Lemma wp_touched_net {A} P (m : M (World R) A) (Q : res A → World R → Prop) w : touches P m → w_net w = [] →
  (∀ r w', w_now w' = w_now w → w_net w' = [] → (∀ k, ¬ P k → view w' k = view w k) → Q r w') → wp m Q w.
Proof. intros Hm Hn HQ. destruct (Hm w) as (Ht&Hnet&Hk). unfold wp. destruct (m w) as [r w'] eqn:E. apply HQ; auto. Qed.

Section effect.
Context (busy : bool) (ctx : Ctx) (token pw : string) (st : Site R) (d : passwordResetData) (e : Z) (account : Account) (c : Credential).
#[local] Abbreviation acc := (rd_AccountID d).

(** After the password was stored. *)
Lemma finish_wp tokenKey st1 (Q : res (option string) → Site R → Prop) : w_net (si_world st1) = [] →
  (∀ k, tokenKey ≠ buildAccountRevokedAfterKey k) →
  unrevoked (si_world st1) acc →
  (∀ job st2, si_db st2 = si_db st1 → w_now (si_world st2) = w_now (si_world st1) →
     revoked_now (si_world st2) acc (w_now (si_world st1)) → Q (Ok job) st2) →
  wp (wrap "delete reset token from redis" (at_world (Del [tokenKey])) ;;
      clear_limits cfg (retried d) ;; ignore (at_world (RevokeAccountTokens tcfg ctx acc)) ;;
      (if busy then revoke_job tr acc else ret tt) ;;
      login_audit ActionPasswordReset (Some acc) [("account_id", acc); ("ip", ctx_ip ctx); ("user_agent", ctx_ua ctx)] ;;
      ret (if busy then None else Some acc)) Q st1.
Proof.
  intros Hnet Hne Hnone HQ. apply wp_bind, wp_wrap, wp_at_world. unfold Del. apply wp_wrap, wp_redis_call_up; [done|].
  apply del_keys_spec. intros r2 Hr2. cbn [wrap_res]. set (st2 := put_world _ st1).
  assert (∀ k, k ≠ tokenKey → view (si_world st2) k = view (si_world st1) k) as Hk2.
  { intros k Hk. unfold st2, view. cbn. by rewrite Hr2, decide_False by set_solver. }
  assert (∀ st3, w_now (si_world st3) = w_now (si_world st1) →
    view (si_world st3) (buildAccountRevokedAfterKey acc) = view (si_world st1) (buildAccountRevokedAfterKey acc) → unrevoked (si_world st3) acc) as Hsame
    by (intros st3 Hn3 Hv3; unfold unrevoked; by rewrite Hn3, Hv3).
  assert (∀ ps, forallb (λ p, apart p "account_revoked_after:") ps = true → ¬ under ps (buildAccountRevokedAfterKey acc)) as Hapart.
  { intros ps Hps (p&x&Hp&Heq). rewrite forallb_forall in Hps. apply list_elem_of_In, Hps in Hp. eapply (apart_ne p "account_revoked_after:" x acc); [exact Hp|]. by rewrite <-Heq. }
  apply wp_bind. apply wp_mono with (λ r st3, r = Ok tt ∧ w_net (si_world st3) = [] ∧ w_now (si_world st3) = w_now (si_world st1) ∧
    si_db st3 = si_db st1 ∧ unrevoked (si_world st3) acc).
  { unfold clear_limits. destruct (pc_clearsRateLimits cfg); [|apply wp_ret; split_and!; try done; apply Hsame; [done|by apply Hk2]].
    apply wp_ignore, wp_at_world. apply (wp_touched_net (under attempt_family)); [apply touches_clear_logins|done|]. intros r w Hn Hnet3 Hk.
    split_and!; [done..|]. apply Hsame; [exact Hn|]. cbn. rewrite Hk by by apply Hapart. exact (Hk2 _ (not_eq_sym (Hne acc))). }
  intros r st3 (->&Hnet3&Hn3&Hdb3&Hnone3). apply wp_bind, wp_ignore, wp_at_world.
  eapply wp_mono.
  { pose proof (revoke_tokens_up ctx acc (si_world st3) Hnet3 Hnone3) as Hr.
    pose proof (touches_RevokeAccountTokens tcfg ctx acc (si_world st3)) as (Ht&_).
    instantiate (1 := λ _ w, revoked_now w acc (w_now (si_world st3)) ∧ w_now w = w_now (si_world st3)).
    unfold wp in *. by split. }
  intros r w [Hrev Hnw]. rewrite Hn3 in Hrev, Hnw. set (st4 := put_world w st3).
  apply wp_bind. apply wp_mono with (λ r st5, r = Ok tt ∧ si_db st5 = si_db st1 ∧ w_now (si_world st5) = w_now (si_world st1) ∧
    revoked_now (si_world st5) acc (w_now (si_world st1))).
  { destruct busy; [|by apply wp_ret]. unfold revoke_job. apply wp_ignore, wp_at_sess.
    apply (wp_keeps (under session_family) _ _ _ (keeps_RevokeAllForAccount _ _)). intros r' x _ (Hn5&_&Hk).
    change (world_of x) with (sv_world x) in *. split_and!; [done|done|etransitivity; [exact Hn5|exact Hnw]|].
    unfold revoked_now. cbn. rewrite Hk by by apply Hapart. exact Hrev. }
  intros r' st5 (->&Hdb5&Hn5&Hrev5). apply wp_bind. unfold login_audit. apply wp_at_world, wp_audit_log. apply wp_ret. by apply HQ.
Qed.

#[local] Abbreviation people st := (people_of (app_of st)).
(** The account can have its password reset, and the reset is not disturbed. *)
Record resettable : Prop := {
  rs_calm : calm st;
  rs_time : 0 <= Unix (w_now (si_world st)) < 2 ^ 63;
  rs_random : w_rand (si_world st) ≠ [];
  rs_token : reset_at (view (si_world st) (reset_token_key (HashToken (TrimSpace token)))) (Some (d, e));
  rs_tries : rd_Attempts d < pc_maxAttempts cfg;
  rs_account : account_row (people st) acc false = Some account ∧ a_ID account = acc ∧ IsActive (Some account) = true;
  rs_password : credentials_of (people st) acc [CredentialTypePassword] = [c];
  rs_row : credential_fits c = true ∧ identifier_taken (people st) c = false;
  rs_unrevoked : acc ≠ "" ∧ unrevoked (si_world st) acc;
}.
(** C17: a password reset takes effect. With a strong password and a token that is good for it,
    undisturbed, and when the account was not already revoked in this second or a later one,
    it succeeds. The new password then opens the account under its name. For the lifetime of
    the revocation record, at least twice that of an access token, and whatever the network
    does, no refresh or access token of the account validates that was issued in a second
    before the one of the reset. Tokens of that same second are not refused. *)
Theorem password_reset_takes_effect `{JwtLib} : 0 < trunc_secs (pc_tokenTTL cfg) → pc_maxAttempts cfg < 2 ^ 62 →
  ValidatePasswordStrength pw = Ok tt → resettable →
  ∃ job st', VerifyAndReset cfg tcfg tr busy ctx token pw st = (Ok job, st') ∧
    (∀ u, account_named (people st) u = Some account → password_opens (people st') u pw account) ∧
    ∀ δ net, 0 <= δ → δ + millisecond < trunc_secs (revocation_ttl tcfg) * second → let w := put_net net (tick δ (si_world st')) in
      (∀ tok rt w', ValidateRefreshToken tok w = (Ok rt, w') → rt_AccountID rt = acc → Unix (w_now (si_world st)) <= Unix (rt_CreatedAt rt)) ∧
      (∀ tok claims w' i, ValidateAccessTokenWithContext tcfg tok w = (Ok claims, w') → cl_AccountID claims = acc →
         cl_IssuedAt claims = Some i → Unix (w_now (si_world st)) <= Unix i).
Proof.
  intros Httl Hmax Hpw [Hcalm Htime Hrand Htok Htries (Hacc&Hid&Hact) Hcred [Hfit Hfree] [Hname Hunrev]].
  enough (wp (VerifyAndReset cfg tcfg tr busy ctx token pw) (λ r st', ∃ job, r = Ok job ∧
    (∀ u, account_named (people st) u = Some account → password_opens (people st') u pw account) ∧
    ∀ δ net, 0 <= δ → δ + millisecond < trunc_secs (revocation_ttl tcfg) * second → let w := put_net net (tick δ (si_world st')) in
      (∀ tok rt w', ValidateRefreshToken tok w = (Ok rt, w') → rt_AccountID rt = acc → Unix (w_now (si_world st)) <= Unix (rt_CreatedAt rt)) ∧
      (∀ tok claims w' i, ValidateAccessTokenWithContext tcfg tok w = (Ok claims, w') → cl_AccountID claims = acc →
         cl_IssuedAt claims = Some i → Unix (w_now (si_world st)) <= Unix i)) st) as Hwp
    by (destruct (wp_eq _ _ _ Hwp) as (r&st'&Hrun&job&->&?&?); by exists job, st').
  destruct Hcalm as [Hnet Hq Hkey]. unfold VerifyAndReset. apply wp_bind, wp_lift_res. rewrite Hpw. apply wp_bind.
  eapply wp_mono; [by eapply try_token_up|]. intros r st1 (->&w&->&Hn&Hnet1&Hrand1&Hk). cbn [retried rd_AccountID].
  assert (app_of (put_world w st) = mkApp w (si_db st)) as Happ by done.
  apply wp_bind, wp_wrap, wp_at_app. rewrite Happ. unfold FindAccountByID, AccountRepo_FindByID, findAccountByID.
  apply wp_bind, wp_wrap, wp_query_quiet; [exact Hq|]. change (people_of (mkApp w (si_db st))) with (people st). cbn [wrap_res]. rewrite Hacc. cbn [found].
  apply wp_ret. cbn [wrap_res]. rewrite <-Happ, put_app_of. apply wp_bind, wp_guard_err; [by rewrite Hact|intros _].
  apply wp_bind, wp_wrap, wp_at_world. unfold HashPassword. apply wp_bind, wp_rand_read; [change (si_world (put_world w st)) with w; by rewrite Hrand1|].
  intros b l _. apply wp_ret. cbn [wrap_res]. set (hash := encode_hash _ _). set (st2 := put_world _ _).
  apply wp_bind, wp_wrap, wp_at_app. assert (people_of (app_of st2) = people st) as Hp2 by done.
  eapply wp_mono; [eapply set_password_wp; rewrite ?Hp2; [exact Hq|exact Hkey|exact Hcred|exact Hfit|exact Hfree]|].
  intros r ap (->&Hw&_&Hpeople). rewrite Hp2 in Hpeople. cbn [wrap_res]. change acc with (rd_AccountID d).
  apply finish_wp; cbn; rewrite ?Hw; cbn; [done|done| |].
  { change (unrevoked w acc). unfold unrevoked. by rewrite Hn, Hk. }
  rewrite Hn. intros job st3 Hdb Hn3 Hrev. exists job. split; [done|]. split; [|by intros; apply revoked_refuses]. intros u Hu.
  assert (people st3 = people_of ap) as -> by (unfold people_of; cbn; by rewrite Hdb). rewrite Hpeople.
  split; [exact Hu|]. split; [exact Hact|]. eexists. rewrite Hid, new_row_only by done. split; [done|].
  assert (verifyArgon2id pw hash = true) as Hv.
  { subst hash. rewrite verify_encoded; [by apply bool_decide_true|by rewrite rand_block_length|apply rand_block_bytes]. }
  clearbody hash. unfold VerifyPassword, new_row. cbn. destruct (password_row _ _ _ Hkey Hcred) as (_&_&_&Hty). rewrite Hty, bool_decide_true by done. cbn. exact Hv.
Qed.
End effect.
End reset.
