(* ===== verification/PasskeyProps.v ===== *)
(** * What a passkey login means *)
From S2P Require Import Prelude GoTime Json Hash Url Redis World Cache Footprint GoStrings AccountDomain Credential OAuthDomain Database ClientRepo AccountRepo Site StateFootprints AccountService AuthSpecs VerifyProps Passkey.
Local Open Scope Z_scope.

(** What was read with GETDEL was there and is gone. *)
Lemma getdel_inv `{RedisServer R} k (w : World R) d w' : GetDel k w = (Ok d, w') →
  (∃ e, view w k = Some (Entry (RStr d) e)) ∧ view w' k = None.
Proof.
  intros Hrun. apply (wp_intro _ (λ r w', ∀ d, r = Ok d → (∃ e, view w k = Some (Entry (RStr d) e)) ∧ view w' k = None) _ _ _ Hrun); [|done].
  unfold GetDel, not_found_or. wp_step. wp_step. apply wp_redis_call; [|done]. intros net. apply wp_s_getdel. intros st' Hst. split; [|done].
  change (r_view (w_redis w) (now_ms w)) with (view w) in *. destruct (view w k) as [[[v|v|v] e]|] eqn:Hv; cbn in *; [wp_step|done|done|by wp_step].
  intros ? [= <-]. split; [eauto|]. unfold view. cbn. change (now_ms _) with (now_ms w). rewrite Hst. by decide_keys.
Qed.
Lemma getdel_gone `{RedisServer R} k (w : World R) : view w k = None → is_ok (GetDel k w).1 = false.
Proof.
  intros Hk. destruct (GetDel k w) as [[d|e] w'] eqn:Hrun; [|done]. apply getdel_inv in Hrun as [[x Hx] _]. congruence.
Qed.

Section inversion.
Context {R : Type}.
Lemma query_passkeys_inv {A} (f : Tables → A) (a : App R) x a' : query_passkeys f a = (Ok x, a') →
  ∃ d, later (ap_db a) d ∧ x = f (db_tables d) ∧ a' = put_db d a.
Proof.
  intros Hrun. apply (wp_intro _ (λ r a', ∀ x, r = Ok x → ∃ d, later (ap_db a) d ∧ x = f (db_tables d) ∧ a' = put_db d a) _ _ _ Hrun); [|done].
  apply (wp_select f); [|done]. intros d Hd ? [= <-]. eauto.
Qed.
Lemma lift_inv {S A} (r : res A) (s : S) x s' : lift_res r s = (Ok x, s') → r = Ok x ∧ s' = s.
Proof. by intros [= -> ->]. Qed.
Lemma in_world_inv {A} (m : M (World R) A) (a : App R) r a' : in_world m a = (r, a') → ∃ w, m (ap_world a) = (r, w) ∧ a' = mkApp w (ap_db a).
Proof. unfold in_world. destruct (m (ap_world a)). intros [= -> <-]. eauto. Qed.
Lemma app_now_inv (a : App R) t a' : app_now a = (Ok t, a') → a' = a.
Proof. by intros [= _ ->]. Qed.
End inversion.

(** The changes of flags leave keys and identifiers. *)
Definition same_key (c d : WebAuthnCredential) : Prop :=
  wc_AccountID c = wc_AccountID d ∧ wc_CredentialID c = wc_CredentialID d ∧ wc_PublicKey c = wc_PublicKey d.
Lemma replace_flags_key cred l c : c ∈ replace_flags cred l → ∃ d, d ∈ l ∧ same_key c d.
Proof.
  induction l as [|x l IH]; cbn; [by intros ?%elem_of_nil|]. case_bool_decide.
  - intros [->|Hc]%elem_of_cons; [exists x; split; [apply list_elem_of_here|done]|exists c; split; [by apply list_elem_of_further|done]].
  - intros [->|Hc]%elem_of_cons; [exists x; split; [apply list_elem_of_here|done]|].
    destruct (IH Hc) as (d&Hd&Hs). exists d. split; [by apply list_elem_of_further|done].
Qed.
Lemma used_key now w be c : same_key (used_passkey now w (normalize be c)) c.
Proof. unfold used_passkey, normalize. by destruct (Bool.eqb _ _), (_ <? _)%N. Qed.
Lemma normalize_key be c : same_key (normalize be c) c.
Proof. unfold normalize. by destruct (Bool.eqb _ _). Qed.
(** A passkey in force: the account it belongs to, its identifier and key. *)
Definition holds_key (t : Tables) (acct : string) (raw key : list N) : Prop :=
  ∃ k r, t_passkeys t !! k = Some r ∧ live_passkey r = true ∧ wc_AccountID (pr_cred r) = acct ∧
    wc_CredentialID (pr_cred r) = raw ∧ wc_PublicKey (pr_cred r) = key.
Lemma passkeys_of_held t acct c : c ∈ passkeys_of t acct → holds_key t acct (wc_CredentialID c) (wc_PublicKey c).
Proof.
  unfold passkeys_of, rows_where. rewrite sort_by_perm. intros (r&->&Hr)%list_elem_of_fmap.
  apply list_elem_of_In, filter_In in Hr as [Hin Hsel]. apply list_elem_of_In, list_elem_of_fmap in Hin as ([k r']&->&Hin).
  apply elem_of_map_to_list in Hin. cbn in *. apply andb_true_iff in Hsel as [Ha%bool_decide_eq_true Hl]. by exists k, r'.
Qed.

Section login.
Context {R : Type} `{WebAuthnLib R} `{Postgres}.
Implicit Types a : App R.

(** What is behind a login: the state of a ceremony was stored under the key, and an
    active passkey of the account answered it. *)
Definition proven a (key : string) (acct body : string) : Prop :=
  ∃ data e s raw be pk d, view (ap_world a) key = Some (Entry (RStr data) e) ∧ wa_unmarshal data = Some s ∧
    (wa_UserID s = "" ∨ wa_UserID s = acct) ∧ wa_parse body = Ok (raw, be) ∧ later (ap_db a) d ∧
    holds_key (db_tables d) acct raw pk ∧ asserts s pk body.

Lemma take_challenge_inv key a s a' : take_challenge key a = (Ok s, a') →
  ∃ data e, view (ap_world a) key = Some (Entry (RStr data) e) ∧ wa_unmarshal data = Some s ∧
    view (ap_world a') key = None ∧ ap_db a' = ap_db a.
Proof.
  unfold take_challenge. intros Hrun. inv_step Hrun. apply in_world_inv in Hr as (w&Hget&->).
  destruct r as [data|]; [|discriminate Hrun]. destruct (wa_unmarshal data) eqn:Hu; [|discriminate Hrun]. apply ret_inv in Hrun as [-> ->].
  apply getdel_inv in Hget as [[e He] Hgone]. by exists data, e.
Qed.
Lemma finish_inv user s body a c a' raw be : finishLogin user s body a = (Ok c, a') → wa_parse body = Ok (raw, be) →
  a' = a ∧ (wa_UserID s = "" ∨ wa_UserID s = wu_accountID user) ∧
  ∃ c0, c0 ∈ wu_credentials user ∧ wa_ID c0 = raw ∧ asserts s (wa_PublicKey c0) body.
Proof.
  unfold finishLogin. intros Hrun Hp. inv_step Hrun. apply app_now_inv in Hx as ->. apply lift_inv in Hrun as [Hf ->]. split; [done|].
  case_bool_decide as Hu; [split; [by left|by eapply wa_passkey_ok]|]. destruct (wa_login_ok _ _ _ _ _ _ _ Hf Hp) as [-> Hc].
  split; [by right|done].
Qed.
Lemma find_passkey_db raw a c a' : find_passkey raw a = (Ok c, a') → later (ap_db a) (ap_db a') ∧ ap_world a' = ap_world a.
Proof.
  unfold find_passkey, PasskeyRepo_FindByCredentialID. intros Hrun. inv_step Hrun. destruct r as [c'|e]; [|by destruct (errors_is e _)].
  apply ret_inv in Hrun as [-> ->]. inv_step Hr. apply query_passkeys_inv in Hx as (d&Hd&->&->).
  destruct (passkey_named _ _); cbn in Hr; [|discriminate Hr]. by apply ret_inv in Hr as [-> ->].
Qed.
Lemma login_inv requestID expected key body a cred a' : completeLoginInternal requestID expected key body a = (Ok cred, a') →
  proven a (key requestID) (wc_AccountID cred) body ∧ (expected = "" ∨ wc_AccountID cred = expected) ∧ view (ap_world a') (key requestID) = None.
Proof.
  unfold completeLoginInternal. intros Hrun. inv_step Hrun. destruct (take_challenge_inv _ _ _ _ Hx) as (data&e&Hdata&Hs&Hgone&Hdb).
  inv_step Hrun. apply lift_inv in Hx0 as [Hbody ->]. assert (x0 = body) as -> by (unfold readLimitedBody in Hbody; destruct (_ <? _); congruence).
  inv_step Hrun. destruct x0 as [raw be]. apply lift_inv in Hx0 as [Hparse ->].
  inv_step Hrun. apply find_passkey_db in Hx0 as [Hd1 Hw1]. inv_step Hrun. inv_step Hrun.
  apply wrap_inv, query_passkeys_inv in Hx0 as (d&Hd&->&->). inv_step Hrun.
  destruct (finish_inv _ _ _ _ _ _ _ _ Hx0 Hparse) as (->&Hu&c0&Hc0&Hraw&Hok). inv_step Hrun. apply app_now_inv in Hx1 as ->.
  inv_step Hrun. apply ret_inv in Hrun as [-> ->]. destruct (used_key x2 x1 be x0) as (Hacc&_&_). destruct (normalize_key be x0) as (Hnorm&_).
  rewrite Hacc. cbn [wu_accountID NewWebAuthnUser] in Hu. rewrite Hnorm in Hu. split_and!.
  - cbn [wu_credentials NewWebAuthnUser] in Hc0. apply list_elem_of_fmap in Hc0 as (c1&->&Hc1).
    assert (∃ c2, c2 ∈ passkeys_of (db_tables d) (wc_AccountID x0) ∧ same_key c1 c2) as (c2&Hc2&_&Hid&Hpk).
    { destruct (Bool.eqb _ _); [by exists c1|by apply (replace_flags_key (normalize be x0))]. }
    exists data, e, x, raw, be, (wc_PublicKey c2), d. split_and!; try done.
    + rewrite <-Hdb. by etrans.
    + apply passkeys_of_held in Hc2. rewrite <-Hraw. cbn. by rewrite Hid.
    + cbn in Hok. by rewrite <-Hpk.
  - apply andb_false_iff in Hg as [Hg|Hg]; apply negb_false_iff, bool_decide_eq_true in Hg; auto.
  - subst. unfold PasskeyRepo_UpdateCredential. 
    match goal with |- view (ap_world (?m ?b).2) _ = _ => assert (keeps (λ _, False) m) as Hk by (unfold on_passkeys, app_now; keep);
      destruct (Hk b) as (_&_&Hv) end.
    unfold world_of, app_has_world in Hv. rewrite Hv by tauto. cbn [put_db ap_world]. by rewrite Hw1.
Qed.
Lemma login_gone requestID expected key body a : view (ap_world a) (key requestID) = None →
  is_ok (completeLoginInternal requestID expected key body a).1 = false.
Proof.
  intros Hnone. destruct (completeLoginInternal _ _ _ _ a) as [[c|e] a'] eqn:Hrun; [|done].
  apply login_inv in Hrun as ((data&x&?&?&?&?&?&Hd&_)&_). congruence.
Qed.

(** What a passkey login means. It succeeds only when a ceremony was begun, its state
    still stored, and an active passkey of the account it ends with answered its challenge;
    when the ceremony was begun for an account, it is this one. The state is used up: no
    later answer to the same ceremony succeeds, neither here nor for another body. *)
Theorem passkey_login_sound requestID body a acct cred a' : CompleteLogin requestID body a = (Ok (acct, cred), a') →
  proven a (redisKeyLoginChallenge requestID) acct body ∧ wc_AccountID cred = acct ∧
  view (ap_world a') (redisKeyLoginChallenge requestID) = None ∧
  ∀ body2 a2, view (ap_world a2) (redisKeyLoginChallenge requestID) = None → is_ok (CompleteLogin requestID body2 a2).1 = false.
Proof.
  unfold CompleteLogin. intros Hrun. inv_step Hrun. injection Hrun as <- <- <-. destruct (login_inv _ _ _ _ _ _ _ Hx) as (Hp&_&Hv).
  split_and!; [done..|]. intros body2 a2 Hnone. pose proof (login_gone requestID "" redisKeyLoginChallenge body2 a2 Hnone) as Hno.
  unfold bind. by destruct (completeLoginInternal _ _ _ body2 a2) as [[c|e] a3].
Qed.
(** The same with a second factor, for the account of the first one. *)
Theorem passkey_mfa_sound requestID accountID body a a' : accountID ≠ "" → CompleteMFALogin requestID accountID body a = (Ok tt, a') →
  proven a (redisKeyMFAChallenge requestID) accountID body ∧ view (ap_world a') (redisKeyMFAChallenge requestID) = None ∧
  ∀ body2 a2, view (ap_world a2) (redisKeyMFAChallenge requestID) = None → is_ok (CompleteMFALogin requestID accountID body2 a2).1 = false.
Proof.
  unfold CompleteMFALogin. intros Hacc Hrun. inv_step Hrun. destruct (login_inv _ _ _ _ _ _ _ Hx) as (Hp&[?|<-]&Hv); [done|].
  apply ret_inv in Hrun as [_ ->]. split_and!; [done..|]. intros body2 a2 Hnone.
  pose proof (login_gone requestID (wc_AccountID x) redisKeyMFAChallenge body2 a2 Hnone) as Hno.
  unfold bind. by destruct (completeLoginInternal _ _ _ body2 a2) as [[c|e] a3].
Qed.
End login.
