(* ===== verification/RateProps.v ===== *)
(** * What the request middleware promises *)
From S2P Require Import Prelude GoTime Json LuaPattern Hash Redis World Cache Footprint SessionProps Scan Url GoStrings AuthMiddleware HttpMiddleware.
Local Open Scope Z_scope.

(** ** Members of the window *)
Lemma dec_split a b a' b' : 0 <= a < 2 ^ 63 → 0 <= a' < 2 ^ 63 → 0 <= b < 2 ^ 63 → 0 <= b' < 2 ^ 63 →
  dec a +:+ ":" +:+ dec b = dec a' +:+ ":" +:+ dec b' → a = a' ∧ b = b'.
Proof.
  intros Ha Ha' Hb Hb' Heq.
  assert (∀ z, 0 <= z → take_digits1 (dec z +:+ ":" +:+ dec b) = Some (dec z)) as H1 by (intros; by apply take_digits_dec).
  assert (take_digits1 (dec a' +:+ ":" +:+ dec b') = Some (dec a')) as H2 by (apply take_digits_dec; [lia|done]).
  rewrite <-Heq, H1 in H2 by lia. injection H2 as Hd. assert (a = a') as <-.
  { pose proof (parse_int_dec a ltac:(lia)) as E1. pose proof (parse_int_dec a' ltac:(lia)) as E2. rewrite Hd in E1. congruence. }
  split; [done|]. apply append_inj in Heq. injection Heq as Hbb.
  pose proof (parse_int_dec b ltac:(lia)) as E1. pose proof (parse_int_dec b' ltac:(lia)) as E2. rewrite Hbb in E1. congruence.
Qed.
(** The member of a request at a time in microseconds. *)
Definition member (a : Z) : string := rate_member (a / 1000) (a mod 1000).
Lemma member_inj a b : 0 <= a / 1000 < 2 ^ 63 → 0 <= b / 1000 < 2 ^ 63 → member a = member b → a = b.
Proof.
  intros Ha Hb Hm. unfold member, rate_member in Hm. apply dec_split in Hm as [H1 H2]; [|lia|lia|div_lia|div_lia]. div_lia.
Qed.
Lemma few_keys {V} (m : gmap string V) (l : list string) : NoDup l → (∀ k, k ∈ l → is_Some (m !! k)) → (length l <= size m)%nat.
Proof.
  intros Hl Hm. rewrite <-(size_list_to_set (C := gset string) l Hl), <-size_dom. apply subseteq_size.
  intros k Hk%elem_of_list_to_set. apply elem_of_dom. auto.
Qed.

Section window.
Context {R : Type} `{RedisServer R} (endpoint id : string) (limit window : Z).
#[local] Abbreviation key := (rate_key endpoint id).
#[local] Abbreviation W := (trunc_secs window * 1000).

(** The key at a time in milliseconds, when requests passed at the times [past]. Every
    member is older than [bound]; those that passed within the window are members. *)
Definition recent (now a : Z) : bool := now - W <? a / 1000.
Definition keeps_record (bound now : Z) (past : list Z) (o : option rentry) : Prop :=
  match o with
  | None => ∀ a, a ∈ past → recent now a = false
  | Some (Entry (RZSet m) (Some e)) =>
      map_Forall (λ k x, ∃ a, 0 <= a < bound ∧ k = member a ∧ x = a / 1000 ∧ x + W <= e) m ∧
      ∀ a, a ∈ past → recent now a = true → is_Some (m !! member a)
  | _ => False
  end.
Definition sane (bound : Z) (past : list Z) : Prop := NoDup past ∧ ∀ a, a ∈ past → 0 <= a < bound.

Lemma record_later bound now now' past o : 0 <= bound → sane bound past → bound / 1000 < 2 ^ 63 → now <= now' →
  keeps_record bound now past o → keeps_record bound now' past (live now' o).
Proof.
  intros Hb0 [_ Hs] Hb Hle Hk. assert (∀ a, recent now' a = true → recent now a = true) as Hr.
  { unfold recent. intros a. rewrite !Z.ltb_lt. lia. }
  destruct o as [[[v|v|m] [e|]]|]; cbn in *; try done.
  - unfold alive. cbn. destruct (Z.ltb_spec now' e); cbn; [naive_solver|]. destruct Hk as [Hm Hp]. intros a Ha.
    destruct (recent now' a) eqn:Hra; [|done]. destruct (Hp a Ha (Hr _ Hra)) as [x Hx]. destruct (Hm _ _ Hx) as (b&Hb1&Hmem&->&He).
    specialize (Hs a Ha). apply member_inj in Hmem as <-; [|div_lia..]. unfold recent in Hra. apply Z.ltb_lt in Hra. lia.
  - intros a Ha. destruct (recent now' a) eqn:Hra; [|done]. apply Hr in Hra. by rewrite (Hk a Ha) in Hra.
Qed.
Lemma zset_put m e : zset_of (put_zset m e) = Some m.
Proof. unfold put_zset. case_decide; by subst. Qed.

Lemma reply_spec now k z allowed remaining (Q : res (list Z) → R → Prop) st : zset_of (r_view st now k) = Some z →
  (∀ rest st', length rest = 3%nat → same now st st' → Q (Ok (allowed :: rest)) st') →
  wp (let! oldest := s_zfirst now k in
      let '(reset_at, retry_after) := oldest_reply (trunc_secs window) now oldest in ret [allowed; remaining; reset_at; retry_after]) Q st.
Proof.
  intros Hz HQ. wp_step. eapply wp_s_zfirst; [exact Hz|]. intros st' Hst'. destruct (oldest_reply _ _ _). wp_step. by apply HQ.
Qed.

(** What the script does with a record of the past: a request passes when fewer than
    [limit] are on record in the window, and is on record then. *)
Lemma sliding_spec bound us now past st : 0 < limit → 0 < trunc_secs window → 0 <= now < 2 ^ 63 → 0 <= us < 1000 →
  0 <= bound <= now * 1000 + us → sane bound past → keeps_record bound now past (r_view st now key) →
  wp (slidingWindowScript key (trunc_secs window) limit us now) (λ r st', ∃ allowed rest,
    r = Ok (allowed :: rest) ∧ (length rest = 3)%nat ∧ (∀ k, k ≠ key → r_view st' now k = r_view st now k) ∧
    (if allowed =? 1 then Z.of_nat (length (List.filter (recent now) past)) < limit ∧
                          keeps_record (now * 1000 + us + 1) now (now * 1000 + us :: past) (r_view st' now key)
     else keeps_record bound now past (r_view st' now key))) st.
Proof.
  intros Hlim HW Hnow Hus Hb [Hnd Hs] Hk. unfold slidingWindowScript.
  assert (∃ m, zset_of (r_view st now key) = Some m ∧
    map_Forall (λ k x, ∃ a, 0 <= a < bound ∧ k = member a ∧ x = a / 1000 ∧ ∀ e, exp_of (r_view st now key) = Some e → x + W <= e) m ∧
    (m ≠ ∅ → is_Some (exp_of (r_view st now key))) ∧
    ∀ a, a ∈ past → recent now a = true → is_Some (m !! member a)) as (m&Hz&Hm&He&Hp).
  { destruct (r_view st now key) as [[[v|v|m] [e|]]|]; cbn in *; try done.
    - exists m. destruct Hk as [Hm Hp]. split_and!; [done| |by eauto|done]. intros k x Hx. destruct (Hm _ _ Hx) as (a&?&?&?&?).
      exists a. do 3 (split; [done|]). by intros ? [= <-].
    - exists ∅. split_and!; [done|apply map_Forall_empty|congruence|]. intros a Ha Hr. by rewrite (Hk a Ha) in Hr. }
  clear Hk. set (n := now * 1000 + us) in *.
  assert (n / 1000 = now ∧ n mod 1000 = us) as [Hn1 Hn2] by (unfold n; div_lia).
  assert (rate_member now us = member n) as Hmem by (unfold member; by rewrite Hn1, Hn2).
  set (z := filter (λ p : string * Z, ¬ (0 <= p.2 <= now - W)) m).
  assert (∀ a, a ∈ past → recent now a = true → is_Some (z !! member a)) as Hpz.
  { intros a Ha Hr. destruct (Hp a Ha Hr) as [x Hx]. exists x. apply map_lookup_filter_Some. split; [done|]. cbn.
    destruct (Hm _ _ Hx) as (b&Hb1&Hab&->&_). specialize (Hs a Ha). apply member_inj in Hab as <-; [|div_lia..].
    unfold recent in Hr. apply Z.ltb_lt in Hr. lia. }
  assert (∀ k x, z !! k = Some x → m !! k = Some x) as Hsub by (intros k x Hx; by apply map_lookup_filter_Some in Hx as [? _]).
  assert (length (List.filter (recent now) past) <= size z)%nat as Hcount.
  { rewrite <-(length_map member). apply few_keys.
    - apply NoDup_fmap_2_strong; [|by apply NoDup_ListNoDup, List.NoDup_filter, NoDup_ListNoDup].
      intros a b [Ha _]%list_elem_of_In%filter_In [Hb' _]%list_elem_of_In%filter_In Hab.
      apply list_elem_of_In in Ha, Hb'. apply Hs in Ha, Hb'. apply member_inj in Hab; [done|div_lia..].
    - intros k Hk. apply list_elem_of_fmap in Hk as (a&->&Ha). apply list_elem_of_In, filter_In in Ha as [Ha Hr].
      apply Hpz; [by apply list_elem_of_In|done]. }
  wp_step. eapply wp_s_zremrangebyscore; [exact Hz|]. intros st1 Hst1. fold z in Hst1.
  assert (r_view st1 now key = put_zset z (exp_of (r_view st now key))) as H1 by (rewrite Hst1; by decide_keys).
  assert (zset_of (r_view st1 now key) = Some z) as Hz1 by (by rewrite H1, zset_put).
  wp_step. eapply wp_s_zcard; [exact Hz1|]. intros st2 Hst2. wp_step.
  assert (map_Forall (λ k x, ∃ a, 0 <= a < bound ∧ k = member a ∧ x = a / 1000 ∧
    ∀ e, exp_of (r_view st now key) = Some e → x + W <= e) z) as Hmz by (intros k x Hx; by apply Hm, Hsub).
  destruct (Z.ltb_spec (Z.of_nat (size z)) limit) as [Hlt|Hge].
  - wp_step. eapply wp_s_zadd; [rewrite (Hst2 key); exact Hz1|]. intros st3 Hst3. wp_step. apply wp_s_pexpire; [lia|]. intros st4 Hst4.
    assert (r_view st4 now key = Some (Entry (RZSet (<[member n := now]> z)) (Some (now + W)))) as H4.
    { rewrite Hst4. decide_keys. rewrite Hst3. decide_keys. by rewrite Hmem. }
    wp_step. eapply reply_spec; [by rewrite H4|]. intros rest st5 Hrest Hst5. exists 1, rest. split; [done|]. split; [done|]. split.
    { intros k Hk. rewrite (Hst5 k), Hst4, decide_False, Hst3, decide_False, (Hst2 k), Hst1, decide_False by done. done. }
    cbn [Z.eqb Pos.eqb]. split; [lia|]. rewrite (Hst5 key), H4. cbn. split.
    + apply map_Forall_insert_2; [exists n; split_and!; first [done|lia]|]. intros k x Hx. destruct (Hmz _ _ Hx) as (a&Ha&->&->&_).
      exists a. split_and!; try done; [lia..|div_lia].
    + intros a Ha Hr. apply elem_of_cons in Ha as [->|Ha]; [by rewrite lookup_insert_eq|]. destruct (Hpz a Ha Hr) as [x Hx].
      destruct (decide (member n = member a)) as [->|Hne]; [by rewrite lookup_insert_eq|]. rewrite lookup_insert_ne by done. by eexists.
  - assert (z ≠ ∅) as Hne by (intros E; rewrite E, map_size_empty in Hge; lia).
    destruct He as [e He]; [intros ->; apply Hne; apply map_eq; intros k; apply eq_None_not_Some; by intros [x Hx%Hsub]|].
    wp_step. eapply reply_spec; [by rewrite (Hst2 key)|]. intros rest st3 Hrest Hst3. exists 0, rest. split; [done|]. split; [done|]. split.
    { intros k Hk. rewrite (Hst3 k), (Hst2 k), Hst1, decide_False by done. done. }
    cbn [Z.eqb]. rewrite (Hst3 key), (Hst2 key), H1, He. unfold put_zset. rewrite decide_False by done. cbn. split; [|exact Hpz].
    intros k x Hx. destruct (Hmz _ _ Hx) as (a&Ha&->&->&Hd). exists a. split_and!; try done; [lia..|by apply Hd].
Qed.

(** ** Requests to the limiter *)
#[local] Abbreviation limiter := (RedisRateLimitMiddleware endpoint id limit window false).
Implicit Types w : World R.
(** The time in microseconds. *)
Definition stamp w : Z := w_now w / 1000.
Lemma stamp_ms w : now_ms w = stamp w / 1000 ∧ w_now w / 1000 mod 1000 = stamp w mod 1000.
Proof. unfold now_ms, stamp, millisecond. split; [|done]. div_lia. Qed.
Lemma record_weaken bound bound' now past past' o : bound <= bound' → (∀ a, a ∈ past → a ∈ past') →
  keeps_record bound now past' o → keeps_record bound' now past o.
Proof.
  intros Hb Hsub. destruct o as [[[v|v|m] [e|]]|]; cbn; try done; [|by eauto].
  intros [Hm Hp]. split; [|by eauto]. intros k x Hx. destruct (Hm _ _ Hx) as (a&?&?&?&?). exists a. split_and!; first [done|lia].
Qed.
Lemma limiter_wp past w : 0 < limit → 0 < trunc_secs window → 0 <= w_now w → now_ms w < 2 ^ 63 → sane (stamp w) past →
  keeps_record (stamp w) (now_ms w) past (view w key) →
  wp limiter (λ r w', w_now w' = w_now w ∧ ∃ v, r = Ok v ∧
    ((∃ h, v = Pass h) ∧ Z.of_nat (length (List.filter (recent (now_ms w)) past)) < limit ∧
       keeps_record (stamp w + 1) (now_ms w) (stamp w :: past) (view w' key) ∨
     (∀ h, v ≠ Pass h) ∧ keeps_record (stamp w + 1) (now_ms w) past (view w' key))) w.
Proof.
  intros Hlim HW Hpos Hbig Hs Hk. destruct (stamp_ms w) as [Hms Hus].
  assert (now_ms w * 1000 + w_now w / 1000 mod 1000 = stamp w) as Hst by (rewrite Hms, Hus; div_lia).
  assert (0 <= now_ms w ∧ 0 <= stamp w) as [Hn0 Hs0] by (unfold now_ms, stamp, millisecond; div_lia).
  unfold RedisRateLimitMiddleware. wp_step. apply wp_gets. wp_step. apply wp_try.
  apply wp_redis_call.
  - intros net. eapply wp_mono; [apply (sliding_spec (stamp w) _ _ past)|]; try done; [div_lia|lia|].
    intros r st' (allowed&rest&->&Hrest&_&Hrec). change (r_view st' (now_ms w) key) with (view (put_net net (put_redis st' w)) key) in Hrec.
    rewrite Hst in Hrec. destruct rest as [|a1 [|a2 [|a3 [|]]]]; try discriminate Hrest. destruct (allowed =? 1).
    + destruct Hrec as [Hlt Hrec]. split; wp_step; (split; [done|]); eexists; (split; [done|]); [left; by eauto|].
      right. split; [done|]. eapply record_weaken; [done| |exact Hrec]. intros a Ha. apply elem_of_cons. by right.
    + split; wp_step; (split; [done|]); eexists; (split; [done|]); right; (split; [done|]);
        (eapply record_weaken; [|done|exact Hrec]; lia).
  - intros net. wp_step. split; [done|]. eexists. split; [done|]. right. split; [done|].
    eapply record_weaken; [|done|exact Hk]. lia.
Qed.

(** What may happen before [until]: a request, told apart from the next one by the clock
    of the server, the passing of time, outages, and whatever leaves the key alone. The
    list holds the times of the requests that passed. *)
Definition passed (v : rate_verdict) (t : Z) : list Z := match v with Pass _ => [t] | _ => [] end.
Inductive traffic (until : Z) : World R → list Z → Prop :=
  | traffic_end w : traffic until w []
  | traffic_request w v w1 δ l : limiter w = (Ok v, w1) → stamp w1 < stamp (tick δ w1) → w_now w1 + δ <= until →
      traffic until (tick δ w1) l → traffic until w (passed v (stamp w) ++ l)
  | traffic_wait w δ l : 0 <= δ → w_now w + δ <= until → traffic until (tick δ w) l → traffic until w l
  | traffic_net w net l : traffic until (put_net net w) l → traffic until w l
  | traffic_other w A (m : M (World R) A) l : touches (λ k, k ≠ key) m → traffic until (m w).2 l → traffic until w l.

(** The requests among some that fell into the window that ends at a time. *)
Definition in_window (t : Z) (l : list Z) : list Z := List.filter (λ a, recent t a && (a / 1000 <=? t)) l.
Definition bounded (past : list Z) : Prop := ∀ t, Z.of_nat (length (in_window t past)) <= limit.

Lemma record_tick b δ past w : 0 <= δ → 0 <= b <= stamp (tick δ w) → b / 1000 < 2 ^ 63 → sane b past → keeps_record b (now_ms w) past (view w key) →
  sane (stamp (tick δ w)) past ∧ keeps_record (stamp (tick δ w)) (now_ms (tick δ w)) past (view (tick δ w) key).
Proof.
  intros Hd Hb Hbig Hs Hk. assert (now_ms w <= now_ms (tick δ w)) as Hle by (apply Z.div_le_mono; [done|cbn; lia]). split.
  - destruct Hs as [Hn Hs]. split; [done|]. intros a Ha. specialize (Hs a Ha). lia.
  - unfold view. cbn [tick w_redis]. rewrite (r_view_later _ (now_ms w)) by exact Hle.
    destruct Hb as [Hb0 Hb]. eapply record_weaken; [exact Hb|by intros|]. by apply record_later with (now_ms w).
Qed.
Lemma filter_imp {A} (p q : A → bool) l : (∀ x, x ∈ l → p x = true → q x = true) → (length (List.filter p l) <= length (List.filter q l))%nat.
Proof.
  induction l as [|x l IH]; intros Hpq; cbn; [done|]. pose proof (Hpq x (list_elem_of_here _ _)) as Hx.
  specialize (IH (λ y Hy, Hpq y (list_elem_of_further _ _ _ Hy))). destruct (p x); [rewrite Hx by done; cbn; lia|]. destruct (q x); cbn; lia.
Qed.
Lemma bounded_pass now n past : sane n past → n / 1000 = now → Z.of_nat (length (List.filter (recent now) past)) < limit →
  bounded past → bounded (n :: past).
Proof.
  intros [_ Hs] Hn Hlt Hb t. unfold in_window. cbn [List.filter]. destruct (recent t n && (n / 1000 <=? t)) eqn:Hin; [|apply Hb].
  apply andb_true_iff in Hin as [_ Ht%Z.leb_le]. cbn [length].
  enough (length (in_window t past) <= length (List.filter (recent now) past))%nat by (unfold in_window in *; lia).
  apply filter_imp. intros a Ha. rewrite andb_true_iff. unfold recent. rewrite !Z.ltb_lt. lia.
Qed.
Lemma traffic_bound until w l : 0 < limit → 0 < trunc_secs window → until < 10 ^ 14 * millisecond → traffic until w l → ∀ past,
  0 <= w_now w <= until → sane (stamp w) past → keeps_record (stamp w) (now_ms w) past (view w key) → bounded past → bounded (past ++ l).
Proof.
  intros Hlim HW Huntil. induction 1 as [w|w v w1 δ l Hrun Hlater Hu _ IH|w δ l Hd Hu _ IH|w net l _ IH|w A m l Hm _ IH]; intros past Hw Hs Hk Hb.
  - by rewrite app_nil_r.
  - assert (now_ms w < 2 ^ 63) as Hbig by (unfold now_ms; unfold millisecond in *; div_lia).
    destruct (wp_intro _ _ _ _ _ Hrun (limiter_wp past w Hlim HW (proj1 Hw) Hbig Hs Hk)) as (Hnow&v'&[= <-]&Hv).
    assert (stamp w1 = stamp w) as Hst by (unfold stamp; by rewrite Hnow). assert (now_ms w1 = now_ms w) as Hms by (unfold now_ms; by rewrite Hnow).
    assert (0 <= δ) as Hd by (unfold stamp in Hlater; cbn in Hlater; destruct (Z.le_gt_cases 0 δ); [done|exfalso; div_lia]).
    assert (0 <= stamp w ∧ (stamp w + 1) / 1000 < 2 ^ 63) as [Hs0 Hs1] by (unfold stamp, millisecond in *; split; div_lia).
    assert (0 <= w_now (tick δ w1) <= until) as Hw1 by (cbn; lia).
    assert (∀ past', sane (stamp w + 1) past' → keeps_record (stamp w + 1) (now_ms w) past' (view w1 key) → bounded past' → bounded (past' ++ l)) as Hgo.
    { intros past' Hs' Hk' Hb'. destruct (record_tick (stamp w + 1) δ past' w1) as [H1 H2]; [done|lia|done|done|by rewrite Hms|]. by apply IH. }
    destruct Hv as [([h ->]&Hlt&Hk1)|[Hno Hk1]].
    + intros t. cbn [passed]. assert (in_window t (past ++ [stamp w] ++ l) ≡ₚ in_window t ((stamp w :: past) ++ l)) as ->.
      { unfold in_window. rewrite !List.filter_app. cbn [app]. change (stamp w :: past) with ([stamp w] ++ past).
        rewrite !List.filter_app, !app_assoc. apply Permutation_app_tail, Permutation_app_comm. }
      apply Hgo; [|done|].
      * destruct Hs as [Hnd Hs]. split; [constructor; [|done]|]; [intros Hin; specialize (Hs _ Hin); lia|].
        intros a [->|Ha]%elem_of_cons; [lia|]. specialize (Hs a Ha). lia.
      * apply (bounded_pass (now_ms w)); [done|by rewrite (proj1 (stamp_ms w))|done|done].
    + replace (passed v (stamp w)) with (@nil Z) by (destruct v; [by destruct (Hno headers)|done..]). apply Hgo; [|done|done].
      destruct Hs as [Hnd Hs]. split; [done|]. intros a Ha. specialize (Hs a Ha). lia.
  - destruct (record_tick (stamp w) δ past w) as [H1 H2]; try done; [|unfold stamp, millisecond in *; div_lia|apply IH; [cbn; lia|done..]].
    unfold stamp. cbn. split; [div_lia|apply Z.div_le_mono; lia].
  - by apply IH.
  - destruct (Hm w) as (Hn&_&Hv). assert (stamp (m w).2 = stamp w) as Hst by (unfold stamp; by rewrite Hn).
    assert (now_ms (m w).2 = now_ms w) as Hms by (unfold now_ms; by rewrite Hn). apply IH; rewrite ?Hn, ?Hst, ?Hms, ?Hv by (by intros ?); done.
Qed.

(** C31: requests are limited. Whatever happens meanwhile, outages included, a limiter that
    refuses when Redis is away lets at most [limit] requests of one caller pass in every
    window of the time of the server. *)
Theorem rate_limit_bound until w l t : 0 < limit → 0 < trunc_secs window → 0 <= w_now w <= until → until < 10 ^ 14 * millisecond →
  view w key = None → traffic until w l → Z.of_nat (length (in_window t l)) <= limit.
Proof.
  intros Hlim HW Hw Hu Hnone Htr. apply (traffic_bound until w l Hlim HW Hu Htr []); [done| |by rewrite Hnone; intros a ?%elem_of_nil|].
  - split; [constructor|]. by intros a ?%elem_of_nil.
  - intros t'. cbn. lia.
Qed.
End window.

(** ** Forged requests *)
Section csrf.
Context {R : Type} `{GounoCSRF R}.
(** A request that a page of another origin makes the browser send: the browser adds the
    cookies, the page knows none of them and sets no header. *)
Definition cross_site (secure : bool) (rq : WebRequest) : Prop :=
  rq_authorization (wr_request rq) = "" ∧ wr_csrf_header rq = "" ∧
  ∀ cookie, Cookie (wr_request rq) (csrf_cookie_name secure) = Some cookie → cookie = "" ∨ wr_csrf_form rq ≠ cookie.
Theorem cross_site_refused secure skipPaths rq w : cross_site secure rq → safe_method (rq_method (wr_request rq)) = false →
  skipped skipPaths (rq_path (wr_request rq)) = false → ∃ msg, CSRFMiddleware secure skipPaths rq w = (Ok (Forbid 403 msg), w).
Proof.
  intros (Hauth&Hhead&Hcookie) Hm Hp. unfold CSRFMiddleware. rewrite Hm. unfold bearer_exempt. rewrite Hauth. cbn [strip_pre]. rewrite Hp, Hhead.
  destruct (Cookie _ _) as [cookie|]; [|by eexists]. rewrite bool_decide_true by done. destruct (Hcookie _ eq_refl) as [->|Hne]; [by eexists|].
  destruct cookie as [|c cookie]; [by eexists|].
  destruct (CSRFMatches (String c cookie) (wr_csrf_form rq)) eqn:Hc; [by apply CSRFMatches_eq in Hc|]. by eexists.
Qed.
(** The exemption for bearer tokens is never given to a request that carries a session cookie. *)
Theorem bearer_exempt_without_session rq : bearer_exempt rq = true →
  ∃ token, rq_authorization (wr_request rq) = "Bearer " +:+ token ∧ IsPlausibleJWT token = true ∧
    (∀ c, c ∈ wr_raw_cookies rq → is_session_cookie (ToLower c.1) = false) ∧
    ((∃ c, c ∈ wr_raw_cookies rq ∧ is_access_cookie (ToLower c.1) = true) →
     ∃ c, c ∈ wr_raw_cookies rq ∧ is_access_cookie (ToLower c.1) = true ∧ c.2 = token).
Proof.
  unfold bearer_exempt. destruct (strip_pre _ _) as [token|] eqn:Hs; [|done]. rewrite andb_true_iff. intros [Hj Hc]. exists token.
  split; [by apply strip_pre_iff|]. split; [done|]. unfold hasOnlyAccessTokenCookie in Hc.
  destruct (existsb _ (wr_raw_cookies rq)) eqn:He; [done|]. split.
  - intros c Hin. apply not_true_iff_false. intros Hse. apply not_true_iff_false in He. apply He, existsb_exists. exists c.
    split; [by apply list_elem_of_In|done].
  - intros (c&Hin&Ha). destruct (List.filter _ _) as [|x l] eqn:Hf.
    + assert (c ∈ @nil (string * string)) as []%elem_of_nil. rewrite <-Hf. by apply list_elem_of_In, filter_In; rewrite <-list_elem_of_In.
    + rewrite <-Hf in Hc. apply existsb_exists in Hc as (y&Hy&Heq%bool_decide_eq_true). apply filter_In in Hy as [Hy1 Hy2].
      exists y. split; [by apply list_elem_of_In|done].
Qed.
End csrf.
