(* ===== verification/Startup.v ===== *)
(** * Starting up: signing keys and the construction of the services

    [internal/token/service/key_service.go], [internal/auth/module.go],
    [internal/oauth2/module.go] and [cmd/gosso/web_modules.go]. RSA keys and their encodings
    are the parameter [RsaLib]; the files are a map from paths, and any operation on them
    may fail. *)
From S2P Require Import Prelude GoTime Hash Url Redis World Cache Footprint TokenDomain TokenService Session OAuthDomain AuthCode DeviceCode GoStrings Mfa Scan Verification AuthCore PasswordReset Passkey OidcService SocialLogin HttpMiddleware Wiring Config AuthSpecs.
Local Open Scope Z_scope.

(** ** Files *)
Inductive Node : Type := Dir (perm : Z) | File (perm : Z) (content : string).
(** [bo_faults]: which of the next operations fail; [bo_seeds]: what the generator of keys
    draws; [bo_temps]: the names tried for temporary files. *)
Record Boot : Type := mkBoot {
  bo_nodes : gmap string Node;
  bo_faults : list bool;
  bo_seeds : list (list N);
  bo_temps : list string;
}.
#[local] Abbreviation BM := (M Boot).
Definition put_nodes (m : gmap string Node) (b : Boot) : Boot := mkBoot m (bo_faults b) (bo_seeds b) (bo_temps b).
Definition io_error : err := Anon "input/output error".
(** An operation on files, which may fail. *)
Definition fallible : BM unit := λ b,
  match bo_faults b with
  | [] => (Ok tt, b)
  | f :: l => ((if f : bool then Err io_error else Ok tt), mkBoot (bo_nodes b) l (bo_seeds b) (bo_temps b))
  end.
Definition node (path : string) : BM (option Node) := gets (λ b, bo_nodes b !! path).
Definition set_node (path : string) (n : Node) : BM unit := modify (λ b, put_nodes (<[path := n]> (bo_nodes b)) b).
Definition drop_node (path : string) : BM unit := modify (λ b, put_nodes (delete path (bo_nodes b)) b).
(** The permissions of what is at a path. *)
Definition os_Stat (path : string) : BM Z :=
  fallible ;;
  let! n := node path in
  match n with Some (Dir p) | Some (File p _) => ret p | None => fail (Anon "no such file or directory") end.
Definition os_ReadFile (path : string) : BM string :=
  fallible ;;
  let! n := node path in
  match n with Some (File _ t) => ret t | Some (Dir _) => fail (Anon "is a directory") | None => fail (Anon "no such file or directory") end.
(** Of a clean path. *)
Definition filepath_Dir (path : string) : string :=
  match cut_last "/" path with Some (d, _) => if bool_decide (d = "") then "/" else d | None => "." end.
(** Missing directories are made up to a root, [n] levels at most. *)
Fixpoint mkdir_all (n : nat) (dir : string) (m : gmap string Node) : option (gmap string Node) :=
  match m !! dir with
  | Some (Dir _) => Some m
  | Some (File _ _) => None
  | None =>
      match n with
      | O => None
      | S n => if bool_decide (dir ∈ ["/"; "."]) then Some (<[dir := Dir 448]> m)
               else m' ← mkdir_all n (filepath_Dir dir) m; Some (<[dir := Dir 448]> m')
      end
  end.
Definition os_MkdirAll (dir : string) : BM unit :=
  fallible ;;
  let! m := gets bo_nodes in
  match mkdir_all (S (String.length dir)) dir m with
  | Some m' => modify (put_nodes m')
  | None => fail (Anon "not a directory")
  end.
(** A name that is not in use. *)
Definition os_CreateTemp (dir : string) : BM string :=
  fallible ;;
  let! b := gets id in
  match List.find (λ t, bool_decide (bo_nodes b !! (dir +:+ "/.private-key-" +:+ t +:+ ".pem.tmp") = None)) (bo_temps b) with
  | None => fail (Anon "file exists")
  | Some t => let path := dir +:+ "/.private-key-" +:+ t +:+ ".pem.tmp" in set_node path (File 384 "") ;; ret path
  end.
(** Atomic: the new name has the old content of the temporary file. *)
Definition os_Rename (from to : string) : BM unit :=
  fallible ;;
  let! n := node from in
  let! old := node to in
  match n, old with
  | Some x, Some (File _ _) | Some x, None => drop_node from ;; set_node to x
  | _, _ => fail (Anon "rename")
  end.
Definition os_Remove (path : string) : BM unit := fallible ;; drop_node path.

(** ** [key_service.go] *)
Inductive PemContent : Type := NoBlock | NotPKCS8 | NotRSA | RsaKey (key : string).
Class RsaLib := {
  (** the size and what was drawn; it fails for sizes it does not take *)
  rsa_generate : Z → list N → option string;
  rsa_bits : string → Z;
  pkcs8_pem : string → option string;
  pem_content : string → PemContent;
  public_der : string → option string;
  rsa_generate_bits bits seed key : rsa_generate bits seed = Some key → rsa_bits key = bits;
  pem_round_trip key text : pkcs8_pem key = Some text → pem_content text = RsaKey key;
}.
Definition defaultRSAKeyBits : Z := 3072.
Record KeyService : Type := mkKeyService { ks_privateKey : string; ks_keyID : string }.

Section keys.
Context `{RsaLib}.
Definition generateKey (bits : Z) : BM string := λ b,
  match bo_seeds b with
  | [] => (Err (Anon "entropy"), b)
  | seed :: l => (match rsa_generate bits seed with Some key => Ok key | None => Err (Anon "crypto/rsa") end,
                  mkBoot (bo_nodes b) (bo_faults b) l (bo_temps b))
  end.
(** What is written before a failure is some beginning of the text; nothing reads it. *)
Definition write_key (tmp path text : string) : BM unit :=
  wrap "chmod temp file" fallible ;;
  set_node tmp (File 384 "") ;;
  wrap "encode PEM" fallible ;;
  set_node tmp (File 384 text) ;;
  wrap "close temp file" fallible ;;
  wrap "rename temp file" (os_Rename tmp path).
Definition savePrivateKeyToPEM (path key : string) : BM unit :=
  match pkcs8_pem key with
  | None => fail (Wrap "marshal PKCS8" (Anon "x509"))
  | Some text =>
      let! tmp := wrap "create temp file" (os_CreateTemp (filepath_Dir path)) in
      let! r := try (write_key tmp path text) in
      ignore (os_Remove tmp) ;;
      lift_res r
  end.
Definition generateAndSaveKey (path : string) (bits : Z) : BM string :=
  let! key := generateKey bits in
  wrap "create key directory" (os_MkdirAll (filepath_Dir path)) ;;
  savePrivateKeyToPEM path key ;;
  ret key.
Definition loadPrivateKeyFromPEM (path : string) : BM string :=
  let! data := wrap "read file" (os_ReadFile path) in
  match pem_content data with
  | NoBlock => fail (Anon "no PEM block found")
  | NotPKCS8 => fail (Wrap "parse PKCS8" (Anon "x509"))
  | NotRSA => fail (Anon "key is not RSA")
  | RsaKey key => guard_err (rsa_bits key <? 2048) (Anon "RSA key too small") ;; ret key
  end.
Definition computeKeyID (key : string) : res string :=
  match public_der key with None => Err (Wrap "marshal public key" (Anon "x509")) | Some der => Ok (b64_encode (sha256 der)) end.

(** A missing file, or one whose state is unknown. *)
Definition private_key_at (path : string) (isProduction : bool) (keyBits : Z) : BM string :=
  if bool_decide (path = "") then wrap "generate key" (generateKey keyBits) else
  let! found := try (os_Stat path) in
  match found with
  | Ok perm =>
      guard_err (negb (Z.land perm 63 =? 0) && isProduction) (Anon "RSA private key file has overly permissive permissions") ;;
      wrap "load private key" (loadPrivateKeyFromPEM path)
  | Err _ =>
      guard_err isProduction (Anon "RSA private key file not found in production mode") ;;
      wrap "generate and save key" (generateAndSaveKey path keyBits)
  end.
Definition NewKeyService (path keyID : string) (isProduction : bool) (keyBits : Z) : BM KeyService :=
  let keyBits := if keyBits =? 0 then defaultRSAKeyBits else keyBits in
  guard_err (keyBits <? 2048) (Anon "rsa_key_bits must be at least 2048") ;;
  let! key := private_key_at path isProduction keyBits in
  let! kid := (if bool_decide (keyID = "") then wrap "compute key ID" (lift_res (computeKeyID key)) else ret keyID) in
  ret (mkKeyService key kid).
End keys.

(** ** The modules *)
(** Constructors of libraries: whether they take their settings. *)
Class StartupLibs := {
  (** RP identifier, name, origin *)
  webauthn_new : string → string → string → bool;
  (** host, port *)
  mail_new_client : string → Z → bool;
}.
Definition defaultIfEmpty (value defaultValue : string) : string := if bool_decide (value = "") then defaultValue else value.
Definition provider_of (p : OAuthProviderSettings) (auth token userinfo : string) : OAuthProviderConfig :=
  mkProvider (ps_ClientID p) (ps_ClientSecret p) (ps_RedirectURI p) (ps_Scopes p)
    (defaultIfEmpty (ps_AuthURL p) auth) (defaultIfEmpty (ps_TokenURL p) token) (defaultIfEmpty (ps_UserInfoURL p) userinfo).
Definition buildOAuthProviders (cfg : GoUnoConfig) : list (string * OAuthProviderConfig) :=
  let p := cf_Providers cfg in
  let add name (s : OAuthProviderSettings) auth token userinfo :=
    if bool_decide (ps_ClientID s = "") then [] else [(name, provider_of s auth token userinfo)] in
  add "google" (pv_Google p) "https://accounts.google.com/o/oauth2/v2/auth" "https://oauth2.googleapis.com/token"
      "https://www.googleapis.com/oauth2/v2/userinfo" ++
  add "github" (pv_GitHub p) "https://github.com/login/oauth/authorize" "https://github.com/login/oauth/access_token"
      "https://api.github.com/user" ++
  add "wechat" (pv_WeChat p) "https://open.weixin.qq.com/connect/qrconnect" "https://api.weixin.qq.com/sns/oauth2/access_token"
      "https://api.weixin.qq.com/sns/userinfo".

(** The settings the mailer keeps: how long codes and links are said to live, and the
    least time between messages. *)
Record EmailService : Type := mkEmail { em_from : string; em_verifyCodeTTL : Z; em_passwordResetTTL : Z; em_sendInterval : Z }.
Definition NewEmailService `{StartupLibs} (c : SMTPConfig) : res EmailService :=
  if mail_new_client (sm_Host c) (sm_Port c) then Ok (mkEmail (sm_From c) (10 * minute) (30 * minute) (100 * millisecond))
  else Err (Wrap "create mail client" (Anon "mail")).
Definition SetSendRateLimit (d : Z) (e : EmailService) : EmailService :=
  mkEmail (em_from e) (em_verifyCodeTTL e) (em_passwordResetTTL e) (positive_or (em_sendInterval e) d).
Definition SetVerifyCodeTTL (d : Z) (e : EmailService) : EmailService :=
  mkEmail (em_from e) (positive_or (em_verifyCodeTTL e) d) (em_passwordResetTTL e) (em_sendInterval e).
Definition SetPasswordResetTTL (d : Z) (e : EmailService) : EmailService :=
  mkEmail (em_from e) (em_verifyCodeTTL e) (positive_or (em_passwordResetTTL e) d) (em_sendInterval e).

(** The URL the links of a password reset extend, in the form [String] gives it. *)
Definition reset_base (raw : string) : option string := match url_parse raw with Some _ => Some raw | None => None end.

Section modules.
Context {R : Type} `{RedisServer R} `{RsaLib} `{StartupLibs} (revoker : TokenRevoker R).
Record AuthModule : Type := mkAuthModule {
  am_SessionService : SessionConfig;
  am_PasskeyService : option PasskeyCfg;
  am_MFAService : MFAService;
  am_AuthService : AuthService R;
  am_SocialLoginService : option (list (string * OAuthProviderConfig));
  am_EmailService : EmailService;
  am_VerificationService : VerifyCfg;
  am_PasswordResetService : PasswordResetCfg;
}.
Definition social_login (providers : list (string * OAuthProviderConfig)) : res (option (list (string * OAuthProviderConfig))) :=
  match providers with
  | [] => Ok None
  | _ => match NewSocialLoginService providers with
         | Ok _ => Ok (Some providers) | Err e => Err (Wrap "initialize social login service" e) end
  end.
(** A relying party the library does not take only leaves passkeys out. *)
Definition passkey_service (c : AuthConfig) : option PasskeyCfg :=
  if negb (bool_decide (au_WebAuthnRPID c = "")) && webauthn_new (au_WebAuthnRPID c) (au_WebAuthnRPName c) (au_WebAuthnRPOrigin c)
  then Some (NewPasskeyServiceWithConfig (mkPasskeyCfg (au_ChallengeTTL c))) else None.
Definition auth_service (c : AuthConfig) (tokens : TokenCfg) (sessions : SessionConfig) (mfa : MFAService) : AuthService R :=
  NewAuthServiceWithConfig tokens sessions (Some revoker) mfa
    (mkAuthServiceConfig (au_LoginRateLimitWindow c) (au_LoginMaxAttempts c) (au_LoginMaxAttemptsPerIP c) (au_MFAVerificationTTL c)
       (au_MFAAccountMaxAttempts c) (au_MFAAccountRateLimitWindow c) (au_LoginIPAllowlist c)).
Definition InitializeAuthModule (c : AuthConfig) (smtp : SMTPConfig) (tokens : TokenCfg) (providers : list (string * OAuthProviderConfig)) :
    res AuthModule :=
  let sessions := NewSessionServiceWithConfig (mkSessCfg (au_SessionTTL c) (au_MaxSessionAge c) (au_MaxSessions c) false) in
  let passkeys := passkey_service c in
  match NewMFAServiceWithConfig (au_Issuer c) (mkMfaConfig (au_TOTPEncryptionKey c) (au_BackupCodeCount c) (au_BackupCodeLength c))
          (bool_decide (is_Some passkeys)) with
  | Err e => Err (Wrap "initialize MFA service" e)
  | Ok mfa =>
      match social_login providers with
      | Err e => Err e
      | Ok social =>
          match NewEmailService smtp with
          | Err e => Err (Wrap "initialize email service" e)
          | Ok email =>
              Ok (mkAuthModule sessions passkeys mfa (auth_service c tokens sessions mfa) social
                (SetPasswordResetTTL (au_PasswordResetTokenTTL c) (SetVerifyCodeTTL (au_VerifyCodeTTL c) (SetSendRateLimit (sm_SendRateLimit smtp) email)))
                (NewVerificationServiceWithConfig (mkVerifyCfg (au_VerifyCodeTTL c) (au_VerifyCooldownTTL c) (au_VerifyCodeMaxAttempts c) 0 (au_VerifyHashPepper c)))
                (NewPasswordResetServiceWithConfig (mkResetCfg (au_PasswordResetTokenTTL c) (au_PasswordResetCooldownTTL c)
                   (au_PasswordResetMaxAttempts c) (reset_base (au_PasswordResetBaseURL c)) true)))
          end
      end
  end.

(** [InitializeOAuth2Module]: what its services keep of the settings. *)
Definition InitializeOAuth2Module (c : AuthConfig) : res (Z * DeviceCfg) :=
  match NewAuthCodeService (au_AuthorizationCodeExpiry c) with
  | Err e => Err (Wrap "initialize auth code service" e)
  | Ok expiry => Ok (expiry, NewDeviceCodeService (mkDeviceCfg (au_DeviceCodeExpiry c) (au_DeviceCodeInterval c)))
  end.

Record appModules : Type := mkModules {
  mo_KeyService : KeyService;
  mo_TokenService : TokenCfg;
  mo_AuthModule : AuthModule;
  mo_CodeExpiry : Z;
  mo_DeviceCodes : DeviceCfg;
  mo_OAuthSettings : OAuthSettings;
  mo_SecureCookie : bool;
}.
Definition initModules (cfg : GoUnoConfig) : M Boot appModules :=
  let c := cf_Auth cfg in
  let! keys := wrap "failed to initialize key service"
    (NewKeyService (au_PrivateKeyPath c) (au_KeyID c) (ws_Production (cf_Web cfg)) (au_RSAKeyBits c)) in
  let! tokens := wrap "failed to initialize token service" (lift_res (NewTokenService
    (mkTokenCfg (au_Issuer c) (au_AccessTokenExpiry c) (au_RefreshTokenExpiry c) (au_EnforceIPBinding c) (ks_keyID keys) (ks_privateKey keys)))) in
  let! auth := wrap "failed to initialize auth module" (lift_res (InitializeAuthModule c (cf_SMTP cfg) tokens (buildOAuthProviders cfg))) in
  let! (expiry, devices) := wrap "failed to initialize oauth2 module" (lift_res (InitializeOAuth2Module c)) in
  ret (mkModules keys tokens auth expiry devices
    (mkSettings (au_AccountValidatorCacheTTL c) (au_IDTokenExpiry c) (au_EnforcePKCEForConfidential c) (au_IncludeUserRoles c) (au_IncludeUserPermissions c))
    (negb (ws_Debug (cf_Web cfg)))).
End modules.

(** * Properties *)
(** ** Validated settings *)
Lemma checks_ok l : checks l = Ok tt → Forall (λ c, c.1 = false) l.
Proof. induction l as [|[[] t] l IH]; cbn; [constructor|done|]. intros Hl. constructor; [done|by apply IH]. Qed.
Lemma errors_of_nil r : errors_of r = [] → r = Ok tt.
Proof. by destruct r as [[]|e]. Qed.
Lemma checks_app l1 l2 : checks (l1 ++ l2) = Ok tt ↔ checks l1 = Ok tt ∧ checks l2 = Ok tt.
Proof. induction l1 as [|[[] t] l1 IH]; cbn; naive_solver. Qed.
Lemma validate_parts stat c : Validate stat c = [] →
  validateWebServer c = Ok tt ∧ validateLog c = Ok tt ∧ validateDatabase c = Ok tt ∧ validateRedis c = Ok tt ∧ validateAuth stat c = Ok tt ∧
  validateSMTP c = Ok tt ∧ validateCORS c = Ok tt ∧ validateObservability c = [] ∧ validateOAuthProviders c = [].
Proof. unfold Validate. rewrite !app_nil. intros (?&?&?&?&?&?&?&?&?). by repeat split; try apply errors_of_nil. Qed.
Lemma values_positive text l : checks (map (λ p : string * Z, (p.2 <=? 0, "auth: " +:+ p.1 +:+ text)) l) = Ok tt →
  Forall (λ p : string * Z, 0 < p.2) l.
Proof. intros Hl%checks_ok%Forall_map. eapply Forall_impl; [exact Hl|]. intros p Hp%Z.leb_gt. exact Hp. Qed.
Lemma values_not_negative text l : checks (map (λ p : string * Z, (p.2 <? 0, "auth: " +:+ p.1 +:+ text)) l) = Ok tt →
  Forall (λ p : string * Z, 0 <= p.2) l.
Proof. intros Hl%checks_ok%Forall_map. eapply Forall_impl; [exact Hl|]. intros p Hp%Z.ltb_ge. exact Hp. Qed.
Lemma positive_or_pos d v : 0 < d → 0 < positive_or d v.
Proof. unfold positive_or. destruct (Z.ltb_spec 0 v); lia. Qed.
Lemma positive_or_keeps d v : 0 < v → positive_or d v = v.
Proof. unfold positive_or. intros Hv. by rewrite (proj2 (Z.ltb_lt 0 v)). Qed.
(** No entry of an allowlist that is accepted gets lost. *)
Lemma allowlist_complete l : forallb known_address l = true → length (parseIPAllowlist l) = length l.
Proof.
  induction l as [|x l IH]; cbn; [done|]. intros [Hx Hl]%andb_true_iff. unfold known_address, isValidCIDR in Hx.
  destruct (ParseIP x); [cbn; by rewrite IH|]. destruct (ParseCIDR x); [cbn; by rewrite IH|done].
Qed.

Section start.
Context {R : Type} `{RedisServer R} `{RsaLib} `{StartupLibs} (revoker : TokenRevoker R).

(** What holds of the services whenever the settings were accepted. *)
Record guarded (cfg : GoUnoConfig) (m : appModules (R := R)) : Prop := {
  g_tokens : 0 < tc_accessExpiry (mo_TokenService m) ∧ 0 < tc_refreshExpiry (mo_TokenService m);
  g_sessions : let s := am_SessionService (mo_AuthModule m) in
    sc_ttl s = au_SessionTTL (cf_Auth cfg) ∧ 0 < sc_ttl s ∧ 0 < sc_maxAge s ∧ sc_maxSessions s = au_MaxSessions (cf_Auth cfg) ∧
    0 < sc_maxSessions s ∧ (0 < au_MaxSessionAge (cf_Auth cfg) → sc_ttl s <= sc_maxAge s);
  g_login : let s := am_AuthService (mo_AuthModule m) in
    0 < as_loginRateLimitWindow s ∧ 0 < as_loginMaxAttempts s ∧ 0 < as_loginMaxAttemptsPerIP s ∧ 0 < as_mfaVerificationTTL s ∧
    0 < as_mfaAccountMaxAttempts s ∧ 0 < as_mfaAccountRateLimitWindow s ∧
    length (as_loginIPAllowlist s) = length (au_LoginIPAllowlist (cf_Auth cfg)) ∧
    as_tokenSvc s = mo_TokenService m ∧ as_sessionSvc s = am_SessionService (mo_AuthModule m);
  g_mfa : let s := am_MFAService (mo_AuthModule m) in
    (∃ key, mf_totpEncryptionKey s = Some key ∧ length key = 32%nat) ∧ 1 <= mf_backupCodeCount s <= 20 ∧ 1 <= mf_backupCodeLength s <= 12;
  g_verify : let v := am_VerificationService (mo_AuthModule m) in 0 < vc_codeTTL v ∧ 0 < vc_cooldownTTL v ∧ 0 < vc_maxAttempts v;
  g_reset : let p := am_PasswordResetService (mo_AuthModule m) in 0 < pc_tokenTTL p ∧ 0 < pc_cooldownTTL p ∧ 0 < pc_maxAttempts p;
  g_codes : 0 < mo_CodeExpiry m ∧ 0 < dv_expiry (mo_DeviceCodes m) ∧ 0 < dv_interval (mo_DeviceCodes m);
  g_passkeys : ∀ p, am_PasskeyService (mo_AuthModule m) = Some p → 0 < pk_challengeTTL p;
  g_production : ws_Production (cf_Web cfg) = true →
    uses_https (tc_issuer (mo_TokenService m)) = true ∧ local_host (tc_issuer (mo_TokenService m)) = false ∧ mo_SecureCookie m = true ∧
    vc_hashPepper (am_VerificationService (mo_AuthModule m)) ≠ "" ∧ ks_keyID (mo_KeyService m) ≠ "" ∧
    (co_AllowCredentials (cf_CORS cfg) = true → "*" ∉ co_AllowedOrigins (cf_CORS cfg));
}.
(** Beyond what is checked: lifetimes that are kept in whole seconds have at least one, and
    the limits of attempts are below what a counter in Redis can reach. *)
Definition plain_settings (a : AuthConfig) : bool :=
  forallb (λ d, (d =? 0) || (second <=? d))
    [au_VerifyCodeTTL a; au_VerifyCooldownTTL a; au_PasswordResetTokenTTL a; au_PasswordResetCooldownTTL a] &&
  forallb (λ n, n <? 2 ^ 62)
    [au_LoginMaxAttempts a; au_LoginMaxAttemptsPerIP a; au_MFAAccountMaxAttempts a; au_VerifyCodeMaxAttempts a; au_PasswordResetMaxAttempts a].
(** What the theorems about guesses, codes and resets ask of the services. *)
Record within_theorems (m : appModules (R := R)) : Prop := {
  wt_lifetimes : let v := am_VerificationService (mo_AuthModule m) in let p := am_PasswordResetService (mo_AuthModule m) in
    Forall (λ d, 0 < trunc_secs d) [vc_codeTTL v; vc_cooldownTTL v; pc_tokenTTL p; pc_cooldownTTL p];
  wt_limits : let s := am_AuthService (mo_AuthModule m) in
    Forall (λ n, 0 < n < 2 ^ 62) [as_loginMaxAttempts s; as_loginMaxAttemptsPerIP s; as_mfaAccountMaxAttempts s;
      vc_maxAttempts (am_VerificationService (mo_AuthModule m)); pc_maxAttempts (am_PasswordResetService (mo_AuthModule m))];
}.
End start.
(** The checks in [H], one by one. *)
Ltac each_check H := apply checks_ok in H; repeat rewrite Forall_cons in H; cbn [fst] in H.
Section parts.
Context (stat : string → FileStat) (c : GoUnoConfig).
#[local] Abbreviation a := (cf_Auth c).
Lemma duration_facts : validateAuth stat c = Ok tt →
  Forall (λ p : string * Z, 0 < p.2) (positive_durations c) ∧ Forall (λ p : string * Z, 0 <= p.2) (defaulted_values c) ∧
  0 <= au_MaxSessionAge a ∧ (0 < au_MaxSessionAge a → au_SessionTTL a <= au_MaxSessionAge a) ∧ au_BackupCodeCount a <= 20 ∧
  au_BackupCodeLength a <= 12 ∧ forallb known_address (au_LoginIPAllowlist a) = true.
Proof.
  unfold validateAuth, auth_checks. rewrite !checks_app. intros (_&_&Hd&_). unfold duration_checks in Hd. rewrite !checks_app in Hd.
  destruct Hd as (Hpos&Hage&Hneg&Hmore). apply values_positive in Hpos. apply values_not_negative in Hneg.
  each_check Hage. each_check Hmore.
  destruct Hage as (Hage1&Hage2&_), Hmore as (Hcount&Hlen&Hlist&_). apply Z.ltb_ge in Hage1, Hcount, Hlen. apply negb_false_iff in Hlist.
  split_and!; try done. intros Hm. apply andb_false_iff in Hage2 as [Hf%Z.ltb_ge|Hf%Z.ltb_ge]; lia.
Qed.
Lemma key_facts : validateAuth stat c = Ok tt → ∃ key, hex_decode (au_TOTPEncryptionKey a) = Some key ∧ length key = 32%nat ∧ au_TOTPEncryptionKey a ≠ "".
Proof.
  unfold validateAuth, auth_checks. rewrite !checks_app. intros (_&Hk&_). unfold totp_key_checks in Hk. each_check Hk.
  destruct Hk as (Hne&_&Hlen&_). apply bool_decide_eq_false in Hne. apply negb_false_iff, bool_decide_eq_true in Hlen.
  destruct (hex_decode _) as [key|]; [|done]. exists key. split; [done|]. split; [by injection Hlen|done].
Qed.
Lemma session_facts : validateAuth stat c = Ok tt → 0 < au_MaxSessions a.
Proof.
  unfold validateAuth, auth_checks. rewrite !checks_app. intros (_&_&_&_&Hs&_). unfold session_checks in Hs. each_check Hs.
  destruct Hs as (Hm&_). by apply Z.leb_gt in Hm.
Qed.
Lemma web_facts : validateWebServer c = Ok tt → ws_Production (cf_Web c) = true → ws_Debug (cf_Web c) = false.
Proof.
  unfold validateWebServer. destruct (checks _) as [[]|e] eqn:Hc; [|done]. intros _ Hp. unfold web_server_checks in Hc. each_check Hc.
  destruct Hc as (_&_&_&_&_&_&_&_&_&_&_&_&Hd&_). rewrite Hp in Hd. exact Hd.
Qed.
Lemma cors_facts : validateCORS c = Ok tt → co_AllowCredentials (cf_CORS c) = true → "*" ∉ co_AllowedOrigins (cf_CORS c).
Proof.
  unfold validateCORS. destruct (checks _) as [[]|e] eqn:Hc; [|done]. intros _ Hp. each_check Hc. destruct Hc as (_&Hw&_).
  rewrite Hp in Hw. cbn [andb] in Hw. intros Hin. apply not_true_iff_false in Hw. apply Hw, existsb_exists. exists "*".
  split; [by apply list_elem_of_In|by rewrite bool_decide_true].
Qed.
Lemma production_facts : validateAuth stat c = Ok tt → ws_Production (cf_Web c) = true →
  uses_https (au_Issuer a) = true ∧ local_host (au_Issuer a) = false ∧ au_VerifyHashPepper a ≠ "" ∧ au_KeyID a ≠ "".
Proof.
  unfold validateAuth, auth_checks. rewrite !checks_app. intros (Hi&_&_&Hk%checks_ok&Hs&_) Hp.
  unfold issuer_checks in Hi. unfold session_checks in Hs. each_check Hi. each_check Hs. rewrite Hp in *. cbn [andb] in *.
  destruct Hi as (_&_&_&Hh&Hl&_), Hs as (_&_&_&Hpep&_). apply negb_false_iff in Hh. apply bool_decide_eq_false in Hpep.
  split_and!; try done. intros Hkid. unfold private_key_checks in Hk. unfold unset in Hk at 2. rewrite Hkid, bool_decide_true, Hp in Hk by done.
  revert Hk. destruct (unset _); [by rewrite Forall_cons; cbn; intros [? _]|]. rewrite Forall_app. intros [_ [? _]%Forall_cons]. done.
Qed.
End parts.

Lemma key_id_kept `{RsaLib} path kid prod bits b keys b' : NewKeyService path kid prod bits b = (Ok keys, b') → kid ≠ "" → ks_keyID keys = kid.
Proof.
  unfold NewKeyService, bind. intros Hrun Hk. rewrite bool_decide_false in Hrun by done.
  destruct (guard_err _ _ _) as [[[]|e] b1]; [|done]. destruct (private_key_at _ _ _ _) as [[key|e] b2]; [|done]. by injection Hrun as <- _.
Qed.
Section startup.
Context {R : Type} `{RedisServer R} `{RsaLib} `{StartupLibs} (revoker : TokenRevoker R).

(** The module of the authentication, when nothing stops it. *)
Definition auth_module (cfg : GoUnoConfig) (tokens : TokenCfg) (key : list N) : AuthModule (R := R) :=
  let c := cf_Auth cfg in
  let sessions := NewSessionServiceWithConfig (mkSessCfg (au_SessionTTL c) (au_MaxSessionAge c) (au_MaxSessions c) false) in
  let mfa := mkMfa (au_Issuer c) (Some key) (positive_or defaultBackupCodeCount (au_BackupCodeCount c))
               (positive_or defaultBackupCodeLength (au_BackupCodeLength c)) (bool_decide (is_Some (passkey_service c))) in
  mkAuthModule sessions (passkey_service c) mfa (auth_service revoker c tokens sessions mfa)
    (match buildOAuthProviders cfg with [] => None | l => Some l end)
    (SetPasswordResetTTL (au_PasswordResetTokenTTL c) (SetVerifyCodeTTL (au_VerifyCodeTTL c) (SetSendRateLimit (sm_SendRateLimit (cf_SMTP cfg))
       (mkEmail (sm_From (cf_SMTP cfg)) (10 * minute) (30 * minute) (100 * millisecond)))))
    (NewVerificationServiceWithConfig (mkVerifyCfg (au_VerifyCodeTTL c) (au_VerifyCooldownTTL c) (au_VerifyCodeMaxAttempts c) 0 (au_VerifyHashPepper c)))
    (NewPasswordResetServiceWithConfig (mkResetCfg (au_PasswordResetTokenTTL c) (au_PasswordResetCooldownTTL c)
       (au_PasswordResetMaxAttempts c) (reset_base (au_PasswordResetBaseURL c)) true)).
Lemma clamped_count d n hi : n <= hi → (if (0 <? n) && (n <=? hi) then n else d) = positive_or d n.
Proof. intros Hn. unfold positive_or. rewrite (proj2 (Z.leb_le n hi)), andb_true_r by done. done. Qed.
Lemma social_login_ok providers : NewSocialLoginService providers = Ok tt →
  social_login providers = Ok (match providers with [] => None | l => Some l end).
Proof. intros Hok. unfold social_login. destruct providers; [done|]. by rewrite Hok. Qed.

Lemma auth_module_starts stat cfg tokens : validateAuth stat cfg = Ok tt → NewSocialLoginService (buildOAuthProviders cfg) = Ok tt →
  mail_new_client (sm_Host (cf_SMTP cfg)) (sm_Port (cf_SMTP cfg)) = true →
  ∃ key, length key = 32%nat ∧ InitializeAuthModule revoker (cf_Auth cfg) (cf_SMTP cfg) tokens (buildOAuthProviders cfg) = Ok (auth_module cfg tokens key).
Proof.
  intros Ha Hsoc%social_login_ok Hmail. destruct (key_facts _ _ Ha) as (key&Hkey&Hlen&Hne). exists key. split; [exact Hlen|].
  destruct (duration_facts _ _ Ha) as (_&_&_&_&Hcount&Hlength&_).
  unfold InitializeAuthModule, NewMFAServiceWithConfig. cbn [mc_TOTPEncryptionKey mc_BackupCodeCount mc_BackupCodeLength].
  rewrite bool_decide_false, Hkey, Hlen, Hsoc, !clamped_count by done. cbn [Nat.eqb negb]. unfold NewEmailService. rewrite Hmail. unfold auth_module. by destruct (buildOAuthProviders cfg).
Qed.

(** A lifetime of whole seconds or none keeps at least one; a limit stays below its bound. *)
Lemma whole_seconds d n : second <= d → (n =? 0) || (second <=? n) = true → 0 < trunc_secs (positive_or d n).
Proof.
  unfold positive_or, trunc_secs, second. intros Hd [Hn%Z.eqb_eq|Hn%Z.leb_le]%orb_prop; [subst n; cbn|destruct (0 <? n)]; div_lia.
Qed.
Lemma below_bound d n : 0 < d < 2 ^ 62 → n < 2 ^ 62 → 0 < positive_or d n < 2 ^ 62.
Proof. unfold positive_or. intros Hd Hn. destruct (Z.ltb_spec 0 n); lia. Qed.

(** C37: c: settings that were accepted start a server, once it has its keys, the URLs of the
    providers are taken and there is a mail client. Its services have positive lifetimes
    and limits, a key of 32 bytes for the secrets of authenticators, an allowlist without a
    gap, and in production an https issuer, secure cookies, a pepper and no credentials for
    any origin. When besides the lifetimes of codes, reset tokens and their pauses are
    unset or a second at least, which is not checked, and the limits of attempts below
    2^62, the services meet the conditions of the theorems on guesses, codes and resets. *)
Theorem valid_config_starts stat cfg boot keys boot' :
  Validate stat cfg = [] → NewSocialLoginService (buildOAuthProviders cfg) = Ok tt →
  mail_new_client (sm_Host (cf_SMTP cfg)) (sm_Port (cf_SMTP cfg)) = true →
  NewKeyService (au_PrivateKeyPath (cf_Auth cfg)) (au_KeyID (cf_Auth cfg)) (ws_Production (cf_Web cfg)) (au_RSAKeyBits (cf_Auth cfg)) boot = (Ok keys, boot') →
  ∃ m, initModules revoker cfg boot = (Ok m, boot') ∧ mo_KeyService m = keys ∧ guarded cfg m ∧
    (plain_settings (cf_Auth cfg) = true → within_theorems m).
Proof.
  intros (Hweb&_&_&_&Ha&_&Hcors&_)%validate_parts Hsoc Hmail Hkeys. set (c := cf_Auth cfg) in *.
  set (tokens := mkTokenCfg (au_Issuer c) (au_AccessTokenExpiry c) (au_RefreshTokenExpiry c) (au_EnforceIPBinding c) (ks_keyID keys) (ks_privateKey keys)).
  destruct (auth_module_starts stat cfg tokens Ha Hsoc Hmail) as (key&Hlen&Hauth). fold c in Hauth.
  destruct (duration_facts _ _ Ha) as (Hpos&Hdef&Hage&Hage'&Hcount&Hlength&Hlist). fold c in Hage, Hage', Hcount, Hlength, Hlist.
  unfold positive_durations, defaulted_values in Hpos, Hdef. repeat rewrite Forall_cons in Hpos. repeat rewrite Forall_cons in Hdef.
  cbn [snd] in Hpos, Hdef. fold c in Hpos, Hdef.
  assert (NewTokenService tokens = Ok tokens) as Htokens.
  { unfold NewTokenService, tokens. cbn. by rewrite !(proj2 (Z.leb_gt _ 0)) by lia. }
  assert (∃ e d, InitializeOAuth2Module c = Ok (e, d) ∧ 0 < e ∧ 0 < dv_expiry d ∧ 0 < dv_interval d) as (e&d&Hcodes&Hed).
  { unfold InitializeOAuth2Module, NewAuthCodeService, NewDeviceCodeService. cbn. rewrite !(proj2 (Z.leb_gt _ 0)) by lia.
    eexists _, _. split; [done|]. cbn. lia. }
  eexists. split.
  { unfold initModules, bind, wrap. cbv zeta. fold c. rewrite Hkeys. cbn [wrap_res]. fold tokens. unfold lift_res. rewrite Htokens. cbn [wrap_res]. cbv beta iota. rewrite Hauth. cbv beta iota.
    rewrite Hcodes. reflexivity. }
  split; [done|]. split.
  2:{ fold c. intros [Hs Hl]%andb_prop. cbn [forallb] in Hs, Hl. rewrite !andb_true_iff in Hs. rewrite !andb_true_iff, !Z.ltb_lt in Hl.
    split; cbn; repeat rewrite Forall_cons; split_and!; try (by apply Forall_nil);
      first [apply whole_seconds; [by vm_compute|tauto]|apply below_bound; [by split|tauto]]. }
  pose proof (session_facts _ _ Ha) as Hmax. fold c in Hmax.
  constructor; cbn; fold c.
  - split; lia.
  - change (if 0 <? au_SessionTTL c then _ else _) with (positive_or DefaultSessionTTL (au_SessionTTL c)).
    change (if 0 <? au_MaxSessions c then _ else _) with (positive_or DefaultMaxSessions (au_MaxSessions c)).
    change (if 0 <? au_MaxSessionAge c then _ else _) with (positive_or DefaultMaxSessionAge (au_MaxSessionAge c)).
    rewrite !(positive_or_keeps _ (au_SessionTTL c)), !(positive_or_keeps _ (au_MaxSessions c)) by (try lia; tauto).
    split_and!; try done; try tauto; [by apply positive_or_pos|]. intros Hm. rewrite positive_or_keeps by done. by apply Hage'.
  - split_and!; try (by apply positive_or_pos); [by apply allowlist_complete|done..].
  - split; [by exists key|]. unfold positive_or, defaultBackupCodeCount, defaultBackupCodeLength.
    destruct (Z.ltb_spec 0 (au_BackupCodeCount c)), (Z.ltb_spec 0 (au_BackupCodeLength c)); lia.
  - split_and!; by apply positive_or_pos.
  - split_and!; by apply positive_or_pos.
  - exact Hed.
  - intros p. unfold passkey_service. destruct (_ && _); [|done]. intros [= <-]. cbn. case_match eqn:Hz; [done|]. by apply Z.leb_gt.
  - intros Hp. destruct (production_facts _ _ Ha Hp) as (Hi&Hl&Hpep&Hkid). fold c in Hi, Hl, Hpep, Hkid.
    split_and!; try done; [by rewrite (web_facts _ Hweb Hp)| |by apply cors_facts].
    by rewrite (key_id_kept _ _ _ _ _ _ _ Hkeys).
Qed.
End startup.

(** ** Keys *)
Section key_files.
Context `{RsaLib}.
Implicit Types b : Boot.

Lemma wp_fallible (Q : res unit → Boot → Prop) b :
  (∀ b', bo_nodes b' = bo_nodes b → Q (Ok tt) b' ∧ Q (Err io_error) b') → wp fallible Q b.
Proof.
  intros HQ. unfold wp, fallible. destruct b as [m [|f l] seeds temps]; cbn; [by apply HQ|].
  destruct (HQ (mkBoot m l seeds temps) eq_refl). by destruct f.
Qed.
(** The key file is as it was, or has this text and is for its owner only. *)
Definition kept_or_written path text b b' : Prop :=
  bo_nodes b' !! path = bo_nodes b !! path ∨ bo_nodes b' !! path = Some (File 384 text).
(** A failure that left the key file alone. *)
#[local] Ltac failed H := split; [left; cbn; by rewrite H|done].
Lemma write_key_wp tmp path text b : tmp ≠ path →
  wp (write_key tmp path text) (λ r b', kept_or_written path text b b' ∧ ∀ u, r = Ok u → bo_nodes b' !! path = Some (File 384 text)) b.
Proof.
  intros Hne. unfold write_key, kept_or_written.
  apply wp_bind, wp_wrap, wp_fallible. intros b1 Hb1. split; [|failed Hb1].
  apply wp_bind, wp_modify. apply wp_bind, wp_wrap, wp_fallible. intros b2 Hb2. cbn in Hb2.
  assert (∀ x, (<[tmp := x]> (bo_nodes b1)) !! path = bo_nodes b !! path) as Hp by (intros x; by rewrite lookup_insert_ne, Hb1).
  assert (bo_nodes b2 !! path = bo_nodes b !! path) as Hp2 by (by rewrite Hb2, Hp).
  split; [|failed Hp2]. apply wp_bind, wp_modify. apply wp_bind, wp_wrap, wp_fallible. intros b3 Hb3. cbn in Hb3.
  assert (bo_nodes b3 !! path = bo_nodes b !! path) as Hp3 by (by rewrite Hb3, lookup_insert_ne).
  split; [|failed Hp3]. apply wp_wrap. unfold os_Rename. apply wp_bind, wp_fallible. intros b4 Hb4.
  assert (bo_nodes b4 !! path = bo_nodes b !! path) as Hp4 by (by rewrite Hb4). split; [|failed Hp4].
  apply wp_bind, wp_gets. apply wp_bind, wp_gets. rewrite (f_equal (lookup tmp) Hb4), Hb3, lookup_insert_eq.
  destruct (bo_nodes b4 !! path) as [[]|] eqn:Hold; try (apply wp_fail; split; [left; congruence|done]).
  all: apply wp_bind, wp_modify; apply wp_modify; cbn; rewrite lookup_insert_eq; by auto.
Qed.
Definition temp_name (dir t : string) : string := dir +:+ "/.private-key-" +:+ t +:+ ".pem.tmp".
Lemma save_wp path key b : (∀ t, path ≠ temp_name (filepath_Dir path) t) →
  wp (savePrivateKeyToPEM path key) (λ r b', (bo_nodes b' !! path = bo_nodes b !! path ∨
     ∃ text, pkcs8_pem key = Some text ∧ bo_nodes b' !! path = Some (File 384 text)) ∧
     ∀ u, r = Ok u → ∃ text, pkcs8_pem key = Some text ∧ bo_nodes b' !! path = Some (File 384 text)) b.
Proof.
  intros Hname. unfold savePrivateKeyToPEM. destruct (pkcs8_pem key) as [text|]; [|apply wp_fail; split; [by left|done]].
  apply wp_bind, wp_wrap. unfold os_CreateTemp. apply wp_bind, wp_fallible. intros b1 Hb1. split; [|failed Hb1].
  apply wp_bind, wp_gets. destruct (List.find _ _) as [t|]; [|apply wp_fail; failed Hb1].
  fold (temp_name (filepath_Dir path) t). pose proof (Hname t) as Hne.
  apply wp_bind, wp_modify. apply wp_ret. apply wp_bind, wp_try. eapply wp_mono; [apply write_key_wp; congruence|].
  intros r b2 [Hkept Hok]. unfold kept_or_written in *. cbn in Hkept. rewrite lookup_insert_ne, Hb1 in Hkept by congruence.
  apply wp_bind, wp_ignore. unfold os_Remove.
  apply wp_bind, wp_fallible. intros b3 Hb3.
  assert (∀ b4, bo_nodes b4 !! path = bo_nodes b2 !! path → wp (lift_res r) (λ (r' : res unit) b', (bo_nodes b' !! path = bo_nodes b !! path ∨
     ∃ text0, Some text = Some text0 ∧ bo_nodes b' !! path = Some (File 384 text0)) ∧
     ∀ u, r' = Ok u → ∃ text0, Some text = Some text0 ∧ bo_nodes b' !! path = Some (File 384 text0)) b4) as Hend.
  { intros b4 Hb4. apply wp_lift_res. rewrite Hb4. split; [destruct Hkept; eauto|]. intros u Hu. eauto. }
  split; [|apply Hend; by rewrite Hb3]. apply wp_modify. apply Hend. cbn. by rewrite lookup_delete_ne, Hb3 by congruence.
Qed.
(** The directories above a path are shorter. *)
Lemma cut_last_length ch t d f : cut_last ch t = Some (d, f) → (String.length d < String.length t)%nat.
Proof.
  revert d f. induction t as [|x t IH]; intros d f; cbn; [done|]. destruct (cut_last ch t) as [[d' f']|].
  - intros [= <- <-]. cbn. specialize (IH d' f' eq_refl). lia.
  - case_bool_decide; [|done]. intros [= <- <-]. cbn. lia.
Qed.
Lemma dir_length p : (1 < String.length p)%nat → (1 <= String.length (filepath_Dir p) < String.length p)%nat.
Proof.
  unfold filepath_Dir. intros Hp. destruct (cut_last "/" p) as [[d f]|] eqn:Hc; [|cbn; lia].
  apply cut_last_length in Hc. destruct (bool_decide_reflect (d = "")); [cbn; lia|]. destruct d; [done|cbn in *; lia].
Qed.
Lemma mkdir_keeps path n dir m m' : mkdir_all n dir m = Some m' → (1 <= String.length dir < String.length path)%nat → m' !! path = m !! path.
Proof.
  revert dir m'. induction n as [|n IH]; intros dir m'; cbn; (destruct (m !! dir) as [[]|] eqn:Hdir; [by intros [= <-]|done|]); [done|].
  intros Hm Hlen. assert (dir ≠ path) as Hne by (intros ->; lia). case_bool_decide as Hroot.
  - injection Hm as <-. by rewrite lookup_insert_ne.
  - destruct (mkdir_all n _ _) as [m1|] eqn:Hrec; [|done]. injection Hm as <-. rewrite lookup_insert_ne by done.
    apply (IH _ _ Hrec). destruct (decide (String.length dir = 1%nat)) as [H1|]; [|pose proof (dir_length dir); lia].
    unfold filepath_Dir. destruct (cut_last "/" dir) as [[d f]|] eqn:Hc; [|cbn; lia]. apply cut_last_length in Hc.
    destruct d as [|x d]; [rewrite bool_decide_true by done; cbn; lia|cbn in *; lia].
Qed.
Lemma wp_mkdir dir (Q : res unit → Boot → Prop) b path : (1 <= String.length dir < String.length path)%nat →
  (∀ r b', bo_nodes b' !! path = bo_nodes b !! path → Q r b') → wp (os_MkdirAll dir) Q b.
Proof.
  intros Hlen HQ. unfold os_MkdirAll. apply wp_bind, wp_fallible. intros b1 Hb1. split; [|apply HQ; by rewrite Hb1].
  apply wp_bind, wp_gets. destruct (mkdir_all _ _ _) as [m|] eqn:Hm; [|apply wp_fail, HQ; by rewrite Hb1].
  apply wp_modify, HQ. cbn. by rewrite (mkdir_keeps _ _ _ _ _ Hm Hlen), Hb1.
Qed.
Lemma wp_generate bits (Q : res string → Boot → Prop) b :
  (∀ key b', bo_nodes b' = bo_nodes b → rsa_bits key = bits → Q (Ok key) b') →
  (∀ e b', bo_nodes b' = bo_nodes b → Q (Err e) b') → wp (generateKey bits) Q b.
Proof.
  intros HQ HE. unfold wp, generateKey. destruct (bo_seeds b) as [|seed l]; [by apply HE|].
  destruct (rsa_generate bits seed) as [key|] eqn:Hg; [|by apply HE]. apply HQ; [done|]. by eapply rsa_generate_bits.
Qed.
(** A key at a path, of a size that is taken. *)
Definition key_at path key (perm : Z) b : Prop :=
  ∃ text, bo_nodes b !! path = Some (File perm text) ∧ pem_content text = RsaKey key.
Lemma generate_and_save_wp path bits b : (∀ t, path ≠ temp_name (filepath_Dir path) t) → (1 < String.length path)%nat →
  wp (generateAndSaveKey path bits) (λ r b', (bo_nodes b' !! path = bo_nodes b !! path ∨ ∃ key, key_at path key 384 b' ∧ rsa_bits key = bits) ∧
     ∀ key, r = Ok key → key_at path key 384 b' ∧ rsa_bits key = bits) b.
Proof.
  intros Hname Hlen. unfold generateAndSaveKey. apply wp_bind, wp_generate; [|intros e b1 Hb1; failed Hb1]. intros key b1 Hb1 Hbits.
  apply wp_bind, wp_wrap, (wp_mkdir _ _ _ path); [by apply dir_length|]. intros [u|e] b2 Hb2; [|split; [left; by rewrite Hb2, Hb1|done]].
  apply wp_bind. eapply wp_mono; [by apply save_wp|]. intros r b3 [Hkept Hok].
  assert (∀ text, pkcs8_pem key = Some text → bo_nodes b3 !! path = Some (File 384 text) → key_at path key 384 b3) as Hat.
  { intros text Ht Hn. exists text. split; [done|]. by apply pem_round_trip. }
  rewrite Hb2, Hb1 in Hkept. destruct r as [u1|e].
  - apply wp_ret. destruct (Hok u1 eq_refl) as (text&Ht&Hn). split; [right; eauto|]. intros ? [= <-]. eauto.
  - split; [|done]. destruct Hkept as [?|(text&Ht&Hn)]; eauto.
Qed.
Lemma load_wp path b : wp (loadPrivateKeyFromPEM path) (λ r b', bo_nodes b' = bo_nodes b ∧
  ∀ key, r = Ok key → 2048 <= rsa_bits key ∧ ∃ perm, key_at path key perm b') b.
Proof.
  unfold loadPrivateKeyFromPEM, os_ReadFile. apply wp_bind, wp_wrap, wp_bind, wp_fallible. intros b1 Hb1. split; [|by split].
  apply wp_bind, wp_gets. destruct (bo_nodes b1 !! path) as [[perm|perm text]|] eqn:Hn; try (by apply wp_fail).
  apply wp_ret. cbn [wrap_res]. destruct (pem_content text) as [| | |key] eqn:Hc; try (by apply wp_fail). apply wp_bind, wp_guard_err; [by split|].
  intros Hsize%Z.ltb_ge. apply wp_ret. split; [done|]. intros ? [= <-]. split; [lia|].
  exists perm, text. by split.
Qed.
Definition proper_path path : Prop := (∀ t, path ≠ temp_name (filepath_Dir path) t) ∧ (1 < String.length path)%nat.
Lemma private_key_wp path prod bits b : proper_path path → 2048 <= bits →
  wp (private_key_at path prod bits) (λ r b', (bo_nodes b' !! path = bo_nodes b !! path ∨ ∃ key, key_at path key 384 b' ∧ 2048 <= rsa_bits key) ∧
    ∀ key, r = Ok key → 2048 <= rsa_bits key ∧ (prod = true → bo_nodes b' !! path = bo_nodes b !! path) ∧
      ∃ perm, key_at path key perm b' ∧ (prod = true → Z.land perm 63 = 0)) b.
Proof.
  intros [Hname Hlen] Hbits. unfold private_key_at. rewrite bool_decide_false by (by intros ->; cbn in Hlen; lia).
  assert (∀ b1, bo_nodes b1 = bo_nodes b → prod = false → wp (wrap "generate and save key" (generateAndSaveKey path bits)) (λ r b',
    (bo_nodes b' !! path = bo_nodes b !! path ∨ ∃ key, key_at path key 384 b' ∧ 2048 <= rsa_bits key) ∧
    ∀ key, r = Ok key → 2048 <= rsa_bits key ∧ (prod = true → bo_nodes b' !! path = bo_nodes b !! path) ∧
      ∃ perm, key_at path key perm b' ∧ (prod = true → Z.land perm 63 = 0)) b1) as Hnew.
  { intros b1 Hb1 ->. apply wp_wrap. eapply wp_mono; [by apply generate_and_save_wp|]. intros r b2 [Hkept Hok]. rewrite Hb1 in Hkept. split.
    - destruct Hkept as [?|(key&?&Hb)]; [by left|right; exists key; by rewrite Hb].
    - destruct r as [k|]; [|done]. intros key [= <-]. destruct (Hok k eq_refl) as [Hat ->]. split_and!; [done..|]. by exists 384. }
  apply wp_bind, wp_try. unfold os_Stat. apply wp_bind, wp_fallible. intros b1 Hb1. split.
  2:{ apply wp_bind, wp_guard_err; intros Hp; [failed Hb1|by apply Hnew]. }
  apply wp_bind, wp_gets. destruct (bo_nodes b1 !! path) as [[perm|perm text]|] eqn:Hn.
  3:{ apply wp_fail, wp_bind, wp_guard_err; intros Hp; [failed Hb1|by apply Hnew]. }
  all: apply wp_ret, wp_bind, wp_guard_err; intros Hperm; [failed Hb1|].
  all: apply wp_wrap; eapply wp_mono; [apply load_wp|]; intros r b2 [Hb2 Hok]; split; [left; by rewrite Hb2, Hb1|].
  all: destruct r as [k|]; [|done]; intros key [= <-]; destruct (Hok k eq_refl) as (Hsize&perm'&text'&Hn'&Hc).
  all: rewrite Hb2, Hn in Hn'; try discriminate Hn'; injection Hn' as <- <-.
  split_and!; [done|intros _; by rewrite Hb2, Hb1|]. exists perm. split; [exists text; by rewrite Hb2|].
  intros ->. rewrite andb_true_r in Hperm. by apply negb_false_iff, Z.eqb_eq in Hperm.
Qed.
Lemma key_found path key perm prod bits b : key_at path key perm b → bo_faults b = [] → path ≠ "" → 2048 <= rsa_bits key →
  (prod = true → Z.land perm 63 = 0) → private_key_at path prod bits b = (Ok key, b).
Proof.
  intros (text&Hn&Hc) Hf Hne Hsize Hperm.
  assert (fallible b = (Ok tt, b)) as Hio by (unfold fallible; by rewrite Hf).
  assert (os_Stat path b = (Ok perm, b)) as Hstat by (unfold os_Stat, bind; rewrite Hio; cbn; by rewrite Hn).
  assert (os_ReadFile path b = (Ok text, b)) as Hread by (unfold os_ReadFile, bind; rewrite Hio; cbn; by rewrite Hn).
  unfold private_key_at, bind, try. rewrite bool_decide_false, Hstat by done. cbv beta iota.
  assert (negb (Z.land perm 63 =? 0) && prod = false) as -> by (destruct prod; [by rewrite Hperm|by rewrite andb_false_r]).
  cbn. unfold wrap, loadPrivateKeyFromPEM, bind, wrap. rewrite Hread. cbn. by rewrite Hc, (proj2 (Z.ltb_ge _ _)).
Qed.

(** C39: c: the signing key survives. The path of its file is not empty, and not the name of a
    temporary file beside it. Whatever fails while a process starts, that file is as it was or holds a whole key that only its owner may read. A start that succeeds has a
    key of at least 2048 bits, in production the one that was there, and any later start
    that finds the file so has the same key under the same identifier. *)
Theorem key_survives_restart path keyID prod bits b r b' : proper_path path → NewKeyService path keyID prod bits b = (r, b') →
  (bo_nodes b' !! path = bo_nodes b !! path ∨ ∃ key, key_at path key 384 b' ∧ 2048 <= rsa_bits key) ∧
  ∀ keys, r = Ok keys → 2048 <= rsa_bits (ks_privateKey keys) ∧ (prod = true → bo_nodes b' !! path = bo_nodes b !! path) ∧
    ∀ b2, bo_nodes b2 !! path = bo_nodes b' !! path → bo_faults b2 = [] → NewKeyService path keyID prod bits b2 = (Ok keys, b2).
Proof.
  intros Hpath Hrun. unfold NewKeyService in *. set (n := if bits =? 0 then _ else bits) in *. unfold bind in *.
  destruct (Z.ltb_spec n 2048) as [|Hn]; cbn in *; [injection Hrun as <- <-; split; [by left|done]|].
  destruct (private_key_at path prod n b) as [k b1] eqn:Hk. pose proof (wp_intro _ _ _ _ _ Hk (private_key_wp path prod n b Hpath Hn)) as [Hkept Hok].
  assert (path ≠ "") as Hne by (intros ->; destruct Hpath as [_ Hl]; cbn in Hl; lia).
  destruct k as [key|e]; [|injection Hrun as <- <-; split; [done|done]].
  destruct (Hok key eq_refl) as (Hsize&Hprod&perm&(text&Hnode&Hc)&Hperm).
  assert (∀ b2, bo_nodes b2 !! path = bo_nodes b1 !! path → bo_faults b2 = [] → private_key_at path prod n b2 = (Ok key, b2)) as Hagain.
  { intros b2 Hb2 Hf. apply (key_found path key perm); try done. exists text. by rewrite Hb2. }
  destruct (bool_decide (keyID = "")).
  - unfold wrap, lift_res in *. destruct (computeKeyID key) as [kid|e] eqn:Hkid; cbn in Hrun; injection Hrun as <- <-; (split; [done|]); [|done].
    intros keys [= <-]. split_and!; try done. intros b2 Hb2 Hf. rewrite (Hagain b2 Hb2 Hf). cbn. by rewrite Hkid.
  - injection Hrun as <- <-. split; [done|]. intros keys [= <-]. split_and!; try done. intros b2 Hb2 Hf. by rewrite (Hagain b2 Hb2 Hf).
Qed.
End key_files.
