(* ===== verification/Router.v ===== *)
(** * [router/web.go], [cmd/gosso/web_engine.go] and the [RegisterRoutes] of the controllers

    The table of routes with the chain of handlers in front of each, and a request on its
    way through it. gin finds the route, which is the parameter [GinLibs] with the CORS
    handler and the primitives of gouno; a group hands its path and its handlers on to its
    routes, and a handler that aborts ends the chain. Handlers that only watch, log or
    bound the time and the body of a request let it pass. *)
From S2P Require Import Prelude GoTime Json Hash Redis World Footprint TokenDomain TokenService TokenProps AccessProps Session SessionService SessionProps Url GoStrings AccountDomain Credential OAuthDomain ClientService AuthMiddleware HttpMiddleware Site OidcService RateProps Config.
Local Open Scope Z_scope.

(** ** Routes and groups *)
Inductive Controller : Type := AuthCtrl | OAuth2Ctrl | ClientCtrl | OIDCCtrl | AdminCtrl | PasskeyCtrl | Pages.
#[export] Instance Controller_eq_dec : EqDecision Controller.
Proof. solve_decision. Defined.
Record CORSSettings : Type := mkCorsCfg {
  cs_AllowOrigins : list string;
  cs_AllowMethods : list string;
  cs_AllowHeaders : list string;
  cs_ExposeHeaders : list string;
  cs_AllowCredentials : bool;
  cs_MaxAge : Z;
}.
Inductive Handler : Type :=
  | RecoveryMiddleware
  | CORSMiddleware (c : CORSSettings)
  | RequestIDs
  | ZapLoggerMiddleware
  | SecurityHeadersMiddleware (isProduction : bool)
  | MaxBodySizeMiddleware (maxBytes : Z)
  | TimeoutMiddleware (requestTimeout : Z)
  | CSRF (secure : bool) (skipPaths : list string)
  | PrometheusMiddleware
  | AuditMetadataMiddleware
  | RateLimit (endpoint : string) (limit : Z) (failOpen : bool)
  | JWTAuth (c : AuthConfigOptions)
  | AdminRequiredMiddleware
  | RequirePermissionMiddleware (permission : string)
  | Endpoint (c : Controller) (name : string).
(** The path in the pieces it was registered in. *)
Record Route : Type := mkRoute { ro_method : string; ro_path : list string; ro_handlers : list Handler }.
Record RouterGroup : Type := mkGroup { rg_path : list string; rg_handlers : list Handler }.
Definition Group (rg : RouterGroup) (path : string) : RouterGroup := mkGroup (rg_path rg ++ [path]) (rg_handlers rg).
Definition Use (rg : RouterGroup) (hs : list Handler) : RouterGroup := mkGroup (rg_path rg) (rg_handlers rg ++ hs).
Definition Handle (method : string) (rg : RouterGroup) (path : string) (hs : list Handler) : Route :=
  mkRoute method (rg_path rg ++ [path]) (rg_handlers rg ++ hs).
#[local] Abbreviation GET := (Handle "GET").
#[local] Abbreviation POST := (Handle "POST").
#[local] Abbreviation PUT := (Handle "PUT").
#[local] Abbreviation DELETE := (Handle "DELETE").

(** ** The routes of the controllers *)
Record AuthRouteConfig : Type := mkAuthRoutes {
  ar_JWTAuth : Handler;
  ar_LoginLimit : option Handler;
  ar_MFALimit : option Handler;
  ar_PasswordLimit : option Handler;
  ar_RefreshLimit : option Handler;
  ar_VerifyLimit : option Handler;
  ar_SocialLimit : option Handler;
  ar_SessionLimit : option Handler;
}.
Definition withOptionalLimit (limit : option Handler) (handlers : list Handler) : list Handler :=
  match limit with Some l => l :: handlers | None => handlers end.
(** [None]: it panics. *)
Definition AuthController_RegisterRoutes (rg : RouterGroup) (cfg : AuthRouteConfig) : option (list Route) :=
  let c name := [Endpoint AuthCtrl name] in
  match ar_LoginLimit cfg, ar_MFALimit cfg, ar_PasswordLimit cfg, ar_RefreshLimit cfg, ar_SocialLimit cfg with
  | Some login, Some mfa, Some password, Some refresh, Some social =>
      let auth := Group rg "/auth" in
      let protected := Use (Group auth "") [ar_JWTAuth cfg] in
      let limited limit name := withOptionalLimit limit (c name) in
      Some
        [POST auth "/login" (login :: c "Login");
         POST auth "/refresh" (refresh :: c "Refresh");
         POST auth "/mfa/verify" (mfa :: c "MFAVerify");
         GET auth "/social/:provider" (social :: c "SocialAuthURL");
         GET auth "/social/:provider/callback" (social :: c "SocialCallback");
         POST auth "/password/forgot" (password :: c "ForgotPassword");
         POST auth "/password/reset" (password :: c "ResetPassword");
         POST protected "/logout" (c "Logout");
         GET protected "/session" (c "GetSession");
         POST protected "/password/change" (limited (ar_PasswordLimit cfg) "ChangePassword");
         PUT protected "/profile" (c "UpdateProfile");
         POST protected "/profile/email/change/request" (limited (ar_VerifyLimit cfg) "RequestEmailChange");
         POST protected "/profile/email/change/confirm" (limited (ar_VerifyLimit cfg) "ConfirmEmailChange");
         GET protected "/sessions" (limited (ar_SessionLimit cfg) "ListSessions");
         DELETE protected "/sessions/:id" (limited (ar_SessionLimit cfg) "RevokeSession");
         POST protected "/verify/send" (limited (ar_VerifyLimit cfg) "SendVerification");
         POST protected "/verify/confirm" (limited (ar_VerifyLimit cfg) "ConfirmVerification");
         GET protected "/mfa" (limited (ar_MFALimit cfg) "MFAStatus");
         POST protected "/mfa/enroll" (limited (ar_MFALimit cfg) "MFAEnroll");
         POST protected "/mfa/activate" (limited (ar_MFALimit cfg) "MFAActivate");
         DELETE protected "/mfa" (limited (ar_MFALimit cfg) "MFADisable");
         POST protected "/mfa/backup-codes" (limited (ar_MFALimit cfg) "MFAGenerateBackupCodes")]
  | _, _, _, _, _ => None
  end.
Definition ClientController_RegisterRoutes (rg : RouterGroup) (jwtAuth : Handler) : list Route :=
  let c name := [Endpoint ClientCtrl name] in
  let clients := Use (Group rg "/oauth2/clients") [jwtAuth] in
  [GET clients "" (c "ListClients");
   POST clients "" (c "RegisterClient");
   GET clients "/:client_id" (c "GetClient");
   PUT clients "/:client_id" (c "UpdateClient");
   DELETE clients "/:client_id" (c "DeleteClient")].
Definition AdminController_RegisterRoutes (rg : RouterGroup) : list Route :=
  let c name := [Endpoint AdminCtrl name] in
  let accounts := Group rg "/accounts" in
  let read := Use (Group accounts "") [RequirePermissionMiddleware "admin:users:read"] in
  let manage := Use (Group accounts "") [RequirePermissionMiddleware "admin:users:manage"] in
  [GET rg "/audit-logs" (RequirePermissionMiddleware "admin:audit:read" :: c "ListAuditLogs");
   GET read "" (c "ListAccounts");
   GET read "/:account_id" (c "GetAccount");
   GET read "/:account_id/roles" (c "GetAccountRoles");
   GET read "/:account_id/consents" (c "ListConsents");
   GET read "/:account_id/lockout" (c "GetLockoutStatus");
   POST manage "" (c "CreateAccount");
   DELETE manage "/:account_id" (c "DeleteAccount");
   POST manage "/:account_id/disable" (c "DisableAccount");
   POST manage "/:account_id/enable" (c "EnableAccount");
   POST manage "/:account_id/roles" (c "AddRole");
   DELETE manage "/:account_id/roles/:role_id" (c "RemoveRole");
   DELETE manage "/:account_id/consents/:client_id" (c "RevokeConsent");
   POST manage "/:account_id/lockout/clear" (c "ClearLockout");
   POST manage "/:account_id/password" (c "ChangePassword");
   POST manage "/:account_id/mfa/reset" (c "ResetMFA")].
Definition PasskeyController_RegisterRoutes (rg : RouterGroup) (jwtAuth passkeyRateLimit : Handler) : list Route :=
  let c name := [Endpoint PasskeyCtrl name] in
  let passkey := Group rg "/passkey" in
  let passkeys := Group rg "/passkeys" in
  let mfaPasskey := Use (Group rg "/passkey/mfa") [passkeyRateLimit] in
  [POST passkey "/register/begin" (jwtAuth :: c "RegisterBegin");
   POST passkey "/register/complete" (jwtAuth :: c "RegisterComplete");
   POST passkey "/login/begin" (passkeyRateLimit :: c "LoginBegin");
   POST passkey "/login/complete" (passkeyRateLimit :: c "LoginComplete");
   GET passkeys "" (jwtAuth :: c "ListCredentials");
   DELETE passkeys "/:id" (jwtAuth :: c "DeleteCredential");
   POST mfaPasskey "/begin" (c "MFABegin");
   POST mfaPasskey "/complete" (c "MFAComplete")].
Definition OAuth2Controller_RegisterRoutes (rg : RouterGroup) (auth : Handler)
    (tokenLimit introspectLimit deviceCodeLimit deviceUserLimit : option Handler) : list Route :=
  let c name := [Endpoint OAuth2Ctrl name] in
  let limited limit name := withOptionalLimit limit (c name) in
  [GET rg "/authorize" (auth :: c "Authorize");
   POST rg "/authorize" (auth :: c "SubmitConsent");
   POST rg "/token" (limited tokenLimit "Token");
   POST rg "/revoke" (limited tokenLimit "Revoke");
   POST rg "/introspect" (limited introspectLimit "Introspect");
   POST rg "/device/code" (limited deviceCodeLimit "DeviceCodeRequest");
   GET rg "/device" (auth :: c "DeviceUserPage");
   POST rg "/device" (limited deviceUserLimit "DeviceUserSubmit")].
Definition OIDCController_RegisterRoutes (server : RouterGroup) (auth : Handler) : list Route :=
  let c name := [Endpoint OIDCCtrl name] in
  [GET server "/userinfo" (auth :: c "UserInfo");
   POST server "/userinfo" (auth :: c "UserInfo");
   POST server "/logout" (c "Logout");
   GET server "/frontchannel_logout" (c "FrontChannelLogout")].

(** ** [web.go]: the whole table *)
Record RouterDeps : Type := mkDeps {
  rt_RateLimits : RateLimitsConfig;
  rt_AuthConfig : AuthConfig;
  rt_Debug : bool;
  rt_MetricsEnabled : bool;
  rt_PasskeyCtrl : bool;
}.
Definition page (name : string) : list Handler := [Endpoint Pages name].
Definition server : RouterGroup := mkGroup [] [].
Definition registerHealthRoutes (healthRateLimit : Z) : list Route :=
  let healthLimit := RateLimit "health" healthRateLimit true in
  [GET server "/health" (healthLimit :: page "health"); GET server "/readiness" (healthLimit :: page "readiness")].
Definition registerWebTestRouter : list Route := [GET (Group server "/test") "/alive" (page "alive")].
Definition registerWebIndexRouter : list Route := [GET server "/" (page "index")].
Definition registerSwaggerRouter : list Route :=
  let swagger := Group server "/swagger" in
  [GET swagger "" (page "swagger"); GET swagger "/index.html" (page "swagger index"); GET swagger "/openapi.yaml" (page "openapi")].
Definition jwt_options (a : AuthConfig) : AuthConfigOptions := mkAuthCfg (au_LoginURL a) (au_EnableCookieAuth a) (au_AuthCookieName a).
(** The handler that is to redirect [/api] is attached to a group without routes. *)
Definition RegisterWebRouter (deps : RouterDeps) : option (list Route) :=
  let rl := rt_RateLimits deps in
  let jwtAuth := JWTAuth (jwt_options (rt_AuthConfig deps)) in
  let limit endpoint n := RateLimit endpoint n false in
  let api := Use (Group server "/api/v1") [AuditMetadataMiddleware] in
  let clientGroup := Use (Group api "") [limit "client" (rl_API rl)] in
  let admin := Use (Group api "/admin") [limit "admin" (rl_Admin rl); jwtAuth; AdminRequiredMiddleware] in
  let oauth2 := Use (Group server "/oauth2") [AuditMetadataMiddleware] in
  let wellKnown := Use (Group server "/.well-known") [limit "well-known" (rl_API rl)] in
  let oidc := Use (Group server "/oidc") [limit "oidc" (rl_API rl); AuditMetadataMiddleware] in
  auth ← AuthController_RegisterRoutes api (mkAuthRoutes jwtAuth (Some (limit "login" (rl_Login rl))) (Some (limit "mfa" (rl_Token rl)))
           (Some (limit "password" (rl_Password rl))) (Some (limit "refresh" (rl_Token rl))) (Some (limit "verify" (rl_Verify rl)))
           (Some (limit "social" (rl_API rl))) (Some (RateLimit "session" (rl_API rl) true)));
  Some (registerHealthRoutes (rl_Health rl) ++
        (if rt_Debug deps then registerWebTestRouter else []) ++
        registerWebIndexRouter ++
        (if rt_Debug deps then registerSwaggerRouter else []) ++
        (if rt_MetricsEnabled deps then [GET server "/metrics" (page "metrics")] else []) ++
        auth ++
        ClientController_RegisterRoutes clientGroup jwtAuth ++
        AdminController_RegisterRoutes admin ++
        (if rt_PasskeyCtrl deps then PasskeyController_RegisterRoutes (Group api "") jwtAuth (limit "passkey" (rl_Passkey rl)) else []) ++
        OAuth2Controller_RegisterRoutes oauth2 jwtAuth (Some (limit "oauth2-token" (rl_Token rl))) (Some (limit "introspect" (rl_Introspect rl)))
          (Some (limit "device-code" (rl_DeviceCode rl))) (Some (limit "device-user" (rl_DeviceCode rl))) ++
        [GET wellKnown "/openid-configuration" [Endpoint OIDCCtrl "Discovery"]; GET wellKnown "/jwks.json" [Endpoint OIDCCtrl "JWKS"]] ++
        OIDCController_RegisterRoutes oidc jwtAuth).

(** ** [web_engine.go]: the engine *)
Definition buildCORSConfig (cfg : GoUnoConfig) : res CORSSettings :=
  let o := cf_CORS cfg in
  let w := cf_Web cfg in
  let or_default (l d : list string) := match l with [] => d | _ => l end in
  let settings origins := Ok (mkCorsCfg origins
    (or_default (co_AllowedMethods o) ["GET"; "POST"; "PUT"; "PATCH"; "DELETE"; "OPTIONS"])
    (or_default (co_AllowedHeaders o) ["Origin"; "Content-Type"; "Accept"; "Authorization"; "X-CSRF-Token"])
    (or_default (co_ExposedHeaders o) ["X-Request-ID"])
    (co_AllowCredentials o) (co_MaxAge o * second)) in
  match co_AllowedOrigins o with
  | _ :: _ => settings (co_AllowedOrigins o)
  | [] => if ws_Production w then Err (Anon "cors: allowed_origins is required in production mode")
          else settings ["http://localhost:" +:+ dec (ws_Port w)]
  end.
Definition csrfSkipPaths : list string :=
  ["/api/v1/auth/login"; "/api/v1/auth/mfa/verify"; "/api/v1/auth/password/forgot"; "/api/v1/auth/password/reset"; "/api/v1/passkey/login/begin";
   "/api/v1/passkey/login/complete"; "/api/v1/passkey/mfa/begin"; "/api/v1/passkey/mfa/complete"; "/oauth2/token"; "/oauth2/introspect";
   "/oauth2/device/code"; "/.well-known"; "/swagger"].
Definition csrf_secure (cfg : GoUnoConfig) : bool := ws_Production (cf_Web cfg) || ws_CSRFCookieSecure (cf_Web cfg).
Definition engine_handlers (cfg : GoUnoConfig) (cors : CORSSettings) : list Handler :=
  let w := cf_Web cfg in
  [RecoveryMiddleware; CORSMiddleware cors; RequestIDs; ZapLoggerMiddleware; SecurityHeadersMiddleware (ws_Production w);
   MaxBodySizeMiddleware (ws_MaxBodySize w); TimeoutMiddleware (ws_RequestTimeout w); CSRF (csrf_secure cfg) (csrfSkipPaths ++ ws_CSRFSkipPaths w)] ++
  (if ob_MetricsEnabled (cf_Observability cfg) then [PrometheusMiddleware] else []).

(** A request: its headers and cookies, the address of the client, [Origin],
    [X-Request-ID] and the user agent. *)
Record Incoming : Type := mkIncoming { in_web : WebRequest; in_ip : string; in_origin : string; in_requestID : string; in_userAgent : string }.
Inductive found : Type := Found (r : Route) | Moved (status : Z) (location : string) | NotFound.

(** ** Paths *)
Definition full_path (r : Route) : string := foldr String.append "" (ro_path r).
(** A parameter stands for one segment that is not empty. *)
Definition segment_ok (p s : string) : bool := if has_prefix ":" p then negb (bool_decide (s = "")) else bool_decide (p = s).
Fixpoint segments_ok (ps ss : list string) : bool :=
  match ps, ss with
  | [], [] => true
  | p :: ps, s :: ss => segment_ok p s && segments_ok ps ss
  | _, _ => false
  end.
Definition path_matches (pattern path : string) : bool := segments_ok (Split "/" pattern) (Split "/" path).

Class GinLibs (R : Type) `{RedisServer R} `{GounoCSRF R} := {
  SetTrustedProxies : list string → bool;
  (** whether the library takes the settings; what stops a request, a preflight answered
      or a foreign origin *)
  cors_new : CORSSettings → bool;
  cors_verdict : CORSSettings → Incoming → option Z;
  GenerateCSPNonce : M (World R) string;
  gin_find : list Route → string → string → found;
  gin_find_sound routes method path r : gin_find routes method path = Found r →
    r ∈ routes ∧ ro_method r = method ∧ path_matches (full_path r) path = true;
  nonce_quiet : touches (λ _, False) GenerateCSPNonce;
  csrf_token_quiet : touches (λ _, False) GenerateCSRFToken;
  csrf_cookie_quiet present : touches (λ _, False) (EnsureCSRFCookie present);
}.

(** ** A request on its way *)
(** What the handlers find in the context of gin. *)
Record GinContext : Type := mkGin {
  gc_account : option string;
  gc_claims : option AccessTokenClaims;
  gc_requestID : string;
  gc_csrfCookie : option string;
  gc_csp : string;
  gc_audit : option (string * string * string);
}.
Definition empty_context : GinContext := mkGin None None "" None "" None.
Inductive outcome : Type :=
  | Reached (c : Controller) (name : string) (cx : GinContext)
  | Answered (status : Z)
  | RedirectedTo (location : string).
Definition csp_of (isProduction : bool) (nonce : string) : string :=
  "default-src 'self'; script-src 'self' 'nonce-" +:+ nonce +:+ "'; style-src 'self' 'nonce-" +:+ nonce +:+
  "'; img-src 'self' data:; font-src 'self'; connect-src 'self'; object-src 'none'; base-uri 'self'; form-action 'self'; frame-ancestors 'none'" +:+
  (if isProduction then "; upgrade-insecure-requests" else "").
#[global] Arguments csp_of : simpl never.
Definition status_of (v : verdict) : outcome :=
  match v with Reject status _ => Answered status | Redirect location => RedirectedTo location | Next _ _ => Answered 200 end.

Section engine.
Context {R : Type} `{RedisServer R} `{JwtLib} `{GounoCSRF R} `{!GinLibs R}.
Context (tcfg : TokenCfg) (scfg : SessionConfig) (revoker : option (TokenRevoker R)).
#[local] Abbreviation SessM := (M (Sess R)).

Record Engine : Type := mkEngine { en_handlers : list Handler; en_routes : list Route }.
(** A panic ends the start like an error. *)
Definition setupEngine (cfg : GoUnoConfig) (passkeys : bool) : res Engine :=
  if negb (SetTrustedProxies (ws_TrustedProxies (cf_Web cfg))) then Err (Wrap "invalid trusted proxies configuration" (Anon "gin")) else
  match buildCORSConfig cfg with
  | Err e => Err (Wrap "invalid CORS configuration" e)
  | Ok cors =>
      if negb (cors_new cors) then Err (Anon "panic") else
      match RegisterWebRouter (mkDeps (ws_RateLimits (cf_Web cfg)) (cf_Auth cfg) (ws_Debug (cf_Web cfg))
                                 (ob_MetricsEnabled (cf_Observability cfg)) passkeys) with
      | None => Err (Anon "panic")
      | Some routes => Ok (mkEngine (engine_handlers cfg cors) routes)
      end
  end.

(** On to the next handler, or the end. *)
Definition run_handler (inc : Incoming) (cx : GinContext) (h : Handler) : SessM (GinContext + outcome) :=
  let rq := wr_request (in_web inc) in
  match h with
  | RecoveryMiddleware | ZapLoggerMiddleware | MaxBodySizeMiddleware _ | TimeoutMiddleware _ | PrometheusMiddleware => ret (inl cx)
  | CORSMiddleware c => ret match cors_verdict c inc with Some status => inr (Answered status) | None => inl cx end
  | RequestIDs =>
      let! r := try (on_world (RequestIDMiddleware (in_requestID inc))) in
      ret match r with
          | Ok id => inl (mkGin (gc_account cx) (gc_claims cx) id (gc_csrfCookie cx) (gc_csp cx) (gc_audit cx))
          | Err _ => inr (Answered 500) end
  | SecurityHeadersMiddleware isProduction =>
      let! r := try (on_world GenerateCSPNonce) in
      ret match r with
          | Ok nonce => inl (mkGin (gc_account cx) (gc_claims cx) (gc_requestID cx) (gc_csrfCookie cx) (csp_of isProduction nonce) (gc_audit cx))
          | Err _ => inr (Answered 500) end
  | CSRF secure skipPaths =>
      let! v := on_world (CSRFMiddleware secure skipPaths (in_web inc)) in
      ret match v with
          | Forward cookie => inl (mkGin (gc_account cx) (gc_claims cx) (gc_requestID cx) cookie (gc_csp cx) (gc_audit cx))
          | Forbid status _ => inr (Answered status) end
  | AuditMetadataMiddleware =>
      ret (inl (mkGin (gc_account cx) (gc_claims cx) (gc_requestID cx) (gc_csrfCookie cx) (gc_csp cx)
        (Some (in_ip inc, in_userAgent inc, gc_requestID cx))))
  | RateLimit endpoint limit failOpen =>
      let! v := on_world (RedisRateLimitMiddleware endpoint (IPKeyFunc (in_ip inc)) limit minute failOpen) in
      ret match v with Pass _ => inl cx | TooMany _ _ => inr (Answered 429) | Unavailable => inr (Answered 503) end
  | JWTAuth c =>
      let! v := JWTAuthMiddlewareWithConfig tcfg scfg revoker c rq in
      ret match v with
          | Next account claims =>
              inl (mkGin (Some account) (Some claims) (gc_requestID cx) (gc_csrfCookie cx) (gc_csp cx) (gc_audit cx))
          | _ => inr (status_of v) end
  | AdminRequiredMiddleware => ret match AdminRequired (gc_claims cx) with None => inl cx | Some v => inr (status_of v) end
  | RequirePermissionMiddleware p => ret match RequirePermission p (gc_claims cx) with None => inl cx | Some v => inr (status_of v) end
  | Endpoint c name => ret (inr (Reached c name cx))
  end.
Fixpoint run_chain (inc : Incoming) (cx : GinContext) (hs : list Handler) : SessM outcome :=
  match hs with
  | [] => ret (Answered 200)
  | h :: hs =>
      let! r := run_handler inc cx h in
      match r with inl cx' => run_chain inc cx' hs | inr o => ret o end
  end.
(** Paths that are not found get the engine's handlers too. *)
Definition ServeHTTP (e : Engine) (inc : Incoming) : SessM outcome :=
  let rq := wr_request (in_web inc) in
  match gin_find (en_routes e) (rq_method rq) (rq_path rq) with
  | Found r => run_chain inc empty_context (en_handlers e ++ ro_handlers r)
  | Moved status _ => ret (Answered status)
  | NotFound => run_chain inc empty_context (en_handlers e ++ [Endpoint Pages "NoRoute"])
  end.
End engine.

(** * Properties *)
(** ** Paths that are skipped *)
Lemma Split_cons c s : ∃ x l, Split c s = x :: l.
Proof. destruct s as [|d s]; cbn; [by eexists _, _|]. case_bool_decide; [by eexists _, _|]. case_match; by eexists _, _. Qed.
Lemma Split_join c s t : Split c (s +:+ String c t) = Split c s ++ Split c t.
Proof.
  induction s as [|d s IH]; cbn; [by rewrite bool_decide_true|]. case_bool_decide; cbn; [by rewrite IH|].
  rewrite IH. destruct (Split_cons c s) as (x&l&->). done.
Qed.
Lemma has_prefix_app p s : has_prefix p s = true → ∃ t, s = p +:+ t.
Proof.
  unfold has_prefix. rewrite bool_decide_eq_true. intros [t Ht]. exists t. revert s Ht.
  induction p as [|a p IH]; intros s; cbn; [by intros [= ->]|]. destruct s as [|b s]; [done|]. case_bool_decide; [|done].
  intros Hs%IH. by subst.
Qed.
(** Whether a path that starts with these segments can match. *)
Fixpoint could_start (ps ss : list string) : bool :=
  match ps, ss with
  | _, [] => true
  | p :: ps, s :: ss => segment_ok p s && could_start ps ss
  | [], _ => false
  end.
Lemma segments_start ps ss rest : segments_ok ps (ss ++ rest) = true → could_start ps ss = true.
Proof.
  revert ss. induction ps as [|p ps IH]; intros [|s ss]; cbn; try done. rewrite !andb_true_iff. intros [? ?]. split; [done|by apply IH].
Qed.
Lemma skipped_matches skips pattern path : path_matches pattern path = true → skipped skips path = true →
  existsb (λ sp, could_start (Split "/" pattern) (Split "/" sp)) skips = true.
Proof.
  unfold path_matches, skipped. rewrite !existsb_exists. intros Hm (sp&Hin&Hsp). exists sp. split; [done|].
  apply orb_true_iff in Hsp as [->%bool_decide_eq_true|(t&->)%has_prefix_app].
  - apply (segments_start _ _ []). by rewrite app_nil_r.
  - rewrite append_assoc in Hm. cbn in Hm. rewrite Split_join in Hm. by eapply segments_start.
Qed.

(** ** What passing the chain means *)
Section chain.
Context {R : Type} `{RedisServer R} `{JwtLib} `{GounoCSRF R} `{HG : !GinLibs R}.
Context (tcfg : TokenCfg) (scfg : SessionConfig) (revoker : option (TokenRevoker R)) (inc : Incoming).
Implicit Types s : Sess R.
#[local] Abbreviation step := (run_handler tcfg scfg revoker inc).
#[local] Abbreviation chain := (run_chain tcfg scfg revoker inc).
#[local] Abbreviation rq := (wr_request (in_web inc)).

(** The same but for the windows of the limiters. *)
Definition near s s' : Prop :=
  w_now (sv_world s') = w_now (sv_world s) ∧ sv_heap s' = sv_heap s ∧ sv_cache s' = sv_cache s ∧
  ∀ k, ¬ under ["rate_limit:"] k → view (sv_world s') k = view (sv_world s) k.
Lemma near_refl s : near s s. Proof. done. Qed.
Lemma near_trans s1 s2 s3 : near s1 s2 → near s2 s3 → near s1 s3.
Proof. intros (?&?&?&Hv) (?&?&?&Hv'). split_and!; [congruence..|]. intros k Hk. by rewrite Hv', Hv. Qed.
Lemma near_on_world {A} (m : M (World R) A) s r s' : touches (under ["rate_limit:"]) m → on_world m s = (r, s') →
  near s s' ∧ (m (sv_world s)).1 = r.
Proof.
  intros Hm. unfold on_world. destruct (Hm (sv_world s)) as (Hn&_&Hv). destruct (m (sv_world s)). intros [= <- <-]. by split_and!.
Qed.
Lemma bearer_accepted_near s s' cfg c : near s s' → bearer_accepted tcfg scfg s' rq cfg c → bearer_accepted tcfg scfg s rq cfg c.
Proof.
  intros (Hnow&Hheap&Hcache&Hview) (Htok&Hacc&Hmfa&Hsid).
  assert (∀ p x, apart p "rate_limit:" = true → view (sv_world s') (p +:+ x) = view (sv_world s) (p +:+ x)) as Hkey.
  { intros p x Hp. apply Hview. apply (under_apart [p]); [cbn; by rewrite Hp|]. apply under_intro. apply bool_decide_eq_true. left. }
  split_and!; try done.
  - destruct Hacc as (A1&A2&A3&A4&A5&A6). rewrite Hnow in A1, A2. split_and!; try done.
    + by rewrite <-(Hkey "blacklist:token:").
    + intros i Hi Ha. destruct (A6 i Hi Ha) as (ra&Hra&Hle). exists ra. split; [|done]. unfold revoked_after in *. 
      by rewrite <-(Hkey "account_revoked_after:").
  - intros Hne. destruct (Hsid Hne) as (d&e&x&Hd&Hcoh&Hidle&Hage). rewrite Hnow in Hidle, Hage.
    exists d, e, x. split_and!; try done; [by rewrite <-(Hkey "session:")|]. intros Hc. apply Hcoh.
    unfold coherent. by rewrite Hheap, Hcache.
Qed.

Lemma touches_limiter endpoint id limit window failOpen :
  touches (under ["rate_limit:"]) (RedisRateLimitMiddleware (R := R) endpoint id limit window failOpen).
Proof.
  unfold RedisRateLimitMiddleware, slidingWindowScript, rate_key. touch; s_touch; refine (under_intro _ "rate_limit:" _ _); reflexivity.
Qed.
Lemma touches_nothing {A} (m : M (World R) A) : touches (λ _, False) m → touches (under ["rate_limit:"]) m.
Proof. intros Hm. by eapply touches_mono. Qed.
Lemma touches_csrf secure skips web : touches (under ["rate_limit:"]) (CSRFMiddleware (R := R) secure skips web).
Proof using HG.
  pose proof (touches_nothing _ csrf_token_quiet). pose proof (λ p, touches_nothing _ (csrf_cookie_quiet p)).
  unfold CSRFMiddleware, ensureCSRFCookie, rotateCSRFCookie. touch.
Qed.
Lemma touches_request_id h : touches (under ["rate_limit:"]) (RequestIDMiddleware (R := R) h).
Proof. unfold RequestIDMiddleware. touch. Qed.

(** What a handler has seen to when it hands a request on. *)
Definition seen_to (h : Handler) (cx : GinContext) s : Prop :=
  match h with
  | CSRF secure skips => ∃ cookie, (CSRFMiddleware secure skips (in_web inc) (sv_world s)).1 = Ok (Forward cookie)
  | RateLimit endpoint limit false =>
      ∃ headers, (RedisRateLimitMiddleware endpoint (IPKeyFunc (in_ip inc)) limit minute false (sv_world s)).1 = Ok (Pass (Some headers))
  | AdminRequiredMiddleware => AdminRequired (gc_claims cx) = None
  | RequirePermissionMiddleware p => RequirePermission p (gc_claims cx) = None
  | Endpoint _ _ => False
  | _ => True
  end.
Definition is_jwt (h : Handler) : bool := match h with JWTAuth _ => true | _ => false end.
(** A handler other than the check of tokens keeps the claims and changes nothing but the
    window of a limiter. *)
Lemma handler_passed h cx s cx' s' : step cx h s = (Ok (inl cx'), s') →
  seen_to h cx s ∧
  (is_jwt h = false → near s s' ∧ gc_claims cx' = gc_claims cx ∧ gc_account cx' = gc_account cx).
Proof using HG.
  unfold run_handler, bind, try. destruct h; cbn; try (intros [= <- <-]; by split_and!).
  - destruct (cors_verdict _ _); [done|]. intros [= <- <-]. by split_and!.
  - destruct (on_world (RequestIDMiddleware _) s) as [[id|e] s1] eqn:Hrun; [|done]. intros [= <- <-].
    apply near_on_world in Hrun as [? _]; [by split_and!|apply touches_request_id].
  - destruct (on_world GenerateCSPNonce s) as [[n|e] s1] eqn:Hrun; [|done]. intros [= <- <-].
    apply near_on_world in Hrun as [? _]; [by split_and!|apply touches_nothing, nonce_quiet].
  - destruct (on_world (CSRFMiddleware _ _ _) s) as [[[cookie|]|e] s1] eqn:Hrun; try done. intros [= <- <-].
    apply near_on_world in Hrun as [? Hr]; [|apply touches_csrf]. split; [by exists cookie|]. intros _. by split_and!.
  - destruct (on_world (RedisRateLimitMiddleware _ _ _ _ _) s) as [[[headers| |]|e] s1] eqn:Hrun; try done. intros [= <- <-].
    apply near_on_world in Hrun as [? Hr]; [|apply touches_limiter]. split; [|intros _; by split_and!].
    destruct failOpen; [done|]. destruct headers as [h|]; [by exists h|]. exfalso.
    revert Hr. unfold RedisRateLimitMiddleware, bind, try, gets. destruct (redis_call _ _) as [[[|a [|b [|c [|d l]]]]|e] w]; cbn; try done.
    by destruct (_ =? _).
  - destruct (JWTAuthMiddlewareWithConfig _ _ _ _ _ _) as [[[]|e] s1]; try done. all: intros [= <- <-]; by split.
  - destruct (AdminRequired (gc_claims cx)) as [[]|] eqn:Ha; try done. intros [= <- <-]. by split_and!.
  - destruct (RequirePermission permission (gc_claims cx)) as [[]|] eqn:Ha; try done. intros [= <- <-]. by split_and!.
Qed.

(** The handlers a request comes to, each with the state it is run in. *)
Fixpoint steps (cx : GinContext) (hs : list Handler) s : list (Handler * Sess R) :=
  match hs with
  | [] => []
  | h :: hs => (h, s) :: match step cx h s with (Ok (inl cx'), s') => steps cx' hs s' | _ => [] end
  end.
Definition no_jwt (hs : list Handler) : bool := forallb (λ h, negb (is_jwt h)) hs.
Definition passes_on (h : Handler) : bool := match h with Endpoint _ _ => false | _ => true end.

Lemma chain_cons h hs cx s c n cx' s' : passes_on h = true → chain cx (h :: hs) s = (Ok (Reached c n cx'), s') →
  ∃ cx1 s1, step cx h s = (Ok (inl cx1), s1) ∧ chain cx1 hs s1 = (Ok (Reached c n cx'), s').
Proof.
  intros Hh. cbn. unfold bind. destruct (step cx h s) as [[[cx1|o]|e] s1] eqn:Hstep; [by eauto| |done].
  intros [= -> ->]. exfalso. revert Hstep. unfold run_handler, bind, ret, status_of. destruct h; cbn in *; try done; repeat case_match; congruence.
Qed.
(** On the way to an endpoint every handler before it has seen to its part. *)
Lemma chain_passed pre hs cx s c n cx' s' : forallb passes_on pre = true → chain cx (pre ++ hs) s = (Ok (Reached c n cx'), s') →
  ∃ cx1 s1, chain cx1 hs s1 = (Ok (Reached c n cx'), s') ∧
    (no_jwt pre = true → near s s1 ∧ gc_claims cx1 = gc_claims cx ∧ gc_account cx1 = gc_account cx) ∧
    ∀ h, h ∈ pre → ∃ cx2 s2, (h, s2) ∈ steps cx (pre ++ hs) s ∧ seen_to h cx2 s2 ∧
      (no_jwt pre = true → near s s2 ∧ gc_claims cx2 = gc_claims cx).
Proof using HG.
  revert cx s. induction pre as [|h pre IH]; intros cx s; cbn [app forallb].
  { intros _ Hrun. exists cx, s. split_and!; try done. by intros h ?%elem_of_nil. }
  intros [Hh Hpre]%andb_true_iff Hrun. apply chain_cons in Hrun as (cx1&s1&Hstep&Hrun); [|done].
  destruct (IH _ _ Hpre Hrun) as (cx2&s2&Hend&Hnear&Hall). destruct (handler_passed _ _ _ _ _ Hstep) as [Hseen Hkeep].
  exists cx2, s2. split; [done|]. unfold no_jwt in *. cbn [forallb]. split.
  - intros [Hj Hjs]%andb_true_iff. destruct (Hnear Hjs) as (N2&C2&A2), (Hkeep (proj1 (negb_true_iff _) Hj)) as (N1&C1&A1).
    split_and!; [by eapply near_trans|congruence..].
  - intros h' [->|Hin]%elem_of_cons.
    + exists cx, s. split; [by left|]. split; [done|]. by intros _.
    + destruct (Hall h' Hin) as (cx3&s3&Hs&Hsn&Hn). exists cx3, s3. split; [cbn; rewrite Hstep; by right|]. split; [done|].
      intros [Hj Hjs]%andb_true_iff. destruct (Hn Hjs) as [N2 C2], (Hkeep (proj1 (negb_true_iff _) Hj)) as (N1&C1&_).
      split; [by eapply near_trans|congruence].
Qed.
Lemma chain_jwt cfg hs cx s c n cx' s' : 0 < sc_ttl scfg → chain cx (JWTAuth cfg :: hs) s = (Ok (Reached c n cx'), s') →
  ∃ claims cx1 s1, chain cx1 hs s1 = (Ok (Reached c n cx'), s') ∧ gc_claims cx1 = Some claims ∧
    gc_account cx1 = Some (cl_AccountID claims) ∧ bearer_accepted tcfg scfg s rq cfg claims.
Proof.
  intros Httl. intros (cx1&s1&Hstep&Hrun)%chain_cons; [|done]. revert Hstep. unfold run_handler, bind.
  destruct (JWTAuthMiddlewareWithConfig _ _ _ _ _ _) as [[[account claims| |]|e] s2] eqn:Hauth; try done. intros [= <- ->].
  apply jwt_auth_accepted in Hauth as [-> Hacc]; [|done]. by eexists _, _, _.
Qed.
End chain.

(** ** The table *)
(** The endpoints that ask for no access token before they run. *)
Definition open_endpoints : list (Controller * string) :=
  map (pair AuthCtrl) ["Login"; "Refresh"; "MFAVerify"; "SocialAuthURL"; "SocialCallback"; "ForgotPassword"; "ResetPassword"] ++
  map (pair PasskeyCtrl) ["LoginBegin"; "LoginComplete"; "MFABegin"; "MFAComplete"] ++
  map (pair OAuth2Ctrl) ["Token"; "Revoke"; "Introspect"; "DeviceCodeRequest"; "DeviceUserSubmit"] ++
  map (pair OIDCCtrl) ["Discovery"; "JWKS"; "Logout"; "FrontChannelLogout"].
Definition is_open (c : Controller) (n : string) : bool := bool_decide (c = Pages) || bool_decide ((c, n) ∈ open_endpoints).
(** Those of them that a request without a CSRF token may reach. *)
Definition csrf_free : list (Controller * string) :=
  map (pair AuthCtrl) ["Login"; "MFAVerify"; "ForgotPassword"; "ResetPassword"] ++
  map (pair PasskeyCtrl) ["LoginBegin"; "LoginComplete"; "MFABegin"; "MFAComplete"] ++
  map (pair OAuth2Ctrl) ["Token"; "Introspect"; "DeviceCodeRequest"].
(** The endpoints of the routes for GET. They show what is stored, but for [Authorize], which
    may send the client a code for what the account of the cookie has consented to before,
    and the two of the social login, which a state cookie ties to the browser. *)
Definition get_endpoints : list (Controller * string) :=
  map (pair AuthCtrl) ["SocialAuthURL"; "SocialCallback"; "GetSession"; "ListSessions"; "MFAStatus"] ++
  map (pair ClientCtrl) ["ListClients"; "GetClient"] ++
  map (pair AdminCtrl) ["ListAuditLogs"; "ListAccounts"; "GetAccount"; "GetAccountRoles"; "ListConsents"; "GetLockoutStatus"] ++
  [(PasskeyCtrl, "ListCredentials"); (OAuth2Ctrl, "Authorize"); (OAuth2Ctrl, "DeviceUserPage")] ++
  map (pair OIDCCtrl) ["Discovery"; "JWKS"; "UserInfo"; "FrontChannelLogout"].
Definition admin_permission (n : string) : string :=
  if bool_decide (n = "ListAuditLogs") then "admin:audit:read"
  else if bool_decide (n ∈ ["ListAccounts"; "GetAccount"; "GetAccountRoles"; "ListConsents"; "GetLockoutStatus"]) then "admin:users:read"
  else "admin:users:manage".
(** The endpoints where a password, a code or a token can be guessed or a message sent, and
    what administrators and clients may do, with the name and the size of their limit. *)
Definition limit_of (rl : RateLimitsConfig) (c : Controller) (n : string) : option (string * Z) :=
  let among l := bool_decide (n ∈ l) in
  match c with
  | AuthCtrl =>
      if among ["Login"] then Some ("login", rl_Login rl)
      else if among ["MFAVerify"; "MFAStatus"; "MFAEnroll"; "MFAActivate"; "MFADisable"; "MFAGenerateBackupCodes"] then Some ("mfa", rl_Token rl)
      else if among ["ForgotPassword"; "ResetPassword"; "ChangePassword"] then Some ("password", rl_Password rl)
      else if among ["Refresh"] then Some ("refresh", rl_Token rl)
      else if among ["RequestEmailChange"; "ConfirmEmailChange"; "SendVerification"; "ConfirmVerification"] then Some ("verify", rl_Verify rl)
      else if among ["SocialAuthURL"; "SocialCallback"] then Some ("social", rl_API rl) else None
  | PasskeyCtrl => if among ["LoginBegin"; "LoginComplete"; "MFABegin"; "MFAComplete"] then Some ("passkey", rl_Passkey rl) else None
  | OAuth2Ctrl =>
      if among ["Token"; "Revoke"] then Some ("oauth2-token", rl_Token rl)
      else if among ["Introspect"] then Some ("introspect", rl_Introspect rl)
      else if among ["DeviceCodeRequest"] then Some ("device-code", rl_DeviceCode rl)
      else if among ["DeviceUserSubmit"] then Some ("device-user", rl_DeviceCode rl) else None
  | ClientCtrl => Some ("client", rl_API rl)
  | AdminCtrl => Some ("admin", rl_Admin rl)
  | OIDCCtrl => if among ["Discovery"; "JWKS"] then Some ("well-known", rl_API rl) else Some ("oidc", rl_API rl)
  | Pages => None
  end.

(** What holds of a route with its chain [pre] and endpoint. *)
Record route_ok (deps : RouterDeps) (r : Route) (pre : list Handler) (c : Controller) (n : string) : Prop := {
  rk_chain : ro_handlers r = pre ++ [Endpoint c n];
  rk_pre : forallb passes_on pre = true;
  rk_guard : is_open c n = false → ∃ p1 p2, pre = p1 ++ JWTAuth (jwt_options (rt_AuthConfig deps)) :: p2 ∧ no_jwt p1 = true ∧ no_jwt p2 = true ∧
    (c = AdminCtrl → AdminRequiredMiddleware ∈ p2 ∧ RequirePermissionMiddleware (admin_permission n) ∈ p2);
  rk_limit : ∀ endpoint limit, limit_of (rt_RateLimits deps) c n = Some (endpoint, limit) → RateLimit endpoint limit false ∈ pre;
  rk_csrf : safe_method (ro_method r) = false →
    existsb (λ sp, could_start (Split "/" (full_path r)) (Split "/" sp)) csrfSkipPaths = true → (c, n) ∈ csrf_free ∧ no_jwt pre = true;
  rk_get : safe_method (ro_method r) = true → c = Pages ∨ (c, n) ∈ get_endpoints;
}.
Ltac split_chain :=
  match goal with
  | |- ∃ p1 p2, JWTAuth _ :: _ = p1 ++ _ ∧ _ => eexists [], _
  | |- ∃ p1 p2, _ :: JWTAuth _ :: _ = p1 ++ _ ∧ _ => eexists [_], _
  | |- ∃ p1 p2, _ :: _ :: JWTAuth _ :: _ = p1 ++ _ ∧ _ => eexists [_; _], _
  end.
Ltac check_route :=
  match goal with
  | |- ∃ pre c n, route_ok ?deps ?r pre c n =>
      let hs := eval vm_compute in (ro_handlers r) in
      lazymatch hs with
      | [Endpoint ?c ?n] => exists [], c, n
      | [?a; Endpoint ?c ?n] => exists [a], c, n
      | [?a; ?b; Endpoint ?c ?n] => exists [a; b], c, n
      | [?a; ?b; ?d; Endpoint ?c ?n] => exists [a; b; d], c, n
      | [?a; ?b; ?d; ?e; Endpoint ?c ?n] => exists [a; b; d; e], c, n
      | [?a; ?b; ?d; ?e; ?f; Endpoint ?c ?n] => exists [a; b; d; e; f], c, n
      end
  end;
  split;
  [ reflexivity | reflexivity
  | first [by intros [=] | intros _; split_chain; split_and!; [reflexivity..|]; first [by intros [=] | intros _; split; set_solver]]
  | intros ? ?; vm_compute; first [by intros [=] | intros [= <- <-]; set_solver]
  | first [by intros [=] | intros _; vm_compute; first [by intros [=] | intros _; split; [set_solver|reflexivity]]]
  | first [by intros [=] | intros _; vm_compute; first [by left | right; set_solver]] ].
Lemma Forall_optional {A} (P : A → Prop) (b : bool) l : Forall P l → Forall P (if b then l else []).
Proof. intros Hl. destruct b; [done|]. by apply Forall_nil. Qed.
Lemma routes_table deps l : RegisterWebRouter deps = Some l → Forall (λ r, ∃ pre c n, route_ok deps r pre c n) l.
Proof.
  unfold RegisterWebRouter. cbn [AuthController_RegisterRoutes ar_LoginLimit ar_MFALimit ar_PasswordLimit ar_RefreshLimit ar_SocialLimit mbind option_bind].
  intros <-%(inj Some). rewrite !Forall_app. split_and!; try apply Forall_optional.
  all: unfold registerHealthRoutes, registerWebTestRouter, registerWebIndexRouter, registerSwaggerRouter, ClientController_RegisterRoutes,
    AdminController_RegisterRoutes, PasskeyController_RegisterRoutes, OAuth2Controller_RegisterRoutes, OIDCController_RegisterRoutes; cbv zeta.
  all: repeat (apply Forall_cons; split; [check_route|]); by apply Forall_nil.
Qed.

(** ** Requests to the server *)
Section served.
Context {R : Type} `{RedisServer R} `{JwtLib} `{GounoCSRF R} `{HG : !GinLibs R}.
Context (tcfg : TokenCfg) (scfg : SessionConfig) (revoker : option (TokenRevoker R)).
Implicit Types s : Sess R.

(** The chain a request has run when an endpoint is reached. *)
Lemma served cfg passkeys e inc s c n cx s' : setupEngine cfg passkeys = Ok e →
  ServeHTTP tcfg scfg revoker e inc s = (Ok (Reached c n cx), s') →
  ∃ cors hs, en_handlers e = engine_handlers cfg cors ∧ run_chain tcfg scfg revoker inc empty_context (engine_handlers cfg cors ++ hs) s = (Ok (Reached c n cx), s') ∧
    (hs = [Endpoint Pages "NoRoute"] ∨
     ∃ deps r pre c' n', deps = mkDeps (ws_RateLimits (cf_Web cfg)) (cf_Auth cfg) (ws_Debug (cf_Web cfg)) (ob_MetricsEnabled (cf_Observability cfg)) passkeys ∧
       route_ok deps r pre c' n' ∧ hs = ro_handlers r ∧ ro_method r = rq_method (wr_request (in_web inc)) ∧
       path_matches (full_path r) (rq_path (wr_request (in_web inc))) = true).
Proof using HG.
  unfold setupEngine. destruct (negb _); [done|]. destruct (buildCORSConfig cfg) as [cors|]; [|done]. destruct (negb _); [done|].
  destruct (RegisterWebRouter _) as [routes|] eqn:Hr; [|done]. intros [= <-]. unfold ServeHTTP. cbn [en_handlers en_routes].
  apply routes_table in Hr. destruct (gin_find _ _ _) as [r|st l|] eqn:Hf; intros Hrun; [|done|].
  - apply gin_find_sound in Hf as (Hin&Hm&Hp). rewrite Forall_forall in Hr. destruct (Hr r Hin) as (pre&c'&n'&Hok).
    exists cors, (ro_handlers r). split_and!; try done. right. by eexists _, r, pre, c', n'.
  - exists cors, [Endpoint Pages "NoRoute"]. split_and!; try done. by left.
Qed.
Lemma engine_passes cfg cors : forallb passes_on (engine_handlers cfg cors) = true ∧ no_jwt (engine_handlers cfg cors) = true.
Proof. unfold engine_handlers. by destruct (ob_MetricsEnabled _). Qed.
Lemma chain_end inc c0 n0 cx s c n cx' s' : run_chain tcfg scfg revoker inc cx [Endpoint c0 n0] s = (Ok (Reached c n cx'), s') →
  c = c0 ∧ n = n0 ∧ cx' = cx.
Proof. cbn. by intros [= <- <- <-]. Qed.

Lemma existsb_equal (x : string) l : existsb (λ y, bool_decide (y = x)) l = true → x ∈ l.
Proof. intros (y&Hy&->%bool_decide_eq_true)%existsb_exists. by apply list_elem_of_In. Qed.
Lemma admin_required_ok claims : AdminRequired (Some claims) = None → "admin" ∈ cl_Roles claims ∧ ScopeAdmin ∈ Fields (cl_Scope claims).
Proof.
  unfold AdminRequired, hasScope, hasRole. destruct (existsb _ (Fields _)) eqn:Hs; [|done]. destruct (existsb _ (cl_Roles _)) eqn:Hr; [|done].
  intros _. split; by apply existsb_equal.
Qed.
Lemma permission_ok p claims : RequirePermission p (Some claims) = None → p ∈ cl_Permissions claims ∨ "admin:*" ∈ cl_Permissions claims.
Proof.
  unfold RequirePermission, hasPermission. destruct (existsb _ _) eqn:Hp; [|done]. intros _.
  apply existsb_exists in Hp as (y&Hy%list_elem_of_In&[->%bool_decide_eq_true| ->%bool_decide_eq_true]%orb_true_iff); auto.
Qed.

(** C1: c: nobody reaches an endpoint that is not open without a token. Behind the router an
    endpoint runs only when the request carries an access token that is accepted in the
    state the request arrived in, with its session alive and for the account the endpoint
    is told; the endpoints of the administration only with the role, the scope and the
    permission they ask for. *)
Theorem protected_endpoints_sound cfg passkeys e inc s c n cx s' : 0 < sc_ttl scfg → setupEngine cfg passkeys = Ok e →
  ServeHTTP tcfg scfg revoker e inc s = (Ok (Reached c n cx), s') → is_open c n = false →
  ∃ claims, gc_claims cx = Some claims ∧ gc_account cx = Some (cl_AccountID claims) ∧
    bearer_accepted tcfg scfg s (wr_request (in_web inc)) (jwt_options (cf_Auth cfg)) claims ∧
    (c = AdminCtrl → "admin" ∈ cl_Roles claims ∧ ScopeAdmin ∈ Fields (cl_Scope claims) ∧
       (admin_permission n ∈ cl_Permissions claims ∨ "admin:*" ∈ cl_Permissions claims)).
Proof using HG.
  intros Httl He Hrun Hopen. destruct (served _ _ _ _ _ _ _ _ _ He Hrun) as (cors&hs&_&Hc&Hhs).
  destruct (engine_passes cfg cors) as [Hpe Hje].
  destruct Hhs as [->|(deps&r&pre&c'&n'&Hdeps&[Hro Hpre Hguard _ _ _]&->&_)].
  { apply chain_passed in Hc as (cx1&s1&Hend&_); [|done]. by apply chain_end in Hend as (->&->&->). }
  rewrite Hro in Hc.
  pose proof Hc as Hc0. rewrite app_assoc in Hc0. apply chain_passed in Hc0 as (cx0&s0&Hend&_); [|by rewrite forallb_app, Hpe].
  apply chain_end in Hend as (<-&<-&_). destruct (Hguard Hopen) as (p1&p2&->&Hj1&Hj2&Hadmin).
  rewrite forallb_app in Hpre. cbn [forallb passes_on] in Hpre. apply andb_true_iff in Hpre as [Hp1 Hp2].
  rewrite <-app_assoc, app_assoc in Hc. cbn [app] in Hc.
  apply chain_passed in Hc as (cx1&s1&Hc&Hn&_); [|by rewrite forallb_app, Hpe].
  destruct Hn as (Hnear&_&_); [unfold no_jwt in *; by rewrite forallb_app, Hje|].
  apply chain_jwt in Hc as (claims&cx2&s2&Hc&Hcl&Ha&Hacc); [|done].
  apply chain_passed in Hc as (cx3&s3&Hend&Hk&Hall); [|done]. destruct (Hk Hj2) as (_&Hk1&Hk2).
  apply chain_end in Hend as (_&_&->). exists claims. rewrite Hk1, Hk2, Hdeps in *. cbn [rt_AuthConfig] in Hacc. split_and!; try done.
  - by eapply bearer_accepted_near.
  - intros Hadm. destruct (Hadmin Hadm) as [H1' H2'].
    destruct (Hall _ H1') as (cxa&sa&_&Hsa&Hca), (Hall _ H2') as (cxb&sb&_&Hsb&Hcb).
    destruct (Hca Hj2) as [_ Ea], (Hcb Hj2) as [_ Eb]. cbn in Hsa, Hsb. rewrite Ea, Hcl in Hsa. rewrite Eb, Hcl in Hsb.
    apply admin_required_ok in Hsa as [? ?]. apply permission_ok in Hsb. by split_and!.
Qed.

(** C32: c: nobody guesses unhindered. An endpoint with a limit runs only after the limiter of its
    own counted the request for the address of the client and found room, in the state it
    was run in; without Redis nothing passes. *)
Theorem limited_endpoints_counted cfg passkeys e inc s c n cx s' endpoint limit : setupEngine cfg passkeys = Ok e →
  ServeHTTP tcfg scfg revoker e inc s = (Ok (Reached c n cx), s') → limit_of (ws_RateLimits (cf_Web cfg)) c n = Some (endpoint, limit) →
  ∃ hs s1 headers, (RateLimit endpoint limit false, s1) ∈ steps tcfg scfg revoker inc empty_context (en_handlers e ++ hs) s ∧
    run_chain tcfg scfg revoker inc empty_context (en_handlers e ++ hs) s = (Ok (Reached c n cx), s') ∧
    (RedisRateLimitMiddleware endpoint (IPKeyFunc (in_ip inc)) limit minute false (sv_world s1)).1 = Ok (Pass (Some headers)).
Proof using HG.
  intros He Hrun Hlim. destruct (served _ _ _ _ _ _ _ _ _ He Hrun) as (cors&hs&Hen&Hc&Hhs). destruct (engine_passes cfg cors) as [Hpe _].
  destruct Hhs as [->|(deps&r&pre&c'&n'&Hdeps&[Hro Hpre _ Hrl _ _]&->&_)].
  { apply chain_passed in Hc as (cx1&s1&Hend&_); [|done]. by apply chain_end in Hend as (->&->&->). }
  pose proof Hc as Hc0. rewrite Hro, app_assoc in Hc0.
  apply chain_passed in Hc0 as (cx0&s0&Hend&_&Hall); [|by rewrite forallb_app, Hpe].
  apply chain_end in Hend as (<-&<-&_). rewrite Hdeps in Hrl.
  destruct (Hall (RateLimit endpoint limit false)) as (cx2&s2&Hin&(headers&Hseen)&_); [apply elem_of_app; right; by apply Hrl|].
  exists (ro_handlers r), s2, headers. rewrite Hen, Hro in *. rewrite <-app_assoc in Hin. by split_and!.
Qed.

Lemma skipped_app l1 l2 path : skipped (l1 ++ l2) path = skipped l1 path || skipped l2 path.
Proof. apply existsb_app. Qed.
(** C2: c: what a request forged by the page of another origin comes to. When the browser adds
    its cookies to it, but the page knows no token and sets no header, then, whatever its
    method, the endpoint it reaches is one of two kinds. With GET, HEAD or OPTIONS it is one
    of the routes for GET, where the account of the cookie may be the one that acts. With any
    other method, unless the settings exempt the path, it is one of those that take their
    authority from the body of the request, and no account was put into its context. *)
Theorem forged_request_is_confined cfg passkeys e inc s c n cx s' : setupEngine cfg passkeys = Ok e →
  cross_site (csrf_secure cfg) (in_web inc) → ServeHTTP tcfg scfg revoker e inc s = (Ok (Reached c n cx), s') →
  if safe_method (rq_method (wr_request (in_web inc))) then c = Pages ∨ (c, n) ∈ get_endpoints
  else skipped (ws_CSRFSkipPaths (cf_Web cfg)) (rq_path (wr_request (in_web inc))) = false →
    gc_account cx = None ∧ gc_claims cx = None ∧ (c = Pages ∨ (c, n) ∈ csrf_free).
Proof using HG.
  intros He Hforged Hrun. destruct (served _ _ _ _ _ _ _ _ _ He Hrun) as (cors&hs&_&Hc&Hhs). destruct (engine_passes cfg cors) as [Hpe Hje].
  assert (safe_method (rq_method (wr_request (in_web inc))) = false → skipped (ws_CSRFSkipPaths (cf_Web cfg)) (rq_path (wr_request (in_web inc))) = false →
    skipped csrfSkipPaths (rq_path (wr_request (in_web inc))) = true) as Hsk.
  { intros Hm Hskip. pose proof Hc as Hc0. apply chain_passed in Hc0 as (_&_&_&_&Hall); [|done].
    destruct (Hall (CSRF (csrf_secure cfg) (csrfSkipPaths ++ ws_CSRFSkipPaths (cf_Web cfg)))) as (cx1&s1&_&(cookie&Hcsrf)&_).
    { unfold engine_handlers. apply elem_of_app. left. do 7 right. left. }
    destruct (skipped csrfSkipPaths _) eqn:Hsk; [done|].
    destruct (cross_site_refused (csrf_secure cfg) (csrfSkipPaths ++ ws_CSRFSkipPaths (cf_Web cfg)) _ (sv_world s1) Hforged Hm) as [msg Hno];
      [by rewrite skipped_app, Hsk, Hskip|by rewrite Hno in Hcsrf]. }
  destruct Hhs as [->|(deps&r&pre&c'&n'&_&[Hro Hpre _ _ Hcsrf Hget]&->&Hmr&Hp)].
  { apply chain_passed in Hc as (cx1&s1&Hend&Hk&_); [|done]. apply chain_end in Hend as (->&->&->).
    destruct (Hk Hje) as (_&->&->). destruct (safe_method _); [by left|]. intros _. split_and!; auto. }
  rewrite Hro, app_assoc in Hc. apply chain_passed in Hc as (cx1&s1&Hend&Hk&_); [|by rewrite forallb_app, Hpe].
  apply chain_end in Hend as (->&->&->). rewrite Hmr in *. destruct (safe_method _) eqn:Hm; [by apply Hget|]. intros Hskip.
  destruct Hcsrf as [Hfree Hj]; [done|by eapply skipped_matches; [|apply Hsk]|].
  destruct Hk as (_&->&->); [unfold no_jwt in *; by rewrite forallb_app, Hje|]. split_and!; auto.
Qed.
End served.

(** ** Discovery *)
Lemma discovery_parses issuer : utf8_valid issuer = true → jparse (GetDiscoveryDocument issuer) = Some (JObj (NewDiscoveryService issuer)).
Proof.
  intros Hi. apply jparse_jobj. unfold members_wf, NewDiscoveryService, texts. cbn -[utf8_valid String.append]. rewrite !utf8_app by done. by rewrite Hi.
Qed.
Definition claims_supported : list string :=
  ["sub"; "iss"; "aud"; "exp"; "iat"; "auth_time"; "nonce"; "name"; "preferred_username"; "picture"; "email"; "email_verified"; "phone_number";
   "phone_number_verified"; "locale"].
Lemma info_names a creds scopes info : Forall (λ k, k ∈ claims_supported) info.*1 →
  Forall (λ k, k ∈ claims_supported) (foldl (scope_info a creds) info scopes).*1.
Proof.
  assert (∀ k, bool_decide (k ∈ claims_supported) = true → k ∈ claims_supported) as Hin by (by intros k ?%bool_decide_eq_true).
  revert info. induction scopes as [|scope scopes IH]; intros info Hinfo; [done|]. apply IH. unfold scope_info, contact_info, profile_info.
  repeat case_match; try done; repeat (apply jset_names; [by apply Hin|]); done.
Qed.
Lemma userinfo_names {R} accountID scopes (s : Site R) info s' : GetUserInfo accountID scopes s = (Ok info, s') →
  Forall (λ k, k ∈ claims_supported) info.*1.
Proof.
  unfold GetUserInfo, bind. destruct (wrap _ _ _) as [[a|e] s1]; [|done]. destruct (guard_err _ _ _) as [[u|e] s2]; [|done].
  destruct (_ s2) as [[creds|e] s3]; [|done]. intros [= <- _]. apply info_names. by repeat constructor.
Qed.
(** The routes under [/oauth2], [/.well-known] and [/oidc]. *)
Definition protocol_routes (rl : RateLimitsConfig) (jwtAuth : Handler) : list Route :=
  let limit endpoint n := RateLimit endpoint n false in
  let wellKnown := Use (Group server "/.well-known") [limit "well-known" (rl_API rl)] in
  OAuth2Controller_RegisterRoutes (Use (Group server "/oauth2") [AuditMetadataMiddleware]) jwtAuth (Some (limit "oauth2-token" (rl_Token rl)))
    (Some (limit "introspect" (rl_Introspect rl))) (Some (limit "device-code" (rl_DeviceCode rl))) (Some (limit "device-user" (rl_DeviceCode rl))) ++
  [GET wellKnown "/openid-configuration" [Endpoint OIDCCtrl "Discovery"]; GET wellKnown "/jwks.json" [Endpoint OIDCCtrl "JWKS"]] ++
  OIDCController_RegisterRoutes (Use (Group server "/oidc") [limit "oidc" (rl_API rl); AuditMetadataMiddleware]) jwtAuth.
Lemma protocol_registered deps routes r : RegisterWebRouter deps = Some routes →
  r ∈ protocol_routes (rt_RateLimits deps) (JWTAuth (jwt_options (rt_AuthConfig deps))) → r ∈ routes.
Proof.
  unfold RegisterWebRouter. cbn [AuthController_RegisterRoutes ar_LoginLimit ar_MFALimit ar_PasswordLimit ar_RefreshLimit ar_SocialLimit mbind option_bind].
  intros <-%(inj Some) Hr. do 9 (apply elem_of_app; right). exact Hr.
Qed.

(** A route for this path whose endpoint needs no token, or is one of two that do. *)
Definition answers (path : string) (r : Route) : bool :=
  bool_decide (full_path r = path) &&
  match last (ro_handlers r) with
  | Some (Endpoint c n) => is_open c n || bool_decide ((c, n) ∈ [(OAuth2Ctrl, "Authorize"); (OIDCCtrl, "UserInfo")])
  | _ => false
  end.
Lemma answered deps routes path : RegisterWebRouter deps = Some routes →
  existsb (answers path) (protocol_routes (rt_RateLimits deps) (JWTAuth (jwt_options (rt_AuthConfig deps)))) = true →
  ∃ r c n, r ∈ routes ∧ full_path r = path ∧ last (ro_handlers r) = Some (Endpoint c n) ∧
    (is_open c n = true ∨ (c, n) ∈ [(OAuth2Ctrl, "Authorize"); (OIDCCtrl, "UserInfo")]).
Proof.
  intros Hr (r&Hin%list_elem_of_In&Ha)%existsb_exists. unfold answers in Ha. apply andb_true_iff in Ha as [Hp%bool_decide_eq_true Ha].
  destruct (last _) as [[]|] eqn:Hl; try done. exists r, c, name. split_and!; try done; [by eapply protocol_registered|].
  apply orb_true_iff in Ha as [?|?%bool_decide_eq_true]; auto.
Qed.

