(* ===== verification/ControllerProps.v ===== *)
(** * What the endpoints of login, account and administration guarantee *)
From Stdlib Require Import Sorting.Sorted.
From S2P Require Import Prelude GoTime Json Hash Url LuaPattern Redis World Cache Footprint TokenDomain Blacklist TokenService TokenSpecs TokenInv TokenProps AccessProps Session SessionService SessionSpecs SessionProps GoStrings AccountDomain Credential OAuthDomain Database ClientRepo ClientService ClientController AccountRepo Mfa Scan Site StateFootprints AccountService ConsentService AuthMiddleware OAuthController TokenEndpoint TokenEndpointProps Verification AuthCore AuthLogin PasswordReset Passkey AuthSpecs AuthProps VerifyProps PasskeyProps AuthController SocialLogin AdminController.
Local Open Scope Z_scope.

(** A handler that goes on after a step that may fail: what the step did. *)
Lemma attempt_cases {S A B} (m : M S A) (refuse : err → B) k s b s' : attempt m refuse k s = (Ok b, s') →
  (∃ e, m s = (Err e, s') ∧ b = refuse e) ∨ ∃ x s1, m s = (Ok x, s1) ∧ k x s1 = (Ok b, s').
Proof.
  unfold attempt, bind, try. destruct (m s) as [[x|e] s1]; intros Hrun; [right; eauto|left]. exists e. by injection Hrun as <- <-.
Qed.

Section endpoints.
Context {R : Type} `{RedisServer R} `{!ScanServer R} `{JwtLib} `{Postgres} `{Bcrypt} `{Argon2} `{Totp} `{AesGcm} `{Unicode} `{Lower}.
Context `{MailLib} `{ValidatorLib} `{UUIDLib} `{!WebAuthnLib R}.
Context (s : AuthService R) (mfaSvc : option MFAService) (opts : AccountServiceOptions R).
Context (vcfg : VerifyCfg) (emailSvc smsSvc : Sender R) (passkeySvc : option PasskeyCfg).
Implicit Types st : Site R.

(** ** The current password *)
(** What an answer without the password leaves: others may have committed, the world is as
    it was, but for random bytes. *)
Definition untouched st st' : Prop := later (si_db st) (si_db st') ∧ stays (λ _, False) (si_world st) (si_world st').
Definition knows_password st (accountID password : string) : Prop :=
  ∃ d c, later (si_db st) d ∧ head (credentials_of (t_people (db_tables d)) accountID [CredentialTypePassword]) = Some c ∧
    VerifyPassword (Some c) password = true.
Definition refused {A} (r : reply A) : Prop := ∃ status msg, r = Failure status msg ∧ 400 <= status.
Lemma untouched_refl st : untouched st st.
Proof. by split. Qed.
Lemma reads_password_credential a : only_reads (R := R) (FindPasswordCredential a).
Proof. unfold FindPasswordCredential. apply reads_bind; [apply reads_wrap, reads_query|intros x; apply reads_found]. Qed.
Lemma current_password_cases accountID pw st r st' : VerifyCurrentPassword (R := R) accountID pw st = (r, st') →
  untouched st st' ∧ (∀ u, r = Ok u → knows_password st accountID pw).
Proof.
  intros Hrun. split.
  - split.
    + assert (reads_db (VerifyCurrentPassword (R := R) accountID pw)) as Hr.
      { unfold VerifyCurrentPassword, dummyArgon2Hash. reads_db. apply reads_password_credential. }
      specialize (Hr st). by rewrite Hrun in Hr.
    + assert (keeps (λ _, False) (VerifyCurrentPassword (R := R) accountID pw)) as Hk.
      { unfold VerifyCurrentPassword. keep; [apply keeps_reading, reads_password_credential|apply keeps_hash]. }
      specialize (Hk st). by rewrite Hrun in Hk.
  - intros u ->. unfold VerifyCurrentPassword in Hrun. inv_step Hrun. inv_step Hrun. apply at_app_inv in Hr as (a&Hf&->).
    destruct r as [c|e]; [|by inv_step Hrun]. inv_step Hrun. apply negb_false_iff in Hrun.
    unfold FindPasswordCredential in Hf. inv_step Hf. apply query_inv in Hx as (d&Hd&->&_).
    exists d, c. split; [exact Hd|]. split; [|exact Hrun]. destruct (head _); cbn in Hf; [|discriminate Hf]. by injection Hf as <- <-.
Qed.
Lemma step_up {A} accountID pw (refuse : err → reply A) k st r st' : (∀ e, refused (refuse e)) →
  attempt (VerifyCurrentPassword accountID pw) refuse k st = (Ok r, st') →
  knows_password st accountID pw ∨ refused r ∧ untouched st st'.
Proof.
  intros Href [(e&Hv&->)|(x&s1&Hv&_)]%attempt_cases; apply current_password_cases in Hv as [Hu Hk]; [right|left]; eauto.
Qed.
Lemma refuse_early {A} st (r r' : reply A) st' (P : Prop) : ret r' st = (Ok r, st') → refused r' → P ∨ refused r ∧ untouched st st'.
Proof. intros [= -> ->] Hr. right. split; [done|apply untouched_refl]. Qed.
Lemma step_up_claims {A} rq pw (refuse : err → reply A) k st r st' : (∀ e, refused (refuse e)) →
  getClaimsFromContext rq (λ tc, attempt (VerifyCurrentPassword (cl_AccountID tc) pw) refuse (k tc)) st = (Ok r, st') →
  (∃ tc, ca_claims (aq_Caller rq) = Some tc ∧ knows_password st (cl_AccountID tc) pw) ∨ refused r ∧ untouched st st'.
Proof.
  intros Href. unfold getClaimsFromContext. destruct (ca_claims _) as [tc|] eqn:Hc.
  - intros [?|?]%step_up; [left; eauto|by right|done].
  - intros Hrun. eapply refuse_early; [exact Hrun|]. by eexists _, _.
Qed.

(** C9: sensitive changes need the current password. Whoever holds a session of an account
    cannot switch off its second factor, change its password or start a change of its
    address without a password that opens the password credential of the account; any
    other answer is a refusal that leaves the database and the keys in Redis alone. *)
Theorem step_up_required rq st r st' :
  (∀ body, MFADisable mfaSvc rq body st = (Ok r, st') →
     (∃ tc, ca_claims (aq_Caller rq) = Some tc ∧ ∃ pw, body = Some pw ∧ knows_password st (cl_AccountID tc) pw) ∨
     refused r ∧ untouched st st') ∧
  (∀ body, ChangePasswordHandler opts rq body st = (Ok r, st') →
     (∃ tc, ca_claims (aq_Caller rq) = Some tc ∧ ∃ q, body = Some q ∧ knows_password st (cl_AccountID tc) (cq_CurrentPassword q)) ∨
     refused r ∧ untouched st st') ∧
  (∀ body, RequestEmailChange vcfg emailSvc smsSvc rq body st = (Ok r, st') →
     (∃ tc, ca_claims (aq_Caller rq) = Some tc ∧ ∃ q, body = Some q ∧ knows_password st (cl_AccountID tc) (eq_Password q)) ∨
     refused r ∧ untouched st st').
Proof.
  assert (∀ {A} n m, 400 <= n → refused (A := A) (Failure n m)) as Hf by (intros; eexists _, _; eauto).
  split_and!; intros [b|] Hrun; try (eapply refuse_early; [exact Hrun|by apply Hf]).
  - unfold MFADisable in Hrun. destruct (negb _); [eapply refuse_early; [exact Hrun|by apply Hf]|].
    unfold getClaimsFromContext in Hrun. destruct (ca_claims _) as [tc|]; [|eapply refuse_early; [exact Hrun|by apply Hf]].
    unfold with_mfa in Hrun. destruct mfaSvc; [|eapply refuse_early; [exact Hrun|by apply Hf]].
    apply step_up in Hrun as [Hk|?]; [left|by right|by intros; apply Hf]. eauto.
  - unfold ChangePasswordHandler in Hrun. destruct (_ || _); [eapply refuse_early; [exact Hrun|by apply Hf]|].
    apply step_up_claims in Hrun as [(tc&?&?)|?]; [left; eauto|by right|by intros; apply Hf].
  - unfold RequestEmailChange in Hrun. destruct (_ || _); [eapply refuse_early; [exact Hrun|by apply Hf]|].
    apply step_up_claims in Hrun as [(tc&?&?)|?]; [left; eauto|by right|]. intros e. destruct (errors_is e _); by apply Hf.
Qed.
(** ** Passkeys, from the request to the session *)
Lemma keeps_passkey_login requestID expected key body : keeps (λ k, k = key requestID) (completeLoginInternal (R := R) requestID expected key body).
Proof.
  unfold completeLoginInternal, take_challenge, find_passkey, finishLogin, PasskeyRepo_FindByCredentialID, PasskeyRepo_FindByAccountID,
    PasskeyRepo_UpdateCredential, query_passkeys, on_passkeys, app_now. keep; first [by apply keeps_in_world, touches_GetDel | apply keeps_reading, reads_found].
Qed.
Lemma keeps_CompleteLogin requestID body : keeps (λ k, k = redisKeyLoginChallenge requestID) (at_app (CompleteLogin (R := R) requestID body)).
Proof. unfold CompleteLogin. apply keeps_at_app, state_keeps_bind; [apply keeps_passkey_login|done]. Qed.
Lemma keeps_CompleteMFALogin requestID a body : keeps (λ k, k = redisKeyMFAChallenge requestID) (at_app (CompleteMFALogin (R := R) requestID a body)).
Proof. unfold CompleteMFALogin. apply keeps_at_app, state_keeps_bind; [apply keeps_passkey_login|done]. Qed.
Lemma completed_at st1 st st' account ip res : w_now (si_world st1) = w_now (si_world st) →
  completed s st1 st' account ip res → completed s st st' account ip res.
Proof. intros Hn (p&at_&rt&->&Hop&Hst). exists p, at_, rt. split; [done|]. split; [|done]. by eapply opened_at. Qed.
(** The answer of a completed login. *)
Definition answers rq secure st' (res : LoginResult) (r : LoginReply) : Prop :=
  ∃ p, lr_Session res = Some p ∧ r = grant_session s rq secure (lr_AccessToken res) (lr_RefreshToken res) (se_ID (session_at st' p)).
Lemma grant_inv rq secure res st r st' : grant_login s rq secure res st = (Ok r, st') → st' = st ∧ answers rq secure st res r.
Proof.
  unfold grant_login. destruct (lr_Session res) as [p|] eqn:Hp; [|done]. intros Hrun. inv_step Hrun.
  apply at_sess_inv in Hx as (x'&Hload&->). injection Hload as <- <-. inv_step Hrun. subst r. destruct st. split; [done|]. by exists p.
Qed.

(** C7: c: what an answer with a session to a passkey login means, end to end. A ceremony was
    begun and not used yet; an active passkey answered its challenge; the account it
    belongs to, and no other, was found active afterwards; a session of that account was
    opened, marked as having passed a second factor and stored; the cookies and the body
    are the tokens of exactly this session. *)
Theorem passkey_login_endpoint_sound rq requestID text st body cookies st' :
  LoginComplete s passkeySvc rq (Some requestID) text st = (Ok (mkLoginReply (Data 200 body) cookies), st') →
  ∃ accountID cred a1 account d res,
    proven (app_of st) (redisKeyLoginChallenge requestID) accountID text ∧
    CompleteLogin requestID text (app_of st) = (Ok (accountID, cred), a1) ∧
    later (ap_db a1) d ∧ account_row (t_people (db_tables d)) accountID false = Some account ∧ IsActive (Some account) = true ∧
    completed s st st' account (aq_ClientIP rq) res ∧
    answers rq (isSecureRequest rq) st' res (mkLoginReply (Data 200 body) cookies).
Proof.
  unfold LoginComplete. destruct requestID as [|c id]; [done|]. set (requestID := String c id). unfold passkeys. destruct passkeySvc; [|done].
  intros (x&s1&Hlogin&Hrun)%attempt_inv; [|done]. destruct x as [accountID cred].
  apply attempt_inv in Hrun as (res&s2&Hpass&Hrun); [|done].
  pose proof (keeps_run _ _ _ _ _ (keeps_CompleteLogin _ _) Hlogin) as (Hn&_).
  apply at_app_inv in Hlogin as (a1&Hlogin&->).
  destruct (passkey_login_sound _ _ _ _ _ _ Hlogin) as (Hproven&_).
  unfold LoginByPasskey in Hpass. apply on_failure_inv in Hpass. inv_step Hpass.
  apply active_inv in Hx as (Hn2&_&Hact&d&Hd&Hrow). apply complete_login_inv in Hpass.
  assert (lr_RequiresMFA res = false) as Hmfa by (by destruct Hpass as (?&?&?&->&_)).
  unfold mfa_or_grant in Hrun. rewrite Hmfa in Hrun. apply grant_inv in Hrun as [-> Hans].
  exists accountID, cred, a1, x, d, res. split_and!; try done. eapply completed_at; [|exact Hpass]. congruence.
Qed.

(** The same when a passkey is the second factor. The token of the first factor was
    accepted; a ceremony begun for a second factor was answered by a passkey of its very
    account; the account is active; the session is marked as having passed a second
    factor; the token is spent. *)
Theorem passkey_mfa_endpoint_sound rq q text st body cookies st' :
  MFAComplete s passkeySvc rq (Some q) text st = (Ok (mkLoginReply (Data 200 body) cookies), st') →
  ∃ claims st1 account d res,
    access_accepted (as_tokenSvc s) (si_world st) (mc_MFAToken q) claims ∧ cl_Scope claims = ScopeMFA ∧
    (cl_AccountID claims ≠ "" → proven (app_of st) (redisKeyMFAChallenge (mc_RequestID q)) (cl_AccountID claims) text) ∧
    later (si_db st1) d ∧ account_row (t_people (db_tables d)) (cl_AccountID claims) false = Some account ∧ IsActive (Some account) = true ∧
    completed s st st' account (aq_ClientIP rq) res ∧ spent (si_world st') claims ∧
    answers rq (isSecureRequest rq) st' res (mkLoginReply (Data 200 body) cookies).
Proof using H2 H4 H5 H0 H1 H7 R WebAuthnLib0 passkeySvc s.
  unfold MFAComplete. destruct (_ || _); [done|]. intros (claims&s1&Hval&Hrun)%attempt_inv; [|done].
  unfold passkeys in Hrun. destruct passkeySvc; [|done].
  apply attempt_inv in Hrun as (u1&s2&Hpk&Hrun); [|done]. apply attempt_inv in Hrun as (u2&s3&Hmark&Hrun); [|done].
  apply attempt_inv in Hrun as (res&s4&Hfin&Hrun); [|done]. apply grant_inv in Hrun as [-> Hans].
  apply validate_mfa_inv in Hval as (Hacc&Hsc&(Hn1&_&Hv1)&Hd1).
  pose proof (keeps_run _ _ _ _ _ (keeps_CompleteMFALogin _ _ _) Hpk) as (Hn2&_).
  apply at_app_inv in Hpk as (a1&Hpk&->). apply at_world_inv in Hmark as (w3&Hmark&->).
  assert (w_now w3 = w_now (si_world st)) as Hn3.
  { pose proof (touches_Set (R := R) (λ _, True) (mfa_verified_key (cl_ID claims)) "1" (as_mfaVerificationTTL s) I (ap_world a1)) as (Hn3&_).
    change (si_world (put_app a1 s1)) with (ap_world a1) in Hn2, Hmark. rewrite Hmark in Hn3. cbn [snd] in Hn3. congruence. }
  apply finish_by_passkey in Hfin as (claims'&account&d0&Hacc'&_&Hfac&(d&Hd&Hrow&Hact)&Hdone&Hspent).
  assert (claims' = claims) as ->.
  { destruct Hacc as (Hp&_), Hacc' as (Hp'&_). rewrite si_world_put, Hn3 in Hp'. congruence. }
  exists claims, (put_world w3 (put_app a1 s1)), account, d, res. split_and!; try done.
  - intros Hne. destruct u1. destruct (passkey_mfa_sound _ _ _ _ _ Hne Hpk) as [(data&e&sn&raw&be&pk&d'&Hdata&?&?&?&Hd'&?&?) _].
    exists data, e, sn, raw, be, pk, d'. split_and!; try done; [|change (later (si_db st) d'); by rewrite <-Hd1].
    rewrite <-Hdata. change (view (si_world st) (redisKeyMFAChallenge (mc_RequestID q)) = view (si_world s1) (redisKeyMFAChallenge (mc_RequestID q))).
    rewrite Hv1; [done|by intros []].
  - destruct Hfac as [(_&Hl&_)|[[=] _]]. by etrans.
  - apply (completed_at (put_world w3 (put_app a1 s1))); [exact Hn3|exact Hdone].
Qed.
End endpoints.

(** * Login through a provider *)
Section social.
Context {R : Type} `{RedisServer R} `{JwtLib} `{Postgres} `{Bcrypt} `{Argon2} `{Totp} `{AesGcm} `{Unicode} `{Lower} `{MailLib} `{!ProviderHTTP R}.
Context (s : AuthService R) (checksMFA secureCookie : bool).
Implicit Types st : Site R.
#[local] Abbreviation people d := (t_people (db_tables d)).

Lemma found_inv {A} e (o : option A) (a : App R) x a' : found e o a = (Ok x, a') → o = Some x ∧ a' = a.
Proof. destruct o as [y|]; [|done]. by intros [= -> ->]. Qed.
(** One row, read by a statement. *)
Lemma row_inv {A} c e (f : People → option A) st x st' :
  at_app (bind (wrap c (query f)) (found e)) st = (Ok x, st') →
  si_sess st' = si_sess st ∧ si_world st' = si_world st ∧ later (si_db st) (si_db st') ∧ f (people (si_db st')) = Some x.
Proof.
  intros (a&Hrun&->)%at_app_inv. inv_step Hrun. apply query_inv in Hx as (d&Hd&->&->). apply found_inv in Hrun as [Hrow ->].
  by destruct st as [[]].
Qed.

(** The account that a login through a provider is for, and the state in which it is
    looked up: the one that holds the identity; the one whose verified address the provider
    gave, which the identity is then linked to; the latter also after an attempt to create
    an account met another that had the address. *)
Inductive resolves (provider uid email : string) : Site R → Site R → string → Prop :=
  | ByIdentity st st1 i : later (si_db st) (si_db st1) → identity_for (people (si_db st1)) provider uid = Some i →
      resolves provider uid email st st1 (fi_AccountID i)
  | ByAddress st st1 c st2 x r st3 : email ≠ "" → later (si_db st) (si_db st1) →
      credential_for (people (si_db st1)) CredentialTypeEmail email = Some c → IsVerified (Some c) = true →
      si_db st2 = si_db st1 → fi_Provider x = provider → fi_ProviderUserID x = uid → fi_AccountID x = cr_AccountID c →
      at_app (RunInTransaction (CreateFederatedIdentity x)) st2 = (r, st3) →
      resolves provider uid email st st3 (cr_AccountID c)
  | AfterRace st st1 account verified e st2 st3 a : later (si_db st) (si_db st1) →
      at_app (createAccountWithIdentity account provider uid email verified) st1 = (Err e, st2) → errors_is e ErrUniqueViolation = true →
      resolves provider uid email st2 st3 a → resolves provider uid email st st3 a.
(** What it answers for an account: a token for the second step when a second factor is
    enrolled (and checked), or else a session of the account and its tokens. *)
Definition session_for st st' (account : Account) (ip : string) (res : LoginResult) : Prop :=
  ∃ d, later (si_db st) d ∧
    if checksMFA && second_factor (people d) (a_ID account)
    then ∃ tok types, res = buildMFAResult account tok types ∧ between_factors s st (a_ID account) tok
    else ∃ p accessToken refreshToken, res = buildLoginResult account p accessToken refreshToken ∧
         opened s st st' (a_ID account) ip false p accessToken refreshToken ∧ stored st' (session_at st' p).
Definition login_of st1 st' accountID ip res : Prop :=
  ∃ d st2 account, later (si_db st1) d ∧ account_row (people d) accountID false = Some account ∧ IsActive (Some account) = true ∧
    later (si_db st1) (si_db st2) ∧ w_now (si_world st2) = w_now (si_world st1) ∧ session_for st2 st' account ip res.
Lemma issue_inv ctx account ip ua st res st' : issueSessionAndTokens s checksMFA ctx account ip ua st = (Ok res, st') →
  session_for st st' account ip res.
Proof.
  unfold issueSessionAndTokens, session_for. intros (o&st1&Hmfa&Hrun)%bind_inv. destruct checksMFA; cbn [andb].
  - apply mfa_requirement_inv in Hmfa as (Hn&Hd&d&Hl&Hfactor). exists d. split; [exact Hl|]. destruct o as [result|].
    + destruct Hfactor as [-> Htok]. by apply ret_inv in Hrun as [-> ->].
    + rewrite Hfactor. apply bind_inv in Hrun as ([[p at_] rt]&st2&Hcreate&Hrun). apply ret_inv in Hrun as [-> ->].
      exists p, at_, rt. split; [done|]. apply session_opened_stored in Hcreate as [Ho ?]. split; [by eapply opened_at|done].
  - apply ret_inv in Hmfa as [-> ->]. exists (si_db st). split; [done|].
    apply bind_inv in Hrun as ([[p at_] rt]&st2&Hcreate&Hrun). apply ret_inv in Hrun as [-> ->].
    exists p, at_, rt. split; [done|]. by eapply session_opened_stored.
Qed.
Lemma existing_inv ctx accountID ip ua st res st' : loginExistingUser s checksMFA ctx accountID ip ua st = (Ok res, st') →
  login_of st st' accountID ip res.
Proof.
  unfold loginExistingUser. intros Hrun%on_failure_inv. inv_step Hrun. unfold FindAccountByID, AccountRepo_FindByID, findAccountByID in Hx.
  apply row_inv in Hx as (_&Hw&Hd&Hrow). inv_step Hrun. apply negb_false_iff in Hg. apply issue_inv in Hrun.
  exists (si_db st0), st0, x. split_and!; try done. by rewrite Hw.
Qed.

Lemma new_identity_inv accountID provider uid st x st' : at_app (new_identity accountID provider uid) st = (Ok x, st') →
  si_db st' = si_db st ∧ fi_Provider x = provider ∧ fi_ProviderUserID x = uid ∧ fi_AccountID x = accountID.
Proof.
  intros (a&Hrun&->)%at_app_inv. unfold new_identity in Hrun. inv_step Hrun. inv_step Hrun. injection Hx as <- <-. inv_step Hrun.
  unfold in_world in Hx. destruct (uuid_new _) as [[id|?] w]; [|discriminate Hx]. injection Hx as <- <-.
  unfold lift_res in Hrun. injection Hrun as Hnew <-. split; [done|]. revert Hnew. unfold NewFederatedIdentity.
  repeat case_match; try done; by intros [= <-].
Qed.
Lemma link_inv ctx provider uid email ip ua st o st' : email ≠ "" →
  linkByEmailIfVerified s checksMFA ctx provider uid email ip ua st = (Ok o, st') →
  match o with
  | Some res => ∃ st3 a, resolves provider uid email st st3 a ∧ login_of st3 st' a ip res
  | None => later (si_db st) (si_db st')
  end.
Proof.
  intros Hne. unfold linkByEmailIfVerified. intros Hrun. inv_step Hrun. rename Hr into Hfind.
  assert (later (si_db st) (si_db st0)) as Hreads.
  { assert (only_reads (R := R) (FindByTypeAndIdentifier CredentialTypeEmail email)) as Hr
      by (unfold FindByTypeAndIdentifier; apply reads_bind; [apply reads_wrap, reads_query|intros ?; apply reads_found]).
    specialize (Hr (app_of st)). apply at_app_inv in Hfind as (a&Hf&->). rewrite Hf in Hr. apply Hr. }
  destruct r as [c|e].
  2:{ destruct (errors_is e _); [|discriminate Hrun]. by apply ret_inv in Hrun as [-> ->]. }
  unfold FindByTypeAndIdentifier in Hfind. apply row_inv in Hfind as (_&_&_&Hrow).
  destruct (IsVerified (Some c)) eqn:Hver; cbn [negb] in Hrun; [|by apply ret_inv in Hrun as [-> ->]].
  inv_step Hrun. apply new_identity_inv in Hx as (Hd1&Hp&Hu&Ha). inv_step Hrun. inv_step Hrun. inv_step Hrun. apply ret_inv in Hrun as [-> ->].
  exists st2, (cr_AccountID c). split; [|by eapply existing_inv].
  eapply (ByAddress provider uid email st st0 c st1 x r); done.
Qed.

Lemma session_for_at st1 st st' account ip res : w_now (si_world st1) = w_now (si_world st) → si_db st1 = si_db st →
  session_for st1 st' account ip res → session_for st st' account ip res.
Proof.
  intros Hn Hd (d&Hl&Hs). exists d. rewrite <-Hd. split; [exact Hl|]. destruct (_ && _).
  - destruct Hs as (tok&types&->&Hb). exists tok, types. split; [done|]. unfold between_factors in *. by rewrite <-Hn.
  - destruct Hs as (p&at_&rt&->&Ho&Hst). exists p, at_, rt. split; [done|]. split; [by eapply opened_at|done].
Qed.
(** A new account, active, with the identity and perhaps the address. *)
Definition registers st st' provider uid email ip res : Prop :=
  ∃ account st1 st2, later (si_db st) (si_db st1) ∧ IsActive (Some account) = true ∧
    (∃ address verified, address ∈ [""; email] ∧
       at_app (createAccountWithIdentity account provider uid address verified) st1 = (Ok tt, st2)) ∧
    session_for st2 st' (Sanitize account) ip res.
(** What a login through a provider that gave [uid] and [email] comes to. *)
Definition enters st st' provider uid email ip res : Prop :=
  (∃ st3 a, resolves provider uid email st st3 a ∧ login_of st3 st' a ip res) ∨ registers st st' provider uid email ip res.

Lemma new_account_active t id name a : NewAccount t id name = Ok a → IsActive (Some a) = true.
Proof. unfold NewAccount. destruct (account_Validate _); [|done]. by intros [= <-]. Qed.
Lemma maybe_link_inv ctx provider uid email (b : bool) ip ua st o st' : (b = true → email ≠ "") →
  (if b then linkByEmailIfVerified s checksMFA ctx provider uid email ip ua else ret None) st = (Ok o, st') →
  match o with
  | Some res => ∃ st3 a, resolves provider uid email st st3 a ∧ login_of st3 st' a ip res
  | None => later (si_db st) (si_db st')
  end.
Proof.
  destruct b; [intros Hb; by apply link_inv, Hb|]. by intros _ [-> ->]%ret_inv.
Qed.
Lemma create_user_inv ctx provider uid email name verified ip ua st res st' :
  createNewUser s checksMFA ctx provider uid email name verified ip ua st = (Ok res, st') → enters st st' provider uid email ip res.
Proof.
  unfold createNewUser. set (address := if _ : bool then email else "").
  assert (address = "" ∨ address = email) as Haddr by (subst address; case_match; auto). clearbody address.
  intros (o&st1&Hlink&Hrun)%bind_inv.
  assert ((if negb (bool_decide (address = "")) then linkByEmailIfVerified s checksMFA ctx provider uid address ip ua else ret None) st = (Ok o, st1)) as Hl
    by (destruct (bool_decide (address = "")); exact Hlink). apply maybe_link_inv in Hl; [|by case_bool_decide].
  assert (∀ st0 st3 a, address ≠ "" → resolves provider uid address st0 st3 a → resolves provider uid email st0 st3 a) as Hsame
    by (intros * Hne; by destruct Haddr as [?| ->]).
  destruct o as [result|].
  { apply ret_inv in Hrun as [-> ->]. destruct Hl as (?&?&?&?). left. case_bool_decide; [discriminate Hlink|]. eauto. }
  inv_step Hrun. apply at_app_inv in Hx as (a&Hnew&->). inv_step Hnew. inv_step Hnew. injection Hx0 as <- <-.
  unfold in_world in Hx. destruct (uuid_new _) as [[id|?] w]; [|discriminate Hx]. injection Hx as <- <-.
  unfold lift_res in Hnew. injection Hnew as Hnew <-. apply new_account_active in Hnew as Hact.
  inv_step Hrun. set (st2 := put_app _ st1) in Hr. assert (later (si_db st) (si_db st2)) as Hl2 by exact Hl.
  destruct r as [u|e].
  - right. exists x, st2, st0. split; [exact Hl2|]. split; [exact Hact|].
    split; [exists address, verified; split; [set_solver|by destruct u]|].
    unfold register_social in Hrun. inv_step Hrun.
    apply issue_inv in Hrun. destruct (keeps_run _ _ _ _ _ (keeps_login_audit (λ _, False) _ _ _) Hx) as (Hn&_).
    apply at_world_inv in Hx as (w1&Ha&->). by eapply session_for_at.
  - inv_step Hrun. destruct (negb _ && _) eqn:Hb in Hx; [|by apply ret_inv in Hx as [-> ->]].
    apply andb_true_iff in Hb as [Hne%negb_true_iff%bool_decide_eq_false He].
    apply link_inv in Hx; [|exact Hne].
    destruct x0 as [result|]; [|discriminate Hrun]. apply ret_inv in Hrun as [-> ->].
    destruct Hx as (st4&a&Hres&Hlogin). left. exists st4, a. split; [|exact Hlogin]. apply Hsame; [exact Hne|]. by eapply AfterRace.
Qed.
Lemma enters_later st0 st st' provider uid email ip res : later (si_db st0) (si_db st) →
  enters st st' provider uid email ip res → enters st0 st' provider uid email ip res.
Proof.
  intros Hd [(st3&a&Hres&Hl)|(acc&st1&st2&Hd1&Hrest)]; [left; exists st3, a; split; [|done]|right; exists acc, st1, st2; split; [by etrans|done]].
  destruct Hres.
  - eapply ByIdentity; [etrans; [exact Hd|done]|done].
  - eapply ByAddress; [done|etrans; [exact Hd|eassumption]|done..].
  - eapply AfterRace; [etrans; [exact Hd|eassumption]|done..].
Qed.

(** C8: c: what a login through a provider means. The state the browser brings back is the
    nonce of its cookie with an address of the network it comes from. The provider exchanged
    the code for a token and described the user; nothing but what it said decides for whom
    the login is: for the account that has the identity, for the one whose verified address
    it gave, or for a new one. An account that is looked up is active. The answer is a
    token for the second step when a second factor is enrolled, and otherwise a session of
    this account, stored under its key, with its tokens. *)
Theorem social_login_sound providers rq provider state code st body cookies st' :
  SocialCallback s checksMFA secureCookie (Some providers) rq provider state code st = (Ok (mkLoginReply (Data 200 body) cookies), st') →
  (∃ nonce ip, Cookie (aq_Request rq) socialCookieName = Some nonce ∧ nonce ≠ "" ∧ splitOAuthState state = Some (nonce, ip) ∧
     sameSubnet24 ip (aq_ClientIP rq) = true) ∧
  ∃ config token w1 w2 uid email name verified res st3,
    provider_config providers provider = Some config ∧
    exchangeCode config code (si_world st) = (Ok token, w1) ∧
    fetchUserInfo provider config token w1 = (Ok (uid, email, name, verified), w2) ∧
    enters (put_world w2 st) st3 provider uid email (aq_ClientIP rq) res ∧
    mfa_or_grant s rq secureCookie res st3 = (Ok (mkLoginReply (Data 200 body) (tail cookies)), st').
Proof.
  unfold SocialCallback. destruct (state_accepted _ _ _) eqn:Hstate; [|done]. cbn [negb].
  destruct (negb _); [done|]. case_bool_decide; [done|]. destruct (_ <? _); [done|].
  intros (res&st3&Hrun&Hans)%attempt_inv; [|done]. split.
  { unfold state_accepted in Hstate. rewrite !andb_true_iff, !negb_true_iff, !bool_decide_eq_false in Hstate. destruct Hstate as [[_ Hne] Hs].
    destruct (splitOAuthState state) as [[nonce ip]|]; [|discriminate Hs]. apply andb_true_iff in Hs as [->%bool_decide_eq_true Hip].
    destruct (Cookie _ _) as [saved|]; [|by destruct Hne]. eauto 10. }
  unfold HandleCallback in Hrun. destruct (provider_config _ _) as [config|]; [|discriminate Hrun].
  inv_step Hrun. apply at_world_inv in Hx as (w1&Hex&->). inv_step Hrun. apply at_world_inv in Hx as (w2&Hfetch&->).
  destruct x0 as [[[uid email] name] verified]. inv_step Hans. apply ret_inv in Hans as [Heq ->].
  destruct x0 as [ans l]. unfold with_cookie in Heq. cbn in Heq. injection Heq as -> ->.
  exists config, x, w1, w2, uid, email, name, verified, res, st3. split_and!; try done.
  inv_step Hrun. destruct r as [known|e].
  - unfold FindByProvider in Hr. apply row_inv in Hr as (_&_&Hd&Hrow). left. exists st1, (fi_AccountID known). split; [eapply ByIdentity; [exact Hd|exact Hrow]|].
    by eapply existing_inv.
  - inv_step Hrun. assert (only_reads (R := R) (FindByProvider provider uid)) as Hreads
      by (unfold FindByProvider; apply reads_bind; [apply reads_wrap, reads_query|intros ?; apply reads_found]).
    specialize (Hreads (app_of (put_world w2 (put_world w1 st)))). apply at_app_inv in Hr as (a&Hf&->). rewrite Hf in Hreads. destruct Hreads as [Hw Hd].
    apply create_user_inv in Hrun. eapply enters_later; [|exact Hrun]. exact Hd.
Qed.
End social.

(** * Administration *)
(** ** Sorting *)
Section newest.
Context {A : Type} (key : A → Z).
#[local] Abbreviation newer := (λ x y : A, key y <= key x).
Lemma newest_first_cons x l : ∃ l1 l2, newest_first key l = l1 ++ l2 ∧ newest_first key (x :: l) = l1 ++ x :: l2 ∧
  Forall (λ y, key x < key y) l1 ∧ match l2 with y :: _ => key y <= key x | [] => True end.
Proof.
  cbn. change (foldr _ [] l) with (newest_first key l). induction (newest_first key l) as [|y r (l1&l2&Hr&Hins&Hl1&Hl2)]; [by exists [], []|].
  destruct (Z.leb_spec (key y) (key x)); [by exists [], (y :: r)|].
  exists (y :: l1), l2. split_and!; [by rewrite Hr|by rewrite Hins|by constructor|done].
Qed.
Lemma newest_first_perm l : newest_first key l ≡ₚ l.
Proof.
  induction l as [|x l IH]; [done|]. destruct (newest_first_cons x l) as (l1&l2&Hl&->&_). by rewrite <-Permutation_middle, <-Hl, IH.
Qed.
Lemma newest_first_sorted l : Sorted newer (newest_first key l).
Proof.
  induction l as [|x l IH]; [constructor|]. destruct (newest_first_cons x l) as (l1&l2&Hl&->&Hnew&Hold). rewrite Hl in IH. clear Hl.
  induction l1 as [|y l1 IH1]; cbn in *.
  - constructor; [done|]. destruct l2; by constructor.
  - apply Sorted_inv in IH as [IH Hd]. apply Forall_cons in Hnew as [Hy Hnew]. constructor; [by apply IH1|].
    destruct l1; [constructor; lia|]. inversion Hd. by constructor.
Qed.
End newest.
(** Consecutive pages of [k] rows. *)
Lemma pages_concat {A} (k n : nat) (l : list A) : concat (map (λ i, take k (drop (i * k) l)) (seq 0 n)) = take (n * k) l.
Proof.
  induction n as [|n IH]; [done|]. rewrite seq_S, map_app, concat_app, IH. cbn. rewrite app_nil_r, take_take_drop. f_equal. lia.
Qed.
(** ** The pages of the audit trail *)
Definition at_page (f : AuditQueryFilter) (page : Z) : AuditQueryFilter :=
  mkAuditFilter (af_AccountID f) (af_EventType f) (af_StartTime f) (af_EndTime f) page (af_PageSize f).
Definition size_of (f : AuditQueryFilter) : Z := if (af_PageSize f <? 1) || (100 <? af_PageSize f) then 20 else af_PageSize f.
Lemma size_bounds f : 1 <= size_of f <= 100.
Proof. unfold size_of. destruct (Z.ltb_spec (af_PageSize f) 1), (Z.ltb_spec 100 (af_PageSize f)); cbn; lia. Qed.
Lemma wrap64_id z : - 2 ^ 63 <= z < 2 ^ 63 → wrap64 z = z.
Proof. intros Hz. unfold wrap64. rewrite Z.mod_small; lia. Qed.
(** One page of a table that both statements see. *)
Lemma query_page f t p : 1 <= p → p * size_of f < 2 ^ 63 →
  Query (Some t) (Some t) (at_page f p) =
  Ok (take (Z.to_nat (size_of f)) (drop (Z.to_nat ((p - 1) * size_of f)) (audit_rows f t)), Z.of_nat (length (audit_rows f t))).
Proof.
  intros Hp Hmax. pose proof (size_bounds f) as Hs. unfold Query, clampAuditPagination, at_page, auditMaxPageSize. cbn [af_Page af_PageSize].
  rewrite (proj2 (Z.ltb_ge p 1)) by lia. fold (size_of f). rewrite wrap64_id by nia.
  assert (audit_matches (mkAuditFilter (af_AccountID f) (af_EventType f) (af_StartTime f) (af_EndTime f) p (af_PageSize f)) = audit_matches f) as Hm by done.
  unfold audit_rows. rewrite Hm. rewrite (Permutation_length (newest_first_perm ar_CreatedAt _)).
  rewrite (proj2 (Z.ltb_ge _ 0)) by nia.
  case_match eqn:Hz; [|done]. apply Z.eqb_eq in Hz. destruct (List.filter _ _) as [|? ?]; [|by cbn in Hz; lia]. cbn. by rewrite drop_nil, take_nil.
Qed.

(** C: walking through the pages of an audit query shows each matching record once, newest
    first, as long as the table stands still: a page is never lost to the clamping of the
    parameters, and every page tells the same total. *)
Theorem audit_pages_partition f t (n : nat) : Z.of_nat n * size_of f < 2 ^ 63 → Z.of_nat (length (audit_rows f t)) <= Z.of_nat n * size_of f →
  (∃ pages : list (list AuditRecord), length pages = n ∧ concat pages = audit_rows f t ∧
     ∀ i items, pages !! i = Some items →
       Query (Some t) (Some t) (at_page f (Z.of_nat i + 1)) = Ok (items, Z.of_nat (length (audit_rows f t))) ∧
       Z.of_nat (length items) <= size_of f) ∧
  audit_rows f t ≡ₚ List.filter (audit_matches f) t ∧ Sorted (λ x y, ar_CreatedAt y <= ar_CreatedAt x) (audit_rows f t).
Proof.
  intros Hmax Hlen. pose proof (size_bounds f) as Hs. split; [|split; [apply newest_first_perm|apply newest_first_sorted]].
  exists (map (λ i, take (Z.to_nat (size_of f)) (drop (i * Z.to_nat (size_of f)) (audit_rows f t))) (seq 0 n)). split_and!.
  - by rewrite length_map, length_seq.
  - rewrite pages_concat. apply take_ge. nia.
  - intros i items Hi. apply list_lookup_fmap_Some in Hi as (j&->&[-> Hj]%lookup_seq). split; [|rewrite length_take; lia].
    rewrite query_page by nia. do 4 f_equal. nia.
Qed.

(** ** The administrator's own account *)
Section admin.
Context {R : Type} `{RedisServer R} `{!ScanServer R} `{Postgres} `{Argon2} `{Unicode} `{Lower} `{MailLib} `{TzLib} `{ValidatorLib}.
Context `{UUIDValue} (opts : AccountServiceOptions R).

(** The handlers that change an account from outside, at any parameters. *)
Inductive changes_account (who : Caller) : (string → M (Site R) (reply string)) → Prop :=
  | Deletes : changes_account who (DeleteAccountHandler opts who)
  | Disables : changes_account who (DisableAccountHandler opts who)
  | Enables : changes_account who (EnableAccountHandler who)
  | AddsRole body : changes_account who (λ id, AddRoleHandler opts who id body)
  | RemovesRole role : changes_account who (λ id, RemoveRoleHandler opts who id role)
  | RevokesConsent client : changes_account who (λ id, RevokeConsentHandler who id client)
  | ClearsLockout : changes_account who (ClearLockoutHandler who)
  | SetsPassword body : changes_account who (λ id, AdminChangePasswordHandler opts who id body)
  | ResetsMFA : changes_account who (ResetMFAHandler who).
Lemma on_other_own {A} who id (k : M (Site R) (reply A)) st : isSelfAccount who id = true →
  ∃ status msg, on_other who id k st = (Ok (Failure status msg), st) ∧ 400 <= status <= 403.
Proof. intros Hself. unfold on_other, ValidateUUID. rewrite Hself. destruct (uuid_parse id); eexists _, _; (split; [reflexivity|lia]). Qed.

(** An administrator cannot turn these operations on the own account, in whatever form
    its identifier is written, nor can a request without an account: each is refused and
    nothing changes, in the database or in Redis. *)
Theorem admin_spares_own_account who h id st : changes_account who h →
  match ca_account who with Some own => own = "" ∨ is_Some (uuid_value own) ∧ uuid_value id = uuid_value own | None => True end →
  ∃ status msg, h id st = (Ok (Failure status msg), st) ∧ 400 <= status <= 403.
Proof.
  intros Hh Hown. assert (isSelfAccount who id = true) as Hself; [|by destruct Hh; apply on_other_own].
  unfold isSelfAccount. destruct (ca_account who) as [own|]; [|done]. cbn. case_bool_decide; [done|].
  destruct Hown as [?|[[v Hv] Hid]]; [done|]. rewrite Hid, Hv. apply N.eqb_refl.
Qed.

(** The consent to a client that was registered cannot be revoked here. The handler
    takes only UUIDs for clients, and the identifier of a client is 48 hex digits. *)
Theorem registered_client_consent_unrevocable `{Bcrypt} who id req (a a' : App R) client secret st :
  RegisterClient req a = (Ok (client, secret), a') →
  ∃ status msg, RevokeConsentHandler who id (oc_ClientID client) st = (Ok (Failure status msg), st) ∧ 400 <= status <= 403.
Proof.
  intros Hreg%registered_id. unfold RevokeConsentHandler, on_other, ValidateUUID.
  destruct (uuid_parse (oc_ClientID client)) eqn:Hp; [apply uuid_parse_length in Hp; rewrite Hreg in Hp; set_solver by lia|].
  destruct (uuid_parse id), (isSelfAccount who id); eexists _, _; (split; [reflexivity|lia]).
Qed.
End admin.
