(* ===== verification/AuthExamples.v ===== *)
(** * Sample runs of the authentication services, and what they do in awkward moments *)
From S2P Require Import Prelude GoTime Json LuaPattern Hash Url Redis World Cache Footprint TokenDomain Blacklist TokenService TokenSpecs TokenIndex TokenInv TokenProps AccessProps TokenExamples Session SessionService SessionSpecs SessionProps OAuthDomain DeviceCode ServiceFootprints SessionExamples GoStrings AccountDomain Credential Database ClientRepo ClientService AccountRepo Mfa Scan Site Verification StateFootprints AccountService Wiring ClientExamples AuthMiddleware AuthCore AuthLogin PasswordReset Passkey TokenEndpointProps AuthSpecs AuthProps RefreshProps VerifyProps PasswordResetProps PasskeyProps AuthController SocialLogin AdminController Config Startup ControllerProps HttpMiddleware RateProps OidcService Router.
Local Open Scope Z_scope.

(** ** Sample runs of the verification codes, and what they do in awkward moments *)
(** Lower case of ASCII text. *)
#[export, refine] Instance ascii_lower : Lower := {
  to_lower := ToLower; equal_fold s t := bool_decide (ToLower s = ToLower t)
}.
Proof. all: done. Defined.
(** A sender whose messages arrive. *)
Definition post_office : Sender MemRedis :=
  {| send_message to text := ret tt; send_touches to text := touches_ret _ tt; send_net to text w := eq_refl |}.

Module VerifySample.
Definition cfg : VerifyCfg := NewVerificationServiceWithConfig (mkVerifyCfg 0 0 3 0 "pepper").
Definition world : World MemRedis := mkWorld ∅ (1750000000 * second) [] [[1; 2; 3]; [4; 5; 6]]%N [] [].
Definition sent : World MemRedis := (SendCode cfg post_office post_office "email" " Alice@Example.org" "acc-1" world).2.
Definition key : string := buildCodeKey "email" "alice@example.org".
Abbreviation verify := (VerifyCode (R := MemRedis) cfg "email" "alice@example.org").
End VerifySample.

Module VerifyWitnesses.
Import VerifySample.
Definition data : verifyCodeData :=
  mkCodeData "9cdd27ce3c6faf5bb4dbd18663861f88980cff8a961044fba1df279e388e8dc0" 0 "acc-1".
Lemma sent_at : code_at (view sent key) (Some (data, 1750000600000)).
Proof. split; vm_compute; reflexivity. Qed.
Lemma verification_code_sound_witness :
  (verify "066051" sent).1 = Ok "acc-1" ∧ view (verify "066051" sent).2 key = None.
Proof.
  assert (verify "066051" sent = (Ok "acc-1", (verify "066051" sent).2)) as Hrun by (apply run_ok; vm_compute; reflexivity).
  split; [exact (f_equal fst Hrun)|].
  refine (proj1 (proj2 (verification_code_sound cfg "email" "alice@example.org" "066051" sent "acc-1" (verify "066051" sent).2 _ _ Hrun))).
  - vm_compute. reflexivity.
  - exists (Some (data, 1750000600000)). exact sent_at.
Defined.
(** Three wrong guesses are compared, the right code comes too late. *)
Definition guessed : World MemRedis := (verify "000003" (verify "000002" (verify "000001" sent).2).2).2.
Lemma verification_guesses_bounded_witness :
  guessing cfg "email" "alice@example.org" sent 3 ∧ (verify "066051" guessed).1 = Err ErrVerificationCodeExhausted ∧
  (3 ≤ Z.to_nat (vc_maxAttempts cfg))%nat.
Proof.
  assert (guessing cfg "email" "alice@example.org" sent (1 + (1 + (1 + 0)))) as Hg.
  { eapply (guess_code _ _ _ _ "000001" (Err ErrVerificationCodeInvalid)); [apply run_ok; vm_compute; reflexivity|].
    eapply (guess_code _ _ _ _ "000002" (Err ErrVerificationCodeInvalid)); [apply run_ok; vm_compute; reflexivity|].
    eapply (guess_code _ _ _ _ "000003" (Err ErrVerificationCodeInvalid)); [apply run_ok; vm_compute; reflexivity|constructor]. }
  split; [exact Hg|]. split; [vm_compute; reflexivity|].
  apply (verification_guesses_bounded cfg "email" "alice@example.org" sent 3 (Some (data, 1750000600000))).
  - vm_compute. reflexivity.
  - exact sent_at.
  - intros d e [= <- <-]. discriminate.
  - exact Hg.
Defined.
Lemma verification_round_trip_witness :
  ∃ code w3, VerifyCode (R := MemRedis) cfg "email" " Alice@Example.org" code (put_net [] (tick minute sent)) = (Ok "acc-1", w3) ∧
    is_ok (VerifyCode cfg "email" " Alice@Example.org" code (put_net [] (tick 0 w3))).1 = false.
Proof.
  destruct (verification_round_trip cfg post_office post_office "email" " Alice@Example.org" "acc-1" world sent) as (s&code&w1&Hs&Hsend&Hv).
  - vm_compute. reflexivity.
  - vm_compute. reflexivity.
  - reflexivity.
  - unfold sent. apply run_ok. vm_compute. reflexivity.
  - destruct (Hv minute) as (w3&Hok&Hagain); [vm_compute; discriminate..|]. exists code, w3. split; [exact Hok|].
    apply (Hagain 0 [] code). discriminate.
Defined.
End VerifyWitnesses.

Module VerifyDeviations.
Import VerifySample.
(** A wrong guess in the last half second renews the code for its whole time. *)
Definition last_moment : World MemRedis := tick (10 * minute - 400 * millisecond) sent.
Lemma late_guess_renews_code :
  let w := (verify "000000" last_moment).2 in
  view (tick second last_moment) key = None ∧ (verify "066051" (tick (9 * minute) w)).1 = Ok "acc-1".
Proof. vm_compute. by split. Qed.
End VerifyDeviations.

(** ** Sample logins, refreshes and codes, and what they do in awkward moments *)
(** A JWT library that knows two sets of claims. *)
#[refine] Instance two_jwt (c0 c1 : AccessTokenClaims) : JwtLib := {
  jwt_sign kid priv c := if bool_decide (c = c0) then Ok "first.token.signature"
                         else if bool_decide (c = c1) then Ok "second.token.signature" else Err (Anon "sign");
  jwt_parse issuer leeway now kf tok :=
    match (if bool_decide (tok = "first.token.signature") then Some c0
           else if bool_decide (tok = "second.token.signature") then Some c1 else None) with
    | Some c => match kf "RSA" "RS256" with
                | Err e => Err e
                | Ok _ => if registered_ok issuer leeway now c then Ok c else Err (Anon "token has invalid claims")
                end
    | None => Err (Anon "token is malformed")
    end;
  jwt_public priv := "public " +:+ priv;
}.
Proof.
  - intros issuer leeway now kf kid priv c tok Hs Hk. destruct (bool_decide_reflect (c = c0)) as [->|];
      [|destruct (bool_decide_reflect (c = c1)) as [->|]; [|done]]; injection Hs as <-; eval_tests; by rewrite Hk.
  - intros issuer leeway now kf tok c Hp. destruct (if bool_decide _ then _ else _) as [c'|]; [|done]. destruct (kf _ _) eqn:Hk; [|done].
    destruct (registered_ok _ _ _ _) eqn:Hr; [|done]. simplify_eq. eauto.
Defined.
(** A hash that is the salted password, cut to its length. *)
#[refine] Instance plain_argon2 : Argon2 := {
  argon2_key pw salt t m p n := resize n 0%N (map (λ x, x mod 256)%N (bytes_of pw ++ salt))
}.
Proof.
  - intros. apply length_resize.
  - intros. apply Forall_resize; [done|]. apply Forall_map, Forall_forall. intros x _. by apply N.mod_lt.
Defined.
(** One-time passwords that are the secret itself. *)
Instance plain_totp : Totp := {
  totp_validate code secret now := bool_decide (code = secret);
  totp_generate issuer account random := Ok (hex_encode random, "otpauth://totp/" +:+ issuer +:+ ":" +:+ account)
}.
#[refine] Instance plain_gcm : AesGcm := {
  gcm_seal key nonce text := bytes_of text;
  gcm_open key nonce data := Some (string_of data)
}.
Proof.
  - intros key nonce text. f_equal. unfold string_of, bytes_of.
    induction text as [|a text IH]; cbn; [done|]. by rewrite ascii_N_embedding, IH.
  - intros key nonce text. apply Forall_map, Forall_forall. intros a _. apply N_ascii_bounded.
Defined.
(** The categories of ASCII characters. *)
#[refine] Instance ascii_unicode : Unicode := {
  uc_upper n := ((65 <=? n) && (n <=? 90))%N; uc_lower n := ((97 <=? n) && (n <=? 122))%N; uc_digit n := ((48 <=? n) && (n <=? 57))%N
}.
Proof. intros a _. by split_and!. Defined.

Module AuthSample.
Definition t0 : Z := 1750000000 * second.
Definition alice : Account := mkAccount "acc-1" (Some "alice") "Alice" None "active" "en" "UTC" [] t0 t0 None.
Definition bob : Account := mkAccount "acc-2" (Some "bob") "Bob" None "active" "en" "UTC" [] t0 t0 None.
Definition login_tcfg : TokenCfg := Sample.cfg.
Definition hash : string := match (HashPassword "Correct-Horse-7" (mkWorld (∅ : MemRedis) t0 [] [[9]]%N [] [])).1 with Ok h => h | Err _ => "" end.
Definition cred (id account type value : string) : Credential :=
  mkCredential id account type None value true true [] t0 t0 None None None.
(** Bob has an authenticator and one backup code. *)
Definition people : People :=
  mkPeople {["acc-1" := alice; "acc-2" := bob]}
    {["c-1" := cred "c-1" "acc-1" "password" hash; "c-2" := cred "c-2" "acc-2" "password" hash;
      "c-3" := cred "c-3" "acc-2" "totp" "123456"; "c-4" := cred "c-4" "acc-2" "backup_code" "$2a$10$0123456789abcdef";
      "c-5" := mkCredential "c-5" "acc-1" "email" (Some "alice@example.org") "" true true [] t0 t0 None None None]} ∅ ∅ [].
Lemma people_keyed : keyed people.
Proof. apply (bool_decide_unpack _). vm_compute. exact I. Qed.
Definition tables : Tables := mkTables ∅ ∅ people ∅.
Definition world : World MemRedis := mkWorld ∅ t0 [] [[1; 2; 3]; [4; 5; 6]; [7; 8; 9]; [10; 11; 12]]%N ["u-1"; "u-2"; "u-3"; "u-4"; "u-5"; "u-6"] [].
Definition start : Site MemRedis := mkSite (mkSess world [] ∅ 0) (mkDB tables tables [] [] []) (newAccountValidatorAdapter t0).
Definition auth : AuthService MemRedis :=
  NewAuthServiceWithConfig Sample.cfg SessionSample.cfg (Some SessionSample.revoker) (mkMfa "gosso" None 10 8 false)
    (mkAuthServiceConfig 0 3 0 0 0 0 []).
Definition ctx : Ctx := Sample.ctx.
Definition as_alice (password : string) : LoginCommand := mkLoginCommand "Alice" password "192.0.2.7" "curl/8.5".
Definition as_bob : LoginCommand := mkLoginCommand "bob" "Correct-Horse-7" "192.0.2.7" "curl/8.5".
End AuthSample.


Module LoginWitnesses.
Import AuthSample.
Definition alice_claims : AccessTokenClaims := issued Sample.cfg "u-2" t0 (token_claims "acc-1" "u-1" "openid profile email" [] []).
Definition mfa_token_claims : AccessTokenClaims :=
  ensureClientAudience (stamp_claims Sample.cfg "u-1" (NewNumericDate t0) (NewNumericDate (t0 + 5 * minute)) (mfa_claims "u-1" "acc-2" (t0 + 5 * minute))).
Definition bob_claims : AccessTokenClaims := issued Sample.cfg "u-3" (t0 + minute) (token_claims "acc-2" "u-2" "openid profile email" [] []).
Definition result (account : Account) (token : string) : LoginResult :=
  mkLoginResult account (Some 0%nat) token (hex_encode (rand_block refreshTokenLength [1; 2; 3]%N)) "" false [].
Definition wait (d : Z) (st : Site MemRedis) : Site MemRedis := put_world (put_net [] (tick d (si_world st))) st.

Module Alice.
#[local] Instance jwt : JwtLib := one_jwt alice_claims.
Abbreviation login := (LoginByUsernamePassword auth ctx (as_alice "Correct-Horse-7")).
Abbreviation guess := (LoginByUsernamePassword auth ctx (as_alice "Correct-Horse-8")).
Lemma password_login_sound_witness :
  login start = (Ok (result alice "header.claims.signature"), (login start).2) ∧
  ∃ d, rtc meanwhile (si_db start) d ∧ password_opens (t_people (db_tables d)) "alice" "Correct-Horse-7" alice.
Proof.
  assert (login start = (Ok (result alice "header.claims.signature"), (login start).2)) as Hrun by (apply run_ok; vm_compute; reflexivity).
  split; [exact Hrun|]. exact (proj1 (proj2 (password_login_sound auth ctx (as_alice "Correct-Horse-7") start _ _ Hrun))).
Defined.
(** Two wrong guesses, half a minute apart; the third attempt is locked out. *)
Definition first_guess : Site MemRedis := (guess start).2.
Definition second_guess : Site MemRedis := (guess (put_world (tick (30 * second) (si_world first_guess)) first_guess)).2.
Lemma password_guesses_bounded_witness :
  (login second_guess).1 = Err ErrAccountLocked ∧ Z.of_nat 2 <= as_loginMaxAttempts auth - 1.
Proof.
  split; [vm_compute; reflexivity|].
  refine (password_guesses_bounded auth (NormalizeIP "192.0.2.7") "alice" start (t0 + minute) 2 _ _ _ _ _ _).
  - split; reflexivity.
  - reflexivity.
  - vm_compute. reflexivity.
  - discriminate.
  - discriminate.
  - apply (attack_try _ _ _ _ _ ctx (as_alice "Correct-Horse-8") (Err ErrInvalidCredentials) first_guess 1);
      [split; vm_compute; reflexivity|unfold first_guess; apply run_ok; vm_compute; reflexivity|reflexivity|].
    apply (attack_wait _ _ _ _ _ (30 * second)); [discriminate|vm_compute; discriminate|].
    apply (attack_try _ _ _ _ _ ctx (as_alice "Correct-Horse-8") (Err ErrInvalidCredentials) second_guess 0);
      [split; vm_compute; reflexivity|unfold second_guess; apply run_ok; vm_compute; reflexivity|reflexivity|constructor].
Defined.
End Alice.

#[local] Instance jwt : JwtLib := two_jwt mfa_token_claims bob_claims.
Definition half : Site MemRedis := (LoginByUsernamePassword auth ctx as_bob start).2.
Abbreviation finish code := (VerifyMFALogin auth ctx "first.token.signature" code "totp" "192.0.2.7" "curl/8.5").
Definition done_ : Site MemRedis := (finish "123456" (wait minute half)).2.
Lemma finished : finish "123456" (wait minute half) = (Ok (result bob "second.token.signature"), done_).
Proof. unfold done_. apply run_ok. vm_compute. reflexivity. Qed.
Lemma mfa_login_sound_witness :
  second_step auth (wait minute half) done_ "first.token.signature" "123456" "totp" "192.0.2.7" (result bob "second.token.signature").
Proof. apply (mfa_login_sound auth ctx "first.token.signature" "123456" "totp" "192.0.2.7" "curl/8.5"). exact finished. Defined.
(** A minute later the token is refused, with the code and without. *)
Lemma mfa_token_single_use_witness :
  is_ok (finish "123456" (wait minute half)).1 = true ∧ is_ok (finish "123456" (wait minute done_)).1 = false.
Proof.
  split; [vm_compute; reflexivity|].
  refine (proj1 (mfa_token_single_use auth ctx "first.token.signature" "123456" "totp" "192.0.2.7" "curl/8.5" (wait minute half)
    (result bob "second.token.signature") done_ (wait minute done_) "kid-1" mfa_token_claims _ _ _ _ ctx "123456" "totp" "192.0.2.7" "curl/8.5")).
  - vm_compute. reflexivity.
  - left. exact finished.
  - vm_compute. discriminate.
  - vm_compute. reflexivity.
Defined.
End LoginWitnesses.

Module RefreshWitnesses.
Import AuthSample LoginWitnesses.
Definition old : RefreshToken :=
  match (ValidateRefreshToken (lr_RefreshToken (result alice "")) (si_world (LoginByUsernamePassword (H0 := one_jwt alice_claims) auth ctx (as_alice "Correct-Horse-7") start).2)).1
  with Ok rt => rt | Err _ => mkRT "" "" "" "" "" "" "" 0 0 end.
Definition new_claims : AccessTokenClaims :=
  issued Sample.cfg "u-3" (t0 + minute) (for_client old (token_claims "acc-1" "u-1" "openid profile email" [] [])).
#[local] Instance jwt : JwtLib := two_jwt alice_claims new_claims.
Definition signed_in : Site MemRedis := wait minute (LoginByUsernamePassword auth ctx (as_alice "Correct-Horse-7") start).2.
Definition token : string := lr_RefreshToken (result alice "").
Definition renewed : RefreshResult :=
  mkRefreshResult "second.token.signature" (hex_encode (rand_block refreshTokenLength [4; 5; 6]%N)) "u-1".
Lemma refresh_sound_witness :
  (refreshTokensLocked auth ctx token signed_in).1 = Ok renewed ∧
  ∃ old again, goes_by (si_world signed_in) token old again ∧ rr_SessionID renewed = rt_SessionID old.
Proof.
  assert (refreshTokensLocked auth ctx token signed_in = (Ok renewed, (refreshTokensLocked auth ctx token signed_in).2)) as Hrun
    by (apply run_ok; vm_compute; reflexivity).
  split; [exact (f_equal fst Hrun)|].
  destruct (refresh_sound auth ctx token signed_in renewed _ eq_refl Hrun) as (old'&again&Hg&_&_&_&_&Hs&_).
  exists old', again. split; [exact Hg|exact Hs].
Defined.
Definition pause : M (Site MemRedis) unit := λ st, (Ok tt, put_world (tick refreshTokenLockPoll (si_world st)) st).
Definition held : Site MemRedis :=
  put_world (SetNX (refresh_lock_key token) "1" hour (si_world signed_in)).2 signed_in.
Lemma refresh_terminates_witness :
  (RefreshTokens auth pause ctx token held).1 = Err ErrInvalidRefreshToken ∧ (RefreshTokens auth pause ctx token signed_in).1 = Ok (Some renewed) ∧
  (RefreshTokens auth pause ctx token held).1 ≠ Ok None.
Proof.
  split; [vm_compute; reflexivity|]. split; [vm_compute; reflexivity|].
  apply (refresh_terminates auth pause ctx token held). intros st. exact (Z.le_refl _).
Defined.
End RefreshWitnesses.

Module MfaWitnesses.
Import AuthSample.
Definition code : string := "0123456789abcdef".
Abbreviation use := (VerifyBackupCode "acc-2" code).
Lemma backup_code_single_use_witness :
  (use (app_of start)).1 = Ok true ∧ (use (mkApp world (ap_db (use (app_of start)).2))).1 = Ok false.
Proof.
  split; [vm_compute; reflexivity|].
  destruct (backup_code_single_use "acc-2" code (app_of start)) as (a'&Hrun&_&_&Hagain); [by split|exact people_keyed|].
  rewrite Hrun. apply Hagain. vm_compute. reflexivity.
Defined.
End MfaWitnesses.

Module ResetWitnesses.
Import AuthSample.
Definition cfg : PasswordResetCfg := NewPasswordResetServiceWithConfig (mkResetCfg 0 0 0 (Some "https://id.example.org/reset") true).
Definition asked : Site MemRedis := (RequestReset cfg post_office " Alice@example.org" start).2.
Definition token : string := hex_encode (rand_block passwordResetTokenLength [1; 2; 3]%N).
Definition data : passwordResetData := mkResetData "acc-1" "alice@example.org" "alice" 0.
Abbreviation reset pw := (VerifyAndReset cfg login_tcfg (Some SessionSample.revoker) false ctx token pw).
Lemma stored : reset_at (view (si_world asked) (reset_token_key (HashToken (TrimSpace token)))) (Some (data, 1750001800000)).
Proof. split; [|split]; vm_compute; [reflexivity..|by split]. Qed.
Lemma password_reset_sound_witness :
  (reset "Battery-Staple-9" asked).1 = Ok (Some "acc-1") ∧
  view (si_world (reset "Battery-Staple-9" asked).2) (reset_token_key (HashToken (TrimSpace token))) = None.
Proof.
  assert (reset "Battery-Staple-9" asked = (Ok (Some "acc-1"), (reset "Battery-Staple-9" asked).2)) as Hrun by (apply run_ok; vm_compute; reflexivity).
  split; [exact (f_equal fst Hrun)|].
  refine (proj1 (proj2 (proj2 (password_reset_sound cfg login_tcfg _ false ctx token "Battery-Staple-9" asked _ _ _ _ _ stored Hrun)))); vm_compute; reflexivity.
Defined.
Lemma can_reset : resettable cfg token asked data 1750001800000 alice (cred "c-1" "acc-1" "password" hash).
Proof.
  split.
  - split; [by vm_compute|by split|exact people_keyed].
  - vm_compute. by split.
  - vm_compute. discriminate.
  - exact stored.
  - vm_compute. reflexivity.
  - vm_compute. by repeat split.
  - vm_compute. reflexivity.
  - vm_compute. by split.
  - split; [discriminate|left; vm_compute; reflexivity].
Qed.
#[local] Existing Instance LoginWitnesses.jwt.
Lemma password_reset_takes_effect_witness :
  ∃ st' : Site MemRedis, password_opens (people_of (app_of st')) "alice" "Battery-Staple-9" alice ∧
    ∀ tok rt w', ValidateRefreshToken tok (tick minute (si_world st')) = (Ok rt, w') → rt_AccountID rt = "acc-1" →
      Unix (w_now (si_world asked)) <= Unix (rt_CreatedAt rt).
Proof.
  destruct (password_reset_takes_effect cfg login_tcfg (Some SessionSample.revoker) false ctx token "Battery-Staple-9" asked data 1750001800000
    alice (cred "c-1" "acc-1" "password" hash)) as (job&st'&_&Hopens&Hrevoked).
  - vm_compute. reflexivity.
  - vm_compute. reflexivity.
  - vm_compute. reflexivity.
  - exact can_reset.
  - exists st'. split; [apply Hopens; vm_compute; reflexivity|].
    destruct (Hrevoked minute (w_net (si_world st'))) as [Hr _]; [vm_compute; discriminate|vm_compute; reflexivity|].
    intros tok rt w'. exact (Hr tok rt w').
Defined.
End ResetWitnesses.

(** ** Passkeys *)
(** A library whose ceremonies are texts and whose signature is the key itself. *)
Definition simple_signature (s : string) (key : list N) : string := hex_encode key +:+ "." +:+ s.
Definition simple_check (u : WebAuthnUser) (s body : string) : res WaCredential :=
  match cut "|" body with
  | Some (raw, sig) =>
      match List.find (λ c, bool_decide (wa_ID c = bytes_of raw) && bool_decide (sig = simple_signature s (wa_PublicKey c))) (wu_credentials u) with
      | Some c => Ok c
      | None => Err (Anon "validate assertion")
      end
  | None => Err (Anon "parse")
  end.
Definition simple_user (s : string) : string := match cut "|" s with Some (u, _) => u | None => "" end.
Lemma simple_check_ok u s body c raw be : simple_check u s body = Ok c →
  match cut "|" body with Some (raw, _) => Ok (bytes_of raw, false) | None => Err (Anon "parse") end = Ok (raw, be) →
  ∃ c0, c0 ∈ wu_credentials u ∧ wa_ID c0 = raw ∧ ∃ r, cut "|" body = Some (r, simple_signature s (wa_PublicKey c0)).
Proof.
  unfold simple_check. destruct (cut "|" body) as [[r sig]|]; [|done]. destruct (List.find _ _) as [c1|] eqn:Hf; [|done].
  intros _ [= <- <-]. apply find_some in Hf as [Hin Hb]. apply andb_true_iff in Hb as [Hid%bool_decide_eq_true ->%bool_decide_eq_true].
  exists c1. split; [by apply list_elem_of_In|]. split; [done|]. by exists r.
Qed.
#[refine] Instance simple_webauthn : WebAuthnLib MemRedis := {
  WaSession := string; WaOptions := string;
  asserts s key body := ∃ r, cut "|" body = Some (r, simple_signature s key);
  wa_marshal s := Ok s; wa_unmarshal t := Some t; wa_UserID := simple_user;
  wa_BeginRegistration u l := let! b := rand_read 4 in ret (hex_encode b, wu_accountID u +:+ "|" +:+ hex_encode b);
  wa_BeginLogin u := let! b := rand_read 4 in ret (hex_encode b, wu_accountID u +:+ "|" +:+ hex_encode b);
  wa_BeginDiscoverableLogin := let! b := rand_read 4 in ret (hex_encode b, "|" +:+ hex_encode b);
  wa_FinishRegistration now u s body := Ok (mkWaCredential (bytes_of body) [7]%N "none" 0 [] 0 []);
  wa_FinishLogin now u s body := if bool_decide (simple_user s = wu_accountID u) then simple_check u s body else Err (Anon "user mismatch");
  wa_FinishPasskeyLogin now u s body := simple_check u s body;
  wa_parse body := match cut "|" body with Some (raw, _) => Ok (bytes_of raw, false) | None => Err (Anon "parse") end;
}.
Proof.
  - by intros s t [= ->].
  - intros now u s body c raw be. case_bool_decide as Hu; [|done]. intros Hc Hp. split; [exact Hu|]. by eapply simple_check_ok.
  - intros now u s body c raw be Hc Hp. by eapply simple_check_ok.
Defined.

Module PasskeyWitnesses.
Import AuthSample.
Definition row : PasskeyRow :=
  mkPasskeyRow (mkPasskey "p-1" "acc-1" (bytes_of "key") [4; 2]%N 0 [] [] "none" "laptop" 0 true t0 t0 None None) (b64_encode (bytes_of "key")).
Definition enrolled : App MemRedis :=
  let t := mkTables ∅ ∅ people {["p-1" := row]} in mkApp world (mkDB t t [] [] []).
Definition cfg : PasskeyCfg := NewPasskeyServiceWithConfig (mkPasskeyCfg 0).
Definition begun : App MemRedis := (BeginDiscoverableLogin cfg enrolled).2.
Definition answer (s : string) : string := "key|" +:+ simple_signature s [4; 2]%N.
Definition body : string := answer ("|" +:+ hex_encode (rand_block 4 [1; 2; 3]%N)).
Abbreviation complete := (CompleteLogin "u-1" body).
Lemma passkey_login_sound_witness :
  (fst <$> match (complete begun).1 with Ok x => Some x | Err _ => None end) = Some "acc-1" ∧
  proven begun (redisKeyLoginChallenge "u-1") "acc-1" body ∧
  view (ap_world (complete begun).2) (redisKeyLoginChallenge "u-1") = None.
Proof.
  assert (complete begun = (Ok ("acc-1", used_passkey t0 (ToWebAuthnCredential (pr_cred row)) (pr_cred row)), (complete begun).2)) as Hrun
    by (apply run_ok; vm_compute; reflexivity).
  split; [rewrite Hrun; reflexivity|].
  destruct (passkey_login_sound "u-1" body begun "acc-1" _ (complete begun).2 Hrun) as (Hp&_&Hv&_). split; [exact Hp|exact Hv].
Defined.
(** The second factor of Alice, for an account that is hers. *)
Definition mfa_begun : App MemRedis := (BeginMFALogin cfg "acc-1" enrolled).2.
Definition mfa_body : string := answer ("acc-1|" +:+ hex_encode (rand_block 4 [1; 2; 3]%N)).
Lemma passkey_mfa_sound_witness :
  proven mfa_begun (redisKeyMFAChallenge "u-1") "acc-1" mfa_body ∧
  (CompleteMFALogin "u-1" "acc-2" mfa_body mfa_begun).1 = Err ErrCredentialOwnership.
Proof.
  split; [|vm_compute; reflexivity].
  refine (proj1 (passkey_mfa_sound "u-1" "acc-1" mfa_body mfa_begun (CompleteMFALogin "u-1" "acc-1" mfa_body mfa_begun).2 _ _)).
  - discriminate.
  - apply run_ok. vm_compute. reflexivity.
Defined.
(** A name that is too long for a passkey makes the registration panic: the new record is
    changed before the error is looked at. *)
Definition long_name : string := String.concat "" (replicate 256 "x").
Lemma long_name_panics :
  (CompleteRegistration "u-1" "acc-1" "alice" "Alice" long_name "new key" (BeginRegistration cfg "acc-1" "alice" "Alice" enrolled).2).1 = Err nil_panic.
Proof. vm_compute. reflexivity. Qed.
End PasskeyWitnesses.

Module AuthDeviations.
Import AuthSample.
#[local] Instance jwt : JwtLib := one_jwt LoginWitnesses.alice_claims.
Definition with_tables (t : Tables) (st : Site MemRedis) : Site MemRedis := mkSite (si_sess st) (mkDB t t [] [] []) (si_active st).
Definition refusing (n : nat) (st : Site MemRedis) : Site MemRedis :=
  put_world (put_net (replicate n Delivered ++ [Refused]) (si_world st)) st.
(** Resetting the factors of an account leaves its passkeys, which are in a table of their own. *)
Definition passkey : PasskeyRow :=
  mkPasskeyRow (mkPasskey "p-1" "acc-2" [1; 2; 3]%N [4]%N 0 [] [] "none" "key" 0 true t0 t0 None None) "AQID".
Definition keyed_bob : Site MemRedis := with_tables (mkTables ∅ ∅ people {["p-1" := passkey]}) start.
Lemma reset_mfa_keeps_passkeys :
  let after := ResetMFA "acc-2" keyed_bob in
  after.1 = Ok tt ∧ credentials_of (people_of (app_of after.2)) "acc-2" [CredentialTypeTOTP; CredentialTypeBackupCode] = [] ∧
  (PasskeyRepo_HasPasskeys "acc-2" (app_of after.2)).1 = Ok true.
Proof. vm_compute. by repeat split. Qed.
(** A code of the authenticator in use activates the new one, whose secret nobody has shown to know. *)
Definition pending : Credential := mkCredential "c-6" "acc-2" "totp" None "654321" false false [] t0 t0 None None None.
Definition enrolling : Site MemRedis :=
  with_tables (mkTables ∅ ∅ (mkPeople (t_accounts people) (<["c-6" := pending]> (t_credentials people)) ∅ ∅ []) ∅) start.
Lemma old_code_activates_new_secret :
  let after := ActivateTOTP (as_mfaSvc auth) "acc-2" "123456" (app_of enrolling) in
  after.1 = Ok tt ∧ (cr_Verified <$> t_credentials (people_of after.2) !! "c-6") = Some true ∧
  (VerifyTOTP (as_mfaSvc auth) "acc-2" "654321" after.2).1 = Ok true.
Proof. vm_compute. by repeat split. Qed.
(** With a limit of one attempt the first one, though right, is refused. *)
Lemma limit_allows_one_less :
  (LoginByUsernamePassword (NewAuthServiceWithConfig Sample.cfg SessionSample.cfg (Some SessionSample.revoker) (mkMfa "gosso" None 10 8 false)
    (mkAuthServiceConfig 0 1 0 0 0 0 [])) ctx (as_alice "Correct-Horse-7") start).1 = Err ErrAccountLocked.
Proof. vm_compute. reflexivity. Qed.
(** One wrong password, and the account is reported as locked out. *)
Lemma one_failure_reported_as_lockout :
  let after := (LoginByUsernamePassword auth ctx (as_alice "Correct-Horse-8") start).2 in
  match (GetLockoutStatus "acc-1" after).1 with Ok s => ls_LockedOut s | Err _ => false end = true ∧
  is_ok (LoginByUsernamePassword auth ctx (as_alice "Correct-Horse-7") after).1 = true.
Proof. vm_compute. by split. Qed.
(** The connection breaks while the token of a reset is deleted: the password is changed,
    but the request fails, nothing is revoked and the token is good for another reset. *)
Definition broken : Site MemRedis := refusing 1 ResetWitnesses.asked.
Abbreviation reset := (VerifyAndReset ResetWitnesses.cfg login_tcfg (Some SessionSample.revoker) false ctx ResetWitnesses.token).
Lemma failed_delete_skips_revocation :
  let after := reset "Battery-Staple-9" broken in
  is_ok after.1 = false ∧ view (si_world after.2) (buildAccountRevokedAfterKey "acc-1") = None ∧
  is_ok (LoginByUsernamePassword auth ctx (as_alice "Battery-Staple-9") after.2).1 = true ∧
  is_ok (reset "Tractor-Paper-5" after.2).1 = true.
Proof. vm_compute. by repeat split. Qed.
(** While Redis is away a good token is called invalid. *)
Lemma outage_reported_as_bad_token : (reset "Battery-Staple-9" (refusing 0 ResetWitnesses.asked)).1 = Err ErrPasswordResetInvalidToken.
Proof. vm_compute. reflexivity. Qed.
End AuthDeviations.

(** ** The endpoints of login, account and administration *)
Instance any_mail : MailLib := { mail_parse s := if bool_decide (s = "") then None else Some s }.
Instance any_email : ValidatorLib := { is_email s := negb (bool_decide (s = "")) }.
(** A provider whose every user says to be Alice, of an address it did not verify. *)
Instance careless_provider : ProviderHTTP MemRedis := {
  http_post url form := ret (200, "provider-token"); http_get url token := ret (200, "profile");
  decode_token body := Some body;
  decode_info provider body := Some (mkProviderInfo (IDNumber 4711) "alice@example.org" "Mallory" false "" "")
}.

Module ControllerWitnesses.
Import AuthSample PasskeyWitnesses.
(** A request as a browser sends it, with these cookies. *)
Definition rq (cookies : list (string * string)) : AuthRequest :=
  mkAuthRequest (mkRequest "POST" "/api/v1/auth/login" "/api/v1/auth/login" "" cookies) "192.0.2.7" "curl/8.5" ctx (ClientController.mkCaller None None) None 64 "" true "".
Definition site_of (a : App MemRedis) : Site MemRedis := put_app a start.

(** Alice signs in with her passkey. *)
Definition alice_claims : AccessTokenClaims := issued Sample.cfg "u-3" t0 (token_claims "acc-1" "u-2" "openid profile email" [] []).
#[local] Instance jwt : JwtLib := one_jwt alice_claims.
Definition complete_login := LoginComplete auth (Some cfg) (rq []) (Some "u-1") body (site_of begun).
(** The answer that sets both cookies. *)
Definition granted (refresh : string) : LoginReply :=
  grant_session auth (rq []) true "header.claims.signature" refresh "u-2".
Lemma passkey_login_endpoint_sound_witness :
  ∃ accountID, proven begun (redisKeyLoginChallenge "u-1") accountID body.
Proof.
  set (answer := granted (hex_encode (rand_block refreshTokenLength [4; 5; 6]%N))).
  assert (complete_login = (Ok (mkLoginReply (ly_reply answer) (ly_cookies answer)), complete_login.2)) as Hrun by (apply run_ok; vm_compute; reflexivity).
  destruct (passkey_login_endpoint_sound auth (Some cfg) (rq []) "u-1" body (site_of begun) _ _ complete_login.2 Hrun) as (a&_&_&_&_&_&Hp&_).
  exists a. exact Hp.
Defined.

(** Mallory signs in with an account at a provider that repeats the address she typed. *)
Definition github : OAuthProviderConfig :=
  mkProvider "client-1" "secret" "https://id.example.org/cb" [] "https://github.com/a" "https://github.com/t" "https://github.com/u".
Definition from_github : AuthRequest := rq [("oauth_state", "n0nce")].
Definition callback := SocialCallback auth true true (Some [("github", github)]) from_github "github" "n0nce:192.0.2.9" "code" start.
Lemma social_login_sound_witness :
  ∃ uid email res st3 w, enters auth true (put_world w start) st3 "github" uid email "192.0.2.7" res.
Proof.
  set (answer := granted (hex_encode (rand_block refreshTokenLength [1; 2; 3]%N))).
  assert (callback = (Ok (mkLoginReply (ly_reply answer) (stateCookie true "" (-1) :: ly_cookies answer)), callback.2)) as Hrun
    by (apply run_ok; vm_compute; reflexivity).
  destruct (social_login_sound auth true true [("github", github)] from_github "github" "n0nce:192.0.2.9" "code" start _ _ callback.2 Hrun)
    as [_ (config&token&w1&w2&uid&email&name&verified&res&st3&_&_&_&Henters&_)].
  exists uid, email, res, st3, w2. exact Henters.
Defined.
(** The session is Alice's, and Mallory's identity is linked to Alice for good: her address
    is verified here, which is all that is asked. *)
Lemma unverified_address_takes_account :
  (fetchUserInfo "github" github "provider-token" (si_world start)).1 = Ok ("4711", "alice@example.org", "Mallory", false) ∧
  (ly_reply <$> match callback.1 with Ok l => Some l | Err _ => None end) =
    Some (ClientController.Data 200 (TokenSet "header.claims.signature" (hex_encode (rand_block refreshTokenLength [1; 2; 3]%N)) "u-2" 900)) ∧
  cl_AccountID alice_claims = "acc-1" ∧ (fi_AccountID <$> identity_for (people_of (app_of callback.2)) "github" "4711") = Some "acc-1".
Proof. vm_compute. by repeat split. Qed.

(** Two pages of an audit trail, and one so far away that its offset wraps around. *)
Definition record (id : string) (t : Z) : AuditRecord := mkAuditRecord id "c" None "auth.logout" "alice" "account" None None None t.
Definition trail : list AuditRecord := [record "r-1" 10; record "r-2" 30; record "r-3" 20].
Definition logouts : AuditQueryFilter := mkAuditFilter "" "auth.logout" None None 1 2.
Lemma audit_pages_partition_witness :
  (∃ pages, length pages = 2%nat ∧ concat pages = audit_rows logouts trail) ∧ map ar_ID (audit_rows logouts trail) = ["r-2"; "r-3"; "r-1"].
Proof.
  split; [|vm_compute; reflexivity].
  destruct (audit_pages_partition logouts trail 2) as [(pages&Hlen&Hcat&_) _]; [vm_compute; reflexivity|vm_compute; discriminate|].
  exists pages. split; [exact Hlen|exact Hcat].
Defined.
Lemma far_page_fails :
  Query (Some trail) (Some trail) (mkAuditFilter "" "" None None (2 ^ 63 - 1) 100) = Err (Wrap "query audit records" ErrDatabase).
Proof. vm_compute. reflexivity. Qed.

(** ** Awkward moments *)
(** The cookie of a login through a provider is for paths under which there is no route. *)
Lemma social_cookie_never_returns : has_prefix socialCookiePath "/api/v1/auth/social/github/callback" = false.
Proof. reflexivity. Qed.
(** An IPv4 address passes for the network of an IPv6 address. *)
Lemma mixed_addresses_compare_equal : sameSubnet24 "10.0.0.1" "::1" = true.
Proof. vm_compute. reflexivity. Qed.
(** An address that was registered with a capital is looked up without: no reset is sent. *)
Definition capital_alice : Site MemRedis :=
  let c := mkCredential "c-5" "acc-1" "email" (Some "Alice@example.org") "" true true [] t0 t0 None None None in
  AuthDeviations.with_tables (mkTables ∅ ∅ (mkPeople (t_accounts people) (<["c-5" := c]> (t_credentials people)) ∅ ∅ []) ∅) start.
Definition reset_sent (st : Site MemRedis) : bool :=
  bool_decide (is_Some (view (si_world (RequestReset ResetWitnesses.cfg post_office "Alice@example.org" st).2) (reset_token_key (HashToken ResetWitnesses.token)))).
Lemma capital_address_cannot_reset : reset_sent start = true ∧ reset_sent capital_alice = false.
Proof. vm_compute. by split. Qed.
(** The password is changed, the sessions are not revoked, and the answer calls it a bad request. *)
Definition opts : AccountServiceOptions MemRedis := mkOptions (Some (λ _, fail (Anon "redis: connection refused"))) None None None.
Definition by_alice : AuthRequest :=
  mkAuthRequest (mkRequest "POST" "/api/v1/auth/password" "/api/v1/auth/password" "" []) "192.0.2.7" "curl/8.5" ctx
    (ClientController.mkCaller (Some "acc-1") (Some alice_claims)) None 64 "" true "".
Lemma changed_password_answered_400 :
  let after := ChangePasswordHandler opts by_alice (Some (mkChangePassword "Correct-Horse-7" "Battery-Staple-9")) start in
  match after.1 with Ok (ClientController.Failure status _) => status | _ => 0 end = 400 ∧
  is_ok (LoginByUsernamePassword auth ctx (as_alice "Correct-Horse-7") after.2).1 = false.
Proof. vm_compute. by split. Qed.
End ControllerWitnesses.

(** ** Starting up *)
(** Keys of one size, which are what was drawn for them. *)
#[refine] Instance plain_rsa : RsaLib := {
  rsa_generate bits seed := if bits =? 3072 then Some ("A" +:+ hex_encode seed) else None;
  rsa_bits key := if has_prefix "A" key then 3072 else 0;
  pkcs8_pem key := Some ("PEM " +:+ key);
  pem_content text := match text with
    | String "P" (String "E" (String "M" (String " " key))) => RsaKey key | _ => NoBlock end;
  public_der key := Some key;
}.
Proof.
  - intros bits seed key. destruct (Z.eqb_spec bits 3072) as [->|]; [|done]. by intros [= <-].
  - by intros key text [= <-].
Defined.
#[local] Instance any_startup : StartupLibs := {
  webauthn_new rp name origin := true; mail_new_client host port := negb (bool_decide (host = "")) && (0 <? port)
}.

Module StartupSample.
Definition limits : RateLimitsConfig := mkRateLimits 5 10 10 60 30 20 10 3 3 60.
Definition web : WebServerConfig :=
  mkWebServer true false "0.0.0.0" 8080 (60 * second) (5 * second) (2 * second) (30 * second) (10 * second) (30 * second) 1048576
    ["172.22.0.0/16"] limits [] true.
Definition database : DatabaseConfig :=
  mkDatabase "postgres" {["postgres" := mkDriver "postgres" "pgx" "postgres://sso@db:5432/sso" 1]} 25 15 300 180 60.
(** The lifetime of codes, the path of the key, the age of sessions and the settings of one
    provider are open. *)
Definition auth_config_with (codes : Z) (path : string) (age ttl : Z) : AuthConfig :=
  mkAuthConfig "https://sso.example" (15 * minute) (168 * hour) ttl 5 age (5 * minute) (10 * minute) (5 * second) [] path "kid-1"
    "https://sso.example/reset" "sso.example" "SSO" "https://sso.example"
    "000102030405060708090a0b0c0d0e0f101112131415161718191a1b1c1d1e1f" "pepper" (15 * minute) 5 0 ["203.0.113.0/24"; "198.51.100.5"] 0 0 0 0 0 codes 0 0 4
    codes 0 0 (15 * minute) 0 0 0 0 false true 0 (15 * minute) "/login" true "__Host-access_token" false false.
Definition auth_config : string → Z → Z → AuthConfig := auth_config_with 0.
Definition no_provider : OAuthProviderSettings := mkProviderSettings "" "" "" [] "" "" "".
Definition config (a : AuthConfig) (github : OAuthProviderSettings) : GoUnoConfig :=
  mkConfig web database (mkRedisConfig "redis://cache:6379" 10 5 5 3 3) (mkPipeline 0 0 0 0 0 0 0 0)
    (mkSMTP "mail.example" 587 "" "" "sso@example" "mandatory" 0 30) (mkLog 0 "json") a (mkCORS ["https://app.example"] [] [] [] true 0)
    (mkProviders no_provider github no_provider) (mkObservability false false "").
Definition key_path : string := "/etc/gosso/key.pem".
Definition good : GoUnoConfig := config (auth_config key_path (168 * hour) (24 * hour)) no_provider.
Definition boot : Boot := mkBoot {[key_path := File 384 "PEM A01"]} [] [[2]; [3]]%N ["t1"].
Definition on_disk (path : string) : FileStat := IsFile.
End StartupSample.

Module StartupWitnesses.
Import StartupSample.
Lemma valid_config_starts_witness :
  Validate on_disk good = [] ∧ ∃ m, initModules (R := MemRedis) SessionSample.revoker good boot = (Ok m, boot) ∧ guarded good m ∧ within_theorems m.
Proof.
  split; [vm_compute; reflexivity|].
  destruct (valid_config_starts SessionSample.revoker on_disk good boot (mkKeyService "A01" "kid-1") boot) as (m&Hm&_&Hg&Hplain).
  - vm_compute. reflexivity.
  - vm_compute. reflexivity.
  - vm_compute. reflexivity.
  - vm_compute. reflexivity.
  - exists m. split; [exact Hm|]. split; [exact Hg|]. apply Hplain. vm_compute. reflexivity.
Defined.
(** A first start without a file, and what the next one finds. *)
Definition fresh : Boot := mkBoot ∅ [] [[2]; [3]]%N ["t1"].
Abbreviation start := (NewKeyService key_path "" false 0).
Lemma proper : proper_path key_path.
Proof. split; [intros t; discriminate|vm_compute; lia]. Qed.
Lemma key_survives_restart_witness :
  is_ok (start fresh).1 = true ∧ (start (mkBoot (bo_nodes (start fresh).2) [] [[9]]%N [])).1 = (start fresh).1.
Proof.
  split; [vm_compute; reflexivity|].
  assert (start fresh = (Ok (match (start fresh).1 with Ok k => k | Err _ => mkKeyService "" "" end), (start fresh).2)) as Hrun by (vm_compute; reflexivity).
  destruct (key_survives_restart key_path "" false 0 fresh _ (start fresh).2 proper Hrun) as [_ Hkeys].
  destruct (Hkeys _ eq_refl) as (_&_&Hagain). rewrite (Hagain (mkBoot (bo_nodes (start fresh).2) [] [[9]]%N [])); [|vm_compute; reflexivity|reflexivity].
  vm_compute. reflexivity.
Defined.
End StartupWitnesses.

Module StartupDeviations.
Import StartupSample.
(** In production without a key file every start makes a key of its own, and all of them
    have the same identifier. *)
Lemma production_key_is_lost :
  let cfg := config (auth_config "" (168 * hour) (24 * hour)) no_provider in
  let starts seed := (initModules (R := MemRedis) SessionSample.revoker cfg (mkBoot ∅ [] [seed] [])).1 in
  Validate on_disk cfg = [] ∧
  match starts [2]%N, starts [3]%N with
  | Ok m1, Ok m2 => mo_KeyService m1 = mkKeyService "A02" "kid-1" ∧ mo_KeyService m2 = mkKeyService "A03" "kid-1"
  | _, _ => False end.
Proof. vm_compute. by repeat split. Qed.
(** Settings that are accepted and do not start: a provider without https. *)
Lemma accepted_provider_stops_start :
  let github := mkProviderSettings "id" "secret" "https://sso.example/cb" [] "http://ghe.example/a" "" "" in
  let cfg := config (auth_config key_path (168 * hour) (24 * hour)) github in
  Validate on_disk cfg = [] ∧ is_ok (initModules (R := MemRedis) SessionSample.revoker cfg boot).1 = false.
Proof. vm_compute. by split. Qed.
(** The same without mail, which is taken to be optional. *)
Lemma no_mail_stops_start :
  let cfg := mkConfig web database (cf_Redis good) (cf_TaskPipeline good) (mkSMTP "" 0 "" "" "" "" 0 30) (cf_Log good) (cf_Auth good) (cf_CORS good)
    (cf_Providers good) (cf_Observability good) in
  Validate on_disk cfg = [] ∧ is_ok (initModules (R := MemRedis) SessionSample.revoker cfg boot).1 = false.
Proof. vm_compute. by split. Qed.
(** Sessions that end before their time: the default age is not compared. *)
Lemma session_ttl_beyond_default_age :
  let cfg := config (auth_config key_path 0 (30 * 24 * hour)) no_provider in
  Validate on_disk cfg = [] ∧
  match (initModules (R := MemRedis) SessionSample.revoker cfg boot).1 with
  | Ok m => sc_maxAge (am_SessionService (mo_AuthModule m)) <? sc_ttl (am_SessionService (mo_AuthModule m)) | Err _ => false end = true.
Proof. vm_compute. by split. Qed.
(** Besides addresses and secrets there are durations and a number without a default that
    must be positive. *)
Lemma defaults_are_refused :
  validateAuthDurations setConfigDefaults = Err (Anon "auth: login_rate_limit_window must be positive") ∧
  filter (λ p : string * Z, ¬ 0 < p.2) (positive_durations setConfigDefaults) =
    [("login_rate_limit_window", 0); ("mfa_account_rate_limit_window", 0)] ∧
  au_PasswordResetRevokeConcurrency (cf_Auth setConfigDefaults) = 0.
Proof. vm_compute. by repeat split. Qed.
(** A key whose state cannot be read is taken to be missing, and replaced. *)
Lemma unreadable_key_is_replaced :
  bo_nodes (NewKeyService key_path "" false 0 (mkBoot (bo_nodes boot) [true] [[2]]%N ["t1"])).2 !! key_path = Some (File 384 "PEM A02").
Proof. vm_compute. reflexivity. Qed.
(** Settings that are accepted, with codes and reset tokens that live for half a second: the
    scripts that renew a lifetime in whole seconds are given none. *)
Lemma accepted_lifetimes_truncate_to_zero :
  let cfg := config (auth_config_with (500 * millisecond) key_path (168 * hour) (24 * hour)) no_provider in
  Validate on_disk cfg = [] ∧
  match (initModules (R := MemRedis) SessionSample.revoker cfg boot).1 with
  | Ok m => trunc_secs (vc_codeTTL (am_VerificationService (mo_AuthModule m))) = 0 ∧
            trunc_secs (pc_tokenTTL (am_PasswordResetService (mo_AuthModule m))) = 0
  | Err _ => False end.
Proof. vm_compute. by repeat split. Qed.
End StartupDeviations.

(** ** Requests to the server *)
Module RouterSample.
Import StartupSample.
#[export, refine] Instance plain_csrf : GounoCSRF MemRedis := {
  CSRFMatches a b := bool_decide (a = b);
  GenerateCSRFToken := ret "token";
  EnsureCSRFCookie present := ret (match present with Some _ => None | None => Some "token" end);
}.
Proof. by intros a b ?%bool_decide_eq_true. Defined.
Definition foreign (inc : Incoming) : bool := negb (bool_decide (in_origin inc ∈ [""; "https://app.example"])).
Definition find_route (routes : list Route) (method path : string) : found :=
  match List.find (λ r, bool_decide (ro_method r = method) && path_matches (full_path r) path) routes with Some r => Found r | None => NotFound end.
#[export, refine] Instance plain_gin : GinLibs MemRedis := {
  SetTrustedProxies _ := true;
  cors_new _ := true;
  cors_verdict _ inc := if foreign inc then Some 403 else None;
  GenerateCSPNonce := ret "nonce";
  gin_find := find_route;
}.
Proof.
  - intros routes method path r. unfold find_route. destruct (List.find _ routes) as [r'|] eqn:Hf; [|done]. intros [= ->].
    apply find_some in Hf as [Hin [Hm%bool_decide_eq_true Hp]%andb_true_iff]. split_and!; [by apply list_elem_of_In|done..].
  - apply touches_ret.
  - apply touches_ret.
  - intros present. apply touches_ret.
Defined.
(** An administrator with the session [s-a]. *)
Definition admin_claims : AccessTokenClaims :=
  Claims "https://sso.example" "acc-1" ["api"; "web"] (Some ((1750000000 + 900) * second)) None
    (Some (1750000000 * second)) "5f0c1c9e-9d0f-4f0e-8f5e-0d7c4f1f6b3a" "acc-1" "alice"
    "alice@example.org" ["user"; "admin"] ["admin:users:read"] "openid admin" "web" "s-a".
#[export] Instance admin_jwt : JwtLib := one_jwt admin_claims.
Definition engine : Engine := match setupEngine good true with Ok e => e | Err _ => mkEngine [] [] end.
Definition request (method path authorization : string) : Incoming :=
  mkIncoming (mkWeb (mkRequest method path path authorization []) "" "" []) "192.0.2.7" "" "req-1" "curl/8.5".
Abbreviation serve := (ServeHTTP Sample.cfg SessionSample.cfg (Some SessionSample.revoker) engine).
Definition reached (inc : Incoming) : option (Controller * string * GinContext) :=
  match (serve inc SessionSample.one).1 with Ok (Reached c n cx) => Some (c, n, cx) | _ => None end.
Definition context (inc : Incoming) : GinContext := match reached inc with Some (_, _, cx) => cx | None => empty_context end.
End RouterSample.

Module RouterWitnesses.
Import StartupSample RouterSample.
Definition list_accounts : Incoming := request "GET" "/api/v1/admin/accounts" "Bearer header.claims.signature".
Definition foreign_login : Incoming := request "POST" "/api/v1/auth/login" "".
Lemma engine_starts : setupEngine good true = Ok engine.
Proof. vm_compute. reflexivity. Qed.
Lemma protected_endpoints_sound_witness :
  ∃ claims, gc_account (context list_accounts) = Some (cl_AccountID claims) ∧ "admin" ∈ cl_Roles claims ∧
    bearer_accepted Sample.cfg SessionSample.cfg SessionSample.one (wr_request (in_web list_accounts)) (jwt_options (cf_Auth good)) claims.
Proof.
  destruct (protected_endpoints_sound Sample.cfg SessionSample.cfg (Some SessionSample.revoker) good true engine list_accounts SessionSample.one
    AdminCtrl "ListAccounts" (context list_accounts) (serve list_accounts SessionSample.one).2) as (claims&_&Ha&Hacc&Hadmin).
  - vm_compute. reflexivity.
  - vm_compute. reflexivity.
  - apply run_ok. vm_compute. reflexivity.
  - vm_compute. reflexivity.
  - exists claims. split; [exact Ha|]. split; [apply (Hadmin eq_refl)|exact Hacc].
Defined.
Lemma limited_endpoints_counted_witness :
  ∃ s1 headers, (RedisRateLimitMiddleware "admin" "192.0.2.7" 30 minute false (sv_world (R := MemRedis) s1)).1 = Ok (Pass (Some headers)).
Proof.
  destruct (limited_endpoints_counted Sample.cfg SessionSample.cfg (Some SessionSample.revoker) good true engine list_accounts SessionSample.one
    AdminCtrl "ListAccounts" (context list_accounts) (serve list_accounts SessionSample.one).2 "admin" 30) as (hs&s1&headers&_&_&Hpass).
  - vm_compute. reflexivity.
  - apply run_ok. vm_compute. reflexivity.
  - vm_compute. reflexivity.
  - exists s1, headers. exact Hpass.
Defined.
Definition foreign_link : Incoming := request "GET" "/.well-known/jwks.json" "".
(** A form sent to the login, and a link to a page for GET. *)
Lemma forged_request_is_confined_witness :
  (gc_account (context foreign_login) = None ∧ (AuthCtrl, "Login") ∈ csrf_free) ∧ (OIDCCtrl, "JWKS") ∈ get_endpoints.
Proof.
  assert (∀ cookie : string, None = Some cookie → cookie = "" ∨ "" ≠ cookie) as Hno by by intros cookie [=].
  split.
  - destruct (forged_request_is_confined Sample.cfg SessionSample.cfg (Some SessionSample.revoker) good true engine foreign_login SessionSample.one
      AuthCtrl "Login" (context foreign_login) (serve foreign_login SessionSample.one).2) as (Ha&_&[Hc|Hc]).
    + vm_compute. reflexivity.
    + by split_and!.
    + apply run_ok. vm_compute. reflexivity.
    + reflexivity.
    + discriminate Hc.
    + by split.
  - destruct (forged_request_is_confined Sample.cfg SessionSample.cfg (Some SessionSample.revoker) good true engine foreign_link SessionSample.one
      OIDCCtrl "JWKS" (context foreign_link) (serve foreign_link SessionSample.one).2) as [Hc|Hc].
    + vm_compute. reflexivity.
    + by split_and!.
    + apply run_ok. vm_compute. reflexivity.
    + discriminate Hc.
    + exact Hc.
Defined.
End RouterWitnesses.

Module RouterDeviations.
Import StartupSample RouterSample.
Definition answer (inc : Incoming) : option outcome := match (serve inc SessionSample.one).1 with Ok o => Some o | Err _ => None end.
(** A client that authenticates with its secret and has no cookies can get a token and ask
    about it, but not revoke it. *)
Lemma client_cannot_revoke :
  is_Some (reached (request "POST" "/oauth2/token" "Basic d2ViOnNlY3JldA==")) ∧
  is_Some (reached (request "POST" "/oauth2/introspect" "Basic d2ViOnNlY3JldA==")) ∧
  answer (request "POST" "/oauth2/revoke" "Basic d2ViOnNlY3JldA==") = Some (Answered 403).
Proof. vm_compute. split_and!; [by eexists..|reflexivity]. Qed.
(** One that keeps its refresh token itself can log in, but not refresh. *)
Lemma native_client_cannot_refresh :
  is_Some (reached (request "POST" "/api/v1/auth/login" "")) ∧ answer (request "POST" "/api/v1/auth/refresh" "") = Some (Answered 403).
Proof. vm_compute. split; [by eexists|reflexivity]. Qed.
(** A relying party can send nobody to the page that ends the session: a link finds no
    page, and a form has no CSRF token. *)
Lemma relying_party_cannot_log_out :
  (∀ origin, origin ∈ [""; "https://app.example"; "https://rp.example"] →
     answer (mkIncoming (mkWeb (mkRequest "POST" "/oidc/logout" "/oidc/logout" "" [("__Host-access_token", "header.claims.signature")]) "" "" [])
       "192.0.2.7" origin "" "Firefox") = Some (Answered 403)) ∧
  (λ p, p.1) <$> reached (request "GET" "/oidc/logout" "") = Some (Pages, "NoRoute").
Proof.
  split; [|vm_compute; reflexivity]. intros origin. rewrite !elem_of_cons, elem_of_nil.
  intros [->|[->|[->|[]]]]; vm_compute; reflexivity.
Qed.
(** The redirect of [/api] to [/api/v1] is never reached. *)
Lemma api_redirect_is_dead : (λ p, p.1) <$> reached (request "GET" "/api/auth/session" "") = Some (Pages, "NoRoute").
Proof. vm_compute. reflexivity. Qed.
End RouterDeviations.
