(* ===== verification/EndpointExamples.v ===== *)
(** * Sample requests through the middleware and to the endpoints, and what these do in awkward moments *)
From S2P Require Import Prelude GoTime Json LuaPattern Hash Url Redis World Cache Footprint TokenDomain Blacklist TokenService TokenIndex TokenInv TokenProps AccessProps TokenExamples Session SessionService SessionSpecs SessionProps OAuthDomain AuthCode DeviceCode ServiceFootprints SessionExamples DeviceProps GoStrings AccountDomain Credential Database ClientRepo ClientService ClientProps ClientController AccountRepo Site StateFootprints AccountService Wiring ConsentService ClientExamples AuthMiddleware HttpMiddleware OidcService OidcController OidcProps OAuthController TokenEndpoint AuthorizeEndpoint TokenEndpointProps AuthorizeProps TokenEndpointClaims RateProps.
Local Open Scope Z_scope.

(** ** Sample requests to the token, revocation, introspection and OpenID Connect endpoints *)
(** A signing library for one set of ID token claims. *)
#[export] Instance id_claims_eq : EqDecision IDTokenClaims.
Proof. solve_decision. Defined.
#[refine] Instance one_id_jwt `{JwtLib} (c0 : IDTokenClaims) : IdJwt := {
  id_sign kid priv c := if bool_decide (c = c0) then Ok "id.claims.signature" else Err (Anon "sign");
  id_parse key tok := if bool_decide (tok = "id.claims.signature") then Some c0 else None;
  id_kid tok := if bool_decide (tok = "id.claims.signature") then Some "kid-1" else None;
}.
Proof. intros kid priv c tok. destruct (bool_decide_reflect (c = c0)) as [->|]; [|done]. intros [= <-]. by eval_tests. Defined.

Module EndpointSample.
Definition t0 : Z := 1750000000 * second.
Definition alice : Account := mkAccount "acc-1" (Some "alice") "Alice" None "active" "en" "UTC" [] t0 t0 None.
Definition uri : string := "https://app.example/cb".
Definition web : OAuth2Client :=
  mkClient "row-1" "acc-9" "web" "$2a$10$s3cret" "Web" "" [uri] [uri]
    ["authorization_code"; "refresh_token"; "client_credentials"; "urn:ietf:params:oauth:grant-type:device_code"]
    ["openid"; "profile"] true None "" false "https://app.example/bye" true t0 t0 None.
Definition other : OAuth2Client :=
  mkClient "row-2" "acc-9" "other" "$2a$10$0ther" "Other" "" [uri] [] ["refresh_token"] ["openid"] true None "" false "" false t0 t0 None.
Definition mail : Credential :=
  mkCredential "cred-1" "acc-1" "email" (Some "alice@example.org") "" true true [] t0 t0 None None None.
Definition consent : Consent := mkConsent "con-1" "acc-1" "row-1" ["openid"] t0 t0 t0 None.
Definition tables : Tables :=
  mkTables {[ "row-1" := web; "row-2" := other ]} {[ "con-1" := consent ]}
    (mkPeople {["acc-1" := alice; "acc-9" := alice]} {["cred-1" := mail]} ∅ ∅ []) ∅.
Definition site (w : World MemRedis) : Site MemRedis :=
  mkSite (set_world w SessionSample.init) (mkDB tables tables [] [] []) (newAccountValidatorAdapter t0).
Definition world : World MemRedis :=
  mkWorld ∅ t0 [] [[1; 2; 3]; [4; 5; 6]; [7; 8; 9]]%N ["u-1"; "u-2"; "u-3"] [].
Definition settings : OAuthSettings := mkSettings 0 0 true false false.
Definition tcfg : TokenCfg := Sample.cfg.
Definition dcfg : DeviceCfg := mkDeviceCfg (10 * minute) (5 * second).

Definition http : HttpRequest :=
  mkHttp (mkRequest "POST" "/oauth2/token" "/oauth2/token" "" []) 120 FormMediaType FormMediaType (Some ("web", "s3cret")) "" true
    (mkCtx "192.0.2.7" "curl/8.5").
Definition http_as (credentials : option (string * string)) : HttpRequest :=
  mkHttp (hr_Request http) 120 FormMediaType FormMediaType credentials "" true (hr_Ctx http).
(** The verifier and challenge of RFC 7636, appendix B. *)
Definition verifier : string := "dBjftJeZ4CVP-mB92K27uhbUJU1p1r_wW1gFWFOEjXk".
Definition challenge : string := "E9Melhoa2OwvFrEMTJguCHaoeK1t8URWbuGJSstw-cM".
Definition issued_code : World MemRedis :=
  (GenerateCode (10 * minute) "web" "acc-1" uri ["profile"] challenge "S256" "" "sess-1" world).2.
Definition code : string := hex_encode (rand_block authCodeLength [1; 2; 3]%N).
Definition exchange : TokenRequest := mkTokenRequest "authorization_code" code uri "" "" verifier "" "" "".
Definition start : Site MemRedis := site issued_code.

(** What the access token of a request says. *)
Definition says (account scope session : string) : AccessTokenClaims :=
  Claims "https://sso.example" account ["web"] (Some (t0 + 15 * minute)) None (Some t0) "u-1" account "" "" [] [] scope "web" session.
Definition refresh (t scope : string) : TokenRequest := mkTokenRequest "refresh_token" "" "" "" "" "" t scope "".
Definition with_token : Site MemRedis := site Sample.one_token.
Definition machine : TokenRequest := mkTokenRequest "client_credentials" "" "" "" "" "" "" "profile admin" "".
End EndpointSample.
Import EndpointSample.
#[local] Instance sample_lua : LuaOS := { has_os_date := true }.

Module CodeGrantWitnesses.
#[local] Instance jwt : JwtLib := one_jwt (says "acc-1" "profile" "sess-1").
#[local] Instance idjwt : IdJwt := one_id_jwt (base_claims "" 0 0 "" "" "" "" 0 []).
Definition ctrl : OAuth2Controller MemRedis := oauth2Ctrl tcfg settings.
Definition granted : answer :=
  Tokens (mkTokens "header.claims.signature" "Bearer" 900 "profile" (Some (hex_encode (rand_block refreshTokenLength [4; 5; 6]%N))) None).
Definition after : Site MemRedis := (Token tcfg dcfg ctrl http (Some exchange) start).2.
Lemma code_granted : Token tcfg dcfg ctrl http (Some exchange) start = (Ok granted, after).
Proof. unfold after. apply run_ok. vm_compute. reflexivity. Qed.

Lemma code_grant_sound_witness :
  ∃ client ac d roles permissions,
    code_grant tcfg ctrl (effective http exchange) start after "header.claims.signature" "profile" client ac d roles permissions.
Proof.
  apply (code_grant_sound tcfg dcfg ctrl http exchange start granted after "header.claims.signature");
    [apply code_granted|reflexivity|reflexivity].
Defined.
(** A minute later the same request is refused. *)
Definition later : Site MemRedis := put_world (tick minute (si_world after)) after.
Definition again : answer := invalid_grant "invalid or expired authorization code".
Lemma code_grants_once_witness : token_of again = None.
Proof.
  apply (code_grants_once tcfg dcfg ctrl http exchange start granted after "header.claims.signature" http exchange later
    code_granted eq_refl eq_refl) with (s3 := (Token tcfg dcfg ctrl http (Some exchange) later).2).
  - vm_compute. reflexivity.
  - reflexivity.
  - reflexivity.
  - apply run_ok. vm_compute. reflexivity.
Defined.
End CodeGrantWitnesses.

Module RefreshGrantWitnesses.
#[local] Instance jwt : JwtLib := one_jwt (says "acc-1" "openid" "sess-1").
#[local] Instance idjwt : IdJwt := one_id_jwt (base_claims "" 0 0 "" "" "" "" 0 []).
Definition ctrl : OAuth2Controller MemRedis := oauth2Ctrl tcfg settings.
Definition world2 : World MemRedis := mkWorld (w_redis Sample.one_token) t0 [] [[4; 5; 6]; [7; 8; 9]]%N ["u-1"] [].
Definition before : Site MemRedis := site world2.
Definition req : TokenRequest := refresh Sample.token "openid".
Definition after : Site MemRedis := (Token tcfg dcfg ctrl http (Some req) before).2.
Definition granted : answer :=
  Tokens (mkTokens "header.claims.signature" "Bearer" 900 "openid" (Some (hex_encode (rand_block refreshTokenLength [4; 5; 6]%N))) None).
Lemma token_inv : Inv tcfg Sample.one_token.
Proof.
  apply (reachable_Inv tcfg eq_refl Sample.start); [apply Witnesses.start_empty|].
  eapply rtc_once, step_generate; vm_compute; reflexivity.
Qed.
Lemma before_inv : Inv tcfg (si_world before).
Proof. exact token_inv. Qed.
Lemma before_rotatable : rotatable tcfg (si_world before) Sample.token [4; 5; 6]%N Sample.old.
Proof.
  unfold rotatable. split; [done|]. split; [apply before_inv|].
  split_and!; [vm_compute; discriminate..| |done|].
  - eexists. reflexivity.
  - do 2 eexists. split; [vm_compute; reflexivity|]. vm_compute. reflexivity.
Qed.
Lemma refresh_grant_sound_witness :
  ∃ client roles permissions,
    refresh_grant tcfg ctrl (effective http req) Sample.old before after "header.claims.signature" "openid" client roles permissions.
Proof.
  apply (refresh_grant_sound tcfg dcfg ctrl http req [4; 5; 6]%N Sample.old before granted after "header.claims.signature").
  - reflexivity.
  - apply before_rotatable.
  - vm_compute. discriminate.
  - unfold after. apply run_ok. vm_compute. reflexivity.
  - reflexivity.
  - reflexivity.
Defined.

(** Revoking the same token, by its client and by another. *)
Definition revoke : RevokeRequest := mkRevokeRequest Sample.token "" "" "".
Lemma revocation_takes_effect_witness :
  ∃ s', Revoke tcfg http (Some revoke) before = (Ok (StatusOnly 200), s') ∧
    view (si_world s') (buildRefreshTokenKey Sample.token) = None.
Proof.
  destruct (revocation_takes_effect tcfg http revoke before Sample.old) as (s'&Hrun&Hgone&_).
  - reflexivity.
  - apply before_inv.
  - vm_compute. reflexivity.
  - discriminate.
  - reflexivity.
  - discriminate.
  - right. split; [reflexivity|]. exists web. split; vm_compute; reflexivity.
  - exists s'. split; [exact Hrun|exact Hgone].
Defined.
Definition stranger : HttpRequest := http_as (Some ("other", "0ther")).
Definition document : string :=
  match view (si_world before) (buildRefreshTokenKey Sample.token) with Some (Entry (RStr d) _) => d | _ => "" end.
Lemma revocation_is_client_bound_witness :
  view (si_world (Revoke tcfg stranger (Some revoke) before).2) (buildRefreshTokenKey Sample.token)
    = Some (Entry (RStr document) (Some 1750086400000)).
Proof.
  destruct (revocation_is_client_bound tcfg stranger revoke before (StatusOnly 200) (Revoke tcfg stranger (Some revoke) before).2)
    as (_&Hkept&_).
  - apply run_ok. vm_compute. reflexivity.
  - discriminate.
  - refine (Hkept document _ Sample.old _ _ _).
    + vm_compute. reflexivity.
    + vm_compute. reflexivity.
    + discriminate.
Defined.
End RefreshGrantWitnesses.

Module MachineWitnesses.
#[local] Instance jwt : JwtLib := one_jwt (says "acc-9" "profile" "").
#[local] Instance idjwt : IdJwt := one_id_jwt (base_claims "" 0 0 "" "" "" "" 0 []).
Definition ctrl : OAuth2Controller MemRedis := oauth2Ctrl tcfg settings.
Definition granted : answer := Tokens (mkTokens "header.claims.signature" "Bearer" 900 "profile" None None).
Definition start : Site MemRedis := site world.
Definition after : Site MemRedis := (Token tcfg dcfg ctrl http (Some machine) start).2.
Lemma machine_granted : Token tcfg dcfg ctrl http (Some machine) start = (Ok granted, after).
Proof. unfold after. apply run_ok. vm_compute. reflexivity. Qed.
Lemma client_credentials_sound_witness :
  ∃ client scopes, credentials_grant tcfg ctrl (effective http machine) start "header.claims.signature" "profile" client scopes.
Proof.
  apply (client_credentials_sound tcfg dcfg ctrl http machine start granted after "header.claims.signature");
    [apply machine_granted|reflexivity|reflexivity].
Defined.
(** The client asks what its token says. *)
Definition told : list (string * json) := introspection_result (says "acc-9" "profile" "").
Lemma introspection_shows_own_tokens_witness :
  ∃ cl, access_accepted tcfg (si_world after) "header.claims.signature" cl ∧ cl_ClientID cl = "web".
Proof.
  destruct (introspection_shows_own_tokens tcfg http (Some "header.claims.signature") "" "" after told
    (Introspect tcfg http (Some "header.claims.signature") "" "" after).2) as (tok&client&cl&[= <-]&_&_&_&Hacc&Hcl&_).
  - apply run_ok. vm_compute. reflexivity.
  - reflexivity.
  - exists cl. split; [exact Hacc|exact Hcl].
Defined.
End MachineWitnesses.

Module DeviceGrantWitnesses.
#[local] Instance jwt : JwtLib := one_jwt (says "acc-1" "profile" "").
#[local] Instance idjwt : IdJwt := one_id_jwt (base_claims "" 0 0 "" "" "" "" 0 []).
Definition ctrl : OAuth2Controller MemRedis := oauth2Ctrl tcfg settings.
Definition device_world : World MemRedis :=
  mkWorld ∅ t0 [] ([[1; 2; 3]] ++ replicate 8 [4] ++ [[7; 8; 9]])%N ["u-1"] [].
Definition device_secret : string := hex_encode (rand_block deviceCodeLength [1; 2; 3]%N).
Definition approved : World MemRedis :=
  (AuthorizeDeviceCodeByHash (HashToken device_secret) "acc-1" (CreateDeviceCode dcfg "web" ["profile"] device_world).2).2.
Definition start : Site MemRedis := site approved.
Definition req : TokenRequest := mkTokenRequest GrantTypeDeviceCode "" "" "" "" "" "" "" device_secret.
Definition granted : answer :=
  Tokens (mkTokens "header.claims.signature" "Bearer" 900 "profile" (Some (hex_encode (rand_block refreshTokenLength [7; 8; 9]%N))) None).
Definition after : Site MemRedis := (Token tcfg dcfg ctrl http (Some req) start).2.
Lemma device_granted : Token tcfg dcfg ctrl http (Some req) start = (Ok granted, after).
Proof. unfold after. apply run_ok. vm_compute. reflexivity. Qed.
Definition document : string :=
  match view (si_world start) (deviceCodeKey (HashToken device_secret)) with Some (Entry (RStr d) _) => d | _ => "" end.
Definition members : list (string * json) := match jparse document with Some (JObj l) => l | _ => [] end.
Lemma start_authorized : in_state (view (si_world start) (deviceCodeKey (HashToken device_secret))) (Authorized "web" "acc-1").
Proof.
  assert (view (si_world start) (deviceCodeKey (HashToken device_secret)) = Some (Entry (RStr document) (Some 1750000600000))) as ->
    by (vm_compute; reflexivity).
  exists members. split_and!; [vm_compute; reflexivity|split; vm_compute; reflexivity|vm_compute; reflexivity].
Qed.
Definition later : Site MemRedis := put_world (put_net [] (tick minute (si_world after))) after.
Definition refused : answer := invalid_grant "device code already consumed".
Lemma device_grant_sound_witness :
  (∃ client account roles permissions, Authorized "web" "acc-1" = Authorized "web" account ∧
     device_grant tcfg ctrl (effective http req) start after "header.claims.signature" "profile" client account roles permissions) ∧
  token_of refused = None.
Proof.
  destruct (device_grant_sound tcfg dcfg ctrl http req (Authorized "web" "acc-1") start granted after "header.claims.signature"
    http req later refused (Token tcfg dcfg ctrl http (Some req) later).2) as [Hg Honce].
  - apply start_authorized.
  - apply device_granted.
  - reflexivity.
  - reflexivity.
  - split; [exact Hg|]. apply Honce; [|reflexivity|reflexivity|].
    + apply rtc_once. apply (ds_wait dcfg device_secret (si_world after) [] minute). vm_compute. discriminate.
    + apply run_ok. vm_compute. reflexivity.
Defined.
End DeviceGrantWitnesses.

(** ** OpenID Connect *)
Module OidcWitnesses.
#[local] Instance jwt : JwtLib := one_jwt (says "acc-1" "openid" "s-a").
Definition id_claims : IDTokenClaims :=
  mkIDClaims "https://sso.example" "acc-1" ["web"] (t0 + 10 * minute) t0 "u-1" "web" "" "" "" "alice@example.org" (Some true) "" None ""
    "n-0S6" (Some 1750000000) ["pwd"] (at_hash "header.claims.signature").
#[local] Instance idjwt : IdJwt := one_id_jwt id_claims.
Definition start : Site MemRedis := site world.
Definition generate : M (Site MemRedis) string :=
  GenerateIDToken tcfg "https://sso.example" (id_expiry 0) "acc-1" "web" ["openid"; "email"] "n-0S6" t0 "header.claims.signature" ["pwd"].
Lemma id_token_sound_witness : ∃ c, id_parse (jwt_public (tc_privateKey tcfg)) "id.claims.signature" = Some c ∧ id_Subject c = "acc-1".
Proof.
  destruct (id_token_sound tcfg "https://sso.example" (id_expiry 0) "acc-1" "web" ["openid"; "email"] "n-0S6" t0
    "header.claims.signature" ["pwd"] start "id.claims.signature" (generate start).2) as (c&id&Hp&Hcore&_).
  - apply run_ok. vm_compute. reflexivity.
  - exists c. split; [exact Hp|]. by injection Hcore.
Defined.
Definition info : list (string * json) :=
  [("sub", JStr "acc-1"); ("email", JStr "alice@example.org"); ("email_verified", JBool true)].
Lemma userinfo_respects_scopes_witness : ∃ creds, info_ok "acc-1" creds ["openid"; "email"] info.
Proof.
  destruct (userinfo_respects_scopes "acc-1" ["openid"; "email"] start info (GetUserInfo "acc-1" ["openid"; "email"] start).2)
    as (a&creds&_&_&_&Hi).
  - apply run_ok. vm_compute. reflexivity.
  - exists creds. exact Hi.
Defined.
Lemma published_keys_are_current_witness :
  published (Reload (NewJWKSService "kid-1" "public key")) = [("kid-1", "public key"); ("kid-1", "public key")] ∧
  Forall (λ k, k = ("kid-1", "public key")) (published (Reload (NewJWKSService "kid-1" "public key"))).
Proof.
  split; [reflexivity|].
  apply (published_keys_are_current "kid-1" "public key" (Reload (NewJWKSService "kid-1" "public key"))).
  apply rtc_once. constructor.
Defined.

(** Alice has the session [s-a]; the party [web] is told when she logs out. *)
Definition signed_in : Site MemRedis := mkSite SessionSample.one (si_db start) (si_active start).
Abbreviation revoker := (Some SessionSample.revoker).
Definition ctx : Ctx := mkCtx "192.0.2.7" "curl/8.5".
Definition bye : Notification :=
  mkNotification "web" "https://app.example/bye" (mkLogoutClaims "https://sso.example" "acc-1" ["web"] t0 (t0 + 5 * minute) "").
Definition logged_out : Site MemRedis := (LogoutByAccountID tcfg "https://sso.example" revoker ctx "acc-1" signed_in).2.
Lemma logout_ends_account_sessions_witness :
  view (si_world logged_out) (buildSessionKey "s-a") = None ∧ Forall (told_rightly "https://sso.example" "acc-1" "") [bye].
Proof.
  destruct (logout_ends_account_sessions tcfg "https://sso.example" SessionSample.revoker ctx "acc-1" signed_in [bye] logged_out {["s-a"]})
    as (_&Hgone&Htold).
  - vm_compute. reflexivity.
  - unfold logged_out. apply run_ok. vm_compute. reflexivity.
  - split; [apply Hgone; set_solver|exact Htold].
Defined.
Definition jwks : Jwks := NewJWKSService (tc_keyID tcfg) "public key".
Definition leave : logoutRequest := mkLogoutRequest "id.claims.signature" "web" "https://app.example/cb" "xyz".
Definition anonymous : Request := mkRequest "POST" "/oidc/logout" "/oidc/logout" "" [].
Abbreviation logout := (Logout tcfg SessionSample.cfg "https://sso.example" jwks revoker ctx anonymous (Some leave) signed_in).
Lemma logout_is_authenticated_witness :
  identified tcfg SessionSample.cfg "https://sso.example" jwks signed_in anonymous leave ∧
  ValidatePostLogoutRedirectURI (Some web) "https://app.example/cb" = true.
Proof.
  destruct (logout_is_authenticated tcfg SessionSample.cfg "https://sso.example" jwks revoker ctx anonymous leave signed_in
    (OidcRedirect "https://app.example/cb" (Some "xyz")) [bye] logout.2) as [Hid _].
  - reflexivity.
  - apply run_ok. vm_compute. reflexivity.
  - split; [|vm_compute; reflexivity]. apply Hid. left. discriminate.
Defined.
End OidcWitnesses.

(** ** Sample requests through the authentication middleware *)
Module MiddlewareSample.
(** An administrator with the session [s-a]. *)
Definition admin_claims : AccessTokenClaims :=
  Claims "https://sso.example" "acc-1" ["api"; "web"] (Some ((1750000000 + 900) * second)) None
    (Some (1750000000 * second)) "5f0c1c9e-9d0f-4f0e-8f5e-0d7c4f1f6b3a" "acc-1" "alice"
    "alice@example.org" ["user"; "admin"] ["clients:write"] "openid admin" "web" "s-a".
#[export] Instance admin_jwt : JwtLib := one_jwt admin_claims.
Definition request (authorization : string) (cookies : list (string * string)) : Request :=
  mkRequest "GET" "/api/v1/admin/clients" "/api/v1/admin/clients" authorization cookies.
Definition with_header : Request := request "bearer header.claims.signature" [].
Definition with_cookie : Request := request "Basic YTpi" [("__Host-access_token", "header.claims.signature")].
Definition cfg : AuthConfigOptions := mkAuthCfg "/login" true "__Host-access_token".
Definition one : Sess MemRedis := SessionSample.one.
Definition revoked : Sess MemRedis := (RevokeSession (Some SessionSample.revoker) "acc-1" "s-a" one).2.
End MiddlewareSample.

Module MiddlewareWitnesses.
Import MiddlewareSample.
Abbreviation auth := (JWTAuthMiddlewareWithConfig Sample.cfg SessionSample.cfg (Some SessionSample.revoker)).
Abbreviation chain := (admin_chain Sample.cfg SessionSample.cfg (Some SessionSample.revoker)).

Lemma jwt_auth_sound_witness :
  bearer_accepted Sample.cfg SessionSample.cfg one with_header cfg admin_claims.
Proof.
  destruct (jwt_auth_sound Sample.cfg SessionSample.cfg (Some SessionSample.revoker) cfg with_header one
    "acc-1" admin_claims (auth cfg with_header one).2) as [_ Hacc]; [done| |exact Hacc].
  apply run_ok. vm_compute. reflexivity.
Defined.

Lemma admin_chain_sound_witness :
  "admin" ∈ cl_Roles admin_claims ∧ ("clients:write" ∈ cl_Permissions admin_claims ∨ "admin:*" ∈ cl_Permissions admin_claims).
Proof.
  destruct (admin_chain_sound Sample.cfg SessionSample.cfg (Some SessionSample.revoker) "clients:write" with_cookie one
    "acc-1" admin_claims (chain "clients:write" with_cookie one).2) as (_&_&Hrole&_&Hperm); [done| |split; [exact Hrole|exact Hperm]].
  apply run_ok. vm_compute. reflexivity.
Defined.

Lemma revoked_session_is_shut_out_witness :
  (auth cfg with_header revoked).1 = Ok (Reject 401 "unauthorized") ∧
  ∀ account c, (auth cfg with_header revoked).1 = Ok (Next account c) → cl_SessionID c ≠ "s-a".
Proof.
  split; [vm_compute; reflexivity|].
  refine (revoked_session_is_shut_out Sample.cfg SessionSample.cfg (Some SessionSample.revoker) SessionSample.revoker
    cfg with_header "acc-1" "s-a" one revoked revoked _ (auth cfg with_header revoked).2 eq_refl _ _ eq_refl _).
  - discriminate.
  - unfold revoked. apply run_ok. vm_compute. reflexivity.
  - apply surjective_pairing.
Defined.
End MiddlewareWitnesses.

(** ** Sample requests to the authorization endpoint and the device pages *)

Module AuthorizeWitnesses.
Definition claims : AccessTokenClaims := says "acc-1" "openid" "s-a".
#[local] Instance jwt : JwtLib := one_jwt claims.
#[local] Instance idjwt : IdJwt := one_id_jwt (base_claims "" 0 0 "" "" "" "" 0 []).
Definition ctrl : OAuth2Controller MemRedis := oauth2Ctrl tcfg settings.
Definition who : Caller := mkCaller (Some "acc-1") (Some claims).
Definition fuelled (w : World MemRedis) : World MemRedis :=
  mkWorld (w_redis w) (w_now w) [] (replicate 12 [1; 2; 3])%N ["page-1"; "con-2"] [].
(** Alice is signed in with the session [s-a]; she consented to [openid] for [web]. *)
Definition signed_in : Site MemRedis :=
  let s := site world in mkSite (set_world (fuelled (sv_world SessionSample.one)) SessionSample.one) (si_db s) (si_active s).
Definition query (scope : string) : AuthorizeQuery :=
  mkAuthorizeQuery "web" uri "code" scope "xyz" challenge "S256" "n-0S6" "".
Definition tr : option (TokenRevoker MemRedis) := Some SessionSample.revoker.
Abbreviation authorize := (Authorize (10 * minute) ctrl who).
Definition code : string := hex_encode (rand_block authCodeLength [1; 2; 3]%N).
Definition sent : answer := RedirectTo uri [("code", code); ("state", "xyz"); ("iss", "https://sso.example")].
Lemma authorize_sound_witness :
  ∃ consent scopes accountID, stored_consent (view (si_world signed_in)) (si_db signed_in) accountID "web" consent ∧ scopes ≠ [] ∧ ∀ x, x ∈ scopes → x ∈ splitScope "openid profile" ∧ x ∈ co_Scopes consent.
Proof.
  destruct (authorize_sound (10 * minute) ctrl who (query "openid+profile") signed_in uri
    [("code", code); ("state", "xyz"); ("iss", "https://sso.example")] code (authorize (query "openid+profile") signed_in).2)
    as (client&consent&acc&scopes&Ha&Hsc).
  - reflexivity.
  - apply run_ok. vm_compute. reflexivity.
  - reflexivity.
  - exists consent, scopes, acc. split; [apply (au_consent _ _ _ _ _ _ _ _ _ _ _ _ Ha)|]. split; [apply (au_some _ _ _ _ _ _ _ _ _ _ _ _ Ha)|exact Hsc].
Defined.

(** For [profile] she is asked first. *)
Definition asked : Site MemRedis := (authorize (query "profile") signed_in).2.
Definition page : ConsentPage := mkConsentPage "Web" "web" ["profile"] "page-1".
Definition later : Site MemRedis := put_world (put_net [] (tick minute (si_world asked))) asked.
Definition form : ConsentRequest := mkConsentRequest "web" uri "profile" "xyz" "True" challenge "S256" "n-0S6" "page-1".
Definition post : HttpRequest :=
  mkHttp (mkRequest "POST" "/oauth2/authorize" "/oauth2/authorize" "Bearer header.claims.signature" []) 120 FormMediaType FormMediaType
    None "" true (mkCtx "192.0.2.7" "curl/8.5").
Abbreviation submit := (SubmitConsent tcfg SessionSample.cfg (10 * minute) tr ctrl who post (Some form)).
Definition answered : Site MemRedis := (submit later).2.
Lemma answered_with : submit later = (Ok (RedirectTo uri [("code", code); ("state", "xyz"); ("iss", "https://sso.example")]), answered).
Proof. unfold answered. apply run_ok. vm_compute. reflexivity. Qed.
Definition again : answer := invalid_request "invalid or expired consent session".
Lemma consent_submission_sound_witness :
  (∃ client cl scopes, approved tcfg SessionSample.cfg (10 * minute) ctrl who post form later answered uri code client cl scopes) ∧
  code_of again = None.
Proof.
  destruct (consent_submission_sound tcfg SessionSample.cfg (10 * minute) tr ctrl who post form later uri
    [("code", code); ("state", "xyz"); ("iss", "https://sso.example")] code answered) as [Ha Honce].
  - reflexivity.
  - reflexivity.
  - unfold answered. apply run_ok. vm_compute. reflexivity.
  - reflexivity.
  - split; [exact Ha|]. apply (Honce who post form answered again (submit answered).2 eq_refl eq_refl).
    apply run_ok. vm_compute. reflexivity.
Defined.

(** ** A device *)
Definition device_secret : string := hex_encode (rand_block deviceCodeLength [1; 2; 3]%N).
Definition started : Site MemRedis := put_world (CreateDeviceCode dcfg "web" ["profile"] (si_world signed_in)).2 signed_in.
Definition user_code : string := match (CreateDeviceCode dcfg "web" ["profile"] (si_world signed_in)).1 with Ok dc => dc_UserCode dc | Err _ => "" end.
Definition yes : DeviceUserSubmitRequest := mkDeviceSubmit "" user_code "true".
Abbreviation submit_device := (DeviceUserSubmit tcfg SessionSample.cfg tr (hr_Request post) (Some yes) started).
Definition document : string :=
  match view (si_world started) (deviceCodeKey (HashToken device_secret)) with Some (Entry (RStr d) _) => d | _ => "" end.
Definition members : list (string * json) := match jparse document with Some (JObj l) => l | _ => [] end.
Lemma started_pending : in_state (view (si_world started) (deviceCodeKey (HashToken device_secret))) (Pending "web").
Proof.
  assert (view (si_world started) (deviceCodeKey (HashToken device_secret)) = Some (Entry (RStr document) (Some 1750000600000))) as ->
    by (vm_compute; reflexivity).
  exists members. split_and!; [vm_compute; reflexivity|split; vm_compute; reflexivity|vm_compute; reflexivity].
Qed.
Lemma device_approval_sound_witness :
  ∃ cl hash, submitted_hash started yes hash ∧ ∀ st, utf8_valid (cl_AccountID cl) = true →
    in_state (view (si_world started) (deviceCodeKey hash)) st → ∃ client, st = Pending client.
Proof.
  destruct (device_approval_sound tcfg SessionSample.cfg tr (hr_Request post) yes started submit_device.2) as (cl&hash&s1&_&_&Hhash&Hst).
  - reflexivity.
  - apply run_ok. vm_compute. reflexivity.
  - exists cl, hash. split; [exact Hhash|]. intros st Hu Hin. destruct (Hst st Hu Hin) as (client&Heq&_). exists client. exact Heq.
Defined.
End AuthorizeWitnesses.

(** ** Sample runs of the account adapters, and what the endpoints do in awkward moments *)

Module AdapterWitnesses.
Definition fresh : Site MemRedis := site world.
Definition checked : Site MemRedis := (IsAccountActive minute "acc-1" fresh).2.
(** Alice is suspended half a minute after the check. *)
Definition off (s : Site MemRedis) : Site MemRedis :=
  let t' := mkTables (t_clients tables) (t_consents tables)
    (mkPeople {["acc-1" := mkAccount "acc-1" (Some "alice") "Alice" None "suspended" "en" "UTC" [] t0 t0 None]} ∅ ∅ ∅ []) ∅ in
  mkSite (si_sess s) (mkDB t' t' [] [] []) (si_active s).
Definition wait (d : Z) (s : Site MemRedis) : Site MemRedis := put_world (tick d (si_world s)) s.
Definition suspended : Site MemRedis := wait (30 * second) (off checked).
Lemma validator_cache_bounded_witness :
  Z.of_nat (size (av_cache (si_active checked))) = 1 ∧ av_cacheSize (si_active checked) <= accountValidatorCacheMaxSize.
Proof.
  split; [vm_compute; reflexivity|].
  apply (validator_cache_bounded minute fresh checked eq_refl). apply rtc_once. constructor.
Defined.
Lemma suspension_takes_effect_witness :
  (IsAccountActive minute "acc-1" suspended).1 = Ok true ∧ (IsAccountActive minute "acc-1" (wait minute suspended)).1 = Ok false.
Proof.
  split; [vm_compute; reflexivity|].
  destruct (is_account_active_frame minute "acc-1" (wait minute suspended)) as (b&Hb&_). rewrite Hb. f_equal.
  apply (suspension_takes_effect minute "acc-1" fresh suspended (wait minute suspended)
    (IsAccountActive minute "acc-1" (wait minute suspended)).2).
  - discriminate.
  - reflexivity.
  - eapply rtc_l; [constructor|]. apply rtc_once. apply cs_other; [reflexivity|vm_compute; discriminate].
  - eapply rtc_l; [|constructor]. split; [apply cs_other; [reflexivity|vm_compute; discriminate]|].
    intros a Ha. apply (f_equal (λ s : Site MemRedis, w_now (si_world s))) in Ha.
    rewrite (answer_time minute a suspended) in Ha. vm_compute in Ha. discriminate.
  - vm_compute. discriminate.
  - rewrite <- Hb. apply surjective_pairing.
  - vm_compute. reflexivity.
Defined.
End AdapterWitnesses.

Module SiteDeviations.
Definition on_net (l : list fate) (s : Site MemRedis) : Site MemRedis := put_world (put_net l (si_world s)) s.
Definition idle (s : Site MemRedis) : Site MemRedis := put_world (put_net [] (si_world s)) s.

(** While Redis is away the revocation of a live refresh token answers 200; the token
    still validates when Redis is back. *)
Module Revocation.
#[local] Instance jwt : JwtLib := one_jwt (says "acc-1" "openid" "sess-1").
Definition request : RevokeRequest := mkRevokeRequest Sample.token "refresh_token" "" "".
Definition outage : Site MemRedis := on_net [Refused; Refused] with_token.
Lemma failed_revocation_answers_200 :
  let s' := idle (Revoke tcfg http (Some request) outage).2 in
  (Revoke tcfg http (Some request) outage).1 = Ok (StatusOnly 200) ∧
  is_ok (ValidateRefreshToken Sample.token (si_world s')).1 = true.
Proof. vm_compute. by split. Qed.
(** A request without credentials revokes the token of a confidential client. *)
Definition anyone : HttpRequest := http_as None.
Lemma revocation_without_credentials :
  oc_IsConfidential web = true ∧ rt_ClientID Sample.old = oc_ClientID web ∧
  let s' := (Revoke tcfg anyone (Some request) with_token).2 in
  is_ok (ValidateRefreshToken Sample.token (si_world with_token)).1 = true ∧
  is_ok (ValidateRefreshToken Sample.token (si_world s')).1 = false.
Proof. vm_compute. by split_and!. Qed.
End Revocation.

(** An authorization code issued before its session was revoked still buys a refresh
    token, which names the revoked session and validates. *)
Module Codes.
#[local] Instance jwt : JwtLib := one_jwt (says "acc-1" "profile" "sess-1").
#[local] Instance idjwt : IdJwt := one_id_jwt (base_claims "" 0 0 "" "" "" "" 0 []).
Definition ctrl : OAuth2Controller MemRedis := oauth2Ctrl tcfg settings.
Definition revoked : Site MemRedis := put_world (RevokeAllForSession (hr_Ctx http) "sess-1" (si_world start)).2 start.
Definition bought : Site MemRedis := (Token tcfg dcfg ctrl http (Some exchange) revoked).2.
Definition token : string := hex_encode (rand_block refreshTokenLength [4; 5; 6]%N).
Lemma code_outlives_session :
  is_ok (RevokeAllForSession (hr_Ctx http) "sess-1" (si_world start)).1 = true ∧
  match (ValidateRefreshToken token (si_world bought)).1 with Ok rt => rt_SessionID rt = "sess-1" | Err _ => False end.
Proof. vm_compute. by split. Qed.
End Codes.

(** An expired entry goes before the lookup, without the counter: a lookup that fails
    leaves an empty cache that counts one entry. *)
Definition on_db (l : list fate) (s : Site MemRedis) : Site MemRedis :=
  let d := si_db s in mkSite (si_sess s) (mkDB (db_base d) (db_tables d) (db_ids d) l (db_others d)) (si_active s).
Lemma failed_lookup_leaks_cache_slot :
  let s' := (IsAccountActive 0 "acc-1" (on_db [Refused] ((IsAccountActive 0 "acc-1" AdapterWitnesses.fresh).2))).2 in
  size (av_cache (si_active s')) = 0%nat ∧ av_cacheSize (si_active s') = 1.
Proof. vm_compute. by split. Qed.

(** A logout URI with a query gets a second question mark. *)
Lemma frame_url_keeps_question_mark :
  frame_url "https://sso.example" "s-a" (mkEntry "https://app.example/out?tenant=7" true "web")
    = "https://app.example/out?tenant=7?iss=https%3A%2F%2Fsso.example&sid=s-a".
Proof. vm_compute. reflexivity. Qed.
End SiteDeviations.

(** ** Requests to a limiter *)
Module LimiterWitnesses.
Definition start : World MemRedis := mkWorld ∅ (1750000000 * second) [] [] [] [].
Abbreviation limiter := (RedisRateLimitMiddleware "login" "192.0.2.7" 2 minute false).
Definition after (d : Z) (w : World MemRedis) : World MemRedis := tick d (limiter w).2.
Definition w1 : World MemRedis := after second start.
Definition w2 : World MemRedis := after second w1.
Definition w3 : World MemRedis := after (58 * second) w2.
(** Two requests pass, the third comes too early; a minute after the first one may pass. *)
Lemma rate_limit_bound_witness :
  traffic "login" "192.0.2.7" 2 minute (w_now w3 + minute) start [stamp start; stamp w1; stamp w3] ∧
  ∀ t, Z.of_nat (length (in_window minute t [stamp start; stamp w1; stamp w3])) <= 2.
Proof.
  assert (traffic "login" "192.0.2.7" 2 minute (w_now w3 + minute) start
    ([stamp start] ++ [stamp w1] ++ [] ++ [stamp w3] ++ [])) as Htr.
  { eapply (traffic_request _ _ _ _ _ start (Pass (Some (mkRateHeaders 2 1 1750000060))) _ second);
      [apply run_ok; vm_compute; reflexivity|vm_compute; reflexivity|vm_compute; discriminate|]. change (tick second _) with w1.
    eapply (traffic_request _ _ _ _ _ w1 (Pass (Some (mkRateHeaders 2 0 1750000060))) _ second);
      [apply run_ok; vm_compute; reflexivity|vm_compute; reflexivity|vm_compute; discriminate|]. change (tick second _) with w2.
    eapply (traffic_request _ _ _ _ _ w2 (TooMany (mkRateHeaders 2 0 1750000060) 58) _ (58 * second));
      [apply run_ok; vm_compute; reflexivity|vm_compute; reflexivity|vm_compute; discriminate|]. change (tick (58 * second) _) with w3.
    eapply (traffic_request _ _ _ _ _ w3 (Pass (Some (mkRateHeaders 2 0 1750000061))) _ second);
      [apply run_ok; vm_compute; reflexivity|vm_compute; reflexivity|vm_compute; discriminate|]. constructor. }
  split; [exact Htr|]. intros t.
  apply (rate_limit_bound "login" "192.0.2.7" 2 minute (w_now w3 + minute) start _ t);
    [reflexivity|vm_compute; reflexivity|vm_compute; split; discriminate|vm_compute; reflexivity|vm_compute; reflexivity|exact Htr].
Defined.
End LimiterWitnesses.
